(* ===== verification/_CoqProject ===== *)
-Q . S2P
Prelude.v
Alloc.v
PrivateAlloc.v
PoolRoom.v
CmaAlloc.v
AddressMap.v
Mem.v
Interface.v
Request.v
PageMap.v
Shadow.v
Share.v
FileOps.v
FileTheorems.v
FileExamples.v
MapRequest.v
Submit.v
RequestData.v
RequestReturn.v
Boot.v
Probe.v
DspNs.v
DspBuffer.v
DspCmd.v
Roundtrip.v
Bus.v
SubmitData.v
SubmitDataExamples.v
HwSimple.v
HwProbe.v
HwCache.v
Sync.v
Firmware.v
Fifo.v
RefHeap.v
Native.v
NativeRefs.v
NativeClient.v
NativeLost.v
NativeTheorems.v
SimMem.v
SimSync.v
SimLib.v
SimRefs.v
SimClient.v
SimSteps.v
SimLost.v
SimTheorems.v
SimExamples.v
SimBlocks.v
SimEnqueue.v
SimRun.v
SimCommand.v
SimCommandExamples.v
ExampleDsp.v
ExampleHost.v
SimCalls.v
ExampleTests.v
ExampleRuns.v
