(* ===== verification/Prelude.v ===== *)
(** * XRP: Xtensa Remote Processing, verified

    ** The program

    XRP lets Linux programs send commands to firmware on Xtensa DSPs.  A
    command is a small message with input and output data and a list of
    buffers, addressed to a namespace.  It passes through three programs:

    - the Linux library (xrp-linux-native/xrp_linux_native.c): reference
      counted devices, buffers, buffer groups, queues and events; a worker
      thread per queue takes requests in order and hands them to the driver
      by [ioctl];
    - the kernel driver (xrp-kernel/): shares the memory of a request with
      the DSP (xvp_main.c), with memory from a pool (xrp_alloc.c,
      xrp_cma_alloc.c) and an address map (xrp_address_map.c); writes the
      command to memory both sides see and waits for the answer; loads the
      firmware (xrp_firmware.c), synchronises with it, switches the core on
      and off, and reaches it through a hardware back end (xrp_hw_simple.c);
    - the DSP library (xrp-dsp/): waits for commands, finds the handler of
      the namespace, gives it the buffers, and hands the command back.

    A second library with the same interface (xrp-linux-sim/
    xrp_linux_sim.c) talks to simulated DSPs through shared memory, without a
    driver: it reads the device tree itself and allocates command data from
    pools of its own.  The example application (xrp-example/) is firmware
    with two handlers and a host program whose tests exercise the interface.

    ** Files

    Basis:
    - [Prelude]: C integers as [Z] with their wrap-around ([wrap], [phys],
      [ulong], [u32]), widths of the platform as a class ([Arch]), error
      results, [ALIGN], and the tactics and hints of the development.
    - [Mem], [Interface]: byte memory and the layout of the shared memory
      (xrp_kernel_dsp_interface.h), with the word-wise accesses of xvp_main.c.

    The driver (xrp-kernel/):
    - [Alloc]: xrp_alloc.h.  The operations table of a pool as a class
      ([AllocOps]), what a pool promises ([AllocSpec]), and allocations with
      reference counts proved against that promise alone.
    - [PrivateAlloc], [CmaAlloc]: xrp_alloc.c and xrp_cma_alloc.c, instances
      of both classes.  [PoolRoom]: when an allocation succeeds.
    - [AddressMap]: xrp_address_map.c and .h.
    - [Request]: the host side of a command (xvp_main.c): the writes of
      [xrp_fill_hw_request], the answer, the two ways to wait.
    - [PageMap], [Shadow], [Share], [MapRequest]: sharing user memory
      (xvp_main.c): page table and pinned pages, shadow copies, one block, all
      blocks of a request.  [Submit]: [xrp_ioctl_submit_sync], which composes
      them with [Request].  [RequestData], [RequestReturn]: what the DSP and
      then the user find in the blocks of a request; what the memory of a
      pool is, as a class ([PoolMemory]).
    - [FileOps], [FileTheorems], [FileExamples]: the other operations on the
      driver's files (xvp_main.c): allocating, mapping and freeing memory,
      open and close.
    - [Boot], [Probe]: starting the firmware, power management, setting up
      and removing a device (xvp_main.c).
    - [HwSimple], [HwProbe]: xrp_hw_simple.c and xrp_dsp_hw_simple.c, the two
      halves of the interrupt protocol, and the probe of the back end.
    - [HwCache]: the cache operations of xrp_hw_simple.c and their use in
      xvp_main.c, over a memory with two levels of caches.
    - [Sync]: [xrp_synchronize] and [do_handshake] as two interleaved
      programs with interrupts.
    - [Firmware]: xrp_firmware.c: segments and symbols of an ELF image.

    The DSP (xrp-dsp/xrp_dsp.c):
    - [DspNs], [DspBuffer], [DspCmd]: the namespace table, buffers and
      groups, command processing.
    - [Roundtrip]: host and DSP composed over one memory.  [Bus]: the DSP's
      view of host memory through the address map.  [SubmitData],
      [SubmitDataExamples]: a command from user space to a handler and back,
      through the driver, the bus and the DSP library.

    The Linux libraries:
    - [RefHeap]: reference counted objects and their counting invariant, for
      both libraries.
    - [Fifo], [Native]: the request list, and the library for the driver.
      [NativeRefs], [NativeClient], [NativeLost], [NativeTheorems]: its
      functions keep the invariant, its clients as a transition system, where
      references are lost, and what follows.
    - [SimMem], [SimSync], [SimLib]: the library for the simulator: shared
      regions and devices, the handshake, objects and commands.  [SimRefs],
      [SimClient], [SimSteps], [SimLost], [SimTheorems], [SimExamples]: its
      invariants and clients, and what error paths forget.
    - [SimBlocks], [SimEnqueue], [SimRun], [SimCommand],
      [SimCommandExamples]: a command from end to end, with the DSP library
      on the other side.  [SimCalls]: what each call does, exactly.

    The example (xrp-example/, xrp-dsp/xrp_dsp_framework.c):
    - [ExampleDsp], [ExampleHost]: the firmware with its main loops, and the
      tests of the host program.  [ExampleTests], [ExampleRuns]: they pass.

    State is passed explicitly; a C function that can fail returns a
    [result], and [option] around it is undefined behaviour (a use after
    free, a read outside an array) or fuel that ran out.  What the kernel or
    the C library decides - whether memory is available, which address it
    has, what user memory holds - is an argument, constrained only by what
    the theorem at hand names as a hypothesis.

    ** What is shown

    Each theorem's comment names its conditions; the main ones are here.

    - Pools: for requests whose sums of size and alignment do not wrap, every
      address of a private pool is at all times in exactly one free block, one
      allocation or one block lost by an allocation that got no second
      descriptor; results are aligned and inside the pool; two users never
      share memory; a CMA pool holds exactly the DMA memory of its live
      descriptors and returns it as it was taken.
    - Address map: translation by binary search is the reference translation;
      initialisation from ranges that do not overlap builds a sorted map that
      translates exactly them.
    - Sharing memory, with blocks that are not empty and below 2 GiB and an
      address map that ends at page boundaries: a shared block is usable by
      the DSP byte by byte, in place or as a copy; a request that is mapped, or
      fails to map, leaves no reference behind, and neither does a command
      that was submitted, unless the DSP did not answer and could not be
      restarted.
    - Caches: with the driver's cache maintenance, memory with caches the DSP
      does not see behaves as one memory for both sides, as long as the
      program keeps off the lines of blocks the DSP writes in place and no
      cache fetches these lines meanwhile.
    - Files, with mappings whose lengths and offsets fit the driver's types:
      an area maps one live allocation and nothing else, areas of different
      allocations are apart, counts are exact up to references forgotten by
      closing a file and by failed mappings, allocating and freeing are
      inverse.
    - Boot and setup: through any run of power management the core is reset
      and loaded only while it is stalled and synchronised with only while it
      runs; a device that is off and resumed is not started again, only halted
      and disabled.  A failed setup, and the removal of the driver, give back
      what was acquired but for what the theorem lists.
    - Commands: until the flag word is written the DSP sees no request; a
      command reaches the handler of its namespace with the host's data and
      buffers, and the handler's output reaches the host.  From the system
      call on: the handler finds the user's input data and buffers, in place
      or copied, and the user finds the handler's output data and every
      buffer the DSP reports written.
    - DSP library: the namespace table implements a finite map; buffers keep
      their bounds and access rights through any sequence of calls.
    - Hardware and handshake: both halves agree on the configuration and on
      interrupts; in every interleaving the handshake ends with both sides
      agreed, or with a host that waits for an interrupt that is not coming
      (registers not mapped, or host-irq-mode 0), and the DSP never takes a
      synchronisation word for a command.
    - Firmware: segments end up where the program headers say, in whole
      words; symbol data is inside the image.
    - Linux library: in every sequence of client calls and worker rounds that
      do not overlap in time no freed object is touched and counts are exact
      up to the lost references the theorem characterises; a synchronous
      command completes.  A release tests for the last reference and
      decrements without a lock: two releases that overlap can free a queue
      whose thread is running ([overlapping_queue_releases]).
    - Simulator library: the two address spaces translate into each other,
      the search of the device tree finds exactly the described devices when
      there are at most four, the handshake is the driver's; counts and the
      ownership of pool memory are exact in every sequence of calls and rounds
      up to what failed calls forget (and [overlapping_buffer_releases] is the
      same race); a command is refused only when a buffer is mapped or empty
      or the pool has no block of the size it needs, and else returns with the
      handler's results and nothing left behind.
    - Example: the handler does what it documents; the tests f1 and f3 to f7
      pass on every platform with a pool of five pages, and f2, whose commands
      run while the program goes on, in every order of its worker on one
      platform.

    Behaviour that departs from this - mostly on error paths and at the
    limits of integer types - is evaluated in [Example]s beside the theorems.

    ** Bounds and fuel

    Recursion is structural, or on fuel that is shown to be enough: the
    namespace search takes the size of the table, the page loop of a copy one
    round per byte at most, the area count one per area, segment and symbol
    loops the size of the image, waiting for a command one round per queued
    request, the search for simulated devices one per node it comes to and one
    per kind, the copy loop of the example's handler one per buffer.  The
    interleavings of test f2 are evaluated on one platform.  Integers keep
    their width where the code relies on it; reference counts of the Linux
    libraries and positions in lists are unbounded.

    ** Not modelled

    Memory barriers and, outside [HwCache], caches (memory is sequentially
    consistent; the DSP's own cache maintenance is switched off in its
    source).  Locks and overlap: in the runs of the Linux libraries each call
    and each worker round is one step, so that their theorems say nothing of
    calls that overlap in time; the release functions are split at their test
    for the last reference, and what an overlap does there is shown for
    queues and buffers.  Operations of the driver under a mutex are one step;
    the handshake is modelled access by access.  Messages, debugging dumps and
    exception handlers, module registration, and the kernel test programs
    (xrp-kernel/test/), which exercise the driver by hand. *)

From stdpp Require Import base tactics list gmap fin_sets numbers.

#[global] Open Scope Z_scope.

(** ** Fixed-width arithmetic

    Every C integer is a [Z]; an expression of an unsigned [w]-bit type is
    reduced modulo [2 ^ w] where the source evaluates it. *)

Definition wrap (w x : Z) : Z := x mod 2 ^ w.

Declare Scope xrp_scope.
Delimit Scope xrp_scope with xrp.
Notation "'u8' x" := (wrap 8 x) (at level 9, x at level 9) : xrp_scope.
Notation "'u32' x" := (wrap 32 x) (at level 9, x at level 9) : xrp_scope.
#[global] Open Scope xrp_scope.

(** Conversion to a signed [w]-bit type. *)
Definition sint (w x : Z) : Z := wrap w (x + 2 ^ (w - 1)) - 2 ^ (w - 1).

(** The widths the sources leave to the platform: [phys_addr_t] and
    [unsigned long].  Both are 32 or 64 bits on the supported hosts. *)
Class Arch := {
  phys_bits : Z;
  long_bits : Z;
  phys_bits_cases : phys_bits = 32 ∨ phys_bits = 64;
  long_bits_cases : long_bits = 32 ∨ long_bits = 64;
}.

(** 32-bit host (also the fast simulation library, where [xrp_alloc.h]
    typedefs [phys_addr_t] to [uint32_t]) and 64-bit host. *)
Definition arch32 : Arch :=
  {| phys_bits := 32; long_bits := 32;
     phys_bits_cases := or_introl eq_refl; long_bits_cases := or_introl eq_refl |}.
Definition arch64 : Arch :=
  {| phys_bits := 64; long_bits := 64;
     phys_bits_cases := or_intror eq_refl; long_bits_cases := or_intror eq_refl |}.

Abbreviation phys := (wrap phys_bits).
Abbreviation ulong := (wrap long_bits).

(** ** Error values *)

Definition ENOENT := 2.
Definition ENXIO := 6.
Definition ENOMEM := 12.
Definition EFAULT := 14.
Definition EBUSY := 16.
Definition ENODEV := 19.
Definition EINVAL := 22.
Definition ENODATA := 61.

(** A C function returning [0] or [-errno] with an out parameter. *)
Inductive result (A : Type) : Type :=
| Ok (a : A)
| Err (e : Z).
Arguments Ok {A} a.
Arguments Err {A} e.

Definition result_bind {A B} (r : result A) (f : A → result B) : result B :=
  match r with Ok a => f a | Err e => Err e end.
Notation "'let?' x ':=' r 'in' k" := (result_bind r (λ x, k))
  (at level 10, x binder, r at level 100, k at level 200) : xrp_scope.

Definition is_ok {A} (r : result A) : bool := match r with Ok _ => true | Err _ => false end.

(** ** Automation *)

(** Case analysis on the boolean comparisons of a goal or hypothesis. *)
Ltac zcase_on t :=
  lazymatch t with
  | ?a =? ?b => destruct (Z.eqb_spec a b)
  | ?a <? ?b => destruct (Z.ltb_spec a b)
  | ?a <=? ?b => destruct (Z.leb_spec a b)
  end.
Ltac zcase :=
  match goal with
  | |- context [?a =? ?b] => zcase_on (a =? b)
  | |- context [?a <? ?b] => zcase_on (a <? b)
  | |- context [?a <=? ?b] => zcase_on (a <=? b)
  | H : context [?a =? ?b] |- _ => zcase_on (a =? b)
  | H : context [?a <? ?b] |- _ => zcase_on (a <? b)
  | H : context [?a <=? ?b] |- _ => zcase_on (a <=? b)
  end; simpl in *; try done.

Create HintDb xrp.

(** ** Lemmas on [wrap] *)

Lemma wrap_small w x : 0 ≤ x < 2 ^ w → wrap w x = x.
Proof. intros. by apply Z.mod_small. Qed.

Lemma sint_small w x : - 2 ^ (w - 1) ≤ x < 2 ^ (w - 1) → 0 < w → sint w x = x.
Proof.
  intros Hx Hw. unfold sint. rewrite wrap_small; [lia |].
  replace w with (w - 1 + 1) at 3 by lia. rewrite Z.pow_add_r by lia. lia.
Qed.

Lemma wrap_range w x : 0 ≤ w → 0 ≤ wrap w x < 2 ^ w.
Proof. intros. apply Z.mod_pos_bound. by apply Z.pow_pos_nonneg. Qed.

Lemma u32_range x : 0 ≤ u32 x < 2 ^ 32.
Proof. by apply wrap_range. Qed.

Lemma u32_small x : 0 ≤ x < 2 ^ 32 → u32 x = x.
Proof. apply wrap_small. Qed.

Lemma phys_small `{Arch} x : 0 ≤ x < 2 ^ phys_bits → phys x = x.
Proof. apply wrap_small. Qed.

Lemma phys_range `{Arch} x : 0 ≤ phys x < 2 ^ phys_bits.
Proof. apply wrap_range. destruct phys_bits_cases as [-> | ->]; lia. Qed.

Lemma phys_bits_ge `{Arch} : 2 ^ 32 ≤ 2 ^ phys_bits.
Proof. destruct phys_bits_cases as [-> | ->]; lia. Qed.

Lemma wrap_idemp w x : wrap w (wrap w x) = wrap w x.
Proof. unfold wrap. by rewrite Zmod_mod. Qed.

(** Truncating a physical address to 32 bits. *)
Lemma u32_phys `{Arch} x : u32 (phys x) = u32 x.
Proof.
  unfold wrap. apply Z.mod_mod_divide.
  destruct phys_bits_cases as [-> | ->]; by apply Z.mod_divide.
Qed.

(** The wrapped end address of a block that ends at most at the top of the
    address space can only equal an address above its start when nothing
    wrapped. *)
Lemma wrap_eq_above w x y : 0 ≤ y < 2 ^ w → 0 < x ≤ 2 ^ w → wrap w x = y → y ≠ 0 → x = y.
Proof.
  unfold wrap. intros. destruct (Z.eq_dec x (2 ^ w)) as [-> |].
  - rewrite Z.mod_same in *; lia.
  - rewrite Z.mod_small in *; lia.
Qed.

#[export] Hint Resolve wrap_range u32_range phys_range : xrp.

(** ** Alignment: the [ALIGN] macro at the width of its first argument *)

Definition ALIGN (w v a : Z) : Z := Z.land (wrap w (v + a - 1)) (wrap w (- a)).

Definition PAGE_SHIFT := 12.
Definition PAGE_SIZE := 4096.

Lemma land_neg_pow2 w k x :
  0 ≤ k ≤ w → 0 ≤ x < 2 ^ w → Z.land x (wrap w (- 2 ^ k)) = x / 2 ^ k * 2 ^ k.
Proof.
  intros Hk Hx. rewrite <- Z.shiftr_div_pow2, <- Z.shiftl_mul_pow2 by lia.
  apply Z.bits_inj'. intros n Hn. rewrite Z.land_spec. unfold wrap.
  destruct (Z.lt_ge_cases n w).
  - rewrite Z.mod_pow2_bits_low by lia.
    replace (- 2 ^ k) with (Z.lnot (Z.ones k)) by (rewrite Z.ones_equiv; unfold Z.lnot; lia).
    rewrite Z.lnot_spec, Z.testbit_ones, Z.shiftl_spec by lia.
    destruct (Z.lt_ge_cases n k).
    + rewrite (Z.testbit_neg_r _ (n - k)) by lia.
      rewrite (proj2 (Z.leb_le 0 n)), (proj2 (Z.ltb_lt n k)) by lia. apply andb_false_r.
    + rewrite Z.shiftr_spec, Z.sub_add by lia.
      rewrite (proj2 (Z.ltb_ge n k)), andb_false_r by lia. apply andb_true_r.
  - rewrite Z.mod_pow2_bits_high, andb_false_r by lia.
    rewrite Z.shiftl_spec, Z.shiftr_spec, Z.sub_add by lia.
    symmetry. rewrite <- (Z.mod_small x (2 ^ w)) by lia. apply Z.mod_pow2_bits_high. lia.
Qed.

(** What the power-of-two test of the allocator establishes. *)
Lemma land_pred_pow2 a : 0 < a → Z.land a (a - 1) = 0 → a = 2 ^ Z.log2 a.
Proof.
  intros Ha Hl. destruct (Z.log2_spec a Ha) as [Hlo Hhi].
  destruct (Z.eq_dec a (2 ^ Z.log2 a)) as [| Hne]; [done |].
  assert (Hb : Z.testbit (Z.land a (a - 1)) (Z.log2 a) = true); [| rewrite Hl, Z.bits_0 in Hb; done].
  rewrite Z.land_spec, Z.bit_log2 by lia. simpl.
  replace (Z.log2 a) with (Z.log2 (a - 1)); [apply Z.bit_log2 |].
  - pose proof (Z.pow_pos_nonneg 2 (Z.log2 a)). pose proof (Z.log2_nonneg a). lia.
  - apply Z.log2_unique; pose proof (Z.log2_nonneg a); lia.
Qed.

(** [ALIGN] to a power of two rounds up, as long as the sum does not wrap. *)
Lemma ALIGN_pow2 w v k :
  0 ≤ k ≤ w → 0 ≤ v → v + 2 ^ k - 1 < 2 ^ w → ALIGN w v (2 ^ k) = (v + 2 ^ k - 1) / 2 ^ k * 2 ^ k.
Proof.
  intros. assert (0 < 2 ^ k) by (apply Z.pow_pos_nonneg; lia).
  unfold ALIGN. rewrite wrap_small by lia. apply land_neg_pow2; lia.
Qed.

Lemma ALIGN_bounds w v k :
  0 ≤ k ≤ w → 0 ≤ v → v + 2 ^ k - 1 < 2 ^ w →
  v ≤ ALIGN w v (2 ^ k) < v + 2 ^ k ∧ ALIGN w v (2 ^ k) mod 2 ^ k = 0.
Proof.
  intros. assert (0 < 2 ^ k) by (apply Z.pow_pos_nonneg; lia).
  rewrite ALIGN_pow2 by lia. split; [| apply Z.mod_mul; lia].
  pose proof (Z.div_mod (v + 2 ^ k - 1) (2 ^ k) ltac:(lia)).
  pose proof (Z.mod_pos_bound (v + 2 ^ k - 1) (2 ^ k)). lia.
Qed.

(** When the sum wraps, [ALIGN] collapses to zero. *)
Lemma ALIGN_wrap w v k :
  0 ≤ k ≤ w → 0 ≤ v < 2 ^ w → 2 ^ w ≤ v + 2 ^ k - 1 → ALIGN w v (2 ^ k) = 0.
Proof.
  intros. assert (0 < 2 ^ k) by (apply Z.pow_pos_nonneg; lia).
  assert (2 ^ k ≤ 2 ^ w) by (apply Z.pow_le_mono_r; lia).
  assert (wrap w (v + 2 ^ k - 1) = v + 2 ^ k - 1 - 2 ^ w) as E.
  { unfold wrap. symmetry. apply Z.mod_unique with 1; lia. }
  unfold ALIGN. rewrite E, land_neg_pow2 by lia.
  rewrite Z.div_small by lia. lia.
Qed.

(** The least aligned address not below [v] is the one [ALIGN] computes. *)
Lemma ALIGN_least w v k s :
  0 ≤ k ≤ w → 0 ≤ v → v ≤ s → s mod 2 ^ k = 0 → s < 2 ^ w →
  v + 2 ^ k - 1 < 2 ^ w → ALIGN w v (2 ^ k) ≤ s.
Proof.
  intros ? ? ? Hs ? ?. assert (0 < 2 ^ k) by (apply Z.pow_pos_nonneg; lia).
  rewrite ALIGN_pow2 by lia.
  pose proof (Z.div_mod s (2 ^ k) ltac:(lia)).
  assert ((v + 2 ^ k - 1) / 2 ^ k < s / 2 ^ k + 1) by (apply Z.div_lt_upper_bound; nia).
  nia.
Qed.
