(* ===== verification/Alloc.v ===== *)
(** * Allocation interface (xrp-kernel/xrp_alloc.h)

    The allocation descriptor, the table of pool operations that
    [struct xrp_allocation_pool] points to, the contract those operations
    promise to their callers, and the reference-counted wrappers
    [xrp_allocate], [xrp_allocation_get] and [xrp_allocation_put], proved
    against the contract only. *)

From stdpp Require Import base tactics list gmap fin_sets numbers.
From S2P Require Import Prelude.

(** [struct xrp_allocation]: [a_ptr] is the address of the descriptor itself;
    [next] is the position in the list that holds the descriptor and [pool] is
    the pool the operation is given. *)
Record xrp_allocation := mk_allocation {
  a_ptr : Z;
  a_start : Z;
  a_size : Z;
  a_ref : Z;
}.

Definition a_end (a : xrp_allocation) : Z := a_start a + a_size a.

Definition set_ref (a : xrp_allocation) (r : Z) : xrp_allocation :=
  mk_allocation (a_ptr a) (a_start a) (a_size a) r.

(** ** Counting the blocks of a list that contain an address *)

Definition in_block (x : Z) (a : xrp_allocation) : bool :=
  (a_start a <=? x) && (x <? a_end a).

Arguments in_block : simpl never.

Lemma in_block_spec x a :
  BoolSpec (a_start a ≤ x < a_end a) (x < a_start a ∨ a_end a ≤ x) (in_block x a).
Proof. unfold in_block. repeat zcase; constructor; lia. Qed.

(** Case analysis on membership of an address in the blocks of a goal. *)
Ltac bcase :=
  simpl in *; repeat match goal with
  | |- context [in_block ?x ?a] => destruct (in_block_spec x a)
  | H : context [in_block ?x ?a] |- _ => destruct (in_block_spec x a)
  end; unfold a_end in *; simpl in *.

Fixpoint cover (l : list xrp_allocation) (x : Z) : Z :=
  match l with
  | [] => 0
  | a :: l => (if in_block x a then 1 else 0) + cover l x
  end.

Lemma cover_nonneg l x : 0 ≤ cover l x.
Proof. induction l; simpl; [| case_match]; lia. Qed.

Lemma cover_app l1 l2 x : cover (l1 ++ l2) x = cover l1 x + cover l2 x.
Proof. induction l1; simpl; lia. Qed.

Lemma cover_in l a x : a ∈ l → a_start a ≤ x < a_end a → 1 ≤ cover l x.
Proof.
  induction l as [| b l IH]; [by intros ?%not_elem_of_nil |].
  intros [-> | Ha]%elem_of_cons Hx; simpl.
  - pose proof (cover_nonneg l x). bcase; lia.
  - specialize (IH Ha Hx). case_match; lia.
Qed.

(** ** Equality of lists of live descriptors up to order and counts *)

Definition a_key (a : xrp_allocation) : Z * Z * Z := (a_ptr a, a_start a, a_size a).

(** Two lists of descriptors are the same live set: same descriptors with the
    same ranges, in any order, whatever their reference counts. *)
Definition same_live (l1 l2 : list xrp_allocation) : Prop :=
  map a_key l1 ≡ₚ map a_key l2.

#[export] Instance same_live_equiv : Equivalence same_live.
Proof.
  unfold same_live. split; red; intros; [done | by symmetry | by etrans].
Qed.

Lemma cover_key l x :
  cover l x = foldr (λ '(_, s, n) z, (if (s <=? x) && (x <? s + n) then 1 else 0) + z) 0
                (map a_key l).
Proof. induction l as [| a l IH]; simpl; [done | by rewrite IH]. Qed.

#[export] Instance cover_proper : Proper (same_live ==> eq ==> eq) cover.
Proof.
  intros l1 l2 Hl x ? <-. rewrite !cover_key. unfold same_live in Hl.
  induction Hl as [| [[p s] n] | [[p s] n] [[q t] k] |]; simpl; [done | by rewrite IHHl | lia | lia].
Qed.

#[export] Instance cons_same_live_proper a : Proper (same_live ==> same_live) (cons a).
Proof. intros ?? Hl. unfold same_live in *. simpl. by rewrite Hl. Qed.

Lemma same_live_ptrs l1 l2 : same_live l1 l2 → map a_ptr l1 ≡ₚ map a_ptr l2.
Proof.
  unfold same_live. intros Hl. apply (Permutation_map (λ k, k.1.1)) in Hl.
  by rewrite !map_map in Hl.
Qed.

Lemma same_live_set_ref a r l : same_live (set_ref a r :: l) (a :: l).
Proof. by unfold same_live. Qed.

Lemma same_live_positive l1 l2 :
  same_live l1 l2 → Forall (λ a, 0 < a_size a) l1 → Forall (λ a, 0 < a_size a) l2.
Proof.
  unfold same_live. rewrite !List.Forall_forall. intros Hl Hp a Ha.
  assert (In (a_key a) (map a_key l1)) as Hk.
  { eapply Permutation_in; [by symmetry | by apply in_map]. }
  apply in_map_iff in Hk as (b & Hb & Hin). unfold a_key in Hb.
  specialize (Hp b Hin). simplify_eq. lia.
Qed.

(** ** The operations table *)

(** [option Z] arguments are the results of the [kzalloc] calls an operation
    makes, in order: [None] when the kernel has no memory, otherwise the
    address of the new descriptor. *)
Class AllocOps `{Arch} (P : Type) := {
  ops_heap : P → gset Z;
  ops_alloc : option Z → option Z → P → Z → Z → result xrp_allocation * P;
  ops_free : P → xrp_allocation → P;
  ops_free_pool : P → gset Z;
  ops_offset : P → xrp_allocation → Z;
}.

(** [kzalloc] returns an object that is not in use and is not NULL. *)
Definition kz_fresh (h : gset Z) (kz1 kz2 : option Z) : Prop :=
  (∀ p, kz1 = Some p → p ≠ 0 ∧ p ∉ h) ∧
  (∀ p, kz2 = Some p → p ≠ 0 ∧ p ∉ h ∧ kz1 ≠ Some p).

(** The size and alignment a pool works with. *)
Definition page_align (v : Z) : Z := ALIGN 32 v PAGE_SIZE.

(** Requests inside the range the 32-bit sums of the allocators can represent. *)
Definition valid_request `{Arch} (size align : Z) : Prop :=
  0 ≤ size ≤ 2 ^ 32 - PAGE_SIZE ∧ 0 ≤ align < 2 ^ 32 ∧
  page_align size + page_align (if align =? 0 then 1 else align) ≤ 2 ^ phys_bits.

#[export] Instance valid_request_dec `{Arch} size align : Decision (valid_request size align).
Proof. unfold valid_request. apply _. Defined.

(** ** The contract *)

Class AllocSpec `{Arch} (P : Type) `{!AllocOps P} := {
  (** [pool_inv p live]: the pool is consistent and [live] are the
      allocations handed out and not yet freed. *)
  pool_inv : P → list xrp_allocation → Prop;
  (** The physical address offsets are counted from. *)
  pool_base : P → Z;
  pool_inv_proper : Proper (eq ==> same_live ==> iff) pool_inv;
  (** No address belongs to two live allocations, no descriptor is shared. *)
  pool_inv_disjoint p live x : pool_inv p live → cover live x ≤ 1;
  pool_inv_nodup p live : pool_inv p live → NoDup (map a_ptr live);
  pool_inv_heap p live a : pool_inv p live → a ∈ live → a_ptr a ∈ ops_heap p;
  pool_alloc_ok p live kz1 kz2 size align a p' :
    pool_inv p live → kz_fresh (ops_heap p) kz1 kz2 → valid_request size align →
    ops_alloc kz1 kz2 p size align = (Ok a, p') →
    pool_inv p' (a :: live) ∧ a_ref a = 1 ∧ size ≤ a_size a ∧ pool_base p' = pool_base p ∧
    a_size a = page_align size ∧ a_start a mod PAGE_SIZE = 0;
  pool_alloc_err p live kz1 kz2 size align e p' :
    pool_inv p live → kz_fresh (ops_heap p) kz1 kz2 → valid_request size align →
    ops_alloc kz1 kz2 p size align = (Err e, p') → pool_inv p' live ∧ pool_base p' = pool_base p;
  pool_free_ok p live a :
    pool_inv p (a :: live) → pool_inv (ops_free p a) live ∧ pool_base (ops_free p a) = pool_base p;
  (** The offset of an allocation is its distance from the base. *)
  pool_offset p live a :
    pool_inv p live → a ∈ live →
    ops_offset p a = a_start a - pool_base p ∧ 0 ≤ pool_base p ≤ a_start a ∧ a_end a ≤ 2 ^ phys_bits;
  (** A failure has an error number. *)
  pool_alloc_errno kz1 kz2 p size align e p' : ops_alloc kz1 kz2 p size align = (Err e, p') → 0 < e;
}.
#[export] Existing Instance pool_inv_proper.

(** ** Reference-counted use of a pool *)

Section refcounted.
Context `{Arch} {P : Type} `{!AllocOps P}.

(** A pool together with the descriptors it has handed out, by address. *)
Record alloc_state := mk_alloc_state {
  st_pool : P;
  st_objs : gmap Z xrp_allocation;
}.

Definition xrp_allocate (kz1 kz2 : option Z) (st : alloc_state) (size align : Z)
  : result Z * alloc_state :=
  match ops_alloc kz1 kz2 (st_pool st) size align with
  | (Ok a, p) => (Ok (a_ptr a), mk_alloc_state p (<[a_ptr a := a]> (st_objs st)))
  | (Err e, p) => (Err e, mk_alloc_state p (st_objs st))
  end.

(** [atomic_inc(&xrp_allocation->ref)]; [None] when the pointer does not
    refer to a live descriptor. *)
Definition xrp_allocation_get (st : alloc_state) (ptr : Z) : option alloc_state :=
  a ← st_objs st !! ptr;
  Some (mk_alloc_state (st_pool st) (<[ptr := set_ref a (u32 (a_ref a + 1))]> (st_objs st))).

Definition xrp_free (st : alloc_state) (ptr : Z) : option alloc_state :=
  a ← st_objs st !! ptr;
  Some (mk_alloc_state (ops_free (st_pool st) a) (delete ptr (st_objs st))).

(** [if (atomic_dec_and_test(&ref)) pool->ops->free(xrp_allocation)]. *)
Definition xrp_allocation_put (st : alloc_state) (ptr : Z) : option alloc_state :=
  a ← st_objs st !! ptr;
  let a' := set_ref a (u32 (a_ref a - 1)) in
  let st' := mk_alloc_state (st_pool st) (<[ptr := a']> (st_objs st)) in
  if a_ref a' =? 0 then xrp_free st' ptr else Some st'.

Definition xrp_allocation_offset (st : alloc_state) (ptr : Z) : option Z :=
  a ← st_objs st !! ptr; Some (ops_offset (st_pool st) a).

Definition xrp_free_pool (st : alloc_state) : gset Z := ops_free_pool (st_pool st).
End refcounted.
Arguments alloc_state : clear implicits.
Arguments mk_alloc_state {P} _ _.
Arguments st_pool {P} _.
Arguments st_objs {P} _.

(** The allocations an [alloc_state] has handed out. *)
Definition live {P} (st : alloc_state P) : list xrp_allocation := (map_to_list (st_objs st)).*2.

Section refcounted_spec.
Context `{Arch} {P : Type} `{!AllocOps P} `{!AllocSpec P}.

(** Consistency of the pool with the descriptors in use. *)
Record alloc_inv (st : alloc_state P) : Prop := {
  ai_pool : pool_inv (st_pool st) (live st);
  ai_ptr : map_Forall (λ p a, a_ptr a = p) (st_objs st);
  ai_ref : map_Forall (λ _ a, 1 ≤ a_ref a < 2 ^ 32) (st_objs st);
}.

Lemma live_insert_fresh (p : P) m k a :
  m !! k = None →
  same_live (live (mk_alloc_state p (<[k := a]> m))) (a :: live (mk_alloc_state p m)).
Proof.
  intros Hk. unfold same_live, live. simpl. by rewrite (map_to_list_insert m k a Hk).
Qed.

Lemma live_delete (p : P) m k a :
  m !! k = Some a →
  same_live (live (mk_alloc_state p m)) (a :: live (mk_alloc_state p (delete k m))).
Proof.
  intros Hk. rewrite <- (insert_id m k a Hk) at 1. rewrite <- insert_delete_eq.
  apply live_insert_fresh. apply lookup_delete_eq.
Qed.

Lemma live_elem (st : alloc_state P) k a : st_objs st !! k = Some a → a ∈ live st.
Proof.
  intros Hk. apply list_elem_of_fmap. exists (k, a). split; [done |].
  by apply elem_of_map_to_list.
Qed.

(** Updating only the reference count leaves the live set unchanged. *)
Lemma live_set_ref (p : P) m k a r :
  m !! k = Some a →
  same_live (live (mk_alloc_state p (<[k := set_ref a r]> m))) (live (mk_alloc_state p m)).
Proof.
  intros Hk. rewrite (live_delete p m k a Hk), <- insert_delete_eq.
  rewrite live_insert_fresh by apply lookup_delete_eq. apply same_live_set_ref.
Qed.

Lemma alloc_inv_set_ref st k a r :
  alloc_inv st → st_objs st !! k = Some a → 1 ≤ r < 2 ^ 32 →
  alloc_inv (mk_alloc_state (st_pool st) (<[k := set_ref a r]> (st_objs st))).
Proof.
  intros [Hp Hk Hr] Ha ?. split; simpl.
  - rewrite (live_set_ref (st_pool st) _ _ _ r Ha). by destruct st.
  - apply map_Forall_insert_2; [| done]. by apply (Hk _ _ Ha).
  - by apply map_Forall_insert_2.
Qed.

Lemma alloc_inv_delete st k a :
  alloc_inv st → st_objs st !! k = Some a →
  alloc_inv (mk_alloc_state (ops_free (st_pool st) a) (delete k (st_objs st))).
Proof.
  intros [Hp Hk Hr] Ha. split; simpl; [| by apply map_Forall_delete..].
  refine (proj1 (pool_free_ok _ _ a _)). change (pool_inv (st_pool st)
    (a :: live (mk_alloc_state (st_pool st) (delete k (st_objs st))))).
  rewrite <- live_delete by done. by destruct st.
Qed.

(** Two different live descriptors never share an address. *)
Lemma live_disjoint st p q a b x :
  alloc_inv st → st_objs st !! p = Some a → st_objs st !! q = Some b → p ≠ q →
  a_start a ≤ x < a_end a → a_start b ≤ x < a_end b → False.
Proof.
  intros [Hp _ _] Ha Hb Hne Hxa Hxb. apply (pool_inv_disjoint _ _ x) in Hp.
  destruct st as [pl m]. rewrite (live_delete pl m p a Ha) in Hp.
  assert (b ∈ live (mk_alloc_state pl (delete p m))) as Hin.
  { apply (live_elem _ q). simpl. by rewrite lookup_delete_ne. }
  pose proof (cover_in _ _ _ Hin Hxb). simpl in Hp. bcase; lia.
Qed.

Lemma allocate_inv st kz1 kz2 size align p st' :
  alloc_inv st → kz_fresh (ops_heap (st_pool st)) kz1 kz2 → valid_request size align →
  xrp_allocate kz1 kz2 st size align = (Ok p, st') →
  alloc_inv st' ∧ st_objs st !! p = None ∧
  ∃ a, st_objs st' = <[p := a]> (st_objs st) ∧ a_ref a = 1 ∧ size ≤ a_size a.
Proof.
  intros [Hp Hk Hr] Hkz Hv. unfold xrp_allocate.
  destruct (ops_alloc _ _ _ _ _) as [[a | e] pl] eqn:E; [| done]. intros [= <- <-].
  destruct (pool_alloc_ok _ _ _ _ _ _ _ _ Hp Hkz Hv E) as (Hp' & Href & Hsz & _).
  assert (st_objs st !! a_ptr a = None) as Hnone.
  { destruct (st_objs st !! a_ptr a) as [b |] eqn:Eb; [| done]. exfalso.
    apply pool_inv_nodup in Hp'. simpl in Hp'. apply list.NoDup_cons in Hp' as [Hni _].
    apply Hni, list_elem_of_In, in_map_iff. exists b.
    split; [by apply (Hk _ _ Eb) | by eapply list_elem_of_In, live_elem]. }
  split; [| by eauto]. split; simpl.
  - by rewrite live_insert_fresh.
  - by apply map_Forall_insert_2.
  - apply map_Forall_insert_2; [lia | done].
Qed.

Lemma get_inv st p st' :
  alloc_inv st → xrp_allocation_get st p = Some st' →
  (∀ a, st_objs st !! p = Some a → a_ref a + 1 < 2 ^ 32) → alloc_inv st'.
Proof.
  unfold xrp_allocation_get. intros Hi Hg Hlt.
  destruct (st_objs st !! p) as [a |] eqn:E; simplify_eq/=.
  specialize (Hlt a eq_refl). pose proof (ai_ref _ Hi _ _ E) as Hr. simpl in Hr.
  apply alloc_inv_set_ref; [done.. |]. rewrite u32_small; lia.
Qed.

Lemma put_inv st p st' :
  alloc_inv st → xrp_allocation_put st p = Some st' → alloc_inv st'.
Proof.
  unfold xrp_allocation_put, xrp_free. intros Hi Hg.
  destruct (st_objs st !! p) as [a |] eqn:E; simplify_eq/=.
  pose proof (ai_ref _ Hi _ _ E) as Hr. simpl in Hr. rewrite u32_small in Hg by lia. zcase.
  - rewrite lookup_insert_eq in Hg. simplify_eq/=. rewrite delete_insert_eq.
    pose proof (alloc_inv_delete st p a Hi E) as [Hd1 Hd2 Hd3]. split; simpl in *; [| done..].
    refine (proj1 (pool_free_ok _ _ (set_ref a (a_ref a - 1)) _)).
    rewrite same_live_set_ref.
    change (pool_inv (st_pool st)
      (a :: live (mk_alloc_state (st_pool st) (delete p (st_objs st))))).
    rewrite <- live_delete by done. destruct Hi. by destruct st.
  - simplify_eq. apply alloc_inv_set_ref; [done.. | lia].
Qed.

Lemma allocate_err_inv st kz1 kz2 size align e st' :
  alloc_inv st → kz_fresh (ops_heap (st_pool st)) kz1 kz2 → valid_request size align →
  xrp_allocate kz1 kz2 st size align = (Err e, st') →
  alloc_inv st' ∧ st_objs st' = st_objs st.
Proof.
  intros [Hp Hk Hr] Hkz Hv. unfold xrp_allocate.
  destruct (ops_alloc _ _ _ _ _) as [[a | e'] pl] eqn:E; [done |]. intros [= <- <-].
  split; [| done]. split; [| done..].
  exact (proj1 (pool_alloc_err _ _ _ _ _ _ _ _ Hp Hkz Hv E)).
Qed.

(** Where a successful allocation is. *)
Lemma allocate_placed st kz1 kz2 size align p st' :
  alloc_inv st → kz_fresh (ops_heap (st_pool st)) kz1 kz2 → valid_request size align →
  xrp_allocate kz1 kz2 st size align = (Ok p, st') →
  pool_base (st_pool st') = pool_base (st_pool st) ∧
  ∃ a, st_objs st' !! p = Some a ∧ a_size a = page_align size ∧ a_start a mod PAGE_SIZE = 0.
Proof.
  intros [Hp Hk Hr] Hkz Hv. unfold xrp_allocate.
  destruct (ops_alloc _ _ _ _ _) as [[a | e] pl] eqn:E; [| done]. intros [= <- <-].
  destruct (pool_alloc_ok _ _ _ _ _ _ _ _ Hp Hkz Hv E) as (_ & _ & _ & Hb & Hsz & Hal).
  split; [done |]. exists a. split_and!; [apply lookup_insert_eq | done | done].
Qed.

Lemma allocate_err_base st kz1 kz2 size align e st' :
  alloc_inv st → kz_fresh (ops_heap (st_pool st)) kz1 kz2 → valid_request size align →
  xrp_allocate kz1 kz2 st size align = (Err e, st') → pool_base (st_pool st') = pool_base (st_pool st).
Proof.
  intros [Hp Hk Hr] Hkz Hv. unfold xrp_allocate.
  destruct (ops_alloc _ _ _ _ _) as [[a | e'] pl] eqn:E; [done |]. intros [= <- <-].
  exact (proj2 (pool_alloc_err _ _ _ _ _ _ _ _ Hp Hkz Hv E)).
Qed.

(** One call made by a user of the pool. *)
Inductive alloc_step : alloc_state P → alloc_state P → Prop :=
| step_allocate st kz1 kz2 size align r st' :
    kz_fresh (ops_heap (st_pool st)) kz1 kz2 → valid_request size align →
    xrp_allocate kz1 kz2 st size align = (r, st') → alloc_step st st'
| step_get st p a st' :
    st_objs st !! p = Some a → a_ref a + 1 < 2 ^ 32 →
    xrp_allocation_get st p = Some st' → alloc_step st st'
| step_put st p st' : xrp_allocation_put st p = Some st' → alloc_step st st'.

Lemma alloc_step_inv st st' : alloc_step st st' → alloc_inv st → alloc_inv st'.
Proof.
  destruct 1 as [st ?? size align r st' Hf Hv Ha | st p a st' Hp Hlt Hg | st p st' Hg]; intros Hi.
  - destruct r.
    + by destruct (allocate_inv _ _ _ _ _ _ _ Hi Hf Hv Ha).
    + by destruct (allocate_err_inv _ _ _ _ _ _ _ Hi Hf Hv Ha).
  - apply (get_inv _ _ _ Hi Hg). intros b Hb. by simplify_eq.
  - by eapply put_inv.
Qed.

Lemma alloc_run_inv st st' : rtc alloc_step st st' → alloc_inv st → alloc_inv st'.
Proof. induction 1; eauto using alloc_step_inv. Qed.

(** *** What the users see

    A descriptor is a block with a number of references. *)
Inductive alloc_event := EvAllocate (ptr start size : Z) | EvRefused | EvGet (ptr : Z) | EvPut (ptr : Z).
Abbreviation blocks := (gmap Z (Z * Z * Z)).
Definition count_step (m : blocks) (ev : alloc_event) : blocks :=
  match ev with
  | EvAllocate p start size => <[p := (start, size, 1)]> m
  | EvRefused => m
  | EvGet p => alter (λ b, (b.1, b.2 + 1)) p m
  | EvPut p => if decide (snd <$> m !! p = Some 1) then delete p m else alter (λ b, (b.1, b.2 - 1)) p m
  end.

(** Calls with what they did: users call [get] and [put] on descriptors they
    have, and a count stays below 2^32. *)
Inductive alloc_call : alloc_event → alloc_state P → alloc_state P → Prop :=
| call_allocate st kz1 kz2 size align p a st' :
    kz_fresh (ops_heap (st_pool st)) kz1 kz2 → valid_request size align →
    xrp_allocate kz1 kz2 st size align = (Ok p, st') → st_objs st' !! p = Some a →
    alloc_call (EvAllocate p (a_start a) (a_size a)) st st'
| call_refused st kz1 kz2 size align e st' :
    kz_fresh (ops_heap (st_pool st)) kz1 kz2 → valid_request size align →
    xrp_allocate kz1 kz2 st size align = (Err e, st') → alloc_call EvRefused st st'
| call_get st p a st' :
    st_objs st !! p = Some a → a_ref a + 1 < 2 ^ 32 → xrp_allocation_get st p = Some st' → alloc_call (EvGet p) st st'
| call_put st p st' : xrp_allocation_put st p = Some st' → alloc_call (EvPut p) st st'.
Inductive alloc_calls : list alloc_event → alloc_state P → alloc_state P → Prop :=
| calls_none st : alloc_calls [] st st
| calls_more tr ev st st' st'' : alloc_calls tr st st' → alloc_call ev st' st'' → alloc_calls (tr ++ [ev]) st st''.

Definition blocks_of (st : alloc_state P) : blocks := (λ a, (a_start a, a_size a, a_ref a)) <$> st_objs st.

Lemma alloc_call_counts ev st st' :
  alloc_inv st → alloc_call ev st st' → alloc_inv st' ∧ blocks_of st' = count_step (blocks_of st) ev.
Proof.
  intros Hi Hc. unfold blocks_of. destruct Hc as [st k1 k2 sz al p a st' Hk Hv E Ea | st k1 k2 sz al e st' Hk Hv E | st p a st' Ha Hlt E | st p st' E]; cbn [count_step].
  - destruct (allocate_inv _ _ _ _ _ _ _ Hi Hk Hv E) as (Hi' & _ & b & Eo & Hr & _). split; [done |].
    rewrite Eo in Ea |- *. rewrite lookup_insert_eq in Ea. injection Ea as <-. by rewrite fmap_insert, Hr.
  - destruct (allocate_err_inv _ _ _ _ _ _ _ Hi Hk Hv E) as [Hi' Eo]. split; [done | by rewrite Eo].
  - split; [eapply get_inv; [done | done | by intros b Hb; simplify_eq] |].
    unfold xrp_allocation_get in E. rewrite Ha in E. injection E as <-. cbn. pose proof (ai_ref _ Hi _ _ Ha) as Hr. cbn in Hr.
    rewrite u32_small by lia. apply map_eq. intros q. destruct (decide (p = q)) as [-> | Hne].
    + by rewrite lookup_fmap, lookup_insert_eq, lookup_alter_eq, lookup_fmap, Ha.
    + by rewrite lookup_fmap, lookup_insert_ne, lookup_alter_ne, lookup_fmap.
  - split; [by eapply put_inv |]. unfold xrp_allocation_put, xrp_free in E.
    destruct (st_objs st !! p) as [a |] eqn:Ha; [| done]. cbn in E. pose proof (ai_ref _ Hi _ _ Ha) as Hr. cbn in Hr.
    rewrite u32_small in E by lia. rewrite lookup_fmap, Ha. cbn. destruct (Z.eqb_spec (a_ref a - 1) 0) as [E1 | E1].
    + rewrite decide_True by (f_equal; lia). rewrite lookup_insert_eq in E. injection E as <-. cbn.
      by rewrite delete_insert_eq, fmap_delete.
    + rewrite decide_False by (intros [=]; lia). injection E as <-. cbn. apply map_eq. intros q. destruct (decide (p = q)) as [-> | Hne].
      * by rewrite lookup_fmap, lookup_insert_eq, lookup_alter_eq, lookup_fmap, Ha.
      * by rewrite lookup_fmap, lookup_insert_ne, lookup_alter_ne, lookup_fmap.
Qed.

(** C25: reference counted allocation on any pool that keeps its contract,
    over any sequence of calls by users who get and put only descriptors that
    exist, ask for sizes the sums of the allocators represent and stay below
    2^32 references.  The descriptors in use are at all times what the calls
    say: an allocation adds a block with one reference, a [get] adds one, a
    [put] takes one away, and the [put] that takes the last one, and no other,
    removes the descriptor.  The pool then has in use exactly the blocks of
    these descriptors, so a block is given back to it with its last reference
    and not before. *)
Theorem alloc_counts_refine tr st st' :
  alloc_inv st → st_objs st = ∅ → alloc_calls tr st st' →
  blocks_of st' = foldl count_step ∅ tr ∧
  map_Forall (λ _ b, 1 ≤ b.2) (foldl count_step ∅ tr) ∧
  ∃ l, pool_inv (st_pool st') l ∧
    map a_key l ≡ₚ (λ '(p, b), (p, b.1.1, b.1.2)) <$> map_to_list (foldl count_step ∅ tr).
Proof.
  intros Hi He Hr. assert (alloc_inv st' ∧ blocks_of st' = foldl count_step ∅ tr) as [Hi' Eb].
  { induction Hr as [st | tr ev st st1 st2 Hr IH Hc]; [split; [done |]; unfold blocks_of; rewrite He; apply fmap_empty |].
    destruct (IH Hi He) as [Hi1 E1]. destruct (alloc_call_counts ev st1 st2 Hi1 Hc) as [? ->]. by rewrite foldl_app, E1. }
  rewrite <- Eb. split; [done |]. split.
  - intros p b. unfold blocks_of. intros (a & <- & Ha)%lookup_fmap_Some. pose proof (ai_ref _ Hi' _ _ Ha) as Hra. cbn in *. lia.
  - exists (live st'). split; [apply Hi' |]. unfold blocks_of, live. rewrite map_to_list_fmap, <- list_fmap_compose.
    change (map a_key) with (fmap (M := list) a_key). rewrite <- list_fmap_compose. apply Permutation_refl'.
    apply list_fmap_ext. intros i [p a] Hpa. unfold a_key. cbn. repeat f_equal.
    apply list_elem_of_lookup_2, elem_of_map_to_list in Hpa. apply (ai_ptr _ Hi' _ _ Hpa).
Qed.

(** [xrp_allocation_put] undoes [xrp_allocation_get], and the put that
    drops the last reference, and only that one, returns the memory to the
    pool through [ops->free]. *)
Theorem put_after_get st p a st1 :
  alloc_inv st → st_objs st !! p = Some a → a_ref a + 1 < 2 ^ 32 →
  xrp_allocation_get st p = Some st1 →
  xrp_allocation_put st1 p = Some st ∧
  xrp_allocation_put st p =
    Some (if a_ref a =? 1
          then mk_alloc_state (ops_free (st_pool st) (set_ref a 0)) (delete p (st_objs st))
          else mk_alloc_state (st_pool st) (<[p := set_ref a (a_ref a - 1)]> (st_objs st))).
Proof.
  intros Hi Ha Hlt. pose proof (ai_ref _ Hi _ _ Ha) as Hr. simpl in Hr.
  unfold xrp_allocation_get, xrp_allocation_put, xrp_free. rewrite Ha. simpl.
  intros [= <-]. simpl. rewrite lookup_insert_eq. simpl.
  rewrite (u32_small (a_ref a + 1)) by lia.
  rewrite (u32_small (a_ref a + 1 - 1)), (u32_small (a_ref a - 1)) by lia. split.
  - replace (a_ref a + 1 - 1) with (a_ref a) by lia. zcase; [lia |].
    rewrite insert_insert_eq. destruct st as [pl m], a as [p' s' n' r']. simpl in *.
    by rewrite insert_id.
  - zcase; zcase; try lia.
    + rewrite lookup_insert_eq. simpl. rewrite delete_insert_eq. repeat f_equal. lia.
Qed.
End refcounted_spec.
