(* ===== verification/PrivateAlloc.v ===== *)
(** * Private pool allocator (xrp-kernel/xrp_alloc.c)

    The first-fit allocator over a sorted, coalesced free list, used by the
    kernel driver and by the fast simulation library.  The singly linked
    free list is a Rocq list in list order; a descriptor is named by its
    address [a_ptr]; [pl_heap] is the set of descriptors allocated for the
    pool with [kzalloc]/[kmalloc] and not yet passed to [kfree]. *)

From stdpp Require Import base tactics list gmap fin_sets numbers.
From S2P Require Import Prelude Alloc.

Record xrp_private_pool := mk_pool {
  pl_start : Z;
  pl_size : Z;
  pl_free_list : list xrp_allocation;
  pl_heap : gset Z;
}.

Definition set_block (a : xrp_allocation) (start size : Z) : xrp_allocation :=
  mk_allocation (a_ptr a) start size (a_ref a).

Section private_pool.
Context `{Arch}.

(** The loop of [xrp_private_free]: walks the list from [pcur], returns the
    new list and the descriptors passed to [kfree]. *)
Fixpoint free_loop (x : xrp_allocation) (fl : list xrp_allocation)
  : list xrp_allocation * list Z :=
  match fl with
  | [] => ([x], [])
  | cur :: next =>
      if phys (a_start cur + a_size cur) =? a_start x then
        let cur := set_block cur (a_start cur) (u32 (a_size cur + a_size x)) in
        match next with
        | n :: rest =>
            if phys (a_start cur + a_size cur) =? a_start n
            then (set_block cur (a_start cur) (u32 (a_size cur + a_size n)) :: rest,
                  [a_ptr x; a_ptr n])
            else (cur :: next, [a_ptr x])
        | [] => ([cur], [a_ptr x])
        end
      else if a_start x <? a_start cur then
        if phys (a_start x + a_size x) =? a_start cur
        then (set_block cur (a_start x) (u32 (a_size cur + a_size x)) :: next, [a_ptr x])
        else (x :: cur :: next, [])
      else
        let '(next', k) := free_loop x next in (cur :: next', k)
  end.

Definition xrp_private_free (pool : xrp_private_pool) (x : xrp_allocation) : xrp_private_pool :=
  let '(fl, k) := free_loop x (pl_free_list pool) in
  mk_pool (pl_start pool) (pl_size pool) fl (pl_heap pool ∖ list_to_set k).

(** The loop of [xrp_private_alloc].  [None] is [found == false]; otherwise
    the new free list, the values of the pointers [cur] and [new] on exit
    ([None] for NULL) and [aligned_start]. *)
Fixpoint alloc_loop (new size align : Z) (fl : list xrp_allocation)
  : option (list xrp_allocation * option Z * option Z * Z) :=
  match fl with
  | [] => None
  | cur :: next =>
      let aligned_start := ALIGN phys_bits (a_start cur) align in
      if (a_start cur <=? aligned_start) &&
         (phys (aligned_start - a_start cur + size) <=? a_size cur)
      then
        let full := phys (aligned_start + size) =? phys (a_start cur + a_size cur) in
        Some
          (if aligned_start =? a_start cur then
             if full
             then (* reusing complete block *)
               (next, Some (a_ptr cur), Some new, aligned_start)
             else (* cutting block head *)
               (set_block cur (phys (aligned_start + size))
                  (u32 (a_size cur - phys (aligned_start + size - a_start cur))) :: next,
                None, Some new, aligned_start)
           else
             if full
             then (* cutting block tail *)
               (set_block cur (a_start cur) (u32 (aligned_start - a_start cur)) :: next,
                None, Some new, aligned_start)
             else (* splitting block into two *)
               (set_block cur (a_start cur) (u32 (aligned_start - a_start cur))
                :: mk_allocation new (phys (aligned_start + size))
                     (u32 (a_start cur + a_size cur - phys (aligned_start + size))) 0
                :: next,
                None, None, aligned_start))
      else
        match alloc_loop new size align next with
        | Some (next', c, n, s) => Some (cur :: next', c, n, s)
        | None => None
        end
  end.

(** [kz1] and [kz2] are the results of the two [kzalloc] calls. *)
Definition xrp_private_alloc (kz1 kz2 : option Z) (pool : xrp_private_pool) (size align : Z)
  : result xrp_allocation * xrp_private_pool :=
  if (size =? 0) || negb (Z.land align (u32 (align - 1)) =? 0) then (Err EINVAL, pool)
  else
    let align := if align =? 0 then 1 else align in
    match kz1 with
    | None => (Err ENOMEM, pool)
    | Some new =>
        let align := page_align align in
        let size := page_align size in
        let heap := {[new]} ∪ pl_heap pool in
        match alloc_loop new size align (pl_free_list pool) with
        | None => (* kfree(new) *)
            (Err ENOMEM,
             mk_pool (pl_start pool) (pl_size pool) (pl_free_list pool) (heap ∖ {[new]}))
        | Some (fl, cur, new, aligned_start) =>
            (* if (!cur) { cur = new; new = NULL; } *)
            let '(cur, new) := match cur with
                               | Some c => (Some c, new)
                               | None => (new, None)
                               end in
            (* if (!cur) cur = kzalloc(...) *)
            match (match cur with Some c => Some (c, heap)
                   | None => kz2 ≫= λ c, Some (c, {[c]} ∪ heap) end) with
            | None => (Err ENOMEM, mk_pool (pl_start pool) (pl_size pool) fl heap)
            | Some (c, heap) =>
                (* if (new) kfree(new) *)
                let heap := match new with Some n => heap ∖ {[n]} | None => heap end in
                (Ok (mk_allocation c aligned_start size 1),
                 mk_pool (pl_start pool) (pl_size pool) fl heap)
            end
        end
    end.

(** [kfree(ppool->free_list)]: only the first descriptor; the result is the
    set of descriptors that stay allocated. *)
Definition xrp_private_free_pool (pool : xrp_private_pool) : gset Z :=
  match pl_free_list pool with
  | [] => pl_heap pool
  | cur :: _ => pl_heap pool ∖ {[a_ptr cur]}
  end.

Definition xrp_private_offset (pool : xrp_private_pool) (a : xrp_allocation) : Z :=
  phys (a_start a - pl_start pool).

#[export] Instance xrp_private_pool_ops : AllocOps xrp_private_pool := {|
  ops_heap := pl_heap;
  ops_alloc := xrp_private_alloc;
  ops_free := xrp_private_free;
  ops_free_pool := xrp_private_free_pool;
  ops_offset := xrp_private_offset;
|}.

(** [kmalloc] results: the pool object and the first descriptor. *)
Definition xrp_init_private_pool (pool_ok : bool) (kz : option Z) (start size : Z)
  : result xrp_private_pool :=
  match pool_ok, kz with
  | true, Some p => Ok (mk_pool start size [mk_allocation p start size 0] {[p]})
  | _, _ => Err ENOMEM
  end.
End private_pool.

(** ** Sorted, coalesced block lists *)

(** Blocks are nonempty, lie below [hi], and each one starts strictly above
    the end of its predecessor (the first one strictly above [lo]): sorted,
    disjoint, and with no two adjacent blocks left unmerged. *)
Fixpoint sep (lo : Z) (fl : list xrp_allocation) (hi : Z) : Prop :=
  match fl with
  | [] => True
  | b :: r => lo < a_start b ∧ 0 < a_size b ∧ a_end b ≤ hi ∧ sep (a_end b) r hi
  end.

Lemma sep_mono lo lo' fl hi : lo' ≤ lo → sep lo fl hi → sep lo' fl hi.
Proof. destruct fl; simpl; [done |]. intros. destruct_and!. repeat split; try done; lia. Qed.

Lemma sep_cover_low lo fl hi x : sep lo fl hi → x ≤ lo → cover fl x = 0.
Proof.
  revert lo. induction fl as [| b r IH]; intros lo; simpl; [done |].
  intros (? & ? & ? & Hr) ?. rewrite (IH _ Hr) by (unfold a_end; lia). bcase; lia.
Qed.

Lemma sep_cover_high lo fl hi x : sep lo fl hi → hi ≤ x → cover fl x = 0.
Proof.
  revert lo. induction fl as [| b r IH]; intros lo; simpl; [done |].
  intros (? & ? & ? & Hr) ?. rewrite (IH _ Hr) by done. bcase; lia.
Qed.

Lemma sep_cover_le1 lo fl hi x : sep lo fl hi → cover fl x ≤ 1.
Proof.
  revert lo. induction fl as [| b r IH]; intros lo; simpl; [lia |].
  intros (? & ? & ? & Hr). destruct (in_block_spec x b); [| specialize (IH _ Hr); lia].
  rewrite (sep_cover_low _ _ _ x Hr); lia.
Qed.

(** Such a list is determined by the set of addresses it covers. *)
Definition ranges (l : list xrp_allocation) : list (Z * Z) := map (λ a, (a_start a, a_size a)) l.

Lemma sep_canonical fl1 fl2 lo hi :
  sep lo fl1 hi → sep lo fl2 hi → (∀ x, cover fl1 x = cover fl2 x) → ranges fl1 = ranges fl2.
Proof.
  revert lo fl2. induction fl1 as [| b1 r1 IH]; intros lo [| b2 r2]; simpl; [done | | |].
  - intros _ (? & ? & ? & Hr) Hc. specialize (Hc (a_start b2)).
    pose proof (cover_nonneg r2 (a_start b2)). bcase; lia.
  - intros (? & ? & ? & Hr) _ Hc. specialize (Hc (a_start b1)).
    pose proof (cover_nonneg r1 (a_start b1)). bcase; lia.
  - intros (? & ? & ? & Hr1) (? & ? & ? & Hr2) Hc.
    assert (Hlow1 := λ x, sep_cover_low _ _ _ x Hr1). assert (Hlow2 := λ x, sep_cover_low _ _ _ x Hr2).
    assert (a_start b1 = a_start b2) as Es.
    { pose proof (Hc (a_start b1)) as Hs1. pose proof (Hc (a_start b2)) as Hs2.
      destruct (Z.lt_trichotomy (a_start b1) (a_start b2)) as [? | [? | ?]]; [| done |].
      - rewrite (Hlow2 (a_start b1)) in Hs1 by (unfold a_end; lia).
        pose proof (cover_nonneg r1 (a_start b1)). bcase; lia.
      - rewrite (Hlow1 (a_start b2)) in Hs2 by (unfold a_end; lia).
        pose proof (cover_nonneg r2 (a_start b2)). bcase; lia. }
    assert (a_size b1 = a_size b2) as En.
    { destruct (Z.lt_trichotomy (a_end b1) (a_end b2)) as [? | [? | ?]]; [| unfold a_end in *; lia |].
      - pose proof (Hc (a_end b1)) as He. rewrite (Hlow1 (a_end b1)) in He by lia.
        pose proof (cover_nonneg r2 (a_end b1)). bcase; lia.
      - pose proof (Hc (a_end b2)) as He. rewrite (Hlow2 (a_end b2)) in He by lia.
        pose proof (cover_nonneg r1 (a_end b2)). bcase; lia. }
    rewrite Es, En. f_equal. apply (IH (a_end b1)); [done | |].
    + by replace (a_end b1) with (a_end b2) by (unfold a_end; lia).
    + intros x. specialize (Hc x). unfold in_block, a_end in Hc. rewrite Es, En in Hc. lia.
Qed.

Section free_correct.
Context `{Arch}.

(** Addresses between [lo] and [hi] fit the address type, and any range
    between them fits a [u32] size. *)
Definition fits (lo hi : Z) : Prop := -1 ≤ lo ∧ hi ≤ 2 ^ phys_bits ∧ hi - lo - 1 < 2 ^ 32.

Lemma fits_mono lo lo' hi : lo ≤ lo' → fits lo hi → fits lo' hi.
Proof. unfold fits. lia. Qed.

(** The wrapped comparison of a block end with the start of another block
    is the comparison of the addresses. *)
Lemma end_eqb lo hi s n t :
  fits lo hi → lo < s → 0 < n → s + n ≤ hi → lo < t < hi → (phys (s + n) =? t) = (s + n =? t).
Proof.
  unfold fits. pose proof phys_bits_ge. intros.
  destruct (Z.eq_dec (s + n) (2 ^ phys_bits)) as [E | ].
  - rewrite E. unfold wrap. rewrite Z.mod_same by lia. repeat zcase; lia.
  - by rewrite phys_small by lia.
Qed.

Lemma cover_disjoint x b l :
  (∀ y, cover (x :: l) y ≤ 1) → b ∈ l → 0 < a_size x → 0 < a_size b →
  a_end x ≤ a_start b ∨ a_end b ≤ a_start x.
Proof.
  intros Hc Hb ? ?. set (y := Z.max (a_start x) (a_start b)).
  destruct (Z.le_gt_cases (a_end b) y); [unfold a_end in *; lia |].
  assert (1 ≤ cover l y) by (apply (cover_in _ b); [done | lia]).
  specialize (Hc y). simpl in Hc. destruct (in_block_spec y x); unfold a_end in *; lia.
Qed.

(** What a step of the free loop establishes for the list it produces. *)
Definition freed (lo hi : Z) (x : xrp_allocation) (fl fl' : list xrp_allocation) (k : list Z) : Prop :=
  sep lo fl' hi ∧ (∀ y, cover fl' y = cover (x :: fl) y) ∧
  map a_ptr (x :: fl) ≡ₚ k ++ map a_ptr fl'.

(** Merging [x] to the tail of [cur], and then with the block after it. *)
Lemma free_merge_tail x lo hi cur next fl' k :
  fits lo hi → sep lo (cur :: next) hi → a_end cur = a_start x → 0 < a_size x → a_end x ≤ hi →
  (∀ n, n ∈ next → a_end x ≤ a_start n ∨ a_end n ≤ a_start x) →
  phys (a_start cur + a_size cur) = a_start x →
  free_loop x (cur :: next) = (fl', k) → freed lo hi x (cur :: next) fl' k.
Proof.
  intros Hf (? & ? & ? & Hsep) Ee ?? Hxn Hp. unfold a_end, fits in *. simpl.
  rewrite (proj2 (Z.eqb_eq _ _) Hp), (u32_small (a_size cur + a_size x)) by lia.
  destruct next as [| n rest].
  - intros [= <- <-]. split; [simpl; unfold a_end; simpl; lia |]. split; [| done].
    intros y. bcase; lia.
  - destruct Hsep as (? & ? & ? & Hrest). unfold a_end in *.
    specialize (Hxn n ltac:(by left)). rewrite (end_eqb lo hi) by (unfold fits; simpl; lia). simpl.
    destruct (Z.eqb_spec (a_start cur + (a_size cur + a_size x)) (a_start n)) as [En |].
    + rewrite u32_small by lia. intros [= <- <-]. unfold freed, a_end. simpl. unfold a_end. simpl.
      split; [repeat split; try lia; eapply sep_mono; [| done]; lia |].
      split; [intros y; bcase; lia |]. apply Permutation_skip, Permutation_swap.
    + intros [= <- <-]. unfold freed, a_end. simpl. unfold a_end. simpl.
      split; [repeat split; try lia; done |]. split; [intros y; bcase; lia | done].
Qed.

Lemma free_loop_correct x lo hi fl fl' k :
  fits lo hi → sep lo fl hi → lo < a_start x → 0 < a_size x → a_end x ≤ hi →
  (∀ y, cover (x :: fl) y ≤ 1) → free_loop x fl = (fl', k) → freed lo hi x fl fl' k.
Proof.
  revert lo fl' k. induction fl as [| cur next IH]; intros lo fl' k Hf.
  { intros _ ??? _ [= <- <-]. unfold freed. simpl. repeat split; try done; lia. }
  intros Hsep ??? Hdis. pose proof Hsep as (Hlo & Hsz & Hhi & Hnext).
  pose proof (cover_disjoint x cur _ Hdis ltac:(by left)) as Hxc.
  assert (phys (a_start cur + a_size cur) = a_start x ↔ a_end cur = a_start x) as Hadj.
  { unfold a_end in *. rewrite <- !Z.eqb_eq, (end_eqb lo hi); [done.. | lia]. }
  destruct (Z.eq_dec (a_end cur) (a_start x)) as [Ee | Ne].
  { apply free_merge_tail; try done; [| by apply Hadj].
    intros n Hn. apply (cover_disjoint x n (cur :: next)); [done | by right | done |].
    clear -Hn Hnext. revert Hnext. generalize (a_end cur). induction next as [| m r IH]; intros z.
    - by apply not_elem_of_nil in Hn.
    - intros (? & ? & ? & Hr). apply elem_of_cons in Hn as [-> |]; eauto. }
  simpl. destruct (Z.eqb_spec (phys (a_start cur + a_size cur)) (a_start x)) as [?%Hadj |]; [done |].
  destruct (Z.ltb_spec (a_start x) (a_start cur)).
  - unfold a_end, fits in *. rewrite (end_eqb lo hi) by (unfold fits; lia).
    destruct (Z.eqb_spec (a_start x + a_size x) (a_start cur)).
    + rewrite u32_small by lia. intros [= <- <-]. unfold freed. simpl. unfold a_end. simpl.
      split; [repeat split; try lia; eapply sep_mono; [| done]; unfold a_end; lia |].
      split; [intros y; bcase; lia | done].
    + intros [= <- <-]. unfold freed. simpl. unfold a_end. split; [repeat split; try lia; done |]. done.
  - destruct (free_loop x next) as [next' k'] eqn:E. intros [= <- <-].
    destruct (IH (a_end cur) next' k') as (Hs & Hc & Hp); try done.
    { eapply fits_mono; [| done]. unfold a_end; lia. } { unfold a_end in *; lia. }
    { intros y. specialize (Hdis y). simpl in *. case_match; case_match; lia. }
    unfold freed. simpl. repeat split; try done.
    + intros y. rewrite Hc. simpl. lia.
    + rewrite Permutation_swap. simpl in Hp. rewrite Hp. by rewrite Permutation_middle.
Qed.
End free_correct.

Section alloc_correct.
Context `{Arch}.

Lemma phys_eqb_pos x y :
  0 < x ≤ 2 ^ phys_bits → 0 < y ≤ 2 ^ phys_bits → (phys x =? phys y) = (x =? y).
Proof.
  intros. assert (∀ z, 0 < z ≤ 2 ^ phys_bits → phys z = if z =? 2 ^ phys_bits then 0 else z) as E.
  { intros z ?. zcase; [subst; unfold wrap; apply Z.mod_same; lia | apply phys_small; lia]. }
  rewrite !E by done. repeat zcase; lia.
Qed.

(** [align] as the loop sees it: a power of two that with [size] does not
    exceed the address space. *)
Definition good_request (size align : Z) : Prop :=
  ∃ k, 0 ≤ k ≤ phys_bits ∧ align = 2 ^ k ∧ 0 < size < 2 ^ 32 ∧ size + align ≤ 2 ^ phys_bits.

Definition fit_test (cur : xrp_allocation) (size align : Z) : bool :=
  (a_start cur <=? ALIGN phys_bits (a_start cur) align) &&
  (phys (ALIGN phys_bits (a_start cur) align - a_start cur + size) <=? a_size cur).

(** The two guards of the loop accept a block exactly when an aligned range
    of the requested size fits in it, and then select the lowest one. *)
Lemma fit_test_true cur size align :
  good_request size align → 0 ≤ a_start cur → 0 < a_size cur → a_end cur ≤ 2 ^ phys_bits →
  fit_test cur size align = true →
  let s := ALIGN phys_bits (a_start cur) align in
  a_start cur ≤ s ∧ s + size ≤ a_end cur ∧ s mod align = 0.
Proof.
  intros (k & ? & -> & ? & ?) ???. unfold fit_test, a_end in *. intros [Hle Hs]%andb_true_iff.
  apply Z.leb_le in Hle, Hs. assert (0 < 2 ^ k) by (apply Z.pow_pos_nonneg; lia).
  destruct (Z.lt_ge_cases (a_start cur + 2 ^ k - 1) (2 ^ phys_bits)).
  - destruct (ALIGN_bounds phys_bits (a_start cur) k) as [? ?]; [lia.. |].
    rewrite phys_small in Hs by lia. repeat split; [lia.. | done].
  - rewrite ALIGN_wrap in Hle by lia. lia.
Qed.

Lemma fit_test_false cur size align s :
  good_request size align → 0 ≤ a_start cur → 0 < a_size cur → a_end cur ≤ 2 ^ phys_bits →
  fit_test cur size align = false →
  a_start cur ≤ s → s mod align = 0 → s + size ≤ a_end cur → False.
Proof.
  intros (k & ? & -> & ? & ?) ???. unfold fit_test, a_end in *.
  rewrite andb_false_iff, !Z.leb_gt. intros Ht ? Hs ?.
  assert (0 < 2 ^ k) by (apply Z.pow_pos_nonneg; lia).
  destruct (Z.lt_ge_cases (a_start cur + 2 ^ k - 1) (2 ^ phys_bits)).
  - destruct (ALIGN_bounds phys_bits (a_start cur) k) as [? ?]; [lia.. |].
    pose proof (ALIGN_least phys_bits (a_start cur) k s).
    rewrite phys_small in Ht by lia. lia.
  - assert (2 ^ phys_bits = 2 ^ k * 2 ^ (phys_bits - k)) as E
      by (rewrite <- Z.pow_add_r by lia; f_equal; lia).
    pose proof (Z.div_mod s (2 ^ k) ltac:(lia)). rewrite E in *.
    assert (s / 2 ^ k < 2 ^ (phys_bits - k)) by (apply Z.div_lt_upper_bound; nia). nia.
Qed.

(** Where the descriptors go: [cur] and [new] are the pointers the loop
    leaves, NULL being [None]. *)
Definition ptrs_moved (new : Z) (fl fl' : list xrp_allocation) (cur new' : option Z) : Prop :=
  match cur, new' with
  | Some c, Some n => n = new ∧ map a_ptr fl ≡ₚ c :: map a_ptr fl'
  | None, Some n => n = new ∧ map a_ptr fl' = map a_ptr fl
  | None, None => map a_ptr fl' ≡ₚ new :: map a_ptr fl
  | Some _, None => False
  end.

Definition carved (lo hi new size align : Z) (fl fl' : list xrp_allocation) (cur new' : option Z) (s : Z) : Prop :=
  sep lo fl' hi ∧ lo < s ∧ s + size ≤ hi ∧ s mod align = 0 ∧
  (∀ y, cover fl y = cover fl' y + (if in_block y (mk_allocation 0 s size 0) then 1 else 0)) ∧
  ptrs_moved new fl fl' cur new'.

Lemma alloc_loop_correct new size align lo hi fl fl' c n s :
  good_request size align → fits lo hi → sep lo fl hi →
  alloc_loop new size align fl = Some (fl', c, n, s) → carved lo hi new size align fl fl' c n s.
Proof.
  intros Hg. revert lo fl'. induction fl as [| cur next IH]; intros lo fl' Hf; [done |].
  intros (? & ? & ? & Hsep). simpl. pose proof Hf as (? & ? & ?).
  pose proof (fit_test_true cur size align Hg) as Ht. unfold fit_test in Ht.
  destruct (_ && _); [clear IH | clear Ht].
  - destruct (Ht ltac:(lia) ltac:(lia) ltac:(lia) eq_refl) as (? & ? & ?). clear Ht.
    set (as_ := ALIGN phys_bits (a_start cur) align) in *. clearbody as_.
    unfold a_end in *. assert (0 < size) by (destruct Hg as (? & ? & ? & ? & ?); lia).
    rewrite phys_eqb_pos by lia. pose proof phys_bits_ge.
    unfold carved, ptrs_moved. rewrite (u32_small (as_ - a_start cur)) by lia.
    intros [= He]. revert He. destruct (Z.eqb_spec as_ (a_start cur)), (Z.eqb_spec (as_ + size) (a_start cur + a_size cur));
      intros [= <- <- <- <-].
    + split; [eapply sep_mono; [| done]; unfold a_end; lia |].
      repeat split; try lia; try done. intros y. bcase; lia.
    + rewrite (phys_small (as_ + size)), (phys_small (_ - _)), u32_small by lia.
      simpl. unfold a_end. simpl.
      split; [repeat split; try lia; eapply sep_mono; [| done]; unfold a_end; lia |].
      repeat split; try lia; try done. intros y. bcase; lia.
    + simpl. unfold a_end. simpl.
      split; [repeat split; try lia; eapply sep_mono; [| done]; unfold a_end; lia |].
      repeat split; try lia; try done. intros y. bcase; lia.
    + rewrite (phys_small (as_ + size)), u32_small by lia.
      simpl. unfold a_end. simpl.
      split; [repeat split; try lia; eapply sep_mono; [| done]; unfold a_end; lia |].
      repeat split; try lia; try done; [intros y; bcase; lia | apply Permutation_swap].
  - destruct (alloc_loop new size align next) as [[[[next' c'] n'] s'] |] eqn:E; [| done].
    intros [= <- <- <- <-]. destruct (IH (a_end cur) next') as (? & ? & ? & ? & Hc & Hp); [| done.. |].
    { eapply fits_mono; [| done]. unfold a_end; lia. }
    unfold carved. simpl. repeat split; try done; [unfold a_end in *; lia | intros y; rewrite Hc; lia |].
    unfold ptrs_moved in *. destruct c' as [c' |], n' as [n' |]; try done; simpl.
    + destruct Hp as [-> Hp]. split; [done |]. rewrite Hp. apply Permutation_swap.
    + destruct Hp as [-> Hp]. by rewrite Hp.
    + rewrite Hp. apply Permutation_swap.
Qed.
End alloc_correct.

Section request.
Context `{Arch}.

Lemma page_align_bounds v :
  0 ≤ v ≤ 2 ^ 32 - PAGE_SIZE → v ≤ page_align v < v + PAGE_SIZE ∧ page_align v mod PAGE_SIZE = 0.
Proof.
  unfold page_align, PAGE_SIZE. intros. change 4096 with (2 ^ 12).
  apply ALIGN_bounds; lia.
Qed.

Lemma page_align_pow2 k : 0 ≤ k < 32 → page_align (2 ^ k) = 2 ^ Z.max k 12.
Proof.
  intros Hk. unfold page_align, PAGE_SIZE. change 4096 with (2 ^ 12).
  assert (2 ^ k ≤ 2 ^ 31) by (apply Z.pow_le_mono_r; lia).
  assert (0 < 2 ^ k) by (apply Z.pow_pos_nonneg; lia).
  rewrite ALIGN_pow2 by lia. destruct (Z.le_gt_cases k 12).
  - rewrite Z.max_r by lia. assert (2 ^ k ≤ 2 ^ 12) by (apply Z.pow_le_mono_r; lia).
    replace ((2 ^ k + 2 ^ 12 - 1) / 2 ^ 12) with 1; [lia |].
    apply Z.div_unique with (2 ^ k - 1); lia.
  - rewrite Z.max_l by lia.
    replace k with ((k - 12) + 12) at 1 by lia. rewrite Z.pow_add_r by lia.
    rewrite <- Z.add_sub_assoc, Z.div_add_l by lia.
    change ((2 ^ 12 - 1) / 2 ^ 12) with 0. rewrite Z.add_0_r, <- Z.pow_add_r by lia. f_equal. lia.
Qed.

(** The checks at the top of [xrp_private_alloc] leave a request the loop
    can handle. *)
Lemma request_good size align :
  valid_request size align → size ≠ 0 → Z.land align (u32 (align - 1)) = 0 →
  good_request (page_align size) (page_align (if align =? 0 then 1 else align)).
Proof.
  intros (Hs & Ha & Hv) Hs0 Hp.
  assert (∃ k, 0 ≤ k < 32 ∧ (if align =? 0 then 1 else align) = 2 ^ k) as (k & Hk & E).
  { destruct (Z.eqb_spec align 0); [by exists 0 |]. exists (Z.log2 align).
    rewrite u32_small in Hp by lia. split; [| apply land_pred_pow2; lia].
    split; [apply Z.log2_nonneg | apply Z.log2_lt_pow2; lia]. }
  rewrite E in *. rewrite page_align_pow2 in * by done.
  pose proof (page_align_bounds size Hs). unfold PAGE_SIZE in *.
  exists (Z.max k 12). repeat split; try lia. destruct phys_bits_cases; lia.
Qed.
End request.

Lemma alloc_loop_none `{Arch} new size align lo hi fl cur s :
  good_request size align → fits lo hi → sep lo fl hi →
  alloc_loop new size align fl = None → cur ∈ fl →
  a_start cur ≤ s → s mod align = 0 → s + size ≤ a_end cur → False.
Proof.
  intros Hg. revert lo. induction fl as [| b next IH]; intros lo Hf; [by intros _ _ ?%not_elem_of_nil |].
  intros (? & ? & ? & Hsep). simpl. pose proof Hf as (? & ? & ?).
  pose proof (fit_test_false b size align s Hg) as Ht. unfold fit_test in Ht.
  destruct (_ && _); [done |]. destruct (alloc_loop _ _ _ next) as [[[[? ?] ?] ?] |] eqn:E; [done |].
  intros _ [-> | Hin]%elem_of_cons.
  - by apply Ht; [lia.. |].
  - apply (IH (a_end b)); try done. eapply fits_mono; [| done]. unfold a_end; lia.
Qed.

(** ** Descriptor accounting *)

(** [l] lists, without repetition, exactly the allocated descriptors. *)
Definition heap_ok (h : gset Z) (l : list Z) : Prop := NoDup l ∧ h = list_to_set l.

#[export] Instance heap_ok_proper : Proper (eq ==> Permutation ==> iff) heap_ok.
Proof.
  intros h ? <- l1 l2 Hl.
  assert ((list_to_set l1 : gset Z) = list_to_set l2) as E by (apply leibniz_equiv; by rewrite Hl).
  unfold heap_ok. by rewrite E, Hl.
Qed.

Lemma heap_ok_cons h l p : heap_ok h l → p ∉ h → heap_ok ({[p]} ∪ h) (p :: l).
Proof. intros [Hn ->] Hp. split; [| done]. apply list.NoDup_cons. set_solver. Qed.

Lemma heap_ok_remove h k l : heap_ok h (k ++ l) → heap_ok (h ∖ list_to_set k) l.
Proof.
  intros [Hn ->]. apply list.NoDup_app in Hn as (? & Hd & ?). split; [done |].
  apply leibniz_equiv. rewrite list_to_set_app. set_solver.
Qed.

(** The pool's whole range as a block. *)
Definition region (p : xrp_private_pool) : xrp_allocation :=
  mk_allocation 0 (pl_start p) (pl_size p) 0.

Section pool_invariant.
Context `{Arch}.

Definition all_ptrs (p : xrp_private_pool) (live : list xrp_allocation) : list Z :=
  map a_ptr (pl_free_list p) ++ map a_ptr live.

(** Consistency of a private pool and its live allocations. *)
Record private_inv (p : xrp_private_pool) (live : list xrp_allocation) : Prop := {
  pi_region : 0 ≤ pl_start p ∧ 0 < pl_size p < 2 ^ 32 ∧ a_end (region p) ≤ 2 ^ phys_bits;
  pi_sep : sep (pl_start p - 1) (pl_free_list p) (a_end (region p));
  pi_live : Forall (λ a, 0 < a_size a) live;
  pi_cover x : cover (pl_free_list p) x + cover live x ≤ if in_block x (region p) then 1 else 0;
  pi_heap : heap_ok (pl_heap p) (all_ptrs p live);
}.

(** Nothing has been lost: every address of the pool is free or live. *)
Definition conserved (p : xrp_private_pool) (live : list xrp_allocation) : Prop :=
  ∀ x, cover (pl_free_list p) x + cover live x = if in_block x (region p) then 1 else 0.

#[export] Instance private_inv_proper : Proper (eq ==> same_live ==> iff) private_inv.
Proof.
  intros p ? <-. apply proper_sym_impl_iff; [apply _ |]. intros l1 l2 Hl [? ? Hp Hc Hh].
  split; try done.
  - by eapply same_live_positive.
  - intros x. rewrite <- Hl. apply Hc.
  - unfold all_ptrs in *. by rewrite <- (same_live_ptrs _ _ Hl).
Qed.

Lemma private_fits p live : private_inv p live → fits (pl_start p - 1) (a_end (region p)).
Proof. intros [Hr _ _ _ _]. unfold fits, a_end, region in *. simpl in *. lia. Qed.

Lemma private_live_in_region p live a :
  private_inv p live → a ∈ live → pl_start p ≤ a_start a ∧ a_end a ≤ a_end (region p).
Proof.
  intros [Hr _ Hl Hc _] Ha. pose proof (proj1 (list.Forall_forall _ _) Hl a Ha) as Hs. simpl in Hs.
  pose proof (Hc (a_start a)) as Hx1. pose proof (Hc (a_end a - 1)) as Hx2.
  pose proof (cover_nonneg (pl_free_list p) (a_start a)).
  pose proof (cover_nonneg (pl_free_list p) (a_end a - 1)).
  pose proof (cover_in live a (a_start a) Ha). pose proof (cover_in live a (a_end a - 1) Ha).
  destruct (in_block_spec (a_start a) (region p)), (in_block_spec (a_end a - 1) (region p));
    unfold a_end in *; simpl in *; lia.
Qed.

Lemma private_init_inv start size p :
  0 ≤ start → 0 < size < 2 ^ 32 → start + size ≤ 2 ^ phys_bits →
  let pool := mk_pool start size [mk_allocation p start size 0] {[p]} in
  private_inv pool [] ∧ conserved pool [].
Proof.
  intros ???. split; [split |]; simpl; unfold a_end; simpl; try done.
  - lia.
  - intros x. unfold region. bcase; lia.
  - split; [apply NoDup_singleton | unfold all_ptrs; simpl; set_solver].
  - intros x. simpl. unfold region. bcase; lia.
Qed.

Lemma private_free_inv p live a :
  private_inv p (a :: live) →
  private_inv (xrp_private_free p a) live ∧
  (∀ y, cover (pl_free_list (xrp_private_free p a)) y = cover (a :: pl_free_list p) y).
Proof.
  intros Hi. pose proof (private_live_in_region _ _ a Hi ltac:(by left)) as [? ?].
  pose proof (private_fits _ _ Hi) as Hf. destruct Hi as [Hr Hs Hl Hc Hh].
  apply list.Forall_cons in Hl as [Ha Hl]. unfold xrp_private_free.
  destruct (free_loop a (pl_free_list p)) as [fl' k] eqn:E.
  assert (freed (pl_start p - 1) (a_end (region p)) a (pl_free_list p) fl' k) as (Hs' & Hc' & Hp').
  { apply free_loop_correct; try done; [lia |]. intros y. specialize (Hc y).
    pose proof (cover_nonneg live y). simpl in *. repeat case_match; lia. }
  split; [split |]; simpl; try done.
  - intros x. rewrite Hc'. specialize (Hc x). unfold region in *. simpl in *. lia.
  - unfold all_ptrs in *. simpl in *. apply heap_ok_remove.
    rewrite app_assoc, <- Hp'. simpl. by rewrite Permutation_middle.
Qed.
End pool_invariant.

Section alloc_invariant.
Context `{Arch}.

Definition eff_align (align : Z) : Z := page_align (if align =? 0 then 1 else align).

(** The outcome of one allocation request on a consistent pool. *)
Definition alloc_outcome (kz2 : option Z) (p : xrp_private_pool) (live : list xrp_allocation)
    (size align : Z) (r : result xrp_allocation) (p' : xrp_private_pool) : Prop :=
  match r with
  | Ok a =>
      private_inv p' (a :: live) ∧ a_ref a = 1 ∧ a_size a = page_align size ∧
      a_start a mod eff_align align = 0 ∧ region p' = region p ∧
      ∀ y, cover (pl_free_list p) y = cover (a :: pl_free_list p') y
  | Err e =>
      private_inv p' live ∧ region p' = region p ∧
      ((e = EINVAL ∧ p' = p) ∨ (e = ENOMEM ∧ (p' = p ∨ kz2 = None ∧
         ∃ s, 0 < page_align size ∧ ∀ y, cover (pl_free_list p) y = cover (mk_allocation 0 s (page_align size) 1 :: pl_free_list p') y)))
  end.

(** Carving a block out of the free list and handing it out under the
    descriptor [c] keeps the pool consistent. *)
Lemma private_carve_inv p live new size align fl' cur new' s c h :
  private_inv p live → 0 < size →
  carved (pl_start p - 1) (a_end (region p)) new size align (pl_free_list p) fl' cur new' s →
  heap_ok h (map a_ptr fl' ++ c :: map a_ptr live) →
  private_inv (mk_pool (pl_start p) (pl_size p) fl' h) (mk_allocation c s size 1 :: live).
Proof.
  intros [Hr Hs Hl Hc Hh] ? (Hs' & _ & _ & _ & Hc' & _) Hh'. split; simpl; try done.
  - by constructor.
  - intros x. specialize (Hc x). rewrite Hc' in Hc. unfold in_block, a_end in *. simpl in *. lia.
Qed.

Lemma private_alloc_spec p live kz1 kz2 size align r p' :
  private_inv p live → kz_fresh (pl_heap p) kz1 kz2 → valid_request size align →
  xrp_private_alloc kz1 kz2 p size align = (r, p') →
  alloc_outcome kz2 p live size align r p'.
Proof.
  intros Hi [Hk1 Hk2] Hv. unfold xrp_private_alloc, alloc_outcome.
  destruct (Z.eqb_spec size 0), (Z.eqb_spec (Z.land align (u32 (align - 1))) 0);
    try (intros [= <- <-]; simpl; by auto 10).
  pose proof (request_good _ _ Hv ltac:(done) ltac:(done)) as Hg.
  change (page_align (if align =? 0 then 1 else align)) with (eff_align align) in *. simpl.
  destruct kz1 as [new |]; [| intros [= <- <-]; by auto 10].
  destruct (Hk1 new eq_refl) as [_ Hnew]. clear Hk1.
  assert (({[new]} ∪ pl_heap p) ∖ {[new]} = pl_heap p) as Hback by set_solver.
  destruct (alloc_loop _ _ _ _) as [[[[fl' cur] new'] s] |] eqn:E.
  - assert (0 < page_align size) as Hpos by (destruct Hg as (? & _ & _ & ? & _); lia).
    apply (alloc_loop_correct _ _ _ _ _ _ _ _ _ _ Hg (private_fits _ _ Hi) (pi_sep _ _ Hi)) in E.
    assert (Hput := λ c h, private_carve_inv p live new _ _ fl' cur new' s c h Hi Hpos E).
    pose proof E as (Hs' & _ & _ & Hal & Hc & Hp). pose proof (pi_heap _ _ Hi) as Hh. unfold all_ptrs in Hh.
    assert (∀ c y, cover (pl_free_list p) y = cover (mk_allocation c s (page_align size) 1 :: fl') y) as Hc'.
    { intros c y. rewrite Hc. simpl. unfold in_block, a_end. simpl. lia. }
    destruct cur as [c |], new' as [m |]; simpl in Hp; try done.
    + destruct Hp as [-> Hp]. intros [= <- <-]. split_and!; [apply Hput | done.. | apply Hc'].
      rewrite Hback, <- Permutation_middle. by rewrite Hp in Hh.
    + destruct Hp as [-> Hp]. intros [= <- <-]. split_and!; [apply Hput | done.. | apply Hc'].
      rewrite <- Permutation_middle, Hp. by apply heap_ok_cons.
    + destruct kz2 as [c |].
      * intros [= <- <-]. destruct (Hk2 c eq_refl) as (_ & Hc2 & Hne).
        split_and!; [apply Hput | done.. | apply Hc']. rewrite <- Permutation_middle, Hp.
        apply heap_ok_cons; [by apply heap_ok_cons | set_solver].
      * intros [= <- <-]. simpl. split_and!; try done; [split; simpl; try by destruct Hi | right; split; [done | right; split; [done |]; exists s; split; [done | apply Hc']]].
        -- intros x. pose proof (pi_cover _ _ Hi x) as Hx. rewrite Hc in Hx. unfold region in *. simpl in *.
           repeat case_match; lia.
        -- unfold all_ptrs. simpl. rewrite Hp. by apply heap_ok_cons.
  - rewrite Hback. destruct p. intros [= <- <-]. by auto 10.
Qed.

Lemma page_align_divide v : (PAGE_SIZE | page_align v).
Proof.
  unfold page_align, ALIGN. change PAGE_SIZE with (2 ^ 12).
  rewrite land_neg_pow2; [by eexists | lia | apply u32_range].
Qed.

Lemma private_alloc_aligned p live kz1 kz2 size align a p' :
  private_inv p live → kz_fresh (pl_heap p) kz1 kz2 → valid_request size align →
  xrp_private_alloc kz1 kz2 p size align = (Ok a, p') → a_start a mod PAGE_SIZE = 0.
Proof.
  intros Hi Hk Hv Ha. destruct (private_alloc_spec _ _ _ _ _ _ _ _ Hi Hk Hv Ha) as (_ & _ & _ & Hal & _).
  revert Ha. unfold xrp_private_alloc. destruct (Z.eqb_spec size 0); [done |].
  destruct (Z.eqb_spec (Z.land align (u32 (align - 1))) 0) as [Hp |]; [| done]. intros _.
  destruct (request_good _ _ Hv ltac:(done) Hp) as (k & Hk12 & E & _).
  unfold eff_align in Hal. rewrite E in Hal. apply Z.mod_divide in Hal; [| pose proof (Z.pow_pos_nonneg 2 k); lia].
  apply Z.mod_divide; [done |]. etrans; [| done]. rewrite <- E. apply page_align_divide.
Qed.

(** The offset handed to [vm_mmap] addresses the allocation inside the pool. *)
Lemma private_offset_bounds p live a :
  private_inv p live → a ∈ live →
  xrp_private_offset p a = a_start a - pl_start p ∧
  0 ≤ xrp_private_offset p a ∧ xrp_private_offset p a + a_size a ≤ pl_size p.
Proof.
  intros Hi Ha. destruct (private_live_in_region _ _ a Hi Ha). destruct Hi as [? _ Hl _ _].
  pose proof (proj1 (list.Forall_forall _ _) Hl a Ha) as Hs.
  unfold xrp_private_offset, a_end, region in *. simpl in *. rewrite phys_small; [lia |].
  pose proof phys_bits_ge. lia.
Qed.
End alloc_invariant.

(** The private pool honours the allocation contract. *)
#[export, refine] Instance private_pool_spec `{Arch} : AllocSpec xrp_private_pool :=
  {| pool_inv := private_inv; pool_base := pl_start |}.
Proof.
  - intros p live x Hi. pose proof (pi_cover _ _ Hi x). pose proof (cover_nonneg (pl_free_list p) x).
    case_match; lia.
  - intros p live Hi. destruct (pi_heap _ _ Hi) as [Hn _]. by apply list.NoDup_app in Hn as (_ & _ & ?).
  - intros p live a Hi Ha. destruct (pi_heap _ _ Hi) as [_ Hh]. simpl. rewrite Hh.
    apply elem_of_list_to_set, elem_of_app. right. apply list_elem_of_In, in_map. by apply list_elem_of_In.
  - intros p live kz1 kz2 size align a p' Hi Hk Hv Ha.
    destruct (private_alloc_spec _ _ _ _ _ _ _ _ Hi Hk Hv Ha) as (? & ? & Hs & _ & Hr & _).
    split_and!; try done; [rewrite Hs; apply page_align_bounds, Hv | by injection Hr as E _ | exact (private_alloc_aligned _ _ _ _ _ _ _ _ Hi Hk Hv Ha)].
  - intros p live kz1 kz2 size align e p' Hi Hk Hv Ha.
    destruct (private_alloc_spec _ _ _ _ _ _ _ _ Hi Hk Hv Ha) as (? & Hr & _). by injection Hr as E _.
  - intros p live a Hi. split; [by apply private_free_inv |]. cbn. unfold xrp_private_free. by destruct (free_loop _ _).
  - intros p live a Hi Ha. destruct (private_offset_bounds p live a Hi Ha) as (E & ? & ?).
    destruct (private_live_in_region _ _ a Hi Ha). destruct Hi as [(? & ? & ?) _ _ _ _]. cbn. lia.
  - intros kz1 kz2 p size align e p'. cbn. unfold xrp_private_alloc. repeat (case_match; try done); by intros [= <- _].
Defined.

(** ** Sequences of operations on one pool *)

Section pool_runs.
Context `{Arch}.

(** A pool and the allocations in use.  [lost]: whether the step is a failed
    allocation that changed the free list, as it does when the second
    [kzalloc] fails after a block was split ([split_oom_loses_range]). *)
Definition lossy (p p' : xrp_private_pool) : nat := if decide (ranges (pl_free_list p') = ranges (pl_free_list p)) then 0 else 1.
Inductive pool_step : nat → xrp_private_pool * list xrp_allocation →
                      xrp_private_pool * list xrp_allocation → Prop :=
| pool_step_alloc p live kz1 kz2 size align a p' :
    kz_fresh (pl_heap p) kz1 kz2 → valid_request size align →
    xrp_private_alloc kz1 kz2 p size align = (Ok a, p') →
    pool_step 0 (p, live) (p', a :: live)
| pool_step_fail p live kz1 kz2 size align e p' :
    kz_fresh (pl_heap p) kz1 kz2 → valid_request size align →
    xrp_private_alloc kz1 kz2 p size align = (Err e, p') →
    pool_step (lossy p p') (p, live) (p', live)
| pool_step_free p live1 a live2 :
    pool_step 0 (p, live1 ++ a :: live2) (xrp_private_free p a, live1 ++ live2).
Inductive pool_run : nat → xrp_private_pool * list xrp_allocation →
                     xrp_private_pool * list xrp_allocation → Prop :=
| pool_run_none s : pool_run 0 s s
| pool_run_more n k s s' s'' : pool_run n s s' → pool_step k s' s'' → pool_run (k + n) s s''.

(** Every address is in a free block, an allocation or a lost block. *)
Definition pool_good (lost : list xrp_allocation) (st : xrp_private_pool * list xrp_allocation) : Prop :=
  private_inv st.1 st.2 ∧ Forall (λ a, 0 < a_size a) lost ∧
  ∀ x, cover (pl_free_list st.1) x + cover st.2 x + cover lost x = if in_block x (region st.1) then 1 else 0.

Lemma same_live_middle l1 a l2 : same_live (l1 ++ a :: l2) (a :: l1 ++ l2).
Proof.
  unfold same_live. rewrite map_app. simpl. rewrite map_app. symmetry. apply Permutation_middle.
Qed.

Lemma cover_ranges l1 l2 x : ranges l1 = ranges l2 → cover l1 x = cover l2 x.
Proof.
  revert l2. induction l1 as [| a l1 IH]; intros [| b l2]; try done. cbn. intros [= E1 E2 E]. rewrite (IH l2 E).
  unfold in_block, a_end. by rewrite E1, E2.
Qed.

Lemma pool_step_good k st st' lost :
  pool_step k st st' → pool_good lost st → ∃ l, length l = k ∧ pool_good (l ++ lost) st' ∧ region st'.1 = region st.1.
Proof.
  destruct 1 as [p live kz1 kz2 size align a p' Hk Hv Ha | p live kz1 kz2 size align e p' Hk Hv Ha | p live1 a live2];
    intros (Hi & Hl & Hc); simpl in *.
  - destruct (private_alloc_spec _ _ _ _ _ _ _ _ Hi Hk Hv Ha) as (Hi' & _ & _ & _ & Hr & Hcov).
    exists []. split_and!; [done | split_and!; [done | done |] | done]. intros x. specialize (Hc x). rewrite Hcov in Hc. simpl in *. rewrite Hr. lia.
  - destruct (private_alloc_spec _ _ _ _ _ _ _ _ Hi Hk Hv Ha) as (Hi' & Hr & Hcase). unfold lossy.
    assert (p' = p ∨ ∃ s, 0 < page_align size ∧ ∀ y, cover (pl_free_list p) y = cover (mk_allocation 0 s (page_align size) 1 :: pl_free_list p') y)
      as [-> | (s & Hs & Hy)] by naive_solver.
    + rewrite decide_True by done. exists []. by split_and!.
    + rewrite decide_False.
      * exists [mk_allocation 0 s (page_align size) 1]. split_and!; [done | split_and!; [done | by constructor |] | done].
        intros x. specialize (Hc x). specialize (Hy x). simpl in *. rewrite Hr. lia.
      * intros E. specialize (Hy s). simpl in Hy. rewrite (cover_ranges _ _ s E) in Hy.
        destruct (in_block_spec s (mk_allocation 0 s (page_align size) 1)); unfold a_end in *; simpl in *; lia.
  - rewrite same_live_middle in Hi. destruct (private_free_inv _ _ _ Hi) as [Hi' Hcov].
    assert (region (xrp_private_free p a) = region p) as Hr.
    { unfold xrp_private_free, region. by destruct (free_loop _ _). }
    exists []. split_and!; [done | split_and!; [done | done |] | done]. intros x. specialize (Hc x). simpl. rewrite Hr, Hcov.
    rewrite same_live_middle in Hc. simpl in *. lia.
Qed.

Lemma pool_run_good n st st' :
  pool_run n st st' → pool_good [] st → ∃ lost, length lost = n ∧ pool_good lost st' ∧ region st'.1 = region st.1.
Proof.
  induction 1 as [| n k st st1 st' Hr IH Hs]; intros Hg; [by exists [] |].
  destruct (IH Hg) as (lost & <- & Hg1 & <-). destruct (pool_step_good _ _ _ _ Hs Hg1) as (l & <- & ? & ?).
  exists (l ++ lost). by rewrite length_app.
Qed.

Lemma init_good start size p : 
  0 ≤ start → 0 < size < 2 ^ 32 → start + size ≤ 2 ^ phys_bits →
  pool_good [] (mk_pool start size [mk_allocation p start size 0] {[p]}, []).
Proof.
  intros. destruct (private_init_inv start size p) as [Hi Hc]; [done.. |]. split_and!; [done | done |].
  intros x. specialize (Hc x). simpl in *. lia.
Qed.


(** Once every allocation has been freed, in whatever order, the free
    list is again the single block the pool was created with. *)
Theorem private_pool_coalesces start size ptr p0 p :
  0 ≤ start → 0 < size < 2 ^ 32 → start + size ≤ 2 ^ phys_bits →
  xrp_init_private_pool true (Some ptr) start size = Ok p0 →
  pool_run 0 (p0, []) (p, []) →
  ranges (pl_free_list p) = [(start, size)].
Proof.
  intros ??? [= <-] Hr. apply pool_run_good in Hr as (lost & Hn & (Hi & Hl & Hc) & Hreg); [| by apply init_good].
  destruct lost; [| done]. unfold region in Hreg. simpl in Hreg. injection Hreg as E1 E2.
  apply (sep_canonical _ [mk_allocation ptr start size 0] (start - 1) (start + size)).
  - pose proof (pi_sep _ _ Hi) as Hs. unfold a_end, region in Hs. simpl in Hs. by rewrite E1, E2 in Hs.
  - simpl. unfold a_end. simpl. lia.
  - intros x. specialize (Hc x). simpl in *. rewrite !Z.add_0_r in Hc. rewrite Hc.
    unfold in_block, region, a_end. simpl. rewrite E1, E2. lia.
Qed.
End pool_runs.

Section alloc_theorems.
Context `{Arch}.

(** C26: the behaviour of an allocation request whose sums do not wrap
    ([valid_request]), on a consistent pool, when the kernel has memory for
    the descriptors.  [-EINVAL] is returned exactly for a zero size or an
    alignment that is not a power of two.  Success returns a page-rounded,
    suitably aligned range inside the pool that no live allocation touches;
    another error is [-ENOMEM], and then no free block has room for an aligned
    range of that size; errors leave the pool unchanged. *)
Theorem private_alloc_correct p live kz1 kz2 size align r p' :
  private_inv p live → kz_fresh (pl_heap p) kz1 kz2 → valid_request size align →
  kz1 ≠ None → kz2 ≠ None → xrp_private_alloc kz1 kz2 p size align = (r, p') →
  (r = Err EINVAL ↔ size = 0 ∨ Z.land align (u32 (align - 1)) ≠ 0) ∧
  match r with
  | Ok a =>
      a_size a = page_align size ∧ size ≤ a_size a < size + PAGE_SIZE ∧
      a_start a mod eff_align align = 0 ∧
      pl_start p ≤ a_start a ∧ a_end a ≤ pl_start p + pl_size p ∧
      (∀ x, a_start a ≤ x < a_end a → cover live x = 0)
  | Err e =>
      p' = p ∧
      (e = EINVAL ∨
       e = ENOMEM ∧ ∀ cur s, cur ∈ pl_free_list p → a_start cur ≤ s →
                     s mod eff_align align = 0 → a_end cur < s + page_align size)
  end.
Proof.
  intros Hi Hk Hv Hk1 Hk2 Ha. pose proof (private_alloc_spec _ _ _ _ _ _ _ _ Hi Hk Hv Ha) as Ho.
  split.
  { revert Ha. unfold xrp_private_alloc. destruct (Z.eqb_spec size 0); [intros [= <- <-]; tauto |].
    destruct (Z.eqb_spec (Z.land align (u32 (align - 1))) 0) as [Hp |]; [| intros [= <- <-]; tauto].
    intros Ha. split; [intros -> | tauto]. exfalso. revert Ha. simpl. repeat case_match; by intros [=]. }
  destruct r as [a | e]; simpl in Ho.
  - destruct Ho as (Hi' & _ & Hs & Hal & Hr & Hc).
    pose proof (private_live_in_region _ _ a Hi' ltac:(by left)) as [Hlo Hhi].
    unfold region in Hr. injection Hr as E1 E2. unfold region, a_end in Hhi. simpl in Hhi. rewrite E1, E2 in *.
    pose proof (page_align_bounds size (proj1 Hv)). split_and!; try (unfold a_end in *; lia).
    intros x Hx. pose proof (pi_cover _ _ Hi' x) as Hc'. simpl in Hc'.
    pose proof (cover_nonneg live x). pose proof (cover_nonneg (pl_free_list p') x).
    destruct (in_block_spec x a), (in_block x (region p')); unfold a_end in *; lia.
  - destruct Ho as (_ & _ & Hcase). split; [destruct Hcase as [[_ ?] | [_ [? | [? _]]]]; done |].
    revert Ha. unfold xrp_private_alloc. destruct (Z.eqb_spec size 0); [intros [= <- <-]; by auto |].
    destruct (Z.eqb_spec (Z.land align (u32 (align - 1))) 0) as [Hp |]; [| intros [= <- <-]; by auto].
    pose proof (request_good _ _ Hv ltac:(done) Hp) as Hg.
    simpl. destruct kz1 as [new |]; [| done].
    destruct (alloc_loop _ _ _ _) as [[[[fl' cur] new'] s] |] eqn:E.
    + destruct cur; simpl; [done |]. destruct new', kz2; simpl; done.
    + intros [= <- <-]. right. split; [done |]. intros cur s Hin Hle Hmod.
      apply Z.nle_gt. intros Hend.
      exact (alloc_loop_none _ _ _ _ _ _ _ _ Hg (private_fits _ _ Hi) (pi_sep _ _ Hi) E Hin Hle Hmod Hend).
Qed.

(** Freeing what has just been allocated restores the free list, block
    for block. *)
Theorem private_alloc_free_roundtrip p live kz1 kz2 size align a p' :
  private_inv p live → kz_fresh (pl_heap p) kz1 kz2 → valid_request size align →
  xrp_private_alloc kz1 kz2 p size align = (Ok a, p') →
  ranges (pl_free_list (xrp_private_free p' a)) = ranges (pl_free_list p).
Proof.
  intros Hi Hk Hv Ha. destruct (private_alloc_spec _ _ _ _ _ _ _ _ Hi Hk Hv Ha) as (Hi' & _ & _ & _ & Hr & Hc).
  destruct (private_free_inv _ _ _ Hi') as [Hi2 Hc2].
  apply (sep_canonical _ _ (pl_start p - 1) (a_end (region p))); [| by destruct Hi |].
  - pose proof (pi_sep _ _ Hi2) as Hs.
    assert (region (xrp_private_free p' a) = region p') as Hr2.
    { unfold xrp_private_free, region. by destruct (free_loop _ _). }
    rewrite Hr2, Hr in Hs. unfold region in Hr, Hr2. injection Hr as E1 E2. injection Hr2 as E3 E4.
    by rewrite E3, E1 in Hs.
  - intros x. by rewrite Hc2, Hc.
Qed.
End alloc_theorems.

(** ** Concrete runs *)

Module Examples.
#[local] Existing Instance arch32.

(** Sixteen pages at 0x10000000. *)
Definition pool0 : xrp_private_pool := mk_pool 0x10000000 0x10000 [mk_allocation 1 0x10000000 0x10000 0] {[1]}.

Lemma pool0_good : private_inv pool0 [] ∧ conserved pool0 [].
Proof. by apply private_init_inv. Qed.

Lemma fresh23 : kz_fresh {[1]} (Some 2) (Some 3).
Proof. split; intros p [= <-]; split_and!; (lia || set_solver || done). Qed.

Lemma request_1k_64k : valid_request 1000 0x8000.
Proof. by apply (bool_decide_unpack _). Qed.

Definition alloc1 : result xrp_allocation * xrp_private_pool :=
  xrp_private_alloc (Some 2) (Some 3) pool0 1000 0x8000.

(** Splitting: the allocator picks the first 32 KiB-aligned page. *)
Example alloc1_value :
  alloc1 = (Ok (mk_allocation 2 0x10000000 0x1000 1),
            mk_pool 0x10000000 0x10000 [mk_allocation 1 0x10001000 0xf000 0] {[1; 2]}).
Proof. by vm_compute. Qed.

Lemma alloc1_run : pool_run 0 (pool0, []) (alloc1.2, [mk_allocation 2 0x10000000 0x1000 1]).
Proof.
  apply (pool_run_more 0 0 _ (pool0, [])); [apply pool_run_none |].
  apply (pool_step_alloc _ _ (Some 2) (Some 3) 1000 0x8000); [apply fresh23 | apply request_1k_64k | done].
Qed.

Lemma alloc1_free_run : pool_run 0 (pool0, []) (xrp_private_free alloc1.2 (mk_allocation 2 0x10000000 0x1000 1), []).
Proof.
  apply (pool_run_more 0 0 _ _ _ alloc1_run). apply (pool_step_free _ [] _ []).
Qed.


Lemma private_pool_coalesces_witness :
  ranges (pl_free_list (xrp_private_free alloc1.2 (mk_allocation 2 0x10000000 0x1000 1))) =
  [(0x10000000, 0x10000)].
Proof.
  apply (private_pool_coalesces 0x10000000 0x10000 1 pool0); [done.. | apply alloc1_free_run].
Defined.

Lemma private_alloc_correct_witness :
  alloc1 = (alloc1.1, alloc1.2) ∧
  match alloc1.1 with
  | Ok a => a_size a = page_align 1000 ∧ 1000 ≤ a_size a < 1000 + PAGE_SIZE ∧
            a_start a mod eff_align 0x8000 = 0 ∧ pl_start pool0 ≤ a_start a ∧
            a_end a ≤ pl_start pool0 + pl_size pool0 ∧
            (∀ x, a_start a ≤ x < a_end a → cover [] x = 0)
  | Err _ => False
  end.
Proof.
  split; [done |].
  exact (proj2 (private_alloc_correct pool0 [] (Some 2) (Some 3) 1000 0x8000 alloc1.1 alloc1.2
           (proj1 pool0_good) fresh23 request_1k_64k ltac:(done) ltac:(done) ltac:(done))).
Defined.

Lemma private_alloc_free_roundtrip_witness :
  ranges (pl_free_list (xrp_private_free alloc1.2 (mk_allocation 2 0x10000000 0x1000 1))) =
  ranges (pl_free_list pool0).
Proof.
  apply (private_alloc_free_roundtrip pool0 [] (Some 2) (Some 3) 1000 0x8000); try done.
  - apply pool0_good.
  - apply fresh23.
Defined.

(** Two allocations through the reference-counted interface. *)
Definition st0 : alloc_state xrp_private_pool := mk_alloc_state pool0 ∅.
Definition st1 := (xrp_allocate (Some 2) (Some 3) st0 1000 0x8000).2.
Definition st2 := (xrp_allocate (Some 4) (Some 5) st1 5000 0).2.

Lemma st0_inv : alloc_inv st0.
Proof. split; simpl; [apply pool0_good | apply map_Forall_empty..]. Qed.

Lemma st2_run : rtc alloc_step st0 st2.
Proof.
  apply (rtc_l _ _ st1); [| apply rtc_once].
  - apply (step_allocate _ (Some 2) (Some 3) 1000 0x8000 (Ok 2)); try done. apply fresh23.
  - apply (step_allocate _ (Some 4) (Some 5) 5000 0 (Ok 4)); try done; try by apply (bool_decide_unpack _).
    split; intros p [= <-]; split_and!; try done; vm_compute; done.
Qed.

(** Two allocations; the first is shared, then dropped twice. *)
Definition events2 : list alloc_event :=
  [EvAllocate 2 0x10000000 0x1000; EvAllocate 4 0x10001000 0x2000; EvGet 2; EvPut 2; EvPut 2].
Definition st3 := default st2 (xrp_allocation_get st2 2).
Definition st4 := default st3 (xrp_allocation_put st3 2).
Definition st5 := default st4 (xrp_allocation_put st4 2).

Lemma st5_calls : alloc_calls events2 st0 st5.
Proof.
  apply (calls_more (take 4 events2) (EvPut 2) st0 st4); [| apply call_put; by vm_compute].
  apply (calls_more (take 3 events2) (EvPut 2) st0 st3); [| apply call_put; by vm_compute].
  apply (calls_more (take 2 events2) (EvGet 2) st0 st2);
    [| apply (call_get _ _ (mk_allocation 2 0x10000000 0x1000 1)); [by vm_compute | done | by vm_compute]].
  apply (calls_more (take 1 events2) (EvAllocate 4 0x10001000 0x2000) st0 st1).
  - apply (calls_more [] (EvAllocate 2 0x10000000 0x1000) st0 st0); [apply calls_none |].
    apply (call_allocate st0 (Some 2) (Some 3) 1000 0x8000 2 (mk_allocation 2 0x10000000 0x1000 1)); try done. apply fresh23.
  - apply (call_allocate st1 (Some 4) (Some 5) 5000 0 4 (mk_allocation 4 0x10001000 0x2000 1)); try done; try by apply (bool_decide_unpack _).
    split; intros p [= <-]; split_and!; try done; vm_compute; done.
Qed.

Lemma alloc_counts_refine_witness :
  blocks_of st5 = {[4 := (0x10001000, 0x2000, 1)]} ∧
  ∃ l, pool_inv (st_pool st5) l ∧ map a_key l ≡ₚ [(4, 0x10001000, 0x2000)].
Proof.
  destruct (alloc_counts_refine events2 st0 st5 st0_inv eq_refl st5_calls) as (E & _ & l & Hl & Hp).
  assert (foldl count_step ∅ events2 = {[4 := (0x10001000, 0x2000, 1)]}) as Ev by (vm_compute; reflexivity).
  rewrite Ev in E, Hp. split; [exact E |]. exists l. split; [exact Hl |]. rewrite Hp, map_to_list_singleton. done.
Defined.

Lemma put_after_get_witness :
  ∃ s, xrp_allocation_get st2 2 = Some s ∧ xrp_allocation_put s 2 = Some st2.
Proof.
  eexists. split; [done |].
  refine (proj1 (put_after_get st2 2 (mk_allocation 2 0x10000000 0x1000 1) _
                   (alloc_run_inv _ _ st2_run st0_inv) _ _ _)); done.
Defined.

(** ** Behaviour at the limits *)

(** A [u32] size within a page of 2^32 rounds up to zero: the request
    succeeds and returns an empty allocation. *)
Example huge_size_gives_empty_allocation :
  (xrp_private_alloc (Some 2) (Some 3) pool0 0xfffff001 0).1 = Ok (mk_allocation 2 0x10000000 0 1).
Proof. by vm_compute. Qed.

(** With a 32-bit [phys_addr_t] the fit test [aligned_start - start + size]
    wraps: a request for more than 2 GiB succeeds on a pool of 16 pages, and
    the free list then holds a block that is larger than the pool. *)
Example fit_test_overflow :
  let r := xrp_private_alloc (Some 2) (Some 3) pool0 0x90001000 0x80000000 in
  r.1 = Ok (mk_allocation 3 0x80000000 0x90001000 1) ∧
  ranges (pl_free_list r.2) = [(0x10000000, 0x70000000); (0x10001000, 0xf000)].
Proof. by vm_compute. Qed.

(** When the second [kzalloc] fails after a block has been split, the range
    cut out of the free list is not put back. *)
Example split_oom_loses_range :
  let p := mk_pool 0x10001000 0x10000 [mk_allocation 1 0x10001000 0x10000 0] {[1]} in
  let r := xrp_private_alloc (Some 2) None p 0x1000 0x8000 in
  r.1 = Err ENOMEM ∧ cover (pl_free_list p) 0x10008000 = 1 ∧ cover (pl_free_list r.2) 0x10008000 = 0.
Proof. by vm_compute. Qed.

(** [xrp_private_free_pool] releases only the descriptor at the head of the
    free list: the descriptors of a fragmented list are leaked. *)
Example free_pool_leaks_descriptors :
  xrp_private_free_pool (mk_pool 0 0x3000 [mk_allocation 1 0 0x1000 0; mk_allocation 2 0x2000 0x1000 0] {[1; 2]})
  = {[2]}.
Proof. by vm_compute. Qed.
End Examples.
