(* ===== verification/PoolRoom.v ===== *)
(** * How much a private pool can still give

    The largest free block of a pool whose blocks start on page boundaries
    ([xrp_private_alloc] rounds sizes and alignments to pages): a request
    that is at most that large succeeds when there is memory for the
    descriptors, an allocation takes no more than its size from it, and when
    nothing is allocated it is the whole pool. *)

From stdpp Require Import base tactics list gmap fin_maps numbers.
From S2P Require Import Prelude Alloc PrivateAlloc.

Definition largest (fl : list xrp_allocation) : Z := foldr (λ b n, Z.max (a_size b) n) 0 fl.
Definition paged (l : list xrp_allocation) : Prop := Forall (λ b, a_start b mod PAGE_SIZE = 0) l.

Lemma largest_cons b fl : largest (b :: fl) = Z.max (a_size b) (largest fl).
Proof. done. Qed.
Lemma largest_nonneg fl : 0 ≤ largest fl.
Proof. induction fl; [done |]. rewrite largest_cons. lia. Qed.
Lemma largest_elem fl b : b ∈ fl → a_size b ≤ largest fl.
Proof.
  induction fl as [| c fl IH]; [by intros ?%not_elem_of_nil |]. rewrite largest_cons. intros [-> | Hb]%elem_of_cons; [lia |].
  specialize (IH Hb). lia.
Qed.

Section room.
Context `{Arch}.

Lemma page_phys : (PAGE_SIZE | 2 ^ phys_bits).
Proof.
  assert (32 ≤ phys_bits) by (destruct phys_bits_cases as [-> | ->]; lia). exists (2 ^ (phys_bits - 12)). change PAGE_SIZE with (2 ^ 12). rewrite <- Z.pow_add_r by lia. f_equal. lia.
Qed.

Lemma aligned_ALIGN v : 0 ≤ v < 2 ^ phys_bits → v mod PAGE_SIZE = 0 → ALIGN phys_bits v PAGE_SIZE = v.
Proof.
  intros Hv Hm. destruct page_phys as [q Hq]. assert (32 ≤ phys_bits) by (destruct phys_bits_cases as [-> | ->]; lia).
  apply Z.mod_divide in Hm as [k ->]; [| done]. change PAGE_SIZE with (2 ^ 12) in *.
  assert (k < q) by nia. rewrite ALIGN_pow2 by (try lia; nia).
  f_equal. symmetry. apply (Z.div_unique _ _ _ (2 ^ 12 - 1)); lia.
Qed.

(** The loop: the first block that is large enough is cut at its head. *)
Lemma alloc_loop_room new size lo hi fl :
  good_request size PAGE_SIZE → size mod PAGE_SIZE = 0 → fits lo hi → sep lo fl hi → paged fl →
  match alloc_loop new size PAGE_SIZE fl with
  | Some (fl', _, _, _) => paged fl' ∧ largest fl - size ≤ largest fl'
  | None => largest fl < size
  end.
Proof.
  intros Hg Hm. assert (0 < size < 2 ^ 32) as Hsz by (by destruct Hg as (? & ? & ? & ? & ?)).
  revert lo. induction fl as [| cur next IH]; intros lo Hf; [cbn [alloc_loop]; unfold largest; cbn; lia |].
  intros (? & ? & ? & Hsep) [Hp Hps]%list.Forall_cons. cbn [alloc_loop]. pose proof Hf as (? & ? & ?). unfold a_end in *.
  pose proof phys_bits_ge.
  rewrite (aligned_ALIGN (a_start cur)) by (done || lia). rewrite Z.leb_refl, Z.sub_diag, Z.add_0_l. cbn [andb].
  rewrite (phys_small size) by lia. rewrite Z.eqb_refl.
  destruct (Z.leb_spec size (a_size cur)) as [Hle | Hgt].
  - rewrite phys_eqb_pos by lia.
    destruct (Z.eqb_spec (a_start cur + size) (a_start cur + a_size cur)) as [E | E].
    + split; [done |]. rewrite largest_cons. pose proof (largest_nonneg next). lia.
    + rewrite (phys_small (a_start cur + size)), (phys_small (a_start cur + size - a_start cur)) by lia.
      replace (a_start cur + size - a_start cur) with size by lia. rewrite u32_small by lia. split.
      * constructor; [| done]. cbn. rewrite Z.add_mod, Hp, Hm by done. done.
      * rewrite !largest_cons. cbn [a_size set_block]. lia.
  - specialize (IH (a_start cur + a_size cur) ltac:(eapply fits_mono; [| done]; lia) Hsep Hps).
    destruct (alloc_loop new size PAGE_SIZE next) as [[[[next' ?] ?] ?] |].
    + destruct IH as [? ?]. split; [by constructor |]. rewrite !largest_cons. lia.
    + rewrite largest_cons. lia.
Qed.

Lemma free_loop_paged x fl : a_start x mod PAGE_SIZE = 0 → paged fl → paged (free_loop x fl).1.
Proof.
  intros Hx. induction fl as [| cur next IH]; intros Hp; [by constructor |].
  apply list.Forall_cons in Hp as [Hc Hn]. cbn [free_loop]. destruct (_ =? _).
  - destruct next as [| n rest]; [by constructor |]. apply list.Forall_cons in Hn as [Hn Hr].
    destruct (_ =? _); constructor; try done. by constructor.
  - destruct (_ <? _).
    + destruct (_ =? _); constructor; try done. by constructor.
    + specialize (IH Hn). destruct (free_loop x next) as [next' k]. by constructor.
Qed.

(** ** Pools of reference counted allocations *)

Abbreviation pool := (alloc_state xrp_private_pool).
Definition room_of (st : pool) : Z := largest (pl_free_list (st_pool st)).

(** Blocks on page boundaries, and no address lost. *)
Definition tidy (st : pool) : Prop :=
  paged (pl_free_list (st_pool st)) ∧ paged (live st) ∧ conserved (st_pool st) (live st).

Lemma conserved_live p l l' : same_live l l' → conserved p l → conserved p l'.
Proof. intros E Hc x. specialize (Hc x). by rewrite E in Hc. Qed.

Lemma paged_live l l' : same_live l l' → paged l → paged l'.
Proof.
  unfold same_live, paged. intros E Hp. apply list.Forall_forall. intros a Ha.
  assert (a_key a ∈ map a_key l) as Hin by (rewrite E; apply list_elem_of_fmap; by exists a).
  apply list_elem_of_fmap in Hin as (b & Eb & Hb). injection Eb as _ -> _. by apply (proj1 (list.Forall_forall _ _) Hp b).
Qed.

(** Memory for both descriptors of a request, and the alignment the
    simulator library asks for. *)
Lemma allocate_room kz1 kz2 (st : pool) size :
  alloc_inv st → tidy st → kz_fresh (ops_heap (st_pool st)) kz1 kz2 → is_Some kz1 → is_Some kz2 →
  valid_request size 0x10 → size ≠ 0 →
  match xrp_allocate kz1 kz2 st size 0x10 with
  | (Ok _, st') => tidy st' ∧ room_of st - page_align size ≤ room_of st'
  | (Err _, st') => tidy st' ∧ room_of st < page_align size
  end.
Proof.
  intros Hi (Hpf & Hpl & Hcons) Hk [new ->] [c ->] Hv Hz. pose proof (ai_pool _ Hi) as Hp.
  destruct (xrp_allocate (Some new) (Some c) st size 0x10) as [r st'] eqn:Ea. pose proof Ea as Ea'. unfold xrp_allocate in Ea'.
  destruct (ops_alloc _ _ _ _ _) as [r' p'] eqn:Eo. change (xrp_private_alloc (Some new) (Some c) (st_pool st) size 0x10 = (r', p')) in Eo.
  pose proof (private_alloc_spec _ _ _ _ _ _ _ _ Hp Hk Hv Eo) as Hspec.
  assert (match r' with Ok _ => paged (pl_free_list p') ∧ largest (pl_free_list (st_pool st)) - page_align size ≤ largest (pl_free_list p')
          | Err _ => p' = st_pool st ∧ largest (pl_free_list (st_pool st)) < page_align size end) as Hroom.
  { pose proof (request_good _ _ Hv Hz eq_refl) as Hg. change (page_align (if 0x10 =? 0 then 1 else 0x10)) with PAGE_SIZE in Hg.
    pose proof (alloc_loop_room new (page_align size) _ _ _ Hg (proj2 (page_align_bounds size (proj1 Hv))) (private_fits _ _ Hp) (pi_sep _ _ Hp) Hpf) as Hloop.
    unfold xrp_private_alloc in Eo. rewrite (proj2 (Z.eqb_neq _ _) Hz) in Eo.
    change (Z.land 0x10 (u32 (0x10 - 1)) =? 0) with true in Eo. cbn [orb negb] in Eo.
    change (page_align (if 0x10 =? 0 then 1 else 0x10)) with PAGE_SIZE in Eo.
    destruct (alloc_loop new (page_align size) PAGE_SIZE (pl_free_list (st_pool st))) as [[[[fl' cur] new'] s] |] eqn:El.
    - destruct cur as [cur |], new' as [n' |]; cbn [mbind option_bind] in Eo; injection Eo as <- <-; exact Hloop.
    - injection Eo as <- <-. destruct Hspec as (_ & _ & [[Hx _] | [_ [Hx | [Hx _]]]]); [done | | done]. split; [exact Hx | exact Hloop]. }
  destruct r' as [a | er]; injection Ea' as <- <-.
  - destruct (allocate_inv _ _ _ _ _ _ _ Hi Hk Hv Ea) as (_ & Hn & _). destruct Hspec as (_ & _ & _ & _ & Hr & Hc).
    pose proof (private_alloc_aligned _ _ _ _ _ _ _ _ Hp Hk Hv Eo) as Hal. destruct Hroom as [Hpf' Hle].
    pose proof (live_insert_fresh p' (st_objs st) (a_ptr a) a Hn) as Hl. change (live (mk_alloc_state p' (st_objs st))) with (live st) in Hl.
    split; [| exact Hle]. split; [exact Hpf' |]. split.
    + apply (paged_live (a :: live st)); [by symmetry |]. by constructor.
    + apply (conserved_live _ (a :: live st)); [by symmetry |]. intros x. specialize (Hcons x). rewrite Hc in Hcons.
      change (st_pool (mk_alloc_state p' _)) with p'. rewrite Hr. cbn [cover foldr] in *. lia.
  - destruct Hroom as [-> Hlt]. split; [| exact Hlt]. by destruct st.
Qed.

Lemma free_tidy (st : pool) ptr a :
  alloc_inv st → tidy st → st_objs st !! ptr = Some a →
  tidy (mk_alloc_state (ops_free (st_pool st) a) (delete ptr (st_objs st))).
Proof.
  intros Hi (Hpf & Hpl & Hcons) Ha. pose proof (live_delete (st_pool st) (st_objs st) ptr a Ha) as Hl.
  change (live (mk_alloc_state (st_pool st) (st_objs st))) with (live st) in Hl.
  pose proof (paged_live _ _ Hl Hpl) as [Hpa Hpl']%list.Forall_cons.
  assert (private_inv (st_pool st) (a :: live (mk_alloc_state (st_pool st) (delete ptr (st_objs st))))) as Hinv
    by (rewrite <- Hl; apply (ai_pool _ Hi)).
  destruct (private_free_inv _ _ _ Hinv) as [_ Hc]. change (ops_free (st_pool st) a) with (xrp_private_free (st_pool st) a).
  split; [| split].
  - cbn [st_pool]. unfold xrp_private_free. pose proof (free_loop_paged a (pl_free_list (st_pool st)) Hpa Hpf) as Hf.
    by destruct (free_loop a (pl_free_list (st_pool st))).
  - exact Hpl'.
  - intros x. cbn [st_pool]. pose proof (conserved_live _ _ _ Hl Hcons x) as Hx. rewrite Hc.
    assert (region (xrp_private_free (st_pool st) a) = region (st_pool st)) as ->
      by (unfold xrp_private_free; by destruct (free_loop _ _)).
    cbn [cover foldr] in *. unfold live in *. cbn [st_objs] in *. lia.
Qed.

(** An empty pool is one block. *)
Lemma tidy_empty (st : pool) : alloc_inv st → tidy st → st_objs st = ∅ → room_of st = pl_size (st_pool st).
Proof.
  intros Hi (_ & _ & Hcons) He. pose proof (ai_pool _ Hi) as Hp. assert (live st = []) as El.
  { unfold live. rewrite He, map_to_list_empty. done. }
  rewrite El in *. set (whole := [mk_allocation 0 (pl_start (st_pool st)) (pl_size (st_pool st)) 0]).
  assert (ranges (pl_free_list (st_pool st)) = ranges whole) as Er.
  { apply (sep_canonical _ _ (pl_start (st_pool st) - 1) (a_end (region (st_pool st)))).
    - apply (pi_sep _ _ Hp).
    - destruct (pi_region _ _ Hp) as (? & ? & ?). cbn. unfold a_end, region. cbn. lia.
    - intros x. specialize (Hcons x). cbn in Hcons. rewrite Z.add_0_r in Hcons. rewrite Hcons. cbn.
      unfold in_block, region, a_end. cbn. lia. }
  unfold room_of. destruct (pl_free_list (st_pool st)) as [| b [| c fl]]; cbn in Er; simplify_eq.
  destruct (pi_region _ _ Hp) as (_ & ? & _). rewrite largest_cons. unfold largest. cbn. lia.
Qed.
End room.
