(* ===== verification/CmaAlloc.v ===== *)
(** * CMA allocation pool (xrp-kernel/xrp_cma_alloc.c)

    The second implementation of the allocation interface: each allocation
    is a piece of memory from the DMA layer of the Linux kernel.  The DMA
    layer is a parameter with its documented behaviour ([DmaLib],
    [DmaSpec]); the pool is shown to honour the contract of [Alloc], so
    everything proved there of the users of a pool holds for it, and to
    return to the DMA layer exactly what it took. *)

From stdpp Require Import base tactics list gmap fin_sets numbers.
From S2P Require Import Prelude Alloc PrivateAlloc.

(** [dma_alloc_attrs] gives the kernel's handle of the memory and its
    address on the bus, or nothing; [dma_free_attrs] takes the size and both
    back. *)
Class DmaLib := {
  dma_state : Type;
  dma_alloc_attrs : dma_state → Z → option (Z * Z) * dma_state;
  dma_free_attrs : dma_state → Z → Z → Z → dma_state;
  dma_to_phys : Z → Z;
  phys_to_dma : Z → Z;
}.

(** A piece of DMA memory: size, handle and bus address. *)
Definition dma_block : Type := Z * Z * Z.
Definition dma_phys `{DmaLib} (b : dma_block) : xrp_allocation := mk_allocation 0 (dma_to_phys b.2) b.1.1 0.

(** [dma_inv d l]: [l] are the pieces handed out.  They are disjoint, start
    at a page, and are given back with the arguments they were got with. *)
Class DmaSpec `{Arch} `{DmaLib} := {
  dma_inv : dma_state → list dma_block → Prop;
  dma_inv_perm : Proper (eq ==> (≡ₚ) ==> iff) dma_inv;
  dma_alloc_some d l size kv da d' :
    dma_inv d l → dma_alloc_attrs d size = (Some (kv, da), d') → dma_inv d' ((size, kv, da) :: l);
  dma_alloc_none d l size d' :
    dma_inv d l → dma_alloc_attrs d size = (None, d') → dma_inv d' l;
  dma_free_block d l size kv da :
    dma_inv d ((size, kv, da) :: l) → dma_inv (dma_free_attrs d size kv da) l;
  dma_disjoint d l x : dma_inv d l → cover (map dma_phys l) x ≤ 1;
  dma_range d l size kv da :
    dma_inv d l → (size, kv, da) ∈ l →
    phys_to_dma (dma_to_phys da) = da ∧ dma_to_phys da mod PAGE_SIZE = 0 ∧
    0 ≤ dma_to_phys da < 2 ^ phys_bits ∧ dma_to_phys da + size ≤ 2 ^ phys_bits;
}.
#[export] Existing Instance dma_inv_perm.

(** [struct xrp_cma_pool]; [cp_kvaddr] holds the field [kvaddr] of each
    [struct xrp_cma_allocation], by the address of the descriptor. *)
Record xrp_cma_pool `{DmaLib} := mk_cma {
  cp_dma : dma_state;
  cp_kvaddr : gmap Z Z;
}.
Arguments mk_cma {_} _ _.

Section cma.
Context `{Arch} `{DmaLib}.

(** The alignment is not used. *)
Definition xrp_cma_alloc (kz1 kz2 : option Z) (pool : xrp_cma_pool) (size align : Z)
  : result xrp_allocation * xrp_cma_pool :=
  let size := page_align size in
  match kz1 with
  | None => (Err ENOMEM, pool)
  | Some new =>
      match dma_alloc_attrs (cp_dma pool) size with
      | (None, d) => (* kfree(new_cma) *) (Err ENOMEM, mk_cma d (cp_kvaddr pool))
      | (Some (kvaddr, dma_addr), d) =>
          (Ok (mk_allocation new (phys (dma_to_phys dma_addr)) size (u32 (0 + 1))),
           mk_cma d (<[new := kvaddr]> (cp_kvaddr pool)))
      end
  end.

Definition xrp_cma_free (pool : xrp_cma_pool) (a : xrp_allocation) : xrp_cma_pool :=
  mk_cma (dma_free_attrs (cp_dma pool) (a_size a) (default 0 (cp_kvaddr pool !! a_ptr a)) (phys_to_dma (a_start a)))
    (delete (a_ptr a) (cp_kvaddr pool)).

(** [kfree(pool)]; the descriptors that stay allocated. *)
Definition xrp_cma_free_pool (pool : xrp_cma_pool) : gset Z := dom (cp_kvaddr pool).

Definition xrp_cma_offset (pool : xrp_cma_pool) (a : xrp_allocation) : Z := a_start a.

#[export] Instance xrp_cma_pool_ops : AllocOps xrp_cma_pool := {|
  ops_heap pool := dom (cp_kvaddr pool);
  ops_alloc := xrp_cma_alloc;
  ops_free := xrp_cma_free;
  ops_free_pool := xrp_cma_free_pool;
  ops_offset := xrp_cma_offset;
|}.

Definition xrp_init_cma_pool (pool_ok : bool) (d : dma_state) : result xrp_cma_pool :=
  if pool_ok then Ok (mk_cma d ∅) else Err ENOMEM.
End cma.

(** ** The pool holds exactly the DMA memory of its live allocations *)

Section cma_spec.
Context `{Arch} `{DmaLib} `{!DmaSpec}.

Definition key_dma (m : gmap Z Z) (k : Z * Z * Z) : dma_block :=
  (k.2, default 0 (m !! k.1.1), phys_to_dma k.1.2).

(** The DMA memory behind the live allocations. *)
Definition live_dma (p : xrp_cma_pool) (live : list xrp_allocation) : list dma_block :=
  map (key_dma (cp_kvaddr p)) (map a_key live).

Record cma_inv (p : xrp_cma_pool) (live : list xrp_allocation) : Prop := {
  ci_dma : dma_inv (cp_dma p) (live_dma p live);
  ci_nodup : NoDup (map a_ptr live);
  ci_dom : dom (cp_kvaddr p) = list_to_set (map a_ptr live);
  ci_phys : Forall (λ k, dma_to_phys (phys_to_dma k.1.2) = k.1.2) (map a_key live);
}.

#[export] Instance cma_inv_proper : Proper (eq ==> same_live ==> iff) cma_inv.
Proof.
  intros p ? <-. apply proper_sym_impl_iff; [apply _ |]. intros l1 l2 Hl [Hd Hn Hm Hp].
  split; unfold live_dma in *; rewrite <- ?(same_live_ptrs _ _ Hl); try done;
    unfold same_live in Hl; by rewrite <- Hl.
Qed.

(** The kernel handle of a descriptor matters to that descriptor only. *)
Lemma live_dma_ext m m' live :
  (∀ a, a ∈ live → m !! a_ptr a = m' !! a_ptr a) →
  map (key_dma m) (map a_key live) = map (key_dma m') (map a_key live).
Proof.
  intros E. rewrite !map_map. apply map_ext_in. intros a Ha. unfold key_dma, a_key. cbn.
  rewrite E; [done | by apply list_elem_of_In].
Qed.

Lemma live_cover p live x :
  Forall (λ k, dma_to_phys (phys_to_dma k.1.2) = k.1.2) (map a_key live) →
  cover live x = cover (map dma_phys (live_dma p live)) x.
Proof.
  unfold live_dma. induction live as [| a l IH]; cbn; [done |]. intros [Ha Hl]%list.Forall_cons.
  rewrite IH by done. unfold in_block, a_end. cbn in *. by rewrite Ha.
Qed.

Lemma elem_ptr (a : xrp_allocation) live : a ∈ live → a_ptr a ∈ map a_ptr live.
Proof. intros. apply list_elem_of_In, in_map. by apply list_elem_of_In. Qed.

Lemma cma_live_range p live a :
  cma_inv p live → a ∈ live →
  a_start a mod PAGE_SIZE = 0 ∧ 0 ≤ a_start a ∧ a_end a ≤ 2 ^ phys_bits.
Proof.
  intros [Hd _ _ Hp] Ha.
  assert (In (a_key a) (map a_key live)) as Hk by (apply in_map; by apply list_elem_of_In).
  rewrite List.Forall_forall in Hp. pose proof (Hp _ Hk) as E. cbn in E.
  destruct (dma_range _ _ (a_size a) (default 0 (cp_kvaddr p !! a_ptr a)) (phys_to_dma (a_start a)) Hd)
    as (_ & ? & [? ?] & ?).
  { apply list_elem_of_In. unfold live_dma. apply in_map_iff. by exists (a_key a). }
  unfold a_end. by rewrite E in *.
Qed.

Lemma cma_alloc_inv p live kz1 kz2 size align a p' :
  cma_inv p live → kz_fresh (ops_heap p) kz1 kz2 →
  xrp_cma_alloc kz1 kz2 p size align = (Ok a, p') →
  cma_inv p' (a :: live) ∧ a_ref a = 1 ∧ a_size a = page_align size ∧ a_start a mod PAGE_SIZE = 0.
Proof.
  intros Hi [Hk _]. destruct Hi as [Hd Hn Hm Hp]. unfold xrp_cma_alloc.
  destruct kz1 as [new |]; [| done]. destruct (Hk new eq_refl) as [_ Hnew]. cbn in Hnew.
  destruct (dma_alloc_attrs _ _) as [[[kv da] |] d] eqn:E; [| done]. intros [= <- <-].
  pose proof (dma_alloc_some _ _ _ _ _ _ Hd E) as Hd'.
  destruct (dma_range _ _ _ _ _ Hd' ltac:(by left)) as (Hinv & Hal & Hlo & Hhi).
  rewrite phys_small in * by done.
  assert (∀ b, b ∈ live → b.(a_ptr) ≠ new) as Hne.
  { intros b Hb <-. apply Hnew. rewrite Hm. apply elem_of_list_to_set, elem_ptr, Hb. }
  split_and!; try done. split; cbn.
  - unfold live_dma. cbn. rewrite (live_dma_ext _ (cp_kvaddr p)).
    + unfold key_dma at 1. cbn. rewrite lookup_insert_eq, Hinv. done.
    + intros b Hb. apply lookup_insert_ne. intros E'. by apply (Hne b Hb).
  - apply list.NoDup_cons. split; [| done]. intros (b & Hb1 & Hb2)%list_elem_of_In%in_map_iff.
    apply list_elem_of_In in Hb2. by apply (Hne b).
  - by rewrite dom_insert_L, Hm.
  - apply list.Forall_cons. split; [| done]. cbn. by rewrite Hinv.
Qed.

Lemma cma_free_inv p live a : cma_inv p (a :: live) → cma_inv (xrp_cma_free p a) live.
Proof.
  intros [Hd Hn Hm Hp]. cbn in *. apply list.NoDup_cons in Hn as [Hna Hn]. apply list.Forall_cons in Hp as [_ Hp].
  assert (∀ b, b ∈ live → a_ptr b ≠ a_ptr a) as Hne by (intros b Hb E; apply Hna; rewrite <- E; by apply elem_ptr).
  split; cbn; [| done | | done].
  - unfold live_dma in *. cbn in *. rewrite (live_dma_ext _ (cp_kvaddr p)).
    + by apply dma_free_block.
    + intros b Hb. apply lookup_delete_ne. intros E. by apply (Hne b).
  - rewrite dom_delete_L, Hm. set_solver.
Qed.

Lemma cma_alloc_err_inv p live kz1 kz2 size align e p' :
  cma_inv p live → xrp_cma_alloc kz1 kz2 p size align = (Err e, p') → cma_inv p' live ∧ e = ENOMEM.
Proof.
  intros Hi. unfold xrp_cma_alloc. destruct kz1 as [new |]; [| intros [= <- <-]; done].
  destruct (dma_alloc_attrs _ _) as [[[kv da] |] d] eqn:E; [done |]. intros [= <- <-].
  destruct Hi as [Hd Hn Hm Hp]. split; [| done]. split; try done. exact (dma_alloc_none _ _ _ _ Hd E).
Qed.
End cma_spec.

(** The CMA pool honours the allocation contract. *)
#[export, refine] Instance cma_pool_spec `{Arch} `{DmaLib} `{!DmaSpec} : AllocSpec xrp_cma_pool :=
  {| pool_inv := cma_inv; pool_base _ := 0 |}.
Proof.
  - intros p live x [Hd _ _ Hp]. rewrite (live_cover p live x Hp). by apply (dma_disjoint (cp_dma p)).
  - by intros p live [].
  - intros p live a [_ _ Hm _] Ha. cbn. rewrite Hm. by apply elem_of_list_to_set, elem_ptr.
  - intros p live kz1 kz2 size align a p' Hi Hk Hv Ha.
    destruct (cma_alloc_inv _ _ _ _ _ _ _ _ Hi Hk Ha) as (? & ? & Hs & ?). split_and!; try done.
    rewrite Hs. apply page_align_bounds, Hv.
  - intros p live kz1 kz2 size align e p' Hi _ _ Ha. by destruct (cma_alloc_err_inv _ _ _ _ _ _ _ _ Hi Ha).
  - intros p live a Hi. split; [by apply cma_free_inv | done].
  - intros p live a Hi Ha. destruct (cma_live_range p live a Hi Ha) as (_ & ? & ?). cbn. unfold xrp_cma_offset. lia.
  - intros kz1 kz2 p size align e p'. cbn. unfold xrp_cma_alloc. repeat (case_match; try done); by intros [= <- _].
Defined.

Section cma_theorems.
Context `{Arch} `{DmaLib} `{!DmaSpec}.

Lemma cma_init_inv d p :
  dma_inv d [] → xrp_init_cma_pool true d = Ok p → alloc_inv (mk_alloc_state p ∅).
Proof.
  intros Hd [= <-]. split; cbn; [| apply map_Forall_empty..]. split; cbn; [done | constructor | done | constructor].
Qed.

(** C27: whatever sequence of allocations, reference increments and drops
    the users of a CMA pool make, and whichever of the kernel's allocations
    fail, the memory taken from the DMA layer and not returned is exactly
    that of the live descriptors, each with the size, handle and bus address
    it was obtained with; when the last descriptor is gone the DMA layer has
    everything back and no descriptor is left allocated. *)
Theorem cma_returns_memory d p st :
  dma_inv d [] → xrp_init_cma_pool true d = Ok p → rtc alloc_step (mk_alloc_state p ∅) st →
  dma_inv (cp_dma (st_pool st)) (live_dma (st_pool st) (live st)) ∧
  (st_objs st = ∅ → dma_inv (cp_dma (st_pool st)) [] ∧ xrp_cma_free_pool (st_pool st) = ∅).
Proof.
  intros Hd Hp Hrun. pose proof (alloc_run_inv _ _ Hrun (cma_init_inv d p Hd Hp)) as [Hi _ _].
  destruct Hi as [Hi _ Hm _]. split; [done |]. intros E.
  assert (live st = []) as El by (unfold live; by rewrite E, map_to_list_empty).
  rewrite El in Hi, Hm. split; [exact Hi | exact Hm].
Qed.
End cma_theorems.

(** ** A concrete DMA layer *)

Module CmaExamples.
#[local] Existing Instance arch32.

(** Memory from a counter upwards; what is given back is not used again.
    Bus addresses are physical addresses minus 2^28. *)
Definition bump : Type := Z * list dma_block.
Definition bump_alloc (d : bump) (size : Z) : option (Z * Z) * bump :=
  if (0 <? size) && (size mod PAGE_SIZE =? 0) && (d.1 + size <? 0x20000000)
  then (Some (d.1, d.1 - 0x10000000), (d.1 + size, (size, d.1, d.1 - 0x10000000) :: d.2)) else (None, d).
#[local] Instance bump_lib : DmaLib := {|
  dma_state := bump;
  dma_alloc_attrs := bump_alloc;
  dma_free_attrs d size kv da := (d.1, filter (λ b, b ≠ (size, kv, da)) d.2);
  dma_to_phys x := x + 0x10000000;
  phys_to_dma x := x - 0x10000000;
|}.

Definition bump_block (top : Z) (b : dma_block) : Prop :=
  b.2 = b.1.2 - 0x10000000 ∧ 0 < b.1.1 ∧ 0x10000000 ≤ b.1.2 ∧ b.1.2 + b.1.1 ≤ top ∧ b.1.2 mod PAGE_SIZE = 0.
Record bump_inv (d : bump) (l : list dma_block) : Prop := {
  bi_perm : d.2 ≡ₚ l;
  bi_top : 0x10000000 ≤ d.1 < 0x20000000 ∧ d.1 mod PAGE_SIZE = 0;
  bi_blocks : Forall (bump_block d.1) l;
  bi_nodup : NoDup l;
  bi_cover x : cover (map dma_phys l) x ≤ 1;
}.

#[local] Instance bump_inv_perm : Proper (eq ==> (≡ₚ) ==> iff) bump_inv.
Proof.
  intros d ? <-. apply proper_sym_impl_iff; [apply _ |]. intros l k E [Hp Ht Hb Hn Hc].
  split; [by rewrite <- E | done | by rewrite <- E | by rewrite <- E |].
  intros x. rewrite <- (Hc x). apply Z.eq_le_incl, cover_proper; [| done]. unfold same_live. by rewrite E.
Qed.

Lemma cover_below l top x : Forall (bump_block top) l → top ≤ x → cover (map dma_phys l) x = 0.
Proof.
  induction l as [| b l IH]; [done |]. intros [Hb Hl]%list.Forall_cons Hx. cbn. rewrite IH by done.
  unfold bump_block in Hb. unfold in_block, a_end. cbn. destruct (Z.ltb_spec x (b.2 + 0x10000000 + b.1.1)); [lia |].
  by rewrite andb_false_r.
Qed.

Lemma bump_alloc_inv d l size kv da d' :
  bump_inv d l → bump_alloc d size = (Some (kv, da), d') → bump_inv d' ((size, kv, da) :: l).
Proof.
  intros [Hp [Ht Hm] Hb Hn Hc]. unfold bump_alloc.
  destruct (Z.ltb_spec 0 size), (Z.eqb_spec (size mod PAGE_SIZE) 0) as [E |], (Z.ltb_spec (d.1 + size) 0x20000000); try done.
  intros [= <- <- <-].
  assert (Forall (bump_block (d.1 + size)) ((size, d.1, d.1 - 0x10000000) :: l)) as Hb'.
  { apply list.Forall_cons. split; [unfold bump_block; cbn; lia |].
    eapply list.Forall_impl; [exact Hb |]. intros b (? & ? & ? & ? & ?). unfold bump_block. lia. }
  split; cbn [fst snd]; [by rewrite Hp | split; [lia | by rewrite Z.add_mod, Hm, E] | done | |].
  - apply list.NoDup_cons. split; [| done]. intros Hin. rewrite list.Forall_forall in Hb.
    destruct (Hb _ Hin) as (_ & _ & _ & Hle & _). cbn in Hle. lia.
  - intros x. destruct (Z.le_gt_cases d.1 x).
    + cbn. rewrite (cover_below l d.1) by done. case_match; lia.
    + cbn. unfold in_block at 1. cbn. destruct (Z.leb_spec (d.1 - 0x10000000 + 0x10000000) x); [lia | apply Hc].
Qed.

Lemma bump_free_inv d l size kv da :
  bump_inv d ((size, kv, da) :: l) → bump_inv (d.1, filter (λ b, b ≠ (size, kv, da)) d.2) l.
Proof.
  intros [Hp Ht Hb Hn Hc]. apply list.NoDup_cons in Hn as [Hna Hn]. apply list.Forall_cons in Hb as [_ Hb].
  split; cbn [fst snd]; [| done | done | done |].
  - rewrite Hp, list.filter_cons, decide_False by (intros F; by apply F).
    clear -Hna. induction l as [| b l IH]; [done |]. apply not_elem_of_cons in Hna as [Hb Hl].
    rewrite list.filter_cons, decide_True by done. by rewrite IH.
  - intros x. specialize (Hc x). cbn in Hc. pose proof (cover_nonneg (map dma_phys l) x). case_match; lia.
Qed.

#[local, refine] Instance bump_spec : DmaSpec := {| dma_inv := bump_inv |}.
Proof.
  - apply bump_alloc_inv.
  - intros d l size d' Hi. cbn. unfold bump_alloc. destruct (_ && _); by intros [= <-].
  - apply bump_free_inv.
  - intros d l x Hi. apply Hi.
  - intros d l size kv da [_ Ht Hb _ _] Hin. rewrite list.Forall_forall in Hb.
    destruct (Hb _ Hin) as (E & Hs & Hlo & Hhi & Hal). cbn in *. subst da.
    replace (kv - 0x10000000 + 0x10000000) with kv by lia. split_and!; [done | done | lia | lia | lia].
Defined.

Definition d0 : dma_state := (0x10000000, []).
Lemma d0_inv : dma_inv d0 [].
Proof. split; [done | done | constructor | constructor | done]. Qed.
Definition pool_d0 : xrp_cma_pool := mk_cma d0 ∅.
Definition cma0 : alloc_state xrp_cma_pool := mk_alloc_state pool_d0 ∅.
Definition cma1 := (xrp_allocate (Some 2) None cma0 5000 64).2.
Definition cma2 := default cma1 (xrp_allocation_put cma1 2).

(** One allocation of two pages, and its release. *)
Lemma cma_run : rtc alloc_step cma0 cma2.
Proof.
  apply (rtc_l _ _ cma1); [| apply rtc_once].
  - apply (step_allocate _ (Some 2) None 5000 64 (Ok 2)); [| by apply (bool_decide_unpack _) | done].
    split; [| done]. intros p [= <-]. done.
  - by apply (step_put _ 2).
Qed.

Lemma cma_returns_memory_witness :
  dma_inv (cp_dma (st_pool cma2)) (live_dma (st_pool cma2) (live cma2)) ∧
  (st_objs cma2 = ∅ → dma_inv (cp_dma (st_pool cma2)) [] ∧ xrp_cma_free_pool (st_pool cma2) = ∅).
Proof. apply (cma_returns_memory d0 pool_d0 cma2 d0_inv eq_refl cma_run). Defined.

Example cma_values :
  st_objs cma1 = {[2 := mk_allocation 2 0x10000000 0x2000 1]} ∧ (cp_dma (st_pool cma1)).2 = [(0x2000, 0x10000000, 0)] ∧
  st_objs cma2 = ∅ ∧ (cp_dma (st_pool cma2)).2 = [].
Proof. by vm_compute. Qed.

(** The pool does not look at the alignment: a request for memory at a
    multiple of 64 KiB succeeds with memory that is not. *)
Example cma_ignores_alignment :
  (xrp_cma_alloc (Some 3) None (st_pool cma1) 0x1000 0x10000).1 = Ok (mk_allocation 3 0x10002000 0x1000 1).
Proof. by vm_compute. Qed.
End CmaExamples.
