(* ===== verification/AddressMap.v ===== *)
(** * Host to DSP address translation (xrp-kernel/xrp_address_map.c, .h)

    The table of address ranges built from the device tree, kept sorted, and
    searched with [bsearch].  [sort], [bsearch] and the device-tree accessors
    belong to the Linux kernel: they are parameters, and what the driver
    relies on is the documented behaviour stated in [KLibSpec]. *)

From stdpp Require Import base tactics list sorting fin_sets numbers.
From S2P Require Import Prelude.

Record xrp_address_map_entry := mk_entry {
  src_addr : Z;
  dst_addr : Z;
  e_size : Z;
}.

#[export] Instance xrp_address_map_entry_eq_dec : EqDecision xrp_address_map_entry.
Proof. solve_decision. Defined.

(** [map->entry[0 .. map->n - 1]]. *)
Abbreviation xrp_address_map := (list xrp_address_map_entry).

Definition XRP_NO_TRANSLATION : Z := u32 (-1).

(** ** Kernel library parameters *)

Class KLib := {
  bsearch : (Z → xrp_address_map_entry → Z) → Z → list xrp_address_map_entry →
            option xrp_address_map_entry;
  sort : (xrp_address_map_entry → xrp_address_map_entry → Z) →
         list xrp_address_map_entry → list xrp_address_map_entry;
}.

(** The array is in ascending order for the key: everything above the key
    comes after everything that is not, everything below comes before. *)
Definition search_ordered {E} (cmp : Z → E → Z) (key : Z) (l : list E) : Prop :=
  StronglySorted (λ a b, (cmp key a < 0 → cmp key b < 0) ∧ (cmp key b > 0 → cmp key a > 0)) l.

Class KLibSpec `{KLib} : Prop := {
  bsearch_sound cmp key l e : bsearch cmp key l = Some e → e ∈ l ∧ cmp key e = 0;
  bsearch_complete cmp key l e :
    search_ordered cmp key l → e ∈ l → cmp key e = 0 → bsearch cmp key l ≠ None;
  sort_perm cmp l : sort cmp l ≡ₚ l;
  sort_sorted cmp l :
    (∀ a b, a ∈ l → b ∈ l → cmp a b ≤ 0 ∨ cmp b a ≤ 0) →
    (∀ a b c, a ∈ l → b ∈ l → c ∈ l → cmp a b ≤ 0 → cmp b c ≤ 0 → cmp a c ≤ 0) →
    StronglySorted (λ a b, cmp a b ≤ 0) (sort cmp l);
}.

Section address_map.
Context `{Arch} `{KLib}.

Definition xrp_compare_address_sort (pa pb : xrp_address_map_entry) : Z :=
  if (src_addr pa <? src_addr pb) && (e_size pa <=? phys (src_addr pb - src_addr pa)) then -1
  else if (src_addr pb <? src_addr pa) && (e_size pb <=? phys (src_addr pa - src_addr pb)) then 1
  else 0.

Definition xrp_compare_address (addr : Z) (entry : xrp_address_map_entry) : Z :=
  if addr <? src_addr entry then -1
  else if phys (addr - src_addr entry) <? e_size entry then 0
  else 1.

Definition xrp_compare_address_search (a : Z) (b : xrp_address_map_entry) : Z :=
  xrp_compare_address a b.

(** Device tree input: the cells of the [ranges] property ([None] when it
    is absent), whether the node has a child, the cell counts, and the
    kernel accessors applied to the cells from an offset on. *)
Record of_input := {
  of_ranges : option (list Z);
  of_has_child : bool;
  of_na : Z;
  of_pna : Z;
  of_ns : Z;
  of_translate_address : list Z → Z;
  of_read_number : list Z → Z → Z;
}.

(** [InitUB]: the code writes outside the memory it allocated. *)
Inductive init_result := InitOk (map : xrp_address_map) | InitErr (e : Z) | InitUB.

(** The entry read from the cells at [off]. *)
Definition entry_at (dt : of_input) (cells : list Z) (off : Z) : xrp_address_map_entry :=
  let c := drop (Z.to_nat off) cells in
  mk_entry (phys (of_translate_address dt c))
    (u32 (of_read_number dt c (of_na dt)))
    (u32 (of_read_number dt (drop (Z.to_nat (of_na dt + of_pna dt)) c) (of_ns dt))).

(** [for (off = 0, i = 0; off < rlen; off += na + pna + ns, ++i)], writing
    [map->entry[i]]; [fuel] bounds the iterations. *)
Fixpoint fill_entries (fuel : nat) (dt : of_input) (cells : list Z) (rlen off : Z) (n i : nat)
  : option xrp_address_map :=
  match fuel with
  | O => Some []
  | S fuel =>
      if off <? rlen then
        if (i <? n)%nat then
          r ← fill_entries fuel dt cells rlen (off + (of_na dt + of_pna dt + of_ns dt)) n (S i);
          Some (entry_at dt cells off :: r)
        else None
      else Some []
  end.

(** [kz] is the result of the [kmalloc_array] or [kmalloc] call; the
    fallback path uses its result unchecked: [InitUB] here
    when the allocation fails. *)
Definition xrp_init_address_map (kz : bool) (dt : of_input) : init_result :=
  let empty := if kz then InitOk [mk_entry 0 0 (u32 (-1))] else InitUB in
  match of_ranges dt with
  | None => empty
  | Some cells =>
      if of_has_child dt then
        let rlen := Z.of_nat (length cells) in
        let step := of_na dt + of_pna dt + of_ns dt in
        let n := Z.to_nat (rlen / step) in
        if kz then
          match fill_entries (S (length cells)) dt cells rlen 0 n 0 with
          | Some entry => InitOk (sort xrp_compare_address_sort entry)
          | None => InitUB
          end
        else InitErr ENOMEM
      else empty
  end.

Definition xrp_get_address_mapping (map : xrp_address_map) (addr : Z) : option xrp_address_map_entry :=
  bsearch xrp_compare_address_search addr map.

Definition xrp_translate_to_dsp (map : xrp_address_map) (addr : Z) : Z :=
  match xrp_get_address_mapping map addr with
  | None => XRP_NO_TRANSLATION
  | Some entry => u32 (phys (dst_addr entry + addr - src_addr entry))
  end.
End address_map.

(** ** Well-formed maps and the reference lookup *)

Section spec.
Context `{Arch}.

Definition covers (addr : Z) (e : xrp_address_map_entry) : bool :=
  (src_addr e <=? addr) && (addr <? src_addr e + e_size e).

Definition entry_ok (e : xrp_address_map_entry) : Prop :=
  0 ≤ src_addr e ∧ 0 < e_size e < 2 ^ 32 ∧ src_addr e + e_size e ≤ 2 ^ phys_bits.

(** Ranges in ascending order that do not overlap. *)
Definition map_ok (l : xrp_address_map) : Prop :=
  Forall entry_ok l ∧ StronglySorted (λ a b, src_addr a + e_size a ≤ src_addr b) l.

(** What translation means, without any search strategy. *)
Fixpoint find_entry (l : xrp_address_map) (addr : Z) : option xrp_address_map_entry :=
  match l with
  | [] => None
  | e :: l => if covers addr e then Some e else find_entry l addr
  end.

Definition translate_ref (l : xrp_address_map) (addr : Z) : Z :=
  match find_entry l addr with
  | None => XRP_NO_TRANSLATION
  | Some e => u32 (dst_addr e + (addr - src_addr e))
  end.

Lemma covers_spec addr e :
  BoolSpec (src_addr e ≤ addr < src_addr e + e_size e) (addr < src_addr e ∨ src_addr e + e_size e ≤ addr)
    (covers addr e).
Proof. unfold covers. repeat zcase; constructor; lia. Qed.

Lemma compare_address_spec addr e :
  entry_ok e → 0 ≤ addr < 2 ^ phys_bits →
  (xrp_compare_address addr e = -1 ∧ addr < src_addr e) ∨
  (xrp_compare_address addr e = 0 ∧ covers addr e = true) ∨
  (xrp_compare_address addr e = 1 ∧ src_addr e + e_size e ≤ addr).
Proof.
  intros (? & ? & ?) ?. unfold xrp_compare_address, covers.
  destruct (Z.ltb_spec addr (src_addr e)); [by auto |]. rewrite phys_small by lia.
  repeat zcase; lia.
Qed.

Lemma map_ok_ordered l addr :
  map_ok l → 0 ≤ addr < 2 ^ phys_bits → search_ordered xrp_compare_address_search addr l.
Proof.
  intros [Hok Hs] Ha. unfold search_ordered. induction Hs as [| e l _ IH Hall]; constructor.
  - apply IH. by inversion Hok.
  - apply list.Forall_cons in Hok as [He Hl]. rewrite list.Forall_forall in *. intros b Hb.
    specialize (Hall b Hb). specialize (Hl b Hb). unfold xrp_compare_address_search.
    destruct (compare_address_spec addr e He Ha) as [[-> ?] | [[-> Hc] | [-> ?]]],
      (compare_address_spec addr b Hl Ha) as [[-> ?] | [[-> Hcb] | [-> ?]]]; try lia;
      destruct He as (? & ? & ?), Hl as (? & ? & ?); split; intros; try lia; unfold covers in *; lia.
Qed.

Lemma find_entry_some l addr e : find_entry l addr = Some e → e ∈ l ∧ covers addr e = true.
Proof.
  induction l as [| b l IH]; simpl; [done |]. destruct (covers addr b) eqn:E.
  - intros [= <-]. split; [by left | done].
  - intros [? ?]%IH. split; [by right | done].
Qed.

Lemma find_entry_none l addr e : find_entry l addr = None → e ∈ l → covers addr e = false.
Proof.
  induction l as [| b l IH]; simpl; [by intros _ ?%not_elem_of_nil |].
  destruct (covers addr b) eqn:E; [done |]. intros Hn [-> | ?]%elem_of_cons; auto.
Qed.

(** Entries of a well-formed map do not overlap. *)
Lemma map_ok_unique l addr a b :
  map_ok l → a ∈ l → b ∈ l → covers addr a = true → covers addr b = true → a = b.
Proof.
  intros [Hok Hs] Ha Hb Hca Hcb. unfold covers in *.
  induction Hs as [| e l _ IH Hall]; [by apply not_elem_of_nil in Ha |].
  apply list.Forall_cons in Hok as [He Hl]. rewrite list.Forall_forall in Hall.
  apply elem_of_cons in Ha as [-> | Ha], Hb as [-> | Hb]; auto; exfalso;
    [specialize (Hall b Hb) | specialize (Hall a Ha)]; lia.
Qed.
End spec.

Section translation.
Context `{Arch} `{KLibSpec}.

Lemma get_address_mapping_ref l addr :
  map_ok l → 0 ≤ addr < 2 ^ phys_bits → xrp_get_address_mapping l addr = find_entry l addr.
Proof.
  intros Hok Ha. unfold xrp_get_address_mapping.
  destruct (bsearch xrp_compare_address_search addr l) as [e |] eqn:Eb.
  - apply bsearch_sound in Eb as [Hin Hc].
    assert (covers addr e = true) as Hce.
    { destruct Hok as [Hok _]. pose proof (proj1 (list.Forall_forall _ _) Hok e Hin) as He.
      unfold xrp_compare_address_search in Hc.
      destruct (compare_address_spec addr e He Ha) as [[? ?] | [[? ?] | [? ?]]]; (done || lia). }
    destruct (find_entry l addr) as [b |] eqn:Ef.
    + apply find_entry_some in Ef as [? ?]. f_equal. by eapply map_ok_unique.
    + by rewrite (find_entry_none _ _ _ Ef Hin) in Hce.
  - destruct (find_entry l addr) as [b |] eqn:Ef; [| done].
    apply find_entry_some in Ef as [Hin Hc]. exfalso. revert Eb.
    apply (bsearch_complete _ _ _ b); [by apply map_ok_ordered | done |].
    destruct Hok as [Hok _]. pose proof (proj1 (list.Forall_forall _ _) Hok b Hin) as Hb.
    unfold xrp_compare_address_search, covers in *.
    destruct (compare_address_spec addr b Hb Ha) as [[? ?] | [[? ?] | [? ?]]]; (done || lia).
Qed.

(** C33: on a well-formed map, translating a physical address through the
    binary search gives the DSP address of the one range that contains it
    and [XRP_NO_TRANSLATION] when no range does. *)
Theorem translate_to_dsp_correct l addr :
  map_ok l → 0 ≤ addr < 2 ^ phys_bits → xrp_translate_to_dsp l addr = translate_ref l addr.
Proof.
  intros Hok Ha. unfold xrp_translate_to_dsp, translate_ref.
  rewrite get_address_mapping_ref by done. destruct (find_entry l addr) as [e |]; [| done].
  rewrite u32_phys. f_equal. lia.
Qed.

(** The translation of an address in a range. *)
Lemma translate_covered l e x off :
  map_ok l → e ∈ l → x = src_addr e + off → 0 ≤ off < e_size e → 0 ≤ dst_addr e → dst_addr e + e_size e ≤ 2 ^ 32 →
  xrp_translate_to_dsp l x = dst_addr e + off.
Proof.
  intros Hok Hin -> Hoff ??. pose proof (proj1 (list.Forall_forall _ _) (proj1 Hok) e Hin) as (? & ? & ?).
  assert (covers (src_addr e + off) e = true) as Hc by (unfold covers; lia).
  unfold xrp_translate_to_dsp. rewrite get_address_mapping_ref by (done || lia).
  destruct (find_entry l _) as [b |] eqn:Ef; [| by rewrite (find_entry_none _ _ _ Ef Hin) in Hc].
  apply find_entry_some in Ef as [? ?]. rewrite (map_ok_unique l (src_addr e + off) b e) by done.
  pose proof phys_bits_ge. rewrite phys_small, u32_small by lia. lia.
Qed.

(** A buffer that lies inside one range of a well-formed map is
    contiguous for the DSP too: the translation of its [i]-th byte is the
    translation of its first byte plus [i]. *)
Theorem translate_contiguous l e addr i :
  map_ok l → e ∈ l → src_addr e ≤ addr → 0 ≤ i → addr + i < src_addr e + e_size e →
  0 ≤ dst_addr e → dst_addr e + e_size e ≤ 2 ^ 32 →
  xrp_translate_to_dsp l (addr + i) = xrp_translate_to_dsp l addr + i.
Proof.
  intros Hok Hin ?????. rewrite (translate_covered l e (addr + i) (addr + i - src_addr e)), (translate_covered l e addr (addr - src_addr e)); done || lia.
Qed.
End translation.

(** ** Initialisation *)

Section init.
Context `{Arch} `{KLibSpec}.

Definition of_step (dt : of_input) : Z := of_na dt + of_pna dt + of_ns dt.

(** The entries read, in the order of the property. *)
Definition dt_entries (dt : of_input) (cells : list Z) (i n : nat) : xrp_address_map :=
  map (λ j, entry_at dt cells (Z.of_nat j * of_step dt)) (seq i n).

(** Ranges that do not overlap each other. *)
Definition disjoint_entries (l : xrp_address_map) : Prop :=
  NoDup l ∧ ∀ a b, a ∈ l → b ∈ l → a ≠ b →
    src_addr a + e_size a ≤ src_addr b ∨ src_addr b + e_size b ≤ src_addr a.

Lemma fill_entries_spec dt cells n i fuel :
  0 < of_step dt → (i ≤ n)%nat → (n - i < fuel)%nat →
  fill_entries fuel dt cells (Z.of_nat n * of_step dt) (Z.of_nat i * of_step dt) n i =
  Some (dt_entries dt cells i (n - i)).
Proof.
  intros Hst. revert i. induction fuel as [| fuel IH]; intros i Hin Hf; [lia |].
  simpl. change (of_na dt + of_pna dt + of_ns dt) with (of_step dt).
  destruct (Z.ltb_spec (Z.of_nat i * of_step dt) (Z.of_nat n * of_step dt)).
  - assert (i < n)%nat by nia. rewrite (proj2 (Nat.ltb_lt i n)) by done.
    replace (Z.of_nat i * of_step dt + of_step dt) with (Z.of_nat (S i) * of_step dt) by lia.
    rewrite IH by lia. simpl. unfold dt_entries.
    replace (n - i)%nat with (S (n - S i)) by lia. done.
  - assert (i = n) as -> by nia. unfold dt_entries. by rewrite Nat.sub_diag.
Qed.

Lemma compare_sort_disjoint a b :
  entry_ok a → entry_ok b →
  (src_addr a + e_size a ≤ src_addr b → xrp_compare_address_sort a b = -1) ∧
  (src_addr b + e_size b ≤ src_addr a → xrp_compare_address_sort a b = 1).
Proof.
  intros (? & ? & ?) (? & ? & ?). unfold xrp_compare_address_sort. split; intros.
  - rewrite phys_small by lia. repeat zcase; lia.
  - rewrite (phys_small (src_addr a - src_addr b)) by lia. repeat zcase; lia.
Qed.

Lemma compare_sort_refl a : xrp_compare_address_sort a a = 0.
Proof. unfold xrp_compare_address_sort. by rewrite Z.ltb_irrefl. Qed.

Lemma sort_entries_ok l :
  Forall entry_ok l → disjoint_entries l →
  map_ok (sort xrp_compare_address_sort l) ∧ sort xrp_compare_address_sort l ≡ₚ l.
Proof.
  intros Hok [Hnd Hdis]. rewrite list.Forall_forall in Hok.
  assert (∀ a b, a ∈ l → b ∈ l → xrp_compare_address_sort a b ≤ 0 →
                 a = b ∨ src_addr a + e_size a ≤ src_addr b) as Hle.
  { intros a b Ha Hb Hc. destruct (decide (a = b)) as [| Hne]; [by left |].
    destruct (Hdis a b Ha Hb Hne) as [| Hba]; [by right |].
    rewrite (proj2 (compare_sort_disjoint a b (Hok a Ha) (Hok b Hb)) Hba) in Hc. lia. }
  pose proof (sort_perm xrp_compare_address_sort l) as Hp. split; [| done].
  split; [rewrite Hp; by apply list.Forall_forall |].
  assert (StronglySorted (λ a b, xrp_compare_address_sort a b ≤ 0) (sort xrp_compare_address_sort l)) as Hs.
  { apply sort_sorted.
    - intros a b Ha Hb. destruct (decide (a = b)) as [-> | Hne]; [left; by rewrite compare_sort_refl |].
      destruct (Hdis a b Ha Hb Hne) as [Hd | Hd]; [left | right].
      + rewrite (proj1 (compare_sort_disjoint a b (Hok a Ha) (Hok b Hb)) Hd). lia.
      + rewrite (proj1 (compare_sort_disjoint b a (Hok b Hb) (Hok a Ha)) Hd). lia.
    - intros a b c Ha Hb Hc Hab Hbc.
      destruct (Hle a b Ha Hb Hab) as [-> | ?]; [done |].
      destruct (Hle b c Hb Hc Hbc) as [-> | ?]; [done |].
      rewrite (proj1 (compare_sort_disjoint a c (Hok a Ha) (Hok c Hc))); [lia |].
      destruct (Hok b Hb) as (? & ? & ?). lia. }
  rewrite <- Hp in Hnd. assert (∀ a, a ∈ sort xrp_compare_address_sort l → a ∈ l) as Hsub by (intros a; by rewrite Hp).
  clear Hp. induction Hs as [| e s _ IH Hall]; constructor.
  - apply IH; [by apply list.NoDup_cons in Hnd as [_ ?] | intros a Ha; apply Hsub; by right].
  - rewrite list.Forall_forall in *. intros b Hb. apply list.NoDup_cons in Hnd as [Hni _].
    destruct (Hle e b) as [-> | ?]; [apply Hsub; by left | apply Hsub; by right | by apply Hall | done | done].
Qed.

(** *** What the property says

    A [ranges] property is a list of ranges: the address on the bus of the
    DSP's cores, the address on the parent bus and the size, each a number
    of big-endian cells. *)
Record dt_range := mk_range { dr_child : list Z; dr_parent : list Z; dr_size : list Z }.
Definition range_cells (r : dt_range) : list Z := dr_child r ++ dr_parent r ++ dr_size r.
Definition cell_number (l : list Z) : Z := foldl (λ r c, wrap 64 (r * 2 ^ 32 + c)) 0 l.

Definition range_shape (dt : of_input) (r : dt_range) : Prop :=
  Z.of_nat (length (dr_child r)) = of_na dt ∧ Z.of_nat (length (dr_parent r)) = of_pna dt ∧
  Z.of_nat (length (dr_size r)) = of_ns dt.

(** The DSP address, the size and - with [cpu], the kernel's translation of
    DSP addresses - the processor's address of a range. *)
Definition range_dsp (r : dt_range) : Z := cell_number (dr_child r).
Definition range_size (r : dt_range) : Z := cell_number (dr_size r).
Definition range_cpu (cpu : Z → Z) (r : dt_range) : Z := cpu (range_dsp r).

(** [of_read_number] reads the cells it is told to, and
    [of_translate_address] translates the address at the front. *)
Definition of_accessors (dt : of_input) (cpu : Z → Z) : Prop :=
  (∀ c rest, of_read_number dt (c ++ rest) (Z.of_nat (length c)) = cell_number c) ∧
  (∀ c rest, Z.of_nat (length c) = of_na dt → of_translate_address dt (c ++ rest) = cpu (cell_number c)).

(** A range of addresses the 32-bit DSP and the processor have. *)
Definition range_ok (cpu : Z → Z) (r : dt_range) : Prop :=
  0 ≤ range_cpu cpu r ∧ range_cpu cpu r + range_size r ≤ 2 ^ phys_bits ∧ 0 < range_size r < 2 ^ 32 ∧
  0 ≤ range_dsp r ∧ range_dsp r + range_size r ≤ 2 ^ 32.

Fixpoint ranges_apart (cpu : Z → Z) (rs : list dt_range) : Prop :=
  match rs with
  | [] => True
  | r :: rs =>
      Forall (λ b, range_cpu cpu r + range_size r ≤ range_cpu cpu b ∨ range_cpu cpu b + range_size b ≤ range_cpu cpu r) rs ∧
      ranges_apart cpu rs
  end.

Definition range_entry (cpu : Z → Z) (r : dt_range) : xrp_address_map_entry :=
  mk_entry (range_cpu cpu r) (range_dsp r) (range_size r).

Lemma entry_at_range dt cpu r rest :
  of_accessors dt cpu → range_shape dt r → range_ok cpu r →
  entry_at dt (range_cells r ++ rest) 0 = range_entry cpu r.
Proof.
  intros [Hn Ht] (E1 & E2 & E3) (Hc & Hcs & Hs & Hd & Hds). unfold entry_at, range_cells. rewrite drop_0, <- !app_assoc, Ht by done.
  replace (Z.to_nat (of_na dt + of_pna dt)) with (length (dr_child r ++ dr_parent r)) by (rewrite length_app; lia).
  rewrite <- E1, <- E3, Hn, (app_assoc (dr_child r)), drop_app_length, Hn.
  unfold range_entry, range_cpu, range_dsp, range_size in *. rewrite phys_small, !u32_small by lia. done.
Qed.

Lemma length_range_cells dt r : range_shape dt r → Z.of_nat (length (range_cells r)) = of_step dt.
Proof. unfold range_shape, range_cells, of_step. rewrite !length_app. lia. Qed.

Lemma entry_at_drop dt cells off k :
  0 ≤ off → 0 ≤ k → entry_at dt cells (off + k) = entry_at dt (drop (Z.to_nat off) cells) k.
Proof.
  intros Ho Hk. assert (drop (Z.to_nat k) (drop (Z.to_nat off) cells) = drop (Z.to_nat (off + k)) cells) as E
    by (rewrite drop_drop; f_equal; lia).
  unfold entry_at. by rewrite E.
Qed.

Lemma dt_entries_ranges dt cpu rs :
  of_accessors dt cpu → 0 < of_step dt → Forall (range_shape dt) rs → Forall (range_ok cpu) rs →
  dt_entries dt (concat (map range_cells rs)) 0 (length rs) = map (range_entry cpu) rs.
Proof.
  intros Ha Hst. induction rs as [| r rs IH]; [done |]. intros [Hr Hrs]%list.Forall_cons [Ho Hos]%list.Forall_cons.
  unfold dt_entries. cbn [length seq map concat]. f_equal; [by apply entry_at_range |].
  rewrite <- IH by done. unfold dt_entries. rewrite <- seq_shift, map_map. apply map_ext. intros j.
  replace (Z.of_nat (S j) * of_step dt) with (of_step dt + Z.of_nat j * of_step dt) by lia.
  rewrite entry_at_drop by lia. f_equal. rewrite <- (length_range_cells dt r Hr), Nat2Z.id. by rewrite drop_app_length.
Qed.

Lemma ranges_disjoint cpu rs :
  Forall (range_ok cpu) rs → ranges_apart cpu rs → disjoint_entries (map (range_entry cpu) rs).
Proof.
  unfold disjoint_entries. induction rs as [| r rs IH]; [intros _ _; split; [constructor | set_solver] |].
  intros [Ho Hos]%list.Forall_cons [Hr Hrs]. destruct (IH Hos Hrs) as [Hnd Hd]. cbn [map].
  assert (∀ b, b ∈ map (range_entry cpu) rs → src_addr (range_entry cpu r) + e_size (range_entry cpu r) ≤ src_addr b ∨
    src_addr b + e_size b ≤ src_addr (range_entry cpu r)) as Hx.
  { intros b (x & -> & Hx)%list_elem_of_fmap. by apply (proj1 (list.Forall_forall _ _) Hr x). }
  destruct Ho as (? & ? & ? & _). split.
  - apply list.NoDup_cons. split; [| done]. intros Hin. destruct (Hx _ Hin); cbn in *; lia.
  - intros a b [-> | Ha]%elem_of_cons [-> | Hb]%elem_of_cons Hne; [done | by apply Hx | destruct (Hx a Ha); auto | by apply Hd].
Qed.

(** C34: when the [ranges] property holds the cells of ranges that do not
    overlap for the processor, and of addresses and sizes the 32-bit DSP has,
    initialisation with memory for the table builds a sorted map with one
    entry for each range, and the map translates the processor's address of
    every byte of a range to the DSP's and every other address to
    [XRP_NO_TRANSLATION]. *)
Theorem init_address_map_ok dt cpu rs :
  of_ranges dt = Some (concat (map range_cells rs)) → of_has_child dt = true → 0 < of_step dt →
  of_accessors dt cpu → Forall (range_shape dt) rs → Forall (range_ok cpu) rs → ranges_apart cpu rs →
  ∃ m, xrp_init_address_map true dt = InitOk m ∧ map_ok m ∧ length m = length rs ∧
    (∀ r i, r ∈ rs → 0 ≤ i < range_size r → xrp_translate_to_dsp m (range_cpu cpu r + i) = range_dsp r + i) ∧
    (∀ a, 0 ≤ a < 2 ^ phys_bits → (∀ r, r ∈ rs → a < range_cpu cpu r ∨ range_cpu cpu r + range_size r ≤ a) →
       xrp_translate_to_dsp m a = XRP_NO_TRANSLATION).
Proof.
  intros Hr Hc Hst Hacc Hsh Hok Hd. unfold xrp_init_address_map. rewrite Hr, Hc.
  assert (Z.of_nat (length (concat (map range_cells rs))) = Z.of_nat (length rs) * of_step dt) as ->.
  { clear -Hsh. induction Hsh as [| r rs Hx _ IH]; [done |]. cbn [map concat length]. rewrite length_app, Nat2Z.inj_add, IH.
    rewrite (length_range_cells dt r Hx). lia. }
  change (of_na dt + of_pna dt + of_ns dt) with (of_step dt). rewrite Z.div_mul, Nat2Z.id by lia.
  assert (length rs ≤ length (concat (map range_cells rs)))%nat as Hfuel.
  { clear -Hsh Hst. induction Hsh as [| r rs Hx _ IH]; [done |]. cbn [map concat length]. rewrite length_app.
    pose proof (length_range_cells dt r Hx). lia. }
  pose proof (fill_entries_spec dt (concat (map range_cells rs)) (length rs) 0 (S (length (concat (map range_cells rs))))) as Hf.
  change (Z.of_nat 0 * of_step dt) with 0 in Hf. rewrite Hf, Nat.sub_0_r, (dt_entries_ranges dt cpu) by (done || lia).
  destruct (sort_entries_ok (map (range_entry cpu) rs)) as [Hm Hp]; [| by apply ranges_disjoint |].
  { apply Forall_map. eapply list.Forall_impl; [exact Hok |]. intros r (? & ? & ? & _). unfold entry_ok. cbn. lia. }
  eexists. split; [done |]. split; [exact Hm |]. split; [by rewrite Hp, length_map |].
  split.
  - intros r i Hin Hi. pose proof (proj1 (list.Forall_forall _ _) Hok r Hin) as (? & ? & ? & ? & ?).
    assert (range_entry cpu r ∈ sort xrp_compare_address_sort (map (range_entry cpu) rs)) as He
      by (rewrite Hp; by apply list_elem_of_fmap_2).
    apply (translate_covered _ (range_entry cpu r)); cbn; done || lia.
  - intros a Ha Hno. unfold xrp_translate_to_dsp. rewrite get_address_mapping_ref by done.
    destruct (find_entry _ a) as [e |] eqn:Ef; [| done]. apply find_entry_some in Ef as [Hin Hcv].
    rewrite Hp in Hin. apply list_elem_of_fmap in Hin as (r & -> & Hin). destruct (covers_spec a (range_entry cpu r)); [| done].
    destruct (Hno r Hin); cbn in *; lia.
Qed.

(** The map used when the device tree has no [ranges]: every 32-bit address
    except the last one is translated to itself. *)
Lemma default_map_identity dt addr :
  of_ranges dt = None → 0 ≤ addr < 2 ^ phys_bits →
  ∃ m, xrp_init_address_map true dt = InitOk m ∧
       xrp_translate_to_dsp m addr = if addr <? 2 ^ 32 - 1 then addr else XRP_NO_TRANSLATION.
Proof.
  intros Hr Ha. unfold xrp_init_address_map. rewrite Hr. eexists. split; [done |].
  unfold xrp_translate_to_dsp. pose proof phys_bits_ge.
  rewrite get_address_mapping_ref; [| | done].
  - simpl. unfold covers. simpl. change (u32 (-1)) with (2 ^ 32 - 1).
    destruct (Z.ltb_spec addr (2 ^ 32 - 1)); repeat zcase; try lia.
    rewrite phys_small, u32_small by lia. lia.
  - split; [| repeat constructor]. constructor; [| constructor].
    unfold entry_ok. simpl. change (u32 (-1)) with (2 ^ 32 - 1). lia.
Qed.
End init.

(** ** A reference instance of the kernel library *)

Module RefLib.
Fixpoint search (cmp : Z → xrp_address_map_entry → Z) (key : Z) (l : list xrp_address_map_entry)
  : option xrp_address_map_entry :=
  match l with
  | [] => None
  | e :: l => if cmp key e =? 0 then Some e else search cmp key l
  end.

Fixpoint insert_sorted (cmp : xrp_address_map_entry → xrp_address_map_entry → Z)
    (a : xrp_address_map_entry) (l : list xrp_address_map_entry) : list xrp_address_map_entry :=
  match l with
  | [] => [a]
  | b :: l => if cmp a b <=? 0 then a :: b :: l else b :: insert_sorted cmp a l
  end.

#[export] Instance klib : KLib := {|
  bsearch := search;
  sort cmp l := foldr (insert_sorted cmp) [] l;
|}.

Lemma insert_sorted_perm cmp a l : insert_sorted cmp a l ≡ₚ a :: l.
Proof.
  induction l as [| b l IH]; simpl; [done |]. destruct (cmp a b <=? 0); [done |].
  rewrite IH. apply Permutation_swap.
Qed.

Lemma insert_sorted_sorted cmp a l :
  (∀ x y, x ∈ a :: l → y ∈ a :: l → cmp x y ≤ 0 ∨ cmp y x ≤ 0) →
  (∀ x y z, x ∈ a :: l → y ∈ a :: l → z ∈ a :: l → cmp x y ≤ 0 → cmp y z ≤ 0 → cmp x z ≤ 0) →
  StronglySorted (λ x y, cmp x y ≤ 0) l → StronglySorted (λ x y, cmp x y ≤ 0) (insert_sorted cmp a l).
Proof.
  induction l as [| b l IH]; intros Htot Htr Hs; simpl; [repeat constructor |].
  apply StronglySorted_inv in Hs as [Hs Hall]. rewrite list.Forall_forall in Hall.
  destruct (Z.leb_spec (cmp a b) 0); constructor.
  - by constructor; [| apply list.Forall_forall].
  - apply list.Forall_forall. intros c [-> | Hc]%elem_of_cons; [done |].
    apply (Htr a b c); set_solver.
  - apply IH; [| | done]; intros; [apply Htot | eapply Htr]; set_solver.
  - apply list.Forall_forall. intros c. rewrite insert_sorted_perm. intros [-> | Hc]%elem_of_cons; [| by apply Hall].
    destruct (Htot a b) as [? | ?]; [set_solver.. | lia | done].
Qed.

#[export] Instance klib_spec : KLibSpec.
Proof.
  split; simpl.
  - intros cmp key l e. induction l as [| b l IH]; simpl; [done |].
    destruct (Z.eqb_spec (cmp key b) 0); [intros [= <-] | intros [? ?]%IH]; split; by (left || right || idtac).
  - intros cmp key l e _. induction l as [| b l IH]; simpl; [by intros ?%not_elem_of_nil |].
    destruct (Z.eqb_spec (cmp key b) 0); [done |]. intros [-> | ?]%elem_of_cons ?; [done | auto].
  - intros cmp l. induction l as [| b l IH]; simpl; [done |]. by rewrite insert_sorted_perm, IH.
  - intros cmp l. assert (∀ k, foldr (insert_sorted cmp) [] k ≡ₚ k) as Hp.
    { induction k as [| b k IH]; simpl; [done |]. by rewrite insert_sorted_perm, IH. }
    induction l as [| b l IH]; intros Htot Htr; simpl; [constructor |].
    apply insert_sorted_sorted; [intros ?? | intros ??? |]; try rewrite !Hp; [apply Htot | apply Htr |].
    apply IH; intros; [apply Htot | eapply Htr]; set_solver.
Qed.
End RefLib.

(** ** Concrete maps *)

Module MapExamples.
Import RefLib.
#[local] Existing Instance arch32.

(** Two ranges in device-tree order (not sorted): one cell each for child
    address, parent address and size. *)
Definition ranges2 : list dt_range :=
  [mk_range [0x60000000] [0xf0000000] [0x1000]; mk_range [0x0] [0x10000000] [0x10000]].
(** The processor's view: each range is where the parent address says. *)
Definition cpu2 (a : Z) : Z := if 0x60000000 <=? a then a - 0x60000000 + 0xf0000000 else a + 0x10000000.
Definition dt2 : of_input := {|
  of_ranges := Some [0x60000000; 0xf0000000; 0x1000; 0x0; 0x10000000; 0x10000];
  of_has_child := true;
  of_na := 1; of_pna := 1; of_ns := 1;
  of_translate_address c := cpu2 (cell_number (take 1 c));
  of_read_number c n := cell_number (take (Z.to_nat n) c);
|}.

Definition map2 : xrp_address_map :=
  [mk_entry 0x10000000 0x0 0x10000; mk_entry 0xf0000000 0x60000000 0x1000].

Example init_dt2 : xrp_init_address_map true dt2 = InitOk map2.
Proof. by vm_compute. Qed.

Lemma map2_ok : map_ok map2.
Proof.
  split; [repeat constructor; simpl; done |].
  repeat constructor; simpl; done.
Qed.

Lemma translate_to_dsp_correct_witness :
  xrp_translate_to_dsp map2 0xf0000010 = translate_ref map2 0xf0000010 ∧
  translate_ref map2 0xf0000010 = 0x60000010.
Proof. split; [apply (translate_to_dsp_correct map2 0xf0000010 map2_ok); done | done]. Defined.

Lemma translate_contiguous_witness :
  xrp_translate_to_dsp map2 (0x10000000 + 100) = xrp_translate_to_dsp map2 0x10000000 + 100.
Proof.
  apply (translate_contiguous map2 (mk_entry 0x10000000 0x0 0x10000)); try done.
  - apply map2_ok.
  - by left.
Defined.

Lemma init_address_map_ok_witness :
  ∃ m, xrp_init_address_map true dt2 = InitOk m ∧ map_ok m ∧ xrp_translate_to_dsp m 0xf0000010 = 0x60000010 ∧
       xrp_translate_to_dsp m 0x20 = XRP_NO_TRANSLATION.
Proof.
  destruct (init_address_map_ok dt2 cpu2 ranges2) as (m & Hm & Hok & _ & Ht & Hn); try done.
  - split; [intros c rest; cbn [of_read_number dt2]; by rewrite Nat2Z.id, take_app_length |].
    intros c rest Hc. assert (length c = 1%nat) as El by (change (of_na dt2) with 1 in Hc; lia).
    by destruct c as [| x [|]].
  - by repeat constructor.
  - by repeat constructor.
  - cbn [ranges_apart ranges2]. split; [constructor; [by right | constructor] | by split].
  - exists m. split_and!; [done | done | apply (Ht (mk_range [0x60000000] [0xf0000000] [0x1000]) 0x10); [by left | done] |].
    apply Hn; [done |]. intros r [-> | ->%list_elem_of_singleton]%elem_of_cons; by left.
Defined.

(** A [ranges] property whose length is not a multiple of the entry length
    makes the fill loop run once more than there are entries: it writes
    past the end of the array. *)
Example ranges_tail_overruns :
  xrp_init_address_map true
    {| of_ranges := Some [0x60000000; 0xf0000000; 0x1000; 0x0]; of_has_child := true;
       of_na := 1; of_pna := 1; of_ns := 1;
       of_translate_address c := nth 1 c 0; of_read_number c n := nth 0 c 0 |} = InitUB.
Proof. by vm_compute. Qed.
End MapExamples.
