(* ===== verification/Mem.v ===== *)
(** * Byte-addressed shared memory

    The memory shared by the host and the DSP: a total map from addresses to
    bytes, compared pointwise.  Words are little-endian; both sides move data
    either as whole words or as byte copies of words, so the byte order is
    never observed. *)

From stdpp Require Import base tactics list numbers.
From S2P Require Import Prelude.

Definition mem := Z → Z.

(** Pointwise equality, the equality of memories used throughout. *)
#[export] Instance mem_equiv : Equiv mem := λ m1 m2, ∀ x, m1 x = m2 x.
#[export] Instance mem_equivalence : Equivalence (≡@{mem}).
Proof. split; red; unfold equiv, mem_equiv; intros; congruence. Qed.

Definition bytes (l : list Z) : Prop := Forall (λ b, 0 ≤ b < 256) l.
Definition mem_ok (m : mem) : Prop := ∀ x, 0 ≤ m x < 256.

#[export] Instance bytes_dec l : Decision (bytes l).
Proof. unfold bytes. apply _. Defined.

(** ** Little-endian words *)

Fixpoint le_bytes (n : nat) (v : Z) : list Z :=
  match n with O => [] | S n => v mod 256 :: le_bytes n (v / 256) end.

Fixpoint le_val (l : list Z) : Z :=
  match l with [] => 0 | b :: l => b + 256 * le_val l end.

Lemma length_le_bytes n v : length (le_bytes n v) = n.
Proof. revert v. induction n; intros; simpl; [done | by rewrite IHn]. Qed.

Lemma bytes_le_bytes n v : bytes (le_bytes n v).
Proof.
  revert v. induction n as [| n IH]; intros v; constructor; [| apply IH].
  apply Z.mod_pos_bound. lia.
Qed.

Lemma le_val_bytes n v : 0 ≤ v < 256 ^ Z.of_nat n → le_val (le_bytes n v) = v.
Proof.
  revert v. induction n as [| n IH]; intros v Hv; simpl; [simpl in Hv; lia |].
  rewrite IH.
  - pose proof (Z.div_mod v 256 ltac:(lia)). lia.
  - rewrite Nat2Z.inj_succ, Z.pow_succ_r in Hv by lia.
    split; [apply Z.div_pos; lia | apply Z.div_lt_upper_bound; lia].
Qed.

Lemma le_bytes_val l : bytes l → le_bytes (length l) (le_val l) = l.
Proof.
  induction 1 as [| b l Hb _ IH]; simpl; [done |]. f_equal.
  - rewrite Z.mul_comm, Z.mod_add by lia. by apply Z.mod_small.
  - rewrite Z.mul_comm, Z.div_add, Z.div_small by lia. by rewrite Z.add_0_l.
Qed.

Lemma le_val_range l : bytes l → 0 ≤ le_val l < 256 ^ Z.of_nat (length l).
Proof.
  induction 1 as [| b l Hb _ IH]; cbn [le_val length]; [simpl; lia |].
  rewrite Nat2Z.inj_succ, Z.pow_succ_r by lia. lia.
Qed.

(** A short list is padded with zeros when it is read as a longer word. *)
Lemma le_val_pad l k : le_val (l ++ replicate k 0) = le_val l.
Proof.
  induction l as [| b l IH]; simpl; [| by rewrite IH].
  induction k; simpl; lia.
Qed.

(** ** Loads and stores *)

Definition store_bytes (m : mem) (a : Z) (l : list Z) : mem :=
  λ x, if (a <=? x) && (x <? a + Z.of_nat (length l)) then nth (Z.to_nat (x - a)) l 0 else m x.
Definition load_bytes (m : mem) (a : Z) (n : nat) : list Z :=
  map (λ i, m (a + Z.of_nat i)) (seq 0 n).
Definition load32 (m : mem) (a : Z) : Z := le_val (load_bytes m a 4).
Definition store32 (m : mem) (a v : Z) : mem := store_bytes m a (le_bytes 4 v).

#[export] Instance store_bytes_proper : Proper (equiv ==> eq ==> eq ==> equiv) store_bytes.
Proof. intros m1 m2 Hm a ? <- l ? <- x. unfold store_bytes. by rewrite Hm. Qed.
#[export] Instance load_bytes_proper : Proper (equiv ==> eq ==> eq ==> eq) load_bytes.
Proof. intros m1 m2 Hm a ? <- n ? <-. apply map_ext. intros. apply Hm. Qed.
#[export] Instance load32_proper : Proper (equiv ==> eq ==> eq) load32.
Proof. intros m1 m2 Hm a ? <-. unfold load32. by rewrite Hm. Qed.
#[export] Instance store32_proper : Proper (equiv ==> eq ==> eq ==> equiv) store32.
Proof. intros m1 m2 Hm a ? <- v ? <-. unfold store32. by rewrite Hm. Qed.

Lemma length_load_bytes m a n : length (load_bytes m a n) = n.
Proof. unfold load_bytes. by rewrite length_map, length_seq. Qed.

Lemma bytes_load_bytes m a n : mem_ok m → bytes (load_bytes m a n).
Proof. intros Hm. apply Forall_map, Forall_forall. intros. apply Hm. Qed.

Lemma load_bytes_lookup m a n i : (i < n)%nat → load_bytes m a n !! i = Some (m (a + Z.of_nat i)).
Proof.
  intros. unfold load_bytes. rewrite list_lookup_fmap.
  rewrite lookup_seq_lt by done. done.
Qed.

Lemma load_bytes_app m a n1 n2 :
  load_bytes m a (n1 + n2) = load_bytes m a n1 ++ load_bytes m (a + Z.of_nat n1) n2.
Proof.
  unfold load_bytes. rewrite seq_app, map_app. f_equal. simpl.
  assert (seq n1 n2 = map (Nat.add n1) (seq 0 n2)) as ->.
  { rewrite <- (Nat.add_0_r n1) at 1. symmetry. apply fmap_add_seq. }
  rewrite map_map. apply map_ext. intros. f_equal. lia.
Qed.

(** A load sees only the stores that overlap it. *)
Lemma load_bytes_ext m1 m2 a n :
  (∀ x, a ≤ x < a + Z.of_nat n → m1 x = m2 x) → load_bytes m1 a n = load_bytes m2 a n.
Proof. intros Hx. apply map_ext_in. intros i Hi%in_seq. apply Hx. lia. Qed.

Lemma store_bytes_in m a l x :
  a ≤ x < a + Z.of_nat (length l) → store_bytes m a l x = nth (Z.to_nat (x - a)) l 0.
Proof.
  intros. unfold store_bytes.
  by rewrite (proj2 (Z.leb_le _ _)), (proj2 (Z.ltb_lt _ _)) by lia.
Qed.

Lemma store_bytes_out m a l x :
  x < a ∨ a + Z.of_nat (length l) ≤ x → store_bytes m a l x = m x.
Proof. intros. unfold store_bytes. repeat zcase; lia. Qed.

(** A byte inside a copied block. *)
Lemma store_load_in m1 m2 a b n x :
  a ≤ x < a + n → store_bytes m1 a (load_bytes m2 b (Z.to_nat n)) x = m2 (b + (x - a)).
Proof.
  intros Hx. rewrite store_bytes_in by (rewrite length_load_bytes; lia).
  rewrite (nth_lookup_Some _ _ _ _ (load_bytes_lookup m2 b (Z.to_nat n) (Z.to_nat (x - a)) ltac:(lia))). f_equal. lia.
Qed.

Lemma load_store_same m a l : load_bytes (store_bytes m a l) a (length l) = l.
Proof.
  apply list_eq. intros i. destruct (decide (i < length l)%nat).
  - rewrite load_bytes_lookup, store_bytes_in by lia.
    replace (Z.to_nat _) with i by lia. destruct (nth_lookup_or_length l i 0); [done | lia].
  - rewrite !lookup_ge_None_2; rewrite ?length_load_bytes; by (done || lia).
Qed.

Lemma load_store_disjoint m a l b n :
  b + Z.of_nat n ≤ a ∨ a + Z.of_nat (length l) ≤ b →
  load_bytes (store_bytes m a l) b n = load_bytes m b n.
Proof. intros. apply load_bytes_ext. intros. apply store_bytes_out. lia. Qed.

Lemma load32_store32 m a v : 0 ≤ v < 2 ^ 32 → load32 (store32 m a v) a = v.
Proof.
  intros. unfold load32, store32.
  pose proof (load_store_same m a (le_bytes 4 v)) as E. rewrite length_le_bytes in E.
  rewrite E. apply le_val_bytes. simpl. lia.
Qed.

Lemma load32_store32_ne m a b v : b + 4 ≤ a ∨ a + 4 ≤ b → load32 (store32 m a v) b = load32 m b.
Proof.
  intros. unfold load32, store32. rewrite load_store_disjoint; [done |].
  rewrite length_le_bytes. lia.
Qed.

Lemma load32_range m a : mem_ok m → 0 ≤ load32 m a < 2 ^ 32.
Proof.
  intros Hm. pose proof (le_val_range _ (bytes_load_bytes m a 4 Hm)) as E.
  rewrite length_load_bytes in E. apply E.
Qed.

Lemma mem_ok_store_bytes m a l : mem_ok m → bytes l → mem_ok (store_bytes m a l).
Proof.
  intros Hm Hl x. unfold store_bytes. case_match; [| apply Hm].
  destruct (nth_in_or_default (Z.to_nat (x - a)) l 0) as [Hin | ->]; [| lia].
  by apply (proj1 (List.Forall_forall _ _) Hl).
Qed.

Lemma mem_ok_store32 m a v : mem_ok m → mem_ok (store32 m a v).
Proof. intros. by apply mem_ok_store_bytes, bytes_le_bytes. Qed.

(** Consecutive stores are one store of the concatenation. *)
Lemma store_bytes_app m a l k :
  store_bytes (store_bytes m a l) (a + Z.of_nat (length l)) k ≡ store_bytes m a (l ++ k).
Proof.
  intros x. destruct (decide (a ≤ x < a + Z.of_nat (length l))).
  - rewrite store_bytes_out, !store_bytes_in by (rewrite ?length_app; lia).
    rewrite app_nth1 by lia. done.
  - destruct (decide (a ≤ x < a + Z.of_nat (length (l ++ k)))); rewrite length_app in *.
    + rewrite !store_bytes_in by (rewrite ?length_app; lia). rewrite app_nth2 by lia. f_equal. lia.
    + rewrite !store_bytes_out by (rewrite ?length_app; lia). done.
Qed.

Lemma store_bytes_nil m a : store_bytes m a [] ≡ m.
Proof. intros x. apply store_bytes_out. simpl. lia. Qed.

#[export] Hint Resolve mem_ok_store_bytes mem_ok_store32 load32_range bytes_le_bytes : xrp.
