(* ===== verification/Interface.v ===== *)
(** * The host/DSP shared-memory interface

    The layout of the communication area
    (xrp-kernel/xrp_kernel_dsp_interface.h), the host's word-wise accessors
    (xrp-kernel/xvp_main.c, [xrp_comm_write] and friends), and the flag
    tests both sides make on the command word (xrp-dsp/xrp_dsp.c,
    [xrp_request_valid], [complete_request]; xvp_main.c,
    [xrp_cmd_complete]).

    A host access is a trace of 32-bit writes in program order, so that the
    memory the DSP sees between two of them is a prefix of the trace. *)

From stdpp Require Import base tactics list numbers.
From S2P Require Import Prelude Mem.

(** ** Constants and layout *)

Definition XRP_DSP_SYNC_IDLE := 0.
Definition XRP_DSP_SYNC_HOST_TO_DSP := 0x1.
Definition XRP_DSP_SYNC_DSP_TO_HOST := 0x3.
Definition XRP_DSP_SYNC_START := 0x101.
Definition XRP_DSP_SYNC_DSP_READY := 0x203.

Definition XRP_DSP_BUFFER_FLAG_READ := 0x1.
Definition XRP_DSP_BUFFER_FLAG_WRITE := 0x2.

Definition XRP_DSP_CMD_FLAG_REQUEST_VALID := 0x1.
Definition XRP_DSP_CMD_FLAG_RESPONSE_VALID := 0x2.
Definition XRP_DSP_CMD_FLAG_REQUEST_NSID := 0x4.
Definition XRP_DSP_CMD_FLAG_RESPONSE_DELIVERY_FAIL := 0x8.

Definition XRP_DSP_CMD_INLINE_DATA_SIZE := 16.
Definition XRP_DSP_CMD_INLINE_BUFFER_COUNT := 1.
Definition XRP_DSP_CMD_NAMESPACE_ID_SIZE := 16.

(** [struct xrp_dsp_buffer]. *)
Record xrp_dsp_buffer := mk_dsp_buffer {
  db_flags : Z;
  db_size : Z;
  db_addr : Z;
}.
Definition sizeof_dsp_buffer := 12.

#[export] Instance xrp_dsp_buffer_eq_dec : EqDecision xrp_dsp_buffer.
Proof. solve_decision. Defined.

(** The bytes of a [struct xrp_dsp_buffer] and of an array of them. *)
Definition dsp_buffer_bytes (b : xrp_dsp_buffer) : list Z :=
  le_bytes 4 (db_flags b) ++ le_bytes 4 (db_size b) ++ le_bytes 4 (db_addr b).
Definition dsp_buffers_bytes (l : list xrp_dsp_buffer) : list Z := l ≫= dsp_buffer_bytes.

Definition load_dsp_buffer (m : mem) (a : Z) : xrp_dsp_buffer :=
  mk_dsp_buffer (load32 m a) (load32 m (a + 4)) (load32 m (a + 8)).

(** Field addresses of a [struct xrp_dsp_cmd] at [cmd]. *)
Definition cmd_flags (cmd : Z) := cmd.
Definition cmd_in_data_size (cmd : Z) := cmd + 4.
Definition cmd_out_data_size (cmd : Z) := cmd + 8.
Definition cmd_buffer_size (cmd : Z) := cmd + 12.
Definition cmd_in_data (cmd : Z) := cmd + 16.
Definition cmd_out_data (cmd : Z) := cmd + 32.
Definition cmd_buffer_data (cmd : Z) := cmd + 48.
Definition cmd_nsid (cmd : Z) := cmd + 64.
Definition sizeof_dsp_cmd := 80.

(** Field addresses of a [struct xrp_dsp_sync]. *)
Definition sync_word (s : Z) := s.
Definition sync_hw_data (s : Z) := s + 4.

(** ** Host accessors *)

(** One [__raw_writel]: address and value. *)
Definition hw_write : Type := Z * Z.
Definition apply_write (m : mem) (w : hw_write) : mem := store32 m w.1 w.2.
Definition apply_writes (m : mem) (t : list hw_write) : mem := foldl apply_write m t.

Definition xrp_comm_write32 (addr v : Z) : list hw_write := [(addr, u32 v)].
Definition xrp_comm_read32 (m : mem) (addr : Z) : Z := load32 m addr.

(** The [while (sz32)] loop of [xrp_comm_write]: [n] whole words. *)
Fixpoint comm_write_words (n : nat) (addr : Z) (p : list Z) : list hw_write :=
  match n with
  | O => []
  | S n => (addr, le_val (take 4 p)) :: comm_write_words n (addr + 4) (drop 4 p)
  end.

(** [p] holds the bytes from the source pointer on. *)
Definition xrp_comm_write (addr : Z) (p : list Z) (sz : Z) : list hw_write :=
  let sz32 := Z.land sz (Z.lnot 3) in
  let tail := Z.land sz 3 in
  comm_write_words (Z.to_nat (sz32 / 4)) addr p ++
  (if tail =? 0 then []
   else [(addr + sz32,
          le_val (take (Z.to_nat tail) (drop (Z.to_nat sz32) p) ++
                  replicate (4 - Z.to_nat tail) 0))]).

Fixpoint comm_read_words (n : nat) (m : mem) (addr : Z) : list Z :=
  match n with
  | O => []
  | S n => le_bytes 4 (load32 m addr) ++ comm_read_words n m (addr + 4)
  end.

(** The bytes stored through the destination pointer. *)
Definition xrp_comm_read (m : mem) (addr sz : Z) : list Z :=
  let sz32 := Z.land sz (Z.lnot 3) in
  let tail := Z.land sz 3 in
  comm_read_words (Z.to_nat (sz32 / 4)) m addr ++
  (if tail =? 0 then [] else take (Z.to_nat tail) (le_bytes 4 (load32 m (addr + sz32)))).

(** ** Flag tests *)

Definition request_valid_flags (flags : Z) : bool :=
  Z.land flags (Z.lor XRP_DSP_CMD_FLAG_REQUEST_VALID XRP_DSP_CMD_FLAG_RESPONSE_VALID)
  =? XRP_DSP_CMD_FLAG_REQUEST_VALID.
Definition cmd_complete_flags (flags : Z) : bool :=
  Z.land flags (Z.lor XRP_DSP_CMD_FLAG_REQUEST_VALID XRP_DSP_CMD_FLAG_RESPONSE_VALID)
  =? Z.lor XRP_DSP_CMD_FLAG_REQUEST_VALID XRP_DSP_CMD_FLAG_RESPONSE_VALID.

(** DSP side: the flags and whether they announce a request. *)
Definition xrp_request_valid (m : mem) (dsp_cmd : Z) : Z * bool :=
  let flags := load32 m (cmd_flags dsp_cmd) in (flags, request_valid_flags flags).

(** Host side. *)
Definition xrp_cmd_complete (m : mem) (comm : Z) : bool :=
  cmd_complete_flags (xrp_comm_read32 m (cmd_flags comm)).

(** DSP side: the store that hands the command back; the host interrupt
    that follows it is counted by the caller. *)
Definition complete_request (m : mem) (dsp_cmd flags : Z) : mem :=
  store32 m (cmd_flags dsp_cmd) (Z.lor flags XRP_DSP_CMD_FLAG_RESPONSE_VALID).

(** [xrp_irq_handler]: [comm] is [None] before the area is mapped; the
    result is the completion counter and whether the interrupt was handled. *)
Definition xrp_irq_handler (m : mem) (comm : option Z) (completion : nat) : nat * bool :=
  match comm with
  | None => (completion, false)
  | Some c => if xrp_cmd_complete m c then (S completion, true) else (completion, false)
  end.

(** ** Effect of a trace *)

Lemma land_3 sz : Z.land sz 3 = sz mod 4.
Proof. apply (Z.land_ones sz 2). lia. Qed.

Lemma land_not3 sz : Z.land sz (Z.lnot 3) = sz / 4 * 4.
Proof.
  rewrite <- Z.ldiff_land. change 3 with (Z.ones 2).
  rewrite Z.ldiff_ones_r, Z.shiftr_div_pow2, Z.shiftl_mul_pow2 by lia. done.
Qed.

#[export] Instance apply_writes_proper : Proper (equiv ==> eq ==> equiv) apply_writes.
Proof.
  intros m1 m2 Hm t ? <-. revert m1 m2 Hm. induction t as [| w t IH]; intros m1 m2 Hm; simpl; [done |].
  apply IH. unfold apply_write. by rewrite Hm.
Qed.

Lemma apply_writes_app m t1 t2 : apply_writes m (t1 ++ t2) = apply_writes (apply_writes m t1) t2.
Proof. apply foldl_app. Qed.

Lemma mem_ok_apply_writes m t : mem_ok m → mem_ok (apply_writes m t).
Proof. revert m. induction t as [| w t IH]; intros m Hm; simpl; [done |]. by apply IH, mem_ok_store32. Qed.

(** Writes inside [[lo, hi)]. *)
Definition writes_in (lo hi : Z) (t : list hw_write) : Prop :=
  Forall (λ w : hw_write, lo ≤ w.1 ∧ w.1 + 4 ≤ hi) t.

Lemma writes_in_weaken lo hi lo' hi' t :
  lo' ≤ lo → hi ≤ hi' → writes_in lo hi t → writes_in lo' hi' t.
Proof. intros ??. apply Forall_impl. intros w. lia. Qed.

Lemma apply_writes_frame m t lo hi b n :
  writes_in lo hi t → b + Z.of_nat n ≤ lo ∨ hi ≤ b →
  load_bytes (apply_writes m t) b n = load_bytes m b n.
Proof.
  intros Ht Hb. revert m. induction Ht as [| w t Hw _ IH]; intros m; simpl; [done |].
  rewrite IH. apply load_store_disjoint. rewrite length_le_bytes. lia.
Qed.

Lemma apply_writes_frame32 m t lo hi b :
  writes_in lo hi t → b + 4 ≤ lo ∨ hi ≤ b → load32 (apply_writes m t) b = load32 m b.
Proof. intros. unfold load32. by erewrite apply_writes_frame. Qed.

Lemma bytes_take l n : bytes l → bytes (take n l).
Proof. apply Forall_take. Qed.
Lemma bytes_drop l n : bytes l → bytes (drop n l).
Proof. apply Forall_drop. Qed.
#[export] Hint Resolve bytes_take bytes_drop mem_ok_apply_writes : xrp.

Lemma store32_le_val m a l : length l = 4%nat → bytes l → store32 m a (le_val l) = store_bytes m a l.
Proof. intros Hl Hb. unfold store32. by rewrite <- Hl, le_bytes_val. Qed.

Lemma le_bytes_load32 m a : mem_ok m → le_bytes 4 (load32 m a) = load_bytes m a 4.
Proof.
  intros. unfold load32. rewrite <- (length_load_bytes m a 4) at 1.
  apply le_bytes_val. by apply bytes_load_bytes.
Qed.

Lemma comm_write_words_effect n m a p :
  bytes p → (4 * n ≤ length p)%nat →
  apply_writes m (comm_write_words n a p) ≡ store_bytes m a (take (4 * n) p).
Proof.
  revert m a p. induction n as [| n IH]; intros m a p Hp Hl.
  - simpl. by rewrite store_bytes_nil.
  - cbn [comm_write_words apply_writes foldl]. unfold apply_write at 2. cbn [fst snd].
    fold (apply_writes (store32 m a (le_val (take 4 p))) (comm_write_words n (a + 4) (drop 4 p))).
    rewrite IH by (try apply bytes_drop; rewrite ?length_drop; auto; lia).
    rewrite store32_le_val by (rewrite ?length_take; auto with xrp; lia).
    replace (4 * S n)%nat with (4 + 4 * n)%nat by lia. rewrite <- take_take_drop.
    rewrite <- store_bytes_app, length_take. replace (4 `min` length p)%nat with 4%nat by lia. done.
Qed.

Lemma comm_write_words_in n a p : writes_in a (a + 4 * Z.of_nat n) (comm_write_words n a p).
Proof.
  revert a p. induction n as [| n IH]; intros a p; constructor; simpl; [lia |].
  eapply writes_in_weaken; [| | apply IH]; lia.
Qed.

(** Bytes [xrp_comm_write] adds to fill the last word. *)
Definition pad4 (sz : Z) : nat := Z.to_nat ((- sz) mod 4).

(** A host write stores the bytes, and zeros up to the next word. *)
Lemma comm_write_effect m a p sz :
  bytes p → 0 ≤ sz ≤ Z.of_nat (length p) →
  apply_writes m (xrp_comm_write a p sz) ≡
  store_bytes m a (take (Z.to_nat sz) p ++ replicate (pad4 sz) 0).
Proof.
  intros Hp Hs. unfold xrp_comm_write, pad4. rewrite land_3, land_not3, Z.div_mul by lia.
  pose proof (Z.div_mod sz 4 ltac:(lia)) as E. pose proof (Z.mod_pos_bound sz 4 ltac:(lia)).
  set (q := sz / 4) in *. set (r := sz mod 4) in *.
  rewrite apply_writes_app, comm_write_words_effect by (auto; lia).
  destruct (Z.eqb_spec r 0) as [Hr | Hr].
  - replace ((- sz) mod 4) with 0 by (symmetry; apply Z.mod_divide; [lia | exists (- q); lia]).
    simpl. rewrite app_nil_r. replace (Z.to_nat sz) with (4 * Z.to_nat q)%nat by lia. done.
  - replace ((- sz) mod 4) with (4 - r)
      by (apply (Z.mod_unique_pos _ _ (- q - 1)); lia).
    cbn [apply_writes foldl apply_write fst snd]. unfold apply_write. cbn [fst snd].
    rewrite store32_le_val.
    2:{ rewrite length_app, length_replicate, length_take, length_drop. lia. }
    2:{ apply Forall_app. split; [by apply bytes_take, bytes_drop |]. apply Forall_replicate. lia. }
    pose proof (store_bytes_app m a (take (4 * Z.to_nat q) p)
      (take (Z.to_nat r) (drop (Z.to_nat (q * 4)) p) ++ replicate (4 - Z.to_nat r) 0)) as Ha.
    rewrite length_take in Ha. replace (a + Z.of_nat _) with (a + q * 4) in Ha by lia.
    rewrite Ha, app_assoc. replace (Z.to_nat (q * 4)) with (4 * Z.to_nat q)%nat by lia.
    rewrite take_take_drop. replace (4 * Z.to_nat q + Z.to_nat r)%nat with (Z.to_nat sz) by lia.
    replace (Z.to_nat (4 - r)) with (4 - Z.to_nat r)%nat by lia. done.
Qed.

Lemma comm_write_in a p sz : 0 ≤ sz → writes_in a (a + (sz + 3) / 4 * 4) (xrp_comm_write a p sz).
Proof.
  intros Hs. unfold xrp_comm_write. rewrite land_3, land_not3, Z.div_mul by lia.
  pose proof (Z.div_mod sz 4 ltac:(lia)). pose proof (Z.mod_pos_bound sz 4 ltac:(lia)).
  pose proof (Z.div_mod (sz + 3) 4 ltac:(lia)). pose proof (Z.mod_pos_bound (sz + 3) 4 ltac:(lia)).
  apply Forall_app. split.
  - eapply writes_in_weaken; [| | apply comm_write_words_in]; lia.
  - zcase; constructor; [simpl; lia | constructor].
Qed.

Lemma comm_read_words_load n m a : mem_ok m → comm_read_words n m a = load_bytes m a (4 * n).
Proof.
  intros Hm. revert a. induction n as [| n IH]; intros a; [done |].
  cbn [comm_read_words]. rewrite IH, le_bytes_load32 by done.
  replace (4 * S n)%nat with (4 + 4 * n)%nat by lia. by rewrite load_bytes_app.
Qed.

Lemma take_load_bytes m a k n : (k ≤ n)%nat → take k (load_bytes m a n) = load_bytes m a k.
Proof.
  intros. replace n with (k + (n - k))%nat by lia.
  rewrite load_bytes_app, take_app_length'; [done | by rewrite length_load_bytes].
Qed.

(** A host read returns the bytes of memory. *)
Lemma comm_read_load m a sz : mem_ok m → 0 ≤ sz → xrp_comm_read m a sz = load_bytes m a (Z.to_nat sz).
Proof.
  intros Hm Hs. unfold xrp_comm_read. rewrite land_3, land_not3, Z.div_mul by lia.
  pose proof (Z.div_mod sz 4 ltac:(lia)). pose proof (Z.mod_pos_bound sz 4 ltac:(lia)).
  rewrite comm_read_words_load, le_bytes_load32 by done.
  replace (Z.to_nat sz) with (4 * Z.to_nat (sz / 4) + Z.to_nat (sz mod 4))%nat by lia.
  rewrite load_bytes_app. f_equal. zcase.
  - by replace (sz mod 4) with 0.
  - rewrite take_load_bytes by lia. f_equal. lia.
Qed.

(** What the host writes with [xrp_comm_write] it reads back with
    [xrp_comm_read], for every size, and no byte outside the words covered
    changes. *)
Theorem comm_roundtrip m a p sz :
  mem_ok m → bytes p → 0 ≤ sz ≤ Z.of_nat (length p) →
  xrp_comm_read (apply_writes m (xrp_comm_write a p sz)) a sz = take (Z.to_nat sz) p ∧
  ∀ x, x < a ∨ a + (sz + 3) / 4 * 4 ≤ x → apply_writes m (xrp_comm_write a p sz) x = m x.
Proof.
  intros Hm Hp Hs. split.
  - rewrite comm_read_load by (auto with xrp; lia). rewrite comm_write_effect by done.
    set (l := take _ p ++ _).
    assert (length l = Z.to_nat sz + pad4 sz)%nat as Hl
      by (unfold l; rewrite length_app, length_take, length_replicate; lia).
    rewrite <- (take_load_bytes _ a (Z.to_nat sz) (length l)) by lia.
    rewrite load_store_same. unfold l. apply take_app_length'. rewrite length_take. lia.
  - intros x Hx.
    pose proof (apply_writes_frame m _ _ _ x 1 (comm_write_in a p sz (proj1 Hs))) as E.
    unfold load_bytes in E. simpl in E. rewrite Z.add_0_r in E. injection E; [done | lia].
Qed.

(** ** Arrays of buffer descriptors *)

Definition dsp_buffer_ok (b : xrp_dsp_buffer) : Prop :=
  0 ≤ db_flags b < 2 ^ 32 ∧ 0 ≤ db_size b < 2 ^ 32 ∧ 0 ≤ db_addr b < 2 ^ 32.
Abbreviation dsp_buffers_ok := (Forall dsp_buffer_ok).

Lemma length_dsp_buffer_bytes b : length (dsp_buffer_bytes b) = 12%nat.
Proof. done. Qed.

Lemma length_dsp_buffers_bytes l : length (dsp_buffers_bytes l) = (12 * length l)%nat.
Proof. induction l; [done |]. simpl length. unfold dsp_buffers_bytes in *. simpl. lia. Qed.

Lemma bytes_dsp_buffers_bytes l : bytes (dsp_buffers_bytes l).
Proof.
  induction l; [constructor |]. apply Forall_app. split; [| done].
  unfold dsp_buffer_bytes. rewrite !Forall_app. split_and!; apply bytes_le_bytes.
Qed.

Lemma load_dsp_buffer_bytes m a b :
  dsp_buffer_ok b → load_bytes m a 12 = dsp_buffer_bytes b → load_dsp_buffer m a = b.
Proof.
  intros (? & ? & ?) E. change 12%nat with (4 + (4 + 4))%nat in E. rewrite !load_bytes_app in E.
  unfold dsp_buffer_bytes in E. apply app_inj_1 in E as [E0 E].
  2:{ by rewrite length_load_bytes, length_le_bytes. }
  apply app_inj_1 in E as [E1 E2]; [| by rewrite length_load_bytes, length_le_bytes].
  unfold load_dsp_buffer, load32. change (Z.of_nat 4) with 4 in *.
  replace (a + 4 + 4) with (a + 8) in E2 by lia.
  rewrite E0, E1, E2, !le_val_bytes by (simpl; lia). by destruct b.
Qed.

(** The [i]-th element of the descriptor array at [a]. *)
Definition load_dsp_buffers (m : mem) (a : Z) (n : nat) : list xrp_dsp_buffer :=
  map (λ i, load_dsp_buffer m (a + Z.of_nat i * sizeof_dsp_buffer)) (seq 0 n).

(** Loads at two places that hold the same bytes. *)
Lemma load32_shift m1 m2 a b :
  (∀ i, 0 ≤ i < 4 → m1 (a + i) = m2 (b + i)) → load32 m1 a = load32 m2 b.
Proof. intros Hx. unfold load32, load_bytes. simpl. by rewrite !Hx by lia. Qed.

Lemma load_dsp_buffers_shift m1 m2 a b n :
  (∀ i, 0 ≤ i < 12 * Z.of_nat n → m1 (a + i) = m2 (b + i)) →
  load_dsp_buffers m1 a n = load_dsp_buffers m2 b n.
Proof.
  intros Hx. apply map_ext_in. intros k Hk%in_seq. unfold load_dsp_buffer, sizeof_dsp_buffer.
  f_equal; apply load32_shift; intros i Hi; rewrite <- !Z.add_assoc; apply Hx; lia.
Qed.

Lemma load_dsp_buffers_S m a n :
  load_dsp_buffers m a (S n) =
  load_dsp_buffer m a :: load_dsp_buffers m (a + sizeof_dsp_buffer) n.
Proof.
  unfold load_dsp_buffers. cbn [seq map]. rewrite Z.add_0_r. f_equal.
  rewrite <- seq_shift, map_map. apply map_ext. intros. f_equal. unfold sizeof_dsp_buffer. lia.
Qed.

Lemma load_dsp_buffers_bytes m a l :
  dsp_buffers_ok l → load_bytes m a (12 * length l) = dsp_buffers_bytes l →
  load_dsp_buffers m a (length l) = l.
Proof.
  intros Hl. revert a. induction Hl as [| b l Hb Hl IH]; intros a E; [done |].
  cbn [length] in *. rewrite load_dsp_buffers_S.
  replace (12 * S (length l))%nat with (12 + 12 * length l)%nat in E by lia.
  rewrite load_bytes_app in E. unfold dsp_buffers_bytes in E. cbn [mbind list_bind] in E.
  apply app_inj_1 in E as [E0 E1]; [| by rewrite length_load_bytes].
  rewrite (load_dsp_buffer_bytes _ _ b) by done. f_equal. apply IH. done.
Qed.

#[global] Arguments apply_writes : simpl never.
#[global] Arguments xrp_comm_write32 : simpl never.
#[global] Arguments xrp_comm_write : simpl never.

Lemma comm_roundtrip_witness :
  xrp_comm_read (apply_writes (λ _, 0) (xrp_comm_write 64 [1; 2; 3; 4; 5; 6; 7] 6)) 64 6 =
  [1; 2; 3; 4; 5; 6].
Proof.
  refine (proj1 (comm_roundtrip (λ _, 0) 64 [1; 2; 3; 4; 5; 6; 7] 6 _ _ _)).
  - intros x. lia.
  - repeat constructor; lia.
  - simpl. lia.
Defined.
