(* ===== verification/Request.v ===== *)
(** * Host side of a command (xrp-kernel/xvp_main.c, xrp_kernel_defs.h)

    The request record, the writes that hand a command to the DSP
    ([xrp_fill_hw_request]), the waits for its completion
    ([xvp_complete_cmd_irq], [xvp_complete_cmd_poll]) and the read-back of
    the inline results ([xrp_complete_hw_request]). *)

From stdpp Require Import base tactics list numbers.
From S2P Require Import Prelude Mem AddressMap Interface.

(** ** Data *)

Definition XRP_FLAG_READ := 0x1.
Definition XRP_FLAG_WRITE := 0x2.
Definition XRP_FLAG_READ_WRITE := 0x3.
Definition XRP_QUEUE_FLAG_NSID := 0x4.
Definition XRP_QUEUE_VALID_FLAGS := 0x4.

Record xrp_ioctl_queue := {
  q_flags : Z;
  q_in_data_size : Z;
  q_out_data_size : Z;
  q_buffer_size : Z;
  q_in_data_addr : Z;
  q_out_data_addr : Z;
  q_buffer_addr : Z;
  q_nsid_addr : Z;
}.

(** The part of [struct xrp_request] that the command is built from; the
    sharing descriptors that keep the memory mapped are not needed to
    exchange a command. [rq_dsp_buffer] is the array [rq->dsp_buffer]
    points to. *)
Record xrp_request := {
  rq_ioctl_queue : xrp_ioctl_queue;
  rq_n_buffers : Z;
  rq_dsp_buffer : list xrp_dsp_buffer;
  rq_in_data_phys : Z;
  rq_out_data_phys : Z;
  rq_dsp_buffer_phys : Z;
  rq_in_data : list Z;
  rq_out_data : list Z;
  rq_nsid : list Z;
}.

Definition set_rq_out_data (rq : xrp_request) (d : list Z) : xrp_request :=
  {| rq_ioctl_queue := rq_ioctl_queue rq; rq_n_buffers := rq_n_buffers rq;
     rq_dsp_buffer := rq_dsp_buffer rq; rq_in_data_phys := rq_in_data_phys rq;
     rq_out_data_phys := rq_out_data_phys rq; rq_dsp_buffer_phys := rq_dsp_buffer_phys rq;
     rq_in_data := rq_in_data rq; rq_out_data := d; rq_nsid := rq_nsid rq |}.
Definition set_rq_dsp_buffer (rq : xrp_request) (b : list xrp_dsp_buffer) : xrp_request :=
  {| rq_ioctl_queue := rq_ioctl_queue rq; rq_n_buffers := rq_n_buffers rq;
     rq_dsp_buffer := b; rq_in_data_phys := rq_in_data_phys rq;
     rq_out_data_phys := rq_out_data_phys rq; rq_dsp_buffer_phys := rq_dsp_buffer_phys rq;
     rq_in_data := rq_in_data rq; rq_out_data := rq_out_data rq; rq_nsid := rq_nsid rq |}.

(** ** Operations *)

Section request.
Context `{Arch} `{KLib}.

(** Everything [xrp_fill_hw_request] writes before the barrier. *)
Definition fill_body (cmd : Z) (rq : xrp_request) (map : xrp_address_map) : list hw_write :=
  let q := rq_ioctl_queue rq in
  xrp_comm_write32 (cmd_in_data_size cmd) (q_in_data_size q) ++
  xrp_comm_write32 (cmd_out_data_size cmd) (q_out_data_size q) ++
  xrp_comm_write32 (cmd_buffer_size cmd) (rq_n_buffers rq * sizeof_dsp_buffer) ++
  (if XRP_DSP_CMD_INLINE_DATA_SIZE <? q_in_data_size q then
     xrp_comm_write32 (cmd_in_data cmd) (xrp_translate_to_dsp map (rq_in_data_phys rq))
   else xrp_comm_write (cmd_in_data cmd) (rq_in_data rq) (q_in_data_size q)) ++
  (if XRP_DSP_CMD_INLINE_DATA_SIZE <? q_out_data_size q then
     xrp_comm_write32 (cmd_out_data cmd) (xrp_translate_to_dsp map (rq_out_data_phys rq))
   else []) ++
  (if XRP_DSP_CMD_INLINE_BUFFER_COUNT <? rq_n_buffers rq then
     xrp_comm_write32 (cmd_buffer_data cmd) (xrp_translate_to_dsp map (rq_dsp_buffer_phys rq))
   else xrp_comm_write (cmd_buffer_data cmd) (dsp_buffers_bytes (rq_dsp_buffer rq))
          (rq_n_buffers rq * sizeof_dsp_buffer)) ++
  (if Z.land (q_flags q) XRP_QUEUE_FLAG_NSID =? 0 then []
   else xrp_comm_write (cmd_nsid cmd) (rq_nsid rq) XRP_DSP_CMD_NAMESPACE_ID_SIZE).

Definition request_flags (q : xrp_ioctl_queue) : Z :=
  Z.lor (Z.land (q_flags q) (u32 (Z.lnot XRP_DSP_CMD_FLAG_RESPONSE_VALID)))
    XRP_DSP_CMD_FLAG_REQUEST_VALID.

Definition xrp_fill_hw_request (cmd : Z) (rq : xrp_request) (map : xrp_address_map)
  : list hw_write :=
  fill_body cmd rq map ++ xrp_comm_write32 (cmd_flags cmd) (request_flags (rq_ioctl_queue rq)).

(** The descriptors read back into [rq->dsp_buffer]. *)
Definition dsp_buffers_of_bytes (n : nat) (l : list Z) : list xrp_dsp_buffer :=
  load_dsp_buffers (store_bytes (λ _, 0) 0 l) 0 n.

Definition xrp_complete_hw_request (m : mem) (cmd : Z) (rq : xrp_request) : Z * xrp_request :=
  let q := rq_ioctl_queue rq in
  let flags := xrp_comm_read32 m (cmd_flags cmd) in
  let rq1 :=
    if q_out_data_size q <=? XRP_DSP_CMD_INLINE_DATA_SIZE then
      set_rq_out_data rq
        (xrp_comm_read m (cmd_out_data cmd) (q_out_data_size q) ++
         drop (Z.to_nat (q_out_data_size q)) (rq_out_data rq))
    else rq in
  let rq2 :=
    if rq_n_buffers rq <=? XRP_DSP_CMD_INLINE_BUFFER_COUNT then
      set_rq_dsp_buffer rq1
        (dsp_buffers_of_bytes (Z.to_nat (rq_n_buffers rq))
           (xrp_comm_read m (cmd_buffer_data cmd) (rq_n_buffers rq * sizeof_dsp_buffer)))
    else rq1 in
  (if Z.land flags XRP_DSP_CMD_FLAG_RESPONSE_DELIVERY_FAIL =? 0 then 0 else - ENXIO, rq2).

(** The wait for the completion interrupt.  Each element is one return of
    [wait_for_completion_interruptible_timeout] (time left, 0 on timeout,
    negative when interrupted) with the memory seen after it; [None] means
    that the wait has not returned yet. *)
Fixpoint xvp_complete_cmd_irq (comm : Z) (waits : list (Z * mem)) : option Z :=
  match waits with
  | [] => None
  | (timeout, m) :: waits =>
      if xrp_cmd_complete m comm then Some 0
      else if 0 <? timeout then xvp_complete_cmd_irq comm waits
      else if timeout =? 0 then Some (- EBUSY) else Some timeout
  end.

(** The polling loop: each element is the memory one test sees and whether
    the deadline is still ahead after it. *)
Fixpoint xvp_complete_cmd_poll (comm : Z) (polls : list (mem * bool)) : option Z :=
  match polls with
  | [] => None
  | (m, before) :: polls =>
      if xrp_cmd_complete m comm then Some 0
      else if before then xvp_complete_cmd_poll comm polls
      else Some (- EBUSY)
  end.
End request.

(** A request that [xrp_map_request] can have produced: sizes fit their
    32-bit fields, and the inline areas are as long as the code reads. *)
Definition request_ok (rq : xrp_request) : Prop :=
  let q := rq_ioctl_queue rq in
  0 ≤ q_in_data_size q < 2 ^ 32 ∧ 0 ≤ q_out_data_size q < 2 ^ 32 ∧
  0 ≤ rq_n_buffers rq ∧ rq_n_buffers rq * sizeof_dsp_buffer < 2 ^ 32 ∧
  (q_flags q = 0 ∨ q_flags q = XRP_QUEUE_FLAG_NSID) ∧
  Z.of_nat (length (rq_dsp_buffer rq)) = rq_n_buffers rq ∧ dsp_buffers_ok (rq_dsp_buffer rq) ∧
  length (rq_in_data rq) = 16%nat ∧ bytes (rq_in_data rq) ∧
  length (rq_out_data rq) = 16%nat ∧
  length (rq_nsid rq) = 16%nat ∧ bytes (rq_nsid rq).

(** ** What the writes do *)

(** Writes that leave the bytes [[b, b + n)] alone. *)
Definition avoids (b n : Z) (t : list hw_write) : Prop :=
  Forall (λ w : hw_write, b + n ≤ w.1 ∨ w.1 + 4 ≤ b) t.

Lemma avoids_in lo hi b n t : writes_in lo hi t → b + n ≤ lo ∨ hi ≤ b → avoids b n t.
Proof. intros Ht Hb. eapply list.Forall_impl; [exact Ht |]. intros w. simpl. lia. Qed.

Lemma avoids_load m b n t : avoids b (Z.of_nat n) t → load_bytes (apply_writes m t) b n = load_bytes m b n.
Proof.
  intros Ht. revert m. unfold apply_writes. induction Ht as [| w t Hw _ IH]; intros m; simpl; [done |].
  rewrite IH. apply load_store_disjoint. rewrite length_le_bytes. lia.
Qed.

Lemma avoids_load32 m b t : avoids b 4 t → load32 (apply_writes m t) b = load32 m b.
Proof. intros. unfold load32. by rewrite avoids_load. Qed.

Lemma write32_in a v : writes_in a (a + 4) (xrp_comm_write32 a v).
Proof. constructor; [simpl; lia | constructor]. Qed.

Lemma write32_load m a v : load32 (apply_writes m (xrp_comm_write32 a v)) a = u32 v.
Proof. apply load32_store32, u32_range. Qed.

Lemma comm_write_in16 a p sz : 0 ≤ sz ≤ 16 → writes_in a (a + 16) (xrp_comm_write a p sz).
Proof.
  intros. eapply writes_in_weaken; [| | apply comm_write_in]; [lia | | lia].
  pose proof (Z.div_le_mono (sz + 3) 19 4). change (19 / 4) with 4 in *. lia.
Qed.

Lemma comm_write_load m a p sz :
  bytes p → 0 ≤ sz ≤ Z.of_nat (length p) →
  load_bytes (apply_writes m (xrp_comm_write a p sz)) a (Z.to_nat sz) = take (Z.to_nat sz) p.
Proof.
  intros Hp Hs. rewrite comm_write_effect by done. set (l := take _ p ++ _).
  assert (length l = Z.to_nat sz + pad4 sz)%nat as Hl
    by (unfold l; rewrite length_app, length_take, length_replicate; lia).
  rewrite <- (take_load_bytes _ a (Z.to_nat sz) (length l)) by lia.
  rewrite load_store_same. unfold l. apply take_app_length'. rewrite length_take. lia.
Qed.

#[local] Ltac unfold_cmd :=
  unfold cmd_flags, cmd_in_data_size, cmd_out_data_size, cmd_buffer_size, cmd_in_data,
    cmd_out_data, cmd_buffer_data, cmd_nsid, sizeof_dsp_buffer, XRP_DSP_CMD_INLINE_DATA_SIZE,
    XRP_DSP_CMD_INLINE_BUFFER_COUNT, XRP_DSP_CMD_NAMESPACE_ID_SIZE in *.

Section proofs.
Context `{Arch} `{KLib}.

(** Segments of [fill_body], one per field. *)
#[local] Ltac seg_in :=
  first [ apply Forall_nil; done
        | eapply writes_in_weaken; [| | apply write32_in]; lia
        | eapply writes_in_weaken; [| | apply comm_write_in16]; lia ].

Lemma fill_body_in cmd rq map :
  request_ok rq → writes_in (cmd + 4) (cmd + 80) (fill_body cmd rq map).
Proof.
  intros (? & ? & ? & ? & _). unfold fill_body. unfold_cmd.
  unfold writes_in. rewrite !Forall_app. fold (writes_in (cmd + 4) (cmd + 80)).
  split_and!; repeat zcase; seg_in.
Qed.

Lemma request_flags_cases q :
  q_flags q = 0 ∨ q_flags q = XRP_QUEUE_FLAG_NSID → request_flags q = Z.lor (q_flags q) 1.
Proof. unfold request_flags. by intros [-> | ->]. Qed.

(** Peels the segments that do not touch the field being read. *)
#[local] Ltac avoid :=
  repeat zcase;
  first [ apply Forall_nil; done
        | eapply avoids_in; [apply write32_in | lia]
        | eapply avoids_in; [apply comm_write_in16; lia | lia] ].
#[local] Ltac peel := rewrite ?apply_writes_app;
  repeat first [rewrite avoids_load32 by avoid | rewrite avoids_load by avoid].

(** The command as the DSP finds it at [cmd]. *)
Record message_at (m : mem) (cmd : Z) (rq : xrp_request) (map : xrp_address_map) : Prop := {
  msg_flags : load32 m (cmd_flags cmd) = request_flags (rq_ioctl_queue rq);
  msg_in_size : load32 m (cmd_in_data_size cmd) = q_in_data_size (rq_ioctl_queue rq);
  msg_out_size : load32 m (cmd_out_data_size cmd) = q_out_data_size (rq_ioctl_queue rq);
  msg_buffer_size : load32 m (cmd_buffer_size cmd) = rq_n_buffers rq * sizeof_dsp_buffer;
  msg_in_addr : 16 < q_in_data_size (rq_ioctl_queue rq) →
    load32 m (cmd_in_data cmd) = xrp_translate_to_dsp map (rq_in_data_phys rq);
  msg_in_data : q_in_data_size (rq_ioctl_queue rq) ≤ 16 →
    load_bytes m (cmd_in_data cmd) (Z.to_nat (q_in_data_size (rq_ioctl_queue rq))) =
    take (Z.to_nat (q_in_data_size (rq_ioctl_queue rq))) (rq_in_data rq);
  msg_out_addr : 16 < q_out_data_size (rq_ioctl_queue rq) →
    load32 m (cmd_out_data cmd) = xrp_translate_to_dsp map (rq_out_data_phys rq);
  msg_buffer_addr : 1 < rq_n_buffers rq →
    load32 m (cmd_buffer_data cmd) = xrp_translate_to_dsp map (rq_dsp_buffer_phys rq);
  msg_buffer_data : rq_n_buffers rq ≤ 1 →
    load_dsp_buffers m (cmd_buffer_data cmd) (length (rq_dsp_buffer rq)) = rq_dsp_buffer rq;
  msg_nsid : q_flags (rq_ioctl_queue rq) = XRP_QUEUE_FLAG_NSID →
    load_bytes m (cmd_nsid cmd) 16 = rq_nsid rq;
}.

Lemma translate_u32 map a : u32 (xrp_translate_to_dsp map a) = xrp_translate_to_dsp map a.
Proof. unfold xrp_translate_to_dsp. destruct xrp_get_address_mapping; apply wrap_idemp. Qed.

(** After [xrp_fill_hw_request] the command area holds exactly the
    request: every field the DSP reads has the value the host meant, inline
    data included, and nothing outside the 80 bytes of the command changed. *)
Lemma fill_hw_request_message m cmd rq map :
  request_ok rq →
  message_at (apply_writes m (xrp_fill_hw_request cmd rq map)) cmd rq map ∧
  ∀ b n, b + Z.of_nat n ≤ cmd ∨ cmd + sizeof_dsp_cmd ≤ b →
    load_bytes (apply_writes m (xrp_fill_hw_request cmd rq map)) b n = load_bytes m b n.
Proof.
  intros Hok. pose proof (fill_body_in cmd rq map Hok) as Hin.
  destruct Hok as (? & ? & ? & ? & Hf & Hlb & Hb & Hli & ? & Hlo & Hln & ?).
  split; [| intros b n Hbn; unfold xrp_fill_hw_request; rewrite apply_writes_app, !avoids_load;
            [done | eapply avoids_in; [exact Hin |] | eapply avoids_in; [apply write32_in |]];
            unfold sizeof_dsp_cmd in *; unfold_cmd; lia].
  assert (request_flags (rq_ioctl_queue rq) = u32 (request_flags (rq_ioctl_queue rq))) as Eu.
  { rewrite request_flags_cases by done. by destruct Hf as [-> | ->]. }
  unfold xrp_fill_hw_request, fill_body. split; intros; unfold_cmd.
  - rewrite apply_writes_app, write32_load. done.
  - peel. rewrite write32_load. apply u32_small. lia.
  - peel. rewrite write32_load. apply u32_small. lia.
  - peel. rewrite write32_load. apply u32_small. lia.
  - peel. rewrite (proj2 (Z.ltb_lt 16 (q_in_data_size (rq_ioctl_queue rq)))) by lia. rewrite write32_load. apply translate_u32.
  - peel. rewrite (proj2 (Z.ltb_ge 16 (q_in_data_size (rq_ioctl_queue rq)))) by lia. apply comm_write_load; [done | lia].
  - peel. rewrite (proj2 (Z.ltb_lt 16 (q_out_data_size (rq_ioctl_queue rq)))) by lia. rewrite write32_load. apply translate_u32.
  - peel. rewrite (proj2 (Z.ltb_lt 1 (rq_n_buffers rq))) by lia. rewrite write32_load. apply translate_u32.
  - apply load_dsp_buffers_bytes; [done |]. peel. rewrite (proj2 (Z.ltb_ge 1 (rq_n_buffers rq))) by lia.
    replace (12 * length (rq_dsp_buffer rq))%nat with (Z.to_nat (rq_n_buffers rq * 12)) by lia.
    rewrite comm_write_load by (rewrite ?length_dsp_buffers_bytes; auto using bytes_dsp_buffers_bytes; lia).
    apply take_ge. rewrite length_dsp_buffers_bytes. lia.
  - peel. replace (q_flags (rq_ioctl_queue rq)) with XRP_QUEUE_FLAG_NSID by done. simpl.
    rewrite (comm_write_load _ _ _ 16) by (auto; lia). apply take_ge. lia.
Qed.

(** C12: a command is published atomically.  While only a proper prefix of
    the host's writes has reached memory the flag word is the old one, so a
    DSP that saw no request before still sees none; after the last write it
    sees a valid request, which is never mistaken for the synchronisation
    request of a booting host. *)
Theorem fill_hw_request_atomic m cmd rq map t1 t2 :
  request_ok rq → xrp_fill_hw_request cmd rq map = t1 ++ t2 →
  (t2 ≠ [] → xrp_request_valid (apply_writes m t1) cmd = xrp_request_valid m cmd) ∧
  (t2 = [] → xrp_request_valid (apply_writes m t1) cmd = (request_flags (rq_ioctl_queue rq), true) ∧
             request_flags (rq_ioctl_queue rq) ≠ XRP_DSP_SYNC_START).
Proof.
  intros Hok E. pose proof (fill_body_in cmd rq map Hok) as Hin.
  destruct Hok as (_ & _ & _ & _ & Hf & _). unfold xrp_request_valid. split.
  - intros Hne. destruct (exists_last Hne) as (t2' & w & ->).
    unfold xrp_fill_hw_request, xrp_comm_write32 in E. rewrite app_assoc in E.
    apply app_inj_tail in E as [E _]. rewrite E in Hin. apply Forall_app in Hin as [Hin _].
    rewrite avoids_load32; [done |]. eapply avoids_in; [exact Hin |]. unfold_cmd. lia.
  - intros ->. rewrite app_nil_r in E. subst t1. unfold xrp_fill_hw_request.
    rewrite apply_writes_app, write32_load, request_flags_cases by done.
    destruct Hf as [-> | ->]; split; done.
Qed.

(** The interrupt wait reports success exactly when one of its looks at
    the command word, before any timeout or signal, finds the response flag
    set; and it never reports success on a command word that is not
    complete. *)
Theorem complete_cmd_irq_sound comm waits :
  xvp_complete_cmd_irq comm waits = Some 0 ↔
  ∃ pre t m post, waits = pre ++ (t, m) :: post ∧ xrp_cmd_complete m comm = true ∧
    Forall (λ w : Z * mem, 0 < w.1 ∧ xrp_cmd_complete w.2 comm = false) pre.
Proof.
  induction waits as [| [t m] waits IH]; simpl.
  { split; [done |]. intros (pre & t & m & post & E & _). by destruct pre. }
  destruct (xrp_cmd_complete m comm) eqn:Ec.
  { split; [intros _ | done]. by exists [], t, m, waits. }
  destruct (Z.ltb_spec 0 t).
  - rewrite IH. split; intros (pre & t' & m' & post & E & Hc & Hp).
    + exists ((t, m) :: pre), t', m', post. split_and!; [by rewrite E | done |]. by constructor.
    + destruct pre as [| w pre]; simplify_eq/=; [congruence |].
      exists pre, t', m', post. split_and!; [done | done |]. by inv Hp.
  - split.
    + destruct (Z.eqb_spec t 0); [done |]. intros [= ->]. lia.
    + intros (pre & t' & m' & post & E & Hc & Hp).
      destruct pre as [| w pre]; simplify_eq/=; [congruence |]. inv Hp. simpl in *. lia.
Qed.
End proofs.
