(* ===== verification/PageMap.v ===== *)
(** * Sharing user memory: from virtual to physical (xrp-kernel/xvp_main.c)

    How the driver finds the physical address of a block of user memory: a
    walk over the page table ([xvp_pfn_virt_to_phys]), pinned user pages
    ([xvp_gup_virt_to_phys]), and the count of the memory areas a block
    spans ([xvp_get_region_vma_count]).  The page table, the pinning of
    pages and the search for an area belong to the Linux kernel: they are
    parameters with their documented behaviour. *)

From stdpp Require Import base tactics list gmap numbers.
From S2P Require Import Prelude AddressMap.

Inductive alien_type := ALIEN_GUP | ALIEN_PFN_MAP | ALIEN_COPY.

(** [allocation] is only used by copies. *)
Record xrp_alien_mapping := mk_alien {
  am_vaddr : Z;
  am_size : Z;
  am_paddr : Z;
  am_allocation : Z;
  am_type : alien_type;
}.

Section page_map.
Context `{Arch} `{KLib}.

(** An [unsigned long] expression stored in an [int]. *)
Definition nr_pages (vaddr size : Z) : Z :=
  sint 32 (ulong (Z.shiftr (ulong (vaddr + size + PAGE_SIZE - 1)) PAGE_SHIFT - Z.shiftr vaddr PAGE_SHIFT)).
Definition __pfn_to_phys (pfn : Z) : Z := phys (Z.shiftl pfn PAGE_SHIFT).
Definition __phys_to_pfn (paddr : Z) : Z := Z.shiftr paddr PAGE_SHIFT.
(** [x & ~PAGE_MASK]. *)
Definition page_offs (x : Z) : Z := Z.land x (PAGE_SIZE - 1).

(** ** A walk over the page table *)

Section pfn.
(** [follow_pfn(vma, address, &pfn)]. *)
Variable follow_pfn : Z → result Z.

(** The offset of page [i] is an [int]. *)
Fixpoint pfn_loop (e : xrp_address_map_entry) (vaddr : Z) (n : nat) (i pfn : Z) : result unit :=
  match n with
  | O => Ok tt
  | S n =>
      let? next := follow_pfn (ulong (vaddr + sint 32 (Z.shiftl i PAGE_SHIFT))) in
      if negb (next =? pfn + 1) then Err EINVAL
      else if negb (xrp_compare_address (__pfn_to_phys next) e =? 0) then Err EINVAL
      else pfn_loop e vaddr n (i + 1) next
  end.

Definition xvp_pfn_virt_to_phys (map : xrp_address_map) (vaddr size : Z)
  : result (Z * xrp_alien_mapping) :=
  let? pfn := follow_pfn vaddr in
  let paddr := phys (__pfn_to_phys pfn + page_offs vaddr) in
  match xrp_get_address_mapping map paddr with
  | None => Err EINVAL
  | Some e =>
      let? _ := pfn_loop e vaddr (Z.to_nat (nr_pages vaddr size - 1)) 1 pfn in
      Ok (paddr, mk_alien vaddr size paddr 0 ALIEN_PFN_MAP)
  end.
End pfn.

(** ** Pinned pages

    A page is named by its frame number.  [pins] counts the references the
    kernel holds to each page. *)

Definition get_pages (l : list Z) (pins : Z → Z) : Z → Z :=
  λ p, pins p + Z.of_nat (length (filter (p =.) l)).
Definition put_pages (l : list Z) (pins : Z → Z) : Z → Z :=
  λ p, pins p - Z.of_nat (length (filter (p =.) l)).

Fixpoint gup_loop (e : xrp_address_map_entry) (prev : Z) (pages : list Z) : bool :=
  match pages with
  | [] => true
  | p :: pages =>
      (p =? prev + 1) && (xrp_compare_address (__pfn_to_phys p) e =? 0) && gup_loop e p pages
  end.

(** [km]: whether the array of page pointers can be allocated; [gup]: the
    pages [get_user_pages_fast] pins.  [None]: the code reads the first
    element of an array of no elements. *)
Definition xvp_gup_virt_to_phys (km : bool) (gup : Z → Z → result (list Z)) (map : xrp_address_map)
    (pins : Z → Z) (vaddr size : Z) : option (result (Z * xrp_alien_mapping) * (Z → Z)) :=
  let n := nr_pages vaddr size in
  if km then
    match gup vaddr n with
    | Err e => Some (Err e, pins)
    | Ok pages =>
        let pins := get_pages pages pins in
        let fail := Some (Err EINVAL, put_pages pages pins) in
        if Z.of_nat (length pages) <? n then fail
        else
          match pages with
          | [] => None
          | p0 :: rest =>
              match xrp_get_address_mapping map (__pfn_to_phys p0) with
              | None => fail
              | Some e =>
                  if gup_loop e p0 rest then
                    let paddr := phys (__pfn_to_phys p0 + page_offs vaddr) in
                    Some (Ok (paddr, mk_alien vaddr size paddr 0 ALIEN_GUP), pins)
                  else fail
              end
          end
    end
  else Some (Err ENOMEM, pins).

(** The pages of a mapping, as found again from its physical address. *)
Definition mapping_pages (am : xrp_alien_mapping) : list Z :=
  seqZ (__phys_to_pfn (am_paddr am)) (nr_pages (am_vaddr am) (am_size am)).
End page_map.

(** ** Memory areas *)

Record vma := mk_vma { vm_start : Z; vm_end : Z }.
#[export] Instance vma_eq_dec : EqDecision vma.
Proof. solve_decision. Defined.

Section areas.
Context `{Arch}.
(** [find_vma(current->mm, address)]. *)
Variable find_vma : Z → option vma.

(** The loop from [i = 2] on; [None] when [fuel] areas were not enough. *)
Fixpoint region_loop (fuel : nat) (stop : Z) (i : Z) (v : vma) : option Z :=
  match fuel with
  | O => None
  | S fuel =>
      match find_vma (vm_end v) with
      | None => Some 0
      | Some next =>
          if negb (vm_start next =? vm_end v) then Some 0
          else if stop <=? vm_end next then Some i
          else region_loop fuel stop (i + 1) next
      end
  end.

Definition xvp_get_region_vma_count (fuel : nat) (virt size : Z) (v : vma) : option Z :=
  if virt <? vm_start v then Some 0
  else if (vm_start v <=? virt) && (ulong (virt + size) <=? vm_end v) then Some 1
  else region_loop fuel (ulong (virt + size)) 2 v.
End areas.

(** ** What the kernel promises *)

(** A page table maps pages: the frame depends on the page of an address, and
    frames are inside the physical address space. *)
Record page_table_ok `{Arch} (follow : Z → result Z) : Prop := {
  pt_page a b : Z.shiftr a PAGE_SHIFT = Z.shiftr b PAGE_SHIFT → follow a = follow b;
  pt_range a p : follow a = Ok p → 0 ≤ p < 2 ^ (phys_bits - PAGE_SHIFT);
}.

(** [get_user_pages_fast] pins pages of the table, as many as it was asked
    for or fewer. *)
Definition gup_ok (follow : Z → result Z) (gup : Z → Z → result (list Z)) : Prop :=
  ∀ a n l, gup a n = Ok l → Z.of_nat (length l) ≤ n ∧
    ∀ (k : nat) p, l !! k = Some p → follow (a + Z.shiftl (Z.of_nat k) PAGE_SHIFT) = Ok p.

(** The physical address behind a byte of user memory. *)
Definition byte_phys (follow : Z → result Z) (a : Z) : result Z :=
  let? pfn := follow a in Ok (pfn * PAGE_SIZE + a mod PAGE_SIZE).

(** Ranges of the address map end at page boundaries. *)
Definition page_ended (map : xrp_address_map) : Prop :=
  Forall (λ e, (src_addr e + e_size e) mod PAGE_SIZE = 0) map.

(** A physical block inside one range of the address map. *)
Definition one_range (map : xrp_address_map) (paddr size : Z) : Prop :=
  ∃ e, e ∈ map ∧ ∀ j, 0 ≤ j < size → covers (paddr + j) e = true.

(** ** Page arithmetic *)

Section arith.
Context `{Arch}.

Lemma page_shiftr x : Z.shiftr x PAGE_SHIFT = x / PAGE_SIZE.
Proof. by rewrite Z.shiftr_div_pow2. Qed.
Lemma page_shiftl x : Z.shiftl x PAGE_SHIFT = x * PAGE_SIZE.
Proof. by rewrite Z.shiftl_mul_pow2. Qed.
Lemma page_offs_mod x : page_offs x = x mod PAGE_SIZE.
Proof. unfold page_offs. change (PAGE_SIZE - 1) with (Z.ones 12). by rewrite Z.land_ones. Qed.

(** The pages of a block, in the range where neither the sum nor an offset
    of a page ([int]) wraps: blocks below 2 GiB. *)
Definition block_ok (vaddr size : Z) : Prop :=
  0 ≤ vaddr ∧ 0 < size ∧ vaddr + size + PAGE_SIZE ≤ 2 ^ long_bits ∧ size + PAGE_SIZE ≤ 2 ^ 31.

Lemma block_pages vaddr size :
  block_ok vaddr size → 0 ≤ (vaddr + size + PAGE_SIZE - 1) / PAGE_SIZE - vaddr / PAGE_SIZE ≤ 2 ^ 19.
Proof.
  intros (? & ? & ? & ?). unfold PAGE_SIZE in *.
  pose proof (Z.div_mod vaddr 4096 ltac:(lia)). pose proof (Z.mod_pos_bound vaddr 4096 ltac:(lia)).
  pose proof (Z.div_mod (vaddr + size + 4096 - 1) 4096 ltac:(lia)).
  pose proof (Z.mod_pos_bound (vaddr + size + 4096 - 1) 4096 ltac:(lia)). lia.
Qed.

Lemma nr_pages_eq vaddr size :
  block_ok vaddr size → nr_pages vaddr size = (vaddr + size + PAGE_SIZE - 1) / PAGE_SIZE - vaddr / PAGE_SIZE.
Proof.
  intros Hb. pose proof (block_pages _ _ Hb) as Hn. destruct Hb as (? & ? & ? & ?). unfold nr_pages.
  rewrite (wrap_small _ (vaddr + _ + _ - 1)), !page_shiftr by (unfold PAGE_SIZE in *; lia).
  rewrite wrap_small, sint_small; [done | lia.. |]. destruct long_bits_cases as [-> | ->]; lia.
Qed.

Lemma nr_pages_lt vaddr size : block_ok vaddr size → nr_pages vaddr size * PAGE_SIZE ≤ 2 ^ 31.
Proof. intros Hb. rewrite nr_pages_eq by done. pose proof (block_pages _ _ Hb). unfold PAGE_SIZE in *. lia. Qed.

Lemma nr_pages_pos vaddr size : block_ok vaddr size → 0 < nr_pages vaddr size.
Proof.
  intros Hb. rewrite nr_pages_eq by done. destruct Hb as (? & ? & ?). unfold PAGE_SIZE in *.
  pose proof (Z.div_mod vaddr 4096 ltac:(lia)). pose proof (Z.div_mod (vaddr + size + 4096 - 1) 4096 ltac:(lia)).
  pose proof (Z.mod_pos_bound vaddr 4096 ltac:(lia)). pose proof (Z.mod_pos_bound (vaddr + size + 4096 - 1) 4096 ltac:(lia)).
  lia.
Qed.

(** The page of the [j]-th byte of a block. *)
Lemma block_page vaddr size j :
  block_ok vaddr size → 0 ≤ j < size →
  0 ≤ (vaddr + j) / PAGE_SIZE - vaddr / PAGE_SIZE < nr_pages vaddr size.
Proof.
  intros Hb Hj. rewrite nr_pages_eq by done. destruct Hb as (? & ? & ?). unfold PAGE_SIZE in *.
  pose proof (Z.div_mod vaddr 4096 ltac:(lia)). pose proof (Z.div_mod (vaddr + j) 4096 ltac:(lia)).
  pose proof (Z.div_mod (vaddr + size + 4096 - 1) 4096 ltac:(lia)). pose proof (Z.mod_pos_bound vaddr 4096 ltac:(lia)).
  pose proof (Z.mod_pos_bound (vaddr + j) 4096 ltac:(lia)).
  pose proof (Z.mod_pos_bound (vaddr + size + 4096 - 1) 4096 ltac:(lia)). lia.
Qed.

Lemma pfn_phys p : 0 ≤ p < 2 ^ (phys_bits - PAGE_SHIFT) → __pfn_to_phys p = p * PAGE_SIZE.
Proof.
  intros Hp. unfold __pfn_to_phys. rewrite page_shiftl. apply wrap_small. split; [unfold PAGE_SIZE; lia |].
  replace phys_bits with (phys_bits - PAGE_SHIFT + PAGE_SHIFT) by lia.
  rewrite Z.pow_add_r by (unfold PAGE_SHIFT; destruct phys_bits_cases; lia).
  change (2 ^ PAGE_SHIFT) with PAGE_SIZE. unfold PAGE_SIZE. lia.
Qed.

Lemma page_in_phys p x : 0 ≤ p < 2 ^ (phys_bits - PAGE_SHIFT) → 0 ≤ x < PAGE_SIZE →
  0 ≤ p * PAGE_SIZE + x < 2 ^ phys_bits.
Proof.
  intros Hp Hx. replace phys_bits with (phys_bits - PAGE_SHIFT + PAGE_SHIFT) by lia.
  rewrite Z.pow_add_r by (unfold PAGE_SHIFT; destruct phys_bits_cases; lia).
  change (2 ^ PAGE_SHIFT) with PAGE_SIZE. unfold PAGE_SIZE in *. lia.
Qed.

(** A range that ends at a page boundary and contains a byte of a page
    contains the rest of the page. *)
Lemma page_ended_rest e p x y :
  (src_addr e + e_size e) mod PAGE_SIZE = 0 → covers (p * PAGE_SIZE + x) e = true → 0 ≤ x → x ≤ y < PAGE_SIZE →
  covers (p * PAGE_SIZE + y) e = true.
Proof.
  unfold covers, PAGE_SIZE. intros He Hc Hx Hy. apply andb_true_iff in Hc as [H1 H2].
  pose proof (Z.div_mod (src_addr e + e_size e) 4096 ltac:(lia)). apply andb_true_iff. split; [lia |].
  apply Z.ltb_lt. apply Z.ltb_lt in H2. nia.
Qed.
End arith.

(** ** Contiguous blocks *)

Section contiguous.
Context `{Arch} `{KLibSpec}.

(** The pages of a block from frame [p] on, all in one range. *)
Definition contiguous (follow : Z → result Z) (e : xrp_address_map_entry) (vaddr size p : Z) : Prop :=
  covers (p * PAGE_SIZE + vaddr mod PAGE_SIZE) e = true ∧
  ∀ k, 0 ≤ k < nr_pages vaddr size →
    follow (vaddr + k * PAGE_SIZE) = Ok (p + k) ∧ (0 < k → covers ((p + k) * PAGE_SIZE) e = true).

(** Every byte of such a block is where the address of the first one says,
    and in the range. *)
Lemma contiguous_bytes follow e vaddr size p j :
  page_table_ok follow → block_ok vaddr size → (src_addr e + e_size e) mod PAGE_SIZE = 0 →
  contiguous follow e vaddr size p → 0 ≤ j < size →
  byte_phys follow (vaddr + j) = Ok (p * PAGE_SIZE + vaddr mod PAGE_SIZE + j) ∧
  covers (p * PAGE_SIZE + vaddr mod PAGE_SIZE + j) e = true.
Proof.
  intros Hpt Hb He [Hc0 Hk] Hj. pose proof (block_page vaddr size j Hb Hj) as Hp.
  set (k := (vaddr + j) / PAGE_SIZE - vaddr / PAGE_SIZE) in *. destruct (Hk k Hp) as [Hf Hc].
  assert (p * PAGE_SIZE + vaddr mod PAGE_SIZE + j = (p + k) * PAGE_SIZE + (vaddr + j) mod PAGE_SIZE) as E.
  { unfold k, PAGE_SIZE. pose proof (Z.div_mod vaddr 4096 ltac:(lia)). pose proof (Z.div_mod (vaddr + j) 4096 ltac:(lia)). lia. }
  rewrite E. pose proof (Z.mod_pos_bound (vaddr + j) PAGE_SIZE ltac:(unfold PAGE_SIZE; lia)) as Hm. split.
  - unfold byte_phys. rewrite (pt_page follow Hpt _ (vaddr + k * PAGE_SIZE)); [by rewrite Hf |].
    rewrite !page_shiftr, Z.div_add by (unfold PAGE_SIZE; lia). unfold k. lia.
  - destruct (decide (0 < k)) as [Hpos | Hz].
    + apply (page_ended_rest e (p + k) 0); [done | rewrite Z.add_0_r; auto | lia | lia].
    + assert (k = 0) as Ek by lia. rewrite Ek, Z.add_0_r in *.
      apply (page_ended_rest e p (vaddr mod PAGE_SIZE)); [done | done | apply Z.mod_pos_bound; unfold PAGE_SIZE; lia |].
      split; [| lia]. unfold k, PAGE_SIZE in *. pose proof (Z.div_mod vaddr 4096 ltac:(lia)).
      pose proof (Z.div_mod (vaddr + j) 4096 ltac:(lia)). lia.
Qed.

Lemma compare_covers map e x :
  map_ok map → e ∈ map → 0 ≤ x < 2 ^ phys_bits →
  (xrp_compare_address x e =? 0) = covers x e.
Proof.
  intros [Hok _] Hin Hx. pose proof (proj1 (list.Forall_forall _ _) Hok e Hin) as He.
  destruct (compare_address_spec x e He Hx) as [[-> ?] | [[-> ->] | [-> ?]]]; [| done |]; cbn; unfold covers; lia.
Qed.

Lemma get_mapping_iff map x e :
  map_ok map → 0 ≤ x < 2 ^ phys_bits →
  xrp_get_address_mapping map x = Some e ↔ e ∈ map ∧ covers x e = true.
Proof.
  intros Hok Hx. rewrite get_address_mapping_ref by done. split; [apply find_entry_some |].
  intros [Hin Hc]. destruct (find_entry map x) as [b |] eqn:Ef; [| by rewrite (find_entry_none _ _ _ Ef Hin) in Hc].
  apply find_entry_some in Ef as [? ?]. f_equal. by eapply map_ok_unique.
Qed.
End contiguous.

Section virt_to_phys.
Context `{Arch} `{KLibSpec}.
Variable follow : Z → result Z.
Hypothesis Hpt : page_table_ok follow.

Lemma block_addr vaddr size k :
  block_ok vaddr size → 0 ≤ k < nr_pages vaddr size → 0 ≤ vaddr + k * PAGE_SIZE < 2 ^ long_bits.
Proof.
  intros Hb. rewrite nr_pages_eq by done. destruct Hb as (? & ? & ?). unfold PAGE_SIZE in *. intros Hk.
  pose proof (Z.div_mod vaddr 4096 ltac:(lia)). pose proof (Z.div_mod (vaddr + size + 4096 - 1) 4096 ltac:(lia)).
  pose proof (Z.mod_pos_bound vaddr 4096 ltac:(lia)). pose proof (Z.mod_pos_bound (vaddr + size + 4096 - 1) 4096 ltac:(lia)).
  lia.
Qed.

Lemma frame_covers map e p :
  map_ok map → e ∈ map → 0 ≤ p < 2 ^ (phys_bits - PAGE_SHIFT) →
  (xrp_compare_address (__pfn_to_phys p) e =? 0) = covers (p * PAGE_SIZE) e.
Proof.
  intros Hok He Hp. rewrite pfn_phys by done. apply (compare_covers map); [done | done |].
  pose proof (page_in_phys p 0 Hp). unfold PAGE_SIZE in *. lia.
Qed.

Lemma pfn_loop_iff map e vaddr size p n i :
  map_ok map → e ∈ map → block_ok vaddr size → 1 ≤ i → i + Z.of_nat n ≤ nr_pages vaddr size →
  pfn_loop follow e vaddr n i (p + i - 1) = Ok tt ↔
  ∀ k, i ≤ k < i + Z.of_nat n →
    follow (vaddr + k * PAGE_SIZE) = Ok (p + k) ∧ covers ((p + k) * PAGE_SIZE) e = true.
Proof.
  intros Hok He Hb. revert i. induction n as [| n IH]; intros i Hi Hn; cbn [pfn_loop]; [split; [intros _ k ?; lia | done] |].
  pose proof (block_addr vaddr size i Hb ltac:(lia)) as Ha. pose proof (nr_pages_lt _ _ Hb) as Hlt.
  rewrite page_shiftl, sint_small, (wrap_small long_bits) by (unfold PAGE_SIZE in *; lia).
  assert (p + i - 1 + 1 = p + i) as Ep by lia.
  destruct (follow (vaddr + i * PAGE_SIZE)) as [next | er] eqn:Ef; cbn [result_bind];
    [| split; [done | intros Hall; destruct (Hall i) as [Hbad _]; [lia | congruence]]].
  destruct (Z.eqb_spec next (p + i - 1 + 1)) as [-> |]; cbn [negb];
    [| split; [done | intros Hall; destruct (Hall i) as [Hbad _]; [lia |]; rewrite Ef in Hbad; injection Hbad; lia]].
  rewrite Ep in *. rewrite (frame_covers map) by (done || by eapply pt_range).
  destruct (covers ((p + i) * PAGE_SIZE) e) eqn:Ec; cbn [negb];
    [| split; [done | intros Hall; destruct (Hall i) as [_ Hbad]; [lia | congruence]]].
  replace (p + i) with (p + (i + 1) - 1) at 1 by lia. rewrite IH by lia. split; intros Hall k Hk.
  - destruct (decide (k = i)) as [-> |]; [done |]. apply Hall. lia.
  - apply Hall. lia.
Qed.

(** The walk succeeds exactly on contiguous blocks in one range. *)
Lemma pfn_virt_to_phys_iff map vaddr size paddr am :
  map_ok map → block_ok vaddr size →
  xvp_pfn_virt_to_phys follow map vaddr size = Ok (paddr, am) ↔
  ∃ e p, e ∈ map ∧ contiguous follow e vaddr size p ∧
    paddr = p * PAGE_SIZE + vaddr mod PAGE_SIZE ∧ am = mk_alien vaddr size paddr 0 ALIEN_PFN_MAP.
Proof.
  intros Hok Hb. pose proof (nr_pages_pos _ _ Hb) as Hpos. unfold xvp_pfn_virt_to_phys.
  pose proof (Z.mod_pos_bound vaddr PAGE_SIZE ltac:(unfold PAGE_SIZE; lia)) as Hoff.
  assert (∀ e p, contiguous follow e vaddr size p → follow vaddr = Ok p) as Hfst.
  { intros e p [_ Hk]. destruct (Hk 0 ltac:(lia)) as [Hf _]. by rewrite !Z.add_0_r in Hf. }
  destruct (follow vaddr) as [p |] eqn:Ef; cbn [result_bind];
    [| split; [done | intros (e1 & p1 & _ & Hc & _); discriminate (Hfst e1 p1 Hc)]].
  pose proof (pt_range follow Hpt _ _ Ef) as Hp. pose proof (page_in_phys p _ Hp Hoff) as Hx.
  rewrite page_offs_mod, pfn_phys, phys_small by done.
  destruct (xrp_get_address_mapping map _) as [e |] eqn:Em.
  - apply get_mapping_iff in Em as [He Hc]; [| done | done].
    assert (pfn_loop follow e vaddr (Z.to_nat (nr_pages vaddr size - 1)) 1 p = Ok tt ↔ contiguous follow e vaddr size p) as Hiff.
    { replace p with (p + 1 - 1) at 1 by lia. rewrite (pfn_loop_iff map) by (done || lia). split.
      - intros Hall. split; [done |]. intros k Hk. destruct (decide (k = 0)) as [-> |].
        + rewrite Z.mul_0_l, !Z.add_0_r. split; [done | lia].
        + destruct (Hall k) as [? ?]; [lia | done].
      - intros [_ Hall] k Hk. destruct (Hall k) as [? Hck]; [lia |]. split; [done |]. apply Hck. lia. }
    destruct (pfn_loop _ _ _ _ _ _) as [[] | er]; cbn [result_bind].
    + split.
      * intros [= <- <-]. exists e, p. split_and!; [done | by apply Hiff | done | done].
      * intros (e' & p' & _ & Hc' & -> & ->). specialize (Hfst _ _ Hc'). by injection Hfst as ->.
    + split; [done |]. intros (e' & p' & He' & Hc' & _). pose proof (Hfst _ _ Hc') as E. injection E as ->.
      assert (e' = e) as -> by (destruct Hc' as [Hc' _]; by eapply map_ok_unique). by apply Hiff in Hc'.
  - split; [done |]. intros (e' & p' & He' & Hc' & _). pose proof (Hfst _ _ Hc') as E. injection E as ->.
    assert (xrp_get_address_mapping map (p' * PAGE_SIZE + vaddr mod PAGE_SIZE) = Some e') as Em'
      by (apply get_mapping_iff; [done | done | split; [done | by destruct Hc']]). congruence.
Qed.
End virt_to_phys.

Section shared.
Context `{Arch} `{KLibSpec}.
Variable follow : Z → result Z.
Hypothesis Hpt : page_table_ok follow.

Lemma translate_in map e x :
  map_ok map → e ∈ map → covers x e = true → 0 ≤ x < 2 ^ phys_bits →
  xrp_translate_to_dsp map x = u32 (dst_addr e + (x - src_addr e)).
Proof.
  intros Hok He Hc Hx. unfold xrp_translate_to_dsp. rewrite (proj2 (get_mapping_iff map x e Hok Hx)) by done.
  rewrite u32_phys. f_equal. lia.
Qed.

(** A block of user memory the DSP can use at [paddr]: the bytes of the user
    are there, in order, all in one range of the address map, and their DSP
    addresses are consecutive. *)
Definition shared_block (map : xrp_address_map) (vaddr size paddr : Z) : Prop :=
  one_range map paddr size ∧
  ∀ j, 0 ≤ j < size →
    byte_phys follow (vaddr + j) = Ok (paddr + j) ∧
    xrp_translate_to_dsp map (paddr + j) = u32 (xrp_translate_to_dsp map paddr + j).

Lemma contiguous_shared map e vaddr size p :
  map_ok map → page_ended map → block_ok vaddr size → e ∈ map → contiguous follow e vaddr size p →
  shared_block map vaddr size (p * PAGE_SIZE + vaddr mod PAGE_SIZE).
Proof.
  intros Hok Hend Hb He Hc. unfold page_ended in Hend. rewrite list.Forall_forall in Hend. specialize (Hend e He).
  pose proof (proj1 (list.Forall_forall _ _) (proj1 Hok) e He) as (? & ? & ?).
  split; [exists e; split; [done |]; intros j Hj; by apply (contiguous_bytes follow e vaddr size p j Hpt Hb Hend Hc Hj) |].
  intros j Hj. pose proof (contiguous_bytes follow e vaddr size p j Hpt Hb Hend Hc Hj) as [Hf Hcj].
  pose proof (contiguous_bytes follow e vaddr size p 0 Hpt Hb Hend Hc ltac:(lia)) as [_ Hc0].
  rewrite Z.add_0_r in Hc0. split; [done |].
  rewrite (translate_in map e), (translate_in map e) by (done || (unfold covers in *; lia)).
  unfold wrap. rewrite Zplus_mod_idemp_l. f_equal. lia.
Qed.

(** The page table walk shares a block exactly when its frames are
    consecutive and inside one range of the address map; the address it
    returns is then where every byte of the block is, and the DSP sees the
    block as consecutive addresses. *)
Theorem pfn_virt_to_phys_correct map vaddr size :
  map_ok map → page_ended map → block_ok vaddr size →
  (∀ paddr am, xvp_pfn_virt_to_phys follow map vaddr size = Ok (paddr, am) →
     shared_block map vaddr size paddr ∧ am = mk_alien vaddr size paddr 0 ALIEN_PFN_MAP) ∧
  (∀ e p, e ∈ map → contiguous follow e vaddr size p →
     is_ok (xvp_pfn_virt_to_phys follow map vaddr size) = true).
Proof.
  intros Hok Hend Hb. split.
  - intros paddr am E. apply (pfn_virt_to_phys_iff follow Hpt) in E as (e & p & He & Hc & -> & ->); [| done | done].
    split; [by eapply contiguous_shared | done].
  - intros e p He Hc. pose proof (proj2 (pfn_virt_to_phys_iff follow Hpt map vaddr size _ _ Hok Hb)
      (ex_intro _ e (ex_intro _ p (conj He (conj Hc (conj eq_refl eq_refl)))))) as ->. done.
Qed.

Lemma gup_loop_seq e prev l :
  gup_loop e prev l = true →
  l = seqZ (prev + 1) (Z.of_nat (length l)) ∧ Forall (λ p, xrp_compare_address (__pfn_to_phys p) e =? 0) l.
Proof.
  revert prev. induction l as [| p l IH]; intros prev; cbn [gup_loop]; [done |].
  intros ((Hp & Hc)%andb_true_iff & Hl)%andb_true_iff. apply Z.eqb_eq in Hp as ->.
  destruct (IH _ Hl) as [E Hall]. split; [| by constructor; [rewrite Hc |]].
  cbn [length]. rewrite seqZ_cons by lia. f_equal. rewrite E at 1. f_equal; lia.
Qed.

Lemma put_get l pins q : put_pages l (get_pages l pins) q = pins q.
Proof. unfold put_pages, get_pages. lia. Qed.

(** Pinning: the result, the addresses and the pins. *)
Lemma gup_virt_to_phys_spec km gup map pins vaddr size :
  gup_ok follow gup → map_ok map → page_ended map → block_ok vaddr size →
  ∃ r pins', xvp_gup_virt_to_phys km gup map pins vaddr size = Some (r, pins') ∧
    match r with
    | Ok (paddr, am) =>
        shared_block map vaddr size paddr ∧ am = mk_alien vaddr size paddr 0 ALIEN_GUP ∧
        pins' = get_pages (mapping_pages am) pins ∧ ∀ q, put_pages (mapping_pages am) pins' q = pins q
    | Err _ => ∀ q, pins' q = pins q
    end.
Proof.
  intros Hg Hok Hend Hb. pose proof (nr_pages_pos _ _ Hb) as Hpos. unfold xvp_gup_virt_to_phys.
  destruct km; [| by eexists _, _]. destruct (gup vaddr (nr_pages vaddr size)) as [pages |] eqn:Eg; [| by eexists _, _].
  destruct (Hg _ _ _ Eg) as [Hlen Hfollow].
  assert (∀ q, put_pages pages (get_pages pages pins) q = pins q) as Hundo by (intros; apply put_get).
  destruct (Z.ltb_spec (Z.of_nat (length pages)) (nr_pages vaddr size)); [by eexists _, _ |].
  destruct pages as [| p0 rest]; [cbn in *; lia |].
  destruct (xrp_get_address_mapping map (__pfn_to_phys p0)) as [e |] eqn:Em; [| by eexists _, _].
  destruct (gup_loop e p0 rest) eqn:El; [| by eexists _, _]. apply gup_loop_seq in El as [Es Hall].
  assert (p0 :: rest = seqZ p0 (nr_pages vaddr size)) as Ep.
  { rewrite seqZ_cons by lia. f_equal. rewrite Es. cbn [length] in *. f_equal; lia. }
  assert (∀ k, 0 ≤ k < nr_pages vaddr size → follow (vaddr + k * PAGE_SIZE) = Ok (p0 + k)) as Hf.
  { intros k Hk. specialize (Hfollow (Z.to_nat k) (p0 + k)). rewrite page_shiftl, Z2Nat.id in Hfollow by lia. apply Hfollow.
    rewrite Ep. apply lookup_seqZ. lia. }
  assert (∀ k, 0 ≤ k < nr_pages vaddr size → 0 ≤ p0 + k < 2 ^ (phys_bits - PAGE_SHIFT)) as Hr
    by (intros k Hk; eapply pt_range; [done | by apply Hf]).
  pose proof (Hr 0 ltac:(lia)) as Hr0. rewrite Z.add_0_r in Hr0. rewrite pfn_phys in Em by done.
  pose proof (page_in_phys p0 0 Hr0 ltac:(unfold PAGE_SIZE; lia)) as Hx0. rewrite Z.add_0_r in Hx0.
  apply get_mapping_iff in Em as [He Hc0]; [| done | done].
  pose proof (Z.mod_pos_bound vaddr PAGE_SIZE ltac:(unfold PAGE_SIZE; lia)) as Hoff.
  rewrite page_offs_mod, pfn_phys, phys_small by (done || by apply page_in_phys).
  eexists _, _. split; [done |]. split_and!; [| done | | ].
  - eapply (contiguous_shared map e); [done.. |]. split.
    + unfold page_ended in Hend. rewrite list.Forall_forall in Hend.
      apply (page_ended_rest e p0 0); [by apply Hend | by rewrite Z.add_0_r | lia | lia].
    + intros k Hk. split; [by apply Hf |]. intros Hk0. rewrite list.Forall_forall in Hall.
      rewrite <- (frame_covers map e (p0 + k)) by auto. apply Is_true_eq_true, Hall. rewrite Es, elem_of_seqZ.
      cbn [length] in *. lia.
  - f_equal. rewrite Ep. unfold mapping_pages. cbn. f_equal. unfold __phys_to_pfn.
    rewrite page_shiftr, Z.add_comm, Z.div_add, Z.div_small by (unfold PAGE_SIZE in *; lia). lia.
  - intros q. unfold mapping_pages. cbn. unfold __phys_to_pfn.
    rewrite page_shiftr, (Z.add_comm (p0 * _)), Z.div_add, Z.div_small, Z.add_0_l by (unfold PAGE_SIZE in *; lia).
    rewrite <- Ep. apply put_get.
Qed.

(** Sharing by pinning: whatever the kernel pins, the code has a result;
    when it succeeds every byte of the block is where the returned address
    says, the DSP sees it consecutively and each of its pages is pinned once
    more, and exactly these pages are unpinned again from the mapping; when
    it fails no page stays pinned. *)
Theorem gup_virt_to_phys_correct km gup map pins vaddr size :
  gup_ok follow gup → map_ok map → page_ended map → block_ok vaddr size →
  ∃ r pins', xvp_gup_virt_to_phys km gup map pins vaddr size = Some (r, pins') ∧
    match r with
    | Ok (paddr, am) =>
        shared_block map vaddr size paddr ∧ am = mk_alien vaddr size paddr 0 ALIEN_GUP ∧
        pins' = get_pages (mapping_pages am) pins ∧ ∀ q, put_pages (mapping_pages am) pins' q = pins q
    | Err _ => ∀ q, pins' q = pins q
    end.
Proof. apply gup_virt_to_phys_spec. Qed.
End shared.

(** ** Blocks over several areas *)

(** The areas of an address space do not overlap; [find_vma] returns the
    first one that ends above an address. *)
Definition areas_ok (vmas : list vma) : Prop :=
  Forall (λ v, vm_start v < vm_end v) vmas ∧
  ∀ a b, a ∈ vmas → b ∈ vmas → a ≠ b → vm_end a ≤ vm_start b ∨ vm_end b ≤ vm_start a.

Record find_vma_ok (vmas : list vma) (find_vma : Z → option vma) : Prop := {
  fv_some x v : find_vma x = Some v →
    v ∈ vmas ∧ x < vm_end v ∧ ∀ a, a ∈ vmas → x < vm_end a → vm_end v ≤ vm_end a;
  fv_none x v : find_vma x = None → v ∈ vmas → vm_end v ≤ x;
}.

Lemma filter_length_lt {A} (P Q : A → Prop) `{∀ x, Decision (P x), ∀ x, Decision (Q x)} (l : list A) x :
  (∀ y, Q y → P y) → x ∈ l → P x → ¬ Q x → (length (filter Q l) < length (filter P l))%nat.
Proof.
  intros HPQ Hx HP HQ. assert (∀ k, (length (filter Q k) ≤ length (filter P k))%nat) as Hle.
  { induction k as [| y k IH]; [done |]. rewrite !list.filter_cons. repeat case_decide; cbn; naive_solver lia. }
  induction l as [| y l IH]; [by apply not_elem_of_nil in Hx |]. rewrite !list.filter_cons.
  specialize (Hle l). apply elem_of_cons in Hx as [<- | Hx].
  - rewrite decide_False, decide_True by done. cbn. lia.
  - specialize (IH Hx). repeat case_decide; cbn; naive_solver lia.
Qed.

Section region.
Context `{Arch}.
Variables (vmas : list vma) (find_vma : Z → option vma).
Hypothesis Hareas : areas_ok vmas.
Hypothesis Hfind : find_vma_ok vmas find_vma.

Definition mapped (x : Z) : Prop := ∃ a, a ∈ vmas ∧ vm_start a ≤ x < vm_end a.

(** Between an area and the next one nothing is mapped. *)
Lemma next_area v : v ∈ vmas →
  match find_vma (vm_end v) with
  | None => ∀ x, vm_end v ≤ x → ¬ mapped x
  | Some n => n ∈ vmas ∧ vm_end v < vm_end n ∧ vm_end v ≤ vm_start n ∧ ∀ x, vm_end v ≤ x < vm_start n → ¬ mapped x
  end.
Proof.
  intros Hv. destruct Hareas as [Hne Hdis]. rewrite list.Forall_forall in Hne.
  destruct (find_vma (vm_end v)) as [n |] eqn:E.
  - apply (fv_some _ _ Hfind) in E as (Hn & Hlt & Hmin). assert (v ≠ n) as Hvn by (intros ->; lia).
    pose proof (Hne n Hn). pose proof (Hne v Hv). split_and!; [done | done | destruct (Hdis v n Hv Hn Hvn); lia |].
    intros x Hx (a & Ha & Hxa). pose proof (Hmin a Ha ltac:(lia)). destruct (decide (a = n)) as [-> |]; [lia |].
    destruct (Hdis a n Ha Hn); [done | lia | pose proof (Hne a Ha); lia].
  - intros x Hx (a & Ha & Hxa). pose proof (fv_none _ _ Hfind _ a E Ha). lia.
Qed.

Lemma region_loop_ok fuel stop i v :
  v ∈ vmas → vm_end v < stop → 0 < i → (length (filter (λ a, (vm_end v < vm_end a)%Z) vmas) < fuel)%nat →
  ∃ n, region_loop find_vma fuel stop i v = Some n ∧ (n = 0 ∨ i ≤ n) ∧
    (n ≠ 0 ↔ ∀ x, vm_end v ≤ x < stop → mapped x).
Proof.
  revert i v. induction fuel as [| fuel IH]; intros i v Hv Hstop Hi Hfuel; [lia |]. cbn [region_loop].
  pose proof (next_area v Hv) as Hnext. destruct (find_vma (vm_end v)) as [n |].
  - destruct Hnext as (Hn & Hlt & Hle & Hgap). destruct (Z.eqb_spec (vm_start n) (vm_end v)) as [Es |]; cbn [negb].
    + destruct (Z.leb_spec stop (vm_end n)).
      * exists i. split_and!; [done | by right |]. split; [| lia]. intros _ x Hx. exists n. split; [done | lia].
      * destruct (IH (i + 1) n) as (m & -> & Hm & Hiff); [done | done | lia | |].
        { eapply Nat.lt_le_trans; [apply (filter_length_lt (λ a, vm_end v < vm_end a) (λ a, vm_end n < vm_end a) vmas n); [lia | done | done | lia] | lia]. }
        exists m. split_and!; [done | lia |]. rewrite Hiff. split; intros Hall x Hx.
        -- destruct (decide (vm_end n ≤ x)); [apply Hall; lia | exists n; split; [done | lia]].
        -- apply Hall. lia.
    + exists 0. split_and!; [done | by left |]. split; [done |]. intros Hall.
      destruct (Hgap (vm_end v)); [lia |]. apply Hall. lia.
  - exists 0. split_and!; [done | by left |]. split; [done |]. intros Hall.
    destruct (Hnext (vm_end v)); [lia |]. apply Hall. lia.
Qed.

(** The count of areas: it ends, and what zero and one mean. *)
Lemma region_vma_count_spec virt size v :
  find_vma virt = Some v → 0 ≤ virt → 0 < size → virt + size < 2 ^ long_bits →
  ∃ n, xvp_get_region_vma_count find_vma (length vmas) virt size v = Some n ∧
    (n ≠ 0 ↔ ∀ x, virt ≤ x < virt + size → mapped x) ∧
    (n = 1 ↔ vm_start v ≤ virt ∧ virt + size ≤ vm_end v).
Proof.
  intros Hv ? ? ?. apply (fv_some _ _ Hfind) in Hv as (Hv & Hlt & Hmin). unfold xvp_get_region_vma_count.
  rewrite wrap_small by lia. pose proof Hareas as [Hne Hdis]. rewrite list.Forall_forall in Hne.
  destruct (Z.ltb_spec virt (vm_start v)).
  - exists 0. split_and!; [done | | lia]. split; [done |]. intros Hall.
    destruct (Hall virt ltac:(lia)) as (a & Ha & Hx). pose proof (Hmin a Ha ltac:(lia)).
    pose proof (Hne v Hv). pose proof (Hne a Ha).
    destruct (decide (a = v)) as [-> |]; [lia |]. destruct (Hdis a v Ha Hv); [done | lia | lia].
  - rewrite (proj2 (Z.leb_le _ _)) by lia. cbn [andb]. destruct (Z.leb_spec (virt + size) (vm_end v)).
    + exists 1. split_and!; [done | | lia]. split; [| done]. intros _ x Hx. exists v. split; [done | lia].
    + destruct (region_loop_ok (length vmas) (virt + size) 2 v Hv) as (n & -> & Hn & Hiff); [lia | lia | |].
      { apply (length_filter_lt _ _ v); [done | lia]. }
      exists n. split_and!; [done | | lia]. rewrite Hiff. split; intros Hall x Hx.
      * destruct (decide (vm_end v ≤ x)); [apply Hall; lia | exists v; split; [done | lia]].
      * apply Hall. lia.
Qed.

(** The count of areas under a block ends after at most as many steps as
    there are areas; it is zero exactly when a byte of the block is not
    mapped, and one exactly when the first area holds the whole block. *)
Theorem region_vma_count_correct virt size v :
  find_vma virt = Some v → 0 ≤ virt → 0 < size → virt + size < 2 ^ long_bits →
  ∃ n, xvp_get_region_vma_count find_vma (length vmas) virt size v = Some n ∧
    (n ≠ 0 ↔ ∀ x, virt ≤ x < virt + size → mapped x) ∧
    (n = 1 ↔ vm_start v ≤ virt ∧ virt + size ≤ vm_end v).
Proof. apply region_vma_count_spec. Qed.
End region.

(** ** Concrete page tables *)

Module PageExamples.
Import RefLib.
#[local] Existing Instance arch32.

(** Sixteen frames from [0x10000] on, repeated over the address space. *)
Definition table (a : Z) : result Z := Ok (0x10000 + Z.shiftr a PAGE_SHIFT mod 16).
Definition pin (a n : Z) : result (list Z) :=
  Ok (map (λ k, 0x10000 + (Z.shiftr a PAGE_SHIFT + Z.of_nat k) mod 16) (seq 0 (Z.to_nat n))).

Lemma table_ok : page_table_ok table.
Proof.
  split.
  - intros a b E. unfold table. by rewrite E.
  - intros a p [= <-]. pose proof (Z.mod_pos_bound (Z.shiftr a PAGE_SHIFT) 16 ltac:(lia)).
    change (2 ^ (phys_bits - PAGE_SHIFT)) with 0x100000. lia.
Qed.

Lemma pin_ok : gup_ok table (λ a n, if 0 <=? n then pin a n else Err EINVAL).
Proof.
  intros a n l. destruct (Z.leb_spec 0 n); [| done]. intros [= <-]. rewrite length_map, length_seq. split; [lia |].
  intros k p Hk. apply list_lookup_fmap_Some in Hk as (i & -> & [-> ?]%lookup_seq). unfold table. do 2 f_equal. f_equal.
  rewrite !page_shiftr, page_shiftl, Z.div_add by (unfold PAGE_SIZE; lia). lia.
Qed.

Lemma map2_page_ended : page_ended MapExamples.map2.
Proof. repeat constructor. Qed.

Lemma block_example : block_ok 0x3010 0x2000.
Proof. by vm_compute. Qed.

Lemma contiguous_example : contiguous table (mk_entry 0x10000000 0x0 0x10000) 0x3010 0x2000 0x10003.
Proof.
  split; [done |]. intros k Hk. change (nr_pages 0x3010 0x2000) with 3 in Hk.
  assert (k = 0 ∨ k = 1 ∨ k = 2) as [-> | [-> | ->]] by lia; done.
Qed.

Lemma pfn_virt_to_phys_correct_witness :
  is_ok (xvp_pfn_virt_to_phys table MapExamples.map2 0x3010 0x2000) = true.
Proof.
  apply (pfn_virt_to_phys_correct table table_ok MapExamples.map2 0x3010 0x2000 MapExamples.map2_ok map2_page_ended
    block_example) with (mk_entry 0x10000000 0x0 0x10000) 0x10003; [by left | apply contiguous_example].
Defined.

Lemma gup_virt_to_phys_correct_witness :
  ∃ r pins', xvp_gup_virt_to_phys true (λ a n, if 0 <=? n then pin a n else Err EINVAL) MapExamples.map2 (λ _, 0)
               0x3010 0x2000 = Some (r, pins') ∧
    match r with
    | Ok (paddr, am) =>
        shared_block table MapExamples.map2 0x3010 0x2000 paddr ∧ am = mk_alien 0x3010 0x2000 paddr 0 ALIEN_GUP ∧
        pins' = get_pages (mapping_pages am) (λ _, 0) ∧ ∀ q, put_pages (mapping_pages am) pins' q = 0
    | Err _ => ∀ q, pins' q = 0
    end.
Proof.
  apply (gup_virt_to_phys_correct table table_ok true _ MapExamples.map2 (λ _, 0) 0x3010 0x2000 pin_ok
    MapExamples.map2_ok map2_page_ended block_example).
Defined.

(** An empty block at a page boundary has no page, and the code reads the
    first one. *)
Example gup_empty_block :
  xvp_gup_virt_to_phys true pin MapExamples.map2 (λ _, 0) 0x3000 0 = None.
Proof. reflexivity. Qed.

(** A range that ends inside a page: the walk accepts a block whose end the
    DSP cannot address. *)
Example pfn_unaligned_range :
  let m := [mk_entry 0x10000000 0x0 0x4800] in
  is_ok (xvp_pfn_virt_to_phys table m 0x3000 0x2000) = true ∧
  xrp_translate_to_dsp m 0x10004fff = XRP_NO_TRANSLATION.
Proof. split; reflexivity. Qed.

(** From 2 GiB on the offset of a page is negative: on a 64-bit host the walk
    looks below the block. *)
Example pfn_offset_negative e : @pfn_loop arch64 Err e 0x7f0000000000 1 0x80000 6 = Err 0x7eff80000000.
Proof. reflexivity. Qed.

(** Two adjacent areas and one apart. *)
Definition areas : list vma := [mk_vma 0x1000 0x3000; mk_vma 0x3000 0x4000; mk_vma 0x8000 0x9000].
Definition find (x : Z) : option vma := head (filter (λ v, x < vm_end v) areas).

Lemma areas_example : areas_ok areas.
Proof.
  split; [repeat constructor; cbn; lia |]. intros a b Ha Hb. unfold areas in *.
  repeat (apply elem_of_cons in Ha as [-> | Ha]); try (by apply not_elem_of_nil in Ha);
    repeat (apply elem_of_cons in Hb as [-> | Hb]); try (by apply not_elem_of_nil in Hb); cbn; intros; (done || lia).
Qed.

Lemma find_eq x :
  find x = if decide (x < 0x3000) then Some (mk_vma 0x1000 0x3000)
           else if decide (x < 0x4000) then Some (mk_vma 0x3000 0x4000)
           else if decide (x < 0x9000) then Some (mk_vma 0x8000 0x9000) else None.
Proof. unfold find, areas. rewrite !list.filter_cons, list.filter_nil. cbn [vm_end]. repeat case_decide; done. Qed.

Lemma find_example : find_vma_ok areas find.
Proof.
  split; intros x v; rewrite find_eq; unfold areas.
  - repeat case_decide; intros E; try done; injection E as <-; (split; [set_solver |]; split; [done |]); intros a Ha;
      repeat (apply elem_of_cons in Ha as [-> | Ha]; [cbn; lia |]); by apply not_elem_of_nil in Ha.
  - repeat case_decide; intros E Ha; try done.
    repeat (apply elem_of_cons in Ha as [-> | Ha]; [cbn; lia |]). by apply not_elem_of_nil in Ha.
Qed.

Lemma region_vma_count_correct_witness :
  ∃ n, xvp_get_region_vma_count find (length areas) 0x2000 0x1800 (mk_vma 0x1000 0x3000) = Some n ∧
    (n ≠ 0 ↔ ∀ x, 0x2000 ≤ x < 0x2000 + 0x1800 → mapped areas x) ∧
    (n = 1 ↔ 0x1000 ≤ 0x2000 ∧ 0x2000 + 0x1800 ≤ 0x3000).
Proof.
  apply (region_vma_count_correct areas find areas_example find_example 0x2000 0x1800 (mk_vma 0x1000 0x3000)); done.
Defined.
End PageExamples.
