(* ===== verification/Shadow.v ===== *)
(** * Sharing user memory: shadow copies (xrp-kernel/xvp_main.c)

    A block the DSP cannot use in place is copied to memory of the driver's
    pool and back: [_xrp_copy_user_phys], which copies page by page, and
    [xvp_copy_virt_to_phys], which places the copy.  Access to user memory,
    temporary mappings and the pool are parameters.  The maintenance of the
    data cache does not change memory contents and is left out. *)

From stdpp Require Import base tactics list gmap numbers.
From S2P Require Import Prelude Mem Alloc PrivateAlloc AddressMap PageMap Request.

(** User memory by virtual address, physical memory by physical address. *)
Record mems := mk_mems { um : mem; pm : mem }.

(** [uaccess a n]: how many of [n] bytes at [a] [copy_from_user] and
    [copy_to_user] do not copy; the others are copied.  [kmap_ok], [ioremap_ok]:
    whether a page or a range can be mapped; [pfn_valid]: whether a frame is
    kernel memory. *)
Class UserAccess := {
  uaccess : Z → Z → Z;
  kmap_ok : Z → bool;
  ioremap_ok : Z → Z → bool;
  pfn_valid : Z → bool;
  uaccess_range a n : 0 ≤ n → 0 ≤ uaccess a n ≤ n;
}.

Section copy.
Context `{UserAccess}.

(** One [copy_from_user] to or [copy_to_user] from physical memory: the
    memories and the number of bytes not copied. *)
Definition copy_chunk (to_phys : bool) (s : mems) (vaddr paddr n : Z) : mems * Z :=
  let rc := uaccess vaddr n in
  let k := Z.to_nat (n - rc) in
  (if to_phys then mk_mems (um s) (store_bytes (pm s) paddr (load_bytes (um s) vaddr k))
   else mk_mems (store_bytes (um s) vaddr (load_bytes (pm s) paddr k)) (pm s), rc).

(** [for (offs = 0; offs < size; ++page)]; [None] when [fuel] rounds are not
    enough. *)
Fixpoint copy_loop (fuel : nat) (to_phys : bool) (s : mems) (vaddr size page page_offs offs : Z)
  : option (Z * mems) :=
  if offs <? size then
    match fuel with
    | O => None
    | S fuel =>
        if kmap_ok page then
          let copy_sz := Z.min (size - offs) (PAGE_SIZE - page_offs) in
          let '(s, rc) := copy_chunk to_phys s (vaddr + offs) (page * PAGE_SIZE + page_offs) copy_sz in
          if rc =? 0 then copy_loop fuel to_phys s vaddr size (page + 1) 0 (offs + copy_sz)
          else Some (- EFAULT, s)
        else Some (- ENOMEM, s)
    end
  else Some (0, s).

Definition _xrp_copy_user_phys (fuel : nat) (s : mems) (vaddr size paddr : Z) (to_phys : bool)
  : option (Z * mems) :=
  if pfn_valid (__phys_to_pfn paddr) then
    copy_loop fuel to_phys s vaddr size (__phys_to_pfn paddr) (page_offs paddr) 0
  else if ioremap_ok paddr size then
    let '(s, rc) := copy_chunk to_phys s vaddr paddr size in
    Some (if rc =? 0 then 0 else - EFAULT, s)
  else Some (- EINVAL, s).

(** Every iteration copies at least one byte. *)
Definition copy_fuel (size : Z) : nat := Z.to_nat size.

Definition xrp_copy_user_to_phys (s : mems) (vaddr size paddr : Z) : option (Z * mems) :=
  _xrp_copy_user_phys (copy_fuel size) s vaddr size paddr true.
Definition xrp_copy_user_from_phys (s : mems) (vaddr size paddr : Z) : option (Z * mems) :=
  _xrp_copy_user_phys (copy_fuel size) s vaddr size paddr false.

(** ** The copy in one step *)

Definition copied (to_phys : bool) (s : mems) (vaddr paddr n : Z) (s' : mems) : Prop :=
  if to_phys then um s' = um s ∧ pm s' ≡ store_bytes (pm s) paddr (load_bytes (um s) vaddr (Z.to_nat n))
  else pm s' = pm s ∧ um s' ≡ store_bytes (um s) vaddr (load_bytes (pm s) paddr (Z.to_nat n)).

Lemma copied_none to_phys s vaddr paddr : copied to_phys s vaddr paddr 0 s.
Proof. destruct to_phys; (split; [done |]); symmetry; apply store_bytes_nil. Qed.

Lemma copy_chunk_copied to_phys s vaddr paddr n s' :
  copy_chunk to_phys s vaddr paddr n = (s', 0) → copied to_phys s vaddr paddr n s'.
Proof.
  unfold copy_chunk. intros E. assert (uaccess vaddr n = 0) as E0 by congruence. rewrite E0, Z.sub_0_r in E.
  destruct to_phys; by injection E as <-.
Qed.

Lemma store_load_app m1 m2 a b n k :
  0 ≤ n → 0 ≤ k →
  store_bytes (store_bytes m1 a (load_bytes m2 b (Z.to_nat n))) (a + n) (load_bytes m2 (b + n) (Z.to_nat k)) ≡
  store_bytes m1 a (load_bytes m2 b (Z.to_nat (n + k))).
Proof.
  intros. rewrite Z2Nat.inj_add, load_bytes_app, Z2Nat.id by lia.
  rewrite <- store_bytes_app. rewrite length_load_bytes, Z2Nat.id by lia. done.
Qed.

(** Copies of adjacent pieces make one copy. *)
Lemma copied_app to_phys s1 s2 s3 vaddr paddr n k :
  0 ≤ n → 0 ≤ k →
  copied to_phys s1 vaddr paddr n s2 → copied to_phys s2 (vaddr + n) (paddr + n) k s3 →
  copied to_phys s1 vaddr paddr (n + k) s3.
Proof.
  intros ? ?. destruct to_phys; cbn; intros [E1 M1] [E2 M2]; (split; [congruence |]).
  - rewrite M2, M1, E1. by apply store_load_app.
  - rewrite M2, M1, E1. by apply store_load_app.
Qed.

Lemma copy_loop_copied fuel to_phys s0 s vaddr size paddr page po offs :
  page * PAGE_SIZE + po = paddr + offs → 0 ≤ po < PAGE_SIZE → 0 ≤ offs ≤ size → size - offs ≤ Z.of_nat fuel →
  copied to_phys s0 vaddr paddr offs s →
  ∃ st s', copy_loop fuel to_phys s vaddr size page po offs = Some (st, s') ∧
    (st = 0 → copied to_phys s0 vaddr paddr size s') ∧
    ((∀ a n, uaccess a n = 0) → (∀ p, kmap_ok p = true) → st = 0).
Proof.
  revert s page po offs. induction fuel as [| fuel IH]; intros s page po offs Hp Hpo Hoffs Hfuel Hc; cbn [copy_loop].
  - destruct (Z.ltb_spec offs size); [lia |]. exists 0, s. replace size with offs by lia. done.
  - destruct (Z.ltb_spec offs size); [| exists 0, s; replace size with offs by lia; done].
    destruct (kmap_ok page) eqn:Ek; [| exists (- ENOMEM), s; split_and!; [done | done | intros _ Hk; by rewrite Hk in Ek]].
    set (n := Z.min (size - offs) (PAGE_SIZE - po)). assert (0 < n) by (unfold n; lia).
    destruct (copy_chunk to_phys s (vaddr + offs) (page * PAGE_SIZE + po) n) as [s1 rc] eqn:Ec.
    destruct (Z.eqb_spec rc 0) as [-> |].
    + rewrite Hp in Ec. pose proof (copy_chunk_copied _ _ _ _ _ _ Ec) as Hc1.
      assert (copied to_phys s0 vaddr paddr (offs + n) s1) as Hc2 by (apply (copied_app _ s0 s s1); (done || lia)).
      destruct (decide (offs + n = size)) as [E | Hne].
      * exists 0, s1. split_and!; [| intros _; by rewrite <- E | done].
        destruct fuel; cbn [copy_loop]; rewrite (proj2 (Z.ltb_ge _ _)) by lia; done.
      * assert (n = PAGE_SIZE - po ∧ offs + n ≤ size) as [En Hle] by (clear - Hne; lia).
        clearbody n. apply (IH s1); [unfold PAGE_SIZE in *; lia | unfold PAGE_SIZE; lia | lia | lia | done].
    + exists (- EFAULT), s1. split_and!; [done | done |]. intros Hu _. exfalso. unfold copy_chunk in Ec. rewrite Hu in Ec.
      congruence.
Qed.

(** The copy ends; a reported success is an exact copy. *)
Lemma copy_user_phys_total s vaddr size paddr to_phys :
  0 ≤ size → 0 ≤ paddr →
  ∃ st s', _xrp_copy_user_phys (copy_fuel size) s vaddr size paddr to_phys = Some (st, s') ∧
    (st = 0 → copied to_phys s vaddr paddr size s') ∧
    ((∀ a n, uaccess a n = 0) → (∀ p, kmap_ok p = true) → ioremap_ok paddr size = true → st = 0).
Proof.
  intros Hs Hp. unfold _xrp_copy_user_phys. destruct (pfn_valid _).
  - unfold __phys_to_pfn. rewrite page_shiftr, page_offs_mod.
    destruct (copy_loop_copied (copy_fuel size) to_phys s s vaddr size paddr (paddr / PAGE_SIZE) (paddr mod PAGE_SIZE) 0)
      as (st & s' & -> & Hc & Hok).
    + rewrite (Z.mul_comm (paddr / _)), Z.add_0_r. symmetry. apply Z.div_mod. done.
    + by apply Z.mod_pos_bound.
    + lia.
    + unfold copy_fuel. lia.
    + apply copied_none.
    + exists st, s'. split_and!; auto.
  - destruct (ioremap_ok paddr size); [| exists (- EINVAL), s; done].
    destruct (copy_chunk to_phys s vaddr paddr size) as [s' rc] eqn:Ec. destruct (Z.eqb_spec rc 0) as [-> | Hrc].
    + exists 0, s'. split_and!; [done | | done]. intros _. by apply copy_chunk_copied.
    + exists (- EFAULT), s'. split_and!; [done | done |]. intros Hu _ _. exfalso. unfold copy_chunk in Ec. rewrite Hu in Ec.
      congruence.
Qed.

(** Data reaches the shadow copy and comes back: both copies end, however
    the blocks lie across pages; when they report success the DSP finds
    exactly the user's bytes, and the user then finds exactly what the DSP
    left there, with no other user memory changed; and they succeed when
    memory is accessible and can be mapped. *)
Theorem copy_roundtrip s vaddr size paddr dsp :
  0 ≤ size → 0 ≤ paddr →
  ∃ rc1 s1 rc2 s2,
    xrp_copy_user_to_phys s vaddr size paddr = Some (rc1, s1) ∧
    xrp_copy_user_from_phys (mk_mems (um s1) dsp) vaddr size paddr = Some (rc2, s2) ∧
    (rc1 = 0 → load_bytes (pm s1) paddr (Z.to_nat size) = load_bytes (um s) vaddr (Z.to_nat size)) ∧
    (rc1 = 0 → rc2 = 0 → um s2 ≡ store_bytes (um s) vaddr (load_bytes dsp paddr (Z.to_nat size))) ∧
    ((∀ a n, uaccess a n = 0) → (∀ p, kmap_ok p = true) → ioremap_ok paddr size = true → rc1 = 0 ∧ rc2 = 0).
Proof.
  intros Hs Hp. destruct (copy_user_phys_total s vaddr size paddr true Hs Hp) as (rc1 & s1 & E1 & C1 & O1).
  destruct (copy_user_phys_total (mk_mems (um s1) dsp) vaddr size paddr false Hs Hp) as (rc2 & s2 & E2 & C2 & O2).
  exists rc1, s1, rc2, s2. split_and!; [done | done | | | auto].
  - intros R1. destruct (C1 R1) as [_ ->]. rewrite <- (length_load_bytes (um s) vaddr (Z.to_nat size)) at 2.
    apply load_store_same.
  - intros R1 R2. destruct (C1 R1) as [E _], (C2 R2) as [_ M]. cbn in M. by rewrite M, E.
Qed.
End copy.

(** ** Placing a copy *)

Section shadow.
Context `{Arch} {P : Type} `{!AllocOps P} `{UserAccess}.

(** The kernel macro. *)
Definition clamp (val lo hi : Z) : Z := Z.min (Z.max val lo) hi.

Definition copy_align (vaddr : Z) : Z := clamp (Z.land vaddr (ulong (- vaddr))) PAGE_SIZE 16.

(** Where the copy starts in a block of the pool. *)
Definition copy_phys (vaddr start : Z) : Z :=
  let align := copy_align vaddr in
  let p := Z.lor (Z.land start (ulong (- align))) (Z.land vaddr (align - 1)) in
  if p <? start then phys (p + align) else p.

(** [kz1], [kz2]: the allocations of the pool.  [None]: a descriptor that
    does not exist is used, or the copy does not end. *)
Definition xvp_copy_virt_to_phys (kz1 kz2 : option Z) (st : alloc_state P) (s : mems) (flags vaddr size : Z)
  : option (result (Z * xrp_alien_mapping) * alloc_state P * mems) :=
  let align := copy_align vaddr in
  match xrp_allocate kz1 kz2 st (u32 (size + align)) (u32 align) with
  | (Err e, st) => Some (Err e, st, s)
  | (Ok ptr, st) =>
      a ← st_objs st !! ptr;
      let p := copy_phys vaddr (a_start a) in
      let am := mk_alien vaddr size p ptr ALIEN_COPY in
      if Z.land flags XRP_FLAG_READ =? 0 then Some (Ok (p, am), st, s)
      else
        x ← xrp_copy_user_to_phys s vaddr size p;
        if x.1 =? 0 then Some (Ok (p, am), st, x.2)
        else st ← xrp_allocation_put st ptr; Some (Err EFAULT, st, x.2)
  end.

(** The bounds of [clamp] are in the wrong order: the alignment is always the
    smallest one. *)
Lemma copy_align_16 vaddr : copy_align vaddr = 16.
Proof. unfold copy_align, clamp, PAGE_SIZE. lia. Qed.

Lemma lor_low q x : 0 ≤ q → 0 ≤ x < 16 → Z.lor (q * 16) x = q * 16 + x.
Proof.
  intros Hq Hx. rewrite <- Z.add_lor_land. replace (Z.land (q * 16) x) with 0; [lia |]. symmetry.
  apply Z.bits_inj'. intros n Hn. rewrite Z.land_spec, Z.bits_0. change 16 with (2 ^ 4). rewrite <- Z.shiftl_mul_pow2 by lia.
  destruct (Z.lt_ge_cases n 4).
  - rewrite Z.shiftl_spec_low by lia. done.
  - assert (Z.testbit x n = false) as ->; [| by rewrite andb_false_r].
    rewrite <- (Z.mod_small x (2 ^ 4)) by lia. apply Z.mod_pow2_bits_high. lia.
Qed.

(** The copy starts in the first sixteen bytes of the block, at an address
    with the alignment of the user's. *)
Lemma copy_phys_ok vaddr start :
  0 ≤ start < 2 ^ long_bits → start + 16 ≤ 2 ^ phys_bits →
  start ≤ copy_phys vaddr start < start + 16 ∧ copy_phys vaddr start mod 16 = vaddr mod 16.
Proof.
  intros Hs Hp. unfold copy_phys. rewrite copy_align_16.
  pose proof (land_neg_pow2 long_bits 4 start ltac:(destruct long_bits_cases; lia) Hs) as El.
  change (2 ^ 4) with 16 in El. rewrite El. change (16 - 1) with (Z.ones 4). rewrite Z.land_ones by lia. change (2 ^ 4) with 16.
  pose proof (Z.mod_pos_bound vaddr 16 ltac:(lia)) as Hv. pose proof (Z.div_mod start 16 ltac:(lia)) as Hd.
  pose proof (Z.mod_pos_bound start 16 ltac:(lia)). rewrite lor_low by (lia || (apply Z.div_pos; lia)).
  assert (0 ≤ start / 16) by (apply Z.div_pos; lia).
  destruct (Z.ltb_spec (start / 16 * 16 + vaddr mod 16) start).
  - rewrite phys_small by lia. split; [lia |].
    replace (start / 16 * 16 + vaddr mod 16 + 16) with (vaddr mod 16 + (start / 16 + 1) * 16) by lia.
    rewrite Z.mod_add by lia. by rewrite Z.mod_mod.
  - split; [lia |]. rewrite Z.add_comm, Z.mod_add by lia. by rewrite Z.mod_mod.
Qed.
End shadow.

Section shadow_spec.
Context `{Arch} {P : Type} `{!AllocOps P} `{!AllocSpec P} `{UserAccess}.

(** What the caller of the copy relies on: a block the pool has room for. *)
Definition shadow_request (vaddr size : Z) : Prop := 0 ≤ size ∧ valid_request (size + 16) 16.

Lemma shadow_size vaddr size :
  shadow_request vaddr size → u32 (size + copy_align vaddr) = size + 16 ∧ u32 (copy_align vaddr) = 16.
Proof. intros (? & (? & ?) & _). rewrite copy_align_16. unfold PAGE_SIZE in *. split; by apply u32_small; lia. Qed.

(** A shadow copy that is made lies inside one block of the pool handed
    out for it, has the user's address modulo sixteen, holds the user's data
    when the DSP is to read it, and changes nothing else; when it is not
    made every block of the pool is as before. *)
Lemma shadow_copy_spec kz1 kz2 st s flags vaddr size r st' s' :
  alloc_inv st → kz_fresh (ops_heap (st_pool st)) kz1 kz2 → shadow_request vaddr size →
  (∀ p a, st_objs st' !! p = Some a → 0 ≤ a_start a ∧ a_end a ≤ 2 ^ phys_bits) → phys_bits ≤ long_bits →
  xvp_copy_virt_to_phys kz1 kz2 st s flags vaddr size = Some (r, st', s') →
  alloc_inv st' ∧
  match r with
  | Ok (paddr, am) =>
      ∃ a, st_objs st !! am_allocation am = None ∧ st_objs st' = <[am_allocation am := a]> (st_objs st) ∧
        a_ref a = 1 ∧ a_start a ≤ paddr ∧ paddr + size ≤ a_end a ∧ paddr mod 16 = vaddr mod 16 ∧
        am = mk_alien vaddr size paddr (am_allocation am) ALIEN_COPY ∧
        if Z.land flags XRP_FLAG_READ =? 0 then s' = s else copied true s vaddr paddr size s'
  | Err _ => st_objs st' = st_objs st
  end.
Proof.
  intros Hi Hkz Hsz Hrange Hbits. destruct (shadow_size _ _ Hsz) as [E1 E2]. unfold xvp_copy_virt_to_phys. rewrite E1, E2.
  destruct (xrp_allocate kz1 kz2 st (size + 16) 16) as [[ptr | er] st1] eqn:Ea.
  2:{ intros [= <- <- <-]. by destruct (allocate_err_inv _ _ _ _ _ _ _ Hi Hkz (proj2 Hsz) Ea). }
  destruct (allocate_inv _ _ _ _ _ _ _ Hi Hkz (proj2 Hsz) Ea) as (Hi1 & Hnone & a & Eobjs & Href & Hasz).
  rewrite Eobjs, lookup_insert_eq. cbn [mbind option_bind].
  assert (∀ p, st_objs st1 !! ptr = Some p → p = a) as Ha by (intros p; rewrite Eobjs, lookup_insert_eq; congruence).
  assert (st_objs st1 = st_objs st' → a_start a ≤ copy_phys vaddr (a_start a) ∧
    copy_phys vaddr (a_start a) + size ≤ a_end a ∧ copy_phys vaddr (a_start a) mod 16 = vaddr mod 16) as Hplace.
  { intros E. destruct (Hrange ptr a) as [Hlo Hhi]; [by rewrite <- E, Eobjs, lookup_insert_eq |]. unfold a_end in *.
    assert (2 ^ phys_bits ≤ 2 ^ long_bits) by (apply Z.pow_le_mono_r; lia). destruct Hsz as [? _].
    destruct (copy_phys_ok vaddr (a_start a)) as [? ?]; [lia | lia |]. lia. }
  destruct (Z.land flags XRP_FLAG_READ =? 0).
  - intros [= <- <- <-]. split; [done |]. exists a. cbn [am_allocation]. destruct (Hplace eq_refl) as (? & ? & ?). by split_and!.
  - intros Hx. apply bind_Some in Hx as ([rc s1] & Ec & Hx). cbn [fst snd] in Hx.
    destruct (Z.eqb_spec rc 0) as [-> |].
    + injection Hx as <- <- <-. split; [done |]. exists a. cbn [am_allocation]. destruct (Hplace eq_refl) as (? & ? & ?). split_and!; try done.
      destruct (Hrange ptr a) as [Hlo _]; [by rewrite Eobjs, lookup_insert_eq |].
      destruct (copy_user_phys_total s vaddr size (copy_phys vaddr (a_start a)) true) as (rc & s2 & E & Hc & _);
        [by destruct Hsz | lia |]. unfold xrp_copy_user_to_phys in Ec. rewrite Ec in E. injection E as <- <-. by apply Hc.
    + apply bind_Some in Hx as (st2 & Eput & Hx). injection Hx as <- <- <-. split; [by eapply put_inv |].
      unfold xrp_allocation_put, xrp_free in Eput. rewrite Eobjs, lookup_insert_eq in Eput. cbn in Eput.
      rewrite Href, lookup_insert_eq in Eput. cbn in Eput. injection Eput as <-. cbn.
      by rewrite !delete_insert_eq, delete_id.
Qed.
End shadow_spec.

(** ** Concrete copies *)

Module ShadowExamples.
Import Examples.
#[local] Existing Instance arch32.

Lemma zero_range (a n : Z) : 0 ≤ n → 0 ≤ 0 ≤ n.
Proof. lia. Qed.

(** Everything is accessible; only [0x10000000] to [0x10010000] is kernel memory. *)
#[local] Instance all_access : UserAccess := {|
  uaccess _ _ := 0;
  kmap_ok _ := true;
  ioremap_ok _ _ := true;
  pfn_valid p := (0x10000 <=? p) && (p <? 0x10010);
  uaccess_range := zero_range;
|}.

Definition mems0 : mems := mk_mems (λ a, a mod 256) (λ _, 0).

(** A copy across a page boundary. *)
Lemma copy_roundtrip_witness :
  ∃ rc1 s1 rc2 s2,
    xrp_copy_user_to_phys mems0 0x203 20 0x10000ff8 = Some (rc1, s1) ∧
    xrp_copy_user_from_phys (mk_mems (um s1) (λ _, 1)) 0x203 20 0x10000ff8 = Some (rc2, s2) ∧
    (rc1 = 0 → load_bytes (pm s1) 0x10000ff8 20 = load_bytes (um mems0) 0x203 20) ∧
    (rc1 = 0 → rc2 = 0 → um s2 ≡ store_bytes (um mems0) 0x203 (load_bytes (λ _, 1) 0x10000ff8 20)) ∧
    ((∀ a n, uaccess a n = 0) → (∀ p, kmap_ok p = true) → ioremap_ok 0x10000ff8 20 = true → rc1 = 0 ∧ rc2 = 0).
Proof. apply (copy_roundtrip mems0 0x203 20 0x10000ff8 (λ _, 1)); lia. Defined.

Definition shadow_run := xvp_copy_virt_to_phys (Some 2) (Some 3) st0 mems0 XRP_FLAG_READ_WRITE 0x7005 100.

Example shadow_run_value :
  (λ x, x.1.1) <$> shadow_run = Some (Ok (0x10000005, mk_alien 0x7005 100 0x10000005 2 ALIEN_COPY)).
Proof. vm_compute. reflexivity. Qed.

Example shadow_run_objs :
  (λ x, st_objs x.1.2) <$> shadow_run = Some {[ 2 := mk_allocation 2 0x10000000 0x1000 1 ]}.
Proof. vm_compute. reflexivity. Qed.

Lemma shadow_copy_example :
  ∃ st' s', shadow_run = Some (Ok (0x10000005, mk_alien 0x7005 100 0x10000005 2 ALIEN_COPY), st', s') ∧
    alloc_inv st' ∧ copied true mems0 0x7005 0x10000005 100 s'.
Proof.
  pose proof shadow_run_value as V. destruct shadow_run as [[[r st'] s'] |] eqn:E; [| discriminate V].
  injection V as ->.
  exists st', s'. split; [done |].
  destruct (shadow_copy_spec (Some 2) (Some 3) st0 mems0 XRP_FLAG_READ_WRITE 0x7005 100
    (Ok (0x10000005, mk_alien 0x7005 100 0x10000005 2 ALIEN_COPY)) st' s' st0_inv fresh23)
    as (Hi & a & _ & _ & _ & _ & _ & _ & _ & Hc).
  - split; [lia |]. by apply (bool_decide_unpack _).
  - assert (st_objs st' = {[ 2 := mk_allocation 2 0x10000000 0x1000 1 ]}) as ->.
    { pose proof shadow_run_objs as V. rewrite E in V. by injection V as ->. }
    intros p a [_ <-]%lookup_singleton_Some. by vm_compute.
  - done.
  - exact E.
  - by split.
Defined.

(** The [u32] size of the pool's interface wraps: a block of almost 4 GiB
    gets a copy of one page. *)
Example shadow_size_wraps :
  (λ x, (is_ok x.1.1, a_size <$> st_objs x.1.2 !! 2)) <$>
    xvp_copy_virt_to_phys (Some 2) (Some 3) st0 mems0 XRP_FLAG_WRITE 0x1000 0xfffffff8 =
  Some (true, Some 0x1000).
Proof. vm_compute. reflexivity. Qed.

(** With physical addresses wider than [unsigned long] the mask clears the
    upper half of the address: the copy is not in the block. *)
Example copy_phys_truncates :
  @copy_phys {| phys_bits := 64; long_bits := 32; phys_bits_cases := or_intror eq_refl;
                long_bits_cases := or_introl eq_refl |} 0x7005 0x140000000 = 0x40000015.
Proof. reflexivity. Qed.
End ShadowExamples.
