(* ===== verification/Share.v ===== *)
(** * Sharing memory with the DSP (xrp-kernel/xvp_main.c)

    [__xrp_share_block] finds a way to give the DSP access to a block of user
    memory: memory of the driver itself, memory the DSP can address, or a
    shadow copy.  [__xrp_unshare_block] writes the DSP's changes back and
    gives the memory up.  The references a mapping holds - to a pool
    allocation or to pinned pages - are counted: mappings can be undone in
    any order and nothing stays referenced. *)

From stdpp Require Import base tactics list gmap numbers.
From S2P Require Import Prelude Mem Interface Alloc AddressMap Request PageMap Shadow.

(** The file behind a memory area: the caller's, another file of the driver
    (with the memory base of its device), or something else. *)
Inductive vm_file := ThisFile | XrpFile (pmem : Z) | AlienFile.

Record area := mk_area {
  ar_vma : vma;
  ar_file : vm_file;
  ar_pgoff : Z;
  ar_private : Z;
  ar_pfnmap : bool;
}.

(** The kernel as one call sees it. *)
Record share_env := mk_share_env {
  se_find : Z → option area;
  se_areas : list vma;
  se_follow : Z → result Z;
  se_km : bool;
  se_gup : Z → Z → result (list Z);
  se_kz1 : option Z;
  se_kz2 : option Z;
}.
Definition se_find_vma (e : share_env) (x : Z) : option vma := ar_vma <$> se_find e x.

(** [struct xrp_mapping]; [own] tells the pool of the caller's device from
    those of other devices. *)
Inductive xrp_mapping :=
| XRP_MAPPING_NONE
| XRP_MAPPING_NATIVE (own : bool) (xrp_allocation : Z)
| XRP_MAPPING_ALIEN (alien_mapping : xrp_alien_mapping)
| XRP_MAPPING_KERNEL
| XRP_MAPPING_KERNEL_ALIEN (alien_mapping : xrp_alien_mapping).

Section share.
Context `{Arch} `{KLib} {P : Type} `{!AllocOps P} `{UserAccess}.
(** The address map and the memory base of the caller's device. *)
Variables (map : xrp_address_map) (pmem : Z).

Record kstate := mk_k {
  k_own : alloc_state P;
  k_other : alloc_state P;
  k_pins : Z → Z;
  k_mems : mems;
}.
Definition set_own (k : kstate) st := mk_k st (k_other k) (k_pins k) (k_mems k).
Definition set_pins (k : kstate) pins := mk_k (k_own k) (k_other k) pins (k_mems k).
Definition set_mems (k : kstate) s := mk_k (k_own k) (k_other k) (k_pins k) s.

Definition mapping_get (k : kstate) (own : bool) (ptr : Z) : option kstate :=
  if own then st ← xrp_allocation_get (k_own k) ptr; Some (set_own k st)
  else st ← xrp_allocation_get (k_other k) ptr; Some (mk_k (k_own k) st (k_pins k) (k_mems k)).
Definition mapping_put (k : kstate) (own : bool) (ptr : Z) : option kstate :=
  if own then st ← xrp_allocation_put (k_own k) ptr; Some (set_own k st)
  else st ← xrp_allocation_put (k_other k) ptr; Some (mk_k (k_own k) st (k_pins k) (k_mems k)).

(** ** Sharing *)

(** The physical address of a block in an area of the driver, when the DSP
    can use it. *)
Definition native_block (ar : area) (virt size : Z) : option (bool * Z) :=
  let at_base base := phys (base + ulong (Z.shiftl (ar_pgoff ar) PAGE_SHIFT) + virt - vm_start (ar_vma ar)) in
  match ar_file ar with
  | ThisFile => Some (true, at_base pmem)
  | XrpFile base =>
      let p := at_base base in
      e ← xrp_get_address_mapping map p;
      if xrp_compare_address (phys (p + size - 1)) e =? 0 then Some (false, p) else None
  | AlienFile => None
  end.

Definition share_in_place (e : share_env) (k : kstate) (ar : option area) (virt size : Z)
  : option (result (Z * xrp_alien_mapping) * kstate) :=
  if from_option ar_pfnmap false ar then Some (xvp_pfn_virt_to_phys (se_follow e) map virt size, k)
  else
    x ← xvp_gup_virt_to_phys (se_km e) (se_gup e) map (k_pins k) virt size;
    Some (x.1, set_pins k x.2).

Definition share_copy (e : share_env) (k : kstate) (flags virt size : Z)
  : option (result (Z * xrp_alien_mapping) * kstate) :=
  x ← xvp_copy_virt_to_phys (se_kz1 e) (se_kz2 e) (k_own k) (k_mems k) flags virt size;
  Some (x.1.1, mk_k x.1.2 (k_other k) (k_pins k) x.2).

(** On failure the mapping is left as it was. *)
Definition __xrp_share_block (e : share_env) (k : kstate) (virt size flags : Z) (mapping : xrp_mapping)
  : option (result Z * xrp_mapping * kstate) :=
  match se_find e virt with
  | None => Some (Err EINVAL, mapping, k)
  | Some ar =>
      n ← xvp_get_region_vma_count (se_find_vma e) (length (se_areas e)) virt size (ar_vma ar);
      if n =? 0 then Some (Err EINVAL, mapping, k)
      else
        let vma := if n =? 1 then Some ar else None in
        match (ar ← vma; native_block ar virt size) with
        | Some (own, p) =>
            k ← mapping_get k own (ar_private ar);
            Some (Ok p, XRP_MAPPING_NATIVE own (ar_private ar), k)
        | None =>
            x ← share_in_place e k vma virt size;
            x ← (match x.1 with Ok _ => Some x | Err _ => share_copy e x.2 flags virt size end);
            match x with
            | (Ok (_, am), k) => Some (Ok (phys (am_paddr am + virt - am_vaddr am)), XRP_MAPPING_ALIEN am, k)
            | (Err _, k) => Some (Err EINVAL, mapping, k)
            end
        end
  end.

(** ** Giving up *)

Definition xrp_writeback_alien_mapping (k : kstate) (am : xrp_alien_mapping) : option (Z * kstate) :=
  match am_type am with
  | ALIEN_COPY =>
      x ← xrp_copy_user_from_phys (k_mems k) (am_vaddr am) (am_size am) (am_paddr am);
      Some (if x.1 =? 0 then 0 else - EINVAL, set_mems k x.2)
  | ALIEN_GUP | ALIEN_PFN_MAP => Some (0, k)
  end.

Definition xrp_alien_mapping_destroy (k : kstate) (am : xrp_alien_mapping) : option kstate :=
  match am_type am with
  | ALIEN_GUP => Some (set_pins k (put_pages (mapping_pages am) (k_pins k)))
  | ALIEN_COPY => mapping_put k true (am_allocation am)
  | ALIEN_PFN_MAP => Some k
  end.

Definition unshare_alien (k : kstate) (am : xrp_alien_mapping) (flags : Z) : option (Z * kstate) :=
  x ← (if Z.land flags XRP_FLAG_WRITE =? 0 then Some (0, k) else xrp_writeback_alien_mapping k am);
  k ← xrp_alien_mapping_destroy x.2 am; Some (x.1, k).

Definition __xrp_unshare_block (k : kstate) (mapping : xrp_mapping) (flags : Z) : option (Z * kstate) :=
  match mapping with
  | XRP_MAPPING_NATIVE own ptr => k ← mapping_put k own ptr; Some (0, k)
  | XRP_MAPPING_ALIEN am | XRP_MAPPING_KERNEL_ALIEN am => unshare_alien k am flags
  | XRP_MAPPING_KERNEL | XRP_MAPPING_NONE => Some (0, k)
  end.

(** ** Accounting *)

Definition own_refs (m : xrp_mapping) : list Z :=
  match m with
  | XRP_MAPPING_NATIVE true ptr => [ptr]
  | XRP_MAPPING_ALIEN am | XRP_MAPPING_KERNEL_ALIEN am =>
      match am_type am with ALIEN_COPY => [am_allocation am] | _ => [] end
  | _ => []
  end.
Definition other_refs (m : xrp_mapping) : list Z :=
  match m with XRP_MAPPING_NATIVE false ptr => [ptr] | _ => [] end.
Definition page_refs (m : xrp_mapping) : list Z :=
  match m with
  | XRP_MAPPING_ALIEN am | XRP_MAPPING_KERNEL_ALIEN am =>
      match am_type am with ALIEN_GUP => mapping_pages am | _ => [] end
  | _ => []
  end.

Definition occ (x : Z) (l : list Z) : Z := Z.of_nat (length (filter (x =.) l)).
Definition ref_of (st : alloc_state P) (ptr : Z) : Z := from_option a_ref 0 (st_objs st !! ptr).
End share.
Arguments kstate : clear implicits.

Section accounting.
Context `{Arch} `{KLibSpec} {P : Type} `{!AllocOps P} `{!AllocSpec P} `{UserAccess}.
Variables (map : xrp_address_map) (pmem : Z).

Lemma occ_app x l k : occ x (l ++ k) = occ x l + occ x k.
Proof. unfold occ. rewrite list.filter_app, length_app. lia. Qed.
Lemma occ_one x p : occ x [p] = if decide (x = p) then 1 else 0.
Proof. unfold occ. cbn. by case_decide. Qed.
Lemma occ_nonneg x l : 0 ≤ occ x l.
Proof. unfold occ. lia. Qed.
#[local] Instance occ_perm x : Proper ((≡ₚ) ==> eq) (occ x).
Proof. intros l k E. unfold occ. by rewrite E. Qed.

Lemma ref_of_pos (st : alloc_state P) p :
  alloc_inv st → 0 < ref_of st p → ∃ a, st_objs st !! p = Some a ∧ ref_of st p = a_ref a ∧ 1 ≤ a_ref a < 2 ^ 32.
Proof.
  unfold ref_of. intros Hi. destruct (st_objs st !! p) as [a |] eqn:E; cbn; [| lia]. intros _.
  exists a. split_and!; [done | done | apply (ai_ref _ Hi _ _ E)..].
Qed.

Lemma ref_of_nonneg (st : alloc_state P) p : alloc_inv st → 0 ≤ ref_of st p.
Proof.
  intros Hi. unfold ref_of. destruct (st_objs st !! p) as [a |] eqn:E; cbn; [| lia].
  pose proof (ai_ref _ Hi _ _ E) as Hr. cbn in Hr. lia.
Qed.

Lemma ref_get (st : alloc_state P) p :
  alloc_inv st → 0 < ref_of st p → ref_of st p + 1 < 2 ^ 32 →
  ∃ st', xrp_allocation_get st p = Some st' ∧ alloc_inv st' ∧ ∀ q, ref_of st' q = ref_of st q + occ q [p].
Proof.
  intros Hi Hpos Hlt. destruct (ref_of_pos st p Hi Hpos) as (a & Ha & Er & Hr).
  assert (∃ st', xrp_allocation_get st p = Some st') as [st' Hg] by (unfold xrp_allocation_get; rewrite Ha; by eexists).
  exists st'. split_and!; [done | eapply get_inv; [done | done | intros b Hb; simplify_eq; lia] |].
  unfold xrp_allocation_get in Hg. rewrite Ha in Hg. injection Hg as <-. intros q. rewrite occ_one. unfold ref_of. cbn.
  case_decide as E; [subst; rewrite lookup_insert_eq, Ha; cbn; rewrite u32_small; lia |].
  rewrite lookup_insert_ne by done. lia.
Qed.

Lemma ref_put (st : alloc_state P) p :
  alloc_inv st → 0 < ref_of st p →
  ∃ st', xrp_allocation_put st p = Some st' ∧ alloc_inv st' ∧ ∀ q, ref_of st' q = ref_of st q - occ q [p].
Proof.
  intros Hi Hpos. destruct (ref_of_pos st p Hi Hpos) as (a & Ha & Er & Hr).
  assert (∃ st', xrp_allocation_put st p = Some st' ∧ ∀ q, ref_of st' q = ref_of st q - occ q [p]) as (st' & Hg & Hq).
  { unfold xrp_allocation_put, xrp_free. rewrite Ha. cbn. rewrite u32_small by lia. zcase.
    - rewrite lookup_insert_eq. cbn. eexists. split; [done |]. intros q. rewrite occ_one. unfold ref_of. cbn.
      rewrite delete_insert_eq. case_decide as E; [subst; rewrite lookup_delete_eq, Ha; cbn; lia |].
      rewrite lookup_delete_ne by done. lia.
    - eexists. split; [done |]. intros q. rewrite occ_one. unfold ref_of. cbn.
      case_decide as E; [subst; rewrite lookup_insert_eq, Ha; cbn; lia |]. rewrite lookup_insert_ne by done. lia. }
  exists st'. split_and!; [done | by eapply put_inv | done].
Qed.

(** The state [k] is [k0] plus the references of the mappings [ms]. *)
Record acct (k0 : kstate P) (ms : list xrp_mapping) (k : kstate P) : Prop := {
  ac_base_own : alloc_inv (k_own k0);
  ac_base_other : alloc_inv (k_other k0);
  ac_own : alloc_inv (k_own k);
  ac_other : alloc_inv (k_other k);
  ac_own_ref p : ref_of (k_own k) p = ref_of (k_own k0) p + occ p (ms ≫= own_refs);
  ac_other_ref p : ref_of (k_other k) p = ref_of (k_other k0) p + occ p (ms ≫= other_refs);
  ac_pins p : k_pins k p = k_pins k0 p + occ p (ms ≫= page_refs);
}.

Lemma acct_perm k0 ms ms' k : ms ≡ₚ ms' → acct k0 ms k → acct k0 ms' k.
Proof.
  intros E [? ? ? ? Ho Ht Hp]. split; [done.. | | |]; intros p.
  - rewrite Ho. f_equal. apply occ_perm. by rewrite E.
  - rewrite Ht. f_equal. apply occ_perm. by rewrite E.
  - rewrite Hp. f_equal. apply occ_perm. by rewrite E.
Qed.

Lemma acct_refl k : alloc_inv (k_own k) → alloc_inv (k_other k) → acct k [] k.
Proof. intros. split; [done.. | | |]; intros p; cbn; unfold occ; cbn; lia. Qed.

(** A mapping without references. *)
Lemma acct_none k0 ms k (m : xrp_mapping) :
  own_refs m = [] → other_refs m = [] → page_refs m = [] → acct k0 (m :: ms) k ↔ acct k0 ms k.
Proof.
  intros E1 E2 E3. split; intros [? ? ? ? Ho Ht Hp]; (split; [done.. | | |]); intros p.
  - rewrite Ho. cbn. by rewrite E1.
  - rewrite Ht. cbn. by rewrite E2.
  - rewrite Hp. cbn. by rewrite E3.
  - rewrite Ho. cbn. by rewrite E1.
  - rewrite Ht. cbn. by rewrite E2.
  - rewrite Hp. cbn. by rewrite E3.
Qed.

Lemma acct_mems k0 ms k s : acct k0 ms k → acct k0 ms (set_mems k s).
Proof. by intros [? ? ? ? Ho Ht Hp]. Qed.

(** ** Unsharing drops exactly the references of the mapping *)

Lemma mapping_put_acct k0 ms k (own : bool) ptr m :
  own_refs m = (if own then [ptr] else []) → other_refs m = (if own then [] else [ptr]) → page_refs m = [] →
  acct k0 (m :: ms) k → ∃ k', mapping_put k own ptr = Some k' ∧ acct k0 ms k'.
Proof.
  intros E1 E2 E3 [B1 B2 A1 A2 Ho Ht Hp].
  assert (∀ p, occ p ((m :: ms) ≫= own_refs) = occ p (own_refs m) + occ p (ms ≫= own_refs)) as F1 by (intros; apply occ_app).
  assert (∀ p, occ p ((m :: ms) ≫= other_refs) = occ p (other_refs m) + occ p (ms ≫= other_refs)) as F2 by (intros; apply occ_app).
  assert (∀ p, occ p ((m :: ms) ≫= page_refs) = occ p (page_refs m) + occ p (ms ≫= page_refs)) as F3 by (intros; apply occ_app).
  unfold mapping_put. destruct own.
  - destruct (ref_put (k_own k) ptr A1) as (st & -> & Hi & Hr).
    { pose proof (Ho ptr) as Hpt. rewrite F1, E1, occ_one, decide_True in Hpt by done.
      pose proof (ref_of_nonneg (k_own k0) ptr B1). pose proof (occ_nonneg ptr (ms ≫= own_refs)). lia. }
    eexists. split; [done |]. split; [done.. | | |]; intros p; cbn [set_own k_own k_other k_pins].
    + rewrite Hr, Ho, F1, E1. lia.
    + rewrite Ht, F2, E2. done.
    + rewrite Hp, F3, E3. done.
  - destruct (ref_put (k_other k) ptr A2) as (st & -> & Hi & Hr).
    { pose proof (Ht ptr) as Hpt. rewrite F2, E2, occ_one, decide_True in Hpt by done.
      pose proof (ref_of_nonneg (k_other k0) ptr B2). pose proof (occ_nonneg ptr (ms ≫= other_refs)). lia. }
    eexists. split; [done |]. split; [done.. | | |]; intros p; cbn [k_own k_other k_pins].
    + rewrite Ho, F1, E1. done.
    + rewrite Hr, Ht, F2, E2. lia.
    + rewrite Hp, F3, E3. done.
Qed.

Lemma put_pages_acct k0 ms k m l :
  own_refs m = [] → other_refs m = [] → page_refs m = l →
  acct k0 (m :: ms) k → acct k0 ms (set_pins k (put_pages l (k_pins k))).
Proof.
  intros E1 E2 E3 [B1 B2 A1 A2 Ho Ht Hp]. split; [done.. | | |]; intros p; cbn [set_pins k_own k_other k_pins].
  - rewrite Ho. cbn. by rewrite E1.
  - rewrite Ht. cbn. by rewrite E2.
  - unfold put_pages. rewrite Hp. cbn. rewrite occ_app, E3. unfold occ. lia.
Qed.
(** Mappings the driver makes. *)
Definition mapping_wf (m : xrp_mapping) : Prop :=
  match m with
  | XRP_MAPPING_ALIEN am | XRP_MAPPING_KERNEL_ALIEN am => 0 ≤ am_size am ∧ 0 ≤ am_paddr am
  | _ => True
  end.

Lemma writeback_acct k0 ms k am :
  0 ≤ am_size am → 0 ≤ am_paddr am → acct k0 ms k →
  ∃ ret k', xrp_writeback_alien_mapping k am = Some (ret, k') ∧ acct k0 ms k'.
Proof.
  intros Hs Hp Ha. unfold xrp_writeback_alien_mapping. destruct (am_type am); try (by eexists _, _).
  destruct (copy_user_phys_total (k_mems k) (am_vaddr am) (am_size am) (am_paddr am) false Hs Hp) as (st & s' & E & _).
  unfold xrp_copy_user_from_phys. rewrite E. eexists _, _. split; [done |]. by apply acct_mems.
Qed.

Lemma destroy_acct k0 ms k m am :
  m = XRP_MAPPING_ALIEN am ∨ m = XRP_MAPPING_KERNEL_ALIEN am → acct k0 (m :: ms) k →
  ∃ k', xrp_alien_mapping_destroy k am = Some k' ∧ acct k0 ms k'.
Proof.
  intros Hm Ha. unfold xrp_alien_mapping_destroy. destruct (am_type am) eqn:Et.
  - eexists. split; [done |]. apply (put_pages_acct k0 ms k m); [destruct Hm as [-> | ->]; cbn; by rewrite ?Et.. | done].
  - eexists. split; [done |]. apply (acct_none k0 ms k m); [destruct Hm as [-> | ->]; cbn; by rewrite ?Et.. | done].
  - apply (mapping_put_acct k0 ms k true (am_allocation am) m); [destruct Hm as [-> | ->]; cbn; by rewrite ?Et.. | done].
Qed.

Lemma unshare_alien_acct k0 ms k m am flags :
  m = XRP_MAPPING_ALIEN am ∨ m = XRP_MAPPING_KERNEL_ALIEN am → mapping_wf m → acct k0 (m :: ms) k →
  ∃ ret k', unshare_alien k am flags = Some (ret, k') ∧ acct k0 ms k'.
Proof.
  intros Hm Hwf Ha. assert (0 ≤ am_size am ∧ 0 ≤ am_paddr am) as [Hs Hp] by (by destruct Hm as [-> | ->]).
  assert (∃ x, (if Z.land flags XRP_FLAG_WRITE =? 0 then Some (0, k) else xrp_writeback_alien_mapping k am) = Some x ∧
            acct k0 (m :: ms) x.2) as ([ret k1] & E & Ha1).
  { destruct (_ =? 0); [by eexists |]. destruct (writeback_acct _ _ _ am Hs Hp Ha) as (ret & k1 & -> & ?). by eexists. }
  unfold unshare_alien. rewrite E. cbn [mbind option_bind fst snd] in *.
  destruct (destroy_acct k0 ms k1 m am Hm Ha1) as (k2 & -> & Ha2). by eexists _, _.
Qed.

Lemma unshare_acct k0 ms k m flags :
  mapping_wf m → acct k0 (m :: ms) k →
  ∃ ret k', __xrp_unshare_block k m flags = Some (ret, k') ∧ acct k0 ms k'.
Proof.
  intros Hwf Ha. destruct m as [| own ptr | am | | am]; cbn [__xrp_unshare_block].
  - eexists _, _. split; [done |]. by apply acct_none in Ha.
  - destruct (mapping_put_acct k0 ms k own ptr (XRP_MAPPING_NATIVE own ptr)) as (k' & -> & Ha'); [by destruct own.. | done |].
    by eexists _, _.
  - eapply unshare_alien_acct; [by left | done | done].
  - eexists _, _. split; [done |]. by apply acct_none in Ha.
  - eapply unshare_alien_acct; [by right | done | done].
Qed.

(** ** Sharing adds exactly the references of the mapping *)

Definition room (st : alloc_state P) (p : Z) : Prop := 0 < ref_of st p ∧ ref_of st p + 1 < 2 ^ 32.

(** What one call relies on: the kernel's promises for the block, the pool's
    interface, and an area of the driver holding its allocation. *)
Record env_ok (k : kstate P) (e : share_env) (virt size : Z) : Prop := {
  eo_block : block_ok virt size;
  eo_areas : areas_ok (se_areas e);
  eo_find : find_vma_ok (se_areas e) (se_find_vma e);
  eo_pt : page_table_ok (se_follow e);
  eo_gup : gup_ok (se_follow e) (se_gup e);
  eo_kz : kz_fresh (ops_heap (st_pool (k_own k))) (se_kz1 e) (se_kz2 e);
  eo_request : shadow_request virt size;
  eo_native ar : se_find e virt = Some ar →
    match ar_file ar with
    | ThisFile => room (k_own k) (ar_private ar)
    | XrpFile _ => room (k_other k) (ar_private ar)
    | AlienFile => True
    end;
}.

Lemma mapping_get_acct k0 ms k (own : bool) ptr :
  room (if own then k_own k else k_other k) ptr → acct k0 ms k →
  ∃ k', mapping_get k own ptr = Some k' ∧ acct k0 (XRP_MAPPING_NATIVE own ptr :: ms) k'.
Proof.
  intros [Hpos Hlt] [B1 B2 A1 A2 Ho Ht Hp]. unfold mapping_get. destruct own.
  - destruct (ref_get (k_own k) ptr A1 Hpos Hlt) as (st & -> & Hi & Hr). eexists. split; [done |].
    split; [done.. | | |]; intros p; cbn [set_own k_own k_other k_pins]; [| apply Ht | apply Hp].
    rewrite Hr, Ho. change ((_ :: ms) ≫= own_refs) with ([ptr] ++ (ms ≫= own_refs)). rewrite occ_app. lia.
  - destruct (ref_get (k_other k) ptr A2 Hpos Hlt) as (st & -> & Hi & Hr). eexists. split; [done |].
    split; [done.. | | |]; intros p; cbn [k_own k_other k_pins]; [apply Ho | | apply Hp].
    rewrite Hr, Ht. change ((_ :: ms) ≫= other_refs) with ([ptr] ++ (ms ≫= other_refs)). rewrite occ_app. lia.
Qed.

Lemma share_in_place_acct k0 ms k e ar virt size :
  map_ok map → page_ended map → env_ok k e virt size → acct k0 ms k →
  ∃ r k', share_in_place map e k ar virt size = Some (r, k') ∧ k_own k' = k_own k ∧
    match r with
    | Ok (p, am) => acct k0 (XRP_MAPPING_ALIEN am :: ms) k' ∧ am_vaddr am = virt ∧ am_size am = size ∧ 0 ≤ am_paddr am
    | Err _ => acct k0 ms k'
    end.
Proof.
  intros Hok Hend He Ha. destruct (eo_block _ _ _ _ He) as (Hv & Hs & Hl & Hl2). unfold share_in_place.
  destruct (from_option ar_pfnmap false ar).
  - eexists _, _. split; [done |]. split; [done |].
    destruct (xvp_pfn_virt_to_phys _ _ _ _) as [[p am] |] eqn:E; [| done].
    apply (pfn_virt_to_phys_iff _ (eo_pt _ _ _ _ He)) in E as (en & f & Hin & [Hc _] & -> & ->); [| done | by apply He].
    split_and!; [by apply acct_none | done | done |]. cbn.
    pose proof (proj1 (list.Forall_forall _ _) (proj1 Hok) en Hin) as (? & _). unfold covers in Hc. lia.
  - destruct (gup_virt_to_phys_spec (se_follow e) (eo_pt _ _ _ _ He) (se_km e) (se_gup e) map (k_pins k) virt size)
      as (r & pins & -> & Hr); [apply He | done | done | apply He |]. cbn [mbind option_bind fst snd].
    eexists _, _. split; [done |]. split; [done |]. destruct Ha as [B1 B2 A1 A2 Ho Ht Hp]. destruct r as [[p am] |].
    + destruct Hr as (Hsh & -> & -> & _). split_and!; [| done | done |].
      * split; [done.. | apply Ho | apply Ht |]. intros q. cbn [set_pins k_pins]. unfold get_pages. rewrite Hp.
        change ((_ :: ms) ≫= page_refs) with (mapping_pages (mk_alien virt size p 0 ALIEN_GUP) ++ (ms ≫= page_refs)).
        rewrite occ_app. unfold occ. lia.
      * cbn. destruct Hsh as [(en & Hin & Hc) _]. specialize (Hc 0 ltac:(lia)).
        pose proof (proj1 (list.Forall_forall _ _) (proj1 Hok) en Hin) as (? & _). unfold covers in Hc. lia.
    + split; [done.. | apply Ho | apply Ht |]. intros q. cbn [set_pins k_pins]. by rewrite Hr.
Qed.

Lemma copy_phys_nonneg vaddr start : 0 ≤ copy_phys vaddr start.
Proof.
  unfold copy_phys. assert (∀ x, 0 ≤ Z.lor (Z.land start (ulong (- copy_align vaddr))) (Z.land vaddr x) ∨ x < 0) as Hn.
  { intros x. destruct (Z.lt_ge_cases x 0); [by right |]. left. apply Z.lor_nonneg. split; apply Z.land_nonneg; right; [| done].
    apply wrap_range. destruct long_bits_cases; lia. }
  destruct (Hn (copy_align vaddr - 1)) as [Hp |]; [| rewrite copy_align_16 in *; lia].
  destruct (_ <? _); [apply phys_range | done].
Qed.

(** A shadow copy always has a result, and takes one allocation or none. *)
Lemma shadow_copy_refs kz1 kz2 (st : alloc_state P) s flags vaddr size :
  alloc_inv st → kz_fresh (ops_heap (st_pool st)) kz1 kz2 → shadow_request vaddr size →
  ∃ r st' s', xvp_copy_virt_to_phys kz1 kz2 st s flags vaddr size = Some (r, st', s') ∧ alloc_inv st' ∧
    match r with
    | Ok (p, am) => am = mk_alien vaddr size p (am_allocation am) ALIEN_COPY ∧ 0 ≤ p ∧
        ∀ q, ref_of st' q = ref_of st q + occ q [am_allocation am]
    | Err _ => ∀ q, ref_of st' q = ref_of st q
    end.
Proof.
  intros Hi Hkz Hsz. destruct (shadow_size _ _ Hsz) as [E1 E2]. unfold xvp_copy_virt_to_phys. rewrite E1, E2.
  destruct (xrp_allocate kz1 kz2 st (size + 16) 16) as [[ptr | er] st1] eqn:Ea.
  2:{ destruct (allocate_err_inv _ _ _ _ _ _ _ Hi Hkz (proj2 Hsz) Ea) as [Hi1 Eo]. eexists _, _, _. split_and!; [done | done |].
      intros q. unfold ref_of. by rewrite Eo. }
  destruct (allocate_inv _ _ _ _ _ _ _ Hi Hkz (proj2 Hsz) Ea) as (Hi1 & Hnone & a & Eo & Href & _).
  assert (∀ q, ref_of st1 q = ref_of st q + occ q [ptr]) as Hr.
  { intros q. rewrite occ_one. unfold ref_of. rewrite Eo. case_decide as E.
    - subst. rewrite lookup_insert_eq, Hnone. cbn. lia.
    - rewrite lookup_insert_ne by done. lia. }
  rewrite Eo, lookup_insert_eq. cbn [mbind option_bind]. pose proof (copy_phys_nonneg vaddr (a_start a)) as Hpos.
  destruct (_ =? 0); [by eexists _, _, _ |].
  destruct (copy_user_phys_total s vaddr size (copy_phys vaddr (a_start a)) true (proj1 Hsz) Hpos) as (rc & s' & E & _).
  unfold xrp_copy_user_to_phys. rewrite E. cbn [mbind option_bind fst snd]. destruct (rc =? 0); [by eexists _, _, _ |].
  destruct (ref_put st1 ptr Hi1) as (st2 & -> & Hi2 & Hr2).
  { rewrite Hr, occ_one, decide_True by done. pose proof (ref_of_nonneg st ptr Hi). lia. }
  cbn [mbind option_bind]. eexists _, _, _. split_and!; [done | done |]. intros q. rewrite Hr2, Hr. lia.
Qed.

Lemma share_copy_acct k0 ms k e flags virt size :
  kz_fresh (ops_heap (st_pool (k_own k))) (se_kz1 e) (se_kz2 e) → shadow_request virt size → acct k0 ms k →
  ∃ r k', share_copy e k flags virt size = Some (r, k') ∧
    match r with
    | Ok (p, am) => acct k0 (XRP_MAPPING_ALIEN am :: ms) k' ∧ am_vaddr am = virt ∧ am_size am = size ∧ 0 ≤ am_paddr am
    | Err _ => acct k0 ms k'
    end.
Proof.
  intros Hkz Hreq [B1 B2 A1 A2 Ho Ht Hp]. unfold share_copy.
  destruct (shadow_copy_refs (se_kz1 e) (se_kz2 e) (k_own k) (k_mems k) flags virt size A1 Hkz Hreq)
    as (r & st & s & -> & Hi & Hr). cbn [mbind option_bind fst snd]. eexists _, _. split; [done |].
  destruct r as [[p am] |].
  - destruct Hr as (-> & Hpos & Hr). cbn [am_allocation am_vaddr am_size am_paddr] in *. split_and!; [| done | done | done].
    split; [done.. | | apply Ht | apply Hp]. intros q. cbn [k_own]. rewrite Hr, Ho.
    change ((_ :: ms) ≫= own_refs) with ([am_allocation am] ++ (ms ≫= own_refs)). rewrite occ_app. lia.
  - split; [done.. | | apply Ht | apply Hp]. intros q. cbn [k_own]. by rewrite Hr, Ho.
Qed.

Lemma share_acct k0 ms k e virt size flags m0 :
  map_ok map → page_ended map → env_ok k e virt size → acct k0 ms k →
  ∃ r m k', __xrp_share_block map pmem e k virt size flags m0 = Some (r, m, k') ∧
    match r with
    | Ok _ => acct k0 (m :: ms) k' ∧ mapping_wf m
    | Err _ => m = m0 ∧ acct k0 ms k'
    end.
Proof.
  intros Hok Hend He Ha. destruct (eo_block _ _ _ _ He) as (Hv & Hs & Hl & Hl2). unfold __xrp_share_block.
  destruct (se_find e virt) as [ar |] eqn:Ef; [| by eexists _, _, _].
  destruct (region_vma_count_spec (se_areas e) (se_find_vma e) (eo_areas _ _ _ _ He) (eo_find _ _ _ _ He) virt size (ar_vma ar))
    as (n & -> & _); [unfold se_find_vma; by rewrite Ef | done | done | unfold PAGE_SIZE in *; lia |].
  cbn [mbind option_bind]. destruct (n =? 0); [by eexists _, _, _ |].
  set (v := if n =? 1 then Some ar else None).
  destruct (ar' ← v; native_block map pmem ar' virt size) as [[own p] |] eqn:En.
  - destruct (mapping_get_acct k0 ms k own (ar_private ar)) as (k' & -> & Ha'); [| done | by eexists _, _, _].
    pose proof (eo_native _ _ _ _ He ar Ef) as Hroom. unfold v in En. destruct (n =? 1); [| done]. cbn in En.
    unfold native_block in En. destruct (ar_file ar); [by injection En as <- _ | | done].
    apply bind_Some in En as (en & _ & En). destruct (_ =? 0); [| done]. by injection En as <- _.
  - destruct (share_in_place_acct k0 ms k e v virt size Hok Hend He Ha) as (r1 & k1 & -> & Eown & Hr1).
    cbn [mbind option_bind fst snd].
    assert (∃ r2 k2, (match r1 with Ok _ => Some (r1, k1) | Err _ => share_copy e k1 flags virt size end) = Some (r2, k2) ∧
      match r2 with
      | Ok (p, am) => acct k0 (XRP_MAPPING_ALIEN am :: ms) k2 ∧ am_vaddr am = virt ∧ am_size am = size ∧ 0 ≤ am_paddr am
      | Err _ => acct k0 ms k2
      end) as (r2 & k2 & -> & Hr2).
    { destruct r1 as [x |]; [by eexists _, _ |]. apply share_copy_acct; [rewrite Eown; apply He | apply He | done]. }
    cbn [mbind option_bind]. destruct r2 as [[p am] |]; eexists _, _, _; (split; [done |]); [| by split].
    destruct Hr2 as (Ha2 & _ & Hsz & Hpa). split; [done |]. cbn. lia.
Qed.

(** ** What the DSP finds *)

Lemma share_copy_data k e flags virt size p am k' :
  0 ≤ size → share_copy e k flags virt size = Some (Ok (p, am), k') →
  am = mk_alien virt size p (am_allocation am) ALIEN_COPY ∧
  (Z.land flags XRP_FLAG_READ ≠ 0 →
     load_bytes (pm (k_mems k')) p (Z.to_nat size) = load_bytes (um (k_mems k)) virt (Z.to_nat size)).
Proof.
  intros Hs Hx. unfold share_copy in Hx. apply bind_Some in Hx as ([[r st] s'] & Hx & E). injection E as -> <-.
  unfold xvp_copy_virt_to_phys in Hx. destruct (xrp_allocate _ _ _ _ _) as [[ptr |] st1]; [| done].
  apply bind_Some in Hx as (a & _ & Hx). destruct (Z.eqb_spec (Z.land flags XRP_FLAG_READ) 0) as [Ef |].
  - injection Hx as <- <- _ _. by split.
  - apply bind_Some in Hx as ([rc s1] & Ec & Hx). cbn [fst snd] in Hx. destruct (Z.eqb_spec rc 0) as [-> |].
    + injection Hx as <- <- _ <-. split; [done |]. intros _. cbn [k_mems snd].
      destruct (copy_user_phys_total (k_mems k) virt size (copy_phys virt (a_start a)) true Hs (copy_phys_nonneg _ _))
        as (rc & s2 & E & Hc & _). unfold xrp_copy_user_to_phys in Ec. rewrite Ec in E. injection E as <- <-.
      destruct (Hc eq_refl) as [_ ->]. rewrite <- (length_load_bytes (um (k_mems k)) virt (Z.to_nat size)) at 2.
      apply load_store_same.
    + by apply bind_Some in Hx as (? & _ & ?).
Qed.

Lemma native_block_at ar virt size own p :
  native_block map pmem ar virt size = Some (own, p) →
  ∃ base, ar_file ar = (if own then ThisFile else XrpFile base) ∧
    p = phys ((if own then pmem else base) + ulong (ar_pgoff ar * PAGE_SIZE) + (virt - vm_start (ar_vma ar))).
Proof.
  unfold native_block. rewrite page_shiftl. destruct (ar_file ar) as [| base |]; [| | done].
  - intros [= <- <-]. exists 0. split; [done |]. f_equal. lia.
  - intros (en & _ & Ep)%bind_Some. destruct (_ =? 0); [| done]. injection Ep as <- <-. exists base. split; [done |]. f_equal. lia.
Qed.

Lemma share_block_spec k e virt size flags m0 p m k' :
  map_ok map → page_ended map → env_ok k e virt size →
  __xrp_share_block map pmem e k virt size flags m0 = Some (Ok p, m, k') →
  match m with
  | XRP_MAPPING_NATIVE own ptr =>
      ∃ ar, se_find e virt = Some ar ∧ ptr = ar_private ar ∧
        vm_start (ar_vma ar) ≤ virt ∧ virt + size ≤ vm_end (ar_vma ar) ∧
        (own = false → ∃ en, xrp_get_address_mapping map p = Some en ∧ xrp_compare_address (phys (p + size - 1)) en = 0) ∧
        ∃ base, ar_file ar = (if own then ThisFile else XrpFile base) ∧
          p = phys ((if own then pmem else base) + ulong (ar_pgoff ar * PAGE_SIZE) + (virt - vm_start (ar_vma ar)))
  | XRP_MAPPING_ALIEN am =>
      am_vaddr am = virt ∧ am_size am = size ∧ p = phys (am_paddr am) ∧
      match am_type am with
      | ALIEN_GUP | ALIEN_PFN_MAP => shared_block (se_follow e) map virt size (am_paddr am)
      | ALIEN_COPY => Z.land flags XRP_FLAG_READ ≠ 0 →
          load_bytes (pm (k_mems k')) (am_paddr am) (Z.to_nat size) = load_bytes (um (k_mems k)) virt (Z.to_nat size)
      end
  | _ => False
  end.
Proof.
  intros Hok Hend He Hx. destruct (eo_block _ _ _ _ He) as (Hv & Hs & Hl & Hl2). unfold __xrp_share_block in Hx.
  destruct (se_find e virt) as [ar |] eqn:Ef; [| done].
  destruct (region_vma_count_spec (se_areas e) (se_find_vma e) (eo_areas _ _ _ _ He) (eo_find _ _ _ _ He) virt size (ar_vma ar))
    as (n & En & _ & Hone); [unfold se_find_vma; by rewrite Ef | done | done | unfold PAGE_SIZE in *; lia |].
  rewrite En in Hx. cbn [mbind option_bind] in Hx. destruct (n =? 0); [done |].
  set (v := if n =? 1 then Some ar else None) in *.
  destruct (ar' ← v; native_block map pmem ar' virt size) as [[own p'] |] eqn:Eb.
  - apply bind_Some in Hx as (k1 & _ & Hx). injection Hx as <- <- _. unfold v in Eb. clear v.
    destruct (Z.eqb_spec n 1) as [En1 |]; [| done]. cbn in Eb. exists ar. split_and!; [done | done | by apply Hone | by apply Hone | |].
    + intros ->. unfold native_block in Eb. destruct (ar_file ar); [done | | done].
      apply bind_Some in Eb as (en & Em & Eb). exists en. destruct (_ =? 0) eqn:Ec; [| done]. apply Z.eqb_eq in Ec.
      by injection Eb as <-.
    + by apply native_block_at in Eb.
  - apply bind_Some in Hx as ([r1 k1] & E1 & Hx). apply bind_Some in Hx as ([r2 k2] & E2 & Hx). cbn [fst snd] in *.
    destruct r2 as [[p2 am] |]; [| done]. injection Hx as <- <- <-.
    assert (k_mems k1 = k_mems k) as Ek.
    { unfold share_in_place in E1. destruct (from_option _ _ _); [by injection E1 as _ <- |].
      apply bind_Some in E1 as (x & _ & E1). by injection E1 as _ <-. }
    destruct r1 as [[p1 am1] | er].
    + injection E2 as -> -> ->. unfold share_in_place in E1. destruct (from_option _ _ _).
      * injection E1 as E1 _. apply (pfn_virt_to_phys_iff _ (eo_pt _ _ _ _ He)) in E1 as (en & f & Hin & Hc & -> & ->); [| done | apply He].
        cbn. split_and!; [done | done | f_equal; lia |]. by eapply (contiguous_shared _ (eo_pt _ _ _ _ He)).
      * apply bind_Some in E1 as ([r pins] & Eg & E1). injection E1 as -> _.
        destruct (gup_virt_to_phys_spec (se_follow e) (eo_pt _ _ _ _ He) (se_km e) (se_gup e) map (k_pins k) virt size)
          as (r' & pins' & Eg' & Hr); [apply He | done | done | apply He |]. rewrite Eg in Eg'. injection Eg' as <- <-.
        destruct Hr as (Hsh & -> & _). cbn. split_and!; [done | done | f_equal; lia | done].
    + apply share_copy_data in E2 as [-> Hdata]; [| lia]. cbn. rewrite <- Ek. split_and!; [done | done | f_equal; lia | done].
Qed.

(** C19: on an address map whose ranges end at page boundaries, for a block
    that is not empty and below 2 GiB, and as long as the kernel keeps its
    promises about areas, page tables, pinned pages and allocations: a block
    that was shared is usable.  Driver memory is at the page offset of its one
    area plus the offset of the block in the area, from the memory base of the
    device the area belongs to, and for another device both ends of the block
    are in one range of the address map; memory used in place is at the
    returned address byte by byte and consecutive for the DSP; a shadow copy
    the DSP is to read holds the user's data. *)
Theorem share_block_correct k e virt size flags m0 p m k' :
  map_ok map → page_ended map → env_ok k e virt size →
  __xrp_share_block map pmem e k virt size flags m0 = Some (Ok p, m, k') →
  match m with
  | XRP_MAPPING_NATIVE own ptr =>
      ∃ ar, se_find e virt = Some ar ∧ ptr = ar_private ar ∧
        vm_start (ar_vma ar) ≤ virt ∧ virt + size ≤ vm_end (ar_vma ar) ∧
        (own = false → ∃ en, xrp_get_address_mapping map p = Some en ∧ xrp_compare_address (phys (p + size - 1)) en = 0) ∧
        ∃ base, ar_file ar = (if own then ThisFile else XrpFile base) ∧
          p = phys ((if own then pmem else base) + ulong (ar_pgoff ar * PAGE_SIZE) + (virt - vm_start (ar_vma ar)))
  | XRP_MAPPING_ALIEN am =>
      am_vaddr am = virt ∧ am_size am = size ∧ p = phys (am_paddr am) ∧
      match am_type am with
      | ALIEN_GUP | ALIEN_PFN_MAP => shared_block (se_follow e) map virt size (am_paddr am)
      | ALIEN_COPY => Z.land flags XRP_FLAG_READ ≠ 0 →
          load_bytes (pm (k_mems k')) (am_paddr am) (Z.to_nat size) = load_bytes (um (k_mems k)) virt (Z.to_nat size)
      end
  | _ => False
  end.
Proof. apply share_block_spec. Qed.

End accounting.
