(* ===== verification/FileOps.v ===== *)
(** * Files of the driver and memory mapped through them (xrp-kernel/xvp_main.c)

    A program opens the device, asks for memory with [XRP_IOCTL_ALLOC],
    uses it through a memory area the driver maps, and gives it up by
    unmapping.  An allocation passes from the pool to the busy list of the
    file, from there to the private data of an area, and back to the pool
    with the last area that refers to it.  The driver also keeps a table of
    its open files, by which it recognises areas of other devices.

    The memory manager of the Linux kernel - which addresses areas get, what
    an unmapping splits and closes - is a parameter with its documented
    behaviour ([MMLib], [MMSpec]). *)

From stdpp Require Import base tactics list gmap numbers.
From S2P Require Import Prelude Alloc PrivateAlloc AddressMap PageMap Share.

(** ** The table of known files *)

(** [xrp_known_files]: the chains of the hash table, newest file first. *)
Abbreviation known_files := (gmap nat (list Z)).

Section known.
(** The bucket [hash_add] and [hash_for_each_possible] use for a key. *)
Variable bucket : Z → nat.

Definition chain (t : known_files) (filp : Z) : list Z := default [] (t !! bucket filp).

(** [km]: [kmalloc] succeeds. *)
Definition xrp_add_known_file (km : bool) (t : known_files) (filp : Z) : known_files :=
  if km then <[bucket filp := filp :: chain t filp]> t else t.

(** The loop up to [hash_del] and [break]. *)
Fixpoint hash_del_first (filp : Z) (l : list Z) : list Z :=
  match l with
  | [] => []
  | p :: l => if p =? filp then l else p :: hash_del_first filp l
  end.

Definition xrp_remove_known_file (t : known_files) (filp : Z) : known_files :=
  <[bucket filp := hash_del_first filp (chain t filp)]> t.

Definition xrp_is_known_file (t : known_files) (filp : Z) : bool :=
  existsb (Z.eqb filp) (chain t filp).

(** How often a file is in the table. *)
Definition known_count (t : known_files) (filp : Z) : Z := occ filp (chain t filp).

Lemma known_count_add t filp g :
  known_count (xrp_add_known_file true t filp) g = known_count t g + (if g =? filp then 1 else 0).
Proof.
  unfold known_count, xrp_add_known_file, chain. destruct (decide (bucket g = bucket filp)) as [E | E].
  - rewrite E, lookup_insert_eq. cbn. change (filp :: ?l) with ([filp] ++ l). rewrite occ_app, occ_one.
    destruct (Z.eqb_spec g filp); case_decide; lia.
  - rewrite lookup_insert_ne by done. destruct (Z.eqb_spec g filp) as [-> |]; [done | lia].
Qed.

Lemma occ_del_first f g l :
  occ g (hash_del_first f l) = occ g l - (if (g =? f) && (0 <? occ f l) then 1 else 0).
Proof.
  assert (∀ x y k, occ x (y :: k) = (if decide (x = y) then 1 else 0) + occ x k) as Hc.
  { intros x y k. change (y :: k) with ([y] ++ k). by rewrite occ_app, occ_one. }
  induction l as [| p l IH]; cbn [hash_del_first]; [cbn; rewrite andb_false_r; done |].
  pose proof (occ_nonneg f l). destruct (Z.eqb_spec p f) as [-> | Hne]; rewrite !Hc.
  - rewrite (decide_True (P := f = f)) by done. destruct (Z.eqb_spec g f), (Z.ltb_spec 0 (1 + occ f l)); case_decide; cbn; lia.
  - rewrite IH, (decide_False (P := f = p)), Z.add_0_l by congruence. lia.
Qed.

Lemma known_count_remove t filp g :
  known_count (xrp_remove_known_file t filp) g =
  known_count t g - (if (g =? filp) && (0 <? known_count t filp) then 1 else 0).
Proof.
  unfold known_count, xrp_remove_known_file, chain. destruct (decide (bucket g = bucket filp)) as [E | E].
  - rewrite E, lookup_insert_eq. cbn. rewrite occ_del_first. by destruct (t !! bucket filp).
  - rewrite lookup_insert_ne by done. destruct (Z.eqb_spec g filp) as [-> |]; [done | cbn; lia].
Qed.

Lemma known_count_is t filp : xrp_is_known_file t filp = (0 <? known_count t filp).
Proof.
  unfold xrp_is_known_file, known_count. generalize (chain t filp). induction l as [| p l IH]; [done |]. cbn.
  change (p :: l) with ([p] ++ l). rewrite occ_app, occ_one, IH. pose proof (occ_nonneg filp l).
  destruct (Z.eqb_spec filp p); case_decide; try done; cbn; repeat zcase; lia.
Qed.
End known.

(** ** Memory areas and the memory manager *)

(** An area of some address space ([ua_mm]) that maps a file.
    [ua_private = Some p]: [vm_ops] is [xvp_vm_ops] and [vm_private_data] is
    the allocation [p]. *)
Record uarea := mk_uarea {
  ua_mm : Z;
  ua_vma : vma;
  ua_filp : Z;
  ua_pgoff : Z;
  ua_private : option Z;
}.
Definition ua_start (a : uarea) : Z := vm_start (ua_vma a).
Definition ua_end (a : uarea) : Z := vm_end (ua_vma a).
#[export] Instance uarea_eq_dec : EqDecision uarea.
Proof. solve_decision. Defined.

(** What an unmapping does: the areas split off others ([vm_ops->open] is
    called for each), the areas removed ([vm_ops->close]), and what is left. *)
Record unmapping := mk_unmapping {
  um_opened : list uarea;
  um_closed : list uarea;
  um_left : list uarea;
}.

(** [mm_place]: the address [vm_mmap] picks for an area of an address space
    with a length and an offset in the file, or the error it reports before
    it calls the driver; [mm_find]: [find_vma]; [mm_unmap]: [vm_munmap]. *)
Class MMLib := {
  mm_place : list uarea → Z → Z → Z → result Z;
  mm_find : list uarea → Z → Z → option uarea;
  mm_unmap : list uarea → Z → Z → Z → Z * unmapping;
}.

(** A part of an area that maps the same memory. *)
Definition part_of (b a : uarea) : Prop :=
  ua_mm b = ua_mm a ∧ ua_filp b = ua_filp a ∧ ua_private b = ua_private a ∧
  ua_start a ≤ ua_start b ∧ ua_end b ≤ ua_end a ∧
  Z.shiftl (ua_pgoff b) PAGE_SHIFT - ua_start b = Z.shiftl (ua_pgoff a) PAGE_SHIFT - ua_start a.

Definition refs (l : list uarea) : list Z := omap ua_private l.
Arguments refs : simpl never.

(** Areas of one address space do not overlap. *)
Definition apart (a b : uarea) : Prop := ua_mm a = ua_mm b → ua_end a ≤ ua_start b ∨ ua_end b ≤ ua_start a.
Fixpoint separate (l : list uarea) : Prop :=
  match l with
  | [] => True
  | a :: l => ua_start a < ua_end a ∧ Forall (apart a) l ∧ separate l
  end.

Class MMSpec `{Arch} `{MMLib} : Prop := {
  mm_place_free l mm len off x :
    mm_place l mm len off = Ok x → 0 ≤ x ∧ x mod PAGE_SIZE = 0 ∧ 0 < len ∧ x + len < 2 ^ long_bits ∧
    ∀ a, a ∈ l → ua_mm a = mm → x + len ≤ ua_start a ∨ ua_end a ≤ x;
  (** The first area that ends above an address. *)
  mm_find_some l mm x a :
    mm_find l mm x = Some a → a ∈ l ∧ ua_mm a = mm ∧ x < ua_end a ∧
    ∀ b, b ∈ l → ua_mm b = mm → x < ua_end b → ua_end a ≤ ua_end b;
  mm_find_none l mm x a : mm_find l mm x = None → a ∈ l → ua_mm a = mm → ua_end a ≤ x;
  (** Every piece that is left or removed was there before or was opened. *)
  mm_unmap_refs l mm start len p :
    let u := (mm_unmap l mm start len).2 in
    occ p (refs (um_left u)) + occ p (refs (um_closed u)) = occ p (refs l) + occ p (refs (um_opened u));
  mm_unmap_opened l mm start len a :
    a ∈ um_opened (mm_unmap l mm start len).2 → ∃ b, b ∈ l ∧ ua_private a = ua_private b;
  mm_unmap_left l mm start len :
    separate l → let u := (mm_unmap l mm start len).2 in
    separate (um_left u) ∧ ∀ b, b ∈ um_left u → ∃ a, a ∈ l ∧ part_of b a;
  (** Unmapping one whole area. *)
  mm_unmap_area l1 a l2 len :
    separate (l1 ++ a :: l2) → ua_start a mod PAGE_SIZE = 0 → 0 < len → 0 ≤ ua_start a → ua_end a < 2 ^ long_bits →
    ua_start a + ALIGN long_bits len PAGE_SIZE = ua_end a →
    mm_unmap (l1 ++ a :: l2) (ua_mm a) (ua_start a) len = (0, mk_unmapping [] [a] (l1 ++ l2));
}.

(** ** The state of the driver's files *)

Record fstate {P : Type} := mk_f {
  f_alloc : alloc_state P;
  (** the busy lists of the open files *)
  f_files : gmap Z (list Z);
  f_known : known_files;
  f_areas : list uarea;
  (** the usage count of runtime power management *)
  f_pm : Z;
  (** references held by requests in progress *)
  f_held : list Z;
  (** references nobody will give up any more *)
  f_lost : list Z;
}.
Arguments fstate : clear implicits.
Arguments mk_f {P} _ _ _ _ _ _ _.

Section fields.
Context {P : Type}.
Implicit Type f : fstate P.
Definition set_alloc f (st : alloc_state P) := mk_f st (f_files f) (f_known f) (f_areas f) (f_pm f) (f_held f) (f_lost f).
Definition set_files f fs := mk_f (f_alloc f) fs (f_known f) (f_areas f) (f_pm f) (f_held f) (f_lost f).
Definition set_known f t := mk_f (f_alloc f) (f_files f) t (f_areas f) (f_pm f) (f_held f) (f_lost f).
Definition set_areas f l := mk_f (f_alloc f) (f_files f) (f_known f) l (f_pm f) (f_held f) (f_lost f).
Definition add_pm f n := mk_f (f_alloc f) (f_files f) (f_known f) (f_areas f) (f_pm f + n) (f_held f) (f_lost f).
Definition set_held f l := mk_f (f_alloc f) (f_files f) (f_known f) (f_areas f) (f_pm f) l (f_lost f).
Definition lose f l := mk_f (f_alloc f) (f_files f) (f_known f) (f_areas f) (f_pm f) (f_held f) (l ++ f_lost f).
End fields.

Section files.
Context `{Arch} {P : Type} `{!AllocOps P} `{MMLib}.
(** The bucket of a file, and the base of the device's memory. *)
Variables (bucket : Z → nat) (pmem : Z).

(** [None]: the file is not open, its [private_data] is not valid. *)
Definition xrp_allocation_queue (f : fstate P) (filp : Z) (p : Z) : option (fstate P) :=
  busy ← f_files f !! filp; Some (set_files f (<[filp := p :: busy]> (f_files f))).

(** The walk over the busy list; [None]: it meets a descriptor that has been
    freed. *)
Fixpoint dequeue_loop (objs : gmap Z xrp_allocation) (paddr size : Z) (busy : list Z) : option (option Z * list Z) :=
  match busy with
  | [] => Some (None, [])
  | cur :: next =>
      a ← objs !! cur;
      if (a_start a <=? paddr) && (phys (paddr + size - a_start a) <=? a_size a) then Some (Some cur, next)
      else x ← dequeue_loop objs paddr size next; Some (x.1, cur :: x.2)
  end.

Definition xrp_allocation_dequeue (f : fstate P) (filp paddr size : Z) : option (option Z * fstate P) :=
  busy ← f_files f !! filp;
  x ← dequeue_loop (st_objs (f_alloc f)) paddr size busy;
  Some (x.1, set_files f (<[filp := x.2]> (f_files f))).

(** [vm_ops->open] and [vm_ops->close] of an area. *)
Definition xvp_vm_open (f : fstate P) (p : Z) : option (fstate P) :=
  st ← xrp_allocation_get (f_alloc f) p; Some (set_alloc f st).
Definition xvp_vm_close (f : fstate P) (p : Z) : option (fstate P) :=
  st ← xrp_allocation_put (f_alloc f) p; Some (set_alloc f st).

(** [remap]: the result of [remap_pfn_range].  Returns the error and the
    private data given to the area. *)
Definition xvp_mmap (remap : Z) (f : fstate P) (filp : Z) (v : vma) (pgoff : Z) : option (Z * option Z * fstate P) :=
  let pfn := ulong (pgoff + Z.shiftr pmem PAGE_SHIFT) in
  x ← xrp_allocation_dequeue f filp (phys (ulong (Z.shiftl pfn PAGE_SHIFT))) (u32 (ulong (vm_end v - vm_start v)));
  match x with
  | (Some p, f) => Some (remap, Some p, f)
  | (None, f) => Some (- EINVAL, None, f)
  end.

(** [vm_mmap] of a file of the driver: when the handler fails the area is
    dropped without a call of [vm_ops->close]. *)
Definition vm_mmap (remap : Z) (f : fstate P) (mm filp len offset : Z) : option (Z * fstate P) :=
  let len := ALIGN long_bits len PAGE_SIZE in
  match mm_place (f_areas f) mm len offset with
  | Err e => Some (ulong (- e), f)
  | Ok x =>
      let v := mk_vma x (x + len) in
      let pgoff := Z.shiftr offset PAGE_SHIFT in
      y ← xvp_mmap remap f filp v pgoff;
      let '(err, priv, f) := (y : Z * option Z * fstate P) in
      Some (if err =? 0 then (x, set_areas f (mk_uarea mm v filp pgoff priv :: f_areas f))
            else (ulong err, lose f (option_list priv)))
  end.

Fixpoint each (h : fstate P → Z → option (fstate P)) (f : fstate P) (l : list Z) : option (fstate P) :=
  match l with [] => Some f | p :: l => f ← h f p; each h f l end.

Definition vm_munmap (f : fstate P) (mm start len : Z) : option (Z * fstate P) :=
  let '(ret, u) := mm_unmap (f_areas f) mm start len in
  f ← each xvp_vm_open f (refs (um_opened u));
  f ← each xvp_vm_close f (refs (um_closed u));
  Some (ret, set_areas f (um_left u)).

(** [XRP_IOCTL_ALLOC], up to the insertion into the busy list. *)
Definition xrp_ioctl_alloc_queue (kz1 kz2 : option Z) (f : fstate P) (filp size align : Z) : option (result Z * fstate P) :=
  match xrp_allocate kz1 kz2 (f_alloc f) size align with
  | (Err e, st) => Some (Err e, set_alloc f st)
  | (Ok p, st) => f ← xrp_allocation_queue (set_alloc f st) filp p; Some (Ok p, f)
  end.

(** The rest; the result and the address copied to the user.  [None]: the
    descriptor has been freed meanwhile. *)
Definition xrp_ioctl_alloc_map (remap : Z) (copy_ok : bool) (f : fstate P) (mm filp size p : Z)
  : option (Z * option Z * fstate P) :=
  a ← st_objs (f_alloc f) !! p;
  x ← vm_mmap remap f mm filp (a_size a) (ulong (ops_offset (st_pool (f_alloc f)) a));
  let '(vaddr, f) := (x : Z * fstate P) in
  if copy_ok then Some (0, Some vaddr, f)
  else y ← vm_munmap f mm vaddr size; Some (- EFAULT, None, (y : Z * fstate P).2).

(** [u]: the size and alignment read from the user. *)
Definition xrp_ioctl_alloc (kz1 kz2 : option Z) (remap : Z) (copy_ok : bool) (f : fstate P) (mm filp : Z) (u : option (Z * Z))
  : option (Z * option Z * fstate P) :=
  match u with
  | None => Some (- EFAULT, None, f)
  | Some (size, align) =>
      x ← xrp_ioctl_alloc_queue kz1 kz2 f filp size align;
      match x with
      | (Err e, f) => Some (- e, None, f)
      | (Ok p, f) => xrp_ioctl_alloc_map remap copy_ok f mm filp size p
      end
  end.

(** [u]: the address read from the user. *)
Definition xrp_ioctl_free (f : fstate P) (mm filp : Z) (u : option Z) : option (Z * fstate P) :=
  match u with
  | None => Some (- EFAULT, f)
  | Some addr =>
      let start := ulong addr in
      match mm_find (f_areas f) mm start with
      | Some a =>
          if (ua_filp a =? filp) && (ua_start a <=? start) && (start <? ua_end a)
          then vm_munmap f mm (ua_start a) (ua_end a - ua_start a)
          else Some (- EINVAL, f)
      | None => Some (- EINVAL, f)
      end
  end.

(** [pm]: the result of [pm_runtime_get_sync], which counts the use even
    when it fails; [kz]: [devm_kzalloc] succeeds. *)
Definition xvp_open (pm : Z) (kz km : bool) (f : fstate P) (filp : Z) : Z * fstate P :=
  let f := add_pm f 1 in
  if pm <? 0 then (pm, f)
  else if kz then
    (0, set_known (set_files f (<[filp := []]> (f_files f))) (xrp_add_known_file bucket km (f_known f) filp))
  else (- ENOMEM, add_pm f (-1)).

(** The busy list goes with the file. *)
Definition xvp_close (f : fstate P) (filp : Z) : option (Z * fstate P) :=
  busy ← f_files f !! filp;
  let f := set_known f (xrp_remove_known_file bucket (f_known f) filp) in
  Some (0, add_pm (lose (set_files f (delete filp (f_files f))) busy) (-1)).
End files.

(** ** Dispatch *)

(** [_IO(type, nr)]: no direction and no size. *)
Definition IO (ty nr : Z) : Z := Z.lor (Z.shiftl ty 8) nr.
Definition XRP_IOCTL_MAGIC := 0x72.
Definition XRP_IOCTL_ALLOC := IO XRP_IOCTL_MAGIC 1.
Definition XRP_IOCTL_FREE := IO XRP_IOCTL_MAGIC 2.
Definition XRP_IOCTL_QUEUE := IO XRP_IOCTL_MAGIC 3.
Definition XRP_IOCTL_QUEUE_NS := IO XRP_IOCTL_MAGIC 4.

(** The handlers work on the state [S] of the device. *)
Definition xvp_ioctl {S : Type} (ioctl_alloc ioctl_free ioctl_submit_sync : S → option (Z * S)) (cmd : Z) (s : S)
  : option (Z * S) :=
  if cmd =? XRP_IOCTL_ALLOC then ioctl_alloc s
  else if cmd =? XRP_IOCTL_FREE then ioctl_free s
  else if (cmd =? XRP_IOCTL_QUEUE) || (cmd =? XRP_IOCTL_QUEUE_NS) then ioctl_submit_sync s
  else Some (- EINVAL, s).

(** ** The invariant of the files *)

Definition busy_refs (m : gmap Z (list Z)) : list Z := concat (map_to_list m).*2.

Lemma busy_delete m k l p : m !! k = Some l → occ p (busy_refs m) = occ p l + occ p (busy_refs (delete k m)).
Proof.
  intros Hk. rewrite <- occ_app. apply occ_perm. unfold busy_refs.
  rewrite <- (insert_id m k l Hk) at 1. rewrite <- insert_delete_eq.
  rewrite map_to_list_insert by apply lookup_delete_eq. done.
Qed.

Lemma busy_insert m k l' p : occ p (busy_refs (<[k := l']> m)) = occ p l' + occ p (busy_refs (delete k m)).
Proof. rewrite (busy_delete _ k l') by apply lookup_insert_eq. by rewrite delete_insert_eq. Qed.

Lemma occ_pos p l : 0 < occ p l ↔ p ∈ l.
Proof.
  unfold occ. split.
  - intros Hl. destruct (filter (p =.) l) as [| q k] eqn:E; [done |].
    assert (q ∈ filter (p =.) l) as Hq by (rewrite E; by left). apply list_elem_of_filter in Hq as [-> Hq]. done.
  - intros Hp. assert (p ∈ filter (p =.) l) as Hq by (by apply list_elem_of_filter).
    destruct (filter (p =.) l); [by apply not_elem_of_nil in Hq | cbn; lia].
Qed.

Lemma occ_cons x y k : occ x (y :: k) = (if decide (x = y) then 1 else 0) + occ x k.
Proof. change (y :: k) with ([y] ++ k). by rewrite occ_app, occ_one. Qed.

Section invariant.
Context `{Arch} {P : Type} `{!AllocOps P} `{!AllocSpec P} `{MMLib} `{!MMSpec}.
Variables (bucket : Z → nat) (pmem : Z).

(** The physical address of the first byte of an area. *)
Definition area_phys (a : uarea) : Z := pmem + Z.shiftl (ua_pgoff a) PAGE_SHIFT.

(** The area maps memory of its allocation only. *)
Definition in_window (objs : gmap Z xrp_allocation) (a : uarea) : Prop :=
  ∀ p, ua_private a = Some p → ∃ x, objs !! p = Some x ∧
    a_start x ≤ area_phys a ∧ area_phys a + (ua_end a - ua_start a) ≤ a_end x.

Record finv (f : fstate P) : Prop := {
  fi_alloc : alloc_inv (f_alloc f);
  fi_base : pool_base (st_pool (f_alloc f)) = pmem;
  fi_refs p : ref_of (f_alloc f) p =
    occ p (busy_refs (f_files f)) + occ p (refs (f_areas f)) + occ p (f_held f) + occ p (f_lost f);
  fi_separate : separate (f_areas f);
  fi_windows : Forall (in_window (st_objs (f_alloc f))) (f_areas f);
}.

(** A state whose allocations are those of [st], up to reference counts, as
    far as they are still there. *)
Definition keeps (st st' : alloc_state P) : Prop :=
  pool_base (st_pool st') = pool_base (st_pool st) ∧
  ∀ p x', st_objs st' !! p = Some x' → ∃ x, st_objs st !! p = Some x ∧ a_key x = a_key x'.

#[local] Instance keeps_preorder : PreOrder keeps.
Proof.
  split; [intros st; split; [done | eauto] |]. intros s1 s2 s3 [B1 K1] [B2 K2]. split; [congruence |].
  intros p x3 E3. destruct (K2 p x3 E3) as (x2 & E2 & ?). destruct (K1 p x2 E2) as (x1 & E1 & ?). exists x1. split; [done | congruence].
Qed.

Lemma get_keeps st p st' : xrp_allocation_get st p = Some st' → keeps st st'.
Proof.
  unfold xrp_allocation_get. intros (a & Ha & [= <-])%bind_Some. split; [done |]. intros q x'. cbn.
  destruct (decide (q = p)) as [-> |]; [rewrite lookup_insert_eq | rewrite lookup_insert_ne by done].
  - intros [= <-]. by exists a.
  - intros E. by exists x'.
Qed.

Lemma put_keeps st p st' : alloc_inv st → xrp_allocation_put st p = Some st' → keeps st st'.
Proof.
  unfold xrp_allocation_put, xrp_free. intros Hi (a & Ha & Hx)%bind_Some.
  assert (∀ r, ∀ q x', <[p := set_ref a r]> (st_objs st) !! q = Some x' → ∃ x, st_objs st !! q = Some x ∧ a_key x = a_key x') as Hk.
  { intros r q x'. destruct (decide (q = p)) as [-> |]; [rewrite lookup_insert_eq | rewrite lookup_insert_ne by done].
    - intros [= <-]. by exists a.
    - intros E. by exists x'. }
  destruct (_ =? 0); [| injection Hx as <-; split; [done | apply Hk]].
  cbn in Hx. rewrite lookup_insert_eq in Hx. injection Hx as <-. split; cbn.
  - eapply (proj2 (pool_free_ok _ (live (mk_alloc_state (st_pool st) (delete p (st_objs st)))) _ _)).
    Unshelve. rewrite same_live_set_ref, <- live_delete by done. destruct Hi. by destruct st.
  - intros q x' E. apply lookup_delete_Some in E as [Hne E]. by apply (Hk _ q x' E).
Qed.

Lemma keeps_window st st' a :
  keeps st st' → (∀ p, ua_private a = Some p → is_Some (st_objs st' !! p)) →
  in_window (st_objs st) a → in_window (st_objs st') a.
Proof.
  intros [_ Hk] Hl Hw p Hp. destruct (Hl p Hp) as [x' E]. destruct (Hk p x' E) as (y & Ey & Hkey).
  destruct (Hw p Hp) as (x & Ex & ?). exists x'. split; [done |].
  assert (x = y) as -> by congruence. injection Hkey as _ E1 E2. unfold a_end in *. by rewrite <- E1, <- E2.
Qed.

Lemma part_window objs a b : part_of b a → in_window objs a → in_window objs b.
Proof.
  intros (_ & _ & Ep & Hs & He & Ho) Hw p Hp. destruct (Hw p) as (x & Ex & ? & ?); [congruence |].
  exists x. unfold area_phys in *. split; [done | lia].
Qed.

Lemma part_refl a : part_of a a.
Proof. repeat split; lia. Qed.

Lemma refs_elem l a p : a ∈ l → ua_private a = Some p → p ∈ refs l.
Proof. intros Ha Hp. apply list_elem_of_omap. by exists a. Qed.

Lemma refs_cons a l : refs (a :: l) = option_list (ua_private a) ++ refs l.
Proof. unfold refs. cbn. by destruct (ua_private a). Qed.

(** The references of a consistent state are to live descriptors. *)
Lemma refs_live st p : alloc_inv st → 0 < ref_of st p → is_Some (st_objs st !! p).
Proof. intros Hi Hr. destruct (ref_of_pos st p Hi Hr) as (x & Hx & _). by eexists. Qed.

(** Any change that keeps the balance of references and only shrinks areas. *)
Lemma finv_update f f' :
  finv f → alloc_inv (f_alloc f') → keeps (f_alloc f) (f_alloc f') →
  (∀ p, ref_of (f_alloc f') p =
    occ p (busy_refs (f_files f')) + occ p (refs (f_areas f')) + occ p (f_held f') + occ p (f_lost f')) →
  separate (f_areas f') → (∀ b, b ∈ f_areas f' → ∃ a, a ∈ f_areas f ∧ part_of b a) →
  finv f'.
Proof.
  intros [Ha Hb Hr Hs Hw] Ha' Hk Hr' Hs' Hp. split; [done | destruct Hk; congruence | done | done |].
  apply list.Forall_forall. intros b Hin. destruct (Hp b Hin) as (a & Hina & Hpart).
  eapply keeps_window; [exact Hk | | eapply part_window; [done |]; by eapply (proj1 (list.Forall_forall _ _)) in Hw].
  intros p Hpr. apply refs_live; [done |]. rewrite (Hr' p).
  assert (0 < occ p (refs (f_areas f'))) by (apply occ_pos; by eapply refs_elem).
  pose proof (occ_nonneg p (busy_refs (f_files f'))). pose proof (occ_nonneg p (f_held f')). pose proof (occ_nonneg p (f_lost f')). lia.
Qed.

(** ** References taken and dropped for areas *)

Lemma each_open_ok l f :
  alloc_inv (f_alloc f) → (∀ p, p ∈ l → 0 < ref_of (f_alloc f) p ∧ ref_of (f_alloc f) p + Z.of_nat (length l) < 2 ^ 32) →
  ∃ st, each xvp_vm_open f l = Some (set_alloc f st) ∧ alloc_inv st ∧ keeps (f_alloc f) st ∧
    ∀ p, ref_of st p = ref_of (f_alloc f) p + occ p l.
Proof.
  revert f. induction l as [| p l IH]; intros f Hi Hl.
  - exists (f_alloc f). split_and!; [by destruct f | done | done |]. intros p. unfold occ. cbn. lia.
  - destruct (Hl p ltac:(by left)) as [Hp Hlt]. cbn [length] in Hlt.
    destruct (ref_get (f_alloc f) p Hi Hp) as (st & E & Hi' & Hr); [lia |].
    assert (xvp_vm_open f p = Some (set_alloc f st)) as E1 by (unfold xvp_vm_open; by rewrite E).
    cbn [each]. rewrite E1. cbn [mbind option_bind].
    destruct (IH (set_alloc f st)) as (st2 & -> & Hi2 & Hk2 & Hr2); [done | |].
    + intros q Hq. destruct (Hl q ltac:(by right)) as [? ?]. cbn [length f_alloc set_alloc] in *. rewrite Hr, occ_one. case_decide; lia.
    + exists st2. split_and!; [done | done | |].
      * etrans; [by eapply get_keeps | exact Hk2].
      * intros q. rewrite Hr2. cbn [f_alloc set_alloc]. rewrite Hr, occ_one, occ_cons. lia.
Qed.

Lemma each_close_ok l f :
  alloc_inv (f_alloc f) → (∀ p, occ p l ≤ ref_of (f_alloc f) p) →
  ∃ st, each xvp_vm_close f l = Some (set_alloc f st) ∧ alloc_inv st ∧ keeps (f_alloc f) st ∧
    ∀ p, ref_of st p = ref_of (f_alloc f) p - occ p l.
Proof.
  revert f. induction l as [| p l IH]; intros f Hi Hl.
  - exists (f_alloc f). split_and!; [by destruct f | done | done |]. intros p. unfold occ. cbn. lia.
  - pose proof (Hl p) as Hp. rewrite occ_cons, decide_True in Hp by done. pose proof (occ_nonneg p l).
    destruct (ref_put (f_alloc f) p Hi) as (st & E & Hi' & Hr); [lia |].
    assert (xvp_vm_close f p = Some (set_alloc f st)) as E1 by (unfold xvp_vm_close; by rewrite E).
    cbn [each]. rewrite E1. cbn [mbind option_bind].
    destruct (IH (set_alloc f st)) as (st2 & -> & Hi2 & Hk2 & Hr2); [done | |].
    + intros q. specialize (Hl q). rewrite occ_cons in Hl. cbn [f_alloc set_alloc]. rewrite Hr, occ_one. lia.
    + exists st2. split_and!; [done | done | |].
      * etrans; [by eapply put_keeps | exact Hk2].
      * intros q. rewrite Hr2. cbn [f_alloc set_alloc]. rewrite Hr, occ_one, occ_cons. lia.
Qed.

(** ** The handlers keep the invariant *)

(** No reference count is close to its limit. *)
Definition room_for (f : fstate P) (n : nat) : Prop := ∀ p, ref_of (f_alloc f) p + Z.of_nat n < 2 ^ 32.

Lemma finv_nonneg (f : fstate P) p :
  0 ≤ occ p (busy_refs (f_files f)) ∧ 0 ≤ occ p (refs (f_areas f)) ∧ 0 ≤ occ p (f_held f) ∧ 0 ≤ occ p (f_lost f).
Proof. auto using occ_nonneg. Qed.

Lemma munmap_ok f mm start len :
  finv f → room_for f (length (refs (um_opened (mm_unmap (f_areas f) mm start len).2))) →
  ∃ st, vm_munmap f mm start len =
      Some ((mm_unmap (f_areas f) mm start len).1, set_areas (set_alloc f st) (um_left (mm_unmap (f_areas f) mm start len).2)) ∧
    finv (set_areas (set_alloc f st) (um_left (mm_unmap (f_areas f) mm start len).2)).
Proof.
  intros Hf Hroom. pose proof Hf as [Ha Hb Hr Hs Hw]. unfold vm_munmap.
  pose proof (mm_unmap_refs (f_areas f) mm start len) as Href. pose proof (mm_unmap_opened (f_areas f) mm start len) as Hop.
  pose proof (mm_unmap_left (f_areas f) mm start len Hs) as [Hsl Hpl].
  destruct (mm_unmap (f_areas f) mm start len) as [ret u]. cbn [fst snd] in *.
  destruct (each_open_ok (refs (um_opened u)) f Ha) as (st1 & -> & Ha1 & Hk1 & Hr1).
  { intros p Hp. split; [| apply Hroom]. apply list_elem_of_omap in Hp as (a & Hin & Hpr).
    destruct (Hop a Hin) as (b & Hb1 & Hb2). rewrite Hr. pose proof (finv_nonneg f p).
    assert (0 < occ p (refs (f_areas f))) by (apply occ_pos; eapply refs_elem; [done | congruence]). lia. }
  cbn [mbind option_bind].
  destruct (each_close_ok (refs (um_closed u)) (set_alloc f st1) Ha1) as (st2 & -> & Ha2 & Hk2 & Hr2).
  { intros p. cbn [f_alloc set_alloc]. rewrite Hr1, Hr. pose proof (finv_nonneg f p).
    specialize (Href p). cbv zeta in Href. cbn [snd] in Href. pose proof (occ_nonneg p (refs (um_left u))). lia. }
  cbn [mbind option_bind]. exists st2. split; [done |].
  apply (finv_update f); cbn; [done | done | by etrans | | done | done].
  intros p. rewrite Hr2. cbn [f_alloc set_alloc]. rewrite Hr1, Hr. specialize (Href p). cbv zeta in Href. cbn [snd] in Href. lia.
Qed.

Lemma dequeue_loop_spec objs paddr size busy :
  (∀ p, p ∈ busy → is_Some (objs !! p)) →
  ∃ r rest, dequeue_loop objs paddr size busy = Some (r, rest) ∧
    match r with
    | None => rest = busy
    | Some p => busy ≡ₚ p :: rest ∧ ∃ a, objs !! p = Some a ∧ a_start a ≤ paddr ∧ phys (paddr + size - a_start a) ≤ a_size a
    end.
Proof.
  induction busy as [| c l IH]; intros Hl; cbn [dequeue_loop]; [by eexists _, _ |].
  destruct (Hl c ltac:(by left)) as [a Ha]. rewrite Ha. cbn [mbind option_bind].
  destruct (Z.leb_spec (a_start a) paddr), (Z.leb_spec (phys (paddr + size - a_start a)) (a_size a)); cbn [andb];
    [eexists _, _; split; [done |]; split; [done |]; by exists a | |  |];
    (destruct IH as (r & rest & -> & Hr); [intros p Hp; apply Hl; by right |]);
    cbn [mbind option_bind fst snd]; eexists _, _; (split; [done |]); (destruct r as [p |]; [| by rewrite Hr]);
    destruct Hr as [-> ?]; (split; [constructor | done]).
Qed.

Lemma busy_elem (m : gmap Z (list Z)) k l p : m !! k = Some l → p ∈ l → p ∈ busy_refs m.
Proof. intros Hk Hp. apply occ_pos. rewrite (busy_delete m k l p Hk). apply occ_pos in Hp. pose proof (occ_nonneg p (busy_refs (delete k m))). lia. Qed.

Lemma busy_live f filp busy p : finv f → f_files f !! filp = Some busy → p ∈ busy → is_Some (st_objs (f_alloc f) !! p).
Proof.
  intros [Ha _ Hr _ _] Hf Hp. apply refs_live; [done |]. rewrite Hr. pose proof (finv_nonneg f p).
  assert (0 < occ p (busy_refs (f_files f))) by (apply occ_pos; by eapply busy_elem). lia.
Qed.

(** A mapping whose offset and length the driver's types can hold. *)
Definition mmap_fits (offset len : Z) : Prop :=
  0 ≤ offset ∧ pmem + offset + len < 2 ^ long_bits ∧ pmem + offset + len < 2 ^ phys_bits ∧ len < 2 ^ 32.

Hypothesis Hpmem : 0 ≤ pmem ∧ pmem mod PAGE_SIZE = 0.

Lemma mmap_paddr offset len :
  mmap_fits offset len → 0 < len →
  phys (ulong (Z.shiftl (ulong (Z.shiftr offset PAGE_SHIFT + Z.shiftr pmem PAGE_SHIFT)) PAGE_SHIFT)) =
  pmem + Z.shiftl (Z.shiftr offset PAGE_SHIFT) PAGE_SHIFT ∧
  pmem + Z.shiftl (Z.shiftr offset PAGE_SHIFT) PAGE_SHIFT ≤ pmem + offset.
Proof.
  intros (F1 & F2 & F3 & F4) Hlen. destruct Hpmem as [Hp Hm]. unfold PAGE_SHIFT, PAGE_SIZE in *.
  rewrite !Z.shiftl_mul_pow2, !Z.shiftr_div_pow2 by lia. change (2 ^ 12) with 4096 in *.
  pose proof (Z.div_mod offset 4096 ltac:(lia)). pose proof (Z.mod_pos_bound offset 4096 ltac:(lia)).
  pose proof (Z.div_mod pmem 4096 ltac:(lia)). pose proof (Z.div_pos offset 4096). pose proof (Z.div_pos pmem 4096).
  rewrite (wrap_small long_bits (_ + _)) by lia. rewrite (wrap_small long_bits) by lia. rewrite phys_small by lia. lia.
Qed.

(** A mapping made through a file moves one allocation of its busy list to
    a new area that lies inside it; when the mapping fails after that, the
    reference is lost. *)
Lemma vm_mmap_ok remap f mm filp busy len offset :
  finv f → f_files f !! filp = Some busy → mmap_fits offset (ALIGN long_bits len PAGE_SIZE) →
  ∃ r f', vm_mmap pmem remap f mm filp len offset = Some (r, f') ∧ finv f'.
Proof.
  intros Hf Hbusy Hfit. unfold vm_mmap. set (L := ALIGN long_bits len PAGE_SIZE) in *.
  destruct (mm_place (f_areas f) mm L offset) as [x | e] eqn:Epl; [| by eexists _, _].
  destruct (mm_place_free _ _ _ _ _ Epl) as (Hx & Hxa & HL & Hxl & Hfree).
  destruct (mmap_paddr offset L Hfit HL) as [Epa Hpa].
  unfold xvp_mmap, xrp_allocation_dequeue. rewrite Hbusy. cbn [mbind option_bind]. rewrite Epa. cbn [vm_start vm_end].
  destruct Hfit as (Hf1 & Hf2 & Hf3 & Hf4).
  replace (x + L - x) with L by lia. rewrite (wrap_small long_bits L), u32_small by lia.
  set (pa := pmem + Z.shiftl (Z.shiftr offset PAGE_SHIFT) PAGE_SHIFT) in *.
  destruct (dequeue_loop_spec (st_objs (f_alloc f)) pa L busy) as (r & rest & -> & Hr).
  { intros p Hp. by eapply busy_live. }
  cbn [mbind option_bind fst snd]. destruct r as [p |].
  - destruct Hr as (Hperm & a & Ha & Hs & He). pose proof Hf as [Hai Hb Hrf Hsep Hw].
    destruct (pool_offset _ _ a (ai_pool _ Hai) (live_elem _ p a Ha)) as (_ & Hbase & _).
    rewrite phys_small in He by lia.
    assert (∀ q, occ q (busy_refs (f_files f)) = occ q [p] + occ q (busy_refs (<[filp := rest]> (f_files f)))) as Hq.
    { intros q. rewrite (busy_delete _ filp busy q Hbusy), busy_insert.
      assert (occ q busy = occ q (p :: rest)) as -> by (by apply occ_perm). rewrite occ_cons, occ_one. lia. }
    cbn [mbind option_bind]. destruct (remap =? 0); (eexists _, _; split; [done |]).
    + split; cbn [f_alloc f_files f_areas f_held f_lost set_areas set_files]; [done | done | | |].
      * intros q. rewrite Hrf, Hq, refs_cons. cbn [ua_private]. change (option_list (Some p)) with [p]. rewrite occ_app. lia.
      * cbn [separate]. split_and!; [unfold ua_start, ua_end; cbn; lia | | done].
        apply list.Forall_forall. intros b Hb1 Hb2. apply (Hfree b Hb1). by symmetry.
      * apply list.Forall_cons. split; [| done]. intros p' [= <-]. exists a.
        unfold area_phys, ua_start, ua_end, a_end. cbn. fold pa. split_and!; [done | done | lia].
    + split; cbn [f_alloc f_files f_areas f_held f_lost lose set_files option_list]; [done | done | | done | done].
      intros q. change (option_list (Some p)) with [p]. rewrite Hrf, Hq, occ_app. lia.
  - cbn [mbind option_bind]. eexists _, _. split; [done |]. subst rest. rewrite insert_id by done. by destruct f.
Qed.
End invariant.
