(* ===== verification/FileTheorems.v ===== *)
(** * Runs of the file operations (xrp-kernel/xvp_main.c)

    Programs open and close files of the driver, ask for memory, map it,
    fork, unmap parts of it and give it up, while requests hold references
    of their own.  In every such run - with mappings whose lengths and offsets
    fit the driver's types - the reference counts are exact, no handler meets
    a descriptor that has been freed, and an area of user memory reaches
    memory of its own allocation only. *)

From stdpp Require Import base tactics list gmap numbers.
From S2P Require Import Prelude Alloc PrivateAlloc AddressMap PageMap Share FileOps.

(** ** The table of known files implements a multiset *)

Inductive known_op := KAdd (km : bool) (filp : Z) | KRemove (filp : Z).

Section known_run.
Variable bucket : Z → nat.

Definition known_step (t : known_files) (o : known_op) : known_files :=
  match o with
  | KAdd km f => xrp_add_known_file bucket km t f
  | KRemove f => xrp_remove_known_file bucket t f
  end.

(** What the table stands for: how often each file was added and not
    removed; an addition without memory and a removal of an unknown file do
    nothing. *)
Definition known_spec (n : Z → Z) (o : known_op) : Z → Z :=
  match o with
  | KAdd km f => λ g, n g + (if km && (g =? f) then 1 else 0)
  | KRemove f => λ g, n g - (if (g =? f) && (0 <? n f) then 1 else 0)
  end.

Lemma known_count_run ops t n :
  (∀ g, known_count bucket t g = n g) →
  ∀ g, known_count bucket (foldl known_step t ops) g = foldl known_spec n ops g.
Proof.
  revert t n. induction ops as [| o ops IH]; intros t n Ht g; [apply Ht |]. cbn [foldl]. apply IH. clear g. intros g.
  destruct o as [[|] f | f]; cbn [known_step known_spec andb].
  - rewrite known_count_add. by rewrite Ht.
  - rewrite Z.add_0_r. exact (Ht g).
  - rewrite known_count_remove. by rewrite !Ht.
Qed.

(** For every hash function, and whatever files are opened and closed
    in whatever order, the table of known files answers exactly for the
    files that were added, with memory to record them, and not removed since:
    files that share a bucket do not disturb each other. *)
Theorem known_files_exact ops filp :
  xrp_is_known_file bucket (foldl known_step ∅ ops) filp = (0 <? foldl known_spec (λ _, 0) ops filp).
Proof. rewrite known_count_is. f_equal. by apply known_count_run. Qed.
End known_run.

(** ** Steps *)

Section steps.
Context `{Arch} {P : Type} `{!AllocOps P} `{!AllocSpec P} `{MMLib} `{!MMSpec}.
Variables (bucket : Z → nat) (pmem : Z).

(** The area a fork or a copy of an area adds. *)
Definition copy_area (mm : Z) (a : uarea) : uarea := mk_uarea mm (ua_vma a) (ua_filp a) (ua_pgoff a) (ua_private a).

Inductive fstep : fstate P → fstate P → Prop :=
| fs_open pm kz km f filp r f' :
    f_files f !! filp = None → xvp_open bucket pm kz km f filp = (r, f') → fstep f f'
| fs_close f filp r f' : xvp_close bucket f filp = Some (r, f') → fstep f f'
| fs_queue kz1 kz2 f filp size align r f' :
    kz_fresh (ops_heap (st_pool (f_alloc f))) kz1 kz2 → valid_request size align →
    xrp_ioctl_alloc_queue kz1 kz2 f filp size align = Some (r, f') → fstep f f'
| fs_mmap remap f mm filp len offset r f' :
    mmap_fits pmem offset (ALIGN long_bits len PAGE_SIZE) →
    vm_mmap pmem remap f mm filp len offset = Some (r, f') → fstep f f'
| fs_munmap f mm start len r f' :
    room_for f (length (refs (um_opened (mm_unmap (f_areas f) mm start len).2))) →
    vm_munmap f mm start len = Some (r, f') → fstep f f'
| fs_fork f a mm f' :
    a ∈ f_areas f → (∀ b, b ∈ f_areas f → ua_mm b = mm → ua_end a ≤ ua_start b ∨ ua_end b ≤ ua_start a) →
    room_for f 1 → each xvp_vm_open f (option_list (ua_private a)) = Some f' →
    fstep f (set_areas f' (copy_area mm a :: f_areas f'))
| fs_hold f a p st :
    a ∈ f_areas f → ua_private a = Some p → room_for f 1 → xrp_allocation_get (f_alloc f) p = Some st →
    fstep f (set_held (set_alloc f st) (p :: f_held f))
| fs_copy kz1 kz2 f size align p st :
    kz_fresh (ops_heap (st_pool (f_alloc f))) kz1 kz2 → valid_request size align →
    xrp_allocate kz1 kz2 (f_alloc f) size align = (Ok p, st) →
    fstep f (set_held (set_alloc f st) (p :: f_held f))
| fs_drop f p l1 l2 st :
    f_held f = l1 ++ p :: l2 → xrp_allocation_put (f_alloc f) p = Some st →
    fstep f (set_held (set_alloc f st) (l1 ++ l2)).

Hypothesis Hpmem : 0 ≤ pmem ∧ pmem mod PAGE_SIZE = 0.
Notation finv := (finv pmem).

(** A new allocation with one reference recorded somewhere. *)
Lemma allocate_finv kz1 kz2 f size align p st f' :
  finv f → kz_fresh (ops_heap (st_pool (f_alloc f))) kz1 kz2 → valid_request size align →
  xrp_allocate kz1 kz2 (f_alloc f) size align = (Ok p, st) →
  f_alloc f' = st → f_areas f' = f_areas f →
  (∀ q, occ q (busy_refs (f_files f')) + occ q (f_held f') + occ q (f_lost f') =
        occ q (busy_refs (f_files f)) + occ q (f_held f) + occ q (f_lost f) + occ q [p]) → finv f'.
Proof.
  intros [Ha Hb Hr Hs Hw] Hkz Hv E Est Ear Hq.
  destruct (allocate_inv _ _ _ _ _ _ _ Ha Hkz Hv E) as (Hi & Hnone & x & Eo & Href & _).
  destruct (allocate_placed _ _ _ _ _ _ _ Ha Hkz Hv E) as [Hbase _].
  split; rewrite ?Est, ?Ear; [done | congruence | | done |].
  - intros q. specialize (Hq q). specialize (Hr q).
    assert (ref_of st q = ref_of (f_alloc f) q + occ q [p]) as ->; [| lia].
    unfold ref_of. rewrite Eo, occ_one. case_decide as Eq.
    + subst q. rewrite lookup_insert_eq, Hnone. cbn. lia.
    + rewrite lookup_insert_ne by done. lia.
  - eapply list.Forall_impl; [exact Hw |]. intros a Hin q Hpq. destruct (Hin q Hpq) as (y & Ey & ?).
    exists y. split; [| done]. rewrite Eo, lookup_insert_ne; [done | congruence].
Qed.

Lemma alloc_err_keeps kz1 kz2 f size align e st :
  finv f → kz_fresh (ops_heap (st_pool (f_alloc f))) kz1 kz2 → valid_request size align →
  xrp_allocate kz1 kz2 (f_alloc f) size align = (Err e, st) → finv (set_alloc f st).
Proof.
  intros [Ha Hb Hr Hs Hw] Hkz Hv E. destruct (allocate_err_inv _ _ _ _ _ _ _ Ha Hkz Hv E) as [Hi Eo].
  pose proof (allocate_err_base _ _ _ _ _ _ _ Ha Hkz Hv E).
  split; cbn; [done | congruence | | done | by rewrite Eo]. intros q. rewrite <- Hr. unfold ref_of. by rewrite Eo.
Qed.

Lemma queue_finv kz1 kz2 f filp size align r f' :
  finv f → kz_fresh (ops_heap (st_pool (f_alloc f))) kz1 kz2 → valid_request size align →
  xrp_ioctl_alloc_queue kz1 kz2 f filp size align = Some (r, f') → finv f'.
Proof.
  intros Hf Hkz Hv. unfold xrp_ioctl_alloc_queue, xrp_allocation_queue.
  destruct (xrp_allocate _ _ _ _ _) as [[p | e] st] eqn:E.
  - cbn. destruct (f_files f !! filp) as [busy |] eqn:Eb; [| done]. intros [= <- <-].
    eapply allocate_finv; [done.. |]. intros q. cbn.
    rewrite busy_insert, (busy_delete _ _ _ q Eb), occ_cons, occ_one. lia.
  - intros [= <- <-]. by eapply alloc_err_keeps.
Qed.

(** Changes that touch no reference. *)
Lemma finv_same f f' :
  finv f → f_alloc f' = f_alloc f → f_areas f' = f_areas f → f_held f' = f_held f →
  (∀ q, occ q (busy_refs (f_files f')) + occ q (f_lost f') = occ q (busy_refs (f_files f)) + occ q (f_lost f)) → finv f'.
Proof.
  intros [Ha Hb Hr Hs Hw] E1 E2 E3 E4. split; rewrite ?E1, ?E2, ?E3; try done. intros q. rewrite Hr. specialize (E4 q). lia.
Qed.

Lemma open_finv pm kz km f filp r f' :
  finv f → f_files f !! filp = None → xvp_open bucket pm kz km f filp = (r, f') → finv f'.
Proof.
  intros Hf Hn. unfold xvp_open. destruct (pm <? 0); [intros [= <- <-]; by eapply finv_same |].
  destruct kz; intros [= <- <-]; (eapply finv_same; [exact Hf | done.. |]); intros q; cbn; [| done].
  by rewrite busy_insert, delete_id.
Qed.

Lemma close_finv f filp r f' : finv f → xvp_close bucket f filp = Some (r, f') → finv f'.
Proof.
  intros Hf. unfold xvp_close. destruct (f_files f !! filp) as [busy |] eqn:E; [| done]. intros [= <- <-].
  eapply finv_same; [exact Hf | done.. |]. intros q. cbn. rewrite occ_app, (busy_delete _ _ _ q E). lia.
Qed.

Lemma separate_elem l a : separate l → a ∈ l → ua_start a < ua_end a.
Proof. induction l as [| b l IH]; [by intros _ ?%not_elem_of_nil |]. intros (? & _ & Hl) [-> | Ha]%elem_of_cons; auto. Qed.

Lemma area_ref f a p : finv f → a ∈ f_areas f → ua_private a = Some p → 0 < ref_of (f_alloc f) p.
Proof.
  intros [_ _ Hr _ _] Ha Hp. rewrite Hr. pose proof (finv_nonneg f p).
  assert (0 < occ p (refs (f_areas f))) by (apply occ_pos; by eapply refs_elem). lia.
Qed.

(** References taken by a request or dropped by it. *)
Lemma held_finv f st l :
  finv f → alloc_inv st → keeps (f_alloc f) st →
  (∀ q, ref_of st q - ref_of (f_alloc f) q = occ q l - occ q (f_held f)) → finv (set_held (set_alloc f st) l).
Proof.
  intros Hf Hi Hk Hq. pose proof Hf as [_ _ Hr Hs _]. apply (finv_update pmem f); cbn; [done | done | done | | done |].
  - intros q. specialize (Hq q). specialize (Hr q). lia.
  - intros b Hb. exists b. split; [done | apply part_refl].
Qed.

Lemma hold_finv f a p st :
  finv f → a ∈ f_areas f → ua_private a = Some p → room_for f 1 → xrp_allocation_get (f_alloc f) p = Some st →
  finv (set_held (set_alloc f st) (p :: f_held f)).
Proof.
  intros Hf Ha Hp Hroom E. pose proof (area_ref f a p Hf Ha Hp) as Hpos.
  destruct (ref_get (f_alloc f) p (fi_alloc _ _ Hf) Hpos ltac:(apply Hroom)) as (st' & E' & Hi & Hr). simplify_eq.
  apply held_finv; [done | done | by eapply get_keeps |]. intros q. rewrite Hr, occ_one, occ_cons. lia.
Qed.

Lemma drop_finv f p l1 l2 st :
  finv f → f_held f = l1 ++ p :: l2 → xrp_allocation_put (f_alloc f) p = Some st →
  finv (set_held (set_alloc f st) (l1 ++ l2)).
Proof.
  intros Hf Eh E. pose proof (finv_nonneg f p) as Hn.
  assert (0 < ref_of (f_alloc f) p) as Hpos.
  { rewrite (fi_refs _ _ Hf). rewrite Eh, occ_app, occ_cons, decide_True in * by done.
    pose proof (occ_nonneg p l1). pose proof (occ_nonneg p l2). lia. }
  destruct (ref_put (f_alloc f) p (fi_alloc _ _ Hf) Hpos) as (st' & E' & Hi & Hr). simplify_eq.
  apply held_finv; [done | done | eapply put_keeps; [apply Hf | done] |].
  intros q. rewrite Hr, Eh, occ_one, !occ_app, occ_cons. lia.
Qed.

Lemma fork_finv f a mm f' :
  finv f → a ∈ f_areas f → (∀ b, b ∈ f_areas f → ua_mm b = mm → ua_end a ≤ ua_start b ∨ ua_end b ≤ ua_start a) →
  room_for f 1 → each xvp_vm_open f (option_list (ua_private a)) = Some f' →
  finv (set_areas f' (copy_area mm a :: f_areas f')).
Proof.
  intros Hf Ha Hd Hroom E. pose proof Hf as [Hi Hb Hr Hs Hw].
  destruct (each_open_ok (option_list (ua_private a)) f Hi) as (st & E' & Hi' & Hk & Hr').
  { intros p Hp. destruct (ua_private a) as [q |] eqn:Eq; [| by apply not_elem_of_nil in Hp].
    apply list_elem_of_singleton in Hp as ->. split; [by eapply area_ref | apply Hroom]. }
  rewrite E' in E. injection E as <-.
  assert (finv (set_held (set_alloc f st) (option_list (ua_private a) ++ f_held f))) as Hf2.
  { apply held_finv; [done.. |]. intros q. rewrite Hr', occ_app. lia. }
  destruct Hf2 as [_ Hb2 Hr2 _ Hw2]. cbn in *. split; cbn; [done | done | | |].
  - intros q. rewrite Hr2, refs_cons, !occ_app. cbn [copy_area ua_private]. lia.
  - split_and!; [by apply (separate_elem _ a Hs) | | done]. apply list.Forall_forall. intros b Hin Hmm. apply (Hd b Hin). by symmetry.
  - constructor; [| done]. by apply (proj1 (list.Forall_forall _ _) Hw2 a).
Qed.

Lemma munmap_finv f mm start len r f' :
  finv f → room_for f (length (refs (um_opened (mm_unmap (f_areas f) mm start len).2))) →
  vm_munmap f mm start len = Some (r, f') → finv f'.
Proof. intros Hf Hr E. destruct (munmap_ok pmem f mm start len Hf Hr) as (st & E' & Hi). rewrite E' in E. by injection E as _ <-. Qed.

Lemma mmap_finv remap f mm filp len offset r f' :
  finv f → mmap_fits pmem offset (ALIGN long_bits len PAGE_SIZE) →
  vm_mmap pmem remap f mm filp len offset = Some (r, f') → finv f'.
Proof.
  intros Hf Hfit E. destruct (f_files f !! filp) as [busy |] eqn:Eb.
  - destruct (vm_mmap_ok pmem Hpmem remap f mm filp busy len offset Hf Eb Hfit) as (r2 & f2 & E2 & ?). congruence.
  - revert E. unfold vm_mmap, xvp_mmap, xrp_allocation_dequeue. rewrite Eb. cbn.
    destruct (mm_place _ _ _ _); [done |]. by intros [= _ <-].
Qed.

Lemma fstep_finv f f' : fstep f f' → finv f → finv f'.
Proof.
  destruct 1; intros Hf; eauto using open_finv, close_finv, queue_finv, mmap_finv, munmap_finv, fork_finv, hold_finv, drop_finv.
  eapply allocate_finv; [done.. |]. intros q. cbn. rewrite occ_one, occ_cons. lia.
Qed.

Lemma frun_finv f f' : rtc fstep f f' → finv f → finv f'.
Proof. induction 1; eauto using fstep_finv. Qed.

(** A freshly probed device. *)
Lemma init_finv st : alloc_inv st → st_objs st = ∅ → pool_base (st_pool st) = pmem → finv (mk_f st ∅ ∅ [] 0 [] []).
Proof.
  intros Hi E Hb. split; cbn; [done | done | | done | constructor].
  intros p. unfold ref_of. by rewrite E.
Qed.

(** ** Theorems about runs *)

Definition probed (st : alloc_state P) : fstate P := mk_f st ∅ ∅ [] 0 [] [].

(** C7: in every run of the file operations on a device whose memory starts
    at a page boundary - opening, closing, allocating sizes the sums of the
    allocator represent, mapping lengths and offsets that fit the driver's
    types ([mmap_fits]; see [mmap_length_truncated] and
    [mmap_offset_truncated] for others), forking, unmapping whole areas or
    parts, with requests holding references meanwhile, and no reference count
    at its limit - an area of user memory maps memory of one live allocation
    and no byte outside it, and two areas, of any processes, that reach the
    same byte belong to the same allocation. *)
Theorem files_isolated st f a p :
  alloc_inv st → st_objs st = ∅ → pool_base (st_pool st) = pmem → rtc fstep (probed st) f →
  a ∈ f_areas f → ua_private a = Some p →
  (∃ x, st_objs (f_alloc f) !! p = Some x ∧ 1 ≤ a_ref x ∧
     a_start x ≤ area_phys pmem a ∧ area_phys pmem a + (ua_end a - ua_start a) ≤ a_end x) ∧
  ∀ b q y, b ∈ f_areas f → ua_private b = Some q →
    area_phys pmem a ≤ y < area_phys pmem a + (ua_end a - ua_start a) →
    area_phys pmem b ≤ y < area_phys pmem b + (ua_end b - ua_start b) → p = q.
Proof.
  intros Hi He Hb Hrun Ha Hp. pose proof (frun_finv _ _ Hrun (init_finv st Hi He Hb)) as Hf.
  pose proof Hf as [Hal _ Hr _ Hw]. rewrite list.Forall_forall in Hw.
  destruct (Hw a Ha p Hp) as (x & Ex & Hx1 & Hx2). split.
  - exists x. pose proof (ai_ref _ Hal _ _ Ex) as Href. cbn in Href. split_and!; [done | lia | done | done].
  - intros b q y Hb1 Hq Hy1 Hy2. destruct (Hw b Hb1 q Hq) as (z & Ez & ? & ?).
    destruct (decide (p = q)) as [| Hne]; [done |]. exfalso.
    apply (live_disjoint _ p q x z y Hal Ex Ez Hne); lia.
Qed.

(** The two ways a step can forget references: closing a file forgets its
    busy list, and a mapping that fails after the allocation has left the
    busy list ([remap_pfn_range] fails) forgets that one. *)
Definition forgets (f f' : fstate P) (l : list Z) : Prop :=
  (∃ filp, xvp_close bucket f filp = Some (0, f') ∧ f_files f !! filp = Some l) ∨
  (∃ remap mm filp len offset p, remap ≠ 0 ∧ l = [p] ∧ (∃ busy, f_files f !! filp = Some busy ∧ p ∈ busy) ∧
     vm_mmap pmem remap f mm filp len offset = Some (ulong remap, f')).

Lemma each_lost (h : fstate P → Z → option (fstate P)) f l f' :
  (∀ g p g', h g p = Some g' → f_lost g' = f_lost g) → each h f l = Some f' → f_lost f' = f_lost f.
Proof.
  intros Hh. revert f. induction l as [| p l IH]; intros f; cbn [each]; [by intros [= <-] |].
  intros (g & E & Hg)%bind_Some. rewrite (IH g Hg). by eapply Hh.
Qed.

Lemma open_lost (g : fstate P) p g' : xvp_vm_open g p = Some g' → f_lost g' = f_lost g.
Proof. unfold xvp_vm_open. by intros (st & _ & [= <-])%bind_Some. Qed.
Lemma close_lost (g : fstate P) p g' : xvp_vm_close g p = Some g' → f_lost g' = f_lost g.
Proof. unfold xvp_vm_close. by intros (st & _ & [= <-])%bind_Some. Qed.

Lemma dequeue_loop_elem objs pa size l p rest : dequeue_loop objs pa size l = Some (Some p, rest) → p ∈ l.
Proof.
  revert rest. induction l as [| c l IH]; intros rest; cbn [dequeue_loop]; [done |].
  intros (a & _ & Hx)%bind_Some. destruct (_ && _); [injection Hx as -> _; by left |].
  apply bind_Some in Hx as ([r k] & E & [= -> _]). right. by eapply IH.
Qed.

Lemma mmap_lost remap f mm filp len offset r f' :
  vm_mmap pmem remap f mm filp len offset = Some (r, f') → f_lost f' = f_lost f ∨ ∃ l, forgets f f' l ∧ f_lost f' = l ++ f_lost f.
Proof.
  intros E. pose proof E as Ec. revert E. unfold vm_mmap. destruct (mm_place _ _ _ _) as [x | e]; [| intros [= _ <-]; by left].
  unfold xvp_mmap, xrp_allocation_dequeue. destruct (f_files f !! filp) as [busy |] eqn:Eb; [| done]. cbn [mbind option_bind].
  destruct (dequeue_loop _ _ _ busy) as [[[p |] rest] |] eqn:Ed; cbn [mbind option_bind fst snd]; [| | done].
  - destruct (Z.eqb_spec remap 0); intros [= Er <-]; [by left |]. right. exists [p]. split; [| done]. right.
    exists remap, mm, filp, len, offset, p. rewrite Ec, <- Er. split_and!; [done | done | | done].
    exists busy. split; [done | by eapply dequeue_loop_elem].
  - intros [= _ <-]. by left.
Qed.

Lemma fstep_lost f f' : fstep f f' → f_lost f' = f_lost f ∨ ∃ l, forgets f f' l ∧ f_lost f' = l ++ f_lost f.
Proof.
  destruct 1 as [pm kz km f filp r f' _ E | f filp r f' E | kz1 kz2 f filp size align r f' _ _ E
    | remap f mm filp len offset r f' _ E | f mm start len r f' _ E | f a mm f' _ _ _ E | | |]; try by left.
  - left. revert E. unfold xvp_open. destruct (pm <? 0), kz; by intros [= _ <-].
  - right. pose proof E as Ec. revert E. unfold xvp_close. destruct (f_files f !! filp) as [busy |] eqn:Eb; [| done]. intros [= <- <-].
    exists busy. split; [| done]. left. exists filp. by split.
  - left. revert E. unfold xrp_ioctl_alloc_queue, xrp_allocation_queue. destruct (xrp_allocate _ _ _ _ _) as [[p | e] st]; [| by intros [= _ <-]].
    cbn. destruct (f_files f !! filp); [| done]. by intros [= _ <-].
  - by eapply mmap_lost.
  - left. revert E. unfold vm_munmap. destruct (mm_unmap _ _ _ _) as [ret u].
    intros (g & E1 & (h & E2 & [= _ <-])%bind_Some)%bind_Some. cbn.
    rewrite (each_lost _ _ _ _ close_lost E2). exact (each_lost _ _ _ _ open_lost E1).
  - left. exact (each_lost _ _ _ _ open_lost E).
Qed.

(** C14: along every run (as in [files_isolated]) the reference count of an
    allocation is the number of places that refer to it - busy lists, areas,
    requests in progress, and the references forgotten on the way - and its
    memory goes back to the pool exactly when there is none.  A step forgets
    references only when it closes a file whose busy list is not empty or
    when a mapping fails in [remap_pfn_range], and then exactly the busy list
    or the one taken from it. *)
Theorem files_counts_exact st f p :
  alloc_inv st → st_objs st = ∅ → pool_base (st_pool st) = pmem → rtc fstep (probed st) f →
  let places := busy_refs (f_files f) ++ refs (f_areas f) ++ f_held f ++ f_lost f in
  ref_of (f_alloc f) p = occ p places ∧ (st_objs (f_alloc f) !! p = None ↔ p ∉ places) ∧
  f_lost (probed st) = [] ∧
  ∀ f', fstep f f' → f_lost f' = f_lost f ∨ ∃ l, forgets f f' l ∧ f_lost f' = l ++ f_lost f.
Proof.
  intros Hi He Hb Hrun. pose proof (frun_finv _ _ Hrun (init_finv st Hi He Hb)) as [Hal _ Hr _ _]. cbv zeta.
  assert (ref_of (f_alloc f) p = occ p (busy_refs (f_files f) ++ refs (f_areas f) ++ f_held f ++ f_lost f)) as E
    by (rewrite Hr, !occ_app; lia).
  split; [done |]. split; [| split; [done | apply fstep_lost]]. rewrite <- occ_pos, <- E. split.
  - intros Hn. unfold ref_of. rewrite Hn. cbn. lia.
  - intros Hn. destruct (st_objs (f_alloc f) !! p) as [x |] eqn:Ex; [| done].
    pose proof (ai_ref _ Hal _ _ Ex) as Hx. cbn in Hx. unfold ref_of in Hn. rewrite Ex in Hn. cbn in Hn. lia.
Qed.

(** No handler of an open file meets a descriptor that has been freed:
    after every run allocation, mapping, unmapping, [XRP_IOCTL_FREE] and
    closing the file have a result. *)
Theorem files_no_use_after_free st f filp :
  alloc_inv st → st_objs st = ∅ → pool_base (st_pool st) = pmem → rtc fstep (probed st) f →
  is_Some (f_files f !! filp) →
  (∀ kz1 kz2 size align, is_Some (xrp_ioctl_alloc_queue kz1 kz2 f filp size align)) ∧
  (∀ remap mm len offset, mmap_fits pmem offset (ALIGN long_bits len PAGE_SIZE) →
     is_Some (vm_mmap pmem remap f mm filp len offset)) ∧
  (∀ mm start len, room_for f (length (refs (um_opened (mm_unmap (f_areas f) mm start len).2))) →
     is_Some (vm_munmap f mm start len)) ∧
  (∀ mm u, (∀ start len, room_for f (length (refs (um_opened (mm_unmap (f_areas f) mm start len).2)))) →
     is_Some (xrp_ioctl_free f mm filp u)) ∧
  is_Some (xvp_close bucket f filp).
Proof.
  intros Hi He Hb Hrun [busy Eb]. pose proof (frun_finv _ _ Hrun (init_finv st Hi He Hb)) as Hf.
  assert (∀ mm start len, room_for f (length (refs (um_opened (mm_unmap (f_areas f) mm start len).2))) →
     is_Some (vm_munmap f mm start len)) as Hun.
  { intros mm start len Hroom. destruct (munmap_ok pmem f mm start len Hf Hroom) as (st' & -> & _). by eexists. }
  split_and!; [| | done | |].
  - intros kz1 kz2 size align. unfold xrp_ioctl_alloc_queue, xrp_allocation_queue.
    destruct (xrp_allocate _ _ _ _ _) as [[p | e] st']; cbn; rewrite ?Eb; by eexists.
  - intros remap mm len offset Hfit.
    destruct (vm_mmap_ok pmem Hpmem remap f mm filp busy len offset Hf Eb Hfit) as (r & f' & -> & _). by eexists.
  - intros mm [addr |] Hroom; cbn; [| by eexists]. destruct (mm_find _ _ _) as [a |]; [| by eexists].
    destruct (_ && _); [by apply Hun | by eexists].
  - unfold xvp_close. rewrite Eb. by eexists.
Qed.

(** ** Allocating and freeing through a file *)

Lemma ALIGN_multiple w v : 12 ≤ w → 0 ≤ v → v + PAGE_SIZE ≤ 2 ^ w → v mod PAGE_SIZE = 0 → ALIGN w v PAGE_SIZE = v.
Proof.
  intros Hw Hv Hb Hm. change PAGE_SIZE with (2 ^ 12) in *. rewrite ALIGN_pow2 by lia.
  apply Z.mod_divide in Hm as [k ->]; [| done].
  rewrite <- Z.add_sub_assoc, Z.div_add_l by lia. change ((2 ^ 12 - 1) / 2 ^ 12) with 0. lia.
Qed.

Lemma shift_page x : x mod PAGE_SIZE = 0 → Z.shiftl (Z.shiftr x PAGE_SHIFT) PAGE_SHIFT = x.
Proof.
  intros Hm. rewrite Z.shiftl_mul_pow2, Z.shiftr_div_pow2 by done. change (2 ^ PAGE_SHIFT) with PAGE_SIZE.
  pose proof (Z.div_mod x PAGE_SIZE ltac:(done)). lia.
Qed.

Lemma page_align_nonneg v : 0 ≤ page_align v.
Proof. unfold page_align, ALIGN. apply Z.land_nonneg. left. apply u32_range. Qed.

(** The memory of the allocation just made is what gets mapped. *)
Lemma mmap_new f mm filp busy p a x :
  finv f → f_files f !! filp = Some (p :: busy) → st_objs (f_alloc f) !! p = Some a →
  a_start a mod PAGE_SIZE = 0 → a_size a mod PAGE_SIZE = 0 → 0 ≤ a_size a < 2 ^ 32 - PAGE_SIZE →
  a_end a < 2 ^ long_bits → a_end a < 2 ^ phys_bits →
  mm_place (f_areas f) mm (a_size a) (a_start a - pmem) = Ok x →
  vm_mmap pmem 0 f mm filp (a_size a) (ulong (ops_offset (st_pool (f_alloc f)) a)) =
  Some (x, set_areas (set_files f (<[filp := busy]> (f_files f)))
             (mk_uarea mm (mk_vma x (x + a_size a)) filp (Z.shiftr (a_start a - pmem) PAGE_SHIFT) (Some p) :: f_areas f)).
Proof.
  intros Hf Hbusy Ha Hst Hsz Hn He1 He2 Hpl. pose proof (fi_alloc _ _ Hf) as Hal.
  destruct (pool_offset _ _ a (ai_pool _ Hal) (live_elem _ p a Ha)) as (Eo & Hbase & _).
  rewrite (fi_base _ _ Hf) in *. unfold a_end in *.
  assert (2 ^ 32 ≤ 2 ^ long_bits) as Hlb by (destruct long_bits_cases as [-> | ->]; lia).
  rewrite Eo, (wrap_small long_bits) by lia.
  assert (ALIGN long_bits (a_size a) PAGE_SIZE = a_size a) as EL.
  { apply ALIGN_multiple; [destruct long_bits_cases as [-> | ->]; lia | lia | | done].
    unfold PAGE_SIZE in *. lia. }
  destruct (mm_place_free _ _ _ _ _ Hpl) as (_ & _ & Hpos & _).
  unfold vm_mmap. rewrite EL, Hpl. unfold xvp_mmap, xrp_allocation_dequeue. rewrite Hbusy. cbn [mbind option_bind].
  destruct (mmap_paddr pmem Hpmem (a_start a - pmem) (a_size a)) as [-> _]; [| done |].
  { unfold mmap_fits. split_and!; [lia | lia | lia | unfold PAGE_SIZE in *; lia]. }
  rewrite shift_page.
  2: { rewrite Zminus_mod, Hst. destruct Hpmem as [_ ->]. done. }
  cbn [vm_start vm_end dequeue_loop]. rewrite Ha. cbn [mbind option_bind].
  replace (x + a_size a - x) with (a_size a) by lia. rewrite (wrap_small long_bits (a_size a)), u32_small by (unfold PAGE_SIZE in *; lia).
  replace (pmem + (a_start a - pmem)) with (a_start a) by lia. rewrite Z.leb_refl.
  replace (a_start a + a_size a - a_start a) with (a_size a) by lia. rewrite phys_small by lia. rewrite Z.leb_refl.
  cbn. done.
Qed.

(** [XRP_IOCTL_FREE] with an address of the newest area unmaps that area. *)
Lemma find_newest l (a : uarea) v :
  separate (a :: l) → ua_start a ≤ v < ua_end a → mm_find (a :: l) (ua_mm a) v = Some a.
Proof.
  intros (Hpos & Hap & Hsep) Hv. destruct (mm_find (a :: l) (ua_mm a) v) as [b |] eqn:E.
  - destruct (mm_find_some _ _ _ _ E) as (Hin & Hmm & Hlt & Hmin). apply elem_of_cons in Hin as [-> | Hin]; [done |].
    specialize (Hmin a ltac:(by left) eq_refl ltac:(lia)). pose proof (separate_elem l b Hsep Hin).
    rewrite list.Forall_forall in Hap. destruct (Hap b Hin); [done | lia | lia].
  - pose proof (mm_find_none _ _ _ a E ltac:(by left) eq_refl). lia.
Qed.

Lemma free_newest f a l filp v st :
  f_areas f = a :: l → separate (a :: l) → ua_filp a = filp → ua_start a ≤ v < ua_end a →
  0 ≤ ua_start a → ua_start a mod PAGE_SIZE = 0 → (ua_end a - ua_start a) mod PAGE_SIZE = 0 →
  ua_end a < 2 ^ long_bits → ua_end a - ua_start a + PAGE_SIZE ≤ 2 ^ long_bits →
  each xvp_vm_close f (option_list (ua_private a)) = Some (set_alloc f st) →
  xrp_ioctl_free f (ua_mm a) filp (Some v) = Some (0, set_areas (set_alloc f st) l).
Proof.
  intros Hl Hs Hfp Hv H0' Hm1 Hm2 Hend Hlen Hc. unfold xrp_ioctl_free. unfold PAGE_SIZE in Hlen.
  assert (0 < 2 ^ long_bits) by lia. rewrite (wrap_small long_bits v) by lia. rewrite Hl, (find_newest l a v Hs Hv).
  rewrite (proj2 (Z.eqb_eq _ _)), (proj2 (Z.leb_le _ _)), (proj2 (Z.ltb_lt _ _)) by lia. cbn [andb].
  unfold vm_munmap. rewrite Hl.
  pose proof (mm_unmap_area [] a l (ua_end a - ua_start a) Hs) as Hu. cbn [app] in Hu. rewrite Hu; [| done | lia | done | lia |].
  2: { rewrite ALIGN_multiple; [lia | destruct long_bits_cases as [-> | ->]; lia | lia | unfold PAGE_SIZE; lia | done]. }
  cbn [um_opened um_closed um_left]. change (refs []) with (@nil Z). cbn [each mbind option_bind].
  assert (refs [a] = option_list (ua_private a)) as -> by (by rewrite refs_cons, app_nil_r). by rewrite Hc.
Qed.

(** The area a successful [XRP_IOCTL_ALLOC] adds. *)
Definition new_area (mm filp x p : Z) (a : xrp_allocation) : uarea :=
  mk_uarea mm (mk_vma x (x + a_size a)) filp (Z.shiftr (a_start a - pmem) PAGE_SHIFT) (Some p).

Lemma new_area_phys mm filp x p a :
  a_start a mod PAGE_SIZE = 0 → area_phys pmem (new_area mm filp x p a) = a_start a.
Proof.
  intros Hal. unfold area_phys. cbn [new_area ua_pgoff]. rewrite shift_page; [lia |].
  rewrite Zminus_mod, Hal. by destruct Hpmem as [_ ->].
Qed.

Lemma new_area_fits st p a :
  alloc_inv st → pool_base (st_pool st) = pmem → st_objs st !! p = Some a → a_size a mod PAGE_SIZE = 0 →
  0 ≤ a_size a < 2 ^ 32 - PAGE_SIZE → a_end a < 2 ^ long_bits → a_end a < 2 ^ phys_bits →
  mmap_fits pmem (ulong (ops_offset (st_pool st) a)) (ALIGN long_bits (a_size a) PAGE_SIZE).
Proof.
  intros Hi Hbp Ha Hszm Hn He1 He2.
  destruct (pool_offset _ _ a (ai_pool _ Hi) (live_elem _ p a Ha)) as (Eof & Hbase & _). rewrite Hbp in *.
  assert (2 ^ 32 ≤ 2 ^ long_bits) by (destruct long_bits_cases as [-> | ->]; lia). unfold a_end, PAGE_SIZE in *.
  rewrite Eof, wrap_small by lia.
  rewrite ALIGN_multiple; [| destruct long_bits_cases as [-> | ->]; lia | lia | unfold PAGE_SIZE; lia | done].
  unfold mmap_fits. lia.
Qed.

Lemma ioctl_alloc_ok f mm filp busy kz1 kz2 size align p a st x :
  finv f → f_files f !! filp = Some busy →
  kz_fresh (ops_heap (st_pool (f_alloc f))) kz1 kz2 → valid_request size align → page_align size < 2 ^ 32 - PAGE_SIZE →
  xrp_allocate kz1 kz2 (f_alloc f) size align = (Ok p, st) → st_objs st !! p = Some a →
  a_end a < 2 ^ long_bits → a_end a < 2 ^ phys_bits →
  mm_place (f_areas f) mm (a_size a) (a_start a - pmem) = Ok x →
  let f1 := set_areas (set_alloc f st) (new_area mm filp x p a :: f_areas f) in
  xrp_ioctl_alloc pmem kz1 kz2 0 true f mm filp (Some (size, align)) = Some (0, Some x, f1) ∧ finv f1 ∧
  a_start a mod PAGE_SIZE = 0 ∧ a_size a mod PAGE_SIZE = 0 ∧ a_size a = page_align size.
Proof.
  intros Hf Hbusy Hkz Hv Hbig E Ha He1 He2 Hpl f1.
  destruct (allocate_inv _ _ _ _ _ _ _ (fi_alloc _ _ Hf) Hkz Hv E) as (Hi & _).
  destruct (allocate_placed _ _ _ _ _ _ _ (fi_alloc _ _ Hf) Hkz Hv E) as (_ & a' & Ea' & Esz & Hal).
  assert (a' = a) as -> by congruence. clear Ea'.
  set (fq := set_files (set_alloc f st) (<[filp := p :: busy]> (f_files f))).
  assert (xrp_ioctl_alloc_queue kz1 kz2 f filp size align = Some (Ok p, fq)) as Eq.
  { unfold xrp_ioctl_alloc_queue. rewrite E. unfold xrp_allocation_queue. cbn. by rewrite Hbusy. }
  pose proof (queue_finv _ _ _ _ _ _ _ _ Hf Hkz Hv Eq) as Hfq.
  destruct (mm_place_free _ _ _ _ _ Hpl) as (_ & _ & Hpos & _ & _).
  assert (a_size a mod PAGE_SIZE = 0) as Hszm by (rewrite Esz; apply Z.mod_divide; [done | apply page_align_divide]).
  pose proof (mmap_new fq mm filp busy p a x Hfq ltac:(apply lookup_insert_eq) Ha Hal Hszm ltac:(lia) He1 He2 Hpl) as Em.
  cbn [fq f_files set_files] in Em. rewrite insert_insert_eq, (insert_id (f_files f)) in Em by done.
  change (vm_mmap pmem 0 fq mm filp (a_size a) (ulong (ops_offset (st_pool st) a)) = Some (x, f1)) in Em.
  split_and!; [| | done | done | done].
  - unfold xrp_ioctl_alloc. rewrite Eq. cbn [mbind option_bind]. unfold xrp_ioctl_alloc_map.
    change (st_objs (f_alloc fq)) with (st_objs st). rewrite Ha. cbn [mbind option_bind].
    change (f_alloc fq) with st. by rewrite Em.
  - eapply mmap_finv; [exact Hfq | | exact Em]. apply (new_area_fits st p a); [done | apply Hfq | done | done | lia | done | done].
Qed.

(** The last reference. *)
Lemma close_last f p a :
  st_objs (f_alloc f) !! p = Some a → a_ref a = 1 →
  ∃ st, each xvp_vm_close f [p] = Some (set_alloc f st) ∧ st_objs st = delete p (st_objs (f_alloc f)) ∧
    st_pool st = ops_free (st_pool (f_alloc f)) (set_ref a 0).
Proof.
  intros Ha Href. cbn [each]. unfold xvp_vm_close, xrp_allocation_put, xrp_free.
  rewrite Ha. cbn [mbind option_bind]. cbn [a_ref set_ref]. rewrite Href. cbn. rewrite lookup_insert_eq. cbn.
  eexists. split; [done |]. cbn. by rewrite delete_insert_eq.
Qed.

(** [XRP_IOCTL_FREE] refuses the area of another file and an address that
    lies in no area of the process. *)
Lemma free_other_file f a l filp v :
  f_areas f = a :: l → separate (a :: l) → ua_filp a ≠ filp → ua_start a ≤ v < ua_end a → 0 ≤ v < 2 ^ long_bits →
  xrp_ioctl_free f (ua_mm a) filp (Some v) = Some (- EINVAL, f).
Proof.
  intros Hl Hs Hne Hv Hr. unfold xrp_ioctl_free. rewrite wrap_small, Hl, (find_newest l a v Hs Hv) by done.
  by rewrite (proj2 (Z.eqb_neq _ _)) by done.
Qed.

Lemma free_no_area f mm filp v :
  0 ≤ v < 2 ^ long_bits → (∀ b, b ∈ f_areas f → ua_mm b = mm → v < ua_start b ∨ ua_end b ≤ v) →
  xrp_ioctl_free f mm filp (Some v) = Some (- EINVAL, f).
Proof.
  intros Hr Hno. unfold xrp_ioctl_free. rewrite wrap_small by done.
  destruct (mm_find (f_areas f) mm v) as [b |] eqn:E; [| done].
  destruct (mm_find_some _ _ _ _ E) as (Hin & Hmm & Hlt & _). destruct (Hno b Hin Hmm); [| lia].
  rewrite (proj2 (Z.leb_gt (ua_start b) v)) by done. by rewrite andb_false_r.
Qed.

(** An allocation that is not in the busy list of a file cannot be mapped
    through it. *)
Lemma mmap_not_busy f filp busy p a v pgoff remap :
  finv f → f_files f !! filp = Some busy → p ∉ busy → st_objs (f_alloc f) !! p = Some a →
  0 ≤ pgoff → pmem + Z.shiftl pgoff PAGE_SHIFT = a_start a → vm_end v - vm_start v = a_size a →
  0 < a_size a < 2 ^ 32 → a_end a < 2 ^ long_bits → a_end a < 2 ^ phys_bits →
  xvp_mmap pmem remap f filp v pgoff = Some (- EINVAL, None, f).
Proof.
  intros Hf Hbusy Hnot Ha Hpg Ept Hv Hsz He1 He2. unfold a_end in *. unfold xvp_mmap, xrp_allocation_dequeue.
  rewrite Hbusy. cbn [mbind option_bind].
  assert (0 ≤ Z.shiftl pgoff PAGE_SHIFT) as Hpg0 by (by apply Z.shiftl_nonneg).
  destruct (mmap_paddr pmem Hpmem (Z.shiftl pgoff PAGE_SHIFT) (a_size a)) as [Epa _].
  { unfold mmap_fits. rewrite Ept. split_and!; lia. }
  { lia. }
  rewrite (Z.shiftr_shiftl_l pgoff) in Epa by done. replace (PAGE_SHIFT - PAGE_SHIFT) with 0 in Epa by done.
  rewrite Z.shiftl_0_r, Ept in Epa. rewrite Epa, Hv.
  assert (2 ^ 32 ≤ 2 ^ long_bits) as Hlb by (destruct long_bits_cases as [-> | ->]; lia).
  rewrite (wrap_small long_bits (a_size a)), u32_small by lia.
  destruct (dequeue_loop_spec (st_objs (f_alloc f)) (a_start a) (a_size a) busy) as (r & rest & -> & Hr).
  { intros q Hq. by eapply busy_live. }
  cbn [mbind option_bind fst snd]. destruct r as [q |].
  - exfalso. destruct Hr as (Hperm & b & Hb & Hs & He).
    assert (q ≠ p) as Hne by (intros ->; apply Hnot; rewrite Hperm; by left).
    pose proof (fi_alloc _ _ Hf) as Hal. destruct (pool_offset _ _ b (ai_pool _ Hal) (live_elem _ q b Hb)) as (_ & Hbase & _).
    rewrite (fi_base _ _ Hf) in Hbase. rewrite phys_small in He by lia.
    apply (live_disjoint _ q p b a (a_start a) Hal Hb Ha Hne); unfold a_end; lia.
  - subst rest. rewrite insert_id by done. by destruct f.
Qed.

(** C21: memory asked for with [XRP_IOCTL_ALLOC], when it can be placed in
    the address space and mapped, is mapped through one new area of at least
    the size asked for that covers exactly the new allocation, and cannot be
    mapped through the file a second time.  [XRP_IOCTL_FREE] with any address
    inside the area removes it and gives the block back to the pool, which is
    then consistent with the allocations there were before, as are areas and
    busy lists; for another file, or an address in no area of the process,
    it returns [-EINVAL] and changes nothing. *)
Theorem ioctl_alloc_free_roundtrip f mm filp busy kz1 kz2 size align p a st x :
  finv f → f_files f !! filp = Some busy →
  kz_fresh (ops_heap (st_pool (f_alloc f))) kz1 kz2 → valid_request size align → page_align size < 2 ^ 32 - PAGE_SIZE →
  xrp_allocate kz1 kz2 (f_alloc f) size align = (Ok p, st) → st_objs st !! p = Some a →
  a_end a < 2 ^ long_bits → a_end a < 2 ^ phys_bits →
  mm_place (f_areas f) mm (a_size a) (a_start a - pmem) = Ok x →
  ∃ f1 ar, xrp_ioctl_alloc pmem kz1 kz2 0 true f mm filp (Some (size, align)) = Some (0, Some x, f1) ∧
    f_areas f1 = ar :: f_areas f ∧ ua_start ar = x ∧ size ≤ ua_end ar - ua_start ar ∧ ua_private ar = Some p ∧
    area_phys pmem ar = a_start a ∧ area_phys pmem ar + (ua_end ar - ua_start ar) = a_end a ∧
    (∀ remap v, vm_end v - vm_start v = a_size a → xvp_mmap pmem remap f1 filp v (ua_pgoff ar) = Some (- EINVAL, None, f1)) ∧
    (∀ v other, ua_start ar ≤ v < ua_end ar → other ≠ filp → xrp_ioctl_free f1 mm other (Some v) = Some (- EINVAL, f1)) ∧
    (∀ v other, 0 ≤ v < 2 ^ long_bits → (∀ b, b ∈ f_areas f1 → ua_mm b = mm → v < ua_start b ∨ ua_end b ≤ v) →
       xrp_ioctl_free f1 mm other (Some v) = Some (- EINVAL, f1)) ∧
    ∀ v, ua_start ar ≤ v < ua_end ar → ∃ f2,
      xrp_ioctl_free f1 mm filp (Some v) = Some (0, f2) ∧
      f_areas f2 = f_areas f ∧ f_files f2 = f_files f ∧ st_objs (f_alloc f2) = st_objs (f_alloc f) ∧
      st_pool (f_alloc f2) = ops_free (st_pool st) (set_ref a 0) ∧ pool_inv (st_pool (f_alloc f2)) (live (f_alloc f)).
Proof.
  intros Hf Hbusy Hkz Hv Hbig E Ha He1 He2 Hpl.
  destruct (ioctl_alloc_ok f mm filp busy kz1 kz2 size align p a st x) as (Ea & Hf1 & Hal & Hszm & Esz); [done.. |].
  destruct (allocate_inv _ _ _ _ _ _ _ (fi_alloc _ _ Hf) Hkz Hv E) as (Hi & Hnone & a' & Eo & Href & Hle).
  assert (a' = a) as -> by (rewrite Eo, lookup_insert_eq in Ha; congruence).
  destruct (mm_place_free _ _ _ _ _ Hpl) as (Hx0 & Hxm & Hpos & Hxl & _).
  set (f1 := set_areas _ _) in *. set (ar := new_area mm filp x p a).
  assert (ua_end ar - ua_start ar = a_size a) as El by (unfold ua_end, ua_start; cbn; lia).
  pose proof (new_area_phys mm filp x p a Hal : area_phys pmem ar = a_start a) as Eph.
  exists f1, ar. split_and!; [done | done | done | lia | done | done | unfold a_end; lia | | | |].
  - intros remap v Hlen.
    assert (p ∉ busy) as Hnot by (intros Hp; destruct (busy_live _ _ _ _ _ Hf Hbusy Hp) as [? ?]; congruence).
    apply (mmap_not_busy f1 filp busy p a); try done; [| unfold PAGE_SIZE in *; lia].
    destruct (pool_offset _ _ a (ai_pool _ Hi) (live_elem _ p a Ha)) as (_ & Hbase & _).
    rewrite (fi_base _ _ Hf1 : pool_base (st_pool st) = pmem) in Hbase. cbn. apply Z.shiftr_nonneg. lia.
  - intros v other Hv1 Hne. change mm with (ua_mm ar). apply (free_other_file f1 ar (f_areas f)); [done | apply Hf1 | exact (not_eq_sym Hne) | done |].
    unfold ua_start, ua_end in Hv1. cbn in Hv1. lia.
  - intros v other. apply free_no_area.
  - intros v Hv1. destruct (close_last f1 p a Ha Href) as (st2 & Ec & Eo2 & Ep2).
    assert (st_objs st2 = st_objs (f_alloc f)) as Eobj by (rewrite Eo2; cbn; by rewrite Eo, delete_insert_id).
    exists (set_areas (set_alloc f1 st2) (f_areas f)). split_and!; [| done | done | exact Eobj | exact Ep2 |].
    + change mm with (ua_mm ar). apply (free_newest f1 ar); [done | apply Hf1 | done | exact Hv1 | done | done | by rewrite El | exact Hxl | | exact Ec].
      rewrite El. destruct long_bits_cases as [-> | ->]; unfold PAGE_SIZE in *; lia.
    + cbn [set_areas set_alloc f_alloc]. rewrite Ep2. refine (proj1 (pool_free_ok _ _ _ _)). rewrite same_live_set_ref.
      assert (live (f_alloc f) = live (mk_alloc_state (st_pool st) (delete p (st_objs st)))) as ->.
      { unfold live. cbn. by rewrite Eo, delete_insert_id. }
      pose proof (ai_pool _ Hi) as Hp. destruct st as [pl m]. cbn [st_pool st_objs] in *. by rewrite <- (live_delete pl m p a Ha).
Qed.
End steps.
