(* ===== verification/FileExamples.v ===== *)
(** * Concrete runs of the file operations (xrp-kernel/xvp_main.c)

    A memory manager that keeps the promises of [MMSpec], the witnesses of
    the theorems about runs, and the behaviour of the handlers on error paths
    and at the limits of their types. *)

From stdpp Require Import base tactics list gmap numbers.
From S2P Require Import Prelude Alloc PrivateAlloc AddressMap PageMap Share FileOps FileTheorems.

(** ** A memory manager *)

Module RefMM.
Section ref.
Context `{Arch}.

Fixpoint top (l : list uarea) : Z := match l with [] => 0x10000 | a :: l => Z.max (ua_end a) (top l) end.
Definition place (l : list uarea) (mm len off : Z) : result Z :=
  let x := (top l + PAGE_SIZE - 1) / PAGE_SIZE * PAGE_SIZE in
  if (0 <? len) && (off mod PAGE_SIZE =? 0) && (x + len <? 2 ^ long_bits) then Ok x else Err ENOMEM.

Fixpoint find (l : list uarea) (mm x : Z) : option uarea :=
  match l with
  | [] => None
  | a :: l =>
      let r := find l mm x in
      if (ua_mm a =? mm) && (x <? ua_end a) && match r with Some b => ua_end a <=? ua_end b | None => true end
      then Some a else r
  end.

(** What is left of an area outside [s, e). *)
Definition pieces (s e : Z) (a : uarea) : list uarea :=
  (if ua_start a <? s then [mk_uarea (ua_mm a) (mk_vma (ua_start a) s) (ua_filp a) (ua_pgoff a) (ua_private a)] else []) ++
  (if (e <? ua_end a) && ((e - ua_start a) mod PAGE_SIZE =? 0)
   then [mk_uarea (ua_mm a) (mk_vma e (ua_end a)) (ua_filp a) (ua_pgoff a + (e - ua_start a) / PAGE_SIZE) (ua_private a)] else []).
Definition hit (mm s e : Z) (a : uarea) : bool := (ua_mm a =? mm) && (ua_start a <? e) && (s <? ua_end a).

Fixpoint cut (mm s e : Z) (l : list uarea) : unmapping :=
  match l with
  | [] => mk_unmapping [] [] []
  | a :: l =>
      let u := cut mm s e l in
      if hit mm s e a
      then mk_unmapping (pieces s e a ++ um_opened u) (a :: um_closed u) (pieces s e a ++ um_left u)
      else mk_unmapping (um_opened u) (um_closed u) (a :: um_left u)
  end.
Definition unmap (l : list uarea) (mm start len : Z) : Z * unmapping :=
  if (start mod PAGE_SIZE =? 0) && (0 <? len) && (0 <=? start) && (start + ALIGN long_bits len PAGE_SIZE <? 2 ^ long_bits) &&
     (0 <? ALIGN long_bits len PAGE_SIZE)
  then (0, cut mm start (start + ALIGN long_bits len PAGE_SIZE) l) else (- EINVAL, mk_unmapping [] [] l).

#[export] Instance ref_mm : MMLib := {| mm_place := place; mm_find := find; mm_unmap := unmap |}.

Lemma top_above l a : a ∈ l → ua_end a ≤ top l.
Proof. induction l as [| b l IH]; [by intros ?%not_elem_of_nil |]. intros [-> | Ha]%elem_of_cons; cbn; [lia |]. specialize (IH Ha). lia. Qed.
Lemma top_pos l : 0x10000 ≤ top l.
Proof. induction l; cbn; lia. Qed.

Lemma find_spec l mm x :
  match find l mm x with
  | Some a => a ∈ l ∧ ua_mm a = mm ∧ x < ua_end a ∧ ∀ b, b ∈ l → ua_mm b = mm → x < ua_end b → ua_end a ≤ ua_end b
  | None => ∀ a, a ∈ l → ua_mm a = mm → ua_end a ≤ x
  end.
Proof.
  induction l as [| a l IH]; cbn [find]; [by intros a ?%not_elem_of_nil |].
  destruct (Z.eqb_spec (ua_mm a) mm) as [Em |], (Z.ltb_spec x (ua_end a)); cbn [andb];
    (destruct (find l mm x) as [b |]; [destruct IH as (Hin & Hmm & Hlt & Hmin) |]); try destruct (Z.leb_spec (ua_end a) (ua_end b));
    try (split_and!; [by (left || right) | done | lia |]); intros c [-> | Hc]%elem_of_cons; try lia; try done;
    intros; try (specialize (Hmin c Hc)); try (specialize (IH c Hc)); lia.
Qed.

Lemma pieces_refs s e a b : b ∈ pieces s e a → ua_private b = ua_private a.
Proof.
  unfold pieces. intros [Hb | Hb]%elem_of_app; case_match; try (by apply not_elem_of_nil in Hb);
    by apply list_elem_of_singleton in Hb as ->.
Qed.

Lemma pieces_part s e a b : hit (ua_mm a) s e a = true → s < e → b ∈ pieces s e a → part_of b a ∧ ua_start b < ua_end b.
Proof.
  unfold hit, pieces, part_of. rewrite Z.eqb_refl. cbn [andb]. intros [H1%Z.ltb_lt H2%Z.ltb_lt]%andb_true_iff Hse.
  intros [Hb | Hb]%elem_of_app.
  - destruct (Z.ltb_spec (ua_start a) s); [| by apply not_elem_of_nil in Hb]. apply list_elem_of_singleton in Hb as ->.
    unfold ua_start, ua_end in *. cbn. split_and!; done || lia.
  - destruct (Z.ltb_spec e (ua_end a)), (Z.eqb_spec ((e - ua_start a) mod PAGE_SIZE) 0) as [Em |]; cbn [andb] in Hb; try by apply not_elem_of_nil in Hb.
    apply list_elem_of_singleton in Hb as ->. unfold ua_start, ua_end in *. cbn [ua_mm ua_filp ua_private ua_vma ua_pgoff vm_start vm_end].
    rewrite !Z.shiftl_mul_pow2 by done. change (2 ^ PAGE_SHIFT) with PAGE_SIZE.
    pose proof (Z.div_mod (e - vm_start (ua_vma a)) PAGE_SIZE ltac:(done)). split_and!; done || lia.
Qed.

Lemma refs_app l k : refs (l ++ k) = refs l ++ refs k.
Proof. unfold refs. apply omap_app. Qed.

Lemma pieces_apart s e a : s < e → hit (ua_mm a) s e a = true → separate (pieces s e a).
Proof.
  intros Hse Hh. pose proof (pieces_part s e a) as Hp. revert Hp. unfold pieces.
  destruct (ua_start a <? s), ((e <? ua_end a) && _); cbn [app separate]; intros Hp; repeat split; auto;
    try (constructor; [| constructor]; intros _; left; cbn; lia); apply Hp; auto; set_solver.
Qed.

Lemma separate_app l k : separate l → separate k → (∀ a b, a ∈ l → b ∈ k → apart a b) → separate (l ++ k).
Proof.
  induction l as [| a l IH]; [done |]. intros (Hp & Ha & Hl) Hk Hx. cbn [app separate]. split_and!; [done | |].
  - apply Forall_app. split; [done |]. apply list.Forall_forall. intros b Hb. apply Hx; [by left | done].
  - apply IH; [done | done |]. intros x y Hx1 Hy. apply Hx; [by right | done].
Qed.

Lemma cut_spec mm s e l :
  s < e → let u := cut mm s e l in
  (∀ p, occ p (refs (um_left u)) + occ p (refs (um_closed u)) = occ p (refs l) + occ p (refs (um_opened u))) ∧
  (∀ a, a ∈ um_opened u → ∃ b, b ∈ l ∧ ua_private a = ua_private b) ∧
  (∀ b, b ∈ um_left u → ∃ a, a ∈ l ∧ part_of b a) ∧ (separate l → separate (um_left u)).
Proof.
  intros Hse. cbv zeta. induction l as [| a l (H1 & H2 & H3 & H4)]; cbn [cut].
  { split_and!; [done | intros a Ha; by apply not_elem_of_nil in Ha.. | done]. }
  assert (∀ b, b ∈ um_left (cut mm s e l) → ∃ c, c ∈ a :: l ∧ part_of b c) as H3'.
  { intros b Hb. destruct (H3 b Hb) as (c & ? & ?). exists c. split; [by right | done]. }
  assert (∀ b, b ∈ um_opened (cut mm s e l) → ∃ c, c ∈ a :: l ∧ ua_private b = ua_private c) as H2'.
  { intros b Hb. destruct (H2 b Hb) as (c & ? & ?). exists c. split; [by right | done]. }
  assert (∀ c, separate (a :: l) → part_of c a → ∀ b, b ∈ um_left (cut mm s e l) → apart c b) as Hap.
  { intros c (_ & Ha & _) (Em & _ & _ & ? & ? & _) b Hb Hmm. destruct (H3 b Hb) as (d & Hd & Emd & _ & _ & ? & ? & _).
    rewrite list.Forall_forall in Ha. destruct (Ha d Hd ltac:(congruence)); [left | right]; lia. }
  destruct (hit mm s e a) eqn:Eh; cbn [um_left um_closed um_opened].
  - assert (ua_mm a = mm) as Em by (unfold hit in Eh; by destruct (Z.eqb_spec (ua_mm a) mm)).
    assert (hit (ua_mm a) s e a = true) as Eh' by (by rewrite Em).
    split_and!.
    + intros p. rewrite !refs_app, !refs_cons, !occ_app. specialize (H1 p). lia.
    + intros b [Hb | Hb]%elem_of_app; [| auto]. exists a. split; [by left | by eapply pieces_refs].
    + intros b [Hb | Hb]%elem_of_app; [| auto]. exists a. split; [by left | by apply (pieces_part s e a b Eh' Hse Hb)].
    + intros Hs. apply separate_app; [by apply pieces_apart | apply H4, Hs |]. intros c b Hc. eapply Hap; [done | by apply (pieces_part s e a c Eh' Hse Hc)].
  - split_and!; [| auto | |].
    + intros p. rewrite !refs_cons, !occ_app. specialize (H1 p). lia.
    + intros b [-> | Hb]%elem_of_cons; [| auto]. exists a. split; [by left | apply part_refl].
    + intros Hs. split_and!; [apply Hs | | apply H4, Hs]. apply list.Forall_forall. intros b. apply Hap; [done | apply part_refl].
Qed.

Lemma cut_miss mm s e l : Forall (λ a, hit mm s e a = false) l → cut mm s e l = mk_unmapping [] [] l.
Proof. induction l as [| a l IH]; [done |]. intros [Ha Hl]%list.Forall_cons. cbn [cut]. by rewrite (IH Hl), Ha. Qed.

Lemma cut_area l1 a l2 :
  separate (l1 ++ a :: l2) →
  cut (ua_mm a) (ua_start a) (ua_end a) (l1 ++ a :: l2) = mk_unmapping [] [a] (l1 ++ l2).
Proof.
  assert (∀ b, ua_start a < ua_end a → apart a b ∨ apart b a → hit (ua_mm a) (ua_start a) (ua_end a) b = false) as Hno.
  { intros b Hpos Hab. unfold hit. destruct (Z.eqb_spec (ua_mm b) (ua_mm a)) as [E |]; [| done].
    unfold apart in Hab. destruct (Z.ltb_spec (ua_start b) (ua_end a)), (Z.ltb_spec (ua_start a) (ua_end b)); try done.
    destruct Hab as [Hab | Hab]; destruct Hab; try done; lia. }
  assert (separate (a :: l2) → cut (ua_mm a) (ua_start a) (ua_end a) (a :: l2) = mk_unmapping [] [a] l2) as Hbase.
  { intros (Hpos & Ha & Hs). cbn [cut]. rewrite cut_miss.
    - assert (hit (ua_mm a) (ua_start a) (ua_end a) a = true) as ->.
      { unfold hit. rewrite Z.eqb_refl, (proj2 (Z.ltb_lt _ _) Hpos). done. }
      unfold pieces. rewrite !Z.ltb_irrefl. done.
    - eapply list.Forall_impl; [exact Ha |]. intros b Hb. by apply Hno; [| left]. }
  induction l1 as [| b l1 IH]; [apply Hbase |]. intros (Hpb & Hab & Hs). cbn [app cut]. rewrite (IH Hs). cbn.
  rewrite Hno; [done | | right].
  - clear -Hs. induction l1 as [| c l1 IH]; [apply Hs | by apply IH, Hs].
  - rewrite list.Forall_forall in Hab. apply Hab. set_solver.
Qed.

#[export] Instance ref_mm_spec : MMSpec.
Proof.
  split.
  - intros l mm len off x. cbn. unfold place. set (y := _ / _ * _).
    destruct (Z.ltb_spec 0 len), (_ =? 0), (Z.ltb_spec (y + len) (2 ^ long_bits)); try done. intros [= <-].
    pose proof (top_pos l). assert (top l ≤ y) as Hy.
    { unfold y. pose proof (Z.div_mod (top l + PAGE_SIZE - 1) PAGE_SIZE ltac:(done)).
      pose proof (Z.mod_pos_bound (top l + PAGE_SIZE - 1) PAGE_SIZE ltac:(done)). unfold PAGE_SIZE in *. lia. }
    split_and!; [lia | by apply Z.mod_mul | done | done |]. intros a Ha _. right. pose proof (top_above l a Ha). lia.
  - intros l mm x a E. pose proof (find_spec l mm x) as Hs. cbn in E. by rewrite E in Hs.
  - intros l mm x a E. pose proof (find_spec l mm x) as Hs. cbn in E. rewrite E in Hs. apply Hs.
  - intros l mm start len p. cbn. unfold unmap. destruct (_ && _) eqn:E; [| cbn; unfold occ; cbn; lia].
    apply (cut_spec mm start _ l). apply andb_true_iff in E as [_ ?%Z.ltb_lt]. lia.
  - intros l mm start len a. cbn. unfold unmap. destruct (_ && _) eqn:E; [| intros Ha; by apply not_elem_of_nil in Ha].
    apply (cut_spec mm start _ l). apply andb_true_iff in E as [_ ?%Z.ltb_lt]. lia.
  - intros l mm start len Hs. cbn. unfold unmap. destruct (_ && _) eqn:E.
    + apply andb_true_iff in E as [_ ?%Z.ltb_lt].
      destruct (cut_spec mm start (start + ALIGN long_bits len PAGE_SIZE) l) as (_ & _ & H3 & H4); [lia | auto].
    + split; [done |]. intros b Hb. exists b. split; [done | apply part_refl].
  - intros l1 a l2 len Hs Hal Hlen H0a Hend E. cbn. unfold unmap. rewrite Hal, E. cbn [Z.eqb andb].
    assert (ua_start a < ua_end a) by (clear -Hs; induction l1; [apply Hs | by apply IHl1, Hs]).
    rewrite (proj2 (Z.ltb_lt 0 len)), (proj2 (Z.leb_le _ _)), (proj2 (Z.ltb_lt _ (2 ^ _))), (proj2 (Z.ltb_lt 0 _)) by lia.
    cbn [andb]. by rewrite cut_area.
Qed.
End ref.
End RefMM.

(** ** Runs *)

Module FileRuns.
Import RefMM.
#[local] Existing Instance arch32.

Definition bucket (p : Z) : nat := Z.to_nat (p mod 4).
Definition base := 0x10000000.
Lemma Hbase : 0 ≤ base ∧ base mod PAGE_SIZE = 0.
Proof. done. Qed.

Lemma room_small {P} (f : fstate P) n k :
  forallb (λ a, a_ref a <=? k) (live (f_alloc f)) = true → 0 ≤ k → k + Z.of_nat n < 2 ^ 32 → room_for f n.
Proof.
  intros Hm Hk Hlt p. rewrite forallb_forall in Hm. unfold ref_of. destruct (st_objs (f_alloc f) !! p) as [a |] eqn:E; cbn; [| lia].
  apply live_elem, list_elem_of_In in E. specialize (Hm a E). lia.
Qed.

Abbreviation fst8 := (fstate xrp_private_pool).
(** A file is opened, two pages are asked for and mapped, the process forks,
    and the child unmaps the first page. *)
Definition f0 : fst8 := probed Examples.st0.
Definition f1 : fst8 := (xvp_open bucket 0 true true f0 100).2.
Definition f2 : fst8 := from_option snd f1 (xrp_ioctl_alloc_queue (Some 2) (Some 3) f1 100 5000 0).
Definition f3 : fst8 := from_option snd f2 (vm_mmap base 0 f2 1 100 5000 0).
Definition ar3 : uarea := mk_uarea 1 (mk_vma 0x10000 0x12000) 100 0 (Some 2).
Definition f4 : fst8 :=
  let f := default f3 (each xvp_vm_open f3 [2]) in set_areas f (copy_area 2 ar3 :: f_areas f).
Definition f5 : fst8 := from_option snd f4 (vm_munmap f4 2 0x10000 0x1000).

Lemma run5 : rtc (fstep bucket base) f0 f5.
Proof.
  apply (rtc_l _ _ f1); [by apply (fs_open _ _ 0 true true f0 100 0) |].
  apply (rtc_l _ _ f2).
  { apply (fs_queue _ _ (Some 2) (Some 3) f1 100 5000 0 (Ok 2)); [apply Examples.fresh23 | by apply (bool_decide_unpack _) | done]. }
  apply (rtc_l _ _ f3).
  { apply (fs_mmap _ _ 0 f2 1 100 5000 0 0x10000); [| by vm_compute]. unfold mmap_fits. by vm_compute. }
  apply (rtc_l _ _ f4).
  { assert (f_areas f3 = [ar3]) as Ear by (by vm_compute).
    apply (fs_fork _ _ f3 ar3 2); [rewrite Ear; by left | | | by vm_compute].
    - rewrite Ear. intros b Hb Hmm. apply list_elem_of_singleton in Hb. subst b. discriminate Hmm.
    - apply (room_small _ _ 1); [by vm_compute | done | by vm_compute]. }
  apply rtc_once. apply (fs_munmap _ _ f4 2 0x10000 0x1000 0); [| by vm_compute].
  apply (room_small _ _ 2); [by vm_compute | done | by vm_compute].
Qed.

Example run5_areas :
  f_areas f5 = [mk_uarea 2 (mk_vma 0x11000 0x12000) 100 1 (Some 2); ar3] ∧ ref_of (f_alloc f5) 2 = 2.
Proof. by vm_compute. Qed.

Lemma files_isolated_witness :
  (∃ x, st_objs (f_alloc f5) !! 2 = Some x ∧ 1 ≤ a_ref x ∧
     a_start x ≤ area_phys base ar3 ∧ area_phys base ar3 + (ua_end ar3 - ua_start ar3) ≤ a_end x) ∧
  ∀ b q y, b ∈ f_areas f5 → ua_private b = Some q →
    area_phys base ar3 ≤ y < area_phys base ar3 + (ua_end ar3 - ua_start ar3) →
    area_phys base b ≤ y < area_phys base b + (ua_end b - ua_start b) → 2 = q.
Proof.
  apply (files_isolated bucket base Hbase Examples.st0 f5 ar3 2 Examples.st0_inv eq_refl eq_refl run5); [| done].
  assert (f_areas f5 = [mk_uarea 2 (mk_vma 0x11000 0x12000) 100 1 (Some 2); ar3]) as -> by (by vm_compute). set_solver.
Defined.

Lemma files_counts_exact_witness :
  let places := busy_refs (f_files f5) ++ refs (f_areas f5) ++ f_held f5 ++ f_lost f5 in
  ref_of (f_alloc f5) 2 = occ 2 places ∧ (st_objs (f_alloc f5) !! 2 = None ↔ 2 ∉ places) ∧ f_lost f0 = [] ∧
  ∀ f', fstep bucket base f5 f' → f_lost f' = f_lost f5 ∨ ∃ l, forgets bucket base f5 f' l ∧ f_lost f' = l ++ f_lost f5.
Proof. apply (files_counts_exact bucket base Hbase Examples.st0 f5 2 Examples.st0_inv eq_refl eq_refl run5). Defined.

Lemma files_no_use_after_free_witness :
  is_Some (xvp_close bucket f5 100) ∧ is_Some (vm_munmap f5 1 0x10000 0x2000).
Proof.
  destruct (files_no_use_after_free bucket base Hbase Examples.st0 f5 100 Examples.st0_inv eq_refl eq_refl run5)
    as (_ & _ & Hun & _ & Hc); [by eexists |].
  split; [exact Hc |]. apply Hun. apply (room_small _ _ 2); [by vm_compute | done | by vm_compute].
Defined.

Lemma f1_inv : finv base f1.
Proof. apply (fstep_finv bucket base Hbase f0); [by apply (fs_open _ _ 0 true true f0 100 0) | by apply init_finv, eq_refl; [apply Examples.st0_inv |]]. Qed.

Lemma ioctl_alloc_free_roundtrip_witness :
  ∃ g1 ar, xrp_ioctl_alloc base (Some 2) (Some 3) 0 true f1 1 100 (Some (5000, 0)) = Some (0, Some 0x10000, g1) ∧
    f_areas g1 = ar :: f_areas f1 ∧ ua_start ar = 0x10000 ∧ 5000 ≤ ua_end ar - ua_start ar ∧ ua_private ar = Some 2 ∧
    area_phys base ar = 0x10000000 ∧ area_phys base ar + (ua_end ar - ua_start ar) = 0x10002000 ∧
    xvp_mmap base 0 g1 100 (mk_vma 0x20000 0x22000) (ua_pgoff ar) = Some (- EINVAL, None, g1) ∧
    xrp_ioctl_free g1 1 101 (Some (ua_start ar)) = Some (- EINVAL, g1) ∧
    xrp_ioctl_free g1 1 100 (Some 0) = Some (- EINVAL, g1) ∧
    ∃ g2, xrp_ioctl_free g1 1 100 (Some (ua_start ar + 1)) = Some (0, g2) ∧
      f_areas g2 = f_areas f1 ∧ f_files g2 = f_files f1 ∧ st_objs (f_alloc g2) = st_objs (f_alloc f1) ∧
      private_inv (st_pool (f_alloc g2)) (live (f_alloc f1)).
Proof.
  destruct (ioctl_alloc_free_roundtrip base Hbase f1 1 100 [] (Some 2) (Some 3) 5000 0 2 (mk_allocation 2 0x10000000 0x2000 1)
    (xrp_allocate (Some 2) (Some 3) (f_alloc f1) 5000 0).2 0x10000 f1_inv)
    as (g1 & ar & E1 & E2 & E3 & E4 & E5 & E6 & E7 & Hmap & Hother & Hno & Hfree); try done; [apply Examples.fresh23 |].
  exists g1, ar. split_and!; try done; [by apply Hmap | apply Hother; lia | |].
  - apply Hno; [done |]. rewrite E2. change (f_areas f1) with (@nil uarea). intros b Hb _. apply list_elem_of_singleton in Hb as ->. lia.
  - destruct (Hfree (ua_start ar + 1)) as (g2 & ? & ? & ? & ? & ? & ?); [lia |]. by exists g2.
Defined.

(** ** Error paths *)

(** When [vm_mmap] cannot place the area, [XRP_IOCTL_ALLOC] reports success
    with the error code as address, and the allocation stays in the busy
    list. *)
Definition crowded : fst8 := set_areas f1 [mk_uarea 1 (mk_vma 0xfffe0000 0xffff0000) 7 0 None].
Example alloc_reports_error_as_address :
  (λ x : Z * option Z * fst8, (x.1, f_files x.2 !! 100)) <$>
    xrp_ioctl_alloc base (Some 2) (Some 3) 0 true crowded 1 100 (Some (0x10000, 0)) =
  Some (0, Some (2 ^ 32 - ENOMEM), Some [1]).
Proof. by vm_compute. Qed.

(** When [remap_pfn_range] fails the area is dropped without a call of
    [vm_ops->close]: nothing refers to the allocation any more. *)
Example mmap_failure_loses_allocation :
  (λ x : Z * fst8, (f_files x.2 !! 100, f_areas x.2, ref_of (f_alloc x.2) 2)) <$> vm_mmap base (- ENOMEM) f2 1 100 5000 0 =
  Some (Some [], [], 1).
Proof. by vm_compute. Qed.

(** Closing a file forgets its busy list. *)
Example close_loses_busy_list :
  (λ x : Z * fst8, (f_files x.2 !! 100, f_lost x.2, ref_of (f_alloc x.2) 2)) <$> xvp_close bucket f2 100 = Some (None, [2], 1).
Proof. by vm_compute. Qed.

(** A failed resume leaves the usage count raised. *)
Example open_failure_keeps_usage : f_pm (xvp_open bucket (- ENODEV) true true f0 100).2 = 1.
Proof. done. Qed.

(** Between the two halves of [XRP_IOCTL_ALLOC] another thread can map the
    allocation and unmap it again; the handler then reads a freed
    descriptor. *)
Example alloc_races_with_munmap :
  (x ← vm_mmap base 0 f2 1 100 5000 0; y ← vm_munmap (x : Z * fst8).2 1 0x10000 0x2000;
   xrp_ioctl_alloc_map base 0 true (y : Z * fst8).2 1 100 5000 2) = None ∧
  is_Some (x ← vm_mmap base 0 f2 1 100 5000 0; vm_munmap (x : Z * fst8).2 1 0x10000 0x2000).
Proof. split; [by vm_compute | by eexists]. Qed.

(** On a 64-bit host the length of an area is cut to 32 bits before it is
    compared: a mapping of 4 GiB and one page passes for a page. *)
Example mmap_length_truncated :
  let f := @from_option _ _ snd f1 (@xrp_ioctl_alloc_queue arch64 _ _ (Some 2) (Some 3) f1 100 0x1000 0) in
  (λ x : Z * option Z * fst8, (x.1, a_size <$> st_objs (f_alloc x.2) !! 2)) <$>
    @xvp_mmap arch64 _ base 0 f 100 (mk_vma 0x10000 (0x10000 + 2 ^ 32 + 0x1000)) 0 = Some (0, Some 2, Some 0x1000).
Proof. by vm_compute. Qed.

(** With 32-bit longs the page offset is shifted in 32 bits: an offset of
    4 GiB is taken for the start of the memory. *)
Example mmap_offset_truncated :
  (λ x : Z * option Z * fst8, x.1) <$> xvp_mmap base 0 f2 100 (mk_vma 0x10000 0x12000) (2 ^ 20) = Some (0, Some 2).
Proof. by vm_compute. Qed.
End FileRuns.
