(* ===== verification/MapRequest.v ===== *)
(** * Sharing the memory of a request (xrp-kernel/xvp_main.c)

    [xrp_map_request] shares the input and output data, the buffers and the
    buffer descriptors of a request; [xrp_unmap_request] and
    [xrp_unmap_request_nowb] give them up again.  What the driver reads from
    user memory - the namespace id, inline data and the buffer list - is an
    input: user memory can change at any time.  The request lives on the
    stack: its mappings and inline arrays start with arbitrary contents. *)

From stdpp Require Import base tactics list gmap numbers.
From S2P Require Import Prelude Mem Interface Alloc PrivateAlloc AddressMap Request PageMap Shadow Share.

(** A buffer as the user describes it: [struct xrp_ioctl_buffer]. *)
Record xrp_ioctl_buffer := mk_ioctl_buffer { ib_flags : Z; ib_size : Z; ib_addr : Z }.

(** What user memory holds when the driver reads it; [None]: a fault. *)
Record user_request := mk_user {
  u_queue : xrp_ioctl_queue;
  u_nsid : option (list Z);
  u_in_data : option (list Z);
  u_buffer : nat → option xrp_ioctl_buffer;
}.
Definition sizeof_ioctl_buffer := 16.
Definition n_buffers (u : user_request) : nat := Z.to_nat (q_buffer_size (u_queue u) / sizeof_ioctl_buffer).
Definition u_buffers (u : user_request) : list (option xrp_ioctl_buffer) := u_buffer u <$> seq 0 (n_buffers u).

(** The mappings of a request. *)
Record rq_maps := mk_maps {
  m_in_data : xrp_mapping;
  m_out_data : xrp_mapping;
  m_buffer : list xrp_mapping;
  m_dsp_buffer : xrp_mapping;
}.

(** The inline arrays of a request before anything is written to them. *)
Record rq_stack := mk_stack { s_in_data : list Z; s_out_data : list Z; s_nsid : list Z }.
(** An array after a copy to its start, if there was one. *)
Definition overlay (l : option (list Z)) (s : list Z) : list Z := from_option (λ l, l ++ drop (length l) s) s l.

Section map_request.
Context `{Arch} `{KLib} {P : Type} `{!AllocOps P} `{UserAccess}.
Variables (map : xrp_address_map) (pmem : Z).
(** The kernel at the [i]-th share of a request, in the state it finds. *)
Variable env : nat → kstate P → share_env.
(** [__pa]. *)
Variable pa : Z → Z.

(** Writes of the driver to its own memory, seen at both addresses. *)
Definition kernel_write (k : kstate P) (virt : Z) (l : list Z) : kstate P :=
  set_mems k (mk_mems (store_bytes (um (k_mems k)) virt l) (store_bytes (pm (k_mems k)) (pa virt) l)).

(** [junk]: the old contents of the mapping's alien part, which is not
    written when the copy fails although the type is. *)
Definition xrp_share_kernel (e : share_env) (k : kstate P) (virt size flags : Z) (junk : xrp_alien_mapping)
  : option (result Z * xrp_mapping * kstate P) :=
  if xrp_translate_to_dsp map (pa virt) =? XRP_NO_TRANSLATION then
    x ← share_copy e k flags virt size;
    match x with
    | (Ok (p, am), k) => Some (Ok p, XRP_MAPPING_KERNEL_ALIEN am, k)
    | (Err er, k) => Some (Err er, XRP_MAPPING_KERNEL_ALIEN junk, k)
    end
  else Some (Ok (pa virt), XRP_MAPPING_KERNEL, k).

(** ** Giving the memory of a request up *)

Fixpoint unshare_all (k : kstate P) (l : list (xrp_mapping * Z)) : option (list Z * kstate P) :=
  match l with
  | [] => Some ([], k)
  | (m, flags) :: l =>
      x ← __xrp_unshare_block k m flags;
      y ← unshare_all x.2 l; Some (x.1 :: y.1, y.2)
  end.

Definition long_in (q : xrp_ioctl_queue) : bool := XRP_DSP_CMD_INLINE_DATA_SIZE <? q_in_data_size q.
Definition long_out (q : xrp_ioctl_queue) : bool := XRP_DSP_CMD_INLINE_DATA_SIZE <? q_out_data_size q.
Definition many (n : nat) : bool := XRP_DSP_CMD_INLINE_BUFFER_COUNT <? Z.of_nat n.

Definition xrp_unmap_request_nowb (k : kstate P) (q : xrp_ioctl_queue) (n : nat) (ms : rq_maps) : option (kstate P) :=
  x ← unshare_all k
    ((if long_in q then [(m_in_data ms, 0)] else []) ++
     (if long_out q then [(m_out_data ms, 0)] else []) ++
     ((λ m, (m, 0)) <$> m_buffer ms) ++
     (if many n then [(m_dsp_buffer ms, 0)] else []));
  Some x.2.

(** The last error of a list of results. *)
Definition last_error (ret : Z) (l : list Z) : Z := foldl (λ r rc, if rc <? 0 then rc else r) ret l.

(** [rq->dsp_buffer]: inside the request, or kernel memory at [kaddr], which
    the DSP may have changed in place. *)
Definition dsp_buffers_now (k : kstate P) (kaddr : Z) (n : nat) (rq : xrp_request) (m : xrp_mapping) : list xrp_dsp_buffer :=
  if many n then
    match m with
    | XRP_MAPPING_KERNEL => load_dsp_buffers (pm (k_mems k)) (pa kaddr) n
    | _ => load_dsp_buffers (um (k_mems k)) kaddr n
    end
  else rq_dsp_buffer rq.

(** [copy_to_user(vaddr, l, n)] from memory of the driver that the DSP does
    not see: the state and the number of bytes not copied. *)
Definition copy_to_user (k : kstate P) (vaddr : Z) (l : list Z) (n : Z) : kstate P * Z :=
  let rc := uaccess vaddr n in
  (set_mems k (mk_mems (store_bytes (um (k_mems k)) vaddr (take (Z.to_nat (n - rc)) l)) (pm (k_mems k))), rc).

Definition unmap_out (k : kstate P) (q : xrp_ioctl_queue) (rq : xrp_request) (ms : rq_maps) : option (Z * kstate P) :=
  if long_out q then __xrp_unshare_block k (m_out_data ms) XRP_FLAG_WRITE
  else
    let '(k, rc) := copy_to_user k (q_out_data_addr q) (rq_out_data rq) (q_out_data_size q) in
    Some (if rc =? 0 then 0 else - EFAULT, k).

Definition xrp_unmap_request (kaddr : Z) (k : kstate P) (q : xrp_ioctl_queue) (rq : xrp_request)
    (ms : rq_maps) : option (Z * kstate P) :=
  let n := Z.to_nat (rq_n_buffers rq) in
  x ← unshare_all k (if long_in q then [(m_in_data ms, XRP_FLAG_READ)] else []);
  y ← unmap_out x.2 q rq ms;
  z ← unshare_all y.2 (if many n then [(m_dsp_buffer ms, XRP_FLAG_READ_WRITE)] else []);
  w ← unshare_all z.2 (zip (m_buffer ms) (db_flags <$> dsp_buffers_now z.2 kaddr n rq (m_dsp_buffer ms)));
  Some (last_error (last_error 0 [y.1]) w.1, w.2).

(** ** Sharing the memory of a request *)

(** The loop over the buffers from the [i]-th on: the result, the mappings
    made, the descriptors written, and the state. *)
Fixpoint map_buffers (i : nat) (k : kstate P) (l : list (option xrp_ioctl_buffer))
  : option (Z * list xrp_mapping * list xrp_dsp_buffer * kstate P) :=
  match l with
  | [] => Some (0, [], [], k)
  | None :: l => Some (- EFAULT, XRP_MAPPING_NONE :: (const XRP_MAPPING_NONE <$> l), [], k)
  | Some b :: l =>
      x ← (if Z.land (ib_flags b) XRP_FLAG_READ_WRITE =? 0 then Some (Ok (phys (ulong (-1))), XRP_MAPPING_NONE, k)
           else __xrp_share_block map pmem (env i k) k (ib_addr b) (ib_size b) (ib_flags b) XRP_MAPPING_NONE);
      match x with
      | (Err er, m, k) => Some (- er, m :: (const XRP_MAPPING_NONE <$> l), [], k)
      | (Ok p, m, k) =>
          y ← map_buffers (S i) k l;
          let '(ret, ms, ds, k) := y in
          Some (ret, m :: ms, mk_dsp_buffer (ib_flags b) (ib_size b) (xrp_translate_to_dsp map p) :: ds, k)
      end
  end.

(** Shares one of the two data blocks, or leaves an inline one alone. *)
Definition map_data (long : bool) (i : nat) (k : kstate P) (addr size flags : Z) (m : xrp_mapping)
  : option (result Z * xrp_mapping * kstate P) :=
  if long then __xrp_share_block map pmem (env i k) k addr size flags m else Some (Ok 0, m, k).

(** The shares of a request in order; the result is zero or the error. *)
Definition map_blocks (k : kstate P) (u : user_request) (kaddr : Z) (junk : xrp_alien_mapping) (ms0 : rq_maps)
  : option (Z * (Z * Z * Z) * list xrp_dsp_buffer * rq_maps * kstate P) :=
  let q := u_queue u in
  let n := n_buffers u in
  let none := const XRP_MAPPING_NONE <$> u_buffers u in
  x ← map_data (long_in q) 0 k (q_in_data_addr q) (q_in_data_size q) XRP_FLAG_READ (m_in_data ms0);
  match x with
  | (Err er, m1, k) => Some (- er, (0, 0, 0), [], mk_maps m1 (m_out_data ms0) none (m_dsp_buffer ms0), k)
  | (Ok p1, m1, k) =>
      if negb (long_in q) && negb (from_option (const true) false (u_in_data u)) then
        Some (- EFAULT, (0, 0, 0), [], mk_maps m1 (m_out_data ms0) none (m_dsp_buffer ms0), k)
      else
        x ← map_data (long_out q) 1 k (q_out_data_addr q) (q_out_data_size q) XRP_FLAG_WRITE (m_out_data ms0);
        match x with
        | (Err er, m2, k) => Some (- er, (p1, 0, 0), [], mk_maps m1 m2 none (m_dsp_buffer ms0), k)
        | (Ok p2, m2, k) =>
            y ← map_buffers 2 k (u_buffers u);
            let '(ret, mb, ds, k) := y in
            if (ret =? 0) && many n then
              let k := kernel_write k kaddr (dsp_buffers_bytes ds) in
              z ← xrp_share_kernel (env (2 + n) k) k kaddr (Z.of_nat n * sizeof_dsp_buffer) XRP_FLAG_READ_WRITE junk;
              match z with
              | (Ok p3, m3, k) => Some (0, (p1, p2, p3), ds, mk_maps m1 m2 mb m3, k)
              | (Err er, m3, k) => Some (- er, (p1, p2, 0), ds, mk_maps m1 m2 mb m3, k)
              end
            else Some (ret, (p1, p2, 0), ds, mk_maps m1 m2 mb (m_dsp_buffer ms0), k)
        end
  end.

(** [bm], [db]: the allocations of the mappings and of the descriptors.
    [None]: the code uses a pointer or a page it does not have. *)
Definition xrp_map_request (bm db : bool) (k : kstate P) (u : user_request) (kaddr : Z)
    (junk : xrp_alien_mapping) (ms0 : rq_maps) (stk : rq_stack) : option (Z * xrp_request * rq_maps * kstate P) :=
  let q := u_queue u in
  let n := n_buffers u in
  let nsid := negb (Z.land (q_flags q) XRP_QUEUE_FLAG_NSID =? 0) in
  let rq p ds := {| rq_ioctl_queue := q; rq_n_buffers := Z.of_nat n; rq_dsp_buffer := ds;
    rq_in_data_phys := p.1.1; rq_out_data_phys := p.1.2; rq_dsp_buffer_phys := p.2;
    rq_in_data := overlay (if long_in q then None else u_in_data u) (s_in_data stk); rq_out_data := s_out_data stk;
    rq_nsid := overlay (if nsid then u_nsid u else None) (s_nsid stk) |} in
  if nsid && negb (from_option (const true) false (u_nsid u)) then Some (- EINVAL, rq (0, 0, 0) [], ms0, k)
  else if many n && negb db then Some (- ENOMEM, rq (0, 0, 0) [], ms0, k)
  else if (0 <? n)%nat && negb bm then None
  else
    x ← map_blocks k u kaddr junk ms0;
    let '(ret, p, ds, ms, k) := x in
    if ret <? 0 then k ← xrp_unmap_request_nowb k q n ms; Some (ret, rq p ds, ms, k)
    else Some (ret, rq p ds, ms, k).
End map_request.

(** The mappings of a request that are in use. *)
Definition used (q : xrp_ioctl_queue) (n : nat) (ms : rq_maps) : list xrp_mapping :=
  (if long_in q then [m_in_data ms] else []) ++ (if long_out q then [m_out_data ms] else []) ++
  m_buffer ms ++ (if many n then [m_dsp_buffer ms] else []).

(** Contents of an uninitialised mapping that do no harm: no reference. *)
Definition clean `{Arch} (m : xrp_mapping) : Prop :=
  own_refs m = [] ∧ other_refs m = [] ∧ page_refs m = [] ∧ mapping_wf m.

(** The same references as before. *)
Definition balanced {P} (k k' : kstate P) : Prop :=
  ∀ p, ref_of (k_own k') p = ref_of (k_own k) p ∧ ref_of (k_other k') p = ref_of (k_other k) p ∧
    k_pins k' p = k_pins k p.

Section balance.
Context `{Arch} `{KLibSpec} {P : Type} `{!AllocOps P} `{!AllocSpec P} `{UserAccess}.
Variables (map : xrp_address_map) (pmem : Z) (env : nat → kstate P → share_env) (pa : Z → Z).
Hypothesis Hmap : map_ok map.
Hypothesis Hend : page_ended map.

Lemma acct_balanced k k' : acct k [] k' → balanced k k'.
Proof. intros [_ _ _ _ Ho Ht Hp] p. rewrite Ho, Ht, Hp. cbn. unfold occ. cbn. lia. Qed.

Lemma unshare_all_acct k0 ms l k :
  Forall mapping_wf l.*1 → acct k0 (l.*1 ++ ms) k →
  ∃ rets k', unshare_all k l = Some (rets, k') ∧ acct k0 ms k'.
Proof.
  revert k. induction l as [| [m fl] l IH]; intros k Hwf Ha; [by eexists _, _ |]. cbn in Hwf, Ha.
  apply list.Forall_cons in Hwf as [Hm Hl]. destruct (unshare_acct k0 _ k m fl Hm Ha) as (ret & k1 & E & Ha1).
  cbn [unshare_all]. rewrite E. cbn [mbind option_bind fst snd]. destruct (IH k1 Hl Ha1) as (rets & k2 & -> & Ha2). by eexists _, _.
Qed.

Lemma unmap_nowb_acct k0 q n ms k :
  Forall mapping_wf (used q n ms) → acct k0 (used q n ms) k →
  ∃ k', xrp_unmap_request_nowb k q n ms = Some k' ∧ acct k0 [] k'.
Proof.
  intros Hwf Ha. unfold xrp_unmap_request_nowb. set (l := _ ++ _).
  assert (l.*1 = used q n ms) as E.
  { unfold l, used. rewrite !fmap_app. f_equal; [by destruct (long_in q) |]. f_equal; [by destruct (long_out q) |].
    f_equal; [| by destruct (many n)]. rewrite <- list_fmap_compose. apply list_fmap_id. }
  destruct (unshare_all_acct k0 [] l k) as (rets & k' & -> & Ha'); [by rewrite E | by rewrite E, app_nil_r | by eexists].
Qed.

Lemma dsp_buffers_now_length (k : kstate P) kaddr n rq m :
  (many n = false → length (rq_dsp_buffer rq) = n) → length (dsp_buffers_now pa k kaddr n rq m) = n.
Proof.
  unfold dsp_buffers_now, load_dsp_buffers. destruct (many n); [intros _ | auto].
  destruct m; by rewrite length_map, length_seq.
Qed.

Lemma unmap_out_acct k0 ms0 q rq ms k :
  Forall mapping_wf (if long_out q then [m_out_data ms] else []) →
  acct k0 ((if long_out q then [m_out_data ms] else []) ++ ms0) k →
  ∃ ret k', unmap_out k q rq ms = Some (ret, k') ∧ acct k0 ms0 k'.
Proof.
  unfold unmap_out, copy_to_user. destruct (long_out q); intros W A.
  - apply list.Forall_cons in W as [W _]. by apply unshare_acct.
  - eexists _, _. split; [done | by apply acct_mems].
Qed.

Lemma unmap_request_acct k0 kaddr q rq ms k :
  length (m_buffer ms) = Z.to_nat (rq_n_buffers rq) →
  (many (Z.to_nat (rq_n_buffers rq)) = false → length (rq_dsp_buffer rq) = Z.to_nat (rq_n_buffers rq)) →
  Forall mapping_wf (used q (Z.to_nat (rq_n_buffers rq)) ms) → acct k0 (used q (Z.to_nat (rq_n_buffers rq)) ms) k →
  ∃ ret k', xrp_unmap_request pa kaddr k q rq ms = Some (ret, k') ∧ acct k0 [] k'.
Proof.
  intros Hlen Hds Hwf Ha. unfold xrp_unmap_request, used in *. set (n := Z.to_nat (rq_n_buffers rq)) in *.
  rewrite !Forall_app in Hwf. destruct Hwf as (W1 & W2 & W3 & W4).
  destruct (unshare_all_acct k0 ((if long_out q then [m_out_data ms] else []) ++ m_buffer ms ++
    (if many n then [m_dsp_buffer ms] else [])) (if long_in q then [(m_in_data ms, XRP_FLAG_READ)] else []) k)
    as (r1 & k1 & -> & A1); [by destruct (long_in q) | by destruct (long_in q) |]. cbn [mbind option_bind fst snd].
  destruct (unmap_out_acct k0 (m_buffer ms ++ (if many n then [m_dsp_buffer ms] else [])) q rq ms k1 W2 A1)
    as (r2 & k2 & -> & A2). cbn [mbind option_bind fst snd].
  apply (acct_perm _ _ _ _ (Permutation_app_comm _ _)) in A2.
  destruct (unshare_all_acct k0 (m_buffer ms) (if many n then [(m_dsp_buffer ms, XRP_FLAG_READ_WRITE)] else []) k2)
    as (r3 & k3 & -> & A3); [by destruct (many n) | by destruct (many n) |]. cbn [mbind option_bind fst snd].
  set (ds := dsp_buffers_now _ _ _ _ _ _).
  assert (length ds = n) as Hn by (by apply dsp_buffers_now_length).
  assert ((zip (m_buffer ms) (db_flags <$> ds)).*1 = m_buffer ms) as Ez by (apply fst_zip; rewrite length_fmap; lia).
  destruct (unshare_all_acct k0 [] (zip (m_buffer ms) (db_flags <$> ds)) k3)
    as (r4 & k4 & -> & A4); [by rewrite Ez | by rewrite Ez, app_nil_r | by eexists _, _].
Qed.

Lemma share_error e k virt size flags m0 er m k' :
  __xrp_share_block map pmem e k virt size flags m0 = Some (Err er, m, k') → er = EINVAL.
Proof.
  unfold __xrp_share_block. destruct (se_find e virt) as [ar |]; [| by intros [= <- _ _]].
  intros Hx. apply bind_Some in Hx as (n & _ & Hx). destruct (n =? 0); [by injection Hx as <- _ _ |].
  destruct (x ← _; native_block _ _ _ _ _) as [[own p] |]; [by apply bind_Some in Hx as (? & _ & ?) |].
  apply bind_Some in Hx as (x1 & _ & Hx). apply bind_Some in Hx as ([[[p am] | er'] k1] & _ & Hx); [done |].
  by injection Hx as <- _ _.
Qed.

(** The blocks of a request for which the kernel keeps its promises, in
    whatever state the earlier shares left. *)
Variable blk : Z → Z → Prop.
Definition env_good (k0 : kstate P) : Prop :=
  ∀ i ms k v sz, blk v sz → acct k0 ms k → (length ms ≤ i)%nat → env_ok k (env i k) v sz.

Definition request_blocks (u : user_request) : Prop :=
  let q := u_queue u in
  (long_in q = true → blk (q_in_data_addr q) (q_in_data_size q)) ∧
  (long_out q = true → blk (q_out_data_addr q) (q_out_data_size q)) ∧
  ∀ b, Some b ∈ u_buffers u → Z.land (ib_flags b) XRP_FLAG_READ_WRITE ≠ 0 → blk (ib_addr b) (ib_size b).

Lemma acct_nones {A} k0 ms k (l : list A) : acct k0 ms k → acct k0 ((const XRP_MAPPING_NONE <$> l) ++ ms) k.
Proof. intros Ha. induction l as [| x l IH]; [done |]. by apply acct_none. Qed.
Lemma nones_wf {A} (l : list A) : Forall mapping_wf (const XRP_MAPPING_NONE <$> l).
Proof. apply list.Forall_fmap, list.Forall_true. done. Qed.

Lemma map_buffers_acct k0 l i ms k :
  env_good k0 → (∀ b, Some b ∈ l → Z.land (ib_flags b) XRP_FLAG_READ_WRITE ≠ 0 → blk (ib_addr b) (ib_size b)) →
  (length ms ≤ i)%nat → acct k0 ms k →
  ∃ ret mb ds k', map_buffers map pmem env i k l = Some (ret, mb, ds, k') ∧ acct k0 (mb ++ ms) k' ∧
    Forall mapping_wf mb ∧ length mb = length l ∧ (ret < 0 ∨ ret = 0 ∧ length ds = length l).
Proof.
  intros Henv. revert i ms k. induction l as [| [b |] l IH]; intros i ms k Hblk Hlen Ha; cbn [map_buffers].
  - eexists _, _, _, _. split; [done |]. split_and!; [done | constructor | done | by right].
  - assert (∃ r m k1, (if Z.land (ib_flags b) XRP_FLAG_READ_WRITE =? 0 then Some (Ok (phys (ulong (-1))), XRP_MAPPING_NONE, k)
        else __xrp_share_block map pmem (env i k) k (ib_addr b) (ib_size b) (ib_flags b) XRP_MAPPING_NONE) = Some (r, m, k1) ∧
        acct k0 (m :: ms) k1 ∧ mapping_wf m ∧ (∀ er, r = Err er → er = EINVAL)) as (r & m & k1 & -> & Ha1 & Hwf & Her).
    { destruct (Z.eqb_spec (Z.land (ib_flags b) XRP_FLAG_READ_WRITE) 0).
      - eexists _, _, _. split; [done |]. split_and!; [by apply acct_none | done | done].
      - destruct (share_acct map pmem k0 ms k (env i k) (ib_addr b) (ib_size b) (ib_flags b) XRP_MAPPING_NONE Hmap Hend)
          as (r & m & k1 & E & Hr); [apply (Henv i ms); [apply Hblk; [by left | done] | done | done] | done |].
        eexists _, _, _. split; [done |]. destruct r as [p | er]; [by destruct Hr as [? ?] |].
        destruct Hr as [-> Hr]. split_and!; [by apply acct_none | done |]. intros er' [= <-]. by apply share_error in E. }
    cbn [mbind option_bind]. destruct r as [p | er].
    + destruct (IH (S i) (m :: ms) k1) as (ret & mb & ds & k2 & -> & Ha2 & Hwf2 & Hl2 & Hret);
        [intros; apply Hblk; [by right | done] | cbn; lia | done |]. cbn [mbind option_bind].
      eexists _, _, _, _. split; [done |]. split_and!; [| by constructor | cbn; lia | cbn; lia].
      eapply acct_perm; [| exact Ha2]. cbn. by rewrite Permutation_middle.
    + eexists _, _, _, _. split; [done |]. split_and!; [| constructor; [done | apply nones_wf] | cbn; by rewrite length_fmap |].
      * eapply acct_perm; [| apply (acct_nones k0 (m :: ms) k1 l Ha1)]. cbn. by rewrite Permutation_middle.
      * left. rewrite (Her er eq_refl). done.
  - eexists _, _, _, _. split; [done |]. split_and!; [| constructor; [done | apply nones_wf] | cbn; by rewrite length_fmap | by left].
    cbn. by apply acct_none, acct_nones.
Qed.

Lemma map_data_acct k0 ms k (long : bool) i addr size flags m0 :
  env_good k0 → clean m0 → (long = true → blk addr size) → (length ms ≤ i)%nat → acct k0 ms k →
  ∃ r m k', map_data map pmem env long i k addr size flags m0 = Some (r, m, k') ∧
    acct k0 ((if long then [m] else []) ++ ms) k' ∧ (if long then mapping_wf m else m = m0) ∧ (∀ er, r = Err er → er = EINVAL).
Proof.
  intros Henv (C1 & C2 & C3 & C4) Hblk Hlen Ha. unfold map_data. destruct long; [| by eexists _, _, _].
  destruct (share_acct map pmem k0 ms k (env i k) addr size flags m0 Hmap Hend) as (r & m & k1 & E & Hr);
    [by apply (Henv i ms); [apply Hblk | ..] | done |].
  eexists _, _, _. split; [done |]. destruct r as [p | er]; [by destruct Hr as [? ?] |]. destruct Hr as [-> Hr].
  split_and!; [by apply acct_none | done |]. intros er' [= <-]. by apply share_error in E.
Qed.

Lemma perm4 (D B O I : list xrp_mapping) : D ++ B ++ O ++ I ≡ₚ I ++ O ++ B ++ D.
Proof.
  rewrite (Permutation_app_comm D), (Permutation_app_comm B), (Permutation_app_comm O). by rewrite <- !app_assoc.
Qed.

(** From the shares made to the mappings in use. *)
Lemma used_acct k0 q n ms k :
  acct k0 ((if many n then [m_dsp_buffer ms] else []) ++ m_buffer ms ++ (if long_out q then [m_out_data ms] else []) ++
           (if long_in q then [m_in_data ms] else [])) k →
  (long_in q = true → mapping_wf (m_in_data ms)) → (long_out q = true → mapping_wf (m_out_data ms)) →
  Forall mapping_wf (m_buffer ms) → mapping_wf (m_dsp_buffer ms) →
  acct k0 (used q n ms) k ∧ Forall mapping_wf (used q n ms).
Proof.
  intros Ha Wi Wo Wb Wd. split; [eapply acct_perm; [apply perm4 | done] |]. unfold used. rewrite !Forall_app.
  split_and!; [destruct (long_in q); auto | destruct (long_out q); auto | done | destruct (many n); auto].
Qed.

Definition kernel_good (k0 : kstate P) (n : nat) (kaddr : Z) : Prop :=
  shadow_request kaddr (Z.of_nat n * sizeof_dsp_buffer) ∧
  ∀ ms k, acct k0 ms k → kz_fresh (ops_heap (st_pool (k_own k))) (se_kz1 (env (2 + n) k)) (se_kz2 (env (2 + n) k)).

Lemma share_kernel_acct k0 ms k n kaddr flags junk :
  kernel_good k0 n kaddr → clean (XRP_MAPPING_KERNEL_ALIEN junk) → acct k0 ms k →
  ∃ r m k', xrp_share_kernel map pa (env (2 + n) k) k kaddr (Z.of_nat n * sizeof_dsp_buffer) flags junk = Some (r, m, k') ∧
    acct k0 (m :: ms) k' ∧ mapping_wf m.
Proof.
  intros [Hreq Hkz] (C1 & C2 & C3 & C4) Ha. unfold xrp_share_kernel. destruct (_ =? _).
  - destruct (share_copy_acct k0 ms k (env (2 + n) k) flags kaddr _ (Hkz ms k Ha) Hreq Ha) as (r & k1 & -> & Hr).
    cbn [mbind option_bind]. destruct r as [[p am] | er]; eexists _, _, _; (split; [done |]).
    + destruct Hr as (Ha1 & _ & Hs & Hp). split; [by destruct Ha1 | cbn; split; [| done]]. rewrite Hs. apply Hreq.
    + split; [by apply acct_none | done].
  - eexists _, _, _. split; [done |]. split; [by apply acct_none | done].
Qed.

(** Whatever the outcome, the state is the old one plus the references of the
    mappings in use. *)
Lemma map_blocks_acct k0 u kaddr junk ms0 :
  env_good k0 → request_blocks u → kernel_good k0 (n_buffers u) kaddr →
  clean (m_in_data ms0) → clean (m_out_data ms0) → clean (m_dsp_buffer ms0) → clean (XRP_MAPPING_KERNEL_ALIEN junk) →
  acct k0 [] k0 →
  ∃ ret p ds ms k', map_blocks map pmem env pa k0 u kaddr junk ms0 = Some (ret, p, ds, ms, k') ∧
    acct k0 (used (u_queue u) (n_buffers u) ms) k' ∧ Forall mapping_wf (used (u_queue u) (n_buffers u) ms) ∧
    length (m_buffer ms) = n_buffers u ∧ (ret < 0 ∨ length ds = n_buffers u).
Proof.
  intros Henv (B1 & B2 & B3) Hker Ci Co Cd Cj Ha. set (q := u_queue u) in *. set (n := n_buffers u) in *.
  assert (length (u_buffers u) = n) as Hn by (unfold u_buffers; by rewrite length_fmap, length_seq).
  assert (∀ ms k, acct k0 ms k → acct k0 ((if many n then [m_dsp_buffer ms0] else []) ++ ms) k) as Hd.
  { intros ms k Hk. destruct Cd as (? & ? & ? & _). destruct (many n); [by apply acct_none | done]. }
  assert (∀ ms k, acct k0 ms k → acct k0 ((if long_out q then [m_out_data ms0] else []) ++ ms) k) as Ho.
  { intros ms k Hk. destruct Co as (? & ? & ? & _). destruct (long_out q); [by apply acct_none | done]. }
  assert (length (const XRP_MAPPING_NONE <$> u_buffers u) = n) as Hnn by (by rewrite length_fmap).
  pose proof (nones_wf (u_buffers u)) as Hnw. destruct Ci as (I1 & I2 & I3 & I4), Co as (O1 & O2 & O3 & O4), Cd as (D1 & D2 & D3 & D4).
  unfold map_blocks. fold q n.
  destruct (map_data_acct k0 [] k0 (long_in q) 0 (q_in_data_addr q) (q_in_data_size q) XRP_FLAG_READ (m_in_data ms0))
    as (r1 & m1 & k1 & -> & A1 & W1 & E1); [done | done | done | done | done |]. rewrite app_nil_r in A1. cbn [mbind option_bind].
  assert (long_in q = true → mapping_wf m1) as W1' by (intros Hl; by rewrite Hl in W1).
  assert (∀ k, acct k0 (if long_in q then [m1] else []) k →
    acct k0 (used q n (mk_maps m1 (m_out_data ms0) (const XRP_MAPPING_NONE <$> u_buffers u) (m_dsp_buffer ms0))) k ∧
    Forall mapping_wf (used q n (mk_maps m1 (m_out_data ms0) (const XRP_MAPPING_NONE <$> u_buffers u) (m_dsp_buffer ms0)))) as F1
    by (intros k Hk; apply used_acct; [by apply Hd, acct_nones, Ho | done..]).
  destruct r1 as [p1 | er1].
  2:{ destruct (F1 k1 A1). eexists _, _, _, _, _. split; [done |]. split_and!; [done | done | done | left; by rewrite (E1 _ eq_refl)]. }
  destruct (_ && _).
  { destruct (F1 k1 A1). eexists _, _, _, _, _. split; [done |]. split_and!; [done | done | done | by left]. }
  destruct (map_data_acct k0 (if long_in q then [m1] else []) k1 (long_out q) 1 (q_out_data_addr q) (q_out_data_size q)
    XRP_FLAG_WRITE (m_out_data ms0)) as (r2 & m2 & k2 & -> & A2 & W2 & E2);
    [done | done | done | destruct (long_in q); cbn; lia | done |]. cbn [mbind option_bind].
  assert (long_out q = true → mapping_wf m2) as W2' by (intros Hl; by rewrite Hl in W2).
  destruct r2 as [p2 | er2].
  2:{ destruct (used_acct k0 q n (mk_maps m1 m2 (const XRP_MAPPING_NONE <$> u_buffers u) (m_dsp_buffer ms0)) k2);
        [by apply Hd, acct_nones | done.. |].
      eexists _, _, _, _, _. split; [done |]. split_and!; [done | done | done | left; by rewrite (E2 _ eq_refl)]. }
  destruct (map_buffers_acct k0 (u_buffers u) 2 ((if long_out q then [m2] else []) ++ (if long_in q then [m1] else [])) k2)
    as (ret & mb & ds & k3 & -> & A3 & W3 & L3 & R3);
    [done | done | destruct (long_in q), (long_out q); cbn; lia | done |]. cbn [mbind option_bind]. rewrite Hn in *.
  destruct (Z.eqb_spec ret 0) as [Eret | Hret]; cbn [andb].
  - assert (length ds = n) as Hds by (destruct R3; [lia | tauto]). destruct (many n) eqn:Hmany.
    + destruct (share_kernel_acct k0 (mb ++ (if long_out q then [m2] else []) ++ (if long_in q then [m1] else []))
        (kernel_write pa k3 kaddr (dsp_buffers_bytes ds)) n kaddr XRP_FLAG_READ_WRITE junk) as (r4 & m4 & k4 & -> & A4 & W4);
        [done | done | by apply acct_mems |]. cbn [mbind option_bind].
      destruct (used_acct k0 q n (mk_maps m1 m2 mb m4) k4); [by rewrite Hmany | done.. |].
      destruct r4; eexists _, _, _, _, _; (split; [done |]); (split_and!; [done | done | done | by right]).
    + destruct (used_acct k0 q n (mk_maps m1 m2 mb (m_dsp_buffer ms0)) k3); [by rewrite Hmany | done.. |].
      eexists _, _, _, _, _. split; [done |]. split_and!; [done | done | done | by right].
  - destruct (used_acct k0 q n (mk_maps m1 m2 mb (m_dsp_buffer ms0)) k3); [by apply Hd | done.. |].
    eexists _, _, _, _, _. split; [done |]. split_and!; [done | done | done | left; lia].
Qed.

(** What mapping a request leaves. *)
Lemma map_request_acct db k u kaddr junk ms0 stk :
  alloc_inv (k_own k) → alloc_inv (k_other k) →
  env_good k → request_blocks u → kernel_good k (n_buffers u) kaddr →
  clean (m_in_data ms0) → clean (m_out_data ms0) → clean (m_dsp_buffer ms0) → clean (XRP_MAPPING_KERNEL_ALIEN junk) →
  ∃ ret rq ms k', xrp_map_request map pmem env pa true db k u kaddr junk ms0 stk = Some (ret, rq, ms, k') ∧
    rq_n_buffers rq = Z.of_nat (n_buffers u) ∧
    if ret <? 0 then acct k [] k'
    else acct k (used (u_queue u) (n_buffers u) ms) k' ∧ Forall mapping_wf (used (u_queue u) (n_buffers u) ms) ∧
      length (m_buffer ms) = n_buffers u ∧ length (rq_dsp_buffer rq) = n_buffers u.
Proof.
  intros I1 I2 Henv Hblk Hker Ci Co Cd Cj. pose proof (acct_refl k I1 I2) as Ha. unfold xrp_map_request.
  destruct (_ && _); [by eexists _, _, _, _ |]. destruct (_ && _); [by eexists _, _, _, _ |]. rewrite andb_false_r.
  destruct (map_blocks_acct k u kaddr junk ms0) as (ret & p & ds & ms & k1 & -> & A1 & W1 & L1 & R1); [done.. |].
  cbn [mbind option_bind]. destruct (Z.ltb_spec ret 0) as [Hneg | Hpos].
  - destruct (unmap_nowb_acct k _ _ _ k1 W1 A1) as (k2 & -> & A2). cbn [mbind option_bind]. eexists _, _, _, _.
    split; [done |]. by rewrite (proj2 (Z.ltb_lt _ _)).
  - eexists _, _, _, _. split; [done |]. rewrite (proj2 (Z.ltb_ge _ _)) by done. split_and!; [done | done | done | done |].
    cbn. lia.
Qed.

(** Either way of unmapping gives everything up. *)
Lemma unmap_acct k u ms k' rq :
  acct k (used (u_queue u) (n_buffers u) ms) k' → Forall mapping_wf (used (u_queue u) (n_buffers u) ms) →
  length (m_buffer ms) = n_buffers u → rq_n_buffers rq = Z.of_nat (n_buffers u) →
  (many (n_buffers u) = false → length (rq_dsp_buffer rq) = n_buffers u) →
  (∃ k2, xrp_unmap_request_nowb k' (u_queue u) (n_buffers u) ms = Some k2 ∧ balanced k k2) ∧
  (∀ kaddr, ∃ r k2, xrp_unmap_request pa kaddr k' (u_queue u) rq ms = Some (r, k2) ∧ balanced k k2).
Proof.
  intros A W L En Hds. split.
  - destruct (unmap_nowb_acct k _ _ _ k' W A) as (k2 & -> & A2). eexists. split; [done | by apply acct_balanced].
  - intros kaddr. assert (n_buffers u = Z.to_nat (rq_n_buffers rq)) as En' by lia. rewrite En' in *.
    destruct (unmap_request_acct k kaddr (u_queue u) rq ms k') as (r & k2 & -> & A2); [done.. |].
    eexists _, _. split; [done | by apply acct_balanced].
Qed.

(** C8: mapping a request - with the kzalloc of the buffer mappings, whose
    result the code does not check, successful; blocks that are not empty,
    below 2 GiB and of a size the pool can be asked for; an address map whose
    ranges end at page boundaries; a kernel that keeps its promises about
    areas, page tables, pinned pages and new descriptors; and uninitialised
    mappings on the stack that happen to hold no reference.  Then the call has
    a result; when it fails no reference stays behind, and when it succeeds
    either way of unmapping the request, after whatever the DSP did to memory
    and to the descriptors' flags, has a result and leaves the references of
    the pools and of user pages as they were. *)
Theorem map_request_balanced db k u kaddr junk ms0 stk :
  alloc_inv (k_own k) → alloc_inv (k_other k) →
  env_good k → request_blocks u → kernel_good k (n_buffers u) kaddr →
  clean (m_in_data ms0) → clean (m_out_data ms0) → clean (m_dsp_buffer ms0) → clean (XRP_MAPPING_KERNEL_ALIEN junk) →
  ∃ ret rq ms k', xrp_map_request map pmem env pa true db k u kaddr junk ms0 stk = Some (ret, rq, ms, k') ∧
    if ret <? 0 then balanced k k'
    else
      (∀ s, ∃ k2, xrp_unmap_request_nowb (set_mems k' s) (u_queue u) (n_buffers u) ms = Some k2 ∧ balanced k k2) ∧
      (∀ s rq', rq_n_buffers rq' = rq_n_buffers rq → length (rq_dsp_buffer rq') = length (rq_dsp_buffer rq) →
         ∃ r k2, xrp_unmap_request pa kaddr (set_mems k' s) (u_queue u) rq' ms = Some (r, k2) ∧ balanced k k2).
Proof.
  intros I1 I2 Henv Hblk Hker Ci Co Cd Cj.
  destruct (map_request_acct db k u kaddr junk ms0 stk) as (ret & rq & ms & k' & -> & En & Hr); [done.. |].
  exists ret, rq, ms, k'. split; [done |]. destruct (ret <? 0); [by apply acct_balanced |]. destruct Hr as (A & W & L & D).
  split; intros s.
  - by apply (unmap_acct k u ms (set_mems k' s) rq); [apply acct_mems | ..].
  - intros rq' En' El'. apply (unmap_acct k u ms (set_mems k' s) rq'); [by apply acct_mems | done | done | congruence |].
    intros _. congruence.
Qed.
End balance.

(** ** Concrete requests *)

Module RequestMapExamples.
Import RefLib.
#[local] Existing Instance arch32.
#[local] Existing Instance ShadowExamples.all_access.

(** One area of ordinary memory, pages of [PageExamples], and an allocator
    that always has new descriptors. *)
Definition area0 : area := mk_area (mk_vma 0x1000 0x9000) AlienFile 0 0 false.
Definition find0 (x : Z) : option area := if x <? 0x9000 then Some area0 else None.
Definition gup0 (a n : Z) : result (list Z) := if 0 <=? n then PageExamples.pin a n else Err EINVAL.
Definition env0 (_ : nat) (k : kstate xrp_private_pool) : share_env :=
  let h := ops_heap (st_pool (k_own k)) in
  let p := fresh ({[0]} ∪ h) in
  mk_share_env find0 [mk_vma 0x1000 0x9000] PageExamples.table true gup0 (Some p) (Some (fresh ({[0; p]} ∪ h))).

Definition k0 : kstate xrp_private_pool := mk_k Examples.st0 Examples.st0 (λ _, 0) ShadowExamples.mems0.
Definition blk0 (v sz : Z) : Prop := block_ok v sz ∧ shadow_request v sz.

Lemma find0_ok i k : find_vma_ok [mk_vma 0x1000 0x9000] (se_find_vma (env0 i k)).
Proof.
  split; intros x v; unfold se_find_vma; cbn; unfold find0; destruct (Z.ltb_spec x 0x9000); cbn; intros E; try done.
  - injection E as <-. split_and!; [by left | cbn; lia |]. intros a ->%list_elem_of_singleton. done.
  - intros ->%list_elem_of_singleton. cbn. lia.
Qed.

Lemma env0_kz i k : kz_fresh (ops_heap (st_pool (k_own k))) (se_kz1 (env0 i k)) (se_kz2 (env0 i k)).
Proof.
  cbn [env0 se_kz1 se_kz2]. set (h := ops_heap (st_pool (k_own k))). set (p := fresh ({[0]} ∪ h)). split.
  - intros x [= <-]. pose proof (is_fresh ({[0]} ∪ h)) as Hf. fold p in Hf. set_solver.
  - intros x [= <-]. pose proof (is_fresh ({[0; p]} ∪ h)) as Hf. split_and!; [set_solver | set_solver |].
    intros [= E]. rewrite <- E in Hf. set_solver.
Qed.

Lemma env0_ok i k v sz : blk0 v sz → env_ok k (env0 i k) v sz.
Proof.
  intros [Hb Hr]. split; [done | | apply find0_ok | apply PageExamples.table_ok | apply PageExamples.pin_ok | apply env0_kz | done |].
  - split; [repeat constructor; cbn; lia |]. by intros a b ->%list_elem_of_singleton ->%list_elem_of_singleton.
  - intros ar. cbn. unfold find0. destruct (_ <? _); [by intros [= <-] | done].
Qed.

Lemma blk0_dec v sz : bool_decide (0 ≤ v ∧ 0 < sz ∧ v + sz + PAGE_SIZE ≤ 2 ^ 32 ∧ sz + PAGE_SIZE ≤ 2 ^ 31 ∧
  valid_request (sz + 16) 16) = true → blk0 v sz.
Proof. intros E%bool_decide_eq_true. destruct E as (? & ? & ? & ? & ?). split; [by split_and! | split; [lia | done]]. Qed.

Definition share0 := __xrp_share_block MapExamples.map2 0 (env0 0 k0) k0 0x3010 0x2000 XRP_FLAG_READ XRP_MAPPING_NONE.

Lemma share_block_correct_witness :
  ∃ am k', share0 = Some (Ok 0x10003010, XRP_MAPPING_ALIEN am, k') ∧
    am_paddr am = 0x10003010 ∧ shared_block PageExamples.table MapExamples.map2 0x3010 0x2000 0x10003010.
Proof.
  assert (fst <$> share0 = Some (Ok 0x10003010, XRP_MAPPING_ALIEN (mk_alien 0x3010 0x2000 0x10003010 0 ALIEN_GUP))) as V
    by reflexivity.
  destruct share0 as [[x k'] |] eqn:E; [| discriminate V]. injection V as ->. eexists _, k'. split; [done |]. split; [done |].
  apply (share_block_correct MapExamples.map2 0 k0 (env0 0 k0) 0x3010 0x2000 XRP_FLAG_READ XRP_MAPPING_NONE 0x10003010
    _ k' MapExamples.map2_ok PageExamples.map2_page_ended (env0_ok 0 k0 _ _ (blk0_dec 0x3010 0x2000 eq_refl)) E).
Defined.

(** Input data of 32 bytes, inline output, one buffer in place, one unused. *)
Definition user0 : user_request :=
  mk_user {| q_flags := 0; q_in_data_size := 32; q_out_data_size := 4; q_buffer_size := 32;
             q_in_data_addr := 0x2000; q_out_data_addr := 0x2100; q_buffer_addr := 0x2200; q_nsid_addr := 0 |}
    None None (λ i, Some (match i with O => mk_ioctl_buffer 3 0x800 0x4f00 | _ => mk_ioctl_buffer 0 0 0 end)).
Definition zeroed : rq_maps := mk_maps XRP_MAPPING_NONE XRP_MAPPING_NONE [] XRP_MAPPING_NONE.
Definition stack0 : rq_stack := mk_stack (replicate 16 7) (replicate 16 7) (replicate 16 7).
(** All bytes zero: pinned pages, but none of them. *)
Definition zero_alien : xrp_alien_mapping := mk_alien 0 0 0 0 ALIEN_GUP.

Lemma user0_blocks : request_blocks blk0 user0.
Proof.
  split_and!; [intros _; by apply blk0_dec | done |]. intros b.
  change (u_buffers user0) with [Some (mk_ioctl_buffer 3 0x800 0x4f00); Some (mk_ioctl_buffer 0 0 0)].
  rewrite !elem_of_cons, elem_of_nil. intros [[= ->] | [[= ->] | []]] Hf; [by apply blk0_dec | done].
Qed.

Lemma env0_good : env_good env0 blk0 k0.
Proof. intros i ms k v sz Hb _ _. by apply env0_ok. Qed.

Lemma kernel0_good : kernel_good env0 k0 (n_buffers user0) 0xc0000000.
Proof. split; [split; [done | by apply (bool_decide_unpack _)] |]. intros ms k _. apply env0_kz. Qed.

Lemma map_request_balanced_witness :
  ∃ ret rq ms k', xrp_map_request MapExamples.map2 0 env0 (λ v, v) true true k0 user0 0xc0000000 zero_alien zeroed stack0 =
      Some (ret, rq, ms, k') ∧
    if ret <? 0 then balanced k0 k'
    else
      (∀ s, ∃ k2, xrp_unmap_request_nowb (set_mems k' s) (u_queue user0) (n_buffers user0) ms = Some k2 ∧ balanced k0 k2) ∧
      (∀ s rq', rq_n_buffers rq' = rq_n_buffers rq → length (rq_dsp_buffer rq') = length (rq_dsp_buffer rq) →
         ∃ r k2, xrp_unmap_request (λ v, v) 0xc0000000 (set_mems k' s) (u_queue user0) rq' ms = Some (r, k2) ∧ balanced k0 k2).
Proof.
  apply (map_request_balanced MapExamples.map2 0 env0 (λ v, v) MapExamples.map2_ok PageExamples.map2_page_ended blk0 true k0
    user0 0xc0000000 zero_alien zeroed stack0 Examples.st0_inv Examples.st0_inv env0_good user0_blocks kernel0_good); by split_and!.
Defined.

(** The request is mapped and both descriptors go to a shadow copy. *)
Example map_request_value :
  (λ x, (x.1.1.1, rq_in_data_phys x.1.1.2, rq_dsp_buffer x.1.1.2, rq_dsp_buffer_phys x.1.1.2)) <$>
    xrp_map_request MapExamples.map2 0 env0 (λ v, v) true true k0 user0 0xc0000000 zero_alien zeroed stack0 =
  Some (0, 0x10002000, [mk_dsp_buffer 3 0x800 0x4f00; mk_dsp_buffer 0 0 0xffffffff], 0x10000000).
Proof. vm_compute. reflexivity. Qed.

(** When the input data cannot be shared its mapping is unshared all the
    same: with other contents on the stack a live allocation loses its last
    reference. *)
Example garbage_mapping_is_unshared :
  let k := mk_k Examples.st1 Examples.st0 (λ _, 0) ShadowExamples.mems0 in
  let q := {| q_flags := 0; q_in_data_size := 32; q_out_data_size := 4; q_buffer_size := 0;
              q_in_data_addr := 0xa000; q_out_data_addr := 0x2100; q_buffer_addr := 0; q_nsid_addr := 0 |} in
  let x := xrp_map_request MapExamples.map2 0 env0 (λ v, v) true true k (mk_user q None None (λ _, None)) 0xc0000000
             zero_alien (mk_maps (XRP_MAPPING_NATIVE true 2) XRP_MAPPING_NONE [] XRP_MAPPING_NONE) stack0 in
  ref_of (k_own k) 2 = 1 ∧ (λ x, (x.1.1.1, ref_of (k_own x.2) 2)) <$> x = Some (- EINVAL, 0).
Proof. vm_compute. split; reflexivity. Qed.
End RequestMapExamples.
