(* ===== verification/Submit.v ===== *)
(** * Running a command from user space (xrp-kernel/xvp_main.c)

    [xrp_ioctl_submit_sync] composes the parts: it maps the request
    ([MapRequest]), writes the command and waits for the answer
    ([Request]), restarts the firmware when the DSP does not answer, and
    gives the memory up. *)

From stdpp Require Import base tactics list gmap numbers.
From S2P Require Import Prelude Mem Interface Alloc PrivateAlloc AddressMap Request PageMap Shadow Share MapRequest.

(** What happens outside the driver while the command runs, given the
    memory after the command was written: what the waits see, the memory at
    the end, and the result of a restart of the firmware with whether the
    device is off after it. *)
Record dsp_run := mk_dsp_run {
  dr_waits : mem → list (Z * mem);
  dr_polls : mem → list (mem * bool);
  dr_after : mem → mem;
  dr_boot : Z * bool;
}.

(** The device and the module parameters. *)
Record submit_cfg := mk_submit_cfg {
  sc_loopback : Z;
  sc_off : bool;
  sc_host_irq_mode : bool;
  sc_firmware_reboot : bool;
  sc_comm : Z;
}.
Definition LOOPBACK_NOIO := 1.

Section submit.
Context `{Arch} `{KLib} {P : Type} `{!AllocOps P} `{UserAccess}.
Variables (map : xrp_address_map) (pmem : Z).
Variable env : nat → kstate P → share_env.
Variable pa : Z → Z.

(** The exchange under [comm_lock]: the result, whether the device went off,
    the request with the answer, and memory.  [None]: the wait goes on. *)
Definition run_command (c : submit_cfg) (d : dsp_run) (rq : xrp_request) (m : mem)
  : option (Z * bool * xrp_request * mem) :=
  if sc_off c then Some (- ENODEV, false, rq, m)
  else
    let m1 := apply_writes m (xrp_fill_hw_request (sc_comm c) rq map) in
    ret ← (if sc_host_irq_mode c then xvp_complete_cmd_irq (sc_comm c) (dr_waits d m1)
           else xvp_complete_cmd_poll (sc_comm c) (dr_polls d m1));
    let m2 := dr_after d m1 in
    if ret =? 0 then
      let x := xrp_complete_hw_request m2 (sc_comm c) rq in Some (x.1, false, x.2, m2)
    else if (ret =? - EBUSY) && sc_firmware_reboot c then
      let '(rc, off) := dr_boot d in
      Some (if rc <? 0 then (rc, off, rq, m2) else (ret, false, rq, m2))
    else Some (ret, false, rq, m2).

Definition set_pm (k : kstate P) (m : mem) : kstate P := set_mems k (mk_mems (um (k_mems k)) m).

(** [u]: the request as read from the user, [None] when it cannot be.  The
    result, whether the mappings were left in place, and the state. *)
Definition xrp_ioctl_submit_sync (c : submit_cfg) (d : dsp_run) (bm db : bool) (k : kstate P)
    (u : option user_request) (kaddr : Z) (junk : xrp_alien_mapping) (ms0 : rq_maps) (stk : rq_stack)
  : option (Z * bool * kstate P) :=
  match u with
  | None => Some (- EFAULT, false, k)
  | Some u =>
      let q := u_queue u in
      if negb (Z.land (q_flags q) (u32 (Z.lnot XRP_QUEUE_VALID_FLAGS)) =? 0) then Some (- EINVAL, false, k)
      else
        x ← xrp_map_request map pmem env pa bm db k u kaddr junk ms0 stk;
        let '(ret, rq, ms, k) := x in
        if ret <? 0 then Some (ret, false, k)
        else
          y ← (if sc_loopback c <? LOOPBACK_NOIO then run_command c d rq (pm (k_mems k))
               else Some (ret, false, rq, pm (k_mems k)));
          let '(ret, went_off, rq, m) := (y : Z * bool * xrp_request * mem) in
          let k := set_pm k m in
          if ret =? 0 then
            z ← xrp_unmap_request pa kaddr k q rq ms; Some (z.1, false, z.2)
          else if went_off then Some (ret, true, k)
          else k ← xrp_unmap_request_nowb k q (n_buffers u) ms; Some (ret, false, k)
  end.
End submit.

Section submit_spec.
Context `{Arch} `{KLibSpec} {P : Type} `{!AllocOps P} `{!AllocSpec P} `{UserAccess}.
Variables (map : xrp_address_map) (pmem : Z) (env : nat → kstate P → share_env) (pa : Z → Z).
Hypothesis Hmap : map_ok map.
Hypothesis Hend : page_ended map.

(** The wait ends. *)
Definition answers (c : submit_cfg) (d : dsp_run) : Prop :=
  ∀ m, if sc_host_irq_mode c then is_Some (xvp_complete_cmd_irq (sc_comm c) (dr_waits d m))
       else is_Some (xvp_complete_cmd_poll (sc_comm c) (dr_polls d m)).

Lemma complete_keeps_buffers m cmd rq :
  0 ≤ rq_n_buffers rq → length (rq_dsp_buffer rq) = Z.to_nat (rq_n_buffers rq) →
  rq_n_buffers (xrp_complete_hw_request m cmd rq).2 = rq_n_buffers rq ∧
  length (rq_dsp_buffer (xrp_complete_hw_request m cmd rq).2) = Z.to_nat (rq_n_buffers rq).
Proof.
  intros Hn Hl. unfold xrp_complete_hw_request. cbn [snd].
  destruct (q_out_data_size _ <=? _), (rq_n_buffers rq <=? _); cbn; (split; [done |]); try done;
    unfold dsp_buffers_of_bytes, load_dsp_buffers; by rewrite length_map, length_seq.
Qed.

(** How the wait ends once the command is written. *)
Definition waited (c : submit_cfg) (d : dsp_run) (m : mem) : option Z :=
  if sc_host_irq_mode c then xvp_complete_cmd_irq (sc_comm c) (dr_waits d m)
  else xvp_complete_cmd_poll (sc_comm c) (dr_polls d m).

(** The DSP did not answer, and could not be started again. *)
Definition gone (c : submit_cfg) (d : dsp_run) (rq : xrp_request) (m : mem) : Prop :=
  sc_off c = false ∧ waited c d (apply_writes m (xrp_fill_hw_request (sc_comm c) rq map)) = Some (- EBUSY) ∧
  sc_firmware_reboot c = true ∧ (dr_boot d).1 < 0 ∧ (dr_boot d).2 = true.

Lemma run_command_total c d rq m :
  answers c d → 0 ≤ rq_n_buffers rq → length (rq_dsp_buffer rq) = Z.to_nat (rq_n_buffers rq) →
  ∃ ret off rq' m', run_command map c d rq m = Some (ret, off, rq', m') ∧
    rq_n_buffers rq' = rq_n_buffers rq ∧ length (rq_dsp_buffer rq') = Z.to_nat (rq_n_buffers rq) ∧
    (off = true ↔ gone c d rq m) ∧ (gone c d rq m → ret = (dr_boot d).1 ∧ ret < 0).
Proof.
  intros Hans Hn Hl. unfold run_command, gone, waited. destruct (sc_off c).
  { eexists _, _, _, _. split; [done |]. split_and!; [done | done | naive_solver | naive_solver]. }
  set (m1 := apply_writes _ _). specialize (Hans m1).
  assert (∃ ret, (if sc_host_irq_mode c then xvp_complete_cmd_irq (sc_comm c) (dr_waits d m1)
            else xvp_complete_cmd_poll (sc_comm c) (dr_polls d m1)) = Some ret) as [ret ->] by (by destruct (sc_host_irq_mode c)).
  cbn [mbind option_bind]. destruct (Z.eqb_spec ret 0) as [-> |].
  - destruct (complete_keeps_buffers (dr_after d m1) (sc_comm c) rq Hn Hl). eexists _, _, _, _. split; [done |].
    split_and!; [done | done | naive_solver | naive_solver].
  - destruct (Z.eqb_spec ret (- EBUSY)) as [-> |]; cbn [andb];
      [| eexists _, _, _, _; split; [done |]; split_and!; [done | done | naive_solver..]].
    destruct (sc_firmware_reboot c); [| eexists _, _, _, _; split; [done |]; split_and!; [done | done | naive_solver..]].
    destruct (dr_boot d) as [rc off]. cbn [fst snd]. destruct (Z.ltb_spec rc 0);
      (eexists _, _, _, _; split; [done |]; split_and!; [done | done | |]).
    + naive_solver.
    + naive_solver.
    + split; [done |]. intros (_ & _ & _ & ? & _). lia.
    + intros (_ & _ & _ & ? & _). lia.
Qed.

(** The request was accepted and mapped as [ms], and the DSP is gone. *)
Definition dsp_lost (c : submit_cfg) (d : dsp_run) (db : bool) (k : kstate P) (u : option user_request) (kaddr : Z)
    (junk : xrp_alien_mapping) (ms0 : rq_maps) (stk : rq_stack) (u' : user_request) (ms : rq_maps) : Prop :=
  u = Some u' ∧ Z.land (q_flags (u_queue u')) (u32 (Z.lnot XRP_QUEUE_VALID_FLAGS)) = 0 ∧ sc_loopback c < LOOPBACK_NOIO ∧
  ∃ rc rq k1, xrp_map_request map pmem env pa true db k u' kaddr junk ms0 stk = Some (rc, rq, ms, k1) ∧ 0 ≤ rc ∧
    gone c d rq (pm (k_mems k1)).

(** C11: a command submitted from user space - under the conditions of
    mapping a request, on a DSP whose wait ends - has a result.  The mappings
    of the request stay in place, each with its references, exactly when the
    request was accepted, the DSP did not answer in time and a restart of the
    firmware failed and left the device off, and the call then returns the
    error of the restart; in every other case the references of pools and
    pages are as they were. *)
Theorem submit_sync_balanced c d db k u kaddr junk ms0 stk :
  alloc_inv (k_own k) → alloc_inv (k_other k) → answers c d →
  (∀ u', u = Some u' → ∃ blk, env_good env blk k ∧ request_blocks blk u' ∧ kernel_good env k (n_buffers u') kaddr) →
  clean (m_in_data ms0) → clean (m_out_data ms0) → clean (m_dsp_buffer ms0) → clean (XRP_MAPPING_KERNEL_ALIEN junk) →
  ∃ ret leak k', xrp_ioctl_submit_sync map pmem env pa c d true db k u kaddr junk ms0 stk = Some (ret, leak, k') ∧
    (leak = true ↔ ∃ u' ms, dsp_lost c d db k u kaddr junk ms0 stk u' ms) ∧
    if leak then ret = (dr_boot d).1 ∧ ret < 0 ∧
      ∃ u' ms, dsp_lost c d db k u kaddr junk ms0 stk u' ms ∧ acct k (used (u_queue u') (n_buffers u') ms) k'
    else balanced k k'.
Proof.
  intros I1 I2 Hans Hu Ci Co Cd Cj. unfold xrp_ioctl_submit_sync, dsp_lost. pose proof (acct_refl k I1 I2) as Ha.
  destruct u as [u |]; [| eexists _, _, _; split; [done |]; split; [naive_solver | by apply acct_balanced]].
  destruct (Z.eqb_spec (Z.land (q_flags (u_queue u)) (u32 (Z.lnot XRP_QUEUE_VALID_FLAGS))) 0) as [Ef | Ef]; cbn [negb];
    [| eexists _, _, _; split; [done |]; split; [naive_solver | by apply acct_balanced]].
  destruct (Hu u eq_refl) as (blk & Henv & Hblk & Hker).
  destruct (map_request_acct map pmem env pa Hmap Hend blk db k u kaddr junk ms0 stk) as (ret & rq & ms & k1 & Em & En & Hr); [done.. |].
  rewrite Em. cbn [mbind option_bind]. destruct (Z.ltb_spec ret 0) as [Hneg | Hpos].
  { eexists _, _, _. split; [done |]. split; [| by apply acct_balanced]. split; [done |]. 
    intros (u' & ms' & E & _ & _ & rc & rq' & k1' & Em' & Hrc & _). injection E as <-. rewrite Em in Em'. injection Em' as <- _ _ _. lia. }
  destruct Hr as (A & W & L & D).
  assert (∃ ret' off rq' m', (if sc_loopback c <? LOOPBACK_NOIO then run_command map c d rq (pm (k_mems k1))
      else Some (ret, false, rq, pm (k_mems k1))) = Some (ret', off, rq', m') ∧
    rq_n_buffers rq' = rq_n_buffers rq ∧ length (rq_dsp_buffer rq') = n_buffers u ∧
    (off = true ↔ sc_loopback c < LOOPBACK_NOIO ∧ gone c d rq (pm (k_mems k1))) ∧
    (sc_loopback c < LOOPBACK_NOIO ∧ gone c d rq (pm (k_mems k1)) → ret' = (dr_boot d).1 ∧ ret' < 0)) as (ret' & off & rq' & m' & -> & En' & D' & Hoff & Hneg).
  { destruct (Z.ltb_spec (sc_loopback c) LOOPBACK_NOIO).
    - destruct (run_command_total c d rq (pm (k_mems k1)) Hans) as (r & o & rq' & m' & -> & ? & Hl & ? & ?); [lia | lia |].
      eexists _, _, _, _. split; [done |]. split; [done |]. split; [lia |]. tauto.
    - eexists _, _, _, _. split; [done |]. split; [done |]. split; [lia |]. split; [split; [done |] |]; intros [? _]; lia. }
  cbn [mbind option_bind].
  destruct (unmap_acct pa k u ms (set_pm k1 m') rq') as [(k2 & E2 & B2) Hun];
    [by apply acct_mems | done | done | congruence | done |].
  assert (off = true ↔ ∃ u' ms', dsp_lost c d db k (Some u) kaddr junk ms0 stk u' ms') as Hiff.
  { rewrite Hoff. split.
    - intros [? ?]. exists u, ms. split_and!; [done.. |]. by exists ret, rq, k1.
    - intros (u' & ms' & E & _ & ? & rc & rq1 & k1' & Em' & _ & Hg). injection E as <-. rewrite Em in Em'. by injection Em' as <- <- <- <-. }
  destruct (Z.eqb_spec ret' 0) as [E0 |].
  - destruct (Hun kaddr) as (r & k3 & -> & B3). eexists _, _, _. split; [done |]. split; [| done].
    split; [done |]. intros Hx. apply Hiff, Hoff, Hneg in Hx. lia.
  - destruct off.
    + destruct (Hneg (proj1 Hoff eq_refl)). eexists ret', true, _. split; [done |]. split; [done |]. split_and!; [done | done |].
      destruct (proj1 Hoff eq_refl). exists u, ms. split; [| by apply acct_mems].
      split_and!; [done.. |]. by exists ret, rq, k1.
    + rewrite E2. eexists _, _, _. split; [done |]. by split.
Qed.
End submit_spec.

(** ** Concrete commands *)

Module SubmitExamples.
Import RefLib RequestMapExamples.
#[local] Existing Instance arch32.
#[local] Existing Instance ShadowExamples.all_access.

(** A DSP that completes the command at the first look, and one that never
    does while the restart of the firmware fails and leaves it off. *)
Definition cfg (irq : bool) : submit_cfg := mk_submit_cfg 0 false irq true 0x9000.
Definition done_mem (m : mem) : mem := store32 m 0x9000 3.
Definition good : dsp_run := mk_dsp_run (λ m, [(10, done_mem m)]) (λ m, [(done_mem m, true)]) done_mem (0, false).
Definition dead : dsp_run := mk_dsp_run (λ m, [(0, m)]) (λ m, [(m, false)]) (λ m, m) (- ENODEV, true).

Lemma good_answers : answers (cfg true) good.
Proof.
  intros m. cbn. eexists. unfold xrp_cmd_complete, xrp_comm_read32, done_mem, cmd_flags. by rewrite load32_store32.
Qed.

Lemma submit_sync_balanced_witness :
  ∃ ret leak k', xrp_ioctl_submit_sync MapExamples.map2 0 env0 (λ v, v) (cfg true) good true true k0 (Some user0)
                   0xc0000000 zero_alien zeroed stack0 = Some (ret, leak, k') ∧ leak = false ∧ balanced k0 k'.
Proof.
  destruct (submit_sync_balanced MapExamples.map2 0 env0 (λ v, v) MapExamples.map2_ok PageExamples.map2_page_ended (cfg true) good
    true k0 (Some user0) 0xc0000000 zero_alien zeroed stack0 Examples.st0_inv Examples.st0_inv good_answers)
    as (ret & leak & k' & E & _ & Hk); [| by split_and!.. |].
  { intros u' [= <-]. exists blk0. split_and!; [apply env0_good | apply user0_blocks | apply kernel0_good]. }
  exists ret, leak, k'. split; [exact E |]. destruct leak; [| by split]. destruct Hk as (-> & Hn & _). discriminate Hn.
Defined.

Definition outcome (d : dsp_run) (u : user_request) : option (Z * bool * Z) :=
  (λ x : Z * bool * kstate xrp_private_pool, (x.1.1, x.1.2, k_pins x.2 0x10002)) <$>
    xrp_ioctl_submit_sync MapExamples.map2 0 env0 (λ v, v) (cfg false) d true true k0 (Some u) 0xc0000000 zero_alien zeroed stack0.

(** Success gives the page of the input data up; when the DSP went off it
    stays pinned; a request that is not valid has no effect. *)
Example submit_good : outcome good user0 = Some (0, false, 0).
Proof. vm_compute. reflexivity. Qed.
Example submit_dead : outcome dead user0 = Some (- ENODEV, true, 1).
Proof. vm_compute. reflexivity. Qed.
(** With the exchange switched off the DSP answers nothing: the inline output
    data is whatever the stack held. *)
Example loopback_copies_stack :
  (λ x : Z * bool * kstate xrp_private_pool, (x.1.1, load_bytes (um (k_mems x.2)) 0x2100 4)) <$>
    xrp_ioctl_submit_sync MapExamples.map2 0 env0 (λ v, v) (mk_submit_cfg LOOPBACK_NOIO false true true 0x9000) good true true k0
      (Some user0) 0xc0000000 zero_alien zeroed stack0 = Some (0, [7; 7; 7; 7]).
Proof. vm_compute. reflexivity. Qed.
Example submit_invalid :
  outcome good (mk_user {| q_flags := 8; q_in_data_size := 0; q_out_data_size := 0; q_buffer_size := 0;
                           q_in_data_addr := 0; q_out_data_addr := 0; q_buffer_addr := 0; q_nsid_addr := 0 |}
                  None None (λ _, None)) = Some (- EINVAL, false, 0).
Proof. vm_compute. reflexivity. Qed.
End SubmitExamples.
