(* ===== verification/RequestData.v ===== *)
(** * The data of a request: to the DSP (xrp-kernel/xvp_main.c)

    [xrp_map_request] shares block after block: a later share never disturbs
    an earlier one, and when all are made the DSP finds the user's data in
    every block it is to read, and the descriptors of the buffers. *)

From stdpp Require Import base tactics list gmap numbers.
From S2P Require Import Prelude Mem Interface Alloc PrivateAlloc AddressMap Request PageMap Shadow Share MapRequest.

(** ** The memory of a pool *)

(** The memory a pool hands out: it contains every allocation and stays the
    same when one is made. *)
Class PoolMemory `{Arch} (P : Type) `{!AllocOps P} `{!AllocSpec P} := {
  pool_mem : P → Z → Prop;
  pool_mem_live p live a x : pool_inv p live → a ∈ live → a_start a ≤ x < a_end a → pool_mem p x;
  pool_mem_alloc kz1 kz2 p size align x : pool_mem (ops_alloc kz1 kz2 p size align).2 x ↔ pool_mem p x;
}.

Lemma private_alloc_region `{Arch} kz1 kz2 p size align :
  region (xrp_private_alloc kz1 kz2 p size align).2 = region p.
Proof. unfold xrp_private_alloc. repeat (case_match; try done). Qed.

#[export, refine] Instance private_pool_memory `{Arch} : PoolMemory xrp_private_pool :=
  {| pool_mem p x := in_block x (region p) = true |}.
Proof.
  - intros p live a x [_ _ _ Hc _] Ha Hx. specialize (Hc x). pose proof (cover_in _ _ _ Ha Hx).
    pose proof (cover_nonneg (pl_free_list p) x). destruct (in_block x (region p)); [done | lia].
  - intros. cbn. by rewrite private_alloc_region.
Defined.

(** The user's contents of a shared block: of a shadow copy the user's own
    memory, of memory used in place the memory itself. *)
Definition is_copy (m : xrp_mapping) : bool :=
  match m with
  | XRP_MAPPING_ALIEN am | XRP_MAPPING_KERNEL_ALIEN am => match am_type am with ALIEN_COPY => true | _ => false end
  | _ => false
  end.
Definition user_bytes (s : mems) (virt size p : Z) (m : xrp_mapping) : list Z :=
  if is_copy m then load_bytes (um s) virt (Z.to_nat size) else load_bytes (pm s) p (Z.to_nat size).

(** Where the user's block is, when it is used in place: in an area of the
    driver, or in the pages behind the user's addresses. *)
Definition lies_at `{Arch} `{KLib} (map : xrp_address_map) (pmem : Z) (e : share_env) (virt size p : Z) (m : xrp_mapping) : Prop :=
  match m with
  | XRP_MAPPING_NATIVE own ptr =>
      ∃ ar, se_find e virt = Some ar ∧ ptr = ar_private ar ∧ native_block map pmem ar virt size = Some (own, p)
  | XRP_MAPPING_ALIEN am =>
      am_type am = ALIEN_COPY ∨ ∀ j, 0 ≤ j < size → byte_phys (se_follow e) (virt + j) = Ok (p + j)
  | _ => False
  end.

Section data.
Context `{Arch} `{KLibSpec} {P : Type} `{!AllocOps P} `{!AllocSpec P} `{!PoolMemory P} `{UserAccess}.
Variables (map : xrp_address_map) (pmem : Z) (env : nat → kstate P → share_env) (pa : Z → Z).
Hypothesis Hmap : map_ok map.
Hypothesis Hend : page_ended map.
Hypothesis Hbits : phys_bits ≤ long_bits.
(** Memory of the driver that is neither in the pool nor the user's. *)
Variable kp : Z → Prop.

(** ** Memory a new allocation cannot be given *)

Definition settled (k : kstate P) (x : Z) : Prop :=
  ¬ pool_mem (st_pool (k_own k)) x ∨
  ∃ ptr a, st_objs (k_own k) !! ptr = Some a ∧ a_start a ≤ x < a_end a.

(** A step that makes new allocations and writes to nothing else. *)
Record grows (k k' : kstate P) : Prop := {
  gr_um : um (k_mems k') = um (k_mems k);
  gr_pm x : settled k x → pm (k_mems k') x = pm (k_mems k) x;
  gr_settled x : settled k x → settled k' x;
  gr_pool x : pool_mem (st_pool (k_own k')) x ↔ pool_mem (st_pool (k_own k)) x;
  gr_ok : mem_ok (um (k_mems k)) → mem_ok (pm (k_mems k)) → mem_ok (pm (k_mems k'));
}.

#[local] Instance grows_preorder : PreOrder grows.
Proof.
  split; [by intros k |]. intros k1 k2 k3 [U1 P1 S1 M1 O1] [U2 P2 S2 M2 O2]. split.
  - congruence.
  - intros x Hx. rewrite P2, P1; auto.
  - auto.
  - intros x. by rewrite M2.
  - intros Hu Hp. apply O2; [by rewrite U1 | auto].
Qed.

(** Reference counts do not matter. *)
Lemma grows_refs k k' :
  k_mems k' = k_mems k → st_pool (k_own k') = st_pool (k_own k) →
  (∀ ptr a, st_objs (k_own k) !! ptr = Some a → ∃ r, st_objs (k_own k') !! ptr = Some (set_ref a r)) → grows k k'.
Proof.
  intros Em Ep Ho. split; [by rewrite Em | by intros; rewrite Em | | by intros; rewrite Ep | by rewrite Em].
  intros x [Hn | (ptr & a & Ha & Hx)]; [left; by rewrite Ep |]. right. destruct (Ho ptr a Ha) as [r Hr]. by exists ptr, (set_ref a r).
Qed.

Lemma set_ref_same (a : xrp_allocation) : set_ref a (a_ref a) = a.
Proof. by destruct a. Qed.

Lemma mapping_get_grows k own ptr k' : mapping_get k own ptr = Some k' → grows k k'.
Proof.
  unfold mapping_get, xrp_allocation_get. destruct own.
  - destruct (st_objs (k_own k) !! ptr) as [a |] eqn:Ea; [| done]. intros [= <-]. apply grows_refs; [done | done |].
    intros q b Hb. cbn. destruct (decide (q = ptr)) as [-> | Hne].
    + rewrite lookup_insert_eq. eexists. by simplify_eq.
    + rewrite lookup_insert_ne by done. exists (a_ref b). by rewrite set_ref_same.
  - destruct (st_objs (k_other k) !! ptr); [| done]. intros [= <-]. apply grows_refs; [done | done |].
    intros q b Hb. exists (a_ref b). by rewrite set_ref_same.
Qed.

Lemma in_place_own e (k : kstate P) ar virt size r k' : share_in_place map e k ar virt size = Some (r, k') → k_own k' = k_own k.
Proof.
  unfold share_in_place. destruct (from_option _ _ _); [by intros [= _ <-] |].
  intros Hx. apply bind_Some in Hx as (x & _ & Hx). by injection Hx as _ <-.
Qed.

Lemma in_place_type e (k : kstate P) ar virt size p am k' :
  share_in_place map e k ar virt size = Some (Ok (p, am), k') → am_type am ≠ ALIEN_COPY.
Proof.
  unfold share_in_place, xvp_pfn_virt_to_phys, xvp_gup_virt_to_phys. destruct (from_option _ _ _); intros Hx.
  - destruct (se_follow e virt); [| done]. cbn in Hx. destruct (xrp_get_address_mapping _ _); [| done]. destruct (pfn_loop _ _ _ _ _ _); [| done]. by simplify_eq/=.
  - apply bind_Some in Hx as (x & Hx & E). injection E as E _. repeat (case_match; try done); by simplify_eq/=.
Qed.

Lemma in_place_grows e k ar virt size r k' : share_in_place map e k ar virt size = Some (r, k') → grows k k'.
Proof.
  assert (∀ pins, grows k (set_pins k pins)) as Hg.
  { intros pins. apply grows_refs; [done | done |]. intros q b Hb. exists (a_ref b). by rewrite set_ref_same. }
  unfold share_in_place. destruct (from_option _ _ _); [intros [= _ <-]; reflexivity |].
  intros Hx. apply bind_Some in Hx as (x & _ & Hx). injection Hx as _ <-. apply Hg.
Qed.

(** ** A new shadow copy *)

Lemma allocate_pool kz1 kz2 (st : alloc_state P) size align r st' x :
  xrp_allocate kz1 kz2 st size align = (r, st') → pool_mem (st_pool st') x ↔ pool_mem (st_pool st) x.
Proof.
  unfold xrp_allocate. pose proof (pool_mem_alloc kz1 kz2 (st_pool st) size align x) as Hm.
  destruct (ops_alloc _ _ _ _ _) as [[a | er] p]; intros [= <- <-]; done.
Qed.

Lemma copy_virt_pool kz1 kz2 (st : alloc_state P) s flags virt size p am st' s' x :
  xvp_copy_virt_to_phys kz1 kz2 st s flags virt size = Some (Ok (p, am), st', s') →
  pool_mem (st_pool st') x ↔ pool_mem (st_pool st) x.
Proof.
  unfold xvp_copy_virt_to_phys. destruct (xrp_allocate _ _ _ _ _) as [[ptr |] st1] eqn:Ea; [| done].
  intros Hx. apply bind_Some in Hx as (a & _ & Hx). apply (allocate_pool _ _ _ _ _ _ _ x) in Ea.
  destruct (_ =? 0); [by injection Hx as _ _ <- _ |].
  apply bind_Some in Hx as ([rc s1] & _ & Hx). cbn [fst snd] in Hx.
  destruct (rc =? 0); [by injection Hx as _ _ <- _ | by apply bind_Some in Hx as (? & _ & ?)].
Qed.

Lemma live_pool_mem (st : alloc_state P) ptr a x :
  alloc_inv st → st_objs st !! ptr = Some a → a_start a ≤ x < a_end a → pool_mem (st_pool st) x.
Proof. intros Hi Ha. eapply pool_mem_live; [apply Hi | by eapply live_elem]. Qed.

Lemma live_range (st : alloc_state P) ptr a :
  alloc_inv st → st_objs st !! ptr = Some a → 0 ≤ a_start a ∧ a_end a ≤ 2 ^ phys_bits.
Proof. intros Hi Ha. destruct (pool_offset _ _ a (ai_pool _ Hi)) as (_ & ? & ?); [by eapply live_elem | lia]. Qed.

(** Its bytes were free before. *)
Lemma share_copy_grows k e flags virt size p am k' :
  alloc_inv (k_own k) → kz_fresh (ops_heap (st_pool (k_own k))) (se_kz1 e) (se_kz2 e) → shadow_request virt size →
  share_copy e k flags virt size = Some (Ok (p, am), k') →
  grows k k' ∧ am = mk_alien virt size p (am_allocation am) ALIEN_COPY ∧ 0 ≤ p ∧ p + size ≤ 2 ^ phys_bits ∧
  (∀ x, p ≤ x < p + size → settled k' x ∧ ¬ settled k x ∧ pool_mem (st_pool (k_own k)) x) ∧
  (Z.land flags XRP_FLAG_READ ≠ 0 →
     load_bytes (pm (k_mems k')) p (Z.to_nat size) = load_bytes (um (k_mems k)) virt (Z.to_nat size)).
Proof.
  intros Hi Hkz Hreq Hx. destruct (share_copy_data k e flags virt size p am k' (proj1 Hreq) Hx) as [_ Hdata].
  unfold share_copy in Hx. apply bind_Some in Hx as ([[r st] s'] & Hx & E). cbn [fst snd] in E. injection E as -> <-. cbn [k_mems] in Hdata.
  destruct (shadow_copy_refs (se_kz1 e) (se_kz2 e) (k_own k) (k_mems k) flags virt size Hi Hkz Hreq) as (r & st1 & s1 & E1 & Hi1 & _).
  rewrite Hx in E1. injection E1 as <- <- <-.
  destruct (shadow_copy_spec _ _ _ _ _ _ _ _ _ _ Hi Hkz Hreq (λ q a, live_range st q a Hi1) Hbits Hx)
    as (_ & a & Hnone & Eobjs & _ & Hlo & Hhi & _ & Eam & Hs).
  assert (st_objs st !! am_allocation am = Some a) as Ha by (rewrite Eobjs; apply lookup_insert_eq).
  pose proof (live_range st _ a Hi1 Ha) as [Ha0 Hb]. pose proof (λ x, copy_virt_pool _ _ _ _ _ _ _ _ _ _ _ x Hx) as Hp.
  assert (∀ x, a_start a ≤ x < a_end a → ¬ settled k x) as Hfree.
  { intros x Hin [Hn | (ptr & b & Hb' & Hxb)]; [apply Hn, Hp; by eapply live_pool_mem |].
    assert (ptr ≠ am_allocation am) as Hne by congruence.
    eapply (live_disjoint st ptr (am_allocation am) b a x); [done | by rewrite Eobjs, lookup_insert_ne | done..]. }
  split_and!; [| done | lia | lia | | done].
  - split; cbn [k_mems k_own].
    + destruct (_ =? 0); [by rewrite Hs | by destruct Hs].
    + intros x Hset. destruct (_ =? 0); [by rewrite Hs |]. destruct Hs as [_ Hs]. rewrite Hs. apply store_bytes_out.
      rewrite length_load_bytes. destruct (decide (a_start a ≤ x < a_end a)); [by destruct (Hfree x) | destruct Hreq; lia].
    + intros x [Hn | (ptr & b & Hb' & Hxb)]; [left; cbn; by rewrite Hp |]. right. cbn. exists ptr, b. split; [| done].
      rewrite Eobjs, lookup_insert_ne; congruence.
    + done.
    + intros Hu Hm. destruct (_ =? 0); [by rewrite Hs |]. destruct Hs as [_ Hs]. intros x. rewrite Hs.
      apply mem_ok_store_bytes; [done | by apply bytes_load_bytes].
  - intros x Hin. split_and!; [right; exists (am_allocation am), a; split; [done | lia] | apply Hfree; lia |].
    apply Hp. eapply live_pool_mem; [done | done | lia].
Qed.

(** ** What the DSP and the user find in a block *)

(** [S]: bytes that are not disturbed.  A block shared as [p] with the DSP
    lies there, in one range of the address map, and holds the user's data
    of state [s0] if the DSP is to read it. *)
Record delivered (S : Z → Prop) (s0 s : mems) (virt size flags p : Z) (m : xrp_mapping) : Prop := {
  dl_mapping : match m with
    | XRP_MAPPING_NATIVE _ _ => True
    | XRP_MAPPING_ALIEN am => am_vaddr am = virt ∧ am_size am = size ∧ am_paddr am = p
    | _ => False
    end;
  dl_place : ∃ i k, lies_at map pmem (env i k) virt size p m;
  dl_size : 0 < size;
  dl_phys : 0 ≤ p ∧ p + size ≤ 2 ^ phys_bits;
  dl_range : one_range map p size;
  dl_safe x : p ≤ x < p + size → S x;
  dl_bytes : Z.land flags XRP_FLAG_READ ≠ 0 →
    load_bytes (pm s) p (Z.to_nat size) = user_bytes s0 virt size p m;
}.

Lemma delivered_mono (S S' : Z → Prop) s0 s s' virt size flags p m :
  (∀ x, S x → S' x ∧ pm s' x = pm s x) →
  delivered S s0 s virt size flags p m → delivered S' s0 s' virt size flags p m.
Proof.
  intros HS [D1 Dl D2 D3 D4 D5 D6]. split; [done.. | |].
  - intros x Hx. by apply HS, D5.
  - intros Hf. rewrite <- D6 by done. apply load_bytes_ext. intros x Hx. apply HS, D5. lia.
Qed.

(** Bytes no later share of the request disturbs. *)
Definition safe (k : kstate P) (x : Z) : Prop := settled k x ∧ ¬ kp x.

Lemma safe_grows k k' x : grows k k' → safe k x → safe k' x ∧ pm (k_mems k') x = pm (k_mems k) x.
Proof. intros [_ Hp Hs _ _] [Hx Hn]. split; [split; auto | auto]. Qed.

(** Memory of the user that can be used in place, in the state before the
    request: it is not for new allocations to have, and not the driver's. *)
Record in_place_ok (k0 : kstate P) (e : share_env) (virt size : Z) : Prop := {
  ip_pages x y : virt ≤ x < virt + size → byte_phys (se_follow e) x = Ok y → safe k0 y;
  ip_native ar own p : se_find e virt = Some ar → native_block map pmem ar virt size = Some (own, p) →
    vm_start (ar_vma ar) ≤ virt → virt + size ≤ vm_end (ar_vma ar) →
    0 ≤ p ∧ p + size ≤ 2 ^ phys_bits ∧
    ∀ y, p ≤ y < p + size → safe k0 y ∧ (own = true → pool_mem (st_pool (k_own k0)) y);
}.

(** The DSP can reach the pool. *)
Definition pool_reachable (k0 : kstate P) : Prop :=
  ∃ e, e ∈ map ∧ ∀ x, pool_mem (st_pool (k_own k0)) x → covers x e = true.

Lemma pool_one_range k0 p size :
  pool_reachable k0 → (∀ x, p ≤ x < p + size → pool_mem (st_pool (k_own k0)) x) → one_range map p size.
Proof. intros (e & He & Hc) Hp. exists e. split; [done |]. intros j Hj. apply Hc, Hp. lia. Qed.

(** The check of both ends of a block of another device. *)
Lemma ends_one_range p size e :
  0 < size → 0 ≤ p → p + size ≤ 2 ^ phys_bits →
  xrp_get_address_mapping map p = Some e → xrp_compare_address (phys (p + size - 1)) e = 0 → one_range map p size.
Proof.
  intros Hs Hp Hb He Hc. rewrite phys_small in Hc by lia. apply (get_mapping_iff map p e Hmap) in He as [Hin Hcov]; [| lia].
  pose proof (compare_covers map e (p + size - 1) Hmap Hin ltac:(lia)) as Hcc. rewrite Hc in Hcc. symmetry in Hcc. exists e. split; [done |]. intros j Hj. unfold covers in *. lia.
Qed.

(** A share delivers the block, whatever was shared before. *)
Lemma share_delivers k0 k i virt size flags m0 p m k' :
  let e := env i k in
  alloc_inv (k_own k) → env_ok k e virt size → in_place_ok k0 e virt size → pool_reachable k0 →
  (∀ x, kp x → ¬ pool_mem (st_pool (k_own k0)) x) → grows k0 k →
  __xrp_share_block map pmem e k virt size flags m0 = Some (Ok p, m, k') →
  grows k k' ∧ delivered (safe k') (k_mems k0) (k_mems k') virt size flags p m.
Proof.
  intros e Hi He Hip Hreach Hkp Hg Hx. destruct (eo_block _ _ _ _ He) as (Hv & Hs & Hl & Hl2).
  pose proof (share_block_spec map pmem k e virt size flags m0 p m k' Hmap Hend He Hx) as Hspec.
  unfold __xrp_share_block in Hx. destruct (se_find e virt) as [ar |] eqn:Ef; [| done].
  apply bind_Some in Hx as (n & _ & Hx). destruct (n =? 0); [done |].
  set (v := if n =? 1 then Some ar else None) in *.
  destruct (ar' ← v; native_block map pmem ar' virt size) as [[own p'] |] eqn:Eb.
  - apply bind_Some in Hx as (k1 & Eg & Hx). injection Hx as <- <- <-.
    destruct Hspec as (ar' & E' & _ & Hlo & Hhi & Hother & _). injection E' as <-.
    assert (native_block map pmem ar virt size = Some (own, p')) as En by (unfold v in Eb; by destruct (n =? 1)).
    destruct (ip_native _ _ _ _ Hip ar own p' Ef En Hlo Hhi) as (Hp0 & Hpb & Hbytes).
    pose proof (mapping_get_grows _ _ _ _ Eg) as Hg1. split; [done |]. split; [done | by exists i, k, ar | done | done | | |].
    + destruct own; [apply (pool_one_range k0); [done |]; intros x Hx; by apply Hbytes |].
      destruct (Hother eq_refl) as (en & Hen & Hc). by eapply ends_one_range.
    + intros x Hx. by apply (safe_grows k0 k1); [etrans | apply Hbytes].
    + intros _. unfold user_bytes. cbn. apply load_bytes_ext. intros x Hx. apply (safe_grows k0 k1); [by etrans | apply Hbytes; lia].
  - apply bind_Some in Hx as ([r1 k1] & E1 & Hx). apply bind_Some in Hx as ([r2 k2] & E2 & Hx). cbn [fst snd] in *.
    destruct r2 as [[p2 am] |]; [| done]. injection Hx as <- <- <-. pose proof (in_place_grows _ _ _ _ _ _ _ E1) as Hg1.
    destruct Hspec as (Ev & Esz & _ & Hspec). rewrite Ev. replace (am_paddr am + virt - virt) with (am_paddr am) by lia.
    destruct r1 as [[p1 am1] | er].
    + injection E2 as <- <- <-. pose proof (in_place_type _ _ _ _ _ _ _ _ E1) as Ht.
      assert (shared_block (se_follow e) map virt size (am_paddr am1)) as [Hr Hb] by (destruct (am_type am1); done).
      assert (∀ x, am_paddr am1 ≤ x < am_paddr am1 + size → safe k0 x) as Hsafe.
      { intros x Hx. destruct (Hb (x - am_paddr am1) ltac:(lia)) as [Ep _].
        replace (am_paddr am1 + (x - am_paddr am1)) with x in Ep by lia. apply (ip_pages _ _ _ _ Hip) in Ep; [done | lia]. }
      assert (0 ≤ am_paddr am1 ∧ am_paddr am1 + size ≤ 2 ^ phys_bits) as Hph.
      { destruct Hr as (en & Hin & Hc). pose proof (proj1 (list.Forall_forall _ _) (proj1 Hmap) en Hin) as (? & _ & ?).
        pose proof (Hc 0 ltac:(lia)) as Hc0. pose proof (Hc (size - 1) ltac:(lia)) as Hc1. unfold covers in *. lia. }
      rewrite phys_small by lia. assert (is_copy (XRP_MAPPING_ALIEN am1) = false) as Ecp by (cbn; by destruct (am_type am1)).
      split; [done |]. split; [done | exists i, k; right; intros j Hj; by apply Hb | done.. | |].
      * intros x Hx. apply (safe_grows k0 k1); [by etrans | auto].
      * intros _. unfold user_bytes. rewrite Ecp. apply load_bytes_ext. intros x Hx.
        apply (safe_grows k0 k1); [by etrans | apply Hsafe; lia].
    + pose proof (in_place_own _ _ _ _ _ _ _ E1) as Eo. assert (grows k0 k1) as Hg2 by (by etrans).
      destruct (share_copy_grows k1 e flags virt size p2 am k2) as (Hg3 & Eam & Hp0 & Hpb & Hfree & Hdata);
        [by rewrite Eo | rewrite Eo; apply He | apply He | done |].
      rewrite Eam. cbn [am_paddr]. rewrite phys_small by lia. split; [by etrans |]. split; [done | exists i, k; by left | done | done | | |].
      * apply (pool_one_range k0); [done |]. intros x Hx. apply (gr_pool _ _ Hg2). by apply Hfree.
      * intros x Hx. destruct (Hfree x Hx) as (? & _ & Hpool). split; [done |]. intros Hk. by apply (Hkp x Hk), (gr_pool _ _ Hg2).
      * intros Hf. rewrite Hdata by done. unfold user_bytes. cbn. by rewrite (gr_um _ _ Hg2).
Qed.

(** ** The blocks of a request *)

Variable blk : Z → Z → Prop.

(** What the request relies on for its data, from the state before it. *)
Record data_good (k0 : kstate P) : Prop := {
  dg_env : env_good env blk k0;
  dg_in_place i k v sz : blk v sz → in_place_ok k0 (env i k) v sz;
  dg_reach : pool_reachable k0;
  dg_private x : kp x → ¬ pool_mem (st_pool (k_own k0)) x;
}.

(** One share, with the accounting. *)
Lemma share_step k0 i ms k virt size flags m0 p m k' :
  data_good k0 → blk virt size → acct k0 ms k → (length ms ≤ i)%nat → grows k0 k →
  __xrp_share_block map pmem (env i k) k virt size flags m0 = Some (Ok p, m, k') →
  acct k0 (m :: ms) k' ∧ grows k k' ∧ delivered (safe k') (k_mems k0) (k_mems k') virt size flags p m.
Proof.
  intros [He Hip Hr Hk] Hb Ha Hlen Hg Hx. pose proof (He i ms k virt size Hb Ha Hlen) as Hok.
  destruct (share_acct map pmem k0 ms k (env i k) virt size flags m0 Hmap Hend Hok Ha) as (r & m' & k1 & E & Hr').
  rewrite Hx in E. injection E as <- <- <-. split; [apply Hr' |].
  eapply share_delivers; [apply Ha | done | by apply Hip | done | done | done | done].
Qed.

Definition buffer_delivered (S : Z → Prop) (s0 s : mems) (ob : option xrp_ioctl_buffer) (m : xrp_mapping)
    (d : xrp_dsp_buffer) : Prop :=
  ∃ b, ob = Some b ∧ db_flags d = ib_flags b ∧ db_size d = ib_size b ∧
    ∃ p, db_addr d = xrp_translate_to_dsp map p ∧
      if Z.land (ib_flags b) XRP_FLAG_READ_WRITE =? 0 then m = XRP_MAPPING_NONE
      else delivered S s0 s (ib_addr b) (ib_size b) (ib_flags b) p m.

Lemma buffer_delivered_mono (S S' : Z → Prop) s0 s s' ob m d :
  (∀ x, S x → S' x ∧ pm s' x = pm s x) → buffer_delivered S s0 s ob m d → buffer_delivered S' s0 s' ob m d.
Proof.
  intros HS (b & -> & ? & ? & p & ? & Hb). exists b. split_and!; [done.. |]. exists p. split; [done |].
  destruct (_ =? 0); [done | by eapply delivered_mono].
Qed.

Lemma map_buffers_delivers k0 l i ms k mb ds k' :
  data_good k0 → (∀ b, Some b ∈ l → Z.land (ib_flags b) XRP_FLAG_READ_WRITE ≠ 0 → blk (ib_addr b) (ib_size b)) →
  acct k0 ms k → (length ms ≤ i)%nat → grows k0 k →
  map_buffers map pmem env i k l = Some (0, mb, ds, k') →
  grows k k' ∧ acct k0 (mb ++ ms) k' ∧ Forall3 (buffer_delivered (safe k') (k_mems k0) (k_mems k')) l mb ds.
Proof.
  intros Hdg. revert i ms k mb ds. induction l as [| [b |] l IH]; intros i ms k mb ds Hblk Ha Hlen Hg Hx; cbn [map_buffers] in Hx.
  - injection Hx as <- <- <-. split_and!; [reflexivity | done | constructor].
  - apply bind_Some in Hx as ([[r m] k1] & E & Hx). destruct r as [p | er].
    2:{ injection Hx as Her _ _ _. destruct (_ =? 0); [done |]. apply share_error in E. by rewrite E in Her. }
    apply bind_Some in Hx as ([[[ret mb'] ds'] k2] & Eb & Hx). injection Hx as -> <- <- <-.
    assert (grows k k1 ∧ acct k0 (m :: ms) k1 ∧ (if Z.land (ib_flags b) XRP_FLAG_READ_WRITE =? 0 then m = XRP_MAPPING_NONE
      else delivered (safe k1) (k_mems k0) (k_mems k1) (ib_addr b) (ib_size b) (ib_flags b) p m)) as (Hg1 & Ha1 & Hd).
    { destruct (Z.eqb_spec (Z.land (ib_flags b) XRP_FLAG_READ_WRITE) 0).
      - injection E as _ <- <-. split_and!; [reflexivity | by apply acct_none | done].
      - destruct (share_step k0 i ms k _ _ _ _ p m k1 Hdg (Hblk b ltac:(left) ltac:(done)) Ha Hlen Hg E) as (? & ? & ?). done. }
    destruct (IH (S i) (m :: ms) k1 mb' ds') as (Hg2 & Ha2 & HF);
      [intros; apply Hblk; [by right | done] | done | cbn; lia | by etrans | done |].
    split_and!; [by etrans | eapply acct_perm; [| exact Ha2]; cbn; by rewrite Permutation_middle |].
    constructor; [| done]. exists b. split_and!; [done.. |]. exists p. split; [done |]. destruct (_ =? 0); [done |].
    eapply delivered_mono; [| exact Hd]. intros x Hs. by apply (safe_grows k1 k2).
  - by injection Hx.
Qed.

Lemma map_data_delivers k0 long i ms k addr size flags m0 p m k' :
  data_good k0 → (long = true → blk addr size) → acct k0 ms k → (length ms ≤ i)%nat → grows k0 k →
  map_data map pmem env long i k addr size flags m0 = Some (Ok p, m, k') →
  grows k k' ∧ acct k0 ((if long then [m] else []) ++ ms) k' ∧
  (long = true → delivered (safe k') (k_mems k0) (k_mems k') addr size flags p m).
Proof.
  intros Hdg Hb Ha Hlen Hg Hx. unfold map_data in Hx. destruct long.
  - destruct (share_step k0 i ms k _ _ _ _ p m k' Hdg (Hb eq_refl) Ha Hlen Hg Hx) as (? & ? & ?). done.
  - injection Hx as _ <- <-. done.
Qed.

(** The kernel memory of the descriptors. *)
Record kernel_mem (kaddr len : Z) : Prop := {
  km_len : 0 ≤ len;
  km_phys : 0 ≤ pa kaddr ∧ pa kaddr + len ≤ 2 ^ phys_bits;
  km_private x : pa kaddr ≤ x < pa kaddr + len → kp x;
  km_range : xrp_translate_to_dsp map (pa kaddr) ≠ XRP_NO_TRANSLATION → one_range map (pa kaddr) len;
}.

(** The array of descriptors, in place or as a copy. *)
Record descs_delivered (S : Z → Prop) (s : mems) (kaddr : Z) (ds : list xrp_dsp_buffer) (p : Z) (m : xrp_mapping) : Prop := {
  dd_mapping : m = XRP_MAPPING_KERNEL ∧ p = pa kaddr ∨
    ∃ al, m = XRP_MAPPING_KERNEL_ALIEN (mk_alien kaddr (12 * Z.of_nat (length ds)) p al ALIEN_COPY);
  dd_phys : 0 ≤ p ∧ p + 12 * Z.of_nat (length ds) ≤ 2 ^ phys_bits;
  dd_range : one_range map p (12 * Z.of_nat (length ds));
  dd_apart x : p ≤ x < p + 12 * Z.of_nat (length ds) →
    ¬ S x ∧ (kp x → pa kaddr ≤ x < pa kaddr + 12 * Z.of_nat (length ds));
  dd_bytes : load_bytes (pm s) p (12 * length ds) = dsp_buffers_bytes ds;
}.

Lemma kernel_write_pm k kaddr l x : safe k x → (∀ y, pa kaddr ≤ y < pa kaddr + Z.of_nat (length l) → kp y) →
  safe (kernel_write pa k kaddr l) x ∧ pm (k_mems (kernel_write pa k kaddr l)) x = pm (k_mems k) x.
Proof.
  intros [Hs Hn] Hk. split; [by split |]. unfold kernel_write. cbn. apply store_bytes_out.
  destruct (decide (pa kaddr ≤ x < pa kaddr + Z.of_nat (length l))) as [Hin |]; [by apply Hk in Hin | lia].
Qed.

Lemma share_kernel_delivers k0 k kaddr ds e junk p m k' :
  let len := 12 * Z.of_nat (length ds) in
  let k1 := kernel_write pa k kaddr (dsp_buffers_bytes ds) in
  alloc_inv (k_own k) → kz_fresh (ops_heap (st_pool (k_own k))) (se_kz1 e) (se_kz2 e) → shadow_request kaddr len →
  kernel_mem kaddr len → pool_reachable k0 → (∀ x, kp x → ¬ pool_mem (st_pool (k_own k0)) x) → grows k0 k →
  xrp_share_kernel map pa e k1 kaddr len XRP_FLAG_READ_WRITE junk = Some (Ok p, m, k') →
  grows k1 k' ∧ descs_delivered (safe k1) (k_mems k') kaddr ds p m.
Proof.
  intros len k1 Hi Hkz Hreq [Hl Hph Hpr Hra] Hreach Hkp Hg Hx.
  assert (Z.of_nat (length (dsp_buffers_bytes ds)) = len) as Elen by (rewrite length_dsp_buffers_bytes; lia).
  assert (∀ a, load_bytes (store_bytes a kaddr (dsp_buffers_bytes ds)) kaddr (12 * length ds) = dsp_buffers_bytes ds) as Eu
    by (intros a; rewrite <- length_dsp_buffers_bytes; apply load_store_same).
  unfold xrp_share_kernel in Hx. destruct (Z.eqb_spec (xrp_translate_to_dsp map (pa kaddr)) XRP_NO_TRANSLATION) as [Et | Et].
  - apply bind_Some in Hx as ([[[p' am] | er] k2] & E & Hx); [| done]. injection Hx as <- <- <-.
    destruct (share_copy_grows k1 e XRP_FLAG_READ_WRITE kaddr len p' am k2) as (Hg1 & Eam & Hp0 & Hpb & Hfree & Hdata); [done.. |].
    split; [done |]. split; [right; exists (am_allocation am); f_equal; exact Eam | done | | |].
    + apply (pool_one_range k0); [done |]. intros x Hx. apply (gr_pool _ _ Hg). by apply Hfree.
    + intros x Hx. destruct (Hfree x Hx) as (_ & Hns & Hpool). split; [by intros [? _] |].
      intros Hk. exfalso. by apply (Hkp x Hk), (gr_pool _ _ Hg).
    + replace (12 * length ds)%nat with (Z.to_nat len) at 1 by lia. rewrite Hdata by done.
      replace (Z.to_nat len) with (12 * length ds)%nat by lia. apply Eu.
  - injection Hx as <- <- <-. split; [reflexivity |]. split; [by left | done | by apply Hra | |].
    + intros x Hx. split; [| done]. intros [_ Hn]. by apply Hn, Hpr.
    + change (pm (k_mems k1)) with (store_bytes (pm (k_mems k)) (pa kaddr) (dsp_buffers_bytes ds)). rewrite <- length_dsp_buffers_bytes. apply load_store_same.
Qed.

(** What a mapped request holds in memory [s], given the user's data in [s0]. *)
Record request_delivered (S : Z → Prop) (s0 s : mems) (u : user_request) (kaddr : Z) (rq : xrp_request) (ms : rq_maps) : Prop := {
  rd_in : long_in (u_queue u) = true →
    delivered S s0 s (q_in_data_addr (u_queue u)) (q_in_data_size (u_queue u)) XRP_FLAG_READ (rq_in_data_phys rq) (m_in_data ms);
  rd_out : long_out (u_queue u) = true →
    delivered S s0 s (q_out_data_addr (u_queue u)) (q_out_data_size (u_queue u)) XRP_FLAG_WRITE (rq_out_data_phys rq) (m_out_data ms);
  rd_buffers : Forall3 (buffer_delivered S s0 s) (u_buffers u) (m_buffer ms) (rq_dsp_buffer rq);
  rd_descs : many (n_buffers u) = true →
    descs_delivered S s kaddr (rq_dsp_buffer rq) (rq_dsp_buffer_phys rq) (m_dsp_buffer ms);
  rd_um x : x < kaddr ∨ kaddr + 12 * Z.of_nat (n_buffers u) ≤ x → um s x = um s0 x;
  rd_apart x : kp x → ¬ S x;
  rd_ok : mem_ok (um s0) → mem_ok (pm s0) → mem_ok (pm s);
}.

(** Blocks stay delivered through the later steps. *)
Lemma request_delivered_intro k1 k2 k3 S s0 s u kaddr rq ms :
  grows k1 k2 → grows k2 k3 →
  (long_in (u_queue u) = true → delivered (safe k1) s0 (k_mems k1) (q_in_data_addr (u_queue u)) (q_in_data_size (u_queue u))
     XRP_FLAG_READ (rq_in_data_phys rq) (m_in_data ms)) →
  (long_out (u_queue u) = true → delivered (safe k2) s0 (k_mems k2) (q_out_data_addr (u_queue u)) (q_out_data_size (u_queue u))
     XRP_FLAG_WRITE (rq_out_data_phys rq) (m_out_data ms)) →
  Forall3 (buffer_delivered (safe k3) s0 (k_mems k3)) (u_buffers u) (m_buffer ms) (rq_dsp_buffer rq) →
  (∀ x, safe k3 x → S x ∧ pm s x = pm (k_mems k3) x) →
  (many (n_buffers u) = true → descs_delivered S s kaddr (rq_dsp_buffer rq) (rq_dsp_buffer_phys rq) (m_dsp_buffer ms)) →
  (∀ x, x < kaddr ∨ kaddr + 12 * Z.of_nat (n_buffers u) ≤ x → um s x = um s0 x) →
  (∀ x, kp x → ¬ S x) → (mem_ok (um s0) → mem_ok (pm s0) → mem_ok (pm s)) →
  request_delivered S s0 s u kaddr rq ms.
Proof.
  intros G12 G23 D1 D2 D3 T Dd Hu Hk Hok.
  assert (∀ k x, grows k k3 → safe k x → S x ∧ pm s x = pm (k_mems k) x) as Tk.
  { intros k x G Hx. destruct (safe_grows _ _ x G Hx) as [Hx3 E]. destruct (T x Hx3) as [? E']. split; [done | congruence]. }
  split; [| | | done | done | done | done].
  - intros Hl. eapply delivered_mono; [| by apply D1]. intros x. apply Tk. by etrans.
  - intros Hl. eapply delivered_mono; [| by apply D2]. intros x. by apply Tk.
  - eapply Forall3_impl; [exact D3 |]. intros ob m d. by apply buffer_delivered_mono.
Qed.

Lemma share_kernel_error e (k : kstate P) virt size flags junk er m k' :
  xrp_share_kernel map pa e k virt size flags junk = Some (Err er, m, k') → 0 < er.
Proof.
  unfold xrp_share_kernel, share_copy, xvp_copy_virt_to_phys, xrp_allocate. destruct (_ =? _); [| done].
  intros Hx. apply bind_Some in Hx as ([[[p am] | er'] k1] & Hx & E); [done |]. injection E as -> _ _.
  apply bind_Some in Hx as ([[r st] s] & Hx & E). cbn [fst] in E. injection E as -> _.
  destruct (ops_alloc _ _ _ _ _) as [[a | er''] pl] eqn:Eo; [| injection Hx as -> _ _; by eapply pool_alloc_errno].
  apply bind_Some in Hx as (a' & _ & Hx). destruct (_ =? 0); [done |].
  apply bind_Some in Hx as (x & _ & Hx). destruct (x.1 =? 0); [done |]. apply bind_Some in Hx as (? & _ & Hx). by injection Hx as <- _ _.
Qed.

Lemma map_blocks_delivers k0 u kaddr junk ms0 p ds ms k' :
  let rq := λ q, {| rq_ioctl_queue := u_queue u; rq_n_buffers := Z.of_nat (n_buffers u); rq_dsp_buffer := ds;
    rq_in_data_phys := p.1.1; rq_out_data_phys := p.1.2; rq_dsp_buffer_phys := p.2;
    rq_in_data := q.1; rq_out_data := q.2.1; rq_nsid := q.2.2 |} in
  data_good k0 → alloc_inv (k_own k0) → alloc_inv (k_other k0) → request_blocks blk u → kernel_good env k0 (n_buffers u) kaddr →
  (many (n_buffers u) = true → kernel_mem kaddr (12 * Z.of_nat (n_buffers u))) →
  map_blocks map pmem env pa k0 u kaddr junk ms0 = Some (0, p, ds, ms, k') →
  ∃ S, ∀ q, request_delivered S (k_mems k0) (k_mems k') u kaddr (rq q) ms.
Proof.
  intros rq Hdg I1 I2 (B1 & B2 & B3) [Hreq Hkz] Hkm Hx. unfold map_blocks in Hx. pose proof (acct_refl k0 I1 I2) as A0.
  apply bind_Some in Hx as ([[[p1 | er] m1] k1] & E1 & Hx).
  2:{ injection Hx as Her _ _ _ _. unfold map_data in E1. destruct (long_in _); [| done]. apply share_error in E1. by rewrite E1 in Her. }
  destruct (_ && _); [by injection Hx |].
  apply bind_Some in Hx as ([[[p2 | er] m2] k2] & E2 & Hx).
  2:{ injection Hx as Her _ _ _ _. unfold map_data in E2. destruct (long_out _); [| done]. apply share_error in E2. by rewrite E2 in Her. }
  apply bind_Some in Hx as ([[[ret mb] ds'] k3] & E3 & Hx).
  destruct (map_data_delivers k0 _ 0 [] k0 _ _ _ _ p1 m1 k1 Hdg B1 A0 ltac:(done) ltac:(reflexivity) E1) as (G1 & A1 & D1).
  destruct (map_data_delivers k0 _ 1 _ k1 _ _ _ _ p2 m2 k2 Hdg B2 A1 ltac:(destruct (long_in _); cbn; lia) G1 E2) as (G2 & A2 & D2).
  assert (ret = 0) as ->.
  { destruct (Z.eqb_spec ret 0); [done |]. cbn in Hx. by injection Hx. }
  assert (grows k0 k2) as G02 by (by etrans).
  destruct (map_buffers_delivers k0 _ 2 _ k2 mb ds' k3 Hdg B3 A2 ltac:(destruct (long_in _), (long_out _); cbn; lia) G02 E3)
    as (G3 & A3 & D3). assert (grows k0 k3) as G03 by (by etrans). assert (grows k1 k3) as G13 by (by etrans).
  change (0 =? 0) with true in Hx. cbn [andb] in Hx. destruct (many (n_buffers u)) eqn:Hmany.
  - apply bind_Some in Hx as ([[[p3 | er] m3] k5] & E4 & Hx).
    2:{ injection Hx as Her _ _ _ _. apply share_kernel_error in E4. lia. }
    injection Hx as <- <- <- <-. apply Forall3_length_lm in D3 as Ll. apply Forall3_length_lr in D3 as Lr.
    assert (length ds' = n_buffers u) as Ln by (rewrite <- Lr; unfold u_buffers; by rewrite length_fmap, length_seq).
    set (k4 := kernel_write pa k3 kaddr (dsp_buffers_bytes ds')) in *. unfold sizeof_dsp_buffer in *.
    replace (Z.of_nat (n_buffers u) * 12) with (12 * Z.of_nat (length ds')) in * by lia.
    destruct (share_kernel_delivers k0 k3 kaddr ds' (env (2 + n_buffers u) k4) junk p3 m3 k5) as (G4 & D4);
      [apply A3 | eapply (Hkz _ k4), acct_mems, A3 | done | rewrite Ln; auto | apply Hdg | apply Hdg | done | done |].
    assert (∀ x, safe k3 x → safe k4 x ∧ pm (k_mems k5) x = pm (k_mems k3) x) as T.
    { intros x Hx. destruct (kernel_write_pm k3 kaddr (dsp_buffers_bytes ds') x Hx) as [Hx4 E].
      - intros y Hy. apply (km_private _ _ (Hkm eq_refl)). rewrite length_dsp_buffers_bytes in Hy. lia.
      - split; [done |]. rewrite <- E. by apply (gr_pm _ _ G4), Hx4. }
    exists (safe k4). intros q. apply (request_delivered_intro k1 k2 k3); [done.. | | by intros x Hx [_ ?] |].
    2:{ intros Hu Hm. apply (gr_ok _ _ G4); apply mem_ok_store_bytes; try apply bytes_dsp_buffers_bytes; [by rewrite (gr_um _ _ G03) | by apply (gr_ok _ _ G03)]. }
    intros x Hx. rewrite (gr_um _ _ G4). unfold k4, kernel_write. cbn. rewrite store_bytes_out, (gr_um _ _ G03); [done |].
    rewrite length_dsp_buffers_bytes. lia.
  - injection Hx as <- <- <- <-.
    exists (safe k3). intros q. apply (request_delivered_intro k1 k2 k3); [done | done | done | done | done | auto | by rewrite Hmany | | by intros x Hx [_ ?] | apply (gr_ok _ _ G03)].
    intros x _. by rewrite (gr_um _ _ G03).
Qed.

Lemma map_buffers_ret l i k ret mb ds k' : map_buffers map pmem env i k l = Some (ret, mb, ds, k') → ret ≤ 0.
Proof.
  revert i k mb ds. induction l as [| [b |] l IH]; intros i k mb ds Hx; cbn [map_buffers] in Hx; [by injection Hx as <- _ _ _ | |].
  - apply bind_Some in Hx as ([[[p | er] m] k1] & E & Hx).
    + apply bind_Some in Hx as ([[[ret' mb'] ds'] k2] & Eb & Hx). injection Hx as <- _ _ <-. by apply IH in Eb.
    + injection Hx as <- _ _ _. destruct (_ =? 0); [done |]. apply share_error in E. by rewrite E.
  - by injection Hx as <- _ _ _.
Qed.

Lemma map_blocks_ret k u kaddr junk ms0 ret p ds ms k' :
  map_blocks map pmem env pa k u kaddr junk ms0 = Some (ret, p, ds, ms, k') → ret ≤ 0.
Proof.
  assert (∀ long i k addr size flags m er m' k', map_data map pmem env long i k addr size flags m = Some (Err er, m', k') → - er ≤ 0) as Hd.
  { intros long i k1 addr size flags m er m' k2 E. unfold map_data in E. destruct long; [| done]. apply share_error in E. by rewrite E. }
  intros Hx. unfold map_blocks in Hx. apply bind_Some in Hx as ([[[p1 | er] m1] k1] & E1 & Hx); [| injection Hx as <- _ _ _ _; by eapply Hd].
  destruct (_ && _); [by injection Hx as <- _ _ _ _ |].
  apply bind_Some in Hx as ([[[p2 | er] m2] k2] & E2 & Hx); [| injection Hx as <- _ _ _ _; by eapply Hd].
  apply bind_Some in Hx as ([[[ret' mb] ds'] k3] & E3 & Hx). apply map_buffers_ret in E3.
  destruct (_ && _); [| by injection Hx as <- _ _ _ _].
  apply bind_Some in Hx as ([[[p3 | er] m3] k4] & E4 & Hx); [by injection Hx as <- _ _ _ _ |].
  injection Hx as <- _ _ _ _. apply share_kernel_error in E4. lia.
Qed.

(** What the driver keeps of the user's queue, its inline data and its
    namespace. *)
Record request_of (u : user_request) (stk : rq_stack) (rq : xrp_request) : Prop := {
  ro_queue : rq_ioctl_queue rq = u_queue u;
  ro_n : rq_n_buffers rq = Z.of_nat (n_buffers u);
  ro_in : long_in (u_queue u) = false → ∃ l, u_in_data u = Some l ∧ rq_in_data rq = overlay (Some l) (s_in_data stk);
  ro_long_in : long_in (u_queue u) = true → rq_in_data rq = s_in_data stk;
  ro_out : rq_out_data rq = s_out_data stk;
  ro_nsid : rq_nsid rq = if Z.land (q_flags (u_queue u)) XRP_QUEUE_FLAG_NSID =? 0 then s_nsid stk
                         else overlay (u_nsid u) (s_nsid stk);
}.

Lemma map_request_delivers db k u kaddr junk ms0 stk ret rq ms k' :
  data_good k → alloc_inv (k_own k) → alloc_inv (k_other k) → request_blocks blk u → kernel_good env k (n_buffers u) kaddr →
  (many (n_buffers u) = true → kernel_mem kaddr (12 * Z.of_nat (n_buffers u))) →
  xrp_map_request map pmem env pa true db k u kaddr junk ms0 stk = Some (ret, rq, ms, k') → 0 ≤ ret →
  ret = 0 ∧ request_of u stk rq ∧ ∃ S, request_delivered S (k_mems k) (k_mems k') u kaddr rq ms.
Proof.
  intros Hdg I1 I2 Hb Hker Hkm Hx Hret. unfold xrp_map_request in Hx. cbv zeta in Hx.
  destruct (negb _ && negb _); [by injection Hx as <- _ _ _ |]. destruct (many (n_buffers u) && negb db); [by injection Hx as <- _ _ _ |].
  rewrite andb_false_r in Hx. apply bind_Some in Hx as ([[[[ret' p] ds] ms'] k1] & E & Hx). pose proof (map_blocks_ret _ _ _ _ _ _ _ _ _ _ E) as Hle.
  destruct (Z.ltb_spec ret' 0) as [Hlt | Hge].
  { apply bind_Some in Hx as (k2 & _ & Hx). injection Hx as <- _ _ _. lia. }
  injection Hx as <- <- <- <-. assert (ret' = 0) as -> by lia. split; [done |]. split.
  - split; [done | done | | | done |]; cbn [rq_in_data rq_nsid rq_ioctl_queue].
    + intros Hl. rewrite Hl. unfold map_blocks in E. rewrite Hl in E. cbn in E.
      destruct (u_in_data u) as [l |]; [by exists l | by injection E].
    + intros ->. done.
    + by destruct (_ =? 0).
  - destruct (map_blocks_delivers k u kaddr junk ms0 p ds ms' k1) as (S & HS); [done.. |]. exists S. apply (HS (_, (_, _))).
Qed.
End data.
