(* ===== verification/RequestReturn.v ===== *)
(** * The data of a request: back to the user (xrp-kernel/xvp_main.c)

    [xrp_unmap_request] gives the blocks of a request back: the user then
    finds what the DSP left in the output data and in every buffer the DSP
    reports it wrote. *)

From stdpp Require Import base tactics list gmap numbers.
From S2P Require Import Prelude Mem Interface Alloc AddressMap Request PageMap Shadow Share MapRequest RequestData.

(** User memory and the copies can be reached. *)
Definition accessible `{UserAccess} : Prop :=
  (∀ a n, uaccess a n = 0) ∧ (∀ p, kmap_ok p = true) ∧ (∀ p n, ioremap_ok p n = true).

Definition copy_of (m : xrp_mapping) : option xrp_alien_mapping :=
  match m with
  | XRP_MAPPING_ALIEN am | XRP_MAPPING_KERNEL_ALIEN am => match am_type am with ALIEN_COPY => Some am | _ => None end
  | _ => None
  end.

(** The bytes of user memory an unshare writes. *)
Definition writes_to (mf : xrp_mapping * Z) (x : Z) : Prop :=
  ∃ am, copy_of mf.1 = Some am ∧ Z.land mf.2 XRP_FLAG_WRITE ≠ 0 ∧ am_vaddr am ≤ x < am_vaddr am + am_size am.

Section give_back.
Context `{Arch} `{KLibSpec} {P : Type} `{!AllocOps P} `{!AllocSpec P} `{UserAccess}.
Hypothesis Hacc : accessible.

Lemma mapping_put_mems (k : kstate P) own ptr k' : mapping_put k own ptr = Some k' → k_mems k' = k_mems k.
Proof. unfold mapping_put. destruct own; intros Hx; apply bind_Some in Hx as (? & _ & Hx); by injection Hx as <-. Qed.

Lemma destroy_mems (k : kstate P) am k' : xrp_alien_mapping_destroy k am = Some k' → k_mems k' = k_mems k.
Proof.
  unfold xrp_alien_mapping_destroy. destruct (am_type am); [by intros [= <-] | by intros [= <-] | apply mapping_put_mems].
Qed.

(** The write back of a copy. *)
Lemma writeback_data (k : kstate P) am ret k' :
  0 ≤ am_size am → 0 ≤ am_paddr am → xrp_writeback_alien_mapping k am = Some (ret, k') →
  ret = 0 ∧ pm (k_mems k') = pm (k_mems k) ∧
  (am_type am = ALIEN_COPY → um (k_mems k') ≡
     store_bytes (um (k_mems k)) (am_vaddr am) (load_bytes (pm (k_mems k)) (am_paddr am) (Z.to_nat (am_size am)))) ∧
  (am_type am ≠ ALIEN_COPY → um (k_mems k') = um (k_mems k)).
Proof.
  intros Hs Hp Hx. unfold xrp_writeback_alien_mapping in Hx. destruct (am_type am); [by injection Hx as <- <- | by injection Hx as <- <- |].
  destruct (copy_user_phys_total (k_mems k) (am_vaddr am) (am_size am) (am_paddr am) false Hs Hp) as (rc & s' & E & Hc & Hok).
  unfold xrp_copy_user_from_phys in Hx. rewrite E in Hx. injection Hx as <- <-. destruct Hacc as (Hu & Hk & Hio).
  cbn [fst]. rewrite (Hok Hu Hk (Hio _ _)) in *. destruct (Hc eq_refl) as [Ep Eu]. by split_and!.
Qed.

Lemma unshare_data (k : kstate P) m flags ret k' :
  mapping_wf m → __xrp_unshare_block k m flags = Some (ret, k') →
  ret = 0 ∧ pm (k_mems k') = pm (k_mems k) ∧
  (∀ x, ¬ writes_to (m, flags) x → um (k_mems k') x = um (k_mems k) x) ∧
  (∀ am x, copy_of m = Some am → writes_to (m, flags) x →
     um (k_mems k') x = pm (k_mems k) (am_paddr am + (x - am_vaddr am))).
Proof.
  intros Hwf Hx.
  assert (∀ am, (m = XRP_MAPPING_ALIEN am ∨ m = XRP_MAPPING_KERNEL_ALIEN am) → unshare_alien k am flags = Some (ret, k') →
    ret = 0 ∧ pm (k_mems k') = pm (k_mems k) ∧ (∀ x, ¬ writes_to (m, flags) x → um (k_mems k') x = um (k_mems k) x) ∧
    (∀ am x, copy_of m = Some am → writes_to (m, flags) x → um (k_mems k') x = pm (k_mems k) (am_paddr am + (x - am_vaddr am))))
    as Halien.
  { intros am Hm E. assert (copy_of m = match am_type am with ALIEN_COPY => Some am | _ => None end) as Ec by (by destruct Hm as [-> | ->]).
    assert (0 ≤ am_size am ∧ 0 ≤ am_paddr am) as [Hs Hp] by (by destruct Hm as [-> | ->]).
    unfold unshare_alien in E. apply bind_Some in E as ([rc k1] & E1 & E). cbn [fst snd] in E.
    apply bind_Some in E as (k2 & E2 & E). injection E as <- <-. rewrite (destroy_mems _ _ _ E2). unfold writes_to. cbn [fst snd]. rewrite Ec.
    destruct (Z.eqb_spec (Z.land flags XRP_FLAG_WRITE) 0) as [Ef | Ef].
    - injection E1 as <- <-. split_and!; [done | done | done |]. intros am' x _ (? & _ & ? & _). done.
    - destruct (writeback_data k am rc k1 Hs Hp E1) as (-> & Ep & Eu & En). split_and!; [done | done | |].
      + intros x Hn. destruct (am_type am) eqn:Et; [by rewrite En | by rewrite En |]. rewrite (Eu eq_refl x). apply store_bytes_out.
        rewrite length_load_bytes. destruct (decide (am_vaddr am ≤ x < am_vaddr am + am_size am)); [destruct Hn; by exists am | lia].
      + intros am' x Ea (am2 & Ea2 & _ & Hx2). destruct (am_type am) eqn:Et; [done | done |]. simplify_eq.
        rewrite (Eu eq_refl x). by apply store_load_in. }
  destruct m as [| own ptr | am | | am]; cbn [__xrp_unshare_block] in Hx.
  1, 4: injection Hx as <- <-; split_and!; [done | done | done |]; by intros am x ?.
  2, 3: apply (Halien am); auto.
  apply bind_Some in Hx as (k1 & E & Hx). injection Hx as <- <-. rewrite (mapping_put_mems _ _ _ _ E). by split_and!.
Qed.

(** A list of unshares: all succeed, only user memory is written, and a
    block no other one overlaps gets the DSP's bytes. *)
Lemma unshare_all_data (k : kstate P) l rets k' :
  Forall mapping_wf l.*1 → unshare_all k l = Some (rets, k') →
  Forall (λ r, r = 0) rets ∧ pm (k_mems k') = pm (k_mems k) ∧
  (∀ x, Forall (λ mf, ¬ writes_to mf x) l → um (k_mems k') x = um (k_mems k) x) ∧
  (∀ i m fl am x, l !! i = Some (m, fl) → copy_of m = Some am → writes_to (m, fl) x →
     (∀ j mf, j ≠ i → l !! j = Some mf → ¬ writes_to mf x) →
     um (k_mems k') x = pm (k_mems k) (am_paddr am + (x - am_vaddr am))).
Proof.
  revert k rets. induction l as [| [m fl] l IH]; intros k rets Hwf Hx; cbn [unshare_all] in Hx.
  - injection Hx as <- <-. split_and!; [apply List.Forall_nil | done | done | intros i m fl am x Hi; by rewrite lookup_nil in Hi].
  - cbn in Hwf. apply list.Forall_cons in Hwf as [Wm Wl]. apply bind_Some in Hx as ([r k1] & E1 & Hx). cbn [fst snd] in Hx.
    apply bind_Some in Hx as ([rs k2] & E2 & Hx). injection Hx as <- <-.
    destruct (unshare_data k m fl r k1 Wm E1) as (-> & P1 & O1 & I1).
    destruct (IH k1 rs Wl E2) as (R2 & P2 & O2 & I2). split_and!.
    + by constructor.
    + cbn. congruence.
    + intros x [Hm Hl]%list.Forall_cons. cbn. rewrite O2, O1 by done. done.
    + intros i m' fl' am x Hi Hc Hw Ho. cbn. destruct i as [| i].
      * injection Hi as <- <-. rewrite O2; [by apply I1 |]. apply list.Forall_forall. intros mf Hin.
        apply list_elem_of_lookup in Hin as [j Hj]. by apply (Ho (S j) mf).
      * rewrite <- P1. apply (I2 i m' fl' am x); [done | done | done |]. intros j mf Hne Hj. apply (Ho (S j) mf); [lia | done].
Qed.

Lemma last_error_zero rets : Forall (λ r, r = 0) rets → last_error 0 rets = 0.
Proof. unfold last_error. induction 1 as [| r rs -> _ IH]; [done |]. exact IH. Qed.

(** The output data. *)
Lemma unmap_out_data (k : kstate P) q rq ms ret k' :
  (long_out q = true → mapping_wf (m_out_data ms)) → 0 ≤ q_out_data_size q →
  (long_out q = false → q_out_data_size q ≤ Z.of_nat (length (rq_out_data rq))) →
  unmap_out k q rq ms = Some (ret, k') →
  ret = 0 ∧ pm (k_mems k') = pm (k_mems k) ∧
  (∀ x, (if long_out q then ¬ writes_to (m_out_data ms, XRP_FLAG_WRITE) x
         else x < q_out_data_addr q ∨ q_out_data_addr q + q_out_data_size q ≤ x) → um (k_mems k') x = um (k_mems k) x) ∧
  (if long_out q then ∀ am x, copy_of (m_out_data ms) = Some am → writes_to (m_out_data ms, XRP_FLAG_WRITE) x →
     um (k_mems k') x = pm (k_mems k) (am_paddr am + (x - am_vaddr am))
   else load_bytes (um (k_mems k')) (q_out_data_addr q) (Z.to_nat (q_out_data_size q)) =
     take (Z.to_nat (q_out_data_size q)) (rq_out_data rq)).
Proof.
  intros Hwf Hsz Hlen Hx. unfold unmap_out in Hx. destruct (long_out q); [by apply unshare_data in Hx; [| auto] |].
  unfold copy_to_user in Hx. rewrite (proj1 Hacc) in Hx. injection Hx as <- <-. rewrite Z.sub_0_r.
  specialize (Hlen eq_refl). assert (length (take (Z.to_nat (q_out_data_size q)) (rq_out_data rq)) = Z.to_nat (q_out_data_size q)) as El
    by (rewrite length_take; lia). cbn. split_and!; [done | done | |].
  - intros x Hx. apply store_bytes_out. rewrite El. lia.
  - rewrite <- El at 2. apply load_store_same.
Qed.
End give_back.

(** Blocks of user memory that do not overlap, below the kernel's. *)
Definition apart (a n b m : Z) : Prop := a + n ≤ b ∨ b + m ≤ a.

Record user_apart (u : user_request) (kaddr : Z) : Prop := {
  ua_out i b : u_buffers u !! i = Some (Some b) → Z.land (ib_flags b) XRP_FLAG_READ_WRITE ≠ 0 →
    apart (q_out_data_addr (u_queue u)) (q_out_data_size (u_queue u)) (ib_addr b) (ib_size b);
  ua_buffers i j b c : i ≠ j → u_buffers u !! i = Some (Some b) → u_buffers u !! j = Some (Some c) →
    Z.land (ib_flags b) XRP_FLAG_READ_WRITE ≠ 0 → Z.land (ib_flags c) XRP_FLAG_READ_WRITE ≠ 0 →
    apart (ib_addr b) (ib_size b) (ib_addr c) (ib_size c);
  ua_kernel_out : q_out_data_addr (u_queue u) + q_out_data_size (u_queue u) ≤ kaddr;
  ua_kernel_buffer i b : u_buffers u !! i = Some (Some b) → Z.land (ib_flags b) XRP_FLAG_READ_WRITE ≠ 0 →
    ib_addr b + ib_size b ≤ kaddr;
}.

Section returns.
Context `{Arch} `{KLibSpec} {P : Type} `{!AllocOps P} `{!AllocSpec P} `{UserAccess}.
Variables (map : xrp_address_map) (pmem : Z) (env : nat → kstate P → share_env) (pa : Z → Z) (kp : Z → Prop).
Hypothesis Hacc : accessible.

Lemma delivered_wf S s0 s virt size flags p m : delivered map pmem env S s0 s virt size flags p m → mapping_wf m.
Proof. intros [Dm _ Ds Dp _ _ _]. destruct m as [| | am | |]; cbn in *; [done.. | lia | done | done]. Qed.

Lemma delivered_copy S s0 s virt size flags p m am :
  delivered map pmem env S s0 s virt size flags p m → copy_of m = Some am → am_vaddr am = virt ∧ am_size am = size ∧ am_paddr am = p.
Proof.
  intros [Dm _ _ _ _ _ _]. destruct m as [| | am' | |]; cbn in *; try done.
  destruct (am_type am'); [done | done |]. by intros [= <-].
Qed.

Lemma delivered_writes S s0 s virt size flags p m fl x :
  delivered map pmem env S s0 s virt size flags p m → writes_to (m, fl) x → virt ≤ x < virt + size.
Proof. intros Hd (am & Hc & _ & Hx). apply (delivered_copy _ _ _ _ _ _ _ _ _ Hd) in Hc as (<- & <- & _). done. Qed.

Lemma is_copy_of m : is_copy m = true ↔ ∃ am, copy_of m = Some am.
Proof. destruct m as [| | am | | am]; cbn; try (destruct (am_type am)); split; naive_solver. Qed.

(** The user's contents are the DSP's. *)
Lemma returned_bytes S s0 s virt size flags p m fl s' :
  delivered map pmem env S s0 s virt size flags p m → Z.land fl XRP_FLAG_WRITE ≠ 0 →
  (∀ am x, copy_of m = Some am → writes_to (m, fl) x → um s' x = pm s' (am_paddr am + (x - am_vaddr am))) →
  user_bytes s' virt size p m = load_bytes (pm s') p (Z.to_nat size).
Proof.
  intros Hd Hf Hb. unfold user_bytes. destruct (is_copy m) eqn:Ec; [| done]. apply is_copy_of in Ec as [am Ham].
  destruct (delivered_copy _ _ _ _ _ _ _ _ _ Hd Ham) as (Ev & Es & Ep). pose proof (dl_size _ _ _ _ _ _ _ _ _ _ _ Hd).
  apply map_ext_in. intros i Hi%in_seq. rewrite (Hb am); [| done | exists am; split_and!; [done | done | lia | lia]]. f_equal. lia.
Qed.

(** Where a write back of a buffer goes. *)
Lemma buffer_writes S s0 s ob m d fl x :
  buffer_delivered map pmem env S s0 s ob m d → writes_to (m, fl) x →
  ∃ b, ob = Some b ∧ Z.land (ib_flags b) XRP_FLAG_READ_WRITE ≠ 0 ∧ ib_addr b ≤ x < ib_addr b + ib_size b.
Proof.
  intros (b & -> & _ & _ & p & _ & Hd) Hw. exists b. destruct (Z.eqb_spec (Z.land (ib_flags b) XRP_FLAG_READ_WRITE) 0).
  - subst m. by destruct Hw as (am & ? & _).
  - split_and!; [done | done | by apply (delivered_writes _ _ _ _ _ _ _ _ _ _ Hd Hw)..].
Qed.

Lemma buffers_wf S s0 s l mb ds : Forall3 (buffer_delivered map pmem env S s0 s) l mb ds → Forall mapping_wf mb.
Proof.
  induction 1 as [| ob m d l mb ds (b & _ & _ & _ & p & _ & Hd) _ IH]; constructor; [| done].
  destruct (_ =? 0); [by subst m | by eapply delivered_wf].
Qed.

(** The array of descriptors comes back first: the driver uses the flags
    the DSP left in it. *)
Lemma unmap_descs_data S (k : kstate P) s kaddr ds p m rq rets k' n :
  descs_delivered map pa kp S s kaddr ds p m → length ds = n → many n = true →
  unshare_all k [(m, XRP_FLAG_READ_WRITE)] = Some (rets, k') →
  pm (k_mems k') = pm (k_mems k) ∧
  (∀ x, x < kaddr → um (k_mems k') x = um (k_mems k) x) ∧
  dsp_buffers_now pa k' kaddr n rq m = load_dsp_buffers (pm (k_mems k)) p n.
Proof.
  intros [Dm Dp _ _ _] <- Hn Hx.
  assert (Forall mapping_wf [(m, XRP_FLAG_READ_WRITE)].*1) as Hwf.
  { apply list.Forall_singleton. destruct Dm as [[-> _] | (al & ->)]; cbn; [done | lia]. }
  destruct (unshare_all_data Hacc k _ rets k' Hwf Hx) as (_ & Ep & Eo & Ei). split_and!; [done | |].
  - intros x Hk. apply Eo, list.Forall_singleton. intros (am & Hc & _ & Hin). cbn in Hc.
    destruct Dm as [[-> _] | (al & ->)]; [done |]. injection Hc as <-. cbn in Hin. lia.
  - unfold dsp_buffers_now. rewrite Hn. destruct Dm as [[-> ->] | (al & ->)]; [by rewrite Ep |].
    apply load_dsp_buffers_shift. intros i Hi. rewrite (Ei 0%nat _ _ _ (kaddr + i) eq_refl eq_refl).
    + cbn. f_equal. lia.
    + eexists. split; [done |]. split; [done |]. cbn. lia.
    + by intros [| j] mf.
Qed.

(** What the user finds: the output data, and every buffer the DSP says it
    wrote. *)
Record request_returned (S : Z → Prop) (s0 s : mems) (u : user_request) (rq0 rq : xrp_request) (ms : rq_maps)
    (fl : list xrp_dsp_buffer) (s' : mems) : Prop := {
  rr_out : long_out (u_queue u) = true →
    user_bytes s' (q_out_data_addr (u_queue u)) (q_out_data_size (u_queue u)) (rq_out_data_phys rq0) (m_out_data ms) =
    load_bytes (pm s') (rq_out_data_phys rq0) (Z.to_nat (q_out_data_size (u_queue u)));
  rr_inline : long_out (u_queue u) = false →
    load_bytes (um s') (q_out_data_addr (u_queue u)) (Z.to_nat (q_out_data_size (u_queue u))) =
    take (Z.to_nat (q_out_data_size (u_queue u))) (rq_out_data rq);
  rr_buffer i b m d p : u_buffers u !! i = Some (Some b) → m_buffer ms !! i = Some m → fl !! i = Some d →
    delivered map pmem env S s0 s (ib_addr b) (ib_size b) (ib_flags b) p m → Z.land (db_flags d) XRP_FLAG_WRITE ≠ 0 →
    user_bytes s' (ib_addr b) (ib_size b) p m = load_bytes (pm s') p (Z.to_nat (ib_size b));
}.

Lemma unmap_buffers_data S s0 s u kaddr mb ds (fl : list xrp_dsp_buffer) (k : kstate P) rets k' :
  Forall3 (buffer_delivered map pmem env S s0 s) (u_buffers u) mb ds → user_apart u kaddr → length fl = length mb →
  unshare_all k (zip mb (db_flags <$> fl)) = Some (rets, k') →
  Forall (λ r, r = 0) rets ∧ pm (k_mems k') = pm (k_mems k) ∧
  (∀ x, (∀ i b, u_buffers u !! i = Some (Some b) → Z.land (ib_flags b) XRP_FLAG_READ_WRITE ≠ 0 →
           x < ib_addr b ∨ ib_addr b + ib_size b ≤ x) → um (k_mems k') x = um (k_mems k) x) ∧
  (∀ i b m d p, u_buffers u !! i = Some (Some b) → mb !! i = Some m → fl !! i = Some d →
     delivered map pmem env S s0 s (ib_addr b) (ib_size b) (ib_flags b) p m → Z.land (ib_flags b) XRP_FLAG_READ_WRITE ≠ 0 →
     ∀ am x, copy_of m = Some am → writes_to (m, db_flags d) x →
     um (k_mems k') x = pm (k_mems k') (am_paddr am + (x - am_vaddr am))).
Proof.
  intros HF Hap Hlen Hx. assert ((zip mb (db_flags <$> fl)).*1 = mb) as Ez by (apply fst_zip; rewrite length_fmap; lia).
  destruct (unshare_all_data Hacc k (zip mb (db_flags <$> fl)) rets k') as (R & Ep & Eo & Ei); [rewrite Ez; by eapply buffers_wf | done |].
  assert (∀ j mf x, zip mb (db_flags <$> fl) !! j = Some mf → writes_to mf x →
    ∃ b, u_buffers u !! j = Some (Some b) ∧ Z.land (ib_flags b) XRP_FLAG_READ_WRITE ≠ 0 ∧ ib_addr b ≤ x < ib_addr b + ib_size b) as Hw.
  { intros j [m f] x Hj Hwx. apply lookup_zip_Some in Hj as [Hm _]. destruct (Forall3_lookup_m _ _ _ _ _ _ HF Hm) as (ob & d & Hob & _ & Hbd).
    destruct (buffer_writes _ _ _ _ _ _ _ _ Hbd Hwx) as (b & -> & ? & ?). by exists b. }
  split_and!; [done | done | |].
  - intros x Hout. apply Eo, list.Forall_forall. intros mf Hin Hwx. apply list_elem_of_lookup in Hin as [j Hj].
    destruct (Hw j mf x Hj Hwx) as (b & Hb & Hf & Hr). specialize (Hout j b Hb Hf). lia.
  - intros i b m d p Hb Hm Hd Hdel Hf am x Hc Hwx. rewrite Ep. apply (Ei i m (db_flags d) am x); [| done | done |].
    + apply lookup_zip_Some. split; [done |]. by rewrite list_lookup_fmap, Hd.
    + intros j mf Hne Hj Hwj. destruct (Hw j mf x Hj Hwj) as (c & Hc' & Hfc & Hr).
      pose proof (delivered_writes _ _ _ _ _ _ _ _ _ _ Hdel Hwx) as Hrb.
      destruct (ua_buffers _ _ Hap i j b c) as [? | ?]; [done.. | lia | lia].
Qed.

Lemma unmap_request_returns S s0 s u kaddr rq0 rq ms (k : kstate P) ret k' :
  let n := n_buffers u in
  let fl := if many n then load_dsp_buffers (pm (k_mems k)) (rq_dsp_buffer_phys rq0) n else rq_dsp_buffer rq in
  request_delivered map pmem env pa kp S s0 s u kaddr rq0 ms → user_apart u kaddr →
  rq_n_buffers rq = Z.of_nat n → (many n = false → length (rq_dsp_buffer rq) = n) → 0 ≤ q_out_data_size (u_queue u) →
  (long_out (u_queue u) = false → q_out_data_size (u_queue u) ≤ Z.of_nat (length (rq_out_data rq))) →
  xrp_unmap_request pa kaddr k (u_queue u) rq ms = Some (ret, k') →
  ret = 0 ∧ pm (k_mems k') = pm (k_mems k) ∧ request_returned S s0 s u rq0 rq ms fl (k_mems k').
Proof.
  intros n fl [Ri Ro Rb Rd _ _ _] Hap Hn Hl Hsz Hol Hx. pose proof (Forall3_length_lm _ _ _ _ Rb) as Ll. pose proof (Forall3_length_lr _ _ _ _ Rb) as Lr.
  assert (length (u_buffers u) = n) as Lu by (unfold u_buffers; by rewrite length_fmap, length_seq).
  unfold xrp_unmap_request in Hx. rewrite Hn, Nat2Z.id in Hx. set (q := u_queue u) in *.
  apply bind_Some in Hx as ([r1 ka] & E1 & Hx). apply bind_Some in Hx as ([r2 kb] & E2 & Hx).
  apply bind_Some in Hx as ([r3 kc] & E3 & Hx). apply bind_Some in Hx as ([r4 kd] & E4 & Hx). cbn [fst snd] in *. injection Hx as <- <-.
  assert (pm (k_mems ka) = pm (k_mems k)) as Pa.
  { refine (proj1 (proj2 (unshare_all_data Hacc k _ r1 ka _ E1))). fold q in Ri. destruct (long_in q); [| apply List.Forall_nil].
    apply list.Forall_singleton. eapply delivered_wf, Ri. done. }
  destruct (unmap_out_data Hacc ka q rq ms r2 kb) as (-> & Pb & Ob & Ib); [| done | done | done |].
  { intros Hlo. eapply delivered_wf, Ro, Hlo. }
  assert (pm (k_mems kc) = pm (k_mems kb) ∧ (∀ x, x < kaddr → um (k_mems kc) x = um (k_mems kb) x) ∧
    dsp_buffers_now pa kc kaddr n rq (m_dsp_buffer ms) = fl) as (Pc & Oc & Ec).
  { destruct (many n) eqn:Hmany.
    - destruct (unmap_descs_data S kb s kaddr _ _ _ rq r3 kc n (Rd Hmany) ltac:(congruence) Hmany E3) as (? & ? & Ed). split_and!; [done | done |].
      rewrite Ed. unfold fl. by rewrite Pb, Pa.
    - injection E3 as _ <-. unfold dsp_buffers_now. rewrite Hmany. done. }
  rewrite Ec in E4.
  destruct (unmap_buffers_data S s0 s u kaddr (m_buffer ms) (rq_dsp_buffer rq0) fl kc r4 kd Rb Hap) as (R4 & Pd & Od & Id); [| done |].
  { unfold fl. destruct (many n) eqn:Hmany; [unfold load_dsp_buffers; rewrite length_map, length_seq; lia | rewrite Hl by done; lia]. }
  split; [by apply last_error_zero |]. split; [congruence |].
  assert (∀ x, q_out_data_addr q ≤ x < q_out_data_addr q + q_out_data_size q → um (k_mems kd) x = um (k_mems kb) x) as Hout.
  { intros x Hx. rewrite Od; [apply Oc; pose proof (ua_kernel_out _ _ Hap) as Hko; fold q in Hko; lia |].
    intros i b Hb Hf. destruct (ua_out _ _ Hap i b Hb Hf) as [Ha | Ha]; fold q in Ha; lia. }
  split.
  - intros Hlo. specialize (Ro Hlo). fold q in Hlo. rewrite Hlo in *. apply (returned_bytes _ _ _ _ _ _ _ _ XRP_FLAG_WRITE _ Ro); [done |].
    intros am x Hc Hw. pose proof (delivered_writes _ _ _ _ _ _ _ _ _ _ Ro Hw) as Hr. rewrite Hout by done.
    rewrite (Ib am) by done. by rewrite Pd, Pc, Pb.
  - intros Hlo. fold q in Hlo. rewrite Hlo in *. etrans; [| exact Ib]. apply load_bytes_ext. intros x Hx. apply Hout. lia.
  - intros i b m d p Hb Hm Hd Hdel Hf. apply (returned_bytes _ _ _ _ _ _ _ _ (db_flags d) _ Hdel Hf).
    apply (Id i b m d p); [done.. |].
    destruct (Forall3_lookup_m _ _ _ _ _ _ Rb Hm) as (ob & d0 & Hob & _ & (b' & -> & _ & _ & p' & _ & Hbd)). rewrite Hb in Hob. injection Hob as <-.
    destruct (Z.eqb_spec (Z.land (ib_flags b) XRP_FLAG_READ_WRITE) 0); [subst m; by destruct (dl_mapping _ _ _ _ _ _ _ _ _ _ _ Hdel) | done].
Qed.
End returns.
