(* ===== verification/Boot.v ===== *)
(** * Boot, power management and probe (xrp-kernel/xvp_main.c)

    How the driver brings a DSP up and down: [xrp_boot_firmware] and the
    runtime power management callbacks drive the core through the operations
    of [struct xrp_hw_ops]; [xrp_init_common] and its variants acquire what a
    device needs and give it back when a step fails; [xrp_deinit] undoes
    them.

    The operations on the core are recorded as events, and what is acquired
    and released as a list of resources.  The outcome of calls into the
    kernel and into the parts modelled elsewhere (firmware in [Firmware], the
    handshake in [Sync], the address map in [AddressMap]) are inputs. *)

From stdpp Require Import base tactics list gmap numbers.
From S2P Require Import Prelude Alloc PrivateAlloc AddressMap Submit.

Definition LOOPBACK_NOMMIO := 2.
Definition LOOPBACK_NOFIRMWARE := 3.

(** The [loopback] parameter and which operations the hardware provides. *)
Record hw_cfg := mk_hw_cfg {
  hc_loopback : Z;
  hc_enable : bool;
  hc_disable : bool;
  hc_reset : bool;
  hc_halt : bool;
  hc_release : bool;
}.

Inductive hw_event := EvEnable | EvDisable | EvReset | EvHalt | EvRelease | EvLoad | EvIdle | EvSync.

(** What a device holds. *)
Inductive resource := RPool | RMap | RComm | RPm | RMisc | RReserved | RFirmware (p : Z).
#[export] Instance resource_eq_dec : EqDecision resource.
Proof. solve_decision. Defined.

(** [xv_pool]: the pool, when the shared memory is private to the device. *)
Record xvp := mk_xvp {
  xv_firmware_name : bool;
  xv_firmware : Z;
  xv_comm : Z;
  xv_pmem : Z;
  xv_comm_phys : Z;
  xv_shared_size : Z;
  xv_map : xrp_address_map;
  xv_pool : option xrp_private_pool;
  xv_off : bool;
  (** resources held, resources released that were not held, and the
      operations on the core, oldest first *)
  xv_held : list resource;
  xv_bad : list resource;
  xv_trace : list hw_event;
}.

Definition xvp_zero : xvp := mk_xvp false 0 0 0 0 0 [] None false [] [] [].

Definition with_name x b := mk_xvp b (xv_firmware x) (xv_comm x) (xv_pmem x) (xv_comm_phys x) (xv_shared_size x) (xv_map x) (xv_pool x) (xv_off x) (xv_held x) (xv_bad x) (xv_trace x).
Definition with_firmware x p := mk_xvp (xv_firmware_name x) p (xv_comm x) (xv_pmem x) (xv_comm_phys x) (xv_shared_size x) (xv_map x) (xv_pool x) (xv_off x) (xv_held x) (xv_bad x) (xv_trace x).
Definition with_regs x comm pmem comm_phys size := mk_xvp (xv_firmware_name x) (xv_firmware x) comm pmem comm_phys size (xv_map x) (xv_pool x) (xv_off x) (xv_held x) (xv_bad x) (xv_trace x).
Definition with_map x m := mk_xvp (xv_firmware_name x) (xv_firmware x) (xv_comm x) (xv_pmem x) (xv_comm_phys x) (xv_shared_size x) m (xv_pool x) (xv_off x) (xv_held x) (xv_bad x) (xv_trace x).
Definition with_pool x p := mk_xvp (xv_firmware_name x) (xv_firmware x) (xv_comm x) (xv_pmem x) (xv_comm_phys x) (xv_shared_size x) (xv_map x) p (xv_off x) (xv_held x) (xv_bad x) (xv_trace x).
Definition with_off x := mk_xvp (xv_firmware_name x) (xv_firmware x) (xv_comm x) (xv_pmem x) (xv_comm_phys x) (xv_shared_size x) (xv_map x) (xv_pool x) true (xv_held x) (xv_bad x) (xv_trace x).
Definition with_res x h b := mk_xvp (xv_firmware_name x) (xv_firmware x) (xv_comm x) (xv_pmem x) (xv_comm_phys x) (xv_shared_size x) (xv_map x) (xv_pool x) (xv_off x) h b (xv_trace x).
Definition event (x : xvp) (ev : hw_event) := mk_xvp (xv_firmware_name x) (xv_firmware x) (xv_comm x) (xv_pmem x) (xv_comm_phys x) (xv_shared_size x) (xv_map x) (xv_pool x) (xv_off x) (xv_held x) (xv_bad x) (xv_trace x ++ [ev]).

Definition hold (r : resource) (x : xvp) : xvp := with_res x (r :: xv_held x) (xv_bad x).
Fixpoint remove_one (r : resource) (l : list resource) : list resource :=
  match l with [] => [] | q :: l => if decide (r = q) then l else q :: remove_one r l end.
Definition drop_res (r : resource) (x : xvp) : xvp :=
  if decide (r ∈ xv_held x) then with_res x (remove_one r (xv_held x)) (xv_bad x)
  else with_res x (xv_held x) (r :: xv_bad x).

(** [release_firmware]: nothing for NULL. *)
Definition release_firmware (p : Z) (x : xvp) : xvp := if p =? 0 then x else drop_res (RFirmware p) x.

(** ** Booting *)

(** Outcome of [request_firmware] and of loading the image: no image, an
    image that cannot be loaded, a loaded image. *)
Inductive fw_outcome := FwNone (e : Z) | FwBad (p e : Z) | FwOk (p : Z).

Record boot_env := mk_boot_env {
  be_enable : Z;
  be_fw : fw_outcome;
  be_sync : Z;
}.

Section boot.
Variable c : hw_cfg.

(** A call of an operation that may be absent, unless the mode of the driver
    forbids the use of registers. *)
Definition hw_op (present : bool) (ev : hw_event) (x : xvp) : xvp :=
  if (hc_loopback c <? LOOPBACK_NOMMIO) && present then event x ev else x.

Definition xvp_enable_dsp (ret : Z) (x : xvp) : Z * xvp :=
  if (hc_loopback c <? LOOPBACK_NOMMIO) && hc_enable c then (ret, if ret <? 0 then x else event x EvEnable)
  else (0, x).
Definition xvp_disable_dsp := hw_op (hc_disable c) EvDisable.
Definition xrp_reset_dsp := hw_op (hc_reset c) EvReset.
Definition xrp_halt_dsp := hw_op (hc_halt c) EvHalt.
Definition xrp_release_dsp := hw_op (hc_release c) EvRelease.

(** The reference to the image; its contents are the subject of [Firmware]. *)
Definition request_image (o : fw_outcome) (x : xvp) : Z * xvp :=
  match o with
  | FwNone e => (- e, with_firmware x 0)
  | FwBad p e => (- e, release_firmware p (with_firmware (hold (RFirmware p) x) p))
  | FwOk p => (0, event (with_firmware (hold (RFirmware p) x) p) EvLoad)
  end.

Definition xrp_boot_firmware (e : boot_env) (x : xvp) : Z * xvp :=
  let x := xrp_reset_dsp (xrp_halt_dsp x) in
  let '(ret, x) :=
    if xv_firmware_name x && (hc_loopback c <? LOOPBACK_NOFIRMWARE) then request_image (be_fw e) x else (0, x) in
  if ret <? 0 then (ret, x)
  else
    let x := if xv_firmware_name x && (hc_loopback c <? LOOPBACK_NOIO) then event x EvIdle else x in
    let x := xrp_release_dsp x in
    if hc_loopback c <? LOOPBACK_NOIO then
      let x := event x EvSync in
      if be_sync e <? 0 then (be_sync e, with_off (xrp_halt_dsp x)) else (0, x)
    else (0, x).

Definition xrp_runtime_suspend (x : xvp) : Z * xvp := (0, xvp_disable_dsp (xrp_halt_dsp x)).

Definition xrp_runtime_resume (e : boot_env) (x : xvp) : Z * xvp :=
  if xv_off x then (0, x)
  else
    let '(ret, x) := xvp_enable_dsp (be_enable e) x in
    if ret <? 0 then (ret, x)
    else
      let '(ret, x) := xrp_boot_firmware e x in
      (ret, if ret <? 0 then xvp_disable_dsp x else x).
End boot.

(** ** What the core may be asked to do *)

(** Power and clock, counted, and whether the core is stalled. *)
Record core := mk_core { co_power : Z; co_stalled : bool }.
Definition core_off : core := mk_core 0 true.

Definition core_step (k : core) (ev : hw_event) : core :=
  match ev with
  | EvEnable => mk_core (co_power k + 1) true
  | EvDisable => mk_core (co_power k - 1) (co_stalled k)
  | EvHalt => mk_core (co_power k) true
  | EvRelease => mk_core (co_power k) false
  | EvReset | EvLoad | EvIdle | EvSync => k
  end.

(** Power is switched on once and off once, registers are used with power
    on, the firmware and the shared word are written, the core reset and
    switched off while it is stalled, and it runs when it is synchronised
    with. *)
Definition event_ok (k : core) (ev : hw_event) : bool :=
  match ev with
  | EvEnable => co_power k =? 0
  | EvHalt => co_power k =? 1
  | EvDisable | EvReset | EvLoad | EvIdle | EvRelease => (co_power k =? 1) && co_stalled k
  | EvSync => (co_power k =? 1) && negb (co_stalled k)
  end.

Definition core_run (k : core) (l : list hw_event) : core := foldl core_step k l.
Fixpoint trace_ok (k : core) (l : list hw_event) : bool :=
  match l with [] => true | ev :: l => event_ok k ev && trace_ok (core_step k ev) l end.

Lemma trace_ok_app k l1 l2 : trace_ok k (l1 ++ l2) = trace_ok k l1 && trace_ok (core_run k l1) l2.
Proof. revert k. induction l1 as [| ev l1 IH]; intros k; [done |]. cbn. by rewrite IH, andb_assoc. Qed.
Lemma core_run_app k l1 l2 : core_run k (l1 ++ l2) = core_run (core_run k l1) l2.
Proof. apply foldl_app. Qed.

(** ** Runs of power management *)

Inductive pm_status := Suspended | Active.

Section power.
Variable c : hw_cfg.

(** The kernel resumes a suspended device before it is used and suspends it
    after, whether the DSP is off or not; while the device is active a
    command that timed out restarts the firmware, which a device that is off
    does not get to ([Submit.xrp_ioctl_submit_sync]). *)
Inductive pm_step : xvp * pm_status → xvp * pm_status → Prop :=
| pm_resume e x r x' :
    xrp_runtime_resume c e x = (r, x') →
    pm_step (x, Suspended) (x', if r =? 0 then Active else Suspended)
| pm_suspend x r x' : xrp_runtime_suspend c x = (r, x') → pm_step (x, Active) (x', Suspended)
| pm_reboot e x r x' :
    xv_off x = false → xrp_boot_firmware c e x = (r, x') → pm_step (x, Active) (x', Active).

(** Runs, with the number of times a device that is off was resumed. *)
Definition off_resume (s : xvp * pm_status) : nat :=
  match s.2 with Suspended => if xv_off s.1 then 1 else 0 | Active => 0 end.
Inductive pm_run : nat → xvp * pm_status → xvp * pm_status → Prop :=
| pm_none s : pm_run 0 s s
| pm_more n s s' s'' : pm_run n s s' → pm_step s' s'' → pm_run (off_resume s' + n) s s''.

(** The hardware has all operations and the driver uses them. *)
Definition full_hw : Prop :=
  hc_loopback c < LOOPBACK_NOMMIO ∧ hc_enable c = true ∧ hc_disable c = true ∧ hc_reset c = true ∧
  hc_halt c = true ∧ hc_release c = true.

Definition core_of (x : xvp) : core := core_run core_off (xv_trace x).

Definition pm_inv (s : xvp * pm_status) : Prop :=
  trace_ok core_off (xv_trace s.1) = true ∧
  match s.2 with
  | Suspended => core_of s.1 = core_off
  | Active => co_power (core_of s.1) = 1 ∧ (xv_off s.1 = true → co_stalled (core_of s.1) = true)
  end.

(** Evaluates the events added to a trace whose core is known. *)
Ltac run_events Ht Hc :=
  unfold core_of in *; cbn [event with_firmware with_off with_res hold xv_trace xv_off];
  rewrite <- ?app_assoc; cbn [app]; rewrite ?trace_ok_app, ?core_run_app, ?Ht, ?Hc; cbn.

Lemma request_image_trace o x :
  xv_trace (request_image o x).2 = xv_trace x ++ (match o with FwOk _ => [EvLoad] | _ => [] end) ∧
  xv_firmware_name (request_image o x).2 = xv_firmware_name x ∧ xv_off (request_image o x).2 = xv_off x.
Proof.
  destruct o as [e | p e | p]; cbn; [by rewrite app_nil_r | | done].
  unfold release_firmware, drop_res. destruct (p =? 0); [by rewrite app_nil_r |].
  case_decide; cbn; by rewrite app_nil_r.
Qed.

(** A boot of a core with power on. *)
Lemma boot_core e x r x' :
  full_hw → trace_ok core_off (xv_trace x) = true → co_power (core_of x) = 1 → xrp_boot_firmware c e x = (r, x') →
  trace_ok core_off (xv_trace x') = true ∧ co_power (core_of x') = 1 ∧ r ≤ 0 ∧
  (r < 0 → co_stalled (core_of x') = true) ∧ (r = 0 → co_stalled (core_of x') = false) ∧
  (xv_off x' = true → xv_off x = true ∨ r < 0).
Proof.
  intros (Hl & He & Hd & Hrs & Hh & Hrl) Ht Hp. unfold xrp_boot_firmware, xrp_reset_dsp, xrp_halt_dsp, xrp_release_dsp, hw_op.
  rewrite Hrs, Hh, Hrl, (proj2 (Z.ltb_lt _ _) Hl). cbn [andb]. set (x1 := event (event x EvHalt) EvReset).
  destruct (core_of x) as [pw st] eqn:Hc. cbn in Hp. subst pw.
  assert (hc_loopback c <? LOOPBACK_NOFIRMWARE = true) as -> by (unfold LOOPBACK_NOMMIO, LOOPBACK_NOFIRMWARE in *; lia).
  rewrite andb_true_r.
  destruct (xv_firmware_name x1) eqn:En; [destruct (request_image_trace (be_fw e) x1) as (Et & En' & Eo);
    destruct (request_image (be_fw e) x1) as [ret x2] eqn:Er; cbn [fst snd] in *;
    change (xv_trace x1) with ((xv_trace x ++ [EvHalt]) ++ [EvReset]) in Et; change (xv_off x1) with (xv_off x) in Eo |].
  - destruct (Z.ltb_spec ret 0).
    + intros [= <- <-]. assert (∀ p, be_fw e ≠ FwOk p) as Hn by (intros p Ep; rewrite Ep in Er; cbn in Er; injection Er as <- _; lia).
      destruct (be_fw e) as [| | p]; [| | by destruct (Hn p)]; unfold core_of; rewrite Et, Eo; run_events Ht Hc;
        (split_and!; try done; try lia; auto).
    + rewrite En', En. cbn [andb].
      destruct (hc_loopback c <? LOOPBACK_NOIO), (Z.ltb_spec (be_sync e) 0); intros [= <- <-];
        destruct (be_fw e); unfold core_of; cbn [event with_off xv_trace xv_off]; rewrite ?Et, ?Eo; run_events Ht Hc; split_and!; try done; try lia; auto.
  - cbn [andb Z.ltb Z.compare]. rewrite En. cbn [andb].
    destruct (hc_loopback c <? LOOPBACK_NOIO), (Z.ltb_spec (be_sync e) 0); intros [= <- <-]; subst x1;
      run_events Ht Hc; split_and!; try done; try lia; auto.
Qed.

Lemma disable_core x :
  full_hw → trace_ok core_off (xv_trace x) = true → core_of x = mk_core 1 true →
  trace_ok core_off (xv_trace (xvp_disable_dsp c x)) = true ∧ core_of (xvp_disable_dsp c x) = core_off.
Proof.
  intros (Hl & _ & Hd & _) Ht Hc. unfold xvp_disable_dsp, hw_op. rewrite Hd, (proj2 (Z.ltb_lt _ _) Hl). cbn [andb].
  run_events Ht Hc. done.
Qed.

Lemma disable_off x : xv_off (xvp_disable_dsp c x) = xv_off x.
Proof. unfold xvp_disable_dsp, hw_op. by destruct (_ && _). Qed.

Lemma resume_core e x r x' :
  full_hw → trace_ok core_off (xv_trace x) = true → core_of x = core_off → xv_off x = false →
  xrp_runtime_resume c e x = (r, x') →
  trace_ok core_off (xv_trace x') = true ∧ r ≤ 0 ∧
  core_of x' = (if r =? 0 then mk_core 1 false else core_off) ∧ (r = 0 → xv_off x' = false).
Proof.
  intros Hfull Ht Hc Ho. pose proof Hfull as (Hl & He & _). unfold xrp_runtime_resume, xvp_enable_dsp.
  rewrite Ho, He, (proj2 (Z.ltb_lt _ _) Hl). cbn [andb]. destruct (Z.ltb_spec (be_enable e) 0).
  { intros [= <- <-]. split_and!; [done | lia | | lia]. destruct (Z.eqb_spec (be_enable e) 0); [lia | done]. }
  assert (trace_ok core_off (xv_trace (event x EvEnable)) = true ∧ core_of (event x EvEnable) = mk_core 1 true) as [Ht1 Hc1]
    by (run_events Ht Hc; done).
  destruct (xrp_boot_firmware c e (event x EvEnable)) as [ret x2] eqn:Eb.
  destruct (boot_core e _ ret x2 Hfull Ht1 ltac:(by rewrite Hc1) Eb) as (Ht2 & Hp2 & Hle & Hst & Hru & Hoff).
  destruct (core_of x2) as [pw st] eqn:Hc2. cbn in *. subst pw.
  destruct (Z.ltb_spec ret 0); intros [= <- <-].
  - rewrite Hst in Hc2 by done. destruct (disable_core x2 Hfull Ht2 Hc2) as [? ->].
    split_and!; [done | done | by destruct (Z.eqb_spec ret 0); [lia |] | lia].
  - assert (ret = 0) as -> by lia. split_and!; [done | done | by rewrite Hc2, Hru |]. intros _.
    destruct (xv_off x2); [| done]. destruct (Hoff eq_refl); [congruence | lia].
Qed.

Lemma pm_step_inv s s' : full_hw → pm_step s s' → off_resume s = 0%nat → pm_inv s → pm_inv s'.
Proof.
  intros Hfull Hs H0 [Ht Hi]. destruct Hs as [e x r x' E | x r x' E | e x r x' Ho E]; cbn [fst snd off_resume] in *.
  - assert (xv_off x = false) as Ho by (by destruct (xv_off x)).
    destruct (resume_core e x r x' Hfull Ht Hi Ho E) as (Ht' & _ & Hc & Hoff). split; [done |]. cbn.
    destruct (Z.eqb_spec r 0); cbn; [| done]. rewrite Hc. split; [done |]. rewrite Hoff by done. done.
  - destruct Hi as [Hp _]. pose proof Hfull as (Hl & _ & _ & _ & Hh & _). unfold xrp_runtime_suspend in E. injection E as <- <-.
    destruct (core_of x) as [pw st] eqn:Hc. cbn in Hp. subst pw.
    assert (trace_ok core_off (xv_trace (xrp_halt_dsp c x)) = true ∧ core_of (xrp_halt_dsp c x) = mk_core 1 true) as [Ht1 Hc1].
    { unfold xrp_halt_dsp, hw_op. rewrite Hh, (proj2 (Z.ltb_lt _ _) Hl). cbn [andb]. run_events Ht Hc. done. }
    destruct (disable_core _ Hfull Ht1 Hc1). by split.
  - destruct Hi as [Hp _]. destruct (boot_core e x r x' Hfull Ht Hp E) as (Ht' & Hp' & _ & Hst & _ & Hoff).
    split; [done |]. split; [done |]. intros Hx. destruct (Hoff Hx); [congruence | auto].
Qed.

(** Once a device that is off was resumed, all that happens to its core is
    that each suspend halts and disables it once more. *)
Definition off_inv (n : nat) (s : xvp * pm_status) : Prop :=
  xv_off s.1 = true ∧ ∃ l k, xv_trace s.1 = l ++ mjoin (replicate k [EvHalt; EvDisable]) ∧
    (match s.2 with Active => S k | Suspended => k end ≤ n)%nat ∧ trace_ok core_off l = true ∧ core_run core_off l = core_off.

Lemma off_step n s s' : full_hw → pm_step s s' → off_inv n s → off_inv (off_resume s + n) s'.
Proof.
  intros Hfull Hs (Ho & l & k & Et & Hk & Hl & Hc). destruct Hs as [e x r x' E | x r x' E | e x r x' Ho' E]; cbn [fst snd off_resume] in *.
  - unfold xrp_runtime_resume in E. rewrite Ho in E |- *. injection E as <- <-. split; [done |]. exists l, k. split_and!; [done | cbn; lia | done..].
  - destruct Hfull as (Hlb & _ & Hd & _ & Hh & _). unfold xrp_runtime_suspend, xvp_disable_dsp, xrp_halt_dsp, hw_op in E.
    rewrite Hd, Hh, (proj2 (Z.ltb_lt _ _) Hlb) in E. injection E as <- <-. split; [done |]. exists l, (S k). split_and!; [| cbn; lia | done..].
    cbn [event xv_trace fst]. rewrite Et. rewrite replicate_S_end, join_app, <- !app_assoc. done.
  - congruence.
Qed.

Lemma pm_run_inv n s s' :
  full_hw → pm_run n s s' → pm_inv s → if decide (n = 0%nat) then pm_inv s' else off_inv n s'.
Proof.
  intros Hfull Hr Hi. induction Hr as [| n s s' s'' Hr IH Hs]; [done |]. specialize (IH Hi).
  destruct (decide (n = 0%nat)) as [-> |].
  - destruct (decide (off_resume s' = 0%nat)) as [E0 | E1]; [rewrite E0; by eapply pm_step_inv |].
    assert (s'.2 = Suspended ∧ xv_off s'.1 = true) as [Es Eo].
    { unfold off_resume in E1. destruct s' as [x []]; cbn in *; [| done]. by destruct (xv_off x). }
    destruct IH as [Ht Hc]. rewrite Es in Hc. rewrite decide_False by lia. apply (off_step 0 s'); [done | done |].
    split; [done |]. exists (xv_trace s'.1), 0%nat. rewrite Es. cbn. rewrite app_nil_r. by split_and!.
  - rewrite decide_False by lia. by apply off_step.
Qed.

(** C9: hardware with all operations, used by the driver.  From a suspended
    device on, through any sequence of resumes, suspends and restarts of the
    firmware, with any outcome of the hardware, of loading the firmware and of
    the handshake, as long as no device that is off is resumed ([n = 0]), the
    core is driven correctly: power is switched on and off in turn, the core
    is reset and the firmware and the shared word are written only while it is
    stalled, and it is synchronised with only while it runs; a suspended
    device has no power; when a failed handshake has put the DSP off, the core
    is stalled.  When a device that is off is resumed, which the driver reports
    as a success, the core has been driven correctly up to that point and has
    no power; after it nothing happens to it but that the suspends, at most one
    per such resume, halt and disable it without power: it is never enabled,
    loaded, released or synchronised with again. *)
Theorem power_management_safe n x x' s :
  full_hw → xv_trace x = [] → pm_run n (x, Suspended) (x', s) →
  (n = 0%nat →
    trace_ok core_off (xv_trace x') = true ∧
    (s = Suspended → core_of x' = core_off) ∧
    (s = Active → co_power (core_of x') = 1 ∧ (xv_off x' = true → co_stalled (core_of x') = true))) ∧
  (n ≠ 0%nat →
    xv_off x' = true ∧ ∃ l k, xv_trace x' = l ++ mjoin (replicate k [EvHalt; EvDisable]) ∧ (k ≤ n)%nat ∧
      trace_ok core_off l = true ∧ core_run core_off l = core_off).
Proof.
  intros Hfull Hx Hrun. apply pm_run_inv in Hrun; [| done | by split; unfold core_of; cbn; rewrite Hx].
  case_decide as En; split; try done; intros _.
  - destruct Hrun as [Ht Hs]. split; [done |]. by destruct s.
  - destruct Hrun as (Ho & l & k & Et & Hk & Ht & Hc). split; [done |]. exists l, k. split_and!; [done | destruct s; cbn in Hk; lia | done..].
Qed.

(** The only thing that puts the DSP off. *)
Lemma boot_off e x r x' :
  xrp_boot_firmware c e x = (r, x') →
  xv_off x' = xv_off x || (hc_loopback c <? LOOPBACK_NOIO) && (be_sync e <? 0) &&
    negb (xv_firmware_name x && (hc_loopback c <? LOOPBACK_NOFIRMWARE) &&
          match be_fw e with FwNone e | FwBad _ e => 0 <? e | FwOk _ => false end).
Proof.
  unfold xrp_boot_firmware. set (x1 := xrp_reset_dsp c (xrp_halt_dsp c x)).
  assert (∀ p ev y, xv_off (hw_op c p ev y) = xv_off y ∧ xv_firmware_name (hw_op c p ev y) = xv_firmware_name y) as Hop.
  { intros p ev y. unfold hw_op. by destruct (_ && _). }
  assert (xv_off x1 = xv_off x ∧ xv_firmware_name x1 = xv_firmware_name x) as [E1 E2].
  { unfold x1, xrp_reset_dsp, xrp_halt_dsp. split; [by rewrite !(proj1 (Hop _ _ _)) | by rewrite !(proj2 (Hop _ _ _))]. }
  rewrite E2. destruct (request_image_trace (be_fw e) x1) as (_ & E3 & E4).
  set (img := if _ && _ then request_image (be_fw e) x1 else (0, x1)).
  assert (xv_off img.2 = xv_off x ∧ img.1 <? 0 = xv_firmware_name x && (hc_loopback c <? LOOPBACK_NOFIRMWARE) &&
          match be_fw e with FwNone e | FwBad _ e => 0 <? e | FwOk _ => false end) as [Eo Er].
  { unfold img. destruct (xv_firmware_name x && _); cbn [andb]; [| done]. split; [congruence |].
    destruct (be_fw e) as [er | p er | p]; cbn; [| | done]; lia. }
  destruct img as [ret x2]. cbn [fst snd] in *. rewrite <- Er.
  destruct (ret <? 0); [intros [= <- <-]; cbn [negb]; by rewrite !andb_false_r, orb_false_r |].
  unfold xrp_release_dsp, xrp_halt_dsp. cbn [negb]. rewrite !andb_true_r.
  destruct (hc_loopback c <? LOOPBACK_NOIO), (be_sync e <? 0); intros [= <- <-]; cbn [andb with_off event xv_off]; rewrite ?(proj1 (Hop _ _ _)), ?orb_true_r, ?orb_false_r; try done;
    destruct (xv_firmware_name x2); cbn; done.
Qed.
End power.

(** ** Setting a device up *)

(** What the kernel provides: memory resources ([start] and [end], both
    inside), the mapping of a range of registers, memory for the pool and its
    first descriptor, reserved memory, a page of DMA memory ([comm] and its
    physical address), the address map, the result of reading the firmware
    name, whether runtime power management is compiled in, the outcome of a
    boot, the result of registering the device. *)
Record init_env := mk_init_env {
  ie_mem : nat → option (Z * Z);
  ie_ioremap : Z → Z → Z;
  ie_pool : bool;
  ie_pool_kz : option Z;
  ie_reserved : Z;
  ie_dma : option (Z * Z);
  ie_map : init_result;
  ie_name : Z;
  ie_pm : bool;
  ie_boot : boot_env;
  ie_misc : Z;
}.

Section init.
Context `{Arch}.
Variable c : hw_cfg.

Definition resource_size (r : Z * Z) : Z := phys (r.2 - r.1 + 1).

(** [return xrp_init_private_pool(&xvp->pool, ...)]; the size is a [u32]. *)
Definition init_pool (e : init_env) (x : xvp) : Z * xvp :=
  match xrp_init_private_pool (ie_pool e) (ie_pool_kz e) (xv_pmem x) (u32 (xv_shared_size x)) with
  | Ok p => (0, hold RPool (with_pool x (Some p)))
  | Err er => (- er, x)
  end.

Definition xrp_init_regs_v0 (e : init_env) (x : xvp) : Z * xvp :=
  match ie_mem e 1 with
  | None => (- ENODEV, x)
  | Some mem =>
      let x := with_regs x (ie_ioremap e mem.1 mem.2) (xv_pmem x) mem.1 (xv_shared_size x) in
      match ie_mem e 2 with
      | None => (- ENODEV, x)
      | Some mem => init_pool e (with_regs x (xv_comm x) mem.1 (xv_comm_phys x) (resource_size mem))
      end
  end.

Definition xrp_init_regs_v1 (e : init_env) (x : xvp) : Z * xvp :=
  match ie_mem e 0 with
  | None => (- ENODEV, x)
  | Some mem =>
      if resource_size mem <? 2 * PAGE_SIZE then (- ENOMEM, x)
      else
        init_pool e (with_regs x (ie_ioremap e mem.1 (phys (mem.1 + PAGE_SIZE))) (phys (mem.1 + PAGE_SIZE)) mem.1
                       (phys (resource_size mem - PAGE_SIZE)))
  end.

Definition xrp_init_regs_cma (e : init_env) (x : xvp) : Z * xvp :=
  if ie_reserved e <? 0 then (- ENODEV, x)
  else
    let x := hold RReserved x in
    match ie_dma e with
    | None => (- ENOMEM, with_regs x 0 (xv_pmem x) (xv_comm_phys x) (xv_shared_size x))
    | Some (comm, comm_phys) =>
        let x := hold RComm (with_regs x comm (xv_pmem x) comm_phys (xv_shared_size x)) in
        if ie_pool e then (0, hold RPool x) else (- ENOMEM, x)
    end.

(** [if (xvp->comm_phys && !xvp->pmem) dma_free_attrs(...)]. *)
Definition free_comm (x : xvp) : xvp :=
  if negb (xv_comm_phys x =? 0) && (xv_pmem x =? 0) then drop_res RComm x else x.

(** [kfree(map->entry)]. *)
Definition xrp_free_address_map (x : xvp) : xvp := drop_res RMap x.

(** The labels of the error path, each falling through to the next. *)
Definition err_free_pool (x : xvp) : xvp := free_comm (drop_res RPool x).
Definition err_free_map (x : xvp) : xvp := err_free_pool (xrp_free_address_map x).
Definition err_pm_disable (x : xvp) : xvp := err_free_map (drop_res RPm x).

(** [None]: the address map could not be built safely ([InitUB]). *)
Definition xrp_init_common (init_regs : init_env → xvp → Z * xvp) (e : init_env) (x : xvp) : option (Z * xvp) :=
  let '(ret, x) := init_regs e x in
  if ret <? 0 then Some (ret, x)
  else
    match ie_map e with
    | InitUB => None
    | InitErr er => Some (- er, err_free_pool x)
    | InitOk m =>
        let x := hold RMap (with_map x m) in
        let ret := ie_name e in
        if negb ((ret =? - EINVAL) || (ret =? - ENODATA)) && (ret <? 0) then Some (ret, err_free_map x)
        else
          let x := hold RPm (with_name x (negb (ret <? 0))) in
          let '(ret, x) := if ie_pm e then (0, x) else xrp_runtime_resume c (ie_boot e) x in
          if negb (ret =? 0) then Some (ret, err_pm_disable x)
          else if ie_misc e <? 0 then Some (ie_misc e, err_pm_disable x)
          else Some (0, hold RMisc x)
    end.

Definition xrp_init := xrp_init_common xrp_init_regs_v0.
Definition xrp_init_v1 := xrp_init_common xrp_init_regs_v1.
Definition xrp_init_cma := xrp_init_common xrp_init_regs_cma.

(** [suspended]: [pm_runtime_status_suspended]. *)
Definition xrp_deinit (suspended : bool) (x : xvp) : Z * xvp :=
  let x := drop_res RPm x in
  let x := if suspended then x else (xrp_runtime_suspend c x).2 in
  let x := release_firmware (xv_firmware x) (drop_res RMisc x) in
  (0, xrp_free_address_map (free_comm (drop_res RPool x))).
End init.

(** ** What is held after setting up and tearing down *)

Section resources.
Context `{Arch}.
Variable c : hw_cfg.

(** [x] holds [l], with registers as in [y], and released nothing it did
    not hold. *)
Record holds (y : xvp) (l : list resource) (x : xvp) : Prop := {
  ho_held : xv_held x ≡ₚ l;
  ho_bad : xv_bad x = [];
  ho_comm : xv_comm_phys x = xv_comm_phys y;
  ho_pmem : xv_pmem x = xv_pmem y;
  ho_pool : xv_pool x = xv_pool y;
}.

Lemma remove_one_perm r l : r ∈ l → l ≡ₚ r :: remove_one r l.
Proof.
  induction l as [| q l IH]; [by intros ?%not_elem_of_nil |]. intros Hr. cbn. case_decide as E; [by subst |].
  apply elem_of_cons in Hr as [-> | Hr]; [done |]. rewrite (IH Hr) at 1. constructor.
Qed.

Lemma drop_holds y r l x : holds y (r :: l) x → holds y l (drop_res r x).
Proof.
  intros [Hh Hb Hc Hp Hq]. unfold drop_res. rewrite decide_True by (rewrite Hh; by left).
  split; cbn; [| done | done | done | done]. apply (Permutation_cons_inv (a := r)). rewrite <- Hh. symmetry.
  apply remove_one_perm. rewrite Hh. by left.
Qed.

Lemma drop_holds_in y l1 r l2 x : holds y (l1 ++ r :: l2) x → holds y (l1 ++ l2) (drop_res r x).
Proof. intros [Hh Hb Hc Hp Hq]. apply drop_holds. split; try done. by rewrite Hh, Permutation_middle. Qed.

Lemma hold_holds y r l x : holds y l x → holds y (r :: l) (hold r x).
Proof. intros [Hh Hb Hc Hp Hq]. split; cbn; try done. by rewrite Hh. Qed.

Lemma event_holds y l x ev : holds y l x → holds y l (event x ev).
Proof. by intros [Hh Hb Hc Hp Hq]. Qed.

Lemma hw_op_holds y l x p ev : holds y l x → holds y l (hw_op c p ev x).
Proof. intros Hx. unfold hw_op. destruct (_ && _); [by apply event_holds | done]. Qed.

(** The image a boot keeps. *)
Definition kept (o : fw_outcome) : list resource := match o with FwOk p => [RFirmware p] | _ => [] end.
Definition fw_valid (o : fw_outcome) : Prop := match o with FwNone e => 0 < e | FwBad p e => 0 < e ∧ p ≠ 0 | FwOk p => p ≠ 0 end.

Lemma request_image_holds y l o x :
  fw_valid o → holds y l x → holds y (kept o ++ l) (request_image o x).2.
Proof.
  intros Hv Hx. assert (∀ p, holds y (RFirmware p :: l) (with_firmware (hold (RFirmware p) x) p)) as Hp.
  { intros p. destruct (hold_holds y (RFirmware p) l x Hx) as [? ? ? ? ?]. by split. }
  destruct o as [e | p e | p]; cbn.
  - destruct Hx. by split.
  - unfold release_firmware. destruct (Z.eqb_spec p 0); [by destruct Hv |]. apply drop_holds, Hp.
  - apply event_holds, Hp.
Qed.

(** What a boot leaves: the new image, and the pointer to it. *)
Lemma boot_holds y l e x r x' :
  fw_valid (be_fw e) → holds y l x → xrp_boot_firmware c e x = (r, x') →
  let loads := xv_firmware_name x && (hc_loopback c <? LOOPBACK_NOFIRMWARE) in
  holds y ((if loads then kept (be_fw e) else []) ++ l) x' ∧
  (r = 0 → if loads then ∃ p, be_fw e = FwOk p ∧ xv_firmware x' = p else xv_firmware x' = xv_firmware x).
Proof.
  intros Hv Hx. cbv zeta. unfold xrp_boot_firmware, xrp_release_dsp, xrp_reset_dsp, xrp_halt_dsp.
  set (x1 := hw_op c (hc_reset c) EvReset (hw_op c (hc_halt c) EvHalt x)).
  assert (holds y l x1) as Hx1 by (by do 2 apply hw_op_holds).
  assert (∀ p ev z, xv_firmware_name (hw_op c p ev z) = xv_firmware_name z ∧ xv_firmware (hw_op c p ev z) = xv_firmware z) as Hop.
  { intros p ev z. unfold hw_op. by destruct (_ && _). }
  assert (xv_firmware_name x1 = xv_firmware_name x ∧ xv_firmware x1 = xv_firmware x) as [-> Ef].
  { unfold x1. by rewrite !(proj1 (Hop _ _ _)), !(proj2 (Hop _ _ _)). }
  set (loads := xv_firmware_name x && _).
  set (img := if loads then request_image (be_fw e) x1 else (0, x1)).
  assert (holds y ((if loads then kept (be_fw e) else []) ++ l) img.2) as Hi.
  { unfold img. destruct loads; [by apply request_image_holds | done]. }
  assert (¬ img.1 < 0 → if loads then ∃ p, be_fw e = FwOk p ∧ xv_firmware img.2 = p else xv_firmware img.2 = xv_firmware x) as Hf.
  { unfold img. destruct loads; [| done]. destruct (be_fw e) as [er | p er | p]; cbn in *; [lia | lia | by exists p]. }
  destruct img as [ret x2]. cbn [fst snd] in *. destruct (Z.ltb_spec ret 0); [intros [= <- <-]; split; [done | lia] |].
  specialize (Hf ltac:(lia)).
  set (x3 := hw_op c (hc_release c) EvRelease _).
  assert (holds y ((if loads then kept (be_fw e) else []) ++ l) x3 ∧ xv_firmware x3 = xv_firmware x2) as [Hx3 E3].
  { unfold x3. rewrite (proj2 (Hop _ _ _)). split; [apply hw_op_holds; destruct (xv_firmware_name x2 && _); [by apply event_holds | done] | by destruct (xv_firmware_name x2 && _)]. }
  rewrite <- E3 in Hf. destruct (hc_loopback c <? LOOPBACK_NOIO); [destruct (Z.ltb_spec (be_sync e) 0) |]; intros [= <- <-].
  - split; [| lia]. destruct (hw_op_holds y _ _ (hc_halt c) EvHalt (event_holds y _ x3 EvSync Hx3)). by split.
  - split; [by apply event_holds | done].
  - done.
Qed.

Lemma resume_holds y l e x r x' :
  fw_valid (be_fw e) → holds y l x → xv_firmware x = 0 → xrp_runtime_resume c e x = (r, x') →
  ∃ fw, holds y (fw ++ l) x' ∧ (fw = [] ∨ ∃ p, fw = [RFirmware p] ∧ be_fw e = FwOk p) ∧
    (r = 0 → if decide (fw = []) then xv_firmware x' = 0 else ∃ p, fw = [RFirmware p] ∧ xv_firmware x' = p ∧ p ≠ 0).
Proof.
  intros Hv Hx E0. unfold xrp_runtime_resume, xvp_enable_dsp. destruct (xv_off x).
  { intros [= <- <-]. exists []. by split_and!; [| left |]. }
  set (en := if _ && _ then _ else _).
  assert (holds y l en.2 ∧ xv_firmware en.2 = 0 ∧ xv_firmware_name en.2 = xv_firmware_name x) as (Hx1 & E1 & En).
  { unfold en. destruct (_ && _); cbn; [destruct (be_enable e <? 0) |]; split_and!; first [done | by apply event_holds]. }
  destruct en as [ret x1]. cbn [fst snd] in *. destruct (Z.ltb_spec ret 0).
  { intros [= <- <-]. exists []. split_and!; [done | by left | lia]. }
  destruct (xrp_boot_firmware c e x1) as [rb x2] eqn:Eb.
  destruct (boot_holds y l e x1 rb x2 Hv Hx1 Eb) as [Hx2 Hf]. intros [= <- <-].
  set (loads := xv_firmware_name x1 && _) in *. exists (if loads then kept (be_fw e) else []). split_and!.
  - destruct (rb <? 0); [unfold xvp_disable_dsp; by apply hw_op_holds | done].
  - destruct loads; [destruct (be_fw e); cbn; eauto | by left].
  - intros ->. cbn [Z.ltb Z.compare]. specialize (Hf eq_refl). destruct loads; [| by rewrite decide_True, Hf by done].
    destruct Hf as (p & Ep & Ef). rewrite Ep in *. cbn. rewrite decide_False by done. by exists p.
Qed.

(** The three ways a device gets its memory. *)
Inductive variant := V0 | V1 | CMA.
Definition regs_of (v : variant) : init_env → xvp → Z * xvp :=
  match v with V0 => xrp_init_regs_v0 | V1 => xrp_init_regs_v1 | CMA => xrp_init_regs_cma end.
Definition comm_res (v : variant) : list resource := match v with CMA => [RComm] | _ => [] end.
Definition reserved_res (v : variant) : list resource := match v with CMA => [RReserved] | _ => [] end.

(** No memory at physical address zero, by which the error path tells the
    variants apart. *)
Definition mem_nonzero (v : variant) (e : init_env) : Prop :=
  match v with
  | V0 => ∀ mem, ie_mem e 2 = Some mem → mem.1 ≠ 0
  | V1 => ∀ mem, ie_mem e 0 = Some mem → phys (mem.1 + PAGE_SIZE) ≠ 0
  | CMA => ∀ comm comm_phys, ie_dma e = Some (comm, comm_phys) → comm_phys ≠ 0
  end.

Definition regs_ok (v : variant) (y : xvp) : Prop :=
  match v with CMA => xv_comm_phys y ≠ 0 ∧ xv_pmem y = 0 | _ => xv_pmem y ≠ 0 end.

Lemma init_pool_cases e x :
  init_pool e x = (- ENOMEM, x) ∨ ∃ p, init_pool e x = (0, hold RPool (with_pool x (Some p))).
Proof. unfold init_pool, xrp_init_private_pool. destruct (ie_pool e), (ie_pool_kz e); eauto. Qed.

Lemma regs_holds v e ret x :
  mem_nonzero v e → regs_of v e xvp_zero = (ret, x) →
  xv_firmware x = 0 ∧
  (ret < 0 ∧ (holds x [] x ∨ v = CMA ∧ (holds x [RReserved] x ∨ ie_pool e = false ∧ holds x [RComm; RReserved] x)) ∨
   ret = 0 ∧ regs_ok v x ∧ holds x (RPool :: comm_res v ++ reserved_res v) x).
Proof.
  assert (∀ y, xv_held y = [] → xv_bad y = [] → holds y [] y) as H0 by (intros y E1 E2; split; by rewrite ?E1).
  intros Hnz. destruct v; cbn.
  - unfold xrp_init_regs_v0. destruct (ie_mem e 1) as [m1 |]; [| intros [= <- <-]; split; [done |]; left; split; [done | left; by apply H0]].
    destruct (ie_mem e 2) as [m2 |] eqn:E2; [| intros [= <- <-]; split; [done |]; left; split; [done | left; by apply H0]].
    destruct (init_pool_cases e (with_regs (with_regs xvp_zero (ie_ioremap e m1.1 m1.2) 0 m1.1 0) (ie_ioremap e m1.1 m1.2) m2.1 m1.1 (resource_size m2)))
      as [E | [p E]]; cbn in E |- *; rewrite E; intros [= <- <-]; (split; [done |]);
      [left; split; [done | left; by apply H0] | right; split_and!; [done | by apply (Hnz m2) | by split]].
  - unfold xrp_init_regs_v1. destruct (ie_mem e 0) as [m |] eqn:E0; [| intros [= <- <-]; split; [done |]; left; split; [done | left; by apply H0]].
    destruct (_ <? _); [intros [= <- <-]; split; [done |]; left; split; [done | left; by apply H0] |].
    match goal with |- init_pool e ?y = _ → _ => destruct (init_pool_cases e y) as [E | [p E]] end;
      rewrite E; intros [= <- <-]; (split; [done |]);
      [left; split; [done | left; by apply H0] | right; split_and!; [done | by apply (Hnz m) | by split]].
  - unfold xrp_init_regs_cma. destruct (_ <? _); [intros [= <- <-]; split; [done |]; left; split; [done | left; by apply H0] |].
    destruct (ie_dma e) as [[comm cp] |] eqn:Ed; [| intros [= <- <-]; split; [done |]; left; split; [done | right; split; [done |]; left; by split]].
    destruct (ie_pool e) eqn:Ep; intros [= <- <-]; (split; [done |]).
    + right. split_and!; [done | by apply (Hnz comm cp) | done | by split].
    + left. split; [done |]. right. split; [done |]. right. by split.
Qed.

Lemma free_comm_holds v y l x : regs_ok v y → holds y (comm_res v ++ l) x → holds y l (free_comm x).
Proof.
  intros Hr Hx. pose proof Hx as [_ _ Hc Hp _]. unfold free_comm. rewrite Hc, Hp. destruct v; cbn in *.
  - destruct (Z.eqb_spec (xv_pmem y) 0); [done |]. by rewrite andb_false_r.
  - destruct (Z.eqb_spec (xv_pmem y) 0); [done |]. by rewrite andb_false_r.
  - destruct Hr as [Hc0 Hp0]. destruct (Z.eqb_spec (xv_comm_phys y) 0); [done |].
    destruct (Z.eqb_spec (xv_pmem y) 0); [| done]. by apply drop_holds.
Qed.

Lemma holds_permute y l k x : l ≡ₚ k → holds y l x → holds y k x.
Proof. intros E [Hh ? ? ? ?]. split; [by rewrite Hh | done..]. Qed.

(** The error path gives back all but the reserved memory and the image. *)
Lemma err_free_pool_holds v y l x : regs_ok v y → holds y (RPool :: comm_res v ++ l) x → holds y l (err_free_pool x).
Proof. intros Hr Hx. apply (free_comm_holds v); [done |]. by apply drop_holds. Qed.
Lemma err_free_map_holds v y l x : regs_ok v y → holds y (RMap :: RPool :: comm_res v ++ l) x → holds y l (err_free_map x).
Proof. intros Hr Hx. apply (err_free_pool_holds v); [done |]. by apply drop_holds. Qed.
Lemma err_pm_disable_holds v y l x : regs_ok v y → holds y (RPm :: RMap :: RPool :: comm_res v ++ l) x → holds y l (err_pm_disable x).
Proof. intros Hr Hx. apply (err_free_map_holds v); [done |]. by apply drop_holds. Qed.

Lemma holds_fields y l x x' :
  holds y l x → xv_held x' = xv_held x → xv_bad x' = xv_bad x → xv_comm_phys x' = xv_comm_phys x → xv_pmem x' = xv_pmem x →
  xv_pool x' = xv_pool x → holds y l x'.
Proof. intros [? ? ? ? ?] E1 E2 E3 E4 E5. split; congruence. Qed.

(** What a failed setup may leave: reserved memory, the image it booted and,
    when the pool object could not be allocated, the page for commands. *)
Definition left_behind (v : variant) (e : init_env) (r : resource) : Prop :=
  r = RReserved ∧ v = CMA ∨ (∃ p, r = RFirmware p ∧ ie_pm e = false ∧ be_fw (ie_boot e) = FwOk p) ∨
  r = RComm ∧ v = CMA ∧ ie_pool e = false.

(** What a device holds after its setup: everything, or next to nothing. *)
Definition init_outcome (v : variant) (e : init_env) (ret : Z) (x : xvp) : Prop :=
  xv_bad x = [] ∧
  if decide (ret = 0)
  then ∃ fw y, regs_of v e xvp_zero = (0, y) ∧ regs_ok v y ∧ holds y (RMisc :: RPm :: RMap :: RPool :: comm_res v ++ reserved_res v ++ fw) x ∧
       (fw = [] ∧ xv_firmware x = 0 ∨ ∃ p, fw = [RFirmware p] ∧ xv_firmware x = p ∧ p ≠ 0)
  else ∀ r, r ∈ xv_held x → left_behind v e r.

Lemma failed_outcome v e ret y l x :
  ret ≠ 0 → holds y l x → (∀ r, r ∈ l → left_behind v e r) →
  init_outcome v e ret x.
Proof. intros Hne [Hh Hb _ _ _] Hl. split; [done |]. rewrite decide_False by done. intros r. rewrite Hh. apply Hl. Qed.

Lemma reserved_only v e r : r ∈ reserved_res v → left_behind v e r.
Proof. unfold left_behind. destruct v; cbn; set_solver. Qed.

Definition env_valid (v : variant) (e : init_env) : Prop :=
  mem_nonzero v e ∧ fw_valid (be_fw (ie_boot e)) ∧ ∀ er, ie_map e = InitErr er → 0 < er.

Lemma init_common_outcome v e ret x :
  env_valid v e → xrp_init_common c (regs_of v) e xvp_zero = Some (ret, x) → init_outcome v e ret x.
Proof.
  intros (Hnz & Hfw & Hmap). unfold xrp_init_common. destruct (regs_of v e xvp_zero) as [r1 x1] eqn:E1.
  destruct (regs_holds v e r1 x1 Hnz E1) as (Ef & [[Hneg Hfail] | (-> & Hr & Hx1)]).
  { rewrite (proj2 (Z.ltb_lt _ _)) by done. intros [= <- <-].
    destruct Hfail as [Hx | [-> [Hx | [Hp Hx]]]]; (eapply failed_outcome; [lia | exact Hx |]);
      unfold left_behind; set_solver. }
  cbn [Z.ltb Z.compare]. destruct (ie_map e) as [m | er |]; [| | done].
  2: { intros [= <- <-]. specialize (Hmap er eq_refl). apply (failed_outcome _ _ _ x1 (reserved_res v)); [lia | | by intros r ?%(reserved_only v e)].
       by apply (err_free_pool_holds v). }
  assert (holds x1 (RMap :: RPool :: comm_res v ++ reserved_res v) (hold RMap (with_map x1 m))) as Hx2.
  { apply hold_holds. eapply holds_fields; [exact Hx1 | done..]. }
  destruct (negb _ && (ie_name e <? 0)) eqn:En.
  { intros [= <- <-]. apply andb_true_iff in En as [_ ?%Z.ltb_lt].
    apply (failed_outcome _ _ _ x1 (reserved_res v)); [lia | by apply (err_free_map_holds v) | by intros r ?%(reserved_only v e)]. }
  set (x3 := hold RPm _). assert (holds x1 (RPm :: RMap :: RPool :: comm_res v ++ reserved_res v) x3 ∧ xv_firmware x3 = 0) as [Hx3 Ef3].
  { split; [| done]. apply hold_holds. eapply holds_fields; [exact Hx2 | done..]. }
  set (res := if ie_pm e then _ else _).
  assert (∃ fw, holds x1 (RPm :: RMap :: RPool :: comm_res v ++ reserved_res v ++ fw) res.2 ∧ (fw = [] ∨ ∃ p, fw = [RFirmware p] ∧ ie_pm e = false ∧ be_fw (ie_boot e) = FwOk p) ∧
    (res.1 = 0 → fw = [] ∧ xv_firmware res.2 = 0 ∨ ∃ p, fw = [RFirmware p] ∧ xv_firmware res.2 = p ∧ p ≠ 0)) as (fw & Hx4 & Hfw4 & Hok).
  { unfold res. destruct (ie_pm e) eqn:Epm; [exists []; rewrite app_nil_r; split_and!; [done | by left | by left] |].
    destruct (xrp_runtime_resume c (ie_boot e) x3) as [rr x4] eqn:Er.
    destruct (resume_holds _ _ _ _ _ _ Hfw Hx3 Ef3 Er) as (fw & Hh & Hf & H0). exists fw. split_and!; [| naive_solver |].
    - eapply holds_permute; [| exact Hh]. rewrite Permutation_app_comm. cbn. by rewrite <- !app_assoc.
    - intros E. specialize (H0 E). cbn in *. case_decide; [by left | right; done]. }
  destruct res as [rr x4]. cbn [fst snd] in *.
  assert (∀ r', r' ≠ 0 → init_outcome v e r' (err_pm_disable x4)) as Hfail.
  { intros r' Hne. apply (failed_outcome _ _ _ x1 (reserved_res v ++ fw)); [done | by apply (err_pm_disable_holds v) |].
    intros r [Hr'%(reserved_only v e) | Hr']%elem_of_app; [done |]. destruct Hfw4 as [-> | (p & -> & ? & ?)]; [by apply not_elem_of_nil in Hr' |].
    apply list_elem_of_singleton in Hr' as ->. right. left. by exists p. }
  destruct (Z.eqb_spec rr 0); cbn [negb]; [| intros [= <- <-]; by apply Hfail].
  destruct (Z.ltb_spec (ie_misc e) 0); intros [= <- <-]; [apply Hfail; lia |].
  split; [apply Hx4 |]. rewrite decide_True by done. exists fw, x1. split_and!; [done | done | by apply hold_holds | by apply Hok].
Qed.

Lemma release_holds y l p x : p ≠ 0 → holds y (RFirmware p :: l) x → holds y l (release_firmware p x).
Proof. intros Hp Hx. unfold release_firmware. destruct (Z.eqb_spec p 0); [done |]. by apply drop_holds. Qed.

Lemma deinit_holds v y l x suspended :
  regs_ok v y → holds y (RMisc :: RPm :: RMap :: RPool :: comm_res v ++ reserved_res v ++ l) x →
  (l = [] ∧ xv_firmware x = 0 ∨ ∃ p, l = [RFirmware p] ∧ xv_firmware x = p ∧ p ≠ 0) →
  holds y (reserved_res v) (xrp_deinit c suspended x).2.
Proof.
  intros Hr Hx Hl. unfold xrp_deinit. cbn [snd].
  assert (holds y (RMisc :: RMap :: RPool :: comm_res v ++ reserved_res v ++ l) (drop_res RPm x)) as Hx1
    by (by apply (drop_holds_in y [RMisc])).
  assert (xv_firmware (drop_res RPm x) = xv_firmware x) as Ef by (unfold drop_res; by case_decide).
  set (x2 := if suspended then _ else _).
  assert (holds y (RMisc :: RMap :: RPool :: comm_res v ++ reserved_res v ++ l) x2 ∧ xv_firmware x2 = xv_firmware x) as [Hx2 Ef2].
  { unfold x2. destruct suspended; [done |]. unfold xrp_runtime_suspend, xvp_disable_dsp, xrp_halt_dsp. cbn [snd].
    split; [by do 2 apply hw_op_holds |]. unfold hw_op. destruct (_ && hc_disable c), (_ && hc_halt c); cbn; done. }
  rewrite Ef2. assert (holds y (RMap :: RPool :: comm_res v ++ reserved_res v) (release_firmware (xv_firmware x) (drop_res RMisc x2))) as Hx3.
  { apply drop_holds in Hx2. destruct Hl as [[-> ->] | (p & -> & -> & Hp)]; [by rewrite app_nil_r in Hx2 |].
    apply release_holds; [done |]. eapply holds_permute; [| exact Hx2]. rewrite !app_comm_cons, app_assoc. by rewrite Permutation_app_comm. }
  apply drop_holds. apply (free_comm_holds v); [done |].
  eapply holds_permute; [| apply (drop_holds_in y [RMap] RPool); exact Hx3]. cbn. by rewrite Permutation_middle.
Qed.

(** C17: for a device without memory at physical address zero, by which the
    error path tells the variants apart: a setup that fails releases nothing
    it did not hold and gives back what it had acquired, except for the
    reserved memory of a CMA device, the firmware image it booted when there
    is no runtime power management and, when the pool object of a CMA device
    could not be allocated, its page for commands.  A device that was set up
    is torn down without releasing anything it does not hold, and keeps
    nothing but the reserved memory of a CMA device. *)
Theorem init_unwinds v e ret x :
  env_valid v e → xrp_init_common c (regs_of v) e xvp_zero = Some (ret, x) →
  xv_bad x = [] ∧
  (ret ≠ 0 → ∀ r, r ∈ xv_held x → left_behind v e r) ∧
  (ret = 0 → ∀ suspended, let x' := (xrp_deinit c suspended x).2 in xv_bad x' = [] ∧ xv_held x' ≡ₚ reserved_res v).
Proof.
  intros Hv E. destruct (init_common_outcome v e ret x Hv E) as [Hb Ho]. split; [done |]. case_decide as E0; split; try done.
  intros _ suspended. destruct Ho as (fw & y & _ & Hr & Hx & Hf).
  destruct (deinit_holds v y fw x suspended Hr Hx Hf) as [Hh Hb' _ _ _]. done.
Qed.
End resources.
