(* ===== verification/Probe.v ===== *)
(** * Probing a device (xrp-kernel/xvp_main.c)

    [xrp_probe] and the memory a probed device works with: the page for
    commands and the pool beside it, from which the file operations
    ([FileTheorems]) start, and the address map of an ACPI device, which lets
    the DSP reach the device's own memory only.  With concrete setups, and
    what happens when they fail. *)

From stdpp Require Import base tactics list gmap numbers.
From S2P Require Import Prelude Alloc PrivateAlloc AddressMap PageMap Share FileOps FileTheorems FileExamples Submit Boot.

Section probe.
Context `{Arch} `{KLib}.
Variable c : hw_cfg.

(** [entry->src_addr = ...]: the entry is part of the map. *)
Definition update_entry (m : xrp_address_map) (old new : xrp_address_map_entry) : xrp_address_map :=
  map (λ e, if decide (e = old) then new else e) m.

(** With device trees: the variant [of_match_device] finds; [None] when it
    finds none, which the code does not check. *)
Definition xrp_probe_of (kz : bool) (match_data : option variant) (e : init_env) : option (Z * xvp) :=
  if kz then v ← match_data; xrp_init_common c (regs_of v) e xvp_zero else Some (- ENOMEM, xvp_zero).

Definition xrp_probe_acpi (kz : bool) (e : init_env) : option (Z * xvp) :=
  if kz then
    r ← xrp_init_v1 c e xvp_zero;
    let '(ret, x) := (r : Z * xvp) in
    if ret =? 0 then
      Some (match xrp_get_address_mapping (xv_map x) (xv_comm_phys x) with
            | Some old =>
                let new := mk_entry (xv_comm_phys x) (u32 (xv_comm_phys x)) (u32 (u32 (xv_shared_size x) + PAGE_SIZE)) in
                (ret, with_map x (update_entry (xv_map x) old new))
            | None => (- EINVAL, x)
            end)
    else Some (ret, x)
  else Some (- ENOMEM, xvp_zero).

Definition xrp_remove (suspended : bool) (x : xvp) : Z * xvp := xrp_deinit c suspended x.

(** [xvp_nodeid]: the number of the next device node, with the numbers of
    the nodes there are.  A device that is removed gives its number back. *)
Definition name_node (n : Z * list Z) : Z * list Z := (u32 (n.1 + 1), n.2 ++ [n.1]).
Definition forget_node (i : nat) (n : Z * list Z) : Z * list Z := (u32 (n.1 - 1), delete i n.2).
End probe.

Section probe_spec.
Context `{Arch} `{KLibSpec}.
Variable c : hw_cfg.

(** Booting leaves the memory of the device alone. *)
Definition memory (x : xvp) := (xv_comm x, xv_pmem x, xv_comm_phys x, xv_shared_size x, xv_map x, xv_pool x).

Lemma memory_hw_op p ev x : memory (hw_op c p ev x) = memory x.
Proof. unfold hw_op. by destruct (_ && _). Qed.
Lemma memory_event x ev : memory (event x ev) = memory x.
Proof. done. Qed.
Lemma memory_off x : memory (with_off x) = memory x.
Proof. done. Qed.
Lemma memory_image o x : memory (request_image o x).2 = memory x.
Proof.
  destruct o as [e | p e | p]; cbn; [done | | done]. unfold release_firmware, drop_res.
  destruct (p =? 0); [done |]. by case_decide.
Qed.
Lemma memory_boot e x : memory (xrp_boot_firmware c e x).2 = memory x.
Proof.
  unfold xrp_boot_firmware, xrp_release_dsp, xrp_reset_dsp, xrp_halt_dsp.
  set (x1 := hw_op c (hc_reset c) EvReset (hw_op c (hc_halt c) EvHalt x)).
  assert (memory x1 = memory x) as <- by (unfold x1; by rewrite !memory_hw_op).
  set (img := if _ && _ then request_image _ _ else _).
  assert (memory img.2 = memory x1) as <- by (unfold img; destruct (_ && _); [apply memory_image | done]).
  destruct img as [ret x2]. destruct (ret <? 0); [done |].
  destruct (xv_firmware_name x2 && _), (hc_loopback c <? LOOPBACK_NOIO), (be_sync e <? 0); cbn [snd];
    by rewrite ?memory_off, ?memory_hw_op, ?memory_event, ?memory_hw_op, ?memory_event.
Qed.
Lemma memory_resume e x : memory (xrp_runtime_resume c e x).2 = memory x.
Proof.
  unfold xrp_runtime_resume, xvp_enable_dsp. destruct (xv_off x); [done |].
  set (en := if _ && _ then _ else _).
  assert (memory en.2 = memory x) as <- by (unfold en; destruct (_ && _); [by cbn; destruct (_ <? 0) | done]).
  destruct en as [ret x1]. destruct (ret <? 0); [done |]. pose proof (memory_boot e x1) as Hb.
  destruct (xrp_boot_firmware c e x1) as [rb x2]. cbn [snd] in *. rewrite <- Hb.
  destruct (rb <? 0); [apply memory_hw_op | done].
Qed.

Lemma init_common_memory regs e x :
  (∀ er, ie_map e = InitErr er → 0 < er) → xrp_init_common c regs e xvp_zero = Some (0, x) →
  ∃ ret y m, regs e xvp_zero = (ret, y) ∧ ¬ ret < 0 ∧ ie_map e = InitOk m ∧ memory x = memory (with_map y m).
Proof.
  intros Hmap. unfold xrp_init_common. destruct (regs e xvp_zero) as [ret y]. destruct (Z.ltb_spec ret 0); [intros [= -> _]; lia |].
  destruct (ie_map e) as [m | er |]; [| | done].
  2: { specialize (Hmap er eq_refl). intros [= E _]. lia. }
  destruct (_ && _) eqn:En; [intros [= E _]; rewrite E in En; by rewrite andb_false_r in En |].
  set (x3 := hold RPm _). set (res := if ie_pm e then _ else _).
  assert (memory res.2 = memory x3) as Hm by (unfold res; destruct (ie_pm e); [done | apply memory_resume]).
  destruct res as [rr x4]. cbn [snd] in Hm.
  destruct (Z.eqb_spec rr 0); cbn [negb]; [| intros [= -> _]; done].
  destruct (Z.ltb_spec (ie_misc e) 0); [intros [= E _]; lia |]. intros [= <-].
  exists ret, y, m. split_and!; [done | lia | done |]. exact Hm.
Qed.

(** A memory resource of whole pages. *)
Definition good_mem (mem : Z * Z) : Prop :=
  0 ≤ mem.1 ∧ mem.1 mod PAGE_SIZE = 0 ∧ mem.1 ≤ mem.2 ∧ mem.2 < 2 ^ phys_bits ∧ mem.2 - mem.1 + 1 < 2 ^ 32.

Lemma good_size mem : good_mem mem → resource_size mem = mem.2 - mem.1 + 1.
Proof. intros (? & ? & ? & ? & ?). unfold resource_size. rewrite phys_small; [done |]. pose proof phys_bits_ge. lia. Qed.

Lemma init_pool_region e x y :
  init_pool e x = (0, y) → 0 ≤ xv_pmem x → 0 < xv_shared_size x < 2 ^ 32 → xv_pmem x + xv_shared_size x ≤ 2 ^ phys_bits →
  xv_pmem y = xv_pmem x ∧ xv_comm_phys y = xv_comm_phys x ∧
  ∃ p, xv_pool y = Some p ∧ private_inv p [] ∧ pl_start p = xv_pmem x ∧ pl_size p = xv_shared_size x.
Proof.
  unfold init_pool, xrp_init_private_pool. intros E Hp Hs He. rewrite u32_small in E by lia.
  destruct (ie_pool e); [| done]. destruct (ie_pool_kz e) as [kz |]; [| done]. injection E as <-.
  split_and!; [done | done |]. eexists. split_and!; [done | | done | done]. by apply private_init_inv.
Qed.

(** A device with its own memory that was set up has its pool in that
    memory, page aligned and, for the second variant, right after the page
    for commands and up to the end: the pool is consistent, nothing is
    allocated yet, and the file operations start from it. *)
Theorem init_memory v e x mem :
  env_valid v e → v ≠ CMA → ie_mem e (match v with V0 => 2%nat | _ => 0%nat end) = Some mem → good_mem mem →
  xrp_init_common c (regs_of v) e xvp_zero = Some (0, x) →
  ∃ p, xv_pool x = Some p ∧
    xv_pmem x = mem.1 + (if v is V1 then PAGE_SIZE else 0) ∧ pl_start p = xv_pmem x ∧ pl_start p + pl_size p = mem.2 + 1 ∧
    (v = V1 → xv_comm_phys x + PAGE_SIZE = pl_start p) ∧
    finv (xv_pmem x) (probed (mk_alloc_state p ∅)) ∧ 0 ≤ xv_pmem x ∧ xv_pmem x mod PAGE_SIZE = 0.
Proof.
  intros Hv Hcma Em Hg E. destruct (init_common_outcome c v e 0 x Hv E) as [_ Ho]. rewrite decide_True in Ho by done.
  destruct Ho as (fw & y & Ey & _ & [_ _ Hc Hp Hq] & _). pose proof (good_size mem Hg) as Es. pose proof Hg as (G1 & G2 & G3 & G4 & G5).
  assert (∃ p, xv_pool y = Some p ∧ private_inv p [] ∧ xv_pmem y = mem.1 + (if v is V1 then PAGE_SIZE else 0) ∧ pl_start p = xv_pmem y ∧
    pl_start p + pl_size p = mem.2 + 1 ∧ (v = V1 → xv_comm_phys y + PAGE_SIZE = pl_start p)) as (p & Ep & Hi & E1 & E2 & E3 & E4).
  { destruct v; [| | done]; cbn in Ey, Em.
    - unfold xrp_init_regs_v0 in Ey. rewrite Em in Ey. destruct (ie_mem e 1) as [m1 |]; [| done].
      destruct (init_pool_region _ _ _ Ey) as (Ep & Ec & p & Eq & Hi & Es1 & Es2); cbn in *; rewrite ?Es; try lia.
      exists p. split_and!; [done | done | lia | lia | lia | done].
    - unfold xrp_init_regs_v1 in Ey. rewrite Em in Ey. destruct (Z.ltb_spec (resource_size mem) (2 * PAGE_SIZE)) as [| Hbig]; [done |].
      rewrite Es in *. unfold PAGE_SIZE in *. rewrite !(phys_small (mem.1 + 4096)), (phys_small (_ - 4096)) in Ey by lia.
      destruct (init_pool_region _ _ _ Ey) as (Ep & Ec & p & Eq & Hi & Es1 & Es2); cbn in *; try lia.
      exists p. split_and!; [done | done | lia | lia | lia | lia]. }
  exists p. rewrite Hp, Hc, Hq. split_and!; [done | done | done | done | done | | |].
  - apply init_finv; [split; [exact Hi | apply map_Forall_empty..] | done | exact E2].
  - rewrite E1. destruct v; unfold PAGE_SIZE in *; lia.
  - rewrite E1. destruct v; [by rewrite Z.add_0_r | | done]. rewrite Z.add_mod, G2 by done. done.
Qed.

(** On a system without device trees the address map of a probed device
    lets the DSP reach exactly the memory of the device, at the addresses the
    host uses; every other address has no translation. *)
Theorem acpi_map_confined e dt x mem addr :
  env_valid V1 e → of_ranges dt = None → ie_map e = xrp_init_address_map true dt →
  ie_mem e 0 = Some mem → good_mem mem → mem.2 < 2 ^ 32 - 1 →
  xrp_probe_acpi c true e = Some (0, x) → 0 ≤ addr < 2 ^ phys_bits →
  xrp_translate_to_dsp (xv_map x) addr = if (mem.1 <=? addr) && (addr <=? mem.2) then addr else XRP_NO_TRANSLATION.
Proof.
  intros Hv Hdt Emap Em Hg Hlt. unfold xrp_probe_acpi, xrp_init_v1. intros (r & Er & Ex)%bind_Some Haddr.
  assert (ie_map e = InitOk [mk_entry 0 0 (u32 (-1))]) as Ei by (rewrite Emap; unfold xrp_init_address_map; by rewrite Hdt).
  destruct r as [ret x1]. destruct (Z.eqb_spec ret 0) as [-> | Hne]; [| by injection Ex as -> _].
  destruct (init_common_memory xrp_init_regs_v1 e x1) as (r0 & y & m & Ey & Hr & Em' & Hmem); [apply Hv | done |].
  rewrite Ei in Em'. injection Em' as <-. pose proof (good_size mem Hg) as Es. destruct Hg as (G1 & G2 & G3 & G4 & G5).
  assert (xv_comm_phys y = mem.1 ∧ xv_shared_size y = mem.2 - mem.1 + 1 - PAGE_SIZE ∧ 0 < xv_shared_size y) as (E1 & E2 & E3).
  { unfold xrp_init_regs_v1 in Ey. rewrite Em in Ey. destruct (Z.ltb_spec (resource_size mem) (2 * PAGE_SIZE)); [injection Ey as <- _; done |].
    rewrite Es in *. unfold PAGE_SIZE in *. rewrite (phys_small (_ - 4096)) in Ey by lia.
    match type of Ey with init_pool e ?z = _ => destruct (init_pool_cases e z) as [F | [q F]] end; rewrite F in Ey; injection Ey as <- <-; cbn; lia. }
  injection Hmem as _ _ Hc Hs Hm _. cbn in Hc, Hs, Hm. rewrite Hm, Hc, Hs, E1, E2 in Ex.
  change (u32 (-1)) with (2 ^ 32 - 1) in *. pose proof phys_bits_ge.
  rewrite get_address_mapping_ref in Ex; [| split; [constructor; [| constructor] | repeat constructor] | lia].
  2: { unfold entry_ok. cbn. lia. }
  cbn [find_entry] in Ex. assert (covers mem.1 (mk_entry 0 0 (2 ^ 32 - 1)) = true) as Hcov by (unfold covers; cbn; lia).
  rewrite Hcov in Ex. injection Ex as <-. cbn [with_map xv_map]. unfold update_entry. cbn [map].
  unfold PAGE_SIZE in *. rewrite (u32_small mem.1), (u32_small (_ - _)) by lia.
  replace (mem.2 - mem.1 + 1 - 4096 + 4096) with (mem.2 - mem.1 + 1) by lia. rewrite u32_small by lia.
  unfold xrp_translate_to_dsp. rewrite get_address_mapping_ref; [| split; [constructor; [| constructor] | repeat constructor] | done].
  2: { unfold entry_ok. cbn. lia. }
  cbn [find_entry]. unfold covers. cbn [src_addr e_size dst_addr].
  destruct (Z.leb_spec mem.1 addr), (Z.leb_spec addr mem.2), (Z.ltb_spec addr (mem.1 + (mem.2 - mem.1 + 1))); cbn [andb]; try lia; try done.
  rewrite u32_phys. cbn [src_addr dst_addr]. replace (mem.1 + addr - mem.1) with addr by lia. apply u32_small. lia.
Qed.
End probe_spec.

(** ** Concrete devices *)

Module ProbeExamples.
Import RefLib.
#[local] Existing Instance arch32.

Definition hw0 : hw_cfg := mk_hw_cfg 0 true true true true true.
Lemma hw0_full : full_hw hw0.
Proof. done. Qed.

Definition boot_ok (p : Z) : boot_env := mk_boot_env 0 (FwOk p) 0.
Definition boot_dead (p : Z) : boot_env := mk_boot_env 0 (FwOk p) (- ENODEV).

(** Resumed, restarted twice - the second handshake fails - and suspended. *)
Definition x0 : xvp := with_name xvp_zero true.
Definition x1 := (xrp_runtime_resume hw0 (boot_ok 1) x0).2.
Definition x2 := (xrp_boot_firmware hw0 (boot_dead 2) x1).2.
Definition x3 := (xrp_runtime_suspend hw0 x2).2.

Lemma pm_run3 : pm_run hw0 0 (x0, Suspended) (x3, Suspended).
Proof.
  apply (pm_more hw0 0 _ (x2, Active)); [| by apply (pm_suspend hw0 x2 0)].
  apply (pm_more hw0 0 _ (x1, Active)); [| by apply (pm_reboot hw0 (boot_dead 2) x1 (- ENODEV))].
  apply (pm_more hw0 0 _ (x0, Suspended)); [apply pm_none | by apply (pm_resume hw0 (boot_ok 1) x0 0)].
Qed.

(** The device is off by now: resuming and suspending it once more. *)
Definition x4 := (xrp_runtime_resume hw0 (boot_ok 3) x3).2.
Definition x5 := (xrp_runtime_suspend hw0 x4).2.
Lemma pm_run5 : pm_run hw0 1 (x0, Suspended) (x5, Suspended).
Proof.
  apply (pm_more hw0 1 _ (x4, Active)); [| by apply (pm_suspend hw0 x4 0)].
  apply (pm_more hw0 0 _ (x3, Suspended)); [exact pm_run3 | by apply (pm_resume hw0 (boot_ok 3) x3 0)].
Qed.

Lemma power_management_safe_witness :
  (trace_ok core_off (xv_trace x3) = true ∧ core_of x3 = core_off) ∧
  ∃ l k, xv_trace x5 = l ++ mjoin (replicate k [EvHalt; EvDisable]) ∧ (k ≤ 1)%nat ∧ trace_ok core_off l = true ∧ core_run core_off l = core_off.
Proof.
  split.
  - destruct (proj1 (power_management_safe hw0 0 x0 x3 Suspended hw0_full eq_refl pm_run3) eq_refl) as (Ht & Hc & _). split; auto.
  - apply (power_management_safe hw0 1 x0 x5 Suspended hw0_full eq_refl pm_run5). done.
Defined.

Example trace3 :
  xv_trace x3 = [EvEnable; EvHalt; EvReset; EvLoad; EvIdle; EvRelease; EvSync;
                 EvHalt; EvReset; EvLoad; EvIdle; EvRelease; EvSync; EvHalt; EvHalt; EvDisable] ∧
  xv_off x3 = true.
Proof. done. Qed.

(** A device that is off reports a successful resume without switching power
    on: the next suspend switches it off a second time. *)
Example off_device_disabled_twice :
  (xrp_runtime_resume hw0 (boot_ok 3) x3).1 = 0 ∧ trace_ok core_off (xv_trace x5) = false ∧ co_power (core_of x5) = -1.
Proof. done. Qed.

(** Each boot requests the image anew; only the last one is ever released. *)
Example reboot_keeps_old_image : xv_held x2 = [RFirmware 2; RFirmware 1] ∧ xv_firmware x2 = 2.
Proof. done. Qed.

(** An image that could not be loaded is released at once and a second time
    when the device is removed. *)
Example bad_image_released_twice :
  let x := (xrp_runtime_resume hw0 (mk_boot_env 0 (FwBad 7 EINVAL) 0) x0).2 in
  xv_held x = [] ∧ xv_bad (release_firmware (xv_firmware x) x) = [RFirmware 7].
Proof. done. Qed.

(** Removing a device other than the last gives its successor the number of
    a node that is still there. *)
Example node_number_taken : (name_node (forget_node 0 (name_node (name_node (0, []))))).2 = [1; 1].
Proof. done. Qed.

(** A device at 0x20000000 with 64 KiB. *)
Definition env0 : init_env := {|
  ie_mem := λ n, Some (0x20000000, 0x2000ffff); ie_ioremap := λ s _, s; ie_pool := true; ie_pool_kz := Some 1;
  ie_reserved := 0; ie_dma := Some (0x5000, 0x30000000); ie_map := InitOk [mk_entry 0 0 (u32 (-1))]; ie_name := 0;
  ie_pm := false; ie_boot := boot_ok 9; ie_misc := 0 |}.
Definition fail_misc (e : init_env) : init_env :=
  mk_init_env (ie_mem e) (ie_ioremap e) (ie_pool e) (ie_pool_kz e) (ie_reserved e) (ie_dma e) (ie_map e) (ie_name e)
    (ie_pm e) (ie_boot e) (- ENOMEM).
Lemma env0_valid v : env_valid v env0.
Proof. split_and!; [destruct v; [by intros ? [= <-] | by intros ? [= <-] | by intros ? ? [= <- <-]] | done | done]. Qed.
Definition dev (v : variant) (e : init_env) : Z * xvp := default (-1, xvp_zero) (xrp_init_common hw0 (regs_of v) e xvp_zero).

Lemma init_unwinds_witness :
  xrp_init_common hw0 (regs_of CMA) env0 xvp_zero = Some (0, (dev CMA env0).2) ∧
  xv_bad (dev CMA env0).2 = [] ∧
  xv_held (xrp_deinit hw0 false (dev CMA env0).2).2 ≡ₚ [RReserved].
Proof.
  destruct (init_unwinds hw0 CMA env0 0 (dev CMA env0).2 (env0_valid CMA)) as (Hb & _ & Hd); [by vm_compute |].
  split_and!; [by vm_compute | exact Hb | exact (proj2 (Hd eq_refl false))].
Defined.

Lemma init_memory_witness :
  ∃ p, xv_pool (dev V1 env0).2 = Some p ∧ xv_pmem (dev V1 env0).2 = 0x20000000 + PAGE_SIZE ∧ pl_start p = xv_pmem (dev V1 env0).2 ∧
    pl_start p + pl_size p = 0x2000ffff + 1 ∧ (V1 = V1 → xv_comm_phys (dev V1 env0).2 + PAGE_SIZE = pl_start p) ∧
    finv (xv_pmem (dev V1 env0).2) (probed (mk_alloc_state p ∅)) ∧ 0 ≤ xv_pmem (dev V1 env0).2 ∧
    xv_pmem (dev V1 env0).2 mod PAGE_SIZE = 0.
Proof.
  apply (init_memory hw0 V1 env0 (dev V1 env0).2 (0x20000000, 0x2000ffff) (env0_valid V1)); [done | done | | by vm_compute].
  unfold good_mem. by vm_compute.
Defined.

Definition dt0 : of_input := {| of_ranges := None; of_has_child := false; of_na := 1; of_pna := 1; of_ns := 1;
  of_translate_address := λ _, 0; of_read_number := λ _ _, 0 |}.
Definition acpi0 : xvp := (default (-1, xvp_zero) (xrp_probe_acpi hw0 true env0)).2.
Lemma acpi_map_confined_witness :
  xrp_translate_to_dsp (xv_map acpi0) 0x20000010 = 0x20000010 ∧ xrp_translate_to_dsp (xv_map acpi0) 0x20010000 = XRP_NO_TRANSLATION.
Proof.
  assert (good_mem (0x20000000, 0x2000ffff)) as Hg by (unfold good_mem; by vm_compute).
  assert (xrp_probe_acpi hw0 true env0 = Some (0, acpi0)) as Hp by (by vm_compute).
  assert (∀ a, 0 ≤ a < 2 ^ phys_bits → xrp_translate_to_dsp (xv_map acpi0) a =
            if (0x20000000 <=? a) && (a <=? 0x2000ffff) then a else XRP_NO_TRANSLATION) as Ht.
  { intros a. apply (acpi_map_confined hw0 env0 dt0 acpi0 (0x20000000, 0x2000ffff) a (env0_valid V1) eq_refl eq_refl eq_refl Hg
      ltac:(by vm_compute) Hp). }
  split; (rewrite Ht; [by vm_compute | by vm_compute]).
Defined.

(** The second variant maps a page and one byte for commands: the byte
    belongs to the pool. *)
Example comm_mapping_one_byte_too_long :
  xv_comm (dev V1 (mk_init_env (ie_mem env0) (λ s e, e - s + 1) true (Some 1) 0 None (ie_map env0) 0 true (boot_ok 9) 0)).2 = PAGE_SIZE + 1.
Proof. done. Qed.

(** When the registration fails after the DSP was booted, it keeps running
    with its power on, and its image stays. *)
Example failed_registration_leaves_dsp_running :
  let r := dev V1 (fail_misc env0) in
  r.1 = - ENOMEM ∧ xv_held r.2 = [RFirmware 9] ∧ core_of r.2 = mk_core 1 false.
Proof. done. Qed.

(** When the object of a CMA pool cannot be allocated, the page for commands
    stays allocated. *)
Example cma_pool_failure_keeps_page :
  let r := dev CMA (mk_init_env (ie_mem env0) (ie_ioremap env0) false None 0 (ie_dma env0) (ie_map env0) 0 true (boot_ok 9) 0) in
  r.1 = - ENOMEM ∧ xv_held r.2 = [RComm; RReserved].
Proof. done. Qed.

(** A page for commands at physical address zero is not recognised as DMA
    memory and stays allocated; memory of a device at address zero is taken
    for it, and DMA memory is released that was never allocated. *)
Example address_zero_confuses_variants :
  xv_held (xrp_deinit hw0 true (dev CMA (mk_init_env (ie_mem env0) (ie_ioremap env0) true None 0 (Some (0x5000, 0)) (ie_map env0) 0 true (boot_ok 9) 0)).2).2
    = [RComm; RReserved] ∧
  xv_bad (xrp_deinit hw0 true (dev V0 (mk_init_env (λ n, Some (if Nat.eqb n 1 then (0x1000, 0x1fff) else (0, 0xffff))) (ie_ioremap env0) true (Some 1) 0 None (ie_map env0) 0 true (boot_ok 9) 0)).2).2
    = [RComm].
Proof. done. Qed.

(** A probe that cannot confine the DSP fails without giving anything back:
    the device stays registered. *)
Example failed_acpi_probe_keeps_device :
  let r := default (0, xvp_zero) (xrp_probe_acpi hw0 true (mk_init_env (ie_mem env0) (ie_ioremap env0) true (Some 1) 0 None (InitOk [mk_entry 0 0 0x1000]) 0 true (boot_ok 9) 0)) in
  r.1 = - EINVAL ∧ xv_held r.2 = [RMisc; RPm; RMap; RPool].
Proof. by vm_compute. Qed.

(** A device the match table does not know. *)
Example unmatched_device_dereferences_null : xrp_probe_of hw0 true None env0 = None.
Proof. done. Qed.
End ProbeExamples.
