(* ===== verification/DspNs.v ===== *)
(** * Command namespaces of the DSP (xrp-dsp/xrp_dsp.c)

    The sorted, growable array [device->cmd_ns] that maps 16-byte namespace
    ids to command handlers: binary search, insertion, removal, and the
    registration calls.  The array keeps its unused tail, whose cells hold
    whatever was left there. *)

From stdpp Require Import base tactics list sorting gmap numbers.
From S2P Require Import Prelude.

Inductive xrp_status := XRP_STATUS_SUCCESS | XRP_STATUS_FAILURE | XRP_STATUS_PENDING.

#[export] Instance xrp_status_eq_dec : EqDecision xrp_status.
Proof. solve_decision. Defined.

Definition XRP_NAMESPACE_ID_SIZE : nat := 16.

(** [memcmp] of two byte strings of the same length: only the sign of a
    difference is meaningful. *)
Fixpoint memcmp (a b : list Z) : Z :=
  match a, b with
  | x :: a, y :: b => if x =? y then memcmp a b else x - y
  | _, _ => 0
  end.

Section cmd_ns.
Context {Hd : Type}.

Record xrp_cmd_ns := mk_cmd_ns {
  ns_id : list Z;
  ns_handler : Hd;
  ns_context : Z;
}.

(** [cmd_ns] has [size_cmd_ns] cells, the first [n_cmd_ns] of them in use;
    it is the null pointer while [size_cmd_ns] is zero. *)
Record xrp_device := mk_device {
  d_count : Z;
  d_dsp_cmd : Z;
  n_cmd_ns : nat;
  cmd_ns : list xrp_cmd_ns;
}.
Definition size_cmd_ns (device : xrp_device) : nat := length (cmd_ns device).

Definition with_ns (device : xrp_device) (n : nat) (l : list xrp_cmd_ns) : xrp_device :=
  mk_device (d_count device) (d_dsp_cmd device) n l.

Definition compare_cmd_ns (nsid : list Z) (c : xrp_cmd_ns) : Z := memcmp nsid (ns_id c).

(** Comparison with cell [i]; [0] when the cell does not exist, which the
    search never reads. *)
Definition compare_at (device : xrp_device) (id : list Z) (i : nat) : Z :=
  match cmd_ns device !! i with Some c => compare_cmd_ns id c | None => 0 end.

(** A pointer into the array is the index of its cell.  Reading a cell past
    the end of the allocated array is [None]. *)
Definition cmd_ns_match (device : xrp_device) (nsid : list Z) (i : nat) : option bool :=
  match cmd_ns device with
  | [] => Some false
  | l => c ← l !! i; Some (compare_cmd_ns nsid c =? 0)
  end.

(** [while (b - a > 1)]. *)
Fixpoint find_loop (fuel : nat) (device : xrp_device) (id : list Z) (a b : nat) : nat * nat :=
  match fuel with
  | O => (a, b)
  | S fuel =>
      if (1 <? b - a)%nat then
        let c := ((a + b) / 2)%nat in
        if compare_at device id c <? 0 then find_loop fuel device id a c
        else find_loop fuel device id c b
      else (a, b)
  end.

Definition find_cmd_ns (device : xrp_device) (id : list Z) : nat :=
  let '(a, b) := find_loop (n_cmd_ns device) device id 0 (n_cmd_ns device) in
  if (a <? b)%nat && (0 <? compare_at device id a) then S a else a.

Definition cmd_ns_present (device : xrp_device) (i : nat) : bool := (i <? n_cmd_ns device)%nat.

(** [memmove] of [len] cells from [src] to [dst]. *)
Definition memmove (dst src len : nat) (l : list xrp_cmd_ns) : list xrp_cmd_ns :=
  take dst l ++ take len (drop src l) ++ drop (dst + len) l.

(** [fresh] is the outcome of [realloc]: [None] when it fails, otherwise the
    contents of the cells it adds. *)
Definition insert_cmd_ns (fresh : nat → option (list xrp_cmd_ns)) (device : xrp_device) (i : nat)
  : option xrp_device :=
  let n := n_cmd_ns device in
  l ← (if (n =? size_cmd_ns device)%nat then
         let new_size := ((size_cmd_ns device + 1) * 2)%nat in
         new ← fresh (new_size - size_cmd_ns device)%nat; Some (cmd_ns device ++ new)
       else Some (cmd_ns device));
  Some (with_ns device (S n) (memmove (S i) i (n - i) l)).

Definition remove_cmd_ns (device : xrp_device) (i : nat) : xrp_device :=
  let n := n_cmd_ns device in
  with_ns device (n - 1) (memmove i (S i) (n - i - 1) (cmd_ns device)).

(** The registered test of both calls: the cell is in use and matches. *)
Definition ns_registered (device : xrp_device) (nsid : list Z) (i : nat) : bool :=
  cmd_ns_present device i && default false (cmd_ns_match device nsid i).

Definition xrp_device_register_namespace (fresh : nat → option (list xrp_cmd_ns))
    (device : xrp_device) (nsid : list Z) (handler : Hd) (handler_context : Z)
  : xrp_device * xrp_status :=
  let i := find_cmd_ns device nsid in
  if ns_registered device nsid i then (device, XRP_STATUS_FAILURE)
  else
    match insert_cmd_ns fresh device i with
    | Some device =>
        (with_ns device (n_cmd_ns device)
           (<[i := mk_cmd_ns nsid handler handler_context]> (cmd_ns device)),
         XRP_STATUS_SUCCESS)
    | None => (device, XRP_STATUS_FAILURE)
    end.

Definition xrp_device_unregister_namespace (device : xrp_device) (nsid : list Z)
  : xrp_device * xrp_status :=
  let i := find_cmd_ns device nsid in
  if ns_registered device nsid i then (remove_cmd_ns device i, XRP_STATUS_SUCCESS)
  else (device, XRP_STATUS_FAILURE).

(** The handler lookup [process_command] makes for a command with a
    namespace id: [None] when it reads past the array, [Some None] when the
    command cannot be delivered. *)
Definition lookup_handler (device : xrp_device) (nsid : list Z) : option (option (Hd * Z)) :=
  let i := find_cmd_ns device nsid in
  match cmd_ns_match device nsid i with
  | None => None
  | Some true => (λ c, Some (ns_handler c, ns_context c)) <$> cmd_ns device !! i
  | Some false => Some None
  end.

(** ** Specification: a finite map from ids to handlers *)

Definition live (device : xrp_device) : list xrp_cmd_ns := take (n_cmd_ns device) (cmd_ns device).

Definition ns_map (device : xrp_device) : gmap (list Z) (Hd * Z) :=
  list_to_map ((λ c, (ns_id c, (ns_handler c, ns_context c))) <$> live device).

Definition ns_lt (a b : xrp_cmd_ns) : Prop := memcmp (ns_id a) (ns_id b) < 0.
Definition id_ok (id : list Z) : Prop := length id = XRP_NAMESPACE_ID_SIZE.

Record ns_inv (device : xrp_device) : Prop := {
  ns_bound : (n_cmd_ns device ≤ size_cmd_ns device)%nat;
  ns_sorted : StronglySorted ns_lt (live device);
  ns_ids : Forall (λ c, id_ok (ns_id c)) (live device);
}.
End cmd_ns.
Arguments xrp_cmd_ns Hd : clear implicits.
Arguments xrp_device Hd : clear implicits.

(** ** [memcmp] is a total order on ids *)

Lemma memcmp_opp a b : memcmp b a = - memcmp a b.
Proof.
  revert b. induction a as [| x a IH]; intros [| y b]; simpl; try done.
  rewrite (Z.eqb_sym y x). destruct (x =? y); [apply IH | lia].
Qed.

Lemma memcmp_refl a : memcmp a a = 0.
Proof. induction a; simpl; [done |]. by rewrite Z.eqb_refl. Qed.

Lemma memcmp_eq a b : length a = length b → memcmp a b = 0 → a = b.
Proof.
  revert b. induction a as [| x a IH]; intros [| y b] Hl; simpl in *; try done.
  destruct (Z.eqb_spec x y) as [-> |]; [| lia]. intros. f_equal. apply IH; lia.
Qed.

Lemma memcmp_trans a b c :
  length a = length b → length b = length c →
  memcmp a b < 0 → memcmp b c ≤ 0 → memcmp a c < 0.
Proof.
  revert b c. induction a as [| x a IH]; intros [| y b] [| z c] ??; simpl in *; try done.
  destruct (Z.eqb_spec x y), (Z.eqb_spec y z), (Z.eqb_spec x z); try lia.
  intros. apply (IH b); auto with lia.
Qed.

(** ** The binary search *)

Section proofs.
Context {Hd : Type}.
Implicit Types device : xrp_device Hd.

Lemma lookup_live device i : (i < n_cmd_ns device)%nat → live device !! i = cmd_ns device !! i.
Proof. intros. unfold live. by rewrite lookup_take_lt. Qed.

Lemma length_live device : ns_inv device → length (live device) = n_cmd_ns device.
Proof. intros [Hb _ _]. unfold live, size_cmd_ns in *. rewrite length_take. lia. Qed.

Lemma sorted_lookup (l : list (xrp_cmd_ns Hd)) i j a b :
  StronglySorted ns_lt l → l !! i = Some a → l !! j = Some b → (i < j)%nat → ns_lt a b.
Proof.
  intros Hs. revert i j. induction Hs as [| x l Hs IH Hall]; intros i j Ha Hb Hij; [done |].
  destruct j as [| j]; [lia |]. simpl in Hb. destruct i as [| i]; simplify_eq/=.
  - rewrite list.Forall_forall in Hall. eapply Hall, list_elem_of_lookup_2, Hb.
  - eapply IH; eauto. lia.
Qed.

Lemma live_id device i c : ns_inv device → live device !! i = Some c → id_ok (ns_id c).
Proof. intros [_ _ Hi] Hc. by apply (Forall_lookup_1 _ _ _ _ Hi Hc). Qed.

(** Cells below one that is not above [id] are below [id]; cells above one
    that is above [id] are above it. *)
Lemma compare_below device id j k c d :
  ns_inv device → id_ok id → live device !! j = Some c → live device !! k = Some d → (j < k)%nat →
  0 ≤ memcmp id (ns_id d) → memcmp (ns_id c) id < 0.
Proof.
  intros Hinv Hid Hc Hd' Hjk Hle. pose proof (live_id _ _ _ Hinv Hc). pose proof (live_id _ _ _ Hinv Hd').
  pose proof (sorted_lookup _ _ _ _ _ (ns_sorted _ Hinv) Hc Hd' Hjk).
  apply (memcmp_trans _ (ns_id d)); [congruence | congruence | done |]. rewrite memcmp_opp. lia.
Qed.

Lemma compare_above device id j k c d :
  ns_inv device → id_ok id → live device !! j = Some c → live device !! k = Some d → (j ≤ k)%nat →
  memcmp id (ns_id c) < 0 → 0 < memcmp (ns_id d) id.
Proof.
  intros Hinv Hid Hc Hd' Hjk Hlt. pose proof (live_id _ _ _ Hinv Hc). pose proof (live_id _ _ _ Hinv Hd').
  rewrite memcmp_opp. destruct (decide (j = k)) as [-> |]; [rewrite Hc in Hd'; simplify_eq; lia |].
  pose proof (sorted_lookup _ _ _ _ _ (ns_sorted _ Hinv) Hc Hd' ltac:(lia)) as Hs.
  assert (memcmp id (ns_id d) < 0); [| lia].
  apply (memcmp_trans _ (ns_id c)); [congruence | congruence | done |]. unfold ns_lt in Hs. lia.
Qed.

(** Loop invariant: cell [a] is not above the id, cell [b] is above it. *)
Definition bracket device id (a b : nat) : Prop :=
  (a ≤ b ≤ n_cmd_ns device)%nat ∧ (0 < n_cmd_ns device → a < b)%nat ∧
  (a = 0%nat ∨ 0 ≤ compare_at device id a) ∧ (b = n_cmd_ns device ∨ compare_at device id b < 0).

Lemma find_loop_bracket fuel device id a b :
  bracket device id a b → (b - a ≤ fuel)%nat →
  let '(a', b') := find_loop fuel device id a b in bracket device id a' b' ∧ (b' - a' ≤ 1)%nat.
Proof.
  revert a b. induction fuel as [| fuel IH]; intros a b Hb Hf; cbn [find_loop]; [split; [done | lia] |].
  destruct (Nat.ltb_spec 1 (b - a)); [| split; [done | lia]].
  destruct Hb as (? & ? & ? & ?). set (c := ((a + b) / 2)%nat).
  assert (a < c < b)%nat.
  { subst c. pose proof (Nat.div_mod (a + b) 2 ltac:(lia)).
    pose proof (Nat.mod_upper_bound (a + b) 2 ltac:(lia)). lia. }
  destruct (Z.ltb_spec (compare_at device id c) 0); apply IH; try lia.
  all: split_and!; try lia; auto.
Qed.

Lemma compare_at_live device id j :
  ns_inv device → (j < n_cmd_ns device)%nat →
  ∃ c, live device !! j = Some c ∧ compare_at device id j = memcmp id (ns_id c).
Proof.
  intros Hinv Hj. destruct (lookup_lt_is_Some_2 (live device) j) as [c Hc];
    [by rewrite length_live | exists c; split; [done |]].
  unfold compare_at. by rewrite <- lookup_live, Hc.
Qed.

(** The search splits the array in use at the id. *)
Lemma find_split device id :
  ns_inv device → id_ok id →
  ∃ l1 l2, live device = l1 ++ l2 ∧ find_cmd_ns device id = length l1 ∧
    Forall (λ c, memcmp (ns_id c) id < 0) l1 ∧ Forall (λ c, 0 ≤ memcmp (ns_id c) id) l2.
Proof.
  intros Hinv Hid. unfold find_cmd_ns.
  pose proof (find_loop_bracket (n_cmd_ns device) device id 0 (n_cmd_ns device)) as Hl.
  destruct (find_loop _ _ _ _ _) as [a b]. destruct Hl as [(Hab & Hne & Ha & Hb) Hd1];
    [split_and!; auto; lia | lia |].
  set (i := if (a <? b)%nat && _ then S a else a). exists (take i (live device)), (drop i (live device)).
  assert (i ≤ n_cmd_ns device)%nat as Hi.
  { subst i. destruct (Nat.ltb_spec a b); simpl; [| lia]. destruct (0 <? _); lia. }
  pose proof (λ j, compare_at_live device id j Hinv) as Hcmp.
  split_and!; [by rewrite take_drop | rewrite length_take, length_live by done; lia | |].
  - apply Forall_lookup. intros j c [Hc Hj]%lookup_take_Some.
    subst i. destruct (Nat.ltb_spec a b); simpl in Hj; [| lia].
    destruct (Hcmp a ltac:(lia)) as (d & Hd' & Ed). destruct (Z.ltb_spec 0 (compare_at device id a)).
    + destruct (decide (j = a)) as [-> |]; [simplify_eq; rewrite memcmp_opp; lia |].
      apply (compare_below device id j a c d); [done | done | done | done | lia | lia].
    + apply (compare_below device id j a c d); [done | done | done | done | lia |]. lia.
  - apply Forall_lookup. intros j c Hc. rewrite lookup_drop in Hc.
    pose proof (lookup_lt_Some _ _ _ Hc) as Hlt. rewrite length_live in Hlt by done.
    assert (a < b)%nat as Hlt' by lia. subst i. rewrite (proj2 (Nat.ltb_lt a b)) in Hc, Hlt by done. simpl in *.
    destruct (Hcmp a ltac:(lia)) as (d & Hd' & Ed). destruct (Z.ltb_spec 0 (compare_at device id a)).
    + destruct Hb as [-> | Hb]; [lia |]. destruct (Hcmp b ltac:(lia)) as (e & He & Ee).
      assert (0 < memcmp (ns_id c) id); [| lia].
      apply (compare_above device id b (S a + j) e c); [done | done | done | done | lia | lia].
    + destruct (decide (j = 0%nat)) as [-> |].
      * rewrite Nat.add_0_r in Hc. simplify_eq. rewrite memcmp_opp. lia.
      * pose proof (sorted_lookup _ _ _ _ _ (ns_sorted _ Hinv) Hd' Hc ltac:(lia)) as Hs.
        unfold ns_lt in Hs. assert (memcmp id (ns_id c) < 0); [| rewrite memcmp_opp; lia].
        pose proof (live_id _ _ _ Hinv Hd'). pose proof (live_id _ _ _ Hinv Hc).
        destruct (decide (memcmp id (ns_id d) = 0)) as [E0 |].
        { apply memcmp_eq in E0; [by subst | congruence]. }
        apply (memcmp_trans _ (ns_id d)); [congruence | congruence | lia | lia].
Qed.

(** ** Refinement of the finite map *)

Lemma live_cells device : ns_inv device →
  cmd_ns device = live device ++ drop (n_cmd_ns device) (cmd_ns device).
Proof. intros _. unfold live. by rewrite take_drop. Qed.

Definition entry (c : xrp_cmd_ns Hd) : list Z * (Hd * Z) := (ns_id c, (ns_handler c, ns_context c)).

Lemma ns_map_entry device : ns_map device = list_to_map (entry <$> live device).
Proof. done. Qed.

Lemma sorted_ids_NoDup (l : list (xrp_cmd_ns Hd)) : StronglySorted ns_lt l → NoDup (entry <$> l).*1.
Proof.
  intros Hs. rewrite <- list_fmap_compose.
  induction Hs as [| c l Hs IH Hall]; [constructor |]. cbn. apply list.NoDup_cons. split; [| done].
  intros (d & E & Hd')%list_elem_of_fmap. rewrite list.Forall_forall in Hall.
  pose proof (Hall d Hd') as Hlt. unfold ns_lt in Hlt. unfold compose, entry in E. simpl in E.
  rewrite E, memcmp_refl in Hlt. lia.
Qed.

Lemma ns_map_elem device c :
  ns_inv device → c ∈ live device → ns_map device !! ns_id c = Some (ns_handler c, ns_context c).
Proof.
  intros Hinv Hc. rewrite ns_map_entry. apply elem_of_list_to_map_1.
  - apply sorted_ids_NoDup, Hinv.
  - apply list_elem_of_fmap. by exists c.
Qed.

Lemma ns_map_none device id :
  (∀ c, c ∈ live device → ns_id c ≠ id) → ns_map device !! id = None.
Proof.
  intros Hne. rewrite ns_map_entry. apply not_elem_of_list_to_map_1.
  rewrite <- list_fmap_compose. intros (c & -> & Hc)%list_elem_of_fmap. by eapply Hne.
Qed.

(** Two cases of a search: the id is registered, at the index found, or it
    is not and the index is where it belongs. *)
Inductive find_case device id : Prop :=
| find_registered l1 c l2 :
    live device = l1 ++ c :: l2 → find_cmd_ns device id = length l1 → ns_id c = id →
    ns_registered device id (length l1) = true →
    ns_map device !! id = Some (ns_handler c, ns_context c) → find_case device id
| find_absent l1 l2 :
    live device = l1 ++ l2 → find_cmd_ns device id = length l1 →
    Forall (λ c, memcmp (ns_id c) id < 0) l1 → Forall (λ c, 0 < memcmp (ns_id c) id) l2 →
    ns_registered device id (length l1) = false →
    ns_map device !! id = None → find_case device id.

Lemma cmd_ns_match_live device id l1 c l2 :
  ns_inv device → live device = l1 ++ c :: l2 →
  cmd_ns device !! length l1 = Some c ∧
  cmd_ns_match device id (length l1) = Some (memcmp id (ns_id c) =? 0) ∧
  cmd_ns_present device (length l1) = true.
Proof.
  intros Hinv El. assert (cmd_ns device !! length l1 = Some c) as E.
  { rewrite live_cells, El, <- app_assoc by done. by apply list_lookup_middle. }
  split; [done |]. split.
  - unfold cmd_ns_match. destruct (cmd_ns device); [done |]. by rewrite E.
  - apply Nat.ltb_lt. rewrite <- length_live, El, length_app by done. simpl. lia.
Qed.

Lemma find_cases device id : ns_inv device → id_ok id → find_case device id.
Proof.
  intros Hinv Hid. destruct (find_split device id Hinv Hid) as (l1 & l2 & El & Ef & H1' & H2').
  assert (∀ c, c ∈ live device → id_ok (ns_id c)) as Hids.
  { intros c Hc. pose proof (ns_ids _ Hinv) as Hi. rewrite list.Forall_forall in Hi. by apply Hi. }
  assert (∀ c, c ∈ l1 → ns_id c ≠ id) as Hne1.
  { intros c Hc E. rewrite list.Forall_forall in H1'. specialize (H1' c Hc). simpl in H1'. rewrite E, memcmp_refl in H1'. lia. }
  destruct l2 as [| c l2].
  { apply find_absent with l1 []; auto.
    - unfold ns_registered, cmd_ns_present. rewrite app_nil_r in El.
      rewrite <- length_live, El, Nat.ltb_irrefl by done. done.
    - apply ns_map_none. rewrite El, app_nil_r. done. }
  destruct (cmd_ns_match_live device id l1 c l2 Hinv El) as (Ec & Em & Ep).
  assert (c ∈ live device) as Hc by (rewrite El; set_solver).
  destruct (Z.eqb_spec (memcmp id (ns_id c)) 0) as [E0 | E0].
  - apply memcmp_eq in E0; [| rewrite Hid; symmetry; by apply Hids].
    subst id. apply find_registered with l1 c l2; auto using ns_map_elem.
    unfold ns_registered. by rewrite Ep, Em.
  - inv H2'. pose proof (ns_sorted _ Hinv) as Hs. rewrite El in Hs.
    apply StronglySorted_app in Hs as (_ & _ & Hs). apply StronglySorted_inv in Hs as [_ Hs].
    assert (0 < memcmp (ns_id c) id) as Hgt by (pose proof (memcmp_opp id (ns_id c)); lia).
    assert (Forall (λ d, 0 < memcmp (ns_id d) id) (c :: l2)) as Hall.
    { constructor; [done |]. rewrite list.Forall_forall in *. intros d Hd'.
      specialize (Hs d Hd'). unfold ns_lt in Hs. assert (d ∈ live device) by (rewrite El; set_solver).
      rewrite memcmp_opp. assert (memcmp id (ns_id d) < 0); [| lia].
      apply (memcmp_trans _ (ns_id c)); [by rewrite Hids | by rewrite !Hids | pose proof (memcmp_opp id (ns_id c)); lia | lia]. }
    apply find_absent with l1 (c :: l2); auto; [by unfold ns_registered; rewrite Ep, Em |].
    apply ns_map_none. rewrite El. intros d [Hd' | Hd']%elem_of_app; [by apply Hne1 |].
    rewrite list.Forall_forall in Hall. intros E. specialize (Hall d Hd'). simpl in Hall. rewrite E, memcmp_refl in Hall. lia.
Qed.

Lemma memmove_up (l1 l2 rest : list (xrp_cmd_ns Hd)) r :
  ∃ x, memmove (S (length l1)) (length l1) (length l2) (l1 ++ l2 ++ r :: rest) = l1 ++ x :: l2 ++ rest.
Proof.
  unfold memmove. rewrite drop_app_length, take_app_length.
  assert (∃ x t, l2 ++ r :: rest = x :: t) as (x & t & E) by (destruct l2; simpl; eauto).
  exists x. replace (S (length l1)) with (length l1 + 1)%nat at 1 by lia.
  rewrite take_app_add, E. simpl. rewrite take_0, <- app_assoc. simpl. do 2 f_equal.
  rewrite <- E. f_equal. replace (S (length l1 + length l2)) with (length l1 + (length l2 + 1))%nat by lia.
  rewrite drop_app_add, drop_app_add. done.
Qed.

Lemma memmove_down (l1 l2 rest : list (xrp_cmd_ns Hd)) c :
  memmove (length l1) (S (length l1)) (length l2) (l1 ++ c :: l2 ++ rest) =
  l1 ++ l2 ++ drop (length l2) (c :: l2 ++ rest).
Proof.
  unfold memmove. rewrite take_app_length. f_equal.
  replace (S (length l1)) with (length l1 + 1)%nat by lia. rewrite !drop_app_add.
  change (drop 1 (c :: l2 ++ rest)) with (l2 ++ rest). by rewrite take_app_length.
Qed.

(** What [realloc] promises: as many cells as it was asked for. *)
Definition fresh_ok (fresh : nat → option (list (xrp_cmd_ns Hd))) : Prop :=
  ∀ k l, fresh k = Some l → length l = k.

Lemma insert_cmd_ns_live fresh device l1 l2 :
  fresh_ok fresh → ns_inv device → live device = l1 ++ l2 →
  match insert_cmd_ns fresh device (length l1) with
  | Some d => ∃ x rest, cmd_ns d = l1 ++ x :: l2 ++ rest ∧ n_cmd_ns d = S (n_cmd_ns device)
  | None => n_cmd_ns device = size_cmd_ns device ∧ fresh (size_cmd_ns device + 2)%nat = None
  end.
Proof.
  intros Hf Hinv El. pose proof (live_cells _ Hinv) as Ec. rewrite El, <- app_assoc in Ec.
  pose proof (length_live _ Hinv) as Hn. rewrite El, length_app in Hn.
  assert (∀ C, (∃ r rest, C = l1 ++ l2 ++ r :: rest) → ∃ x rest,
            memmove (S (length l1)) (length l1) (n_cmd_ns device - length l1) C = l1 ++ x :: l2 ++ rest) as Hm.
  { intros C (r & rest & ->). replace (n_cmd_ns device - length l1)%nat with (length l2) by lia.
    destruct (memmove_up l1 l2 rest r) as [x E]. eauto. }
  unfold insert_cmd_ns. set (tl := drop _ _) in *.
  destruct (Nat.eqb_spec (n_cmd_ns device) (size_cmd_ns device)) as [Hfull |].
  - assert (tl = []) as Et by (subst tl; apply drop_ge; unfold size_cmd_ns in *; lia).
    replace ((size_cmd_ns device + 1) * 2 - size_cmd_ns device)%nat with (size_cmd_ns device + 2)%nat by lia.
    destruct (fresh _) as [new |] eqn:En; simpl; [| done].
    apply Hf in En. destruct new as [| r new]; [simpl in En; lia |].
    destruct (Hm (cmd_ns device ++ r :: new)) as (x & rest & E); [| eauto].
    exists r, new. rewrite Ec, Et, app_nil_r, <- app_assoc. done.
  - simpl. destruct (Hm (cmd_ns device)) as (x & rest & E); [| eauto].
    destruct tl as [| r tl'] eqn:Et; [| eauto].
    pose proof (ns_bound _ Hinv). subst tl. apply (f_equal length) in Et.
    rewrite length_drop in Et. unfold size_cmd_ns in *. simpl in Et. lia.
Qed.

(** Registered entries after an insertion in the middle of a sorted array. *)
Lemma ns_inv_insert device device' l1 l2 c :
  ns_inv device → live device = l1 ++ l2 → live device' = l1 ++ c :: l2 →
  (n_cmd_ns device' ≤ size_cmd_ns device')%nat → id_ok (ns_id c) →
  Forall (λ d, memcmp (ns_id d) (ns_id c) < 0) l1 → Forall (λ d, 0 < memcmp (ns_id d) (ns_id c)) l2 →
  ns_inv device' ∧ ns_map device' = <[ns_id c := (ns_handler c, ns_context c)]> (ns_map device).
Proof.
  intros [_ Hs Hi] El El' Hb Hid Hl Hr. split.
  - split; [done | |]; rewrite El', El in *.
    + apply StronglySorted_app in Hs as (Hx & Hs1 & Hs2). apply StronglySorted_app.
      rewrite list.Forall_forall in Hl, Hr. split_and!; [| done | constructor; [done |]].
      * intros a b Ha [-> | Hb']%elem_of_cons; [by apply Hl | by apply Hx].
      * apply list.Forall_forall. intros b Hb'. unfold ns_lt. rewrite memcmp_opp. specialize (Hr b Hb'). simpl in Hr. lia.
    + apply Forall_app in Hi as [Hi1 Hi2]. apply Forall_app. split; [done |]. by constructor.
  - rewrite !ns_map_entry, El, El', !fmap_app, !list_to_map_app. cbn.
    rewrite insert_union_r; [done |]. apply not_elem_of_list_to_map_1.
    rewrite <- list_fmap_compose. intros (d & E & Hd')%list_elem_of_fmap.
    rewrite list.Forall_forall in Hl. specialize (Hl d Hd'). simpl in Hl. unfold compose in E. simpl in E.
    rewrite <- E, memcmp_refl in Hl. lia.
Qed.

Lemma register_refines fresh device nsid h ctx :
  ns_inv device → id_ok nsid → fresh_ok fresh →
  let '(device', status) := xrp_device_register_namespace fresh device nsid h ctx in
  match ns_map device !! nsid with
  | Some _ => status = XRP_STATUS_FAILURE ∧ device' = device
  | None =>
      (status = XRP_STATUS_SUCCESS ∧ ns_inv device' ∧
       ns_map device' = <[nsid := (h, ctx)]> (ns_map device)) ∨
      (status = XRP_STATUS_FAILURE ∧ device' = device ∧
       n_cmd_ns device = size_cmd_ns device ∧ fresh (size_cmd_ns device + 2)%nat = None)
  end.
Proof.
  intros Hinv Hid Hf. unfold xrp_device_register_namespace.
  destruct (find_cases device nsid Hinv Hid)
    as [l1 c l2 El Ef Ei Er -> | l1 l2 El Ef Hl Hr Er ->]; rewrite Ef, Er; [done |].
  pose proof (insert_cmd_ns_live fresh device l1 l2 Hf Hinv El) as Hins.
  destruct (insert_cmd_ns _ _ _) as [d |]; [left | right; tauto].
  destruct Hins as (x & rest & Ec & En). split; [done |].
  set (c := mk_cmd_ns nsid h ctx). pose proof (length_live _ Hinv) as Hn. rewrite El, length_app in Hn.
  assert (<[length l1 := c]> (cmd_ns d) = l1 ++ c :: l2 ++ rest) as Ec'.
  { rewrite Ec, insert_app_r_alt, Nat.sub_diag by lia. done. }
  apply (ns_inv_insert device _ l1 l2 c); auto.
  - unfold live. simpl. rewrite Ec', En.
    replace (l1 ++ c :: l2 ++ rest) with ((l1 ++ c :: l2) ++ rest) by by rewrite <- app_assoc.
    apply take_app_length'. rewrite length_app. simpl. lia.
  - unfold size_cmd_ns. simpl. rewrite Ec', En, length_app. simpl. rewrite length_app. lia.
Qed.

(** C32: registering a namespace adds exactly one binding to the map of
    handlers; it fails without any effect when the id is taken, or when the
    array is full and cannot grow.  The array stays sorted and in bounds. *)
Theorem register_namespace_refines fresh device nsid h ctx :
  ns_inv device → id_ok nsid → fresh_ok fresh →
  let '(device', status) := xrp_device_register_namespace fresh device nsid h ctx in
  match ns_map device !! nsid with
  | Some _ => status = XRP_STATUS_FAILURE ∧ device' = device
  | None =>
      (status = XRP_STATUS_SUCCESS ∧ ns_inv device' ∧
       ns_map device' = <[nsid := (h, ctx)]> (ns_map device)) ∨
      (status = XRP_STATUS_FAILURE ∧ device' = device ∧
       n_cmd_ns device = size_cmd_ns device ∧ fresh (size_cmd_ns device + 2)%nat = None)
  end.
Proof. apply register_refines. Qed.

Lemma remove_cmd_ns_live device l1 c l2 :
  ns_inv device → live device = l1 ++ c :: l2 →
  ∃ rest, cmd_ns (remove_cmd_ns device (length l1)) = l1 ++ l2 ++ drop (length l2) (c :: l2 ++ rest) ∧
    live (remove_cmd_ns device (length l1)) = l1 ++ l2 ∧
    (n_cmd_ns (remove_cmd_ns device (length l1)) ≤ size_cmd_ns (remove_cmd_ns device (length l1)))%nat.
Proof.
  intros Hinv El. pose proof (live_cells _ Hinv) as Ec. rewrite El, <- app_assoc in Ec.
  pose proof (length_live _ Hinv) as Hn. rewrite El, length_app in Hn. simpl in *.
  exists (drop (n_cmd_ns device) (cmd_ns device)).
  assert (cmd_ns (remove_cmd_ns device (length l1)) =
          l1 ++ l2 ++ drop (length l2) (c :: l2 ++ drop (n_cmd_ns device) (cmd_ns device))) as E.
  { simpl. replace (n_cmd_ns device - length l1 - 1)%nat with (length l2) by lia.
    rewrite Ec at 1. apply memmove_down. }
  split_and!; [done | |].
  - unfold live. rewrite E. rewrite app_assoc. apply take_app_length'. rewrite length_app. simpl. lia.
  - unfold size_cmd_ns. rewrite E, !length_app. simpl. lia.
Qed.

(** Unregistering removes exactly the binding of the id from the map of
    handlers, and fails without effect when there is none. *)
Theorem unregister_namespace_refines device nsid :
  ns_inv device → id_ok nsid →
  let '(device', status) := xrp_device_unregister_namespace device nsid in
  ns_inv device' ∧ ns_map device' = delete nsid (ns_map device) ∧
  (status = XRP_STATUS_SUCCESS ↔ is_Some (ns_map device !! nsid)) ∧
  (status ≠ XRP_STATUS_SUCCESS → device' = device).
Proof.
  intros Hinv Hid. unfold xrp_device_unregister_namespace.
  destruct (find_cases device nsid Hinv Hid)
    as [l1 c l2 El Ef Ei Er Em | l1 l2 El Ef Hl Hr Er Em]; rewrite Ef, Er.
  - destruct (remove_cmd_ns_live device l1 c l2 Hinv El) as (rest & _ & El' & Hb).
    pose proof (sorted_ids_NoDup _ (ns_sorted _ Hinv)) as Hnd.
    destruct Hinv as [_ Hs Hi]. rewrite El in Hs, Hi, Hnd.
    split_and!; [split; [done | |]; rewrite El' | | split; [intros _; eauto | done] | done].
    + apply StronglySorted_app in Hs as (Hx & Hs1 & Hs2). apply StronglySorted_inv in Hs2 as [Hs2 _].
      apply StronglySorted_app. split_and!; [| done | done]. intros a b Ha Hb'. apply Hx; [done | set_solver].
    + apply Forall_app in Hi as [Hi1 Hi2]. inv Hi2. by apply Forall_app.
    + rewrite !ns_map_entry, El, El', !fmap_app, !list_to_map_app. cbn.
      rewrite fmap_app, fmap_app in Hnd. apply list.NoDup_app in Hnd as (_ & Hx & Hnd).
      cbn in Hnd. apply list.NoDup_cons in Hnd as [Hc _].
      rewrite delete_union, Ei, delete_insert_eq, !delete_id; [done | |];
        apply not_elem_of_list_to_map_1; [by rewrite <- Ei |].
      intros Hin. apply (Hx _ Hin). rewrite <- Ei. cbn. apply elem_of_cons. by left.
  - split_and!; [done | by rewrite delete_id | | done]. rewrite Em. split; [done | by intros []].
Qed.

(** A command for a registered namespace is delivered to the handler
    and context it was registered with. *)
Theorem lookup_handler_registered device nsid h ctx :
  ns_inv device → id_ok nsid → ns_map device !! nsid = Some (h, ctx) →
  lookup_handler device nsid = Some (Some (h, ctx)).
Proof.
  intros Hinv Hid Hm. unfold lookup_handler.
  destruct (find_cases device nsid Hinv Hid) as [l1 c l2 El Ef Ei Er Em |]; [| congruence].
  destruct (cmd_ns_match_live device nsid l1 c l2 Hinv El) as (Ec & Ema & _).
  rewrite Ef, Ema, Ei, memcmp_refl, Ec. simpl. congruence.
Qed.

Lemma sorted_last_greatest l c :
  StronglySorted ns_lt (l ++ [c]) → Forall (λ d : xrp_cmd_ns Hd, memcmp (ns_id d) (ns_id c) < 0) l.
Proof.
  intros (Hx & _ & _)%StronglySorted_app. apply list.Forall_forall. intros d Hd'.
  apply Hx; [done | by apply list_elem_of_singleton].
Qed.

(** The greatest id is found in the last cell in use. *)
Lemma find_greatest device l c :
  ns_inv device → live device = l ++ [c] →
  find_cmd_ns device (ns_id c) = length l ∧ ns_registered device (ns_id c) (length l) = true.
Proof.
  intros Hinv El. assert (c ∈ live device) as Hc by (rewrite El; set_solver).
  pose proof (ns_sorted _ Hinv) as Hl. rewrite El in Hl. apply sorted_last_greatest in Hl.
  assert (id_ok (ns_id c)) as Hid.
  { pose proof (ns_ids _ Hinv) as Hi. rewrite list.Forall_forall in Hi. by apply Hi. }
  destruct (find_cases device (ns_id c) Hinv Hid) as [l1 d l2 El1 Ef Ei Er Em | l1 l2 _ _ _ _ _ Em].
  - assert (length l1 = length l) as E; [| by rewrite <- E].
    rewrite El in El1. destruct l2 as [| e l2 _] using rev_ind.
    + by apply app_inj_tail in El1 as [-> _].
    + rewrite app_comm_cons, app_assoc in El1. apply app_inj_tail in El1 as [-> ->].
      apply Forall_app in Hl as [_ Hl]. inv Hl. rewrite Ei, memcmp_refl in *. lia.
  - by rewrite ns_map_elem in Em.
Qed.

(** An id above all registered ones is looked up in the first unused cell. *)
Lemma lookup_handler_above device id c :
  ns_inv device → id_ok id → Forall (λ d, memcmp (ns_id d) id < 0) (live device) →
  cmd_ns device !! n_cmd_ns device = Some c → ns_id c = id →
  ns_map device !! id = None ∧ lookup_handler device id = Some (Some (ns_handler c, ns_context c)).
Proof.
  intros Hinv Hid Hl E Ei. unfold lookup_handler.
  destruct (find_cases device id Hinv Hid) as [l1 d l2 El1 _ Ed _ _ | l1 l2 El1 -> _ Hr _ ->].
  { rewrite El1 in Hl. apply Forall_app in Hl as [_ Hl]. apply list.Forall_cons in Hl as [Hd' _].
    rewrite Ed, memcmp_refl in Hd'. lia. }
  assert (l2 = []) as ->.
  { destruct l2 as [| d l2]; [done |]. inv Hr. rewrite El1 in Hl.
    apply Forall_app in Hl as [_ Hl]. inv Hl. lia. }
  rewrite app_nil_r in El1. rewrite <- El1, length_live by done. split; [done |].
  unfold cmd_ns_match. destruct (cmd_ns device); [done |]. rewrite E. simpl.
  unfold compare_cmd_ns. by rewrite Ei, memcmp_refl.
Qed.

(** [process_command] does not check that the cell it found is in use.
    Unregistering the greatest id leaves its cell behind, so commands for
    it are still delivered to the handler that was unregistered. *)
Theorem unregistered_still_dispatched device l c :
  ns_inv device → live device = l ++ [c] →
  let '(device', status) := xrp_device_unregister_namespace device (ns_id c) in
  status = XRP_STATUS_SUCCESS ∧ ns_map device' !! ns_id c = None ∧
  lookup_handler device' (ns_id c) = Some (Some (ns_handler c, ns_context c)).
Proof.
  intros Hinv El. destruct (find_greatest device l c Hinv El) as [Ef Er].
  destruct (remove_cmd_ns_live device l c [] Hinv El) as (rest & Ec & El' & Hb).
  unfold xrp_device_unregister_namespace. rewrite Ef, Er. split; [done |].
  set (device' := remove_cmd_ns device (length l)) in *. rewrite app_nil_r in El'.
  destruct Hinv as [_ Hs Hi]. rewrite El in Hs, Hi.
  apply Forall_app in Hi as [Hi Hc]. apply list.Forall_cons in Hc as [Hc _].
  assert (ns_inv device') as Hinv'.
  { split; [done | |]; rewrite El'; [by apply StronglySorted_app in Hs as (_ & ? & _) | done]. }
  apply lookup_handler_above; [done | exact Hc | by rewrite El'; apply sorted_last_greatest | | done].
  rewrite <- length_live, El', Ec by done. by apply list_lookup_middle.
Qed.
End proofs.

(** ** Examples *)

Module NsExamples.
Definition id_of (k : Z) : list Z := k :: replicate 15 0.
Definition fresh (k : nat) : option (list (xrp_cmd_ns nat)) := Some (replicate k (mk_cmd_ns [] 0%nat 0)).
Definition dev0 : xrp_device nat := mk_device 0 0 0 [].
Definition dev2 : xrp_device nat :=
  (xrp_device_register_namespace fresh
     (xrp_device_register_namespace fresh dev0 (id_of 7) 70%nat 1).1 (id_of 3) 30%nat 2).1.

Lemma fresh_ok_fresh : fresh_ok fresh.
Proof. intros k l [= <-]. by rewrite length_replicate. Qed.

Lemma dev2_inv : ns_inv dev2.
Proof.
  split; [vm_compute; lia | repeat constructor |]. all: vm_compute; repeat constructor.
Qed.

Lemma register_namespace_refines_witness :
  (xrp_device_register_namespace fresh dev2 (id_of 5) 50%nat 3).2 = XRP_STATUS_SUCCESS ∧
  ns_map (xrp_device_register_namespace fresh dev2 (id_of 5) 50%nat 3).1 =
  <[id_of 5 := (50%nat, 3)]> (ns_map dev2).
Proof.
  pose proof (register_namespace_refines fresh dev2 (id_of 5) 50%nat 3 dev2_inv eq_refl fresh_ok_fresh) as Hr.
  destruct (xrp_device_register_namespace fresh dev2 (id_of 5) 50%nat 3) as [d s].
  replace (ns_map dev2 !! id_of 5) with (@None (nat * Z)) in Hr by reflexivity.
  destruct Hr as [(? & _ & ?) | (_ & _ & _ & Hc)]; [split; assumption | discriminate Hc].
Defined.

Lemma unregister_namespace_refines_witness :
  ns_map (xrp_device_unregister_namespace dev2 (id_of 3)).1 = delete (id_of 3) (ns_map dev2).
Proof.
  pose proof (unregister_namespace_refines dev2 (id_of 3) dev2_inv eq_refl) as Hr.
  destruct (xrp_device_unregister_namespace dev2 (id_of 3)) as [d s].
  exact (proj1 (proj2 Hr)).
Defined.

Lemma lookup_handler_registered_witness : lookup_handler dev2 (id_of 3) = Some (Some (30%nat, 2)).
Proof. exact (lookup_handler_registered dev2 (id_of 3) 30%nat 2 dev2_inv eq_refl eq_refl). Defined.

Lemma unregistered_still_dispatched_witness :
  lookup_handler (xrp_device_unregister_namespace dev2 (id_of 7)).1 (id_of 7) = Some (Some (70%nat, 1)).
Proof.
  pose proof (unregistered_still_dispatched dev2 [mk_cmd_ns (id_of 3) 30%nat 2] (mk_cmd_ns (id_of 7) 70%nat 1)
    dev2_inv eq_refl) as Hr.
  cbn [ns_id] in Hr. destruct (xrp_device_unregister_namespace dev2 (id_of 7)) as [d s].
  exact (proj2 (proj2 Hr)).
Defined.

(** A full array and an id above all registered ones: the cell read is
    outside the array. *)
Example lookup_out_of_bounds : lookup_handler dev2 (id_of 9) = None.
Proof. reflexivity. Qed.
End NsExamples.
