(* ===== verification/DspBuffer.v ===== *)
(** * Buffers and buffer groups on the DSP (xrp-dsp/xrp_dsp.c, xrp_api.h)

    The device, buffer and buffer-group calls available to a command handler
    running on the DSP.  [size_t], [unsigned long] and pointers are 32 bits
    wide on the DSP. *)

From stdpp Require Import base tactics list numbers.
From S2P Require Import Prelude Mem DspNs.

Definition XRP_READ := 0x1.
Definition XRP_WRITE := 0x2.
Definition XRP_READ_WRITE := 0x3.

Inductive xrp_buffer_info := XRP_BUFFER_SIZE_SIZE_T | XRP_BUFFER_HOST_POINTER_PTR.
Inductive xrp_buffer_group_info := XRP_BUFFER_GROUP_BUFFER_FLAGS_ENUM | XRP_BUFFER_GROUP_SIZE_SIZE_T.

(** ** Reference counts *)

(** [NULL] is [None]; the count is an [unsigned long]. *)
Definition retain_refcounted (ref : option Z) : option Z * xrp_status :=
  match ref with
  | Some count => (Some (u32 (count + 1)), XRP_STATUS_SUCCESS)
  | None => (None, XRP_STATUS_FAILURE)
  end.

(** The test is on the value before the decrement. *)
Definition release_refcounted (ref : option Z) : option Z * xrp_status :=
  match ref with
  | Some count =>
      (Some (u32 (count - 1)), if 0 <? count then XRP_STATUS_SUCCESS else XRP_STATUS_FAILURE)
  | None => (None, XRP_STATUS_FAILURE)
  end.

(** ** Device *)

Section device.
Context {Hd : Type}.

(** [None] is the null pointer returned on failure.  The device object is
    static: opening it again returns the same one. *)
Definition xrp_open_device (comm_base : Z) (device : xrp_device Hd) (idx : Z)
  : xrp_device Hd * option unit * xrp_status :=
  if idx =? 0 then
    (mk_device (d_count device) comm_base (n_cmd_ns device) (cmd_ns device), Some (),
     XRP_STATUS_SUCCESS)
  else (device, None, XRP_STATUS_FAILURE).

Definition with_count (device : xrp_device Hd) (c : option Z) : xrp_device Hd :=
  mk_device (default (d_count device) c) (d_dsp_cmd device) (n_cmd_ns device) (cmd_ns device).

Definition xrp_retain_device (device : xrp_device Hd) : xrp_device Hd * xrp_status :=
  let '(c, s) := retain_refcounted (Some (d_count device)) in (with_count device c, s).
Definition xrp_release_device (device : xrp_device Hd) : xrp_device Hd * xrp_status :=
  let '(c, s) := release_refcounted (Some (d_count device)) in (with_count device c, s).
End device.

(** ** Buffers *)

Record xrp_buffer := mk_buffer {
  b_count : Z;
  b_ptr : Z;
  b_size : Z;
  b_map_count : Z;
  b_allowed_access : Z;
  b_map_flags : Z;
}.

#[export] Instance xrp_buffer_eq_dec : EqDecision xrp_buffer.
Proof. solve_decision. Defined.

Definition with_ref (b : xrp_buffer) (c : option Z) : xrp_buffer :=
  mk_buffer (default (b_count b) c) (b_ptr b) (b_size b) (b_map_count b) (b_allowed_access b)
    (b_map_flags b).
Definition with_map (b : xrp_buffer) (n f : Z) : xrp_buffer :=
  mk_buffer (b_count b) (b_ptr b) (b_size b) n (b_allowed_access b) f.

(** Buffers cannot be created on the DSP. *)
Definition xrp_create_buffer (size host_ptr : Z) : option xrp_buffer * xrp_status :=
  (None, XRP_STATUS_FAILURE).

Definition xrp_retain_buffer (b : xrp_buffer) : xrp_buffer * xrp_status :=
  let '(c, s) := retain_refcounted (Some (b_count b)) in (with_ref b c, s).
Definition xrp_release_buffer (b : xrp_buffer) : xrp_buffer * xrp_status :=
  let '(c, s) := release_refcounted (Some (b_count b)) in (with_ref b c, s).

Definition xrp_map_buffer (b : xrp_buffer) (offset size map_flags : Z)
  : xrp_buffer * option Z * xrp_status :=
  if (offset <=? b_size b) && (size <=? u32 (b_size b - offset))
     && (Z.land (b_allowed_access b) map_flags =? map_flags)
  then
    let b := with_ref b (retain_refcounted (Some (b_count b))).1 in
    (with_map b (u32 (b_map_count b + 1)) (Z.lor (b_map_flags b) map_flags),
     Some (u32 (b_ptr b + offset)), XRP_STATUS_SUCCESS)
  else (b, None, XRP_STATUS_FAILURE).

Definition xrp_unmap_buffer (b : xrp_buffer) (p : Z) : xrp_buffer * xrp_status :=
  if (b_ptr b <=? p) && (u32 (p - b_ptr b) <=? b_size b) then
    let b := with_map b (u32 (b_map_count b - 1)) (b_map_flags b) in
    (with_ref b (release_refcounted (Some (b_count b))).1, XRP_STATUS_SUCCESS)
  else (b, XRP_STATUS_FAILURE).

(** The bytes copied to [out] ([None]: nothing copied); [size_t] and
    pointers take four bytes. *)
Definition xrp_buffer_get_info (b : xrp_buffer) (info : xrp_buffer_info) (out_sz : Z)
  : option (list Z) * xrp_status :=
  let v := match info with
           | XRP_BUFFER_SIZE_SIZE_T => b_size b
           | XRP_BUFFER_HOST_POINTER_PTR => b_ptr b
           end in
  if 4 =? out_sz then (Some (le_bytes 4 v), XRP_STATUS_SUCCESS) else (None, XRP_STATUS_FAILURE).

(** ** Buffer groups *)

Record xrp_buffer_group := mk_group {
  g_count : Z;
  g_buffer : list xrp_buffer;
}.
Definition g_n_buffers (g : xrp_buffer_group) : Z := Z.of_nat (length (g_buffer g)).

Definition with_gcount (g : xrp_buffer_group) (c : option Z) : xrp_buffer_group :=
  mk_group (default (g_count g) c) (g_buffer g).

Definition xrp_create_buffer_group : option xrp_buffer_group * xrp_status :=
  (None, XRP_STATUS_FAILURE).
Definition xrp_retain_buffer_group (g : xrp_buffer_group) : xrp_buffer_group * xrp_status :=
  let '(c, s) := retain_refcounted (Some (g_count g)) in (with_gcount g c, s).
Definition xrp_release_buffer_group (g : xrp_buffer_group) : xrp_buffer_group * xrp_status :=
  let '(c, s) := release_refcounted (Some (g_count g)) in (with_gcount g c, s).
Definition xrp_add_buffer_to_group (g : xrp_buffer_group) (b : xrp_buffer) (access_flags : Z)
  : xrp_buffer_group * Z * xrp_status :=
  (g, u32 (-1), XRP_STATUS_FAILURE).

(** The buffer returned is the group's own cell: its index. *)
Definition xrp_get_buffer_from_group (g : xrp_buffer_group) (idx : nat)
  : xrp_buffer_group * option nat * xrp_status :=
  match g_buffer g !! idx with
  | Some b =>
      (mk_group (g_count g) (<[idx := (xrp_retain_buffer b).1]> (g_buffer g)), Some idx,
       XRP_STATUS_SUCCESS)
  | None => (g, None, XRP_STATUS_FAILURE)
  end.

Definition xrp_buffer_group_get_info (g : xrp_buffer_group) (info : xrp_buffer_group_info)
    (idx : nat) (out_sz : Z) : option (list Z) * xrp_status :=
  let v := match info with
           | XRP_BUFFER_GROUP_BUFFER_FLAGS_ENUM => b_allowed_access <$> g_buffer g !! idx
           | XRP_BUFFER_GROUP_SIZE_SIZE_T => Some (g_n_buffers g)
           end in
  match v with
  | Some v => if 4 =? out_sz then (Some (le_bytes 4 v), XRP_STATUS_SUCCESS)
              else (None, XRP_STATUS_FAILURE)
  | None => (None, XRP_STATUS_FAILURE)
  end.

(** ** Call sequences

    The calls a handler makes on the group it was given; [None] in the
    result of a step is a call on a buffer the group does not have. *)

Inductive group_call :=
| CallGet (idx : nat)
| CallRetain (idx : nat)
| CallRelease (idx : nat)
| CallMap (idx : nat) (offset size map_flags : Z)
| CallUnmap (idx : nat) (p : Z)
| CallRetainGroup
| CallReleaseGroup.

Definition on_buffer (g : xrp_buffer_group) (idx : nat) (f : xrp_buffer → xrp_buffer)
  : xrp_buffer_group := mk_group (g_count g) (alter f idx (g_buffer g)).

Definition group_step (g : xrp_buffer_group) (c : group_call) : xrp_buffer_group :=
  match c with
  | CallGet idx => (xrp_get_buffer_from_group g idx).1.1
  | CallRetain idx => on_buffer g idx (λ b, (xrp_retain_buffer b).1)
  | CallRelease idx => on_buffer g idx (λ b, (xrp_release_buffer b).1)
  | CallMap idx o s f => on_buffer g idx (λ b, (xrp_map_buffer b o s f).1.1)
  | CallUnmap idx p => on_buffer g idx (λ b, (xrp_unmap_buffer b p).1)
  | CallRetainGroup => (xrp_retain_buffer_group g).1
  | CallReleaseGroup => (xrp_release_buffer_group g).1
  end.
Definition group_run (g : xrp_buffer_group) (cs : list group_call) : xrp_buffer_group :=
  foldl group_step g cs.

(** What every call keeps: where a buffer is and what may be done with it
    are fixed, the access recorded never exceeds the access allowed, and no
    access once recorded is forgotten. *)
Definition buffer_le (b b' : xrp_buffer) : Prop :=
  b_ptr b' = b_ptr b ∧ b_size b' = b_size b ∧ b_allowed_access b' = b_allowed_access b ∧
  Z.land (b_map_flags b) (b_map_flags b') = b_map_flags b.

Definition access_ok (b : xrp_buffer) : Prop :=
  Z.land (b_allowed_access b) (b_map_flags b) = b_map_flags b.

Lemma land_lor_absorb x y : Z.land x (Z.lor x y) = x.
Proof.
  apply Z.bits_inj'. intros n Hn. rewrite Z.land_spec, Z.lor_spec.
  by destruct (Z.testbit x n), (Z.testbit y n).
Qed.

Lemma land_sub_trans x y z : Z.land x y = x → Z.land y z = y → Z.land x z = x.
Proof. intros E1 E2. rewrite <- E1 at 1. rewrite <- Z.land_assoc, E2. done. Qed.

#[export] Instance buffer_le_preorder : PreOrder buffer_le.
Proof.
  split.
  - intros b. split_and!; auto using Z.land_diag.
  - intros b1 b2 b3 (? & ? & ? & ?) (? & ? & ? & ?). split_and!; try congruence.
    eauto using land_sub_trans.
Qed.

Lemma map_buffer_le b o s f :
  access_ok b → buffer_le b (xrp_map_buffer b o s f).1.1 ∧ access_ok (xrp_map_buffer b o s f).1.1.
Proof.
  intros Hb. unfold xrp_map_buffer. destruct (_ && _) eqn:E; [| by split].
  apply andb_prop in E as [_ E%Z.eqb_eq]. split.
  - split_and!; try done. apply land_lor_absorb.
  - unfold access_ok in *. simpl. by rewrite Z.land_lor_distr_r, Hb, E.
Qed.

Lemma unmap_buffer_le b p :
  access_ok b → buffer_le b (xrp_unmap_buffer b p).1 ∧ access_ok (xrp_unmap_buffer b p).1.
Proof.
  intros Hb. unfold xrp_unmap_buffer. destruct (_ && _); [| by split].
  split; [| done]. split_and!; auto using Z.land_diag.
Qed.

(** The relation lifted to groups: the same buffers, each above the old. *)
Definition group_le (g g' : xrp_buffer_group) : Prop := Forall2 buffer_le (g_buffer g) (g_buffer g').
Definition group_ok (g : xrp_buffer_group) : Prop := Forall access_ok (g_buffer g).

#[export] Instance group_le_preorder : PreOrder group_le.
Proof. split; red; unfold group_le; intros; [reflexivity | etrans; eassumption]. Qed.

Lemma on_buffer_le g idx f :
  group_ok g → (∀ b, access_ok b → buffer_le b (f b) ∧ access_ok (f b)) →
  group_le g (on_buffer g idx f) ∧ group_ok (on_buffer g idx f).
Proof.
  intros Hg Hf. unfold group_le, group_ok, on_buffer in *. simpl.
  revert idx. induction Hg as [| b l Hb Hl IH]; intros idx; [by split; constructor |].
  destruct idx as [| idx]; cbn.
  - destruct (Hf b Hb). split; constructor; auto. reflexivity.
  - destruct (IH idx). split; constructor; auto. reflexivity.
Qed.

Lemma get_buffer_alter g idx :
  (xrp_get_buffer_from_group g idx).1.1 = on_buffer g idx (λ b, (xrp_retain_buffer b).1).
Proof.
  unfold xrp_get_buffer_from_group, on_buffer. destruct (g_buffer g !! idx) as [b |] eqn:E; simpl.
  - f_equal. apply list_eq. intros j. destruct (decide (j = idx)) as [-> |].
    + rewrite list_lookup_insert_eq by eauto using lookup_lt_Some. by rewrite list_lookup_alter_eq, E.
    + by rewrite list_lookup_insert_ne, list_lookup_alter_ne.
  - destruct g as [n l]. simpl in *. f_equal. apply list_eq. intros j.
    rewrite list_lookup_alter. case_decide; [subst; by rewrite E | done].
Qed.

Lemma group_step_le g c : group_ok g → group_le g (group_step g c) ∧ group_ok (group_step g c).
Proof.
  intros Hg. assert (∀ b n, access_ok b → buffer_le b (with_ref b n) ∧ access_ok (with_ref b n)) as Hr.
  { intros b n Hb. split; [| done]. split_and!; auto using Z.land_diag. }
  destruct c; simpl; rewrite ?get_buffer_alter.
  1-3: apply on_buffer_le; [done | intros b; apply Hr].
  - apply on_buffer_le; auto using map_buffer_le.
  - apply on_buffer_le; auto using unmap_buffer_le.
  - split; [change (group_le g g); reflexivity | done].
  - split; [change (group_le g g); reflexivity | done].
Qed.

Lemma group_run_length g cs : length (g_buffer (group_run g cs)) = length (g_buffer g).
Proof.
  revert g. induction cs as [| c cs IH]; intros g; simpl; [done |]. rewrite IH.
  destruct c; simpl; rewrite ?get_buffer_alter; simpl; by rewrite ?length_alter.
Qed.

(** C35: whatever calls a handler makes on its buffer group, the buffers stay
    where they are, no access beyond the one the host allowed is ever
    recorded, and an access once recorded is still there at the end. *)
Theorem group_run_access g cs :
  group_ok g → group_le g (group_run g cs) ∧ group_ok (group_run g cs).
Proof.
  revert g. induction cs as [| c cs IH]; intros g Hg; simpl; [by split |].
  destruct (group_step_le g c Hg) as [Hle Hok]. destruct (IH _ Hok) as [Hle' Hok'].
  split; [by etrans | done].
Qed.

(** C36: mapping succeeds exactly when the requested range lies inside the
    buffer and the access is allowed, with no wrap-around in the test; the
    pointer returned addresses the range inside the buffer. *)
Theorem map_buffer_bounds b offset size flags :
  0 ≤ b_ptr b → 0 ≤ b_size b → b_ptr b + b_size b < 2 ^ 32 → 0 ≤ offset → 0 ≤ size →
  let '(b', p, status) := xrp_map_buffer b offset size flags in
  (status = XRP_STATUS_SUCCESS ↔
     offset + size ≤ b_size b ∧ Z.land (b_allowed_access b) flags = flags) ∧
  (status = XRP_STATUS_SUCCESS →
     p = Some (b_ptr b + offset) ∧ Z.land flags (b_map_flags b') = flags) ∧
  (status ≠ XRP_STATUS_SUCCESS → p = None ∧ b' = b).
Proof.
  intros. unfold xrp_map_buffer.
  destruct (Z.leb_spec offset (b_size b)); simpl; [| split_and!; [split; [done | lia] | done | done]].
  rewrite (u32_small (b_size b - offset)) by lia.
  destruct (Z.leb_spec size (b_size b - offset)); simpl; [| split_and!; [split; [done | lia] | done | done]].
  destruct (Z.eqb_spec (Z.land (b_allowed_access b) flags) flags); simpl.
  - split_and!; [split; [intros _; split; [lia | done] | done] | intros _ | done].
    rewrite u32_small by lia. split; [done |]. rewrite Z.lor_comm. apply land_lor_absorb.
  - split_and!; [split; [done | tauto] | done | done].
Qed.

(** Unmapping the pointer a successful map returned is accepted and
    restores both counters; what remains is the record of the access. *)
Theorem map_unmap_roundtrip b offset size flags :
  0 ≤ b_ptr b → 0 ≤ b_size b → b_ptr b + b_size b < 2 ^ 32 → 0 ≤ offset → 0 ≤ size →
  0 ≤ b_count b < 2 ^ 32 → 0 ≤ b_map_count b < 2 ^ 32 →
  let '(b', p, status) := xrp_map_buffer b offset size flags in
  status = XRP_STATUS_SUCCESS →
  ∃ q, p = Some q ∧
    xrp_unmap_buffer b' q =
    (with_map b (b_map_count b) (Z.lor (b_map_flags b) flags), XRP_STATUS_SUCCESS).
Proof.
  intros. unfold xrp_map_buffer.
  destruct (Z.leb_spec offset (b_size b)); simpl; [| done].
  destruct (_ && _); simpl; [| done]. intros _. rewrite (u32_small (b_ptr b + offset)) by lia.
  eexists. split; [done |]. unfold xrp_unmap_buffer. simpl.
  rewrite (proj2 (Z.leb_le _ _)) by lia. replace (b_ptr b + offset - b_ptr b) with offset by lia.
  rewrite (u32_small offset), (proj2 (Z.leb_le _ _)) by lia. simpl.
  assert (∀ c, 0 ≤ c < 2 ^ 32 → u32 (u32 (c + 1) - 1) = c) as Hrt.
  { intros c Hc. unfold wrap. rewrite Zminus_mod_idemp_l. replace (c + 1 - 1) with c by lia.
    by apply Z.mod_small. }
  unfold with_ref, with_map. simpl. by rewrite !Hrt.
Qed.

(** ** Examples *)

Module BufferExamples.
Definition rbuf : xrp_buffer := mk_buffer 0 4096 64 0 XRP_READ 0.
Definition grp : xrp_buffer_group := mk_group 0 [rbuf; mk_buffer 0 8192 32 0 XRP_READ_WRITE 0].
Definition calls : list group_call :=
  [CallGet 0; CallMap 0 0 64 XRP_READ_WRITE; CallMap 0 0 16 XRP_READ; CallMap 1 8 8 XRP_WRITE;
   CallUnmap 1 8200; CallRelease 0].

Lemma group_run_access_witness : group_le grp (group_run grp calls) ∧ group_ok (group_run grp calls).
Proof. apply (group_run_access grp calls). repeat constructor. Defined.

Lemma map_buffer_bounds_witness :
  (xrp_map_buffer rbuf 60 8 XRP_READ).2 = XRP_STATUS_FAILURE ∧
  (xrp_map_buffer rbuf 60 4 XRP_READ).2 = XRP_STATUS_SUCCESS.
Proof.
  split.
  - pose proof (map_buffer_bounds rbuf 60 8 XRP_READ ltac:(simpl; lia) ltac:(simpl; lia)
      ltac:(simpl; lia) ltac:(lia) ltac:(lia)) as Hb. reflexivity.
  - pose proof (map_buffer_bounds rbuf 60 4 XRP_READ ltac:(simpl; lia) ltac:(simpl; lia)
      ltac:(simpl; lia) ltac:(lia) ltac:(lia)) as Hb.
    destruct (xrp_map_buffer rbuf 60 4 XRP_READ) as [[b p] st].
    apply (proj1 Hb). split; [simpl; lia | reflexivity].
Defined.

Lemma map_unmap_roundtrip_witness :
  ∃ q, (xrp_map_buffer rbuf 8 16 XRP_READ).1.2 = Some q ∧
    xrp_unmap_buffer (xrp_map_buffer rbuf 8 16 XRP_READ).1.1 q =
    (with_map rbuf 0 XRP_READ, XRP_STATUS_SUCCESS).
Proof.
  refine (map_unmap_roundtrip rbuf 8 16 XRP_READ _ _ _ _ _ _ _ eq_refl); simpl; lia.
Defined.

(** Releasing a device or buffer more often than it was retained wraps the
    counter. *)
Example release_underflow :
  release_refcounted (Some 0) = (Some (2 ^ 32 - 1), XRP_STATUS_FAILURE).
Proof. reflexivity. Qed.
End BufferExamples.
