(* ===== verification/DspCmd.v ===== *)
(** * Command processing on the DSP (xrp-dsp/xrp_dsp.c)

    [process_command], [xrp_device_dispatch] and [xrp_device_poll].  Command
    handlers are the application's: they are a parameter, run on the memory
    and the buffer group they are given.  Cache maintenance is compiled in
    but disabled ([manage_cache] is zero), so it does not change memory. *)

From stdpp Require Import base tactics list numbers.
From S2P Require Import Prelude Mem AddressMap Interface Request DspNs DspBuffer.

Definition MAX_STACK_BUFFERS := 16.

(** The data arguments of a handler. *)
Record cmd_args := mk_args {
  in_data : Z;
  in_data_size : Z;
  out_data : Z;
  out_data_size : Z;
}.

(** Memory, group and status when a handler returns. *)
Record handler_result := mk_hres {
  hr_status : xrp_status;
  hr_mem : mem;
  hr_group : xrp_buffer_group;
}.

Definition dsp_buffer_allowed_access (flags : Z) : Z :=
  if flags =? XRP_DSP_BUFFER_FLAG_READ then XRP_READ else XRP_READ_WRITE.

Definition init_buffer (d : xrp_dsp_buffer) : xrp_buffer :=
  mk_buffer 0 (db_addr d) (db_size d) 0 (dsp_buffer_allowed_access (db_flags d)) 0.

(** The flags reported for a buffer: the access that took place. *)
Definition report_flags (b : xrp_buffer) : Z :=
  Z.lor (if Z.land (b_map_flags b) XRP_READ =? 0 then 0 else XRP_DSP_BUFFER_FLAG_READ)
        (if Z.land (b_map_flags b) XRP_WRITE =? 0 then 0 else XRP_DSP_BUFFER_FLAG_WRITE).

(** The second loop of [process_command]: [dsp_buffer[i].flags = flags]. *)
Fixpoint report_buffers (m : mem) (dsp_buffer : Z) (bs : list xrp_buffer) : mem :=
  match bs with
  | [] => m
  | b :: bs => report_buffers (store32 m dsp_buffer (report_flags b)) (dsp_buffer + sizeof_dsp_buffer) bs
  end.

Section dsp.
Context {Hd : Type}.
(** A registered handler with its context, and the application's
    [xrp_run_command], which need not set the status. *)
Context (run : Hd → Z → cmd_args → mem → xrp_buffer_group → handler_result).
Context (xrp_run_command : cmd_args → mem → xrp_buffer_group → option xrp_status * mem * xrp_buffer_group).

Definition xrp_run_command_handler (args : cmd_args) (m : mem) (g : xrp_buffer_group) : handler_result :=
  let '(s, m, g) := xrp_run_command args m g in mk_hres (default XRP_STATUS_FAILURE s) m g.

(** The handler chosen: the default one, or a registered one. *)
Definition run_handler (h : option (Hd * Z)) : cmd_args → mem → xrp_buffer_group → handler_result :=
  match h with Some (h, ctx) => run h ctx | None => xrp_run_command_handler end.

(** Pointer arguments and array base as the code computes them. *)
Definition args_of (m : mem) (c : Z) : cmd_args :=
  let isz := load32 m (cmd_in_data_size c) in
  let osz := load32 m (cmd_out_data_size c) in
  mk_args
    (if XRP_DSP_CMD_INLINE_DATA_SIZE <? isz then load32 m (cmd_in_data c) else cmd_in_data c) isz
    (if XRP_DSP_CMD_INLINE_DATA_SIZE <? osz then load32 m (cmd_out_data c) else cmd_out_data c) osz.
Definition n_buffers_of (m : mem) (c : Z) : Z := load32 m (cmd_buffer_size c) / sizeof_dsp_buffer.
Definition dsp_buffer_of (m : mem) (c : Z) : Z :=
  if XRP_DSP_CMD_INLINE_BUFFER_COUNT <? n_buffers_of m c then load32 m (cmd_buffer_data c)
  else cmd_buffer_data c.

(** From the point where the handler is known. *)
Definition run_on_buffers (m : mem) (c flags : Z) (h : option (Hd * Z)) : xrp_status * mem * Z :=
  let n := Z.to_nat (n_buffers_of m c) in
  let dsp_buffer := dsp_buffer_of m c in
  let group := mk_group 0 (init_buffer <$> load_dsp_buffers m dsp_buffer n) in
  let r := run_handler h (args_of m c) m group in
  let flags := if decide (hr_status r = XRP_STATUS_SUCCESS) then flags
               else Z.lor flags XRP_DSP_CMD_FLAG_RESPONSE_DELIVERY_FAIL in
  (hr_status r, report_buffers (hr_mem r) dsp_buffer (g_buffer (hr_group r)), flags).

(** [malloc] is the outcome of the allocation made for many buffers. The
    result is the status, the memory after [complete_request] and the
    number of host interrupts sent; [None] when the handler lookup reads
    outside the namespace array. *)
Definition process_command (malloc : bool) (m : mem) (device : xrp_device Hd) (flags : Z)
  : option (xrp_status * mem * nat) :=
  let c := d_dsp_cmd device in
  let out (r : xrp_status * mem * Z) := (r.1.1, complete_request r.1.2 c r.2, 1%nat) in
  let go h :=
    if (MAX_STACK_BUFFERS <? n_buffers_of m c) && negb malloc then (XRP_STATUS_FAILURE, m, flags)
    else run_on_buffers m c flags h in
  if Z.land (load32 m (cmd_flags c)) XRP_DSP_CMD_FLAG_REQUEST_NSID =? 0 then Some (out (go None))
  else
    match lookup_handler device (load_bytes m (cmd_nsid c) XRP_NAMESPACE_ID_SIZE) with
    | None => None
    | Some (Some h) => Some (out (go (Some h)))
    | Some None =>
        Some (out (XRP_STATUS_FAILURE, m, Z.lor flags XRP_DSP_CMD_FLAG_RESPONSE_DELIVERY_FAIL))
    end.

Definition xrp_device_poll (m : mem) (device : xrp_device Hd) : xrp_status :=
  if (xrp_request_valid m (d_dsp_cmd device)).2 then XRP_STATUS_SUCCESS else XRP_STATUS_PENDING.

(** [do_handshake] is the exchange with a booting host: the memory and the
    interrupts sent when it returns. *)
Definition xrp_device_dispatch (do_handshake : mem → mem * nat) (malloc : bool) (m : mem)
    (device : xrp_device Hd) : option (xrp_status * mem * nat) :=
  let '(flags, valid) := xrp_request_valid m (d_dsp_cmd device) in
  if negb valid then Some (XRP_STATUS_PENDING, m, 0%nat)
  else if flags =? XRP_DSP_SYNC_START then
    let '(m, irqs) := do_handshake m in Some (XRP_STATUS_SUCCESS, m, irqs)
  else process_command malloc m device flags.

(** ** A request that is delivered *)

(** The handler the flags and the namespace in memory select. *)
Definition selects (m : mem) (device : xrp_device Hd) (flags : Z) (h : option (Hd * Z)) : Prop :=
  if Z.land flags XRP_DSP_CMD_FLAG_REQUEST_NSID =? 0 then h = None
  else ∃ hc, h = Some hc ∧
       lookup_handler device (load_bytes m (cmd_nsid (d_dsp_cmd device)) XRP_NAMESPACE_ID_SIZE) = Some (Some hc).

(** The answer: what the handler left, the access to the buffers, and the
    flags. *)
Lemma dispatch_runs hs malloc m device flags h :
  let c := d_dsp_cmd device in
  let bufs := load_dsp_buffers m (dsp_buffer_of m c) (Z.to_nat (n_buffers_of m c)) in
  let r := run_handler h (args_of m c) m (mk_group 0 (init_buffer <$> bufs)) in
  load32 m (cmd_flags c) = flags → request_valid_flags flags = true → flags ≠ XRP_DSP_SYNC_START →
  selects m device flags h → n_buffers_of m c ≤ MAX_STACK_BUFFERS ∨ malloc = true →
  xrp_device_dispatch hs malloc m device =
  Some (hr_status r,
        complete_request (report_buffers (hr_mem r) (dsp_buffer_of m c) (g_buffer (hr_group r))) c
          (if decide (hr_status r = XRP_STATUS_SUCCESS) then flags
           else Z.lor flags XRP_DSP_CMD_FLAG_RESPONSE_DELIVERY_FAIL), 1%nat).
Proof.
  intros c bufs r Ef Hv Hne Hs Hm. unfold xrp_device_dispatch, xrp_request_valid, process_command. fold c.
  rewrite Ef, Hv, (proj2 (Z.eqb_neq _ _) Hne). cbn [negb].
  replace ((MAX_STACK_BUFFERS <? n_buffers_of m c) && negb malloc) with false
    by (destruct Hm as [Hl | ->]; [by rewrite (proj2 (Z.ltb_ge _ _) Hl) | by rewrite andb_false_r]).
  unfold selects in Hs. destruct (_ =? 0); [by subst h |]. destruct Hs as (hc & -> & Hl). fold c in Hl.
  by rewrite Hl.
Qed.
End dsp.

(** The weak default of [xrp_run_command]: the status is set to failure. *)
Definition xrp_run_command_default (args : cmd_args) (m : mem) (g : xrp_buffer_group)
  : option xrp_status * mem * xrp_buffer_group := (Some XRP_STATUS_FAILURE, m, g).

(** ** Memory after the report loop *)

Lemma load32_ext m1 m2 a : (∀ x, a ≤ x < a + 4 → m1 x = m2 x) → load32 m1 a = load32 m2 a.
Proof. intros Hx. unfold load32. by rewrite (load_bytes_ext m1 m2). Qed.

Lemma load_dsp_buffer_ext m1 m2 a :
  (∀ x, a ≤ x < a + 12 → m1 x = m2 x) → load_dsp_buffer m1 a = load_dsp_buffer m2 a.
Proof.
  intros Hx. unfold load_dsp_buffer.
  f_equal; apply load32_ext; intros; apply Hx; lia.
Qed.

Lemma load_dsp_buffers_ext m1 m2 a n :
  (∀ x, a ≤ x < a + 12 * Z.of_nat n → m1 x = m2 x) →
  load_dsp_buffers m1 a n = load_dsp_buffers m2 a n.
Proof.
  intros Hx. apply map_ext_in. intros i Hi%in_seq. apply load_dsp_buffer_ext.
  intros. apply Hx. unfold sizeof_dsp_buffer in *. lia.
Qed.

Lemma length_load_dsp_buffers m a n : length (load_dsp_buffers m a n) = n.
Proof. unfold load_dsp_buffers. by rewrite length_map, length_seq. Qed.

Lemma store32_out m a v x : x < a ∨ a + 4 ≤ x → store32 m a v x = m x.
Proof. intros. apply store_bytes_out. rewrite length_le_bytes. lia. Qed.

Lemma report_buffers_out m a bs x :
  x < a ∨ a + 12 * Z.of_nat (length bs) ≤ x → report_buffers m a bs x = m x.
Proof.
  revert m a. induction bs as [| b bs IH]; intros m a Hx; [done |]. cbn [report_buffers length] in *.
  unfold sizeof_dsp_buffer. rewrite IH by lia. apply store32_out. lia.
Qed.

Lemma mem_ok_report_buffers m a bs : mem_ok m → mem_ok (report_buffers m a bs).
Proof. revert m a. induction bs; intros; simpl; auto using mem_ok_store32. Qed.

Lemma report_flags_range b : 0 ≤ report_flags b < 4.
Proof. unfold report_flags. repeat case_match; vm_compute; split; congruence. Qed.

(** A descriptor with the access that took place. *)
Definition reported (d : xrp_dsp_buffer) (b : xrp_buffer) : xrp_dsp_buffer :=
  mk_dsp_buffer (report_flags b) (db_size d) (db_addr d).

Lemma report_buffers_load m a bs :
  load_dsp_buffers (report_buffers m a bs) a (length bs) =
  zip_with reported (load_dsp_buffers m a (length bs)) bs.
Proof.
  revert m a. induction bs as [| b bs IH]; intros m a; [done |].
  cbn [report_buffers length]. rewrite !load_dsp_buffers_S. cbn [zip_with]. f_equal.
  - rewrite (load_dsp_buffer_ext _ (store32 m a (report_flags b))).
    + unfold load_dsp_buffer, reported. simpl. pose proof (report_flags_range b).
      rewrite load32_store32 by lia. f_equal; apply load32_store32_ne; lia.
    + intros x Hx. apply report_buffers_out. unfold sizeof_dsp_buffer. lia.
  - rewrite IH. f_equal. apply load_dsp_buffers_ext. intros x Hx. apply store32_out.
    unfold sizeof_dsp_buffer in *. lia.
Qed.

(** What is reported never exceeds what the host allowed. *)
Lemma report_flags_allowed d b :
  access_ok b → b_allowed_access b = dsp_buffer_allowed_access (db_flags d) →
  db_flags d = XRP_DSP_BUFFER_FLAG_READ → Z.land (report_flags b) XRP_DSP_BUFFER_FLAG_WRITE = 0.
Proof.
  intros Hb Ha Hf. unfold access_ok in Hb. rewrite Ha, Hf in Hb. unfold dsp_buffer_allowed_access in Hb.
  simpl in Hb. assert (Z.land (b_map_flags b) XRP_WRITE = 0) as E.
  { rewrite <- Hb, (Z.land_comm XRP_READ), <- Z.land_assoc. apply Z.land_0_r. }
  unfold report_flags. rewrite E. by case_match.
Qed.
