(* ===== verification/Roundtrip.v ===== *)
(** * A command from the host to the DSP and back

    Composition of the host's [xrp_fill_hw_request] and
    [xrp_complete_hw_request] (xrp-kernel/xvp_main.c) with the DSP's
    [xrp_device_dispatch] (xrp-dsp/xrp_dsp.c) over the shared memory. *)

From stdpp Require Import base tactics list numbers.
From S2P Require Import Prelude Mem AddressMap Interface Request DspNs DspBuffer DspCmd.

Lemma dsp_buffers_of_bytes_load m a n :
  dsp_buffers_of_bytes n (load_bytes m a (12 * n)) = load_dsp_buffers m a n.
Proof.
  apply load_dsp_buffers_shift. intros i Hi.
  rewrite store_bytes_in by (rewrite length_load_bytes; lia).
  destruct (nth_lookup_or_length (load_bytes m a (12 * n)) (Z.to_nat (0 + i - 0)) 0) as [E | E];
    [| rewrite length_load_bytes in E; lia].
  rewrite load_bytes_lookup in E by lia. apply (inj Some) in E. rewrite <- E. f_equal. lia.
Qed.

Section roundtrip.
Context `{Arch} `{KLib} {Hd : Type}.
Context (run : Hd → Z → cmd_args → mem → xrp_buffer_group → handler_result).
Context (run_command : cmd_args → mem → xrp_buffer_group → option xrp_status * mem * xrp_buffer_group).
Implicit Types (device : xrp_device Hd) (rq : xrp_request) (map : xrp_address_map).

(** ** What the host meant *)

Definition host_args (cmd : Z) map rq : cmd_args :=
  let q := rq_ioctl_queue rq in
  mk_args
    (if 16 <? q_in_data_size q then xrp_translate_to_dsp map (rq_in_data_phys rq) else cmd_in_data cmd)
    (q_in_data_size q)
    (if 16 <? q_out_data_size q then xrp_translate_to_dsp map (rq_out_data_phys rq) else cmd_out_data cmd)
    (q_out_data_size q).
Definition host_group rq : xrp_buffer_group := mk_group 0 (init_buffer <$> rq_dsp_buffer rq).
Definition descriptors (cmd : Z) map rq : Z :=
  if 1 <? rq_n_buffers rq then xrp_translate_to_dsp map (rq_dsp_buffer_phys rq) else cmd_buffer_data cmd.

(** The handler the request is for. *)
Definition target device rq (h : option (Hd * Z)) : Prop :=
  if decide (q_flags (rq_ioctl_queue rq) = XRP_QUEUE_FLAG_NSID)
  then ∃ hc, h = Some hc ∧ lookup_handler device (rq_nsid rq) = Some (Some hc)
  else h = None.

(** The shared array of descriptors, when there is one, holds the request's
    descriptors and is not part of the command area. *)
Definition shared_ok (m : mem) (cmd : Z) map rq : Prop :=
  1 < rq_n_buffers rq →
  load_dsp_buffers m (descriptors cmd map rq) (length (rq_dsp_buffer rq)) = rq_dsp_buffer rq ∧
  (descriptors cmd map rq + 12 * rq_n_buffers rq ≤ cmd ∨ cmd + sizeof_dsp_cmd ≤ descriptors cmd map rq).

(** Bytes a handler must leave alone: the command except its inline output,
    and the descriptor array. *)
Definition reserved (cmd : Z) map rq (x : Z) : Prop :=
  (cmd ≤ x < cmd + sizeof_dsp_cmd ∧ ¬ (cmd_out_data cmd ≤ x < cmd_out_data cmd + 16)) ∨
  (descriptors cmd map rq ≤ x < descriptors cmd map rq + 12 * rq_n_buffers rq).

(** A handler that keeps to its arguments on one call: it leaves the
    reserved bytes alone and uses the group through the buffer calls. *)
Definition handler_ok (cmd : Z) map rq (m : mem) (g : xrp_buffer_group) (r : handler_result) : Prop :=
  mem_ok (hr_mem r) ∧ (∀ x, reserved cmd map rq x → hr_mem r x = m x) ∧
  ∃ cs, hr_group r = group_run g cs.

(** ** What the DSP reads *)

Lemma args_of_message m cmd rq map :
  message_at m cmd rq map → args_of m cmd = host_args cmd map rq.
Proof.
  intros Hm. unfold args_of, host_args.
  rewrite (msg_in_size _ _ _ _ Hm), (msg_out_size _ _ _ _ Hm).
  unfold XRP_DSP_CMD_INLINE_DATA_SIZE. f_equal; repeat zcase.
  - by apply (msg_in_addr _ _ _ _ Hm).
  - by apply (msg_out_addr _ _ _ _ Hm).
Qed.

Lemma n_buffers_of_message m cmd rq map :
  message_at m cmd rq map → n_buffers_of m cmd = rq_n_buffers rq.
Proof. intros Hm. unfold n_buffers_of. rewrite (msg_buffer_size _ _ _ _ Hm). by apply Z.div_mul. Qed.

Lemma dsp_buffer_of_message m cmd rq map :
  message_at m cmd rq map → dsp_buffer_of m cmd = descriptors cmd map rq.
Proof.
  intros Hm. unfold dsp_buffer_of, descriptors. rewrite (n_buffers_of_message _ _ _ _ Hm).
  unfold XRP_DSP_CMD_INLINE_BUFFER_COUNT. zcase. by apply (msg_buffer_addr _ _ _ _ Hm).
Qed.

Lemma descriptors_of_message m cmd rq map :
  request_ok rq → shared_ok m cmd map rq →
  load_dsp_buffers (apply_writes m (xrp_fill_hw_request cmd rq map)) (descriptors cmd map rq)
    (length (rq_dsp_buffer rq)) = rq_dsp_buffer rq.
Proof.
  intros Hok Hs. destruct (fill_hw_request_message m cmd rq map Hok) as [Hm Hframe].
  destruct (decide (1 < rq_n_buffers rq)) as [Hn | Hn].
  - destruct (Hs Hn) as [E Hd']. etrans; [| exact E]. apply load_dsp_buffers_ext. intros x Hx.
    assert (Z.of_nat (length (rq_dsp_buffer rq)) = rq_n_buffers rq) as El by apply Hok.
    specialize (Hframe x 1%nat). unfold load_bytes in Hframe. simpl in Hframe. rewrite Z.add_0_r in Hframe.
    assert (∀ y z : Z, [y] = [z] → y = z) as Hinj by congruence. apply Hinj, Hframe. lia.
  - unfold descriptors. rewrite (proj2 (Z.ltb_ge _ _)) by lia.
    apply (msg_buffer_data _ _ _ _ Hm). lia.
Qed.

(** ** What the DSP does *)

(** The flag word the DSP answers with. *)
Definition response_flags rq (status : xrp_status) : Z :=
  if decide (status = XRP_STATUS_SUCCESS) then request_flags (rq_ioctl_queue rq)
  else Z.lor (request_flags (rq_ioctl_queue rq)) XRP_DSP_CMD_FLAG_RESPONSE_DELIVERY_FAIL.

(** A command the DSP finds in memory, with its descriptors. *)
Record command_at (m : mem) (cmd : Z) map rq : Prop := {
  ca_request : request_ok rq;
  ca_message : message_at m cmd rq map;
  ca_descriptors : load_dsp_buffers m (descriptors cmd map rq) (length (rq_dsp_buffer rq)) = rq_dsp_buffer rq;
  ca_apart : descriptors cmd map rq + 12 * rq_n_buffers rq ≤ cmd ∨ cmd + 48 ≤ descriptors cmd map rq;
}.

Lemma dispatch_message hs malloc m device rq map h :
  let cmd := d_dsp_cmd device in
  let r := run_handler run run_command h (host_args cmd map rq) m (host_group rq) in
  command_at m cmd map rq → target device rq h → rq_n_buffers rq ≤ MAX_STACK_BUFFERS ∨ malloc = true →
  xrp_device_dispatch run run_command hs malloc m device =
  Some (hr_status r,
        complete_request
          (report_buffers (hr_mem r) (descriptors cmd map rq) (g_buffer (hr_group r)))
          cmd (response_flags rq (hr_status r)), 1%nat).
Proof.
  intros cmd r [Hok Hm Ed _] Ht Hmal. pose proof (msg_flags _ _ _ _ Hm) as Ef.
  assert (q_flags (rq_ioctl_queue rq) = 0 ∨ q_flags (rq_ioctl_queue rq) = XRP_QUEUE_FLAG_NSID)
    as Hq by apply Hok.
  pose proof (request_flags_cases _ Hq) as Efl.
  assert (Z.of_nat (length (rq_dsp_buffer rq)) = rq_n_buffers rq) as El by apply Hok.
  rewrite (dispatch_runs run run_command hs malloc m device (request_flags (rq_ioctl_queue rq)) h); fold cmd.
  - rewrite (args_of_message _ _ _ _ Hm), (n_buffers_of_message _ _ _ _ Hm), (dsp_buffer_of_message _ _ _ _ Hm).
    replace (Z.to_nat (rq_n_buffers rq)) with (length (rq_dsp_buffer rq)) by lia. by rewrite Ed.
  - done.
  - rewrite Efl. by destruct Hq as [-> | ->].
  - rewrite Efl. by destruct Hq as [-> | ->].
  - unfold selects, target in *. fold cmd. rewrite Efl. change XRP_NAMESPACE_ID_SIZE with 16%nat. case_decide as Hns.
    + rewrite Hns. destruct Ht as (hc & -> & Hl). exists hc. by rewrite (msg_nsid _ _ _ _ Hm).
    + destruct Hq as [-> | ?]; [done | done].
  - by rewrite (n_buffers_of_message _ _ _ _ Hm).
Qed.

(** ** What the host gets back *)

(** The descriptors overlap neither the flags nor the inline output. *)
Lemma descriptors_apart m cmd map rq :
  request_ok rq → shared_ok m cmd map rq →
  let d := descriptors cmd map rq in
  let n := Z.of_nat (length (rq_dsp_buffer rq)) in
  (d + 12 * n ≤ cmd ∨ cmd + 48 ≤ d) ∧ n = rq_n_buffers rq.
Proof.
  intros Hok Hs d n. assert (n = rq_n_buffers rq) as En by apply Hok. split; [| done].
  unfold shared_ok in Hs. fold d in Hs. unfold sizeof_dsp_cmd in Hs.
  destruct (decide (1 < rq_n_buffers rq)) as [Hn | Hn]; [destruct (Hs Hn) as [_ ?]; lia |].
  right. subst d. unfold descriptors. rewrite (proj2 (Z.ltb_ge _ _)) by lia.
  unfold cmd_buffer_data. lia.
Qed.

Lemma response_flags_word rq status :
  request_ok rq →
  let w := Z.lor (response_flags rq status) XRP_DSP_CMD_FLAG_RESPONSE_VALID in
  0 ≤ w < 2 ^ 32 ∧ cmd_complete_flags w = true ∧ request_valid_flags w = false ∧
  (Z.land w XRP_DSP_CMD_FLAG_RESPONSE_DELIVERY_FAIL =? 0) = bool_decide (status = XRP_STATUS_SUCCESS).
Proof.
  intros (_ & _ & _ & _ & Hf & _). unfold response_flags. rewrite request_flags_cases by done.
  destruct Hf as [-> | ->], status; vm_compute; repeat split; congruence.
Qed.

Lemma fill_command_at m cmd map rq :
  request_ok rq → shared_ok m cmd map rq → command_at (apply_writes m (xrp_fill_hw_request cmd rq map)) cmd map rq.
Proof.
  intros Hok Hs. destruct (fill_hw_request_message m cmd rq map Hok) as [Hm _].
  destruct (descriptors_apart m cmd map rq Hok Hs) as [Hda En]. cbv zeta in *. rewrite En in Hda.
  split; [done | done | by apply descriptors_of_message | done].
Qed.

(** The answer to a command in memory; what is neither flags nor
    descriptors is as the handler left it. *)
Lemma command_answer hs malloc m device rq map h :
  let cmd := d_dsp_cmd device in
  let r := run_handler run run_command h (host_args cmd map rq) m (host_group rq) in
  let osz := q_out_data_size (rq_ioctl_queue rq) in
  command_at m cmd map rq → target device rq h → rq_n_buffers rq ≤ MAX_STACK_BUFFERS ∨ malloc = true →
  handler_ok cmd map rq m (host_group rq) r →
  ∃ m2, xrp_device_dispatch run run_command hs malloc m device = Some (hr_status r, m2, 1%nat) ∧
    (∀ x, x < cmd ∨ cmd + 4 ≤ x → x < descriptors cmd map rq ∨ descriptors cmd map rq + 12 * rq_n_buffers rq ≤ x →
       m2 x = hr_mem r x) ∧
    xrp_cmd_complete m2 cmd = true ∧ (xrp_request_valid m2 cmd).2 = false ∧
    let '(ret, rq') := xrp_complete_hw_request m2 cmd rq in
    ret = (if decide (hr_status r = XRP_STATUS_SUCCESS) then 0 else - ENXIO) ∧
    (osz ≤ 16 →
     take (Z.to_nat osz) (rq_out_data rq') = load_bytes (hr_mem r) (cmd_out_data cmd) (Z.to_nat osz)) ∧
    (if decide (rq_n_buffers rq ≤ 1) then rq_dsp_buffer rq'
     else load_dsp_buffers m2 (descriptors cmd map rq) (length (rq_dsp_buffer rq))) =
    zip_with reported (rq_dsp_buffer rq) (g_buffer (hr_group r)).
Proof.
  intros cmd r osz Hca Ht Hmal (Hmok & Hres & cs & Hg).
  eexists. split; [by apply (dispatch_message hs malloc m device rq map h) |]. fold cmd r.
  destruct Hca as [Hok _ Hdesc Hd1].
  destruct (response_flags_word rq (hr_status r) Hok) as (Hw & Hc & Hv & Hd').
  assert (Z.of_nat (length (rq_dsp_buffer rq)) = rq_n_buffers rq) as El by apply Hok.
  assert (0 ≤ osz < 2 ^ 32) as Hosz by apply Hok.
  unfold complete_request, cmd_flags.
  set (w := Z.lor (response_flags rq (hr_status r)) XRP_DSP_CMD_FLAG_RESPONSE_VALID) in *.
  set (mr := report_buffers _ _ _).
  assert (mem_ok mr) as Hmr by by apply mem_ok_report_buffers.
  assert (length (g_buffer (hr_group r)) = length (rq_dsp_buffer rq)) as Elg.
  { rewrite Hg, group_run_length. apply length_fmap. }
  assert (∀ x, x < cmd ∨ cmd + 4 ≤ x → store32 mr cmd w x = mr x) as Hout
    by (intros; by apply store32_out).
  assert (load32 (store32 mr cmd w) cmd = w) as Ew by by apply load32_store32.
  assert (load_dsp_buffers (store32 mr cmd w) (descriptors cmd map rq) (length (rq_dsp_buffer rq)) =
          zip_with reported (rq_dsp_buffer rq) (g_buffer (hr_group r))) as Edesc.
  { rewrite (load_dsp_buffers_ext _ mr) by (intros; apply Hout; lia).
    unfold mr. rewrite <- Elg, report_buffers_load, Elg. f_equal.
    rewrite (load_dsp_buffers_ext _ m) by (intros; apply Hres; right; lia). exact Hdesc. }
  split; [intros x Hx1 Hx2; rewrite Hout by done; apply report_buffers_out; lia |].
  split; [unfold xrp_cmd_complete, xrp_comm_read32, cmd_flags; by rewrite Ew |].
  split; [unfold xrp_request_valid, cmd_flags; by rewrite Ew |].
  unfold xrp_complete_hw_request, xrp_comm_read32, cmd_flags, XRP_DSP_CMD_INLINE_DATA_SIZE,
    XRP_DSP_CMD_INLINE_BUFFER_COUNT.
  rewrite Ew, Hd'. fold osz. split; [by case_bool_decide; case_decide |]. split.
  - intros Ho. rewrite (proj2 (Z.leb_le _ _) Ho).
    replace (rq_out_data _) with
      (xrp_comm_read (store32 mr cmd w) (cmd_out_data cmd) osz ++
       drop (Z.to_nat osz) (rq_out_data rq)) by (by case_match).
    rewrite comm_read_load by (auto with xrp; lia).
    rewrite take_app_length' by (by rewrite length_load_bytes).
    apply load_bytes_ext. intros x Hx. unfold cmd_out_data in Hx. rewrite Hout by lia.
    apply report_buffers_out. lia.
  - destruct (decide (rq_n_buffers rq ≤ 1)) as [Hn | Hn]; [| exact Edesc].
    rewrite (proj2 (Z.leb_le _ _) Hn). simpl. rewrite <- Edesc.
    unfold descriptors, sizeof_dsp_buffer. rewrite (proj2 (Z.ltb_ge _ _) Hn).
    rewrite comm_read_load by (auto with xrp; lia).
    replace (Z.to_nat (rq_n_buffers rq * 12)) with (12 * length (rq_dsp_buffer rq))%nat by lia.
    replace (Z.to_nat (rq_n_buffers rq)) with (length (rq_dsp_buffer rq)) by lia.
    apply dsp_buffers_of_bytes_load.
Qed.

(** C2: a command and its answer.  The host fills the command area and the
    DSP dispatches it to the handler the request names, with the arguments
    and buffers the host meant.  When the handler keeps to its arguments, the
    command completes with one host interrupt, the DSP does not see it
    again, and the host gets the handler's status, its inline output and,
    for every buffer, the access that took place. *)
Theorem command_roundtrip hs malloc m device rq map h :
  let cmd := d_dsp_cmd device in
  let m1 := apply_writes m (xrp_fill_hw_request cmd rq map) in
  let r := run_handler run run_command h (host_args cmd map rq) m1 (host_group rq) in
  let osz := q_out_data_size (rq_ioctl_queue rq) in
  request_ok rq → target device rq h → shared_ok m cmd map rq →
  rq_n_buffers rq ≤ MAX_STACK_BUFFERS ∨ malloc = true →
  handler_ok cmd map rq m1 (host_group rq) r →
  ∃ m2, xrp_device_dispatch run run_command hs malloc m1 device = Some (hr_status r, m2, 1%nat) ∧
    xrp_cmd_complete m2 cmd = true ∧ (xrp_request_valid m2 cmd).2 = false ∧
    let '(ret, rq') := xrp_complete_hw_request m2 cmd rq in
    ret = (if decide (hr_status r = XRP_STATUS_SUCCESS) then 0 else - ENXIO) ∧
    (osz ≤ 16 →
     take (Z.to_nat osz) (rq_out_data rq') = load_bytes (hr_mem r) (cmd_out_data cmd) (Z.to_nat osz)) ∧
    (if decide (rq_n_buffers rq ≤ 1) then rq_dsp_buffer rq'
     else load_dsp_buffers m2 (descriptors cmd map rq) (length (rq_dsp_buffer rq))) =
    zip_with reported (rq_dsp_buffer rq) (g_buffer (hr_group r)).
Proof.
  intros cmd m1 r osz Hok Ht Hs Hmal Hh.
  destruct (command_answer hs malloc m1 device rq map h (fill_command_at m cmd map rq Hok Hs) Ht Hmal Hh)
    as (m2 & E & _ & Hm2). by exists m2.
Qed.

(** ** Commands that do not run *)

(** What the host returns for a command answered with status word [w]. *)
Lemma complete_status m cmd w rq :
  0 ≤ w < 2 ^ 32 →
  (xrp_complete_hw_request (complete_request m cmd w) cmd rq).1 =
  (if Z.land w XRP_DSP_CMD_FLAG_RESPONSE_DELIVERY_FAIL =? 0 then 0 else - ENXIO).
Proof.
  intros Hw. unfold xrp_complete_hw_request, complete_request, xrp_comm_read32, cmd_flags. cbn [fst].
  assert (0 ≤ Z.lor w XRP_DSP_CMD_FLAG_RESPONSE_VALID < 2 ^ 32).
  { split; [apply Z.lor_nonneg; unfold XRP_DSP_CMD_FLAG_RESPONSE_VALID; lia |].
    destruct (decide (Z.lor w XRP_DSP_CMD_FLAG_RESPONSE_VALID = 0)) as [-> |]; [lia |].
    apply Z.log2_lt_pow2; [pose proof (proj2 (Z.lor_nonneg w 2)); unfold XRP_DSP_CMD_FLAG_RESPONSE_VALID in *; lia |].
    rewrite Z.log2_lor by (unfold XRP_DSP_CMD_FLAG_RESPONSE_VALID; lia).
    apply Z.max_lub_lt; [| done]. destruct (decide (w = 0)) as [-> |]; [done |].
    apply Z.log2_lt_pow2; lia. }
  rewrite load32_store32 by done.
  by rewrite Z.land_lor_distr_l, Z.lor_0_r.
Qed.

Lemma dispatch_start hs malloc m device rq map :
  let cmd := d_dsp_cmd device in
  let m1 := apply_writes m (xrp_fill_hw_request cmd rq map) in
  request_ok rq →
  xrp_device_dispatch run run_command hs malloc m1 device =
  process_command run run_command malloc m1 device (request_flags (rq_ioctl_queue rq)) ∧
  message_at m1 cmd rq map ∧
  0 ≤ request_flags (rq_ioctl_queue rq) < 8.
Proof.
  intros cmd m1 Hok. destruct (fill_hw_request_message m cmd rq map Hok) as [Hm _]. fold m1 in Hm.
  assert (q_flags (rq_ioctl_queue rq) = 0 ∨ q_flags (rq_ioctl_queue rq) = XRP_QUEUE_FLAG_NSID)
    as Hq by apply Hok.
  unfold xrp_device_dispatch, xrp_request_valid. fold cmd. rewrite (msg_flags _ _ _ _ Hm).
  split_and!; [| done | | ]; rewrite request_flags_cases by done; by destruct Hq as [-> | ->].
Qed.

(** A command for a namespace without a handler is answered with
    failure: no handler runs, the DSP reports failure and the host returns
    [-ENXIO]. *)
Theorem undeliverable_command hs malloc m device rq map :
  let cmd := d_dsp_cmd device in
  let m1 := apply_writes m (xrp_fill_hw_request cmd rq map) in
  request_ok rq → q_flags (rq_ioctl_queue rq) = XRP_QUEUE_FLAG_NSID →
  lookup_handler device (rq_nsid rq) = Some None →
  ∃ m2, xrp_device_dispatch run run_command hs malloc m1 device =
        Some (XRP_STATUS_FAILURE, m2, 1%nat) ∧
    (∀ x, x < cmd ∨ cmd + 4 ≤ x → m2 x = m1 x) ∧
    (xrp_complete_hw_request m2 cmd rq).1 = - ENXIO.
Proof.
  intros cmd m1 Hok Hq Hl. destruct (dispatch_start hs malloc m device rq map Hok) as (Ed & Hm & _).
  fold cmd m1 in Ed, Hm. rewrite Ed. unfold process_command. fold cmd.
  change XRP_NAMESPACE_ID_SIZE with 16%nat.
  rewrite (msg_flags _ _ _ _ Hm), (msg_nsid _ _ _ _ Hm), Hl by done.
  rewrite request_flags_cases, Hq by auto. exists (complete_request m1 cmd 13). split; [done |].
  split; [intros; by apply store32_out |]. by rewrite complete_status.
Qed.

(** When a command has more buffers than fit on the stack and the DSP
    cannot allocate their descriptors, no handler runs and the DSP's own
    status is failure, yet the answer does not carry the failure flag: the
    host returns success. *)
Theorem malloc_failure_hidden hs m device rq map h :
  let cmd := d_dsp_cmd device in
  let m1 := apply_writes m (xrp_fill_hw_request cmd rq map) in
  request_ok rq → target device rq h → MAX_STACK_BUFFERS < rq_n_buffers rq →
  ∃ m2, xrp_device_dispatch run run_command hs false m1 device =
        Some (XRP_STATUS_FAILURE, m2, 1%nat) ∧
    (∀ x, x < cmd ∨ cmd + 4 ≤ x → m2 x = m1 x) ∧
    (xrp_complete_hw_request m2 cmd rq).1 = 0.
Proof.
  intros cmd m1 Hok Ht Hn. destruct (dispatch_start hs false m device rq map Hok) as (Ed & Hm & Hr).
  assert (q_flags (rq_ioctl_queue rq) = 0 ∨ q_flags (rq_ioctl_queue rq) = XRP_QUEUE_FLAG_NSID)
    as Hq by apply Hok.
  pose proof (request_flags_cases _ Hq) as Efl.
  fold cmd m1 in Ed, Hm. rewrite Ed. unfold process_command. fold cmd.
  rewrite (n_buffers_of_message _ _ _ _ Hm), (proj2 (Z.ltb_lt _ _) Hn), (msg_flags _ _ _ _ Hm).
  change XRP_NAMESPACE_ID_SIZE with 16%nat. set (fl := request_flags _) in *.
  exists (complete_request m1 cmd fl). split_and!.
  - unfold target in Ht. case_decide as Hns.
    + destruct Ht as (hc & -> & Hl). rewrite (msg_nsid _ _ _ _ Hm), Hl, Efl, Hns by done. done.
    + rewrite Efl. destruct Hq as [E | E]; [by rewrite E | done].
  - intros. by apply store32_out.
  - rewrite complete_status by lia. rewrite Efl. by destruct Hq as [-> | ->].
Qed.
End roundtrip.

(** ** Examples *)

Module RoundtripExamples.
#[local] Existing Instance arch32.
Import RefLib NsExamples.

Definition amap : xrp_address_map := [mk_entry 0 0 (2 ^ 32 - 1)].
Definition comm : Z := 4096.
Definition dev : xrp_device nat := mk_device 0 comm (n_cmd_ns dev2) (cmd_ns dev2).
Definition q (flags : Z) (n : Z) : xrp_ioctl_queue :=
  {| q_flags := flags; q_in_data_size := 4; q_out_data_size := 4; q_buffer_size := n * 16;
     q_in_data_addr := 0; q_out_data_addr := 0; q_buffer_addr := 0; q_nsid_addr := 0 |}.
Definition rq (nsid : Z) (n : nat) : xrp_request :=
  {| rq_ioctl_queue := q 4 (Z.of_nat n); rq_n_buffers := Z.of_nat n;
     rq_dsp_buffer := replicate n (mk_dsp_buffer 1 64 8192);
     rq_in_data_phys := 0; rq_out_data_phys := 0; rq_dsp_buffer_phys := 16384;
     rq_in_data := [1; 2; 3; 4] ++ replicate 12 0; rq_out_data := replicate 16 0;
     rq_nsid := id_of nsid |}.
Definition m0 : mem := λ _, 0.

(** A handler that stores its context and reads its first buffer. *)
Definition run (h : nat) (ctx : Z) (a : cmd_args) (m : mem) (g : xrp_buffer_group) : handler_result :=
  mk_hres XRP_STATUS_SUCCESS (store_bytes m (out_data a) (le_bytes 4 ctx))
    (group_run g [CallMap 0 0 64 XRP_READ]).
Definition hs (m : mem) : mem * nat := (m, 0%nat).

Lemma rq_ok nsid n : (n ≤ 64)%nat → 0 ≤ nsid < 256 → request_ok (rq nsid n).
Proof.
  intros. unfold request_ok, rq. cbn -[Z.mul Z.of_nat Z.pow le_bytes].
  rewrite length_replicate. unfold sizeof_dsp_buffer.
  split_and!; try lia; try done; auto.
  - apply Forall_replicate. unfold dsp_buffer_ok. simpl. lia.
  - repeat constructor; lia.
  - repeat constructor; lia.
Qed.

Lemma command_roundtrip_witness :
  ∃ m2, xrp_device_dispatch run xrp_run_command_default hs true
          (apply_writes m0 (xrp_fill_hw_request comm (rq 3 1) amap)) dev =
        Some (XRP_STATUS_SUCCESS, m2, 1%nat) ∧
    xrp_cmd_complete m2 comm = true ∧ (xrp_request_valid m2 comm).2 = false ∧
    (let '(ret, rq') := xrp_complete_hw_request m2 comm (rq 3 1) in
     ret = 0 ∧ take 4 (rq_out_data rq') = le_bytes 4 2 ∧
     rq_dsp_buffer rq' = [mk_dsp_buffer 1 64 8192]).
Proof.
  destruct (command_roundtrip run xrp_run_command_default hs true m0 dev (rq 3 1) amap
    (Some (30%nat, 2))) as (m2 & Ed & Hc & Hv & Hr).
  - apply rq_ok; lia.
  - exists (30%nat, 2). split; reflexivity.
  - intros Hn. simpl in Hn. lia.
  - right. reflexivity.
  - split_and!; [| | by exists [CallMap 0 0 64 XRP_READ]].
    + simpl. apply mem_ok_store_bytes; [apply mem_ok_apply_writes; intros x; unfold m0; lia |].
      apply (bytes_le_bytes 4 2).
    + intros x Hx. simpl. apply (store_bytes_out _ _ (le_bytes 4 2)). simpl.
      unfold reserved, cmd_out_data, sizeof_dsp_cmd, descriptors in Hx. simpl in Hx.
      unfold cmd_buffer_data, comm, cmd_out_data in *. lia.
  - exists m2. cbn [d_dsp_cmd dev] in *. split; [exact Ed |]. split; [exact Hc |]. split; [exact Hv |].
    destruct (xrp_complete_hw_request m2 comm (rq 3 1)) as [ret rq'].
    destruct Hr as (Hret & Hout & Hbuf). split; [exact Hret |]. split; [| exact Hbuf].
    etrans; [apply Hout; simpl; lia |]. reflexivity.
Defined.

Lemma undeliverable_command_witness :
  ∃ m2, xrp_device_dispatch run xrp_run_command_default hs true
          (apply_writes m0 (xrp_fill_hw_request comm (rq 5 1) amap)) dev =
        Some (XRP_STATUS_FAILURE, m2, 1%nat) ∧
    (∀ x, x < comm ∨ comm + 4 ≤ x →
       m2 x = apply_writes m0 (xrp_fill_hw_request comm (rq 5 1) amap) x) ∧
    (xrp_complete_hw_request m2 comm (rq 5 1)).1 = - ENXIO.
Proof.
  apply (undeliverable_command run xrp_run_command_default hs true m0 dev (rq 5 1) amap).
  - apply rq_ok; lia.
  - reflexivity.
  - reflexivity.
Defined.

Lemma malloc_failure_hidden_witness :
  ∃ m2, xrp_device_dispatch run xrp_run_command_default hs false
          (apply_writes m0 (xrp_fill_hw_request comm (rq 3 17) amap)) dev =
        Some (XRP_STATUS_FAILURE, m2, 1%nat) ∧
    (∀ x, x < comm ∨ comm + 4 ≤ x →
       m2 x = apply_writes m0 (xrp_fill_hw_request comm (rq 3 17) amap) x) ∧
    (xrp_complete_hw_request m2 comm (rq 3 17)).1 = 0.
Proof.
  apply (malloc_failure_hidden run xrp_run_command_default hs m0 dev (rq 3 17) amap (Some (30%nat, 2))).
  - apply rq_ok; lia.
  - exists (30%nat, 2). split; reflexivity.
  - reflexivity.
Defined.

Lemma fill_hw_request_atomic_witness :
  (xrp_request_valid (apply_writes m0 (xrp_fill_hw_request comm (rq 3 1) amap)) comm).2 = true.
Proof.
  destruct (fill_hw_request_atomic m0 comm (rq 3 1) amap
    (xrp_fill_hw_request comm (rq 3 1) amap) []) as [_ Hv].
  - apply rq_ok; lia.
  - rewrite app_nil_r. reflexivity.
  - destruct (Hv eq_refl) as [E _]. rewrite E. reflexivity.
Defined.
End RoundtripExamples.
