(* ===== verification/Bus.v ===== *)
(** * What the DSP sees of the host's memory

    The DSP reaches host memory through the ranges of the address map
    (xrp-kernel/xrp_address_map.c); everything else it addresses is its own.
    A command written by the host at a physical address is the same command
    at the DSP's address of it, and so is the answer. *)

From stdpp Require Import base tactics list numbers.
From S2P Require Import Prelude Mem AddressMap Interface Request PageMap.

(** ** The bus *)

Definition dst_covers (d : Z) (e : xrp_address_map_entry) : bool :=
  (dst_addr e <=? d) && (d <? dst_addr e + e_size e).

(** The host address behind an address of the DSP. *)
Fixpoint host_addr (map : xrp_address_map) (d : Z) : option Z :=
  match map with
  | [] => None
  | e :: map => if dst_covers d e then Some (src_addr e + (d - dst_addr e)) else host_addr map d
  end.

(** The DSP's memory: [loc] is its own. *)
Definition dsp_view (map : xrp_address_map) (loc m : mem) : mem :=
  λ d, match host_addr map d with Some p => m p | None => loc d end.
(** Host memory [m] once the DSP has left [D]. *)
Definition host_after (map : xrp_address_map) (m D : mem) : mem :=
  λ p, match find_entry map p with Some e => D (dst_addr e + (p - src_addr e)) | None => m p end.

(** Ranges the DSP can tell apart, in its 32-bit address space. *)
Definition dst_ok (map : xrp_address_map) : Prop :=
  Forall (λ e, 0 ≤ dst_addr e ∧ dst_addr e + e_size e ≤ 2 ^ 32) map ∧
  ∀ d a b, a ∈ map → b ∈ map → dst_covers d a = true → dst_covers d b = true → a = b.

Section bus.
Context `{Arch} `{KLibSpec}.
Variable map : xrp_address_map.
Hypothesis Hmap : map_ok map.
Hypothesis Hdst : dst_ok map.

Lemma host_addr_in e d : e ∈ map → dst_covers d e = true → host_addr map d = Some (src_addr e + (d - dst_addr e)).
Proof.
  intros He Hc. destruct Hdst as [_ Hu]. clear Hmap.
  assert (∀ l, l ⊆ map → e ∈ l → host_addr l d = Some (src_addr e + (d - dst_addr e))) as Hl; [| by apply Hl].
  induction l as [| a l IH]; intros Hsub Hin; [by apply not_elem_of_nil in Hin |]. cbn.
  destruct (dst_covers d a) eqn:Ea; [rewrite (Hu d a e); [done | apply Hsub; by left | done | done | done] |].
  apply IH; [intros x Hx; apply Hsub; by right |]. apply elem_of_cons in Hin as [-> | ?]; [congruence | done].
Qed.

(** A block inside one range keeps its order. *)
Lemma translate_block p n i :
  one_range map p n → 0 ≤ i < n →
  ∃ e, e ∈ map ∧ covers (p + i) e = true ∧ xrp_translate_to_dsp map p + i = dst_addr e + (p + i - src_addr e) ∧
    dst_covers (xrp_translate_to_dsp map p + i) e = true.
Proof.
  intros (e & He & Hc) Hi. pose proof (proj1 (list.Forall_forall _ _) (proj1 Hmap) e He) as (? & ? & ?).
  pose proof (proj1 (list.Forall_forall _ _) (proj1 Hdst) e He) as (? & ?).
  pose proof (Hc 0 ltac:(lia)) as H0c. rewrite Z.add_0_r in H0c. pose proof (Hc i Hi) as Hic.
  assert (xrp_translate_to_dsp map p = dst_addr e + (p - src_addr e)) as Et.
  { rewrite (translate_in map e) by (done || (unfold covers in *; lia)). apply u32_small. unfold covers in *. lia. }
  exists e. split_and!; [done | done | lia |]. unfold covers, dst_covers in *. lia.
Qed.

Lemma host_addr_block p n i : one_range map p n → 0 ≤ i < n → host_addr map (xrp_translate_to_dsp map p + i) = Some (p + i).
Proof.
  intros Hr Hi. destruct (translate_block p n i Hr Hi) as (e & He & _ & Et & Hd). rewrite (host_addr_in e) by done. f_equal. lia.
Qed.

Lemma view_byte loc m p n i : one_range map p n → 0 ≤ i < n → dsp_view map loc m (xrp_translate_to_dsp map p + i) = m (p + i).
Proof. intros Hr Hi. unfold dsp_view. by rewrite (host_addr_block p n). Qed.

Lemma after_byte m D p n i : one_range map p n → 0 ≤ i < n → host_after map m D (p + i) = D (xrp_translate_to_dsp map p + i).
Proof.
  intros Hr Hi. destruct (translate_block p n i Hr Hi) as (e & He & Hc & Et & _). unfold host_after.
  destruct (find_entry map (p + i)) as [b |] eqn:Ef.
  - apply find_entry_some in Ef as [? ?]. rewrite (map_ok_unique map (p + i) b e) by done. f_equal. lia.
  - by rewrite (find_entry_none _ _ _ Ef He) in Hc.
Qed.

(** Blocks that overlap for the DSP overlap in memory. *)
Lemma translate_inj p n i q k j :
  one_range map p n → one_range map q k → 0 ≤ i < n → 0 ≤ j < k →
  xrp_translate_to_dsp map p + i = xrp_translate_to_dsp map q + j → p + i = q + j.
Proof.
  intros Hp Hq Hi Hj E. pose proof (host_addr_block p n i Hp Hi) as E1. rewrite E, (host_addr_block q k j Hq Hj) in E1. congruence.
Qed.

Lemma view_block loc m p n : one_range map p n →
  load_bytes (dsp_view map loc m) (xrp_translate_to_dsp map p) (Z.to_nat n) = load_bytes m p (Z.to_nat n).
Proof. intros Hr. apply map_ext_in. intros i Hi%in_seq. apply (view_byte _ _ _ n); [done | lia]. Qed.

Lemma after_block m D p n : one_range map p n →
  load_bytes (host_after map m D) p (Z.to_nat n) = load_bytes D (xrp_translate_to_dsp map p) (Z.to_nat n).
Proof. intros Hr. apply map_ext_in. intros i Hi%in_seq. apply (after_byte _ _ _ n); [done | lia]. Qed.

Lemma mem_ok_view loc m : mem_ok loc → mem_ok m → mem_ok (dsp_view map loc m).
Proof. intros Hl Hm d. unfold dsp_view. destruct (host_addr map d); auto. Qed.
End bus.

(** ** The same command at two addresses *)

Lemma load_bytes_shift m1 m2 a b n :
  (∀ i, 0 ≤ i < Z.of_nat n → m1 (a + i) = m2 (b + i)) → load_bytes m1 a n = load_bytes m2 b n.
Proof. intros Hx. apply map_ext_in. intros i Hi%in_seq. apply Hx. lia. Qed.

Lemma comm_read_words_shift n m1 m2 a b :
  (∀ i, 0 ≤ i < 4 * Z.of_nat n → m1 (a + i) = m2 (b + i)) → comm_read_words n m1 a = comm_read_words n m2 b.
Proof.
  revert a b. induction n as [| n IH]; intros a b Hx; [done |]. cbn [comm_read_words]. f_equal.
  - f_equal. apply load32_shift. intros i Hi. apply Hx. lia.
  - apply IH. intros i Hi. rewrite <- !Z.add_assoc. apply Hx. lia.
Qed.

(** Reads are by words. *)
Lemma comm_read_shift m1 m2 a b sz :
  0 ≤ sz → (∀ i, 0 ≤ i < (sz + 3) / 4 * 4 → m1 (a + i) = m2 (b + i)) → xrp_comm_read m1 a sz = xrp_comm_read m2 b sz.
Proof.
  intros Hs Hx. unfold xrp_comm_read. rewrite land_3, land_not3, Z.div_mul by lia.
  assert (sz mod 4 = 0 ∧ (sz + 3) / 4 = sz / 4 ∨ sz mod 4 ≠ 0 ∧ (sz + 3) / 4 = sz / 4 + 1) as Hd.
  { pose proof (Z.div_mod sz 4 ltac:(lia)). pose proof (Z.mod_pos_bound sz 4 ltac:(lia)).
    pose proof (Z.div_mod (sz + 3) 4 ltac:(lia)). pose proof (Z.mod_pos_bound (sz + 3) 4 ltac:(lia)). lia. }
  assert (0 ≤ sz / 4) by (apply Z.div_pos; lia). f_equal.
  - apply comm_read_words_shift. intros i Hi. apply Hx. lia.
  - destruct (Z.eqb_spec (sz mod 4) 0); [done |]. do 2 f_equal. apply load32_shift. intros i Hi. rewrite <- !Z.add_assoc. apply Hx. lia.
Qed.

Section shift.
Context `{Arch} `{KLib}.
Variables (m1 m2 : mem) (c1 c2 : Z).
Hypothesis Hsame : ∀ i, 0 ≤ i < sizeof_dsp_cmd → m1 (c1 + i) = m2 (c2 + i).

Lemma cmd_load32 o : 0 ≤ o → o + 4 ≤ sizeof_dsp_cmd → load32 m1 (c1 + o) = load32 m2 (c2 + o).
Proof. intros. apply load32_shift. intros i Hi. rewrite <- !Z.add_assoc. apply Hsame. lia. Qed.

Lemma cmd_flags_shift : load32 m1 (cmd_flags c1) = load32 m2 (cmd_flags c2).
Proof. unfold cmd_flags. apply load32_shift. intros i Hi. apply Hsame. unfold sizeof_dsp_cmd. lia. Qed.

Lemma cmd_complete_shift : xrp_cmd_complete m1 c1 = xrp_cmd_complete m2 c2.
Proof. unfold xrp_cmd_complete, xrp_comm_read32. by rewrite cmd_flags_shift. Qed.

Lemma message_shift rq map :
  request_ok rq → message_at m2 c2 rq map → message_at m1 c1 rq map.
Proof.
  intros Hok [M1 M2 M3 M4 M5 M6 M7 M8 M9 M10]. assert (Z.of_nat (length (rq_dsp_buffer rq)) = rq_n_buffers rq) as El by apply Hok.
  unfold sizeof_dsp_cmd in *.
  split; rewrite ?cmd_flags_shift; try (intros; unfold cmd_in_data_size, cmd_out_data_size, cmd_buffer_size, cmd_in_data, cmd_out_data,
    cmd_buffer_data in *; rewrite cmd_load32 by (unfold sizeof_dsp_cmd; lia); by auto).
  - done.
  - intros Hi. rewrite <- M6 by done. apply load_bytes_shift. intros i Hx. unfold cmd_in_data. rewrite <- !Z.add_assoc. apply Hsame. lia.
  - intros Hn. etrans; [| by apply M9]. apply load_dsp_buffers_shift. intros i Hx. unfold cmd_buffer_data. rewrite <- !Z.add_assoc.
    apply Hsame. lia.
  - intros Hf. rewrite <- M10 by done. apply load_bytes_shift. intros i Hx. unfold cmd_nsid. rewrite <- !Z.add_assoc. apply Hsame. lia.
Qed.

Lemma complete_shift rq : request_ok rq → xrp_complete_hw_request m1 c1 rq = xrp_complete_hw_request m2 c2 rq.
Proof.
  intros (_ & Ho & Hn & _). unfold sizeof_dsp_cmd in *.
  unfold xrp_complete_hw_request, xrp_comm_read32, XRP_DSP_CMD_INLINE_DATA_SIZE, XRP_DSP_CMD_INLINE_BUFFER_COUNT.
  rewrite cmd_flags_shift.
  assert (q_out_data_size (rq_ioctl_queue rq) ≤ 16 → xrp_comm_read m1 (cmd_out_data c1) (q_out_data_size (rq_ioctl_queue rq)) =
    xrp_comm_read m2 (cmd_out_data c2) (q_out_data_size (rq_ioctl_queue rq))) as Eo.
  { intros Hs. apply comm_read_shift; [lia |]. intros i Hi. unfold cmd_out_data. rewrite <- !Z.add_assoc. apply Hsame.
    assert ((q_out_data_size (rq_ioctl_queue rq) + 3) / 4 < 5) by (apply Z.div_lt_upper_bound; lia). lia. }
  assert (rq_n_buffers rq ≤ 1 → xrp_comm_read m1 (cmd_buffer_data c1) (rq_n_buffers rq * sizeof_dsp_buffer) =
    xrp_comm_read m2 (cmd_buffer_data c2) (rq_n_buffers rq * sizeof_dsp_buffer)) as Eb.
  { intros Hs. unfold sizeof_dsp_buffer. apply comm_read_shift; [lia |]. intros i Hi. unfold cmd_buffer_data. rewrite <- !Z.add_assoc.
    apply Hsame. assert ((rq_n_buffers rq * 12 + 3) / 4 < 4) by (apply Z.div_lt_upper_bound; lia). lia. }
  destruct (Z.leb_spec (q_out_data_size (rq_ioctl_queue rq)) 16), (Z.leb_spec (rq_n_buffers rq) 1);
    rewrite ?Eo, ?Eb by done; done.
Qed.
End shift.
