(* ===== verification/SubmitData.v ===== *)
(** * A command from user space to a handler and back

    Composition of the whole path of a command: [xrp_ioctl_submit_sync]
    (xrp-kernel/xvp_main.c) shares the user's memory and writes the command,
    [xrp_device_dispatch] (xrp-dsp/xrp_dsp.c) runs the handler on the DSP's
    view of that memory, and the driver gives the memory back.  The handler
    finds the user's data, and the user finds the handler's. *)

From stdpp Require Import base tactics list gmap numbers.
From S2P Require Import Prelude Mem Interface Alloc AddressMap Request PageMap Shadow Share.
From S2P Require Import MapRequest Submit RequestData RequestReturn DspNs DspBuffer DspCmd Roundtrip Bus.

(** ** What the user passes *)

(** A request as its types allow, with an access for every buffer. *)
Record user_ok (u : user_request) : Prop := {
  uo_in_size : 0 ≤ q_in_data_size (u_queue u) < 2 ^ 32;
  uo_out_size : 0 ≤ q_out_data_size (u_queue u) < 2 ^ 32;
  uo_buffer_size : 0 ≤ q_buffer_size (u_queue u) < 2 ^ 32;
  uo_flags : q_flags (u_queue u) = 0 ∨ q_flags (u_queue u) = XRP_QUEUE_FLAG_NSID;
  uo_in l : u_in_data u = Some l → long_in (u_queue u) = false → Z.of_nat (length l) = q_in_data_size (u_queue u) ∧ bytes l;
  uo_nsid l : u_nsid u = Some l → length l = 16%nat ∧ bytes l;
  uo_buffer b : Some b ∈ u_buffers u →
    0 ≤ ib_flags b < 2 ^ 32 ∧ 0 ≤ ib_size b < 2 ^ 32 ∧ Z.land (ib_flags b) XRP_FLAG_READ_WRITE ≠ 0;
}.

Record stack_ok (stk : rq_stack) : Prop := {
  so_in : length (s_in_data stk) = 16%nat ∧ bytes (s_in_data stk);
  so_out : length (s_out_data stk) = 16%nat;
  so_nsid : length (s_nsid stk) = 16%nat ∧ bytes (s_nsid stk);
}.

Lemma length_overlay l s n : length s = n → (∀ l', l = Some l' → (length l' ≤ n)%nat) → length (overlay l s) = n.
Proof.
  intros Hs Hl. destruct l as [l |]; [| done]. cbn. specialize (Hl l eq_refl). rewrite length_app, length_drop. lia.
Qed.
Lemma bytes_overlay l s : bytes s → (∀ l', l = Some l' → bytes l') → bytes (overlay l s).
Proof.
  intros Hs Hl. destruct l as [l |]; [| done]. cbn. apply Forall_app. split; [by apply Hl | by apply Forall_drop].
Qed.

(** Blocks that do not meet. *)
Lemma disjoint_ranges a n b m : 0 < n → 0 < m → (∀ x, a ≤ x < a + n → b ≤ x < b + m → False) → a + n ≤ b ∨ b + m ≤ a.
Proof. intros Hn Hm Hx. specialize (Hx (Z.max a b)). lia. Qed.

Lemma many_spec n : many n = true ↔ (1 < n)%nat.
Proof. unfold many, XRP_DSP_CMD_INLINE_BUFFER_COUNT. rewrite Z.ltb_lt. lia. Qed.

Section request.
Context `{Arch} `{KLibSpec} {P : Type} `{!AllocOps P} `{!AllocSpec P} `{UserAccess}.
Variables (map : xrp_address_map) (pmem : Z) (env : nat → kstate P → share_env) (pa : Z → Z).

(** The driver's own memory: the command, and an array of descriptors. *)
Definition private_bytes (comm kaddr : Z) (u : user_request) (x : Z) : Prop :=
  comm ≤ x < comm + sizeof_dsp_cmd ∨
  many (n_buffers u) = true ∧ pa kaddr ≤ x < pa kaddr + 12 * Z.of_nat (n_buffers u).

(** What is mapped is a request the command can carry. *)
Lemma mapped_request_ok kp S s0 s u stk kaddr rq ms :
  user_ok u → stack_ok stk → request_of u stk rq → request_delivered map pmem env pa kp S s0 s u kaddr rq ms → request_ok rq.
Proof.
  intros [U1 U2 U3 U4 U5 U6 U7] [[T1 T1'] T2 [T3 T3']] [R1 R2 R3 R4 R5 R6] [_ _ Rb _ _ _ _].
  assert (length (u_buffers u) = n_buffers u) as Lu by (unfold u_buffers; by rewrite length_fmap, length_seq).
  pose proof (Forall3_length_lr _ _ _ _ Rb) as Lr.
  assert (Z.of_nat (n_buffers u) * 16 ≤ q_buffer_size (u_queue u)) as Hn.
  { unfold n_buffers, sizeof_ioctl_buffer. rewrite Z2Nat.id by (apply Z.div_pos; lia). rewrite Z.mul_comm. apply Z.mul_div_le. lia. }
  unfold request_ok, sizeof_dsp_buffer. rewrite R1, R2, R5.
  assert (length (rq_in_data rq) = 16%nat ∧ bytes (rq_in_data rq)) as [Li Bi].
  { destruct (long_in (u_queue u)) eqn:El; [by rewrite R4 |]. destruct (R3 eq_refl) as (l & El' & ->). destruct (U5 l El' eq_refl) as [Hl Hb].
    unfold long_in, XRP_DSP_CMD_INLINE_DATA_SIZE in El. split; [apply length_overlay | apply bytes_overlay]; [done | | done |]; intros ? [= <-]; [lia | done]. }
  assert (length (rq_nsid rq) = 16%nat ∧ bytes (rq_nsid rq)) as [Ln Bn].
  { rewrite R6. destruct (_ =? 0); [done |].
    split; [apply length_overlay | apply bytes_overlay]; [done | | done |]; intros l El; destruct (U6 l El); [lia | done]. }
  split_and!; try done; try lia.
  apply list.Forall_forall. intros d Hd. apply list_elem_of_lookup in Hd as [i Hi].
  destruct (Forall3_lookup_r _ _ _ _ _ _ Rb Hi) as (ob & m & Hob & _ & (b & -> & Ef & Es & p & Ea & _)).
  destruct (U7 b) as (? & ? & _); [by eapply list_elem_of_lookup_2 |]. unfold dsp_buffer_ok. rewrite Ef, Es, Ea.
  split_and!; try lia; pose proof (translate_u32 map p) as Et; rewrite <- Et; apply (wrap_range 32); lia.
Qed.
End request.

(** ** The exchange on the DSP's side of the bus *)

Section exchange.
Context `{Arch} `{KLibSpec} {P : Type} {Hd : Type}.
Context (run : Hd → Z → cmd_args → mem → xrp_buffer_group → handler_result).
Context (run_command : cmd_args → mem → xrp_buffer_group → option xrp_status * mem * xrp_buffer_group).
Variables (device : xrp_device Hd) (map : xrp_address_map) (pmem : Z) (env : nat → kstate P → share_env).
Variables (pa : Z → Z) (loc : mem).
Hypothesis Hmap : map_ok map.
Hypothesis Hdst : dst_ok map.

(** A handler keeps to its arguments: it changes its output data and the
    buffers of the group it is given, which it uses through the buffer
    calls. *)
Definition behaved (h : option (Hd * Z)) : Prop :=
  ∀ a m g, mem_ok m → let r := run_handler run run_command h a m g in
    mem_ok (hr_mem r) ∧ (∃ cs, hr_group r = group_run g cs) ∧
    ∀ x, x < out_data a ∨ out_data a + out_data_size a ≤ x →
      (∀ b, b ∈ g_buffer g → x < b_ptr b ∨ b_ptr b + b_size b ≤ x) → hr_mem r x = m x.

(** Where the command is. *)
Variables (comm kaddr : Z) (u : user_request).
Record placed : Prop := {
  pl_cmd : d_dsp_cmd device = xrp_translate_to_dsp map comm;
  pl_comm : one_range map comm sizeof_dsp_cmd;
  pl_apart : many (n_buffers u) = true → apart comm sizeof_dsp_cmd (pa kaddr) (12 * Z.of_nat (n_buffers u));
}.
Hypothesis Hpl : placed.

(** A mapped request. *)
Variables (S : Z → Prop) (s0 s : mems) (rq : xrp_request) (ms : rq_maps).
Hypothesis Hok : request_ok rq.
Hypothesis Hn : rq_n_buffers rq = Z.of_nat (n_buffers u).
Hypothesis Hdel : request_delivered map pmem env pa (private_bytes pa comm kaddr u) S s0 s u kaddr rq ms.

(** Memory once the command is written, and as the DSP sees it. *)
Definition written : mem := apply_writes (pm s) (xrp_fill_hw_request comm rq map).
Definition seen : mem := dsp_view map loc written.

Lemma written_out x : x < comm ∨ comm + sizeof_dsp_cmd ≤ x → written x = pm s x.
Proof.
  intros Hx. destruct (fill_hw_request_message (pm s) comm rq map Hok) as [_ Hf]. specialize (Hf x 1%nat).
  unfold load_bytes in Hf. cbn in Hf. rewrite Z.add_0_r in Hf. specialize (Hf ltac:(lia)). by injection Hf.
Qed.

Lemma safe_out x : S x → x < comm ∨ comm + sizeof_dsp_cmd ≤ x.
Proof.
  intros Hx. destruct (decide (comm ≤ x < comm + sizeof_dsp_cmd)) as [Hin |]; [| lia].
  exfalso. by apply (rd_apart _ _ _ _ _ _ _ _ _ _ _ _ Hdel x); [left |].
Qed.

Lemma seen_block p n : 0 ≤ n → one_range map p n → (∀ x, p ≤ x < p + n → x < comm ∨ comm + sizeof_dsp_cmd ≤ x) →
  load_bytes seen (xrp_translate_to_dsp map p) (Z.to_nat n) = load_bytes (pm s) p (Z.to_nat n).
Proof.
  intros Hn0 Hr Hx. unfold seen. rewrite view_block by done. apply load_bytes_ext. intros x Hin. apply written_out, Hx. lia.
Qed.

Lemma dsp_apart p n q k : one_range map p n → one_range map q k → 0 < n → 0 < k →
  (∀ x, p ≤ x < p + n → q ≤ x < q + k → False) →
  xrp_translate_to_dsp map p + n ≤ xrp_translate_to_dsp map q ∨ xrp_translate_to_dsp map q + k ≤ xrp_translate_to_dsp map p.
Proof.
  intros Hp Hq Hn0 Hk Hx. apply disjoint_ranges; [done | done |]. intros x H1x H2x.
  assert (p + (x - xrp_translate_to_dsp map p) = q + (x - xrp_translate_to_dsp map q)) as E
    by (apply (translate_inj map Hmap Hdst p n _ q k); (done || lia)).
  apply (Hx (p + (x - xrp_translate_to_dsp map p))); lia.
Qed.

(** A block of the request is apart from the command and the descriptors. *)
Lemma block_apart_cmd p n : 0 < n → one_range map p n → (∀ x, p ≤ x < p + n → S x) →
  xrp_translate_to_dsp map p + n ≤ d_dsp_cmd device ∨ d_dsp_cmd device + sizeof_dsp_cmd ≤ xrp_translate_to_dsp map p.
Proof.
  intros Hn0 Hr HS. rewrite (pl_cmd Hpl). apply dsp_apart; [done | apply Hpl | done | done |].
  intros x Hx Hc. pose proof (safe_out x (HS x Hx)). lia.
Qed.

Lemma n_descs : Z.of_nat (length (rq_dsp_buffer rq)) = rq_n_buffers rq.
Proof. apply Hok. Qed.

Lemma descs_block : 1 < rq_n_buffers rq →
  descs_delivered map pa (private_bytes pa comm kaddr u) S s kaddr (rq_dsp_buffer rq) (rq_dsp_buffer_phys rq) (m_dsp_buffer ms) ∧
  descriptors (d_dsp_cmd device) map rq = xrp_translate_to_dsp map (rq_dsp_buffer_phys rq) ∧
  ∀ x, rq_dsp_buffer_phys rq ≤ x < rq_dsp_buffer_phys rq + 12 * rq_n_buffers rq → x < comm ∨ comm + sizeof_dsp_cmd ≤ x.
Proof.
  intros Hm. pose proof n_descs as El. assert (many (n_buffers u) = true) as Hmany by (apply many_spec; lia).
  pose proof (rd_descs _ _ _ _ _ _ _ _ _ _ _ _ Hdel Hmany) as Hdd. split; [done |].
  split; [unfold descriptors; by rewrite (proj2 (Z.ltb_lt _ _) Hm) |].
  intros x Hx. destruct (decide (comm ≤ x < comm + sizeof_dsp_cmd)) as [Hin |]; [| lia]. exfalso.
  destruct (dd_apart _ _ _ _ _ _ _ _ _ Hdd x ltac:(lia)) as [_ Hk]. specialize (Hk (or_introl Hin)).
  destruct (pl_apart Hpl Hmany); lia.
Qed.

Lemma block_apart_descs p n : 0 < n → one_range map p n → (∀ x, p ≤ x < p + n → S x) →
  let d := descriptors (d_dsp_cmd device) map rq in
  xrp_translate_to_dsp map p + n ≤ d ∨ d + 12 * rq_n_buffers rq ≤ xrp_translate_to_dsp map p.
Proof.
  intros Hn0 Hr HS d. destruct (decide (1 < rq_n_buffers rq)) as [Hm | Hm].
  - destruct (descs_block Hm) as (Hdd & Ed & _). unfold d. rewrite Ed. pose proof n_descs as El.
    apply dsp_apart; [done | rewrite <- El; apply Hdd | done | lia |]. intros x Hx Hxd.
    destruct (dd_apart _ _ _ _ _ _ _ _ _ Hdd x ltac:(lia)) as [Hns _]. by apply Hns, HS.
  - pose proof (block_apart_cmd p n Hn0 Hr HS) as Ha. unfold d, descriptors, cmd_buffer_data, sizeof_dsp_cmd in *.
    rewrite (proj2 (Z.ltb_ge _ _)) by lia. assert (0 ≤ rq_n_buffers rq) by lia. lia.
Qed.

(** The DSP finds the command and its descriptors. *)
Lemma command_seen : command_at seen (d_dsp_cmd device) map rq.
Proof.
  destruct (fill_hw_request_message (pm s) comm rq map Hok) as [Hm _]. fold written in Hm.
  assert (message_at seen (d_dsp_cmd device) rq map) as Hms.
  { apply (message_shift seen written _ comm); [| done | done]. intros i Hi. rewrite (pl_cmd Hpl).
    unfold seen. apply (view_byte map Hmap Hdst _ _ _ sizeof_dsp_cmd); [apply Hpl | done]. }
  pose proof n_descs as El. assert (dsp_buffers_ok (rq_dsp_buffer rq)) as Hb by apply Hok.
  destruct (decide (1 < rq_n_buffers rq)) as [Hm1 | Hm1].
  - destruct (descs_block Hm1) as (Hdd & Ed & Hout). split; [done | done | |]; rewrite Ed.
    + apply load_dsp_buffers_bytes; [done |]. rewrite <- (dd_bytes _ _ _ _ _ _ _ _ _ Hdd).
      replace (12 * length (rq_dsp_buffer rq))%nat with (Z.to_nat (12 * rq_n_buffers rq)) by lia.
      apply seen_block; [lia | rewrite <- El; apply Hdd | done].
    + rewrite (pl_cmd Hpl). assert (one_range map (rq_dsp_buffer_phys rq) (12 * rq_n_buffers rq)) as Hr by (rewrite <- El; apply Hdd).
      destruct (dsp_apart (rq_dsp_buffer_phys rq) (12 * rq_n_buffers rq) comm sizeof_dsp_cmd) as [? | ?];
        [done | apply Hpl | lia | done | intros x Hx Hc; specialize (Hout x Hx); lia | by left | right; unfold sizeof_dsp_cmd in *; lia].
  - split; [done | done | |]; unfold descriptors; rewrite (proj2 (Z.ltb_ge _ _)) by lia.
    + apply (msg_buffer_data _ _ _ _ Hms). lia.
    + right. done.
Qed.

Hypothesis Hq : rq_ioctl_queue rq = u_queue u.
Hypothesis Hrw : ∀ b, Some b ∈ u_buffers u → Z.land (ib_flags b) XRP_FLAG_READ_WRITE ≠ 0.

(** The block of a descriptor. *)
Lemma descriptor_block i d : rq_dsp_buffer rq !! i = Some d →
  ∃ b m p, u_buffers u !! i = Some (Some b) ∧ m_buffer ms !! i = Some m ∧ db_size d = ib_size b ∧
    db_addr d = xrp_translate_to_dsp map p ∧ delivered map pmem env S s0 s (ib_addr b) (ib_size b) (ib_flags b) p m.
Proof.
  intros Hi. destruct (Forall3_lookup_r _ _ _ _ _ _ (rd_buffers _ _ _ _ _ _ _ _ _ _ _ _ Hdel) Hi) as (ob & m & Hob & Hm & (b & -> & _ & Es & p & Ea & Hb)).
  exists b, m, p. assert (Some b ∈ u_buffers u) as Hin by (by eapply list_elem_of_lookup_2).
  rewrite (proj2 (Z.eqb_neq _ _) (Hrw b Hin)) in Hb. done.
Qed.

Definition args : cmd_args := host_args (d_dsp_cmd device) map rq.
Definition handled (h : option (Hd * Z)) : handler_result := run_handler run run_command h args seen (host_group rq).

Lemma handler_keeps h : behaved h → mem_ok loc → mem_ok (pm s) →
  handler_ok (d_dsp_cmd device) map rq seen (host_group rq) (handled h).
Proof.
  intros Hh Hl Hm. assert (mem_ok seen) as Hs by (apply mem_ok_view; [done |]; by apply mem_ok_apply_writes).
  destruct (Hh args seen (host_group rq) Hs) as (Hmo & Hg & Hf). fold (handled h) in *. split; [done |]. split; [| done].
  destruct command_seen as [_ _ _ Hda]. pose proof n_descs as El.
  set (cmd := d_dsp_cmd device) in *. set (ds := descriptors cmd map rq) in *.
  (* the blocks do not meet the reserved bytes *)
  assert (∀ p n x, 0 < n → one_range map p n → (∀ y, p ≤ y < p + n → S y) → reserved cmd map rq x →
    x < xrp_translate_to_dsp map p ∨ xrp_translate_to_dsp map p + n ≤ x) as Hres.
  { intros p n x Hn0 Hr HS Hx. pose proof (block_apart_cmd p n Hn0 Hr HS) as Hc. pose proof (block_apart_descs p n Hn0 Hr HS) as Hd0.
    cbv zeta in Hd0. fold cmd in Hc, Hd0. fold ds in Hd0. destruct Hx as [[Hx _] | Hx]; [lia | fold ds in Hx; lia]. }
  intros x Hx. apply Hf.
  - unfold args, host_args. cbn [out_data out_data_size]. fold cmd.
    destruct (Z.ltb_spec 16 (q_out_data_size (rq_ioctl_queue rq))) as [Hlo | Hlo].
    + rewrite Hq in *. assert (long_out (u_queue u) = true) as Hlong by (by apply Z.ltb_lt).
      pose proof (rd_out _ _ _ _ _ _ _ _ _ _ _ _ Hdel Hlong) as [_ _ D2 _ D4 D5 _]. by apply Hres.
    + unfold cmd_out_data. destruct Hx as [[Hx Hni] | Hx]; [unfold cmd_out_data in Hni; lia |]. fold ds in Hx.
      destruct Hda as [Hda | Hda]; lia.
  - intros b Hb. cbn in Hb. apply list_elem_of_fmap in Hb as (d & -> & Hd0). apply list_elem_of_lookup in Hd0 as [i Hi].
    destruct (descriptor_block i d Hi) as (b & m & p & _ & _ & Es & Ea & [_ _ D2 _ D4 D5 _]). cbn. rewrite Es, Ea. by apply Hres.
Qed.

(** What the host finds when the DSP has answered. *)
Lemma exchange hs malloc h :
  target device rq h → rq_n_buffers rq ≤ MAX_STACK_BUFFERS ∨ malloc = true → behaved h → mem_ok loc → mem_ok (pm s) →
  ∃ D, xrp_device_dispatch run run_command hs malloc seen device = Some (hr_status (handled h), D, 1%nat) ∧
    let m2 := host_after map written D in
    xrp_cmd_complete m2 comm = true ∧
    ∃ rq', xrp_complete_hw_request m2 comm rq = (if decide (hr_status (handled h) = XRP_STATUS_SUCCESS) then 0 else - ENXIO, rq') ∧
      (q_out_data_size (u_queue u) ≤ 16 → take (Z.to_nat (q_out_data_size (u_queue u))) (rq_out_data rq') =
         load_bytes (hr_mem (handled h)) (cmd_out_data (d_dsp_cmd device)) (Z.to_nat (q_out_data_size (u_queue u)))) ∧
      (if many (n_buffers u) then load_dsp_buffers m2 (rq_dsp_buffer_phys rq) (n_buffers u) else rq_dsp_buffer rq') =
         zip_with reported (rq_dsp_buffer rq) (g_buffer (hr_group (handled h))) ∧
      (∀ p n, 0 < n → one_range map p n → (∀ x, p ≤ x < p + n → S x) →
         load_bytes m2 p (Z.to_nat n) = load_bytes (hr_mem (handled h)) (xrp_translate_to_dsp map p) (Z.to_nat n)).
Proof.
  intros Ht Hmal Hh Hl Hm. pose proof command_seen as Hca. pose proof n_descs as El.
  destruct (command_answer run run_command hs malloc seen device rq map h Hca Ht Hmal (handler_keeps h Hh Hl Hm))
    as (D & Ed & Hframe & Hc & _ & Hrq). exists D. split; [done |]. cbv zeta.
  fold args (handled h) in *. set (m2 := host_after map written D). set (cmd := d_dsp_cmd device) in *.
  assert (∀ i, 0 ≤ i < sizeof_dsp_cmd → m2 (comm + i) = D (cmd + i)) as Hcomm.
  { intros i Hi. unfold m2, cmd. rewrite (pl_cmd Hpl). by apply (after_byte map Hmap Hdst _ _ _ sizeof_dsp_cmd); [apply Hpl |]. }
  rewrite (cmd_complete_shift m2 D comm cmd Hcomm), (complete_shift m2 D comm cmd Hcomm rq Hok). split; [done |].
  destruct (xrp_complete_hw_request D cmd rq) as [ret rq']. destruct Hrq as (-> & Ho & Hb). rewrite Hq in Ho. exists rq'. split_and!; [done | done | |].
  - rewrite <- Hb. destruct (many (n_buffers u)) eqn:Hmany.
    + apply many_spec in Hmany. rewrite decide_False by lia. destruct (descs_block ltac:(lia)) as (Hdd & Edd & _). fold cmd in Edd. rewrite Edd.
      replace (length (rq_dsp_buffer rq)) with (n_buffers u) by lia. apply load_dsp_buffers_shift. intros i Hi.
      apply (after_byte map Hmap Hdst _ _ _ (12 * rq_n_buffers rq)); [rewrite <- El; apply Hdd | lia].
    + rewrite decide_True; [done |]. destruct (decide (1 < n_buffers u)%nat) as [Hx | Hx]; [apply many_spec in Hx; congruence | lia].
  - intros p n Hn0 Hr HS. unfold m2. rewrite after_block by done. apply load_bytes_ext. intros x Hx.
    pose proof (block_apart_cmd p n Hn0 Hr HS) as Hac. pose proof (block_apart_descs p n Hn0 Hr HS) as Had. cbv zeta in Had.
    fold cmd in Hac, Had. unfold sizeof_dsp_cmd in Hac. apply Hframe; lia.
Qed.

(** What the handler finds. *)
Lemma handler_input : load_bytes seen (in_data args) (Z.to_nat (q_in_data_size (u_queue u))) =
  if long_in (u_queue u) then
    user_bytes s0 (q_in_data_addr (u_queue u)) (q_in_data_size (u_queue u)) (rq_in_data_phys rq) (m_in_data ms)
  else take (Z.to_nat (q_in_data_size (u_queue u))) (rq_in_data rq).
Proof.
  unfold args, host_args. cbn [in_data]. rewrite Hq. change (16 <? q_in_data_size (u_queue u)) with (long_in (u_queue u)).
  destruct (long_in (u_queue u)) eqn:Hlong.
  - pose proof (rd_in _ _ _ _ _ _ _ _ _ _ _ _ Hdel Hlong) as [_ _ D2 _ D4 D5 D6]. rewrite <- D6 by done.
    apply seen_block; [lia | done |]. intros x Hx. by apply safe_out, D5.
  - rewrite <- Hq. destruct command_seen as [_ Hms _ _]. apply (msg_in_data _ _ _ _ Hms). rewrite Hq.
    unfold long_in, XRP_DSP_CMD_INLINE_DATA_SIZE in Hlong. lia.
Qed.

Lemma handler_buffer virt size flags p m :
  delivered map pmem env S s0 s virt size flags p m → Z.land flags XRP_FLAG_READ ≠ 0 →
  load_bytes seen (xrp_translate_to_dsp map p) (Z.to_nat size) = user_bytes s0 virt size p m.
Proof.
  intros [_ _ D2 _ D4 D5 D6] Hf. rewrite <- D6 by done. apply seen_block; [lia | done |]. intros x Hx. by apply safe_out, D5.
Qed.
End exchange.

(** ** The whole path *)

Section submit_data.
Context `{Arch} `{KLibSpec} {P : Type} `{!AllocOps P} `{!AllocSpec P} `{!PoolMemory P} `{UserAccess} {Hd : Type}.
Context (run : Hd → Z → cmd_args → mem → xrp_buffer_group → handler_result).
Context (run_command : cmd_args → mem → xrp_buffer_group → option xrp_status * mem * xrp_buffer_group).
Variables (device : xrp_device Hd) (hs : mem → mem * nat) (malloc : bool) (loc : mem).
Variables (map : xrp_address_map) (pmem : Z) (env : nat → kstate P → share_env) (pa : Z → Z).

(** The address map, and memory that holds bytes and can be reached. *)
Record machine_ok (k : kstate P) : Prop := {
  mo_map : map_ok map;
  mo_end : page_ended map;
  mo_dst : dst_ok map;
  mo_bits : phys_bits ≤ long_bits;
  mo_bytes : mem_ok loc ∧ mem_ok (um (k_mems k)) ∧ mem_ok (pm (k_mems k));
  mo_access : accessible;
}.

(** The kernel keeps its promises for the blocks of the request. *)
Record kernel_ok (k : kstate P) (u : user_request) (kaddr comm : Z) : Prop := {
  ko_pools : alloc_inv (k_own k) ∧ alloc_inv (k_other k);
  ko_blocks : ∃ blk, data_good map pmem env (private_bytes pa comm kaddr u) blk k ∧ request_blocks blk u;
  ko_good : kernel_good env k (n_buffers u) kaddr;
  ko_mem : many (n_buffers u) = true →
    kernel_mem map pa (private_bytes pa comm kaddr u) kaddr (12 * Z.of_nat (n_buffers u));
}.

(** The handler of the namespace the user names. *)
Definition user_target (u : user_request) (h : option (Hd * Z)) : Prop :=
  if decide (q_flags (u_queue u) = XRP_QUEUE_FLAG_NSID)
  then ∃ hc l, h = Some hc ∧ u_nsid u = Some l ∧ lookup_handler device l = Some (Some hc)
  else h = None.

(** The DSP dispatches what it sees; the host sees what it leaves, and the
    wait ends well when the command is complete. *)
Definition dsp_answers (c : submit_cfg) (d : dsp_run) : Prop :=
  ∀ m st D n, xrp_device_dispatch run run_command hs malloc (dsp_view map loc m) device = Some (st, D, n) →
    dr_after d m = host_after map m D ∧
    (xrp_cmd_complete (host_after map m D) (sc_comm c) = true →
     (if sc_host_irq_mode c then xvp_complete_cmd_irq (sc_comm c) (dr_waits d m)
      else xvp_complete_cmd_poll (sc_comm c) (dr_polls d m)) = Some 0).

Record dsp_ok (c : submit_cfg) (d : dsp_run) (u : user_request) (kaddr : Z) (h : option (Hd * Z)) : Prop := {
  do_io : sc_loopback c < LOOPBACK_NOIO ∧ sc_off c = false;
  do_placed : placed device map pa (sc_comm c) kaddr u;
  do_target : user_target u h;
  do_behaved : behaved run run_command h;
  do_room : Z.of_nat (n_buffers u) ≤ MAX_STACK_BUFFERS ∨ malloc = true;
  do_answers : dsp_answers c d;
}.

Lemma target_of u stk rq h : user_ok u → stack_ok stk → request_of u stk rq → user_target u h → target device rq h.
Proof.
  intros Hu Hs Hr Ht. unfold user_target, target in *. rewrite (ro_queue _ _ _ Hr). case_decide as Hf; [| done].
  destruct Ht as (hc & l & -> & El & Hl). exists hc. split; [done |]. rewrite (ro_nsid _ _ _ Hr), Hf, El. cbn.
  destruct (uo_nsid _ Hu l El) as [E16 _]. destruct (so_nsid _ Hs) as [Es _]. by rewrite E16, drop_ge, app_nil_r by lia.
Qed.

(** The command completes with the DSP's answer. *)
Lemma run_command_answers c d rq m D st ret rq' :
  dsp_answers c d → sc_off c = false →
  let m1 := apply_writes m (xrp_fill_hw_request (sc_comm c) rq map) in
  xrp_device_dispatch run run_command hs malloc (dsp_view map loc m1) device = Some (st, D, 1%nat) →
  xrp_cmd_complete (host_after map m1 D) (sc_comm c) = true →
  xrp_complete_hw_request (host_after map m1 D) (sc_comm c) rq = (ret, rq') →
  Submit.run_command map c d rq m = Some (ret, false, rq', host_after map m1 D).
Proof.
  intros Hans Hon m1 Ed Hc Ec. destruct (Hans m1 st D 1%nat Ed) as [Ea Hw]. unfold Submit.run_command. rewrite Hon. fold m1.
  rewrite (Hw Hc). cbn [mbind option_bind]. rewrite Ea, Ec. done.
Qed.

(** Where a block the DSP uses in place is. *)
Definition lies (virt size p : Z) (m : xrp_mapping) : Prop := ∃ i k, lies_at map pmem (env i k) virt size p m.

(** What the handler and the user find, for a request that was mapped. *)
Record handled_request (u : user_request) (s0 s' : mems) (rq : xrp_request) (ms : rq_maps) (M : mem) (r : handler_result) : Prop := {
  hd_in_place : long_in (u_queue u) = true →
    lies (q_in_data_addr (u_queue u)) (q_in_data_size (u_queue u)) (rq_in_data_phys rq) (m_in_data ms);
  hd_out_place : long_out (u_queue u) = true →
    lies (q_out_data_addr (u_queue u)) (q_out_data_size (u_queue u)) (rq_out_data_phys rq) (m_out_data ms);
  hd_input : load_bytes M (in_data (args device map rq)) (Z.to_nat (q_in_data_size (u_queue u))) =
    if long_in (u_queue u) then
      user_bytes s0 (q_in_data_addr (u_queue u)) (q_in_data_size (u_queue u)) (rq_in_data_phys rq) (m_in_data ms)
    else default [] (u_in_data u);
  hd_output : hr_status r = XRP_STATUS_SUCCESS →
    (if long_out (u_queue u) then
       user_bytes s' (q_out_data_addr (u_queue u)) (q_out_data_size (u_queue u)) (rq_out_data_phys rq) (m_out_data ms)
     else load_bytes (um s') (q_out_data_addr (u_queue u)) (Z.to_nat (q_out_data_size (u_queue u)))) =
    load_bytes (hr_mem r) (out_data (args device map rq)) (Z.to_nat (q_out_data_size (u_queue u)));
  hd_buffer i d b : rq_dsp_buffer rq !! i = Some d → g_buffer (hr_group r) !! i = Some b →
    ∃ ub m p, u_buffers u !! i = Some (Some ub) ∧ m_buffer ms !! i = Some m ∧
      db_size d = ib_size ub ∧ db_addr d = xrp_translate_to_dsp map p ∧ lies (ib_addr ub) (ib_size ub) p m ∧
      (Z.land (ib_flags ub) XRP_FLAG_READ ≠ 0 →
         load_bytes M (db_addr d) (Z.to_nat (db_size d)) = user_bytes s0 (ib_addr ub) (ib_size ub) p m) ∧
      (hr_status r = XRP_STATUS_SUCCESS → Z.land (report_flags b) XRP_FLAG_WRITE ≠ 0 →
         user_bytes s' (ib_addr ub) (ib_size ub) p m = load_bytes (hr_mem r) (db_addr d) (Z.to_nat (db_size d)));
}.

Lemma inline_input u stk rq :
  user_ok u → request_of u stk rq → long_in (u_queue u) = false →
  take (Z.to_nat (q_in_data_size (u_queue u))) (rq_in_data rq) = default [] (u_in_data u).
Proof.
  intros Hu Hro Hl. destruct (ro_in _ _ _ Hro Hl) as (l & El & ->). rewrite El. cbn.
  destruct (uo_in _ Hu l El Hl) as [Hlen _]. apply take_app_length'. lia.
Qed.

(** The user's side, from the way the memory was given back. *)
Lemma handled_intro S u stk kaddr comm (k k1 : kstate P) s' rq rq' ms h m2 :
  let M := seen map loc comm (k_mems k1) rq in
  let r := handled run run_command device map loc comm (k_mems k1) rq h in
  let fl := zip_with reported (rq_dsp_buffer rq) (g_buffer (hr_group r)) in
  map_ok map → dst_ok map → user_ok u → stack_ok stk → request_of u stk rq → placed device map pa comm kaddr u →
  request_delivered map pmem env pa (private_bytes pa comm kaddr u) S (k_mems k) (k_mems k1) u kaddr rq ms → request_ok rq →
  (hr_status r = XRP_STATUS_SUCCESS →
     pm s' = m2 ∧ request_returned map pmem env S (k_mems k) (k_mems k1) u rq rq' ms fl s' ∧
     (q_out_data_size (u_queue u) ≤ 16 → take (Z.to_nat (q_out_data_size (u_queue u))) (rq_out_data rq') =
        load_bytes (hr_mem r) (cmd_out_data (d_dsp_cmd device)) (Z.to_nat (q_out_data_size (u_queue u)))) ∧
     (∀ p n, 0 < n → one_range map p n → (∀ x, p ≤ x < p + n → S x) →
        load_bytes m2 p (Z.to_nat n) = load_bytes (hr_mem r) (xrp_translate_to_dsp map p) (Z.to_nat n))) →
  handled_request u (k_mems k) s' rq ms M r.
Proof.
  intros M r fl Hmap Hdst Hu Hstk Hro Hpl Hdel Hrok Hback.
  pose proof (ro_queue _ _ _ Hro) as Hq. pose proof (ro_n _ _ _ Hro) as Hn.
  assert (∀ b, Some b ∈ u_buffers u → Z.land (ib_flags b) XRP_FLAG_READ_WRITE ≠ 0) as Hrw by (intros b Hb; apply (uo_buffer _ Hu b Hb)).
  split.
  - intros Hl. apply (dl_place _ _ _ _ _ _ _ _ _ _ _ (rd_in _ _ _ _ _ _ _ _ _ _ _ _ Hdel Hl)).
  - intros Hl. apply (dl_place _ _ _ _ _ _ _ _ _ _ _ (rd_out _ _ _ _ _ _ _ _ _ _ _ _ Hdel Hl)).
  - unfold M. rewrite (handler_input device map pmem env pa loc Hmap Hdst comm kaddr u Hpl S (k_mems k) (k_mems k1) rq ms Hrok Hn Hdel Hq).
    destruct (long_in (u_queue u)) eqn:Hl; [done | by eapply inline_input].
  - intros Hs. destruct (Hback Hs) as (<- & Hret & Hinl & Hblocks). unfold args, host_args. cbn [out_data]. rewrite Hq.
    change (16 <? q_out_data_size (u_queue u)) with (long_out (u_queue u)). destruct (long_out (u_queue u)) eqn:Hl.
    + rewrite (rr_out _ _ _ _ _ _ _ _ _ _ _ _ Hret Hl). pose proof (rd_out _ _ _ _ _ _ _ _ _ _ _ _ Hdel Hl) as [_ _ D2 _ D4 D5 _]. by apply Hblocks.
    + rewrite (rr_inline _ _ _ _ _ _ _ _ _ _ _ _ Hret Hl). apply Hinl. unfold long_out, XRP_DSP_CMD_INLINE_DATA_SIZE in Hl. lia.
  - intros i d b Hi Hb.
    destruct (descriptor_block map pmem env pa comm kaddr u S (k_mems k) (k_mems k1) rq ms Hdel Hrw i d Hi) as (ub & m & p & Hub & Hm & Es & Ea & Hd0).
    exists ub, m, p. split_and!; [done | done | done | done | apply Hd0 | |].
    + intros Hf. rewrite Es, Ea. by eapply (handler_buffer map pmem env pa loc Hmap Hdst comm kaddr u).
    + intros Hs Hw. destruct (Hback Hs) as (<- & Hret & _ & Hblocks).
      rewrite (rr_buffer _ _ _ _ _ _ _ _ _ _ _ _ Hret i ub m (reported d b) p); [| done | done | | done | done].
      * rewrite Es, Ea. destruct Hd0 as [_ _ D2 _ D4 D5 _]. by apply Hblocks.
      * unfold fl. apply lookup_zip_with_Some. by exists d, b.
Qed.

(** C1: a command submitted from user space, on a machine as the driver
    expects it.  [machine_ok], [user_ok], [user_apart] and [kernel_ok]: user
    memory is accessible, the ranges of the address map end at page
    boundaries, the flags are valid and every buffer has an access, blocks are
    not empty and apart from each other, the kernel keeps its promises and the
    kzalloc of the buffer mappings succeeds.  [dsp_ok]: the device is on, the
    namespace the user names is registered with a handler that keeps to its
    buffers, and the DSP answers.  The uninitialised mappings on the stack
    happen to hold no reference.  Then either mapping the request fails and
    the call returns its error, or the DSP runs the handler the user named:
    the handler finds the user's input data and, in every buffer it may read,
    the user's contents; when it succeeds the call returns zero, and the user
    finds the handler's output data and, in every buffer the DSP reports
    written, what the handler left there, whether the memory was used in place
    - the area of the driver or the pages behind the user's addresses - or
    copied; when it fails the call returns [-ENXIO].  Either way every
    reference to pools and pages is given back. *)
Theorem submit_sync_delivers c d db k u kaddr junk ms0 stk h :
  machine_ok k → user_ok u → user_apart u kaddr → stack_ok stk → kernel_ok k u kaddr (sc_comm c) → dsp_ok c d u kaddr h →
  clean (m_in_data ms0) → clean (m_out_data ms0) → clean (m_dsp_buffer ms0) → clean (XRP_MAPPING_KERNEL_ALIEN junk) →
  ∃ ret k', xrp_ioctl_submit_sync map pmem env pa c d true db k (Some u) kaddr junk ms0 stk = Some (ret, false, k') ∧
    balanced k k' ∧
    ∃ rc rq ms k1, xrp_map_request map pmem env pa true db k u kaddr junk ms0 stk = Some (rc, rq, ms, k1) ∧
      if rc <? 0 then ret = rc
      else
        let M := seen map loc (sc_comm c) (k_mems k1) rq in
        let r := handled run run_command device map loc (sc_comm c) (k_mems k1) rq h in
        ret = (if decide (hr_status r = XRP_STATUS_SUCCESS) then 0 else - ENXIO) ∧
        handled_request u (k_mems k) (k_mems k') rq ms M r.
Proof.
  intros [Hmap Hend Hdst Hbits (Hloc & Hum & Hpm) Hacc] Hu Hap Hstk [[I1 I2] (blk & Hdg & Hblk) Hker Hkm]
    [[Hio Hon] Hpl Hut Hbeh Hroom Hans] Ci Co Cd Cj.
  unfold xrp_ioctl_submit_sync.
  replace (negb (Z.land (q_flags (u_queue u)) (u32 (Z.lnot XRP_QUEUE_VALID_FLAGS)) =? 0)) with false
    by (by destruct (uo_flags _ Hu) as [-> | ->]).
  destruct (map_request_acct map pmem env pa Hmap Hend blk db k u kaddr junk ms0 stk) as (rc & rq & ms & k1 & Em & En & Hr);
    [done | done | by eapply dg_env | done.. |].
  rewrite Em. cbn [mbind option_bind]. destruct (Z.ltb_spec rc 0) as [Hneg | Hpos].
  { eexists _, _. split; [done |]. split; [by apply acct_balanced |]. exists rc, rq, ms, k1. split; [done |].
    by rewrite (proj2 (Z.ltb_lt _ _) Hneg). }
  destruct (map_request_delivers map pmem env pa Hmap Hend Hbits _ blk db k u kaddr junk ms0 stk rc rq ms k1 Hdg I1 I2 Hblk Hker Hkm Em Hpos)
    as (-> & Hro & S & Hdel).
  destruct Hr as (A & W & L & Dl). pose proof (mapped_request_ok map pmem env pa _ S _ _ u stk kaddr rq ms Hu Hstk Hro Hdel) as Hrok.
  destruct (exchange run run_command device map pmem env pa loc Hmap Hdst (sc_comm c) kaddr u Hpl S (k_mems k) (k_mems k1) rq ms Hrok En Hdel
    (ro_queue _ _ _ Hro) (λ b Hb, proj2 (proj2 (uo_buffer _ Hu b Hb))) hs malloc h)
    as (D & Ed & Hc & rq' & Ec & Hout & Hfl & Hblocks);
    [by eapply target_of | by rewrite En | done | done | by apply (rd_ok _ _ _ _ _ _ _ _ _ _ _ _ Hdel) |].
  rewrite (proj2 (Z.ltb_lt _ _) Hio).
  set (r := handled run run_command device map loc (sc_comm c) (k_mems k1) rq h) in *.
  set (m2 := host_after map (written map (sc_comm c) (k_mems k1) rq) D) in *.
  rewrite (run_command_answers c d rq (pm (k_mems k1)) D _ _ rq' Hans Hon Ed Hc Ec). cbn [mbind option_bind].
  change (host_after map (apply_writes (pm (k_mems k1)) (xrp_fill_hw_request (sc_comm c) rq map)) D) with m2.
  pose proof (complete_keeps_buffers m2 (sc_comm c) rq ltac:(lia) ltac:(lia)) as [En' El']. rewrite Ec in En', El'. cbn [snd] in En', El'.
  destruct (unmap_acct pa k u ms (set_pm k1 m2) rq') as [(k2 & E2 & B2) Hun];
    [by apply acct_mems | done | done | lia | intros _; lia |].
  pose proof (λ s' rq' Hb, handled_intro S u stk kaddr (sc_comm c) k k1 s' rq rq' ms h m2 Hmap Hdst Hu Hstk Hro Hpl Hdel Hrok Hb) as Hin.
  cbv zeta in Hin. fold r in Hin. destruct (decide (hr_status r = XRP_STATUS_SUCCESS)) as [Hs | Hs].
  - change (0 =? 0) with true. cbv iota. destruct (Hun kaddr) as (ret & k3 & E3 & B3). rewrite E3. cbn [mbind option_bind fst snd].
    destruct (unmap_request_returns map pmem env pa _ Hacc S (k_mems k) (k_mems k1) u kaddr rq rq' ms (set_pm k1 m2) ret k3 Hdel Hap)
      as (-> & Ep & Hret); [lia | intros _; lia | apply Hu | | done |].
    { intros Hl. unfold long_out, XRP_DSP_CMD_INLINE_DATA_SIZE in Hl.
      specialize (Hout ltac:(lia)). apply (f_equal length) in Hout. rewrite length_take, length_load_bytes in Hout. lia. }
    eexists _, _. split; [done |]. split; [done |]. exists 0, rq, ms, k1. split; [done |]. split; [by rewrite decide_True |].
    apply (Hin _ rq'). intros _. split_and!; [exact Ep | | done | done].
    rewrite <- Hfl. exact Hret.
  - change (- ENXIO =? 0) with false. cbv iota. rewrite E2. cbn [mbind option_bind]. eexists _, _. split; [done |]. split; [done |].
    exists 0, rq, ms, k1. split; [done |]. split; [by rewrite decide_False |]. apply (Hin _ rq'). done.
Qed.
End submit_data.
