(* ===== verification/SubmitDataExamples.v ===== *)
(** * A concrete command from user space to a handler and back

    One request with every kind of block: input data and a buffer the DSP
    uses in place, output data and a buffer that are copied, and an array of
    descriptors outside the address map. *)

From stdpp Require Import base tactics list gmap numbers.
From S2P Require Import Prelude Mem Interface Alloc PrivateAlloc AddressMap Request PageMap Shadow Share.
From S2P Require Import MapRequest Submit RequestData RequestReturn DspNs DspBuffer DspCmd Roundtrip Bus SubmitData.

Module SubmitDataExamples.
Import RefLib RequestMapExamples NsExamples.
#[local] Existing Instance arch32.
#[local] Existing Instance ShadowExamples.all_access.

(** ** The machine *)

(** The pool is at the start of the range, the command area after it, and
    then eight pages of the user; other pages are out of reach. *)
Definition amap : xrp_address_map := [mk_entry 0x10000000 0 0x40000].
Definition comm : Z := 0x1001f000.
Definition kaddr : Z := 0xc0000000.
Definition frame (pg : Z) : Z := if pg mod 16 <? 8 then 0x10020 + pg mod 16 else 0x50000 + pg mod 16.
Definition table1 (a : Z) : result Z := Ok (frame (Z.shiftr a PAGE_SHIFT)).
Definition gup1 (a n : Z) : result (list Z) :=
  if 0 <=? n then Ok (map (λ k, frame (Z.shiftr a PAGE_SHIFT + Z.of_nat k)) (seq 0 (Z.to_nat n))) else Err EINVAL.
Definition env1 (i : nat) (k : kstate xrp_private_pool) : share_env :=
  let e := env0 i k in mk_share_env (se_find e) (se_areas e) table1 true gup1 (se_kz1 e) (se_kz2 e).
Definition k1 : kstate xrp_private_pool := mk_k Examples.st0 Examples.st0 (λ _, 0) (mk_mems (λ x, x mod 256) (λ x, x mod 251)).

Lemma frame_range pg : 0x10020 ≤ frame pg < 0x10028 ∨ 0x50008 ≤ frame pg < 0x50010.
Proof. unfold frame. pose proof (Z.mod_pos_bound pg 16 ltac:(lia)). destruct (Z.ltb_spec (pg mod 16) 8); lia. Qed.

Lemma table1_ok : page_table_ok table1.
Proof.
  split; [intros a b E; unfold table1; by rewrite E |]. intros a p [= <-]. pose proof (frame_range (Z.shiftr a PAGE_SHIFT)).
  change (2 ^ (phys_bits - PAGE_SHIFT)) with 0x100000. lia.
Qed.

Lemma gup1_ok : gup_ok table1 gup1.
Proof.
  intros a n l. unfold gup1. destruct (Z.leb_spec 0 n); [| done]. intros [= <-]. rewrite length_map, length_seq. split; [lia |].
  intros k p Hk. apply list_lookup_fmap_Some in Hk as (i & -> & [-> ?]%lookup_seq). unfold table1. do 2 f_equal.
  rewrite !page_shiftr, page_shiftl, Z.div_add by (unfold PAGE_SIZE; lia). lia.
Qed.

Lemma amap_ok : map_ok amap.
Proof. split; [| repeat constructor]. repeat constructor; vm_compute; congruence. Qed.
Lemma amap_dst_ok : dst_ok amap.
Proof.
  split; [repeat constructor; vm_compute; congruence |]. by intros d a b ->%list_elem_of_singleton ->%list_elem_of_singleton.
Qed.

Lemma machine1_ok : machine_ok (λ _, 0) amap k1.
Proof.
  split; [apply amap_ok | by repeat constructor | apply amap_dst_ok | done | | done].
  split_and!; intros x; cbn; [lia | apply Z.mod_pos_bound; lia | pose proof (Z.mod_pos_bound x 251 ltac:(lia)); lia].
Qed.

(** ** The request *)

Definition buf0 := mk_ioctl_buffer 3 0x800 0x4f00.
Definition buf1 := mk_ioctl_buffer 2 0x100 0x8800.
Definition user1 : user_request :=
  mk_user {| q_flags := 4; q_in_data_size := 32; q_out_data_size := 32; q_buffer_size := 32;
             q_in_data_addr := 0x2000; q_out_data_addr := 0x8100; q_buffer_addr := 0x2200; q_nsid_addr := 0x2300 |}
    (Some (id_of 3)) None (λ i, Some (match i with O => buf0 | _ => buf1 end)).

Lemma buffers1 : u_buffers user1 = [Some buf0; Some buf1].
Proof. reflexivity. Qed.

Lemma user1_ok : user_ok user1.
Proof.
  split; try (cbn; lia); [by right | |].
  - intros l [= <-]. split; [done |]. repeat constructor; lia.
  - intros b. rewrite buffers1, !elem_of_cons, elem_of_nil. intros [[= ->] | [[= ->] | []]]; by vm_compute.
Qed.

Lemma user1_apart : user_apart user1 kaddr.
Proof.
  assert (∀ i b, u_buffers user1 !! i = Some (Some b) → (i, b) = (0%nat, buf0) ∨ (i, b) = (1%nat, buf1)) as Hc.
  { rewrite buffers1. intros [| [| i]] b; cbn; [intros [= <-]; by left | intros [= <-]; by right | done]. }
  split.
  - intros i b Hb _. unfold apart. destruct (Hc i b Hb) as [[= -> ->] | [= -> ->]]; cbn; lia.
  - intros i j b c Hne Hb Hc' _ _. unfold apart.
    destruct (Hc i b Hb) as [[= -> ->] | [= -> ->]], (Hc j c Hc') as [[= -> ->] | [= -> ->]]; cbn; lia.
  - cbn. unfold kaddr. lia.
  - intros i b Hb _. unfold kaddr. destruct (Hc i b Hb) as [[= -> ->] | [= -> ->]]; cbn; lia.
Qed.

Lemma stack0_ok : stack_ok stack0.
Proof. split; [split; [done |]; repeat constructor; lia | done | split; [done |]; repeat constructor; lia]. Qed.

(** ** The kernel *)

Definition blk1 (v sz : Z) : Prop := blk0 v sz.

Lemma env1_ok i k v sz : blk1 v sz → env_ok k (env1 i k) v sz.
Proof.
  intros [Hb Hr]. split; [done | | apply (find0_ok i k) | apply table1_ok | apply gup1_ok | apply env0_kz | done |].
  - split; [repeat constructor; cbn; lia |]. by intros a b ->%list_elem_of_singleton ->%list_elem_of_singleton.
  - intros ar. cbn. unfold find0. destruct (_ <? _); [by intros [= <-] | done].
Qed.

Abbreviation private1 := (private_bytes (λ v, v) comm kaddr user1).

Lemma pool1_bytes x : pool_mem (st_pool (k_own k1)) x ↔ 0x10000000 ≤ x < 0x10010000.
Proof.
  cbn. destruct (in_block_spec x (region Examples.pool0)) as [Hx | Hx]; cbn in Hx; unfold a_end in Hx; cbn in Hx; split; try done; lia.
Qed.

Lemma private1_bytes x : private1 x → 0x1001f000 ≤ x < 0x10020000 ∨ 0xc0000000 ≤ x.
Proof. unfold private_bytes, comm, kaddr, sizeof_dsp_cmd. cbn. lia. Qed.

Lemma data1_good : data_good amap 0 env1 private1 blk1 k1.
Proof.
  split.
  - intros i ms k v sz Hb _ _. by apply env1_ok.
  - intros i k v sz _. split.
    + intros x y _ [= <-]. pose proof (frame_range (Z.shiftr x PAGE_SHIFT)) as Hf.
      pose proof (Z.mod_pos_bound x PAGE_SIZE ltac:(done)) as Hm. unfold PAGE_SIZE in *. split.
      * left. rewrite pool1_bytes. lia.
      * intros Hp%private1_bytes. lia.
    + intros ar own p. cbn. unfold find0. destruct (_ <? _); [by intros [= <-] | done].
  - exists (mk_entry 0x10000000 0 0x40000). split; [by left |]. intros x Hx%pool1_bytes. unfold covers. cbn. lia.
  - intros x Hx%private1_bytes Hp%pool1_bytes. lia.
Qed.

Lemma kernel1_ok : kernel_ok amap 0 env1 (λ v, v) k1 user1 kaddr comm.
Proof.
  split.
  - split; apply Examples.st0_inv.
  - exists blk1. split; [apply data1_good |]. split_and!; [intros _; by apply blk0_dec | intros _; by apply blk0_dec |].
    intros b. rewrite buffers1, !elem_of_cons, elem_of_nil. intros [[= ->] | [[= ->] | []]] _; by apply blk0_dec.
  - split; [split; [done | by apply (bool_decide_unpack _)] |]. intros ms k _. apply env0_kz.
  - intros _. split; [done | done | | by intros []].
    intros x Hx. right. split; [done | exact Hx].
Qed.

(** ** The DSP *)

Definition dev1 : xrp_device nat := mk_device 0 0x1f000 (n_cmd_ns dev2) (cmd_ns dev2).

(** A handler that fills its output with its context and the second buffer
    with nines. *)
Definition second (g : xrp_buffer_group) : Z * Z := from_option (λ b, (b_ptr b, b_size b)) (0, 0) (g_buffer g !! 1%nat).
Definition fills (h : nat) (ctx : Z) (a : cmd_args) (m : mem) (g : xrp_buffer_group) : handler_result :=
  let '(p, n) := second g in
  mk_hres XRP_STATUS_SUCCESS
    (store_bytes (store_bytes m (out_data a) (replicate (Z.to_nat (out_data_size a)) (ctx mod 256))) p (replicate (Z.to_nat n) 9))
    (group_run g [CallMap 1 0 n XRP_WRITE]).

Lemma fills_behaved hc : behaved fills xrp_run_command_default (Some hc).
Proof.
  destruct hc as [h ctx]. intros a m g Hm. unfold run_handler, fills. destruct (second g) as [p n] eqn:Es. cbn [hr_mem hr_group].
  split_and!; [| by eexists |].
  - repeat apply mem_ok_store_bytes; [done | |]; apply Forall_replicate; [apply Z.mod_pos_bound; lia | lia].
  - intros x Ho Hb. rewrite !store_bytes_out; [done | rewrite length_replicate; lia |]. rewrite length_replicate.
    unfold second in Es. destruct (g_buffer g !! 1%nat) as [b |] eqn:Eb; cbn in Es; injection Es as <- <-; [| lia].
    specialize (Hb b ltac:(by eapply list_elem_of_lookup_2)). lia.
Qed.

Definition hs1 (m : mem) : mem * nat := (m, 0%nat).
Definition after1 (m : mem) : mem :=
  match xrp_device_dispatch fills xrp_run_command_default hs1 true (dsp_view amap (λ _, 0) m) dev1 with
  | Some (_, D, _) => host_after amap m D
  | None => m
  end.
Definition cfg1 : submit_cfg := mk_submit_cfg 0 false true true comm.
Definition run1 : dsp_run := mk_dsp_run (λ m, [(10, after1 m)]) (λ m, [(after1 m, true)]) after1 (0, false).

Lemma dsp1_ok : dsp_ok fills xrp_run_command_default dev1 hs1 true (λ _, 0) amap (λ v, v) cfg1 run1 user1 kaddr (Some (30%nat, 2)).
Proof.
  split.
  - done.
  - split; [reflexivity | | intros _; left; by vm_compute].
    exists (mk_entry 0x10000000 0 0x40000). split; [by left |]. intros j Hj. change (sc_comm cfg1) with 0x1001f000. unfold covers, sizeof_dsp_cmd in *. cbn. lia.
  - exists (30%nat, 2), (id_of 3). done.
  - apply fills_behaved.
  - by right.
  - intros m st D n E. assert (after1 m = host_after amap m D) as Ea by (unfold after1; by rewrite E).
    split; [exact Ea |]. intros Hc. change (sc_comm cfg1) with comm in *. cbn. rewrite Ea. by rewrite Hc.
Qed.

(** ** The command *)

Lemma submit_sync_delivers_witness :
  ∃ ret k', xrp_ioctl_submit_sync amap 0 env1 (λ v, v) cfg1 run1 true true k1 (Some user1) kaddr zero_alien zeroed stack0 =
      Some (ret, false, k') ∧
    balanced k1 k' ∧
    ∃ rc rq ms k2, xrp_map_request amap 0 env1 (λ v, v) true true k1 user1 kaddr zero_alien zeroed stack0 = Some (rc, rq, ms, k2) ∧
      if rc <? 0 then ret = rc
      else
        let M := seen amap (λ _, 0) comm (k_mems k2) rq in
        let r := handled fills xrp_run_command_default dev1 amap (λ _, 0) comm (k_mems k2) rq (Some (30%nat, 2)) in
        ret = (if decide (hr_status r = XRP_STATUS_SUCCESS) then 0 else - ENXIO) ∧
        handled_request dev1 amap 0 env1 user1 (k_mems k1) (k_mems k') rq ms M r.
Proof.
  apply (submit_sync_delivers fills xrp_run_command_default dev1 hs1 true (λ _, 0) amap 0 env1 (λ v, v) cfg1 run1 true k1 user1 kaddr
    zero_alien zeroed stack0 (Some (30%nat, 2)) machine1_ok user1_ok user1_apart stack0_ok kernel1_ok dsp1_ok); by split_and!.
Defined.

(** The request is mapped with one share of each kind, and the user finds
    the handler's bytes in the output data and the second buffer. *)
Example submit1_value :
  (λ x : Z * bool * kstate xrp_private_pool,
     (x.1.1, load_bytes (um (k_mems x.2)) 0x80fe 6, load_bytes (um (k_mems x.2)) 0x88fe 4)) <$>
    xrp_ioctl_submit_sync amap 0 env1 (λ v, v) cfg1 run1 true true k1 (Some user1) kaddr zero_alien zeroed stack0 =
  Some (0, [0xfe; 0xff; 2; 2; 2; 2], [9; 9; 0; 1]).
Proof. vm_compute. reflexivity. Qed.

Example map1_value :
  (λ x, (x.1.1.1, is_copy <$> [m_in_data x.1.2; m_out_data x.1.2], is_copy <$> m_buffer x.1.2, is_copy (m_dsp_buffer x.1.2))) <$>
    xrp_map_request amap 0 env1 (λ v, v) true true k1 user1 kaddr zero_alien zeroed stack0 =
  Some (0, [false; true], [false; true], true).
Proof. vm_compute. reflexivity. Qed.
End SubmitDataExamples.
