(* ===== verification/HwSimple.v ===== *)
(** * The simple hardware back end

    Host side (xrp-kernel/xrp_hw_simple.c): device registers, interrupts to
    the DSP, the configuration sent at synchronisation, and the reading of
    the device tree.  DSP side (xrp-dsp/xrp_dsp_hw_simple.c): the same
    configuration received, and interrupts to the host.  Both sides share
    xrp-kernel/xrp_hw_simple_dsp_interface.h. *)

From stdpp Require Import base tactics list numbers.
From S2P Require Import Prelude Mem Interface.

(** ** Shared configuration record *)

Definition XRP_DSP_SYNC_IRQ_MODE_NONE := 0x0.
Definition XRP_DSP_SYNC_IRQ_MODE_LEVEL := 0x1.
Definition XRP_DSP_SYNC_IRQ_MODE_EDGE := 0x2.

Record xrp_hw_simple_sync_data := {
  sd_device_mmio_base : Z;
  sd_host_irq_mode : Z;
  sd_host_irq_offset : Z;
  sd_host_irq_bit : Z;
  sd_device_irq_mode : Z;
  sd_device_irq_offset : Z;
  sd_device_irq_bit : Z;
  sd_device_irq : Z;
}.

Definition sync_data_words (d : xrp_hw_simple_sync_data) : list Z :=
  [sd_device_mmio_base d; sd_host_irq_mode d; sd_host_irq_offset d; sd_host_irq_bit d;
   sd_device_irq_mode d; sd_device_irq_offset d; sd_device_irq_bit d; sd_device_irq d].
Definition sync_data_bytes (d : xrp_hw_simple_sync_data) : list Z := sync_data_words d ≫= le_bytes 4.
Definition sizeof_sync_data := 32.

Definition load_sync_data (m : mem) (p : Z) : xrp_hw_simple_sync_data := {|
  sd_device_mmio_base := load32 m p;
  sd_host_irq_mode := load32 m (p + 4);
  sd_host_irq_offset := load32 m (p + 8);
  sd_host_irq_bit := load32 m (p + 12);
  sd_device_irq_mode := load32 m (p + 16);
  sd_device_irq_offset := load32 m (p + 20);
  sd_device_irq_bit := load32 m (p + 24);
  sd_device_irq := load32 m (p + 28);
|}.

(** ** Host side *)

Definition XRP_REG_RESET := 0x04.
Definition XRP_REG_RUNSTALL := 0x08.

Definition XRP_IRQ_NONE := 0.
Definition XRP_IRQ_LEVEL := 1.
Definition XRP_IRQ_EDGE := 2.
Definition XRP_IRQ_MAX := 3.

(** [hw->regs]: null, an error pointer, or a mapping. *)
Inductive io_regs := RegsNull | RegsErr | RegsMapped.

Record xrp_hw_simple := {
  regs_phys : Z;
  regs : io_regs;
  device_irq_mode : Z;
  device_irq : Z * Z * Z;
  device_irq_host_offset : Z;
  host_irq_mode : Z;
  host_irq : Z * Z;
  xrp_host_irq_mode : bool;
}.

(** One access to the registers: offset and value, or a fault. *)
Inductive mmio := MmioWrite (off v : Z) | MmioFault.

Definition reg_write32 (hw : xrp_hw_simple) (addr v : Z) : list mmio :=
  match regs hw with
  | RegsNull => []
  | RegsErr => [MmioFault]
  | RegsMapped => [MmioWrite addr (u32 v)]
  end.

(** [kmalloc] may fail; the bytes of the record otherwise. *)
Definition get_hw_sync_data (kmalloc : bool) (hw : xrp_hw_simple) : option (list Z) :=
  if kmalloc then
    Some (sync_data_bytes {|
      sd_device_mmio_base := u32 (regs_phys hw);
      sd_host_irq_mode := host_irq_mode hw;
      sd_host_irq_offset := (host_irq hw).1;
      sd_host_irq_bit := (host_irq hw).2;
      sd_device_irq_mode := device_irq_mode hw;
      sd_device_irq_offset := (device_irq hw).1.1;
      sd_device_irq_bit := (device_irq hw).1.2;
      sd_device_irq := (device_irq hw).2 |})
  else None.

Definition reset (hw : xrp_hw_simple) : list mmio :=
  reg_write32 hw XRP_REG_RESET 1 ++ reg_write32 hw XRP_REG_RESET 0.
Definition halt (hw : xrp_hw_simple) : list mmio := reg_write32 hw XRP_REG_RUNSTALL 1.
Definition release (hw : xrp_hw_simple) : list mmio := reg_write32 hw XRP_REG_RUNSTALL 0.

Definition BIT (n : Z) : Z := Z.shiftl 1 n.

Definition send_irq (hw : xrp_hw_simple) : list mmio :=
  let level := reg_write32 hw (device_irq_host_offset hw) (BIT (device_irq hw).1.2) in
  if device_irq_mode hw =? XRP_IRQ_EDGE then reg_write32 hw (device_irq_host_offset hw) 0 ++ level
  else if device_irq_mode hw =? XRP_IRQ_LEVEL then level
  else [].

Definition ack_irq (hw : xrp_hw_simple) : list mmio :=
  if host_irq_mode hw =? XRP_IRQ_LEVEL then reg_write32 hw (host_irq hw).1 0 else [].

(** The new completion counter, whether the interrupt was ours, and the
    register accesses. *)
Definition irq_handler (m : mem) (comm : option Z) (completion : nat) (hw : xrp_hw_simple)
  : nat * bool * list mmio :=
  let '(completion, handled) := xrp_irq_handler m comm completion in
  (completion, handled, if handled then ack_irq hw else []).

(** *** Device tree *)

(** What the platform answers: resources and properties ([None]: absent),
    and the contents of the two stack variables that are read even when the
    property that should set them is absent. *)
Record platform := {
  pf_resource : option Z;
  pf_ioremap : bool;
  pf_device_irq : option (Z * Z * Z);
  pf_device_irq_host_offset : option Z;
  pf_device_irq_mode : option Z;
  pf_host_irq : option (Z * Z);
  pf_host_irq_mode : option Z;
  pf_irq : Z;
  pf_request_irq : Z;
  pf_stack_device_mode : Z;
  pf_stack_host_mode : Z;
}.

(** The object comes from [devm_kzalloc]. *)
Definition hw_zero : xrp_hw_simple :=
  {| regs_phys := 0; regs := RegsNull; device_irq_mode := 0; device_irq := (0, 0, 0);
     device_irq_host_offset := 0; host_irq_mode := 0; host_irq := (0, 0);
     xrp_host_irq_mode := false |}.

(** An interrupt mode as [init_hw] reads it: the mode to store, if any, and
    whether the read succeeded. *)
Definition read_irq_mode (prop : option Z) (stack : Z) : option Z * bool :=
  let v := default stack prop in
  if v <? XRP_IRQ_MAX then (Some v, bool_decide (is_Some prop)) else (None, false).

(** The two halves of [init_hw]. *)
Definition init_device_irq (p : platform) (hw : xrp_hw_simple) : xrp_hw_simple :=
  match pf_device_irq p with
  | None => hw
  | Some irq =>
      let '(mode, _) := read_irq_mode (pf_device_irq_mode p) (pf_stack_device_mode p) in
      {| regs_phys := regs_phys hw; regs := regs hw;
         device_irq_mode := default (device_irq_mode hw) mode; device_irq := irq;
         device_irq_host_offset := default irq.1.1 (pf_device_irq_host_offset p);
         host_irq_mode := host_irq_mode hw; host_irq := host_irq hw;
         xrp_host_irq_mode := xrp_host_irq_mode hw |}
  end.

(** The host half also says whether the interrupt may be requested. *)
Definition init_host_irq (p : platform) (hw : xrp_hw_simple) : xrp_hw_simple * bool :=
  match pf_host_irq p with
  | None => (hw, false)
  | Some irq =>
      let '(mode, ok) := read_irq_mode (pf_host_irq_mode p) (pf_stack_host_mode p) in
      ({| regs_phys := regs_phys hw; regs := regs hw; device_irq_mode := device_irq_mode hw;
          device_irq := device_irq hw; device_irq_host_offset := device_irq_host_offset hw;
          host_irq_mode := default (host_irq_mode hw) mode; host_irq := irq;
          xrp_host_irq_mode := xrp_host_irq_mode hw |}, ok)
  end.

Definition set_host_irq_mode (hw : xrp_hw_simple) : xrp_hw_simple :=
  {| regs_phys := regs_phys hw; regs := regs hw; device_irq_mode := device_irq_mode hw;
     device_irq := device_irq hw; device_irq_host_offset := device_irq_host_offset hw;
     host_irq_mode := host_irq_mode hw; host_irq := host_irq hw; xrp_host_irq_mode := true |}.

Definition init_hw (p : platform) : result xrp_hw_simple :=
  match pf_resource p with
  | None => Err ENODEV
  | Some start =>
      let hw := {| regs_phys := start; regs := if pf_ioremap p then RegsMapped else RegsErr;
                   device_irq_mode := 0; device_irq := (0, 0, 0); device_irq_host_offset := 0;
                   host_irq_mode := 0; host_irq := (0, 0); xrp_host_irq_mode := false |} in
      let '(hw, ok) := init_host_irq p (init_device_irq p hw) in
      if (0 <=? pf_irq p) && ok then
        if pf_request_irq p <? 0 then Err (- pf_request_irq p) else Ok (set_host_irq_mode hw)
      else Ok hw
  end.

(** ** DSP side *)

Module Dsp.
Record hw_state := {
  mmio_base : Z;
  host_irq_mode : Z;
  device_irq_mode : Z;
  device_irq_offset : Z;
  device_irq_bit : Z;
  device_irq : Z;
  host_irq_offset : Z;
  host_irq_bit : Z;
}.

(** [irq_mode[]], indexed by the mode received. *)
Definition irq_mode (v : Z) : Z :=
  if v =? XRP_DSP_SYNC_IRQ_MODE_LEVEL then XRP_IRQ_LEVEL
  else if v =? XRP_DSP_SYNC_IRQ_MODE_EDGE then XRP_IRQ_EDGE else XRP_IRQ_NONE.

(** The new state and whether the interrupt handler gets installed. *)
Definition xrp_hw_set_sync_data (s : hw_state) (m : mem) (p : Z) : hw_state * bool :=
  let d := load_sync_data m p in
  let dev := sd_device_irq_mode d <? 3 in
  let host := sd_host_irq_mode d <? 3 in
  let s' := {|
    mmio_base := sd_device_mmio_base d;
    device_irq_mode := if dev then irq_mode (sd_device_irq_mode d) else XRP_IRQ_NONE;
    device_irq_offset := if dev then sd_device_irq_offset d else device_irq_offset s;
    device_irq_bit := if dev then sd_device_irq_bit d else device_irq_bit s;
    device_irq := if dev then sd_device_irq d else device_irq s;
    host_irq_mode := if host then irq_mode (sd_host_irq_mode d) else XRP_IRQ_NONE;
    host_irq_offset := if host then sd_host_irq_offset d else host_irq_offset s;
    host_irq_bit := if host then sd_host_irq_bit d else host_irq_bit s |} in
  (s', negb (device_irq_mode s' =? XRP_IRQ_NONE)).

(** Register accesses by physical address. *)
Definition xrp_irq_handler (s : hw_state) : list (Z * Z) :=
  if device_irq_mode s =? XRP_IRQ_LEVEL then [(u32 (mmio_base s + device_irq_offset s), 0)] else [].

Definition xrp_hw_send_host_irq (s : hw_state) : list (Z * Z) :=
  let a := u32 (mmio_base s + host_irq_offset s) in
  let level := [(a, u32 (Z.shiftl 1 (host_irq_bit s)))] in
  if host_irq_mode s =? XRP_IRQ_EDGE then (a, 0) :: level
  else if host_irq_mode s =? XRP_IRQ_LEVEL then level
  else [].

(** Whether the call blocks until the device interrupt. *)
Definition xrp_hw_wait_device_irq (s : hw_state) : bool := negb (device_irq_mode s =? XRP_IRQ_NONE).
End Dsp.

(** ** The configuration reaches the DSP *)

(** 32-bit device-tree values, and modes [init_hw] lets through. *)
Definition is_u32 (v : Z) : Prop := 0 ≤ v < 2 ^ 32.
Record hw_ok (hw : xrp_hw_simple) : Prop := {
  ok_host_mode : 0 ≤ host_irq_mode hw < XRP_IRQ_MAX;
  ok_device_mode : 0 ≤ device_irq_mode hw < XRP_IRQ_MAX;
  ok_host_irq : is_u32 (host_irq hw).1 ∧ is_u32 (host_irq hw).2;
  ok_device_irq : is_u32 (device_irq hw).1.1 ∧ is_u32 (device_irq hw).1.2 ∧ is_u32 (device_irq hw).2;
}.

(** The two sides agree on the registers and the interrupts. *)
Record agree (hw : xrp_hw_simple) (s : Dsp.hw_state) : Prop := {
  ag_base : Dsp.mmio_base s = u32 (regs_phys hw);
  ag_host_mode : Dsp.host_irq_mode s = host_irq_mode hw;
  ag_host_irq : (Dsp.host_irq_offset s, Dsp.host_irq_bit s) = host_irq hw;
  ag_device_mode : Dsp.device_irq_mode s = device_irq_mode hw;
  ag_device_irq : (Dsp.device_irq_offset s, Dsp.device_irq_bit s, Dsp.device_irq s) = device_irq hw;
}.

Lemma length_words_bytes l : length (l ≫= le_bytes 4) = (4 * length l)%nat.
Proof.
  induction l as [| v l IH]; [done |].
  change ((v :: l) ≫= le_bytes 4) with (le_bytes 4 v ++ (l ≫= le_bytes 4)).
  rewrite length_app, length_le_bytes, IH. simpl. lia.
Qed.

Lemma bytes_words_bytes l : bytes (l ≫= le_bytes 4).
Proof. induction l; [constructor |]. apply Forall_app. split; [apply bytes_le_bytes | done]. Qed.

(** Reading back words that were stored as their bytes. *)
Lemma load32_words m a l i v :
  load_bytes m a (4 * length l) = l ≫= le_bytes 4 → Forall is_u32 l → l !! i = Some v →
  load32 m (a + 4 * Z.of_nat i) = v.
Proof.
  revert a i. induction l as [| w l IH]; intros a i E Hl Hi; [done |]. apply list.Forall_cons in Hl as [Hw Hl].
  replace (4 * length (w :: l))%nat with (4 + 4 * length l)%nat in E by (simpl; lia).
  rewrite load_bytes_app in E. cbn [mbind list_bind] in E.
  apply app_inj_1 in E as [E0 E1]; [| by rewrite length_load_bytes, length_le_bytes].
  destruct i as [| i]; simpl in Hi; simplify_eq.
  - rewrite Z.add_0_r. unfold load32. rewrite E0. apply le_val_bytes. simpl. unfold is_u32 in *. lia.
  - rewrite <- (IH (a + Z.of_nat 4) i E1 Hl Hi). f_equal. lia.
Qed.

Lemma load_sync_data_bytes m a d :
  Forall is_u32 (sync_data_words d) → load_bytes m a 32 = sync_data_bytes d → load_sync_data m a = d.
Proof.
  intros Hd E. change 32%nat with (4 * length (sync_data_words d))%nat in E.
  assert (∀ i v, sync_data_words d !! i = Some v → load32 m (a + 4 * Z.of_nat i) = v) as Hl
    by (intros i v; by apply load32_words).
  unfold load_sync_data. destruct d. f_equal.
  1: rewrite <- (Z.add_0_r a); exact (Hl 0%nat _ eq_refl).
  - exact (Hl 1%nat _ eq_refl).
  - exact (Hl 2%nat _ eq_refl).
  - exact (Hl 3%nat _ eq_refl).
  - exact (Hl 4%nat _ eq_refl).
  - exact (Hl 5%nat _ eq_refl).
  - exact (Hl 6%nat _ eq_refl).
  - exact (Hl 7%nat _ eq_refl).
Qed.

Lemma irq_mode_id v : 0 ≤ v < 3 → Dsp.irq_mode v = v.
Proof. intros. assert (v = 0 ∨ v = 1 ∨ v = 2) as [-> | [-> | ->]] by lia; done. Qed.

Lemma set_sync_data_agree hw data s m p :
  hw_ok hw → get_hw_sync_data true hw = Some data → load_bytes m p (length data) = data →
  agree hw (Dsp.xrp_hw_set_sync_data s m p).1.
Proof.
  intros [Hh Hd' Hhi Hdi] [= <-] E. unfold XRP_IRQ_MAX in *.
  unfold Dsp.xrp_hw_set_sync_data.
  erewrite load_sync_data_bytes; [| | exact E].
  2:{ unfold sync_data_words, is_u32 in *. simpl.
      repeat (constructor; [first [apply u32_range | lia] |]). constructor. }
  simpl. rewrite !(proj2 (Z.ltb_lt _ _)) by lia. split; simpl; rewrite ?irq_mode_id by lia; auto;
    destruct (host_irq hw), (device_irq hw) as [[]]; done.
Qed.

(** C37: the configuration written by the host during synchronisation is the
    one the DSP uses: after [xrp_hw_set_sync_data] both sides agree on the
    register base and on the mode, register and bit of both interrupts. *)
Theorem sync_data_reaches_dsp hw data s m shared :
  hw_ok hw → get_hw_sync_data true hw = Some data →
  agree hw (Dsp.xrp_hw_set_sync_data s
    (apply_writes m (xrp_comm_write (sync_hw_data shared) data (Z.of_nat (length data))))
    (sync_hw_data shared)).1.
Proof.
  intros Hok Hdata. assert (bytes data) as Hb.
  { injection Hdata as <-. apply bytes_words_bytes. }
  apply (set_sync_data_agree hw data); [done | done |].
  rewrite comm_write_effect by (auto; lia). rewrite Nat2Z.id, take_ge by lia.
  set (l := data ++ _). rewrite <- (take_load_bytes _ _ _ (length l)) by (unfold l; rewrite length_app; lia).
  rewrite load_store_same. unfold l. by rewrite take_app_length.
Qed.

(** ** Interrupts *)

(** The host's register accesses by physical address. *)
Definition phys_writes (hw : xrp_hw_simple) (t : list mmio) : list (Z * Z) :=
  t ≫= λ e, match e with MmioWrite off v => [(u32 (regs_phys hw + off), v)] | MmioFault => [] end.

(** The values the register at [a] takes under a trace, starting from [v]. *)
Fixpoint reg_history (a v : Z) (t : list (Z * Z)) : list Z :=
  match t with
  | [] => [v]
  | (b, w) :: t => v :: reg_history a (if a =? b then w else v) t
  end.

(** A 0 to 1 transition of bit [b]. *)
Definition rising (b : Z) (h : list Z) : Prop :=
  ∃ h1 v w h2, h = h1 ++ v :: w :: h2 ∧ Z.testbit v b = false ∧ Z.testbit w b = true.

(** The value left at the end. *)
Definition ends_in (h : list Z) (v : Z) : Prop := ∃ h1, h = h1 ++ [v].

(** What it takes to signal an interrupt in a mode: an edge, or a level
    that is still there at the end. *)
Definition signalled (mode b : Z) (h : list Z) : Prop :=
  if mode =? XRP_IRQ_EDGE then rising b h
  else if mode =? XRP_IRQ_LEVEL then ∃ v, ends_in h v ∧ Z.testbit v b = true
  else False.

Lemma u32_BIT b : 0 ≤ b < 32 → u32 (BIT b) = 2 ^ b.
Proof.
  intros. unfold BIT. rewrite Z.shiftl_1_l. apply u32_small.
  split; [apply Z.pow_nonneg; lia | apply Z.pow_lt_mono_r; lia].
Qed.

Lemma signal_edge a v b : 0 ≤ b → rising b (reg_history a v [(a, 0); (a, 2 ^ b)]).
Proof.
  intros. simpl. rewrite Z.eqb_refl. exists [v], 0, (2 ^ b), [].
  split_and!; [done | apply Z.bits_0 | by apply Z.pow2_bits_true].
Qed.

Lemma signal_level a v b : 0 ≤ b → ∃ w, ends_in (reg_history a v [(a, 2 ^ b)]) w ∧ Z.testbit w b = true.
Proof. intros. simpl. rewrite Z.eqb_refl. exists (2 ^ b). split; [by exists [v] | by apply Z.pow2_bits_true]. Qed.

Lemma u32_add_base hw off : u32 (u32 (regs_phys hw) + off) = u32 (regs_phys hw + off).
Proof. unfold wrap. by rewrite Zplus_mod_idemp_l. Qed.

(** An interrupt to the host is signalled in the mode both sides agreed
    on whatever the register held before: in edge mode the bit the host
    configured rises, in level mode it is set and stays set until the host's
    acknowledgement, which clears that same register. *)
Theorem host_irq_protocol hw s v :
  agree hw s → regs hw = RegsMapped → 0 ≤ (host_irq hw).2 < 32 →
  let a := u32 (regs_phys hw + (host_irq hw).1) in
  (host_irq_mode hw = XRP_IRQ_EDGE ∨ host_irq_mode hw = XRP_IRQ_LEVEL →
   signalled (host_irq_mode hw) (host_irq hw).2 (reg_history a v (Dsp.xrp_hw_send_host_irq s))) ∧
  (host_irq_mode hw = XRP_IRQ_LEVEL →
   ends_in (reg_history a v (Dsp.xrp_hw_send_host_irq s ++ phys_writes hw (ack_irq hw))) 0).
Proof.
  intros [Hb Hm Hi _ _] Hr Hbit a. subst a. unfold ack_irq, reg_write32. rewrite Hr, <- Hi in *.
  simpl in *. unfold Dsp.xrp_hw_send_host_irq. rewrite Hb, Hm, u32_add_base.
  set (a := u32 (regs_phys hw + _)). fold (BIT (Dsp.host_irq_bit s)). rewrite u32_BIT by done. split.
  - intros [-> | ->]; [apply signal_edge | apply signal_level]; lia.
  - intros ->. simpl. fold a. rewrite !Z.eqb_refl. by exists [v; 2 ^ Dsp.host_irq_bit s].
Qed.

(** An interrupt to the device is signalled in the configured mode, and
    in level mode the DSP's handler clears it, provided the host and the
    DSP see the register at the same offset. *)
Theorem device_irq_protocol hw s v :
  agree hw s → regs hw = RegsMapped → 0 ≤ (device_irq hw).1.2 < 32 →
  device_irq_host_offset hw = (device_irq hw).1.1 →
  let a := u32 (regs_phys hw + device_irq_host_offset hw) in
  (device_irq_mode hw = XRP_IRQ_EDGE ∨ device_irq_mode hw = XRP_IRQ_LEVEL →
   signalled (device_irq_mode hw) (device_irq hw).1.2 (reg_history a v (phys_writes hw (send_irq hw)))) ∧
  (device_irq_mode hw = XRP_IRQ_LEVEL →
   ends_in (reg_history a v (phys_writes hw (send_irq hw) ++ Dsp.xrp_irq_handler s)) 0).
Proof.
  intros [Hb _ _ Hm Hi] Hr Hbit Hoff a. rewrite <- Hi in Hbit, Hoff. simpl in *.
  unfold send_irq, reg_write32, Dsp.xrp_irq_handler. rewrite Hr, Hm, Hb, u32_add_base, <- Hi, <- Hoff. simpl.
  rewrite u32_BIT by done. fold a. split.
  - intros [-> | ->]; simpl; [apply signal_edge | apply signal_level]; lia.
  - intros ->. simpl. fold a. rewrite !Z.eqb_refl. by exists [v; 2 ^ Dsp.device_irq_bit s].
Qed.

(** ** Reading the device tree *)

Definition platform_ok (p : platform) : Prop :=
  (∀ v, pf_device_irq_mode p = Some v → 0 ≤ v) ∧ (∀ v, pf_host_irq_mode p = Some v → 0 ≤ v) ∧
  0 ≤ pf_stack_device_mode p ∧ 0 ≤ pf_stack_host_mode p ∧
  (∀ a b c, pf_device_irq p = Some (a, b, c) → is_u32 a ∧ is_u32 b ∧ is_u32 c) ∧
  (∀ a b, pf_host_irq p = Some (a, b) → is_u32 a ∧ is_u32 b).

Lemma read_irq_mode_range prop stack mode ok :
  (∀ v, prop = Some v → 0 ≤ v) → 0 ≤ stack → read_irq_mode prop stack = (mode, ok) →
  0 ≤ default 0 mode < XRP_IRQ_MAX ∧ (ok = true → mode = prop ∧ is_Some prop).
Proof.
  intros Hp Hs. unfold read_irq_mode. destruct (Z.ltb_spec (default stack prop) XRP_IRQ_MAX); intros [= <- <-].
  - split.
    + simpl. split; [| done]. destruct prop; simpl; auto.
    + intros ?%bool_decide_eq_true. split; [| done]. by destruct prop as [v |]; [| destruct H0].
  - split; [unfold XRP_IRQ_MAX; simpl; lia | done].
Qed.

(** The device has an interrupt, and the device tree has both properties of
    the host's interrupt with a mode in range.  Mode 0 is in range, although
    the binding (cdns,xrp-hw-simple.txt) says it is polling. *)
Definition host_irq_described (p : platform) : Prop :=
  0 ≤ pf_irq p ∧ is_Some (pf_host_irq p) ∧ ∃ m, pf_host_irq_mode p = Some m ∧ m < XRP_IRQ_MAX.

Lemma read_irq_mode_ok prop stack mode ok :
  read_irq_mode prop stack = (mode, ok) → ok = true ↔ ∃ m, prop = Some m ∧ m < XRP_IRQ_MAX.
Proof.
  unfold read_irq_mode. destruct prop as [m |]; cbn [default from_option id].
  - destruct (Z.ltb_spec m XRP_IRQ_MAX); intros [= <- <-]; [split; eauto |].
    split; [done |]. intros (m' & [= <-] & ?). lia.
  - destruct (stack <? XRP_IRQ_MAX); intros [= <- <-]; (split; [done | by intros (m' & ? & _)]).
Qed.

(** C38: reading the device tree fails exactly when the device has no
    registers or the request for its interrupt fails, with that error.  A
    device that is accepted has interrupt modes in range, so the DSP accepts
    its configuration; and the host waits for interrupts exactly when the
    device has an interrupt and the device tree has both properties of the
    host's interrupt with a mode below XRP_IRQ_MAX - also with mode 0, which
    the binding calls polling - and then with the register, the bit and the
    mode of the device tree. *)
Theorem init_hw_ok p :
  platform_ok p →
  match init_hw p with
  | Err e =>
      pf_resource p = None ∧ e = ENODEV ∨
      is_Some (pf_resource p) ∧ host_irq_described p ∧ pf_request_irq p < 0 ∧ e = - pf_request_irq p
  | Ok hw =>
      is_Some (pf_resource p) ∧ hw_ok hw ∧ (xrp_host_irq_mode hw = true ↔ host_irq_described p) ∧
      (host_irq_described p →
       0 ≤ pf_request_irq p ∧ pf_host_irq p = Some (host_irq hw) ∧ pf_host_irq_mode p = Some (host_irq_mode hw))
  end.
Proof.
  intros (Hdm & Hhm & Hds & Hhs & Hdi & Hhi). unfold init_hw, host_irq_described.
  destruct (pf_resource p) as [start |]; [| by left].
  set (hw0 := {| regs_phys := start |}).
  assert (hw_ok (init_device_irq p hw0) ∧ host_irq_mode (init_device_irq p hw0) = 0 ∧
          xrp_host_irq_mode (init_device_irq p hw0) = false) as (Hok1 & Hz & Hx).
  { unfold init_device_irq. destruct (pf_device_irq p) as [[[a b] c] |] eqn:Ed; [| done].
    destruct (read_irq_mode _ _) as [mode ok] eqn:Em.
    apply read_irq_mode_range in Em as [Hr _]; [| done | done]. by split_and!; [split; simpl; auto | |]. }
  unfold init_host_irq. destruct Hok1 as [Hh1 Hd1 Hh2 Hd2].
  destruct (pf_host_irq p) as [[a b] |] eqn:Eh.
  2: { rewrite andb_false_r. split; [by eexists |]. split; [by split |]. rewrite Hx.
       split; [split; [done | by intros (_ & [? ?] & _)] | by intros (_ & [? ?] & _)]. }
  destruct (read_irq_mode _ _) as [mode ok] eqn:Em. pose proof (read_irq_mode_ok _ _ _ _ Em) as Hiff.
  apply read_irq_mode_range in Em as [Hr Hp]; [| done | done]. rewrite Hz.
  assert (∀ x, hw_ok {| regs_phys := regs_phys (init_device_irq p hw0);
      regs := regs (init_device_irq p hw0); device_irq_mode := device_irq_mode (init_device_irq p hw0);
      device_irq := device_irq (init_device_irq p hw0);
      device_irq_host_offset := device_irq_host_offset (init_device_irq p hw0);
      host_irq_mode := default 0 mode; host_irq := (a, b); xrp_host_irq_mode := x |}) as Hok.
  { intros x. split; simpl; auto. }
  destruct (Z.leb_spec 0 (pf_irq p)), ok; cbn [andb].
  - specialize (proj1 Hiff eq_refl) as Hm. destruct (Hp eq_refl) as [Emode [v Ev]].
    destruct (Z.ltb_spec (pf_request_irq p) 0).
    + right. by split_and!; [eexists | | eexists | | |].
    + unfold set_host_irq_mode. cbn. split; [by eexists |]. split; [apply Hok |].
      split; [split; [intros _; by split_and!; [| eexists |] | done] |].
      intros _. split_and!; [done | done |]. by rewrite Emode, Ev.
  - split; [by eexists |]. split; [apply Hok |]. cbn. rewrite Hx.
    split; [split; [done |] |]; intros (_ & _ & Hm); apply Hiff in Hm; done.
  - split; [by eexists |]. split; [apply Hok |]. cbn. rewrite Hx. split; [split; [done |] |]; intros (? & _); lia.
  - split; [by eexists |]. split; [apply Hok |]. cbn. rewrite Hx. split; [split; [done |] |]; intros (? & _); lia.
Qed.

(** ** Examples *)

Module HwExamples.
Definition pf (mode : option Z) (stack : Z) : platform := {|
  pf_resource := Some 0x40000000; pf_ioremap := true; pf_device_irq := Some (0x10, 1, 5);
  pf_device_irq_host_offset := None; pf_device_irq_mode := mode; pf_host_irq := Some (0x14, 0);
  pf_host_irq_mode := Some 1; pf_irq := 7; pf_request_irq := 0;
  pf_stack_device_mode := stack; pf_stack_host_mode := 0 |}.
Definition hw : xrp_hw_simple := {|
  regs_phys := 0x40000000; regs := RegsMapped; device_irq_mode := 2; device_irq := (0x10, 1, 5);
  device_irq_host_offset := 0x10; host_irq_mode := 1; host_irq := (0x14, 0);
  xrp_host_irq_mode := true |}.
Definition s0 : Dsp.hw_state := Dsp.Build_hw_state 0 0 0 0 0 0 0 0.
Definition s1 : Dsp.hw_state := Dsp.Build_hw_state 0x40000000 1 2 0x10 1 5 0x14 0.

Lemma pf_ok : platform_ok (pf (Some 2) 0).
Proof. split_and!; simpl; intros; simplify_eq; unfold is_u32; lia. Qed.

Lemma hw_is_ok : hw_ok hw.
Proof. split; unfold is_u32, XRP_IRQ_MAX; simpl; lia. Qed.

Lemma init_hw_ok_witness :
  init_hw (pf (Some 2) 0) = Ok hw ∧ hw_ok hw ∧ host_irq_described (pf (Some 2) 0).
Proof.
  pose proof (init_hw_ok (pf (Some 2) 0) pf_ok) as Hi.
  assert (init_hw (pf (Some 2) 0) = Ok hw) as E by reflexivity. rewrite E in Hi.
  destruct Hi as (_ & Hok & Hiff & _). split; [exact E |]. split; [exact Hok |]. exact (proj1 Hiff eq_refl).
Defined.

Lemma sync_data_reaches_dsp_witness :
  agree hw (Dsp.xrp_hw_set_sync_data s0
    (apply_writes (λ _, 0) (xrp_comm_write (sync_hw_data 256)
       (default [] (get_hw_sync_data true hw)) 32)) (sync_hw_data 256)).1.
Proof.
  exact (sync_data_reaches_dsp hw (default [] (get_hw_sync_data true hw)) s0 (λ _, 0) 256
    hw_is_ok eq_refl).
Defined.

Lemma s1_agree : agree hw s1.
Proof. split; reflexivity. Qed.

Lemma host_irq_protocol_witness :
  ends_in (reg_history 0x40000014 0 (Dsp.xrp_hw_send_host_irq s1 ++ phys_writes hw (ack_irq hw))) 0.
Proof.
  refine (proj2 (host_irq_protocol hw s1 0 s1_agree eq_refl _) eq_refl). simpl. lia.
Defined.

Lemma device_irq_protocol_witness :
  signalled 2 1 (reg_history 0x40000010 2 (phys_writes hw (send_irq hw))).
Proof.
  refine (proj1 (device_irq_protocol hw s1 2 s1_agree eq_refl _ eq_refl) (or_introl eq_refl)).
  simpl. lia.
Defined.

(** Without the mode property the mode is whatever the stack holds, while
    the driver announces polling. *)
Example missing_mode_uses_stack :
  device_irq_mode (match init_hw (pf None 1) with Ok hw => hw | Err _ => hw_zero end) = XRP_IRQ_LEVEL.
Proof. reflexivity. Qed.

(** With host-irq-mode 0, polling in the words of the binding, and an
    interrupt number the host waits for interrupts, which a DSP configured by
    this host never raises. *)
Definition pf_polling : platform := {|
  pf_resource := Some 0x40000000; pf_ioremap := true; pf_device_irq := Some (0x10, 1, 5);
  pf_device_irq_host_offset := None; pf_device_irq_mode := Some 2; pf_host_irq := Some (0x14, 0);
  pf_host_irq_mode := Some 0; pf_irq := 7; pf_request_irq := 0;
  pf_stack_device_mode := 0; pf_stack_host_mode := 0 |}.
Definition hw_polling : xrp_hw_simple := match init_hw pf_polling with Ok hw => hw | Err _ => hw_zero end.
Example polling_waits_for_interrupts :
  init_hw pf_polling = Ok hw_polling ∧ host_irq_mode hw_polling = XRP_IRQ_NONE ∧ xrp_host_irq_mode hw_polling = true ∧
  ∀ d, agree hw_polling d → Dsp.xrp_hw_send_host_irq d = [].
Proof.
  split_and!; [done.. |]. intros d [_ Hm _ _ _]. unfold Dsp.xrp_hw_send_host_irq. by rewrite Hm.
Qed.

(** A failed mapping leaves an error pointer that passes the null test. *)
Example failed_ioremap_faults :
  reset {| regs_phys := 0; regs := RegsErr; device_irq_mode := 0; device_irq := (0, 0, 0);
           device_irq_host_offset := 0; host_irq_mode := 0; host_irq := (0, 0);
           xrp_host_irq_mode := false |} = [MmioFault; MmioFault].
Proof. reflexivity. Qed.
End HwExamples.
