(* ===== verification/HwProbe.v ===== *)
(** * Probing the simple hardware back end (xrp-kernel/xrp_hw_simple.c)

    [xrp_hw_simple_probe] reads the device tree ([HwSimple.init_hw]) and sets
    the device up with the operations of this back end ([Boot]).  The back
    end has no operations for power, so the core is driven through its reset
    and run/stall registers alone: the events of [Boot] are accesses to
    them. *)

From stdpp Require Import base tactics list strings numbers relations.
From S2P Require Import Prelude Mem AddressMap HwSimple Submit Boot Probe.

(** ** The operations of the back end *)

(** [hw_ops] of xrp_hw_simple.c, and of the driver without a back end. *)
Definition hw_ops (loopback : Z) : hw_cfg := mk_hw_cfg loopback false false true true true.
Definition hw_ops_none (loopback : Z) : hw_cfg := mk_hw_cfg loopback false false false false false.

(** [get_hw_sync_data] of the driver without a back end: zeros, unless
    [kzalloc] fails. *)
Definition get_hw_sync_data_none (kzalloc : bool) : option (list Z) :=
  if kzalloc then Some (replicate 64 0) else None.

(** What an operation on the core does to the registers. *)
Definition event_mmio (hw : xrp_hw_simple) (ev : hw_event) : list mmio :=
  match ev with
  | EvReset => reset hw
  | EvHalt => halt hw
  | EvRelease => release hw
  | EvEnable | EvDisable | EvLoad | EvIdle | EvSync => []
  end.

(** ** Setting up *)

Section probe.
Context `{Arch}.
Variable loopback : Z.

(** [init_hw(pdev, hw, mem_idx)]: the registers are the memory resource
    [mem_idx] of the platform device, the device's memory is among the
    others. *)
Definition init_hw_at (p : platform) (e : init_env) (mem_idx : nat) : result xrp_hw_simple :=
  init_hw {| pf_resource := fst <$> ie_mem e mem_idx; pf_ioremap := pf_ioremap p;
             pf_device_irq := pf_device_irq p; pf_device_irq_host_offset := pf_device_irq_host_offset p;
             pf_device_irq_mode := pf_device_irq_mode p; pf_host_irq := pf_host_irq p;
             pf_host_irq_mode := pf_host_irq_mode p; pf_irq := pf_irq p; pf_request_irq := pf_request_irq p;
             pf_stack_device_mode := pf_stack_device_mode p; pf_stack_host_mode := pf_stack_host_mode p |}.

(** What a probe leaves: its result, the back end's state once the device
    tree was read, the device. *)
Definition probe_result : Type := Z * option xrp_hw_simple * xvp.

Definition init (p : platform) (e : init_env) : option probe_result :=
  match init_hw_at p e 0 with
  | Err er => Some (- er, None, xvp_zero)
  | Ok hw => r ← xrp_init (hw_ops loopback) e xvp_zero; Some (r.1, Some hw, r.2)
  end.

Definition init_v1 (p : platform) (e : init_env) : option probe_result :=
  match init_hw_at p e 1 with
  | Err er => Some (- er, None, xvp_zero)
  | Ok hw => r ← xrp_init_v1 (hw_ops loopback) e xvp_zero; Some (r.1, Some hw, r.2)
  end.

Definition init_cma (p : platform) (e : init_env) : option probe_result :=
  match init_hw_at p e 0 with
  | Err er => Some (- er, None, xvp_zero)
  | Ok hw => r ← xrp_init_cma (hw_ops loopback) e xvp_zero; Some (r.1, Some hw, r.2)
  end.

Definition xrp_hw_simple_match : list (string * (platform → init_env → option probe_result)) :=
  [("cdns,xrp-hw-simple", init); ("cdns,xrp-hw-simple,v1", init_v1); ("cdns,xrp-hw-simple,cma", init_cma)].

(** [of_match_device] is the kernel's: it finds an entry of the table, or
    none.  [kz]: whether [devm_kzalloc] finds memory. *)
Definition xrp_hw_simple_probe
    (of_match_device : list (string * (platform → init_env → option probe_result)) → option (string * (platform → init_env → option probe_result)))
    (kz : bool) (p : platform) (e : init_env) : option probe_result :=
  if kz then
    match of_match_device xrp_hw_simple_match with
    | None => Some (- ENODEV, None, xvp_zero)
    | Some (_, init) => init p e
    end
  else Some (- ENOMEM, None, xvp_zero).

Definition xrp_hw_simple_remove (suspended : bool) (x : xvp) : Z * xvp := xrp_deinit (hw_ops loopback) suspended x.
End probe.

(** ** The core behind the registers *)

Record core_regs := mk_core_regs { cr_reset : bool; cr_stall : bool }.

Definition mmio_step (r : core_regs) (a : mmio) : option core_regs :=
  match a with
  | MmioWrite off v =>
      Some (if off =? XRP_REG_RESET then mk_core_regs (Z.testbit v 0) (cr_stall r)
            else if off =? XRP_REG_RUNSTALL then mk_core_regs (cr_reset r) (Z.testbit v 0) else r)
  | MmioFault => None
  end.
Fixpoint mmio_run (r : core_regs) (l : list mmio) : option core_regs :=
  match l with [] => Some r | a :: l => r ← mmio_step r a; mmio_run r l end.

(** The core is reset, the firmware and the shared word are written and the
    core is released while it is stalled; it is synchronised with while it
    runs; nothing but the reset itself finds it in reset. *)
Definition regs_allow (r : core_regs) (ev : hw_event) : bool :=
  match ev with
  | EvHalt => true
  | EvReset => cr_stall r
  | EvLoad | EvIdle | EvRelease => cr_stall r && negb (cr_reset r)
  | EvSync => negb (cr_stall r) && negb (cr_reset r)
  | EvEnable | EvDisable => false
  end.

(** [None]: a fault, or an event at the wrong time. *)
Fixpoint regs_run (hw : xrp_hw_simple) (r : core_regs) (l : list hw_event) : option core_regs :=
  match l with
  | [] => Some r
  | ev :: l => if regs_allow r ev then r ← mmio_run r (event_mmio hw ev); regs_run hw r l else None
  end.

Lemma regs_run_app hw r l1 l2 : regs_run hw r (l1 ++ l2) = r ← regs_run hw r l1; regs_run hw r l2.
Proof.
  revert r. induction l1 as [| ev l1 IH]; intros r; [done |]. cbn [app regs_run]. destruct (regs_allow r ev); [| done].
  destruct (mmio_run r _); [apply IH | done].
Qed.

(** ** Driving the core *)

Section core.
Context `{Arch}.
Variables (loopback : Z) (hw : xrp_hw_simple).
Hypothesis Hloop : loopback < LOOPBACK_NOMMIO.
Hypothesis Hregs : regs hw = RegsMapped.
Notation c := (hw_ops loopback).

Lemma halt_run r : mmio_run r (halt hw) = Some (mk_core_regs (cr_reset r) true).
Proof. unfold halt, reg_write32. by rewrite Hregs. Qed.
Lemma release_run r : mmio_run r (release hw) = Some (mk_core_regs (cr_reset r) false).
Proof. unfold release, reg_write32. by rewrite Hregs. Qed.
Lemma reset_run r : mmio_run r (reset hw) = Some (mk_core_regs false (cr_stall r)).
Proof. unfold reset, reg_write32. by rewrite Hregs. Qed.

(** The events added to a trace leave the registers in a state. *)
Definition adds (x x' : xvp) (post : core_regs → Prop) : Prop :=
  ∃ l, xv_trace x' = xv_trace x ++ l ∧ ∀ r, ∃ r', regs_run hw r l = Some r' ∧ post r'.

(** Evaluates the accesses of known events. *)
Ltac run_regs :=
  repeat (cbn [regs_run regs_allow event_mmio mmio_run mbind option_bind andb negb cr_stall cr_reset app];
          rewrite ?halt_run, ?reset_run, ?release_run).

Lemma adds_refl (x x' : xvp) (post : core_regs → Prop) l :
  xv_trace x' = xv_trace x ++ l → (∀ r, ∃ r', regs_run hw r l = Some r' ∧ post r') → adds x x' post.
Proof. by exists l. Qed.

Lemma boot_regs e x ret x' :
  xrp_boot_firmware c e x = (ret, x') →
  ret ≤ 0 ∧ (xv_off x' = true → xv_off x = true ∨ ret < 0) ∧
  adds x x' (λ r, cr_reset r = false ∧ (ret < 0 → cr_stall r = true)).
Proof.
  unfold xrp_boot_firmware, xrp_reset_dsp, xrp_halt_dsp, xrp_release_dsp, hw_op. cbn [hw_ops hc_loopback hc_halt hc_reset hc_release].
  rewrite (proj2 (Z.ltb_lt _ _) Hloop). cbn [andb]. set (x1 := event (event x EvHalt) EvReset).
  set (img := if _ && _ then request_image (be_fw e) x1 else (0, x1)).
  assert (∃ l, xv_trace img.2 = xv_trace x ++ EvHalt :: EvReset :: l ∧ (l = [] ∨ l = [EvLoad]) ∧
    xv_firmware_name img.2 = xv_firmware_name x ∧ xv_off img.2 = xv_off x) as (l & Et & Hl & En & Eo).
  { unfold img. destruct (_ && _).
    - destruct (request_image_trace (be_fw e) x1) as (Et & En & Eo). rewrite Et, En, Eo. unfold x1. cbn. rewrite <- !app_assoc.
      destruct (be_fw e); eexists; (split; [done |]); eauto.
    - exists []. unfold x1. cbn. rewrite <- !app_assoc. auto. }
  destruct img as [ri x2]. cbn [fst snd] in *. destruct (Z.ltb_spec ri 0).
  { intros [= <- <-]. split; [lia |]. split; [rewrite Eo; auto |]. eapply adds_refl; [exact Et |]. intros r.
    destruct Hl as [-> | ->]; run_regs; eauto. }
  rewrite En. set (x3 := if _ && _ then event x2 EvIdle else x2).
  assert (∃ k, xv_trace x3 = xv_trace x ++ EvHalt :: EvReset :: k ∧ xv_off x3 = xv_off x ∧
    ∀ q, regs_run hw (mk_core_regs false true) (k ++ q) = regs_run hw (mk_core_regs false true) q) as (k & Et3 & Eo3 & Hk).
  { unfold x3. destruct (_ && _); cbn; rewrite ?Et; rewrite <- ?app_assoc; cbn [app]; eexists; (split; [done |]); (split; [done |]);
      intros q; destruct Hl as [-> | ->]; run_regs; done. }
  destruct (loopback <? LOOPBACK_NOIO).
  - destruct (Z.ltb_spec (be_sync e) 0); intros [= <- <-]; (split; [lia |]; split; [cbn; rewrite ?Eo3; auto |]).
    + eapply (adds_refl _ _ _ (EvHalt :: EvReset :: k ++ [EvRelease; EvSync; EvHalt])).
      * cbn. rewrite Et3. by rewrite <- !app_assoc.
      * intros r. run_regs. rewrite Hk. run_regs. eauto.
    + eapply (adds_refl _ _ _ (EvHalt :: EvReset :: k ++ [EvRelease; EvSync])).
      * cbn. rewrite Et3. by rewrite <- !app_assoc.
      * intros r. run_regs. rewrite Hk. run_regs. eexists. split; [done |]. split; [done | lia].
  - intros [= <- <-]. split; [lia |]. split; [cbn; rewrite ?Eo3; auto |].
    eapply (adds_refl _ _ _ (EvHalt :: EvReset :: k ++ [EvRelease])).
    + cbn. rewrite Et3. by rewrite <- !app_assoc.
    + intros r. run_regs. rewrite Hk. run_regs. eexists. split; [done |]. split; [done | lia].
Qed.

(** What is known of the registers in a state of power management: nothing
    before the first boot; out of reset after it, and stalled while the
    device is suspended or off. *)
Definition regs_inv (r0 : core_regs) (x : xvp) (s : pm_status) : Prop :=
  xv_trace x = [] ∧ s = Suspended ∧ xv_off x = false ∨
  ∃ r, regs_run hw r0 (xv_trace x) = Some r ∧ cr_reset r = false ∧
    (s = Suspended ∨ xv_off x = true → cr_stall r = true).

Lemma boot_inv r0 e x s ret x' :
  regs_inv r0 x s → xv_off x = false → xrp_boot_firmware c e x = (ret, x') →
  ret ≤ 0 ∧ regs_inv r0 x' Active ∧ (ret < 0 → regs_inv r0 x' Suspended).
Proof.
  intros Hi Ho Hb. destruct (boot_regs e x ret x' Hb) as (Hle & Hoff & l & Et & Hl).
  assert (∃ r, regs_run hw r0 (xv_trace x) = Some r) as [r Hr].
  { destruct Hi as [[E _] | (r & E & _)]; [rewrite E; by eexists | by eexists]. }
  destruct (Hl r) as (r' & El & Hreset & Hst).
  assert (regs_run hw r0 (xv_trace x') = Some r') as E by (rewrite Et, regs_run_app, Hr; done).
  split; [done |]. split; [| intros Hneg]; right; exists r'; (split_and!; [done | done |]); [| auto].
  intros [? | Hx']; [done |]. destruct (Hoff Hx'); [congruence | auto].
Qed.

Lemma suspend_regs r0 x :
  regs_inv r0 x Active →
  ∃ r, regs_run hw r0 (xv_trace (xrp_runtime_suspend c x).2) = Some r ∧ cr_reset r = false ∧ cr_stall r = true.
Proof.
  intros [(_ & ? & _) | (r & Hr & Hreset & _)]; [done |]. unfold xrp_runtime_suspend, xvp_disable_dsp, xrp_halt_dsp, hw_op.
  cbn [hw_ops hc_loopback hc_halt hc_disable snd]. rewrite (proj2 (Z.ltb_lt _ _) Hloop). cbn [andb].
  exists (mk_core_regs (cr_reset r) true). split_and!; [| done | done]. cbn [event xv_trace].
  rewrite regs_run_app, Hr. cbn [mbind option_bind]. by run_regs.
Qed.

Lemma resume_inv r0 e x ret x' :
  regs_inv r0 x Suspended → xrp_runtime_resume c e x = (ret, x') →
  regs_inv r0 x' (if ret =? 0 then Active else Suspended).
Proof.
  intros Hi. unfold xrp_runtime_resume, xvp_enable_dsp, xvp_disable_dsp, hw_op. destruct (xv_off x) eqn:Ho.
  { intros [= <- <-]. destruct Hi as [(_ & _ & ?) | (r & Hr & Hreset & Hst)]; [congruence |]. right. exists r. split_and!; auto. }
  cbn [hw_ops hc_loopback hc_enable hc_disable]. rewrite andb_false_r. cbn [Z.ltb Z.compare].
  destruct (xrp_boot_firmware c e x) as [rb x2] eqn:Eb. destruct (boot_inv _ _ _ _ _ _ Hi Ho Eb) as (Hle & Ha & Hs).
  intros [= <- <-]. replace (if rb <? 0 then x2 else x2) with x2 by (by destruct (rb <? 0)).
  destruct (Z.eqb_spec rb 0); [done |]. apply Hs. lia.
Qed.

Lemma pm_regs r0 st st' : rtc (pm_step c) st st' → regs_inv r0 st.1 st.2 → regs_inv r0 st'.1 st'.2.
Proof.
  induction 1 as [| st1 st2 st3 Hs _ IH]; [done |]. intros Hi. apply IH. clear IH.
  destruct Hs as [e x r x' E | x r x' E | e x r x' Ho E]; cbn [fst snd] in *.
  - by eapply resume_inv.
  - apply suspend_regs in Hi as (q & Hq & ? & ?). rewrite E in Hq. right. by exists q.
  - by apply (boot_inv _ _ _ _ _ _ Hi Ho E).
Qed.

(** Setting a device up boots it when there is no runtime power management. *)
Lemma init_regs_inv r0 v e x :
  (∀ er, ie_map e = InitErr er → 0 < er) →
  xrp_init_common c (regs_of v) e xvp_zero = Some (0, x) → regs_inv r0 x (if ie_pm e then Suspended else Active).
Proof.
  intros Hmap. unfold xrp_init_common. destruct (regs_of v e xvp_zero) as [r1 x1] eqn:E1.
  destruct (r1 <? 0) eqn:En; [intros [= -> _]; done |].
  assert (xv_trace x1 = [] ∧ xv_off x1 = false) as [Et Eo].
  { destruct v; cbn in E1; unfold xrp_init_regs_v0, xrp_init_regs_v1, xrp_init_regs_cma, init_pool in E1;
      repeat (case_match; simplify_eq; try done). }
  destruct (ie_map e) as [m | er |]; [| intros [= Ez _]; specialize (Hmap er eq_refl); lia | done].
  destruct (negb _ && (ie_name e <? 0)) eqn:Ename; [intros [= Ez _]; rewrite Ez in Ename; done |].
  set (x3 := hold RPm _). assert (regs_inv r0 x3 Suspended) as Hi by (left; unfold x3; cbn; by rewrite Et, Eo).
  destruct (ie_pm e).
  - cbn [Z.eqb negb]. destruct (Z.ltb_spec (ie_misc e) 0); [intros [= ? _]; lia |]. intros [= <-]. done.
  - destruct (xrp_runtime_resume c (ie_boot e) x3) as [rr x4] eqn:Er. apply (resume_inv r0) in Er; [| done].
    destruct (Z.eqb_spec rr 0); cbn [negb]; [| by intros [= ? _]].
    destruct (Z.ltb_spec (ie_misc e) 0); [intros [= ? _]; lia |]. intros [= <-]. done.
Qed.

Lemma deinit_trace suspended x :
  xv_trace (xrp_deinit c suspended x).2 = xv_trace (if suspended then x else (xrp_runtime_suspend c x).2).
Proof.
  assert (∀ r y, xv_trace (drop_res r y) = xv_trace y) as Hd by (intros r y; unfold drop_res; by case_decide).
  assert (∀ y, xv_trace (free_comm y) = xv_trace y) as Hf by (intros y; unfold free_comm; destruct (_ && _); [apply Hd | done]).
  assert (∀ p y, xv_trace (release_firmware p y) = xv_trace y) as Hr by (intros p y; unfold release_firmware; destruct (_ =? _); [done | apply Hd]).
  unfold xrp_deinit, xrp_free_address_map. cbn [snd]. rewrite Hd, Hf, Hd, Hr, Hd. destruct suspended; [apply Hd |].
  unfold xrp_runtime_suspend, xvp_disable_dsp, xrp_halt_dsp, hw_op. cbn [hw_ops hc_loopback hc_halt hc_disable snd].
  rewrite (proj2 (Z.ltb_lt _ _) Hloop). cbn [andb event xv_trace]. by rewrite Hd.
Qed.
End core.

Section probe_spec.
Context `{Arch}.
Variable loopback : Z.
Notation table := (list (string * (platform → init_env → option probe_result))).

(** A probe that got as far as the device is one of the three setups. *)
Lemma probe_init (of_match_device : table → option (string * (platform → init_env → option probe_result))) kz p e ret hw x :
  (∀ l en, of_match_device l = Some en → en ∈ l) →
  xrp_hw_simple_probe loopback of_match_device kz p e = Some (ret, Some hw, x) →
  regs hw = (if pf_ioremap p then RegsMapped else RegsErr) ∧
  ∃ v, xrp_init_common (hw_ops loopback) (regs_of v) e xvp_zero = Some (ret, x).
Proof.
  intros Hm. unfold xrp_hw_simple_probe. destruct kz; [| done].
  destruct (of_match_device (xrp_hw_simple_match loopback)) as [[s i] |] eqn:E; [| done]. apply Hm in E.
  assert (∀ idx hw', init_hw_at p e idx = Ok hw' → regs hw' = (if pf_ioremap p then RegsMapped else RegsErr)) as Hr.
  { intros idx hw' Hi. unfold init_hw_at, init_hw, init_host_irq, init_device_irq in Hi. cbn in Hi.
    repeat (case_match; simplify_eq; try done). }
  unfold xrp_hw_simple_match in E. rewrite !elem_of_cons, elem_of_nil in E.
  destruct E as [E | [E | [E | []]]]; simplify_eq; intros Hx.
  - unfold init in Hx. destruct (init_hw_at p e 0) as [hw' |] eqn:Ei; [| done]. apply bind_Some in Hx as ([r y] & Hc & Hx).
    injection Hx as <- <- <-. split; [by eapply Hr | by exists V0].
  - unfold init_v1 in Hx. destruct (init_hw_at p e 1) as [hw' |] eqn:Ei; [| done]. apply bind_Some in Hx as ([r y] & Hc & Hx).
    injection Hx as <- <- <-. split; [by eapply Hr | by exists V1].
  - unfold init_cma in Hx. destruct (init_hw_at p e 0) as [hw' |] eqn:Ei; [| done]. apply bind_Some in Hx as ([r y] & Hc & Hx).
    injection Hx as <- <- <-. split; [by eapply Hr | by exists CMA].
Qed.

(** C20: a device with the simple back end whose registers could be mapped
    and whose probe succeeded is driven correctly at its registers, whatever
    they hold at first, from the probe on and through any sequence of resumes
    - also of a device that is off -, suspends and restarts of the firmware:
    every register access goes to mapped registers, the core is reset and the
    firmware and the shared word are written only while RUNSTALL is set, and
    the handshake runs only while it is clear and the core is out of reset.  A
    device that is off has its core stalled; and after the removal of the
    driver, a core that was started at least once is stalled and out of
    reset. *)
Theorem simple_core_safe of_match_device kz p e hw x s x' r0 :
  loopback < LOOPBACK_NOMMIO → pf_ioremap p = true → (∀ er, ie_map e = InitErr er → 0 < er) →
  (∀ l en, of_match_device l = Some en → en ∈ l) →
  xrp_hw_simple_probe loopback of_match_device kz p e = Some (0, Some hw, x) →
  rtc (pm_step (hw_ops loopback)) (x, if ie_pm e then Suspended else Active) (x', s) →
  (∃ r, regs_run hw r0 (xv_trace x') = Some r ∧ (xv_off x' = true → cr_stall r = true)) ∧
  ∃ r, regs_run hw r0 (xv_trace (xrp_hw_simple_remove loopback (match s with Suspended => true | Active => false end) x').2) = Some r ∧
    (xv_trace x' ≠ [] → cr_stall r = true ∧ cr_reset r = false).
Proof.
  intros Hl Hio Hmap Hm Hp Hrun. destruct (probe_init _ _ _ _ _ _ _ Hm Hp) as [Hregs [v Hv]]. rewrite Hio in Hregs.
  apply (init_regs_inv loopback hw Hl Hregs r0) in Hv; [| done]. apply (pm_regs loopback hw Hl Hregs r0) in Hrun; [| done].
  cbn [fst snd] in Hrun. unfold xrp_hw_simple_remove. rewrite (deinit_trace loopback Hl). split.
  - destruct Hrun as [(Et & -> & Eo) | (r & Hr & _ & Hst)]; [| eauto]. rewrite Et, Eo. by exists r0.
  - destruct s.
    + destruct Hrun as [(-> & _) | (r & Hr & Hreset & Hst)]; [by exists r0 | exists r; auto].
    + apply (suspend_regs loopback hw Hl Hregs) in Hrun as (r & Hr & ? & ?). by exists r.
Qed.
End probe_spec.

(** ** A concrete device *)

Module HwProbeExamples.
Import ProbeExamples.
#[local] Existing Instance arch32.

(** The memory of the device and, after it, its registers. *)
Definition env1 : init_env :=
  mk_init_env (λ n, match n with
                    | O => Some (0x20000000, 0x2000ffff)
                    | S O => Some (0x40000000, 0x40000fff)
                    | _ => None
                    end)
    (ie_ioremap env0) true (Some 1) 0 None (ie_map env0) 0 false (boot_ok 9) 0.
Definition match_v1 {A} (l : list (string * A)) : option (string * A) := l !! 1%nat.
Definition pf0 : platform := HwExamples.pf (Some 2) 0.

Definition dev1 : probe_result := default (-1, None, xvp_zero) (xrp_hw_simple_probe 0 match_v1 true pf0 env1).
(** A restart whose handshake fails, then a suspend. *)
Definition dev2 : xvp := (xrp_boot_firmware (hw_ops 0) (boot_dead 2) dev1.2).2.
Definition dev3 : xvp := (xrp_runtime_suspend (hw_ops 0) dev2).2.

Lemma dev_run : rtc (pm_step (hw_ops 0)) (dev1.2, Active) (dev3, Suspended).
Proof.
  apply (rtc_l _ _ (dev2, Active)).
  - refine (pm_reboot (hw_ops 0) (boot_dead 2) dev1.2 (- ENODEV) dev2 _ _); by vm_compute.
  - apply rtc_once. refine (pm_suspend (hw_ops 0) dev2 0 dev3 _); by vm_compute.
Qed.

Lemma simple_core_safe_witness :
  xrp_hw_simple_probe 0 match_v1 true pf0 env1 = Some (0, Some HwExamples.hw, dev1.2) ∧
  ∀ r0, (∃ r, regs_run HwExamples.hw r0 (xv_trace dev3) = Some r ∧ (xv_off dev3 = true → cr_stall r = true)) ∧
    ∃ r, regs_run HwExamples.hw r0 (xv_trace (xrp_hw_simple_remove 0 true dev3).2) = Some r ∧
      (xv_trace dev3 ≠ [] → cr_stall r = true ∧ cr_reset r = false).
Proof.
  assert (xrp_hw_simple_probe 0 match_v1 true pf0 env1 = Some (0, Some HwExamples.hw, dev1.2)) as Hp by (by vm_compute).
  split; [exact Hp |]. intros r0.
  apply (simple_core_safe 0 match_v1 true pf0 env1 HwExamples.hw dev1.2 Suspended dev3 r0 eq_refl eq_refl).
  - by intros er [=].
  - intros l en. apply list_elem_of_lookup_2.
  - exact Hp.
  - exact dev_run.
Defined.

Example dev_accesses :
  xv_trace dev3 ≫= event_mmio HwExamples.hw =
  [MmioWrite 8 1; MmioWrite 4 1; MmioWrite 4 0; MmioWrite 8 0; MmioWrite 8 1; MmioWrite 4 1; MmioWrite 4 0; MmioWrite 8 0;
   MmioWrite 8 1; MmioWrite 8 1].
Proof. by vm_compute. Qed.

(** Registers that could not be mapped: the probe does not notice, and the
    first access faults. *)
Example unmapped_registers_fault :
  let p := {| pf_resource := None; pf_ioremap := false; pf_device_irq := None; pf_device_irq_host_offset := None;
              pf_device_irq_mode := None; pf_host_irq := None; pf_host_irq_mode := None; pf_irq := -1; pf_request_irq := 0;
              pf_stack_device_mode := 0; pf_stack_host_mode := 0 |} in
  match xrp_hw_simple_probe 0 match_v1 true p env1 with
  | Some (0, Some hw, x) => regs_run hw (mk_core_regs false true) (xv_trace x) = None
  | _ => False
  end.
Proof. by vm_compute. Qed.

(** When registering the device fails after the core was started, the probe
    fails and the core keeps running. *)
Example failed_probe_leaves_core_running :
  match xrp_hw_simple_probe 0 match_v1 true pf0 (fail_misc env1) with
  | Some (ret, Some hw, x) => ret = - ENOMEM ∧ regs_run hw (mk_core_regs false true) (xv_trace x) = Some (mk_core_regs false false)
  | _ => False
  end.
Proof. by vm_compute. Qed.

(** No entry of the table, no memory for the state, no registers. *)
Example probe_errors :
  xrp_hw_simple_probe 0 (λ _, None) true pf0 env1 = Some (- ENODEV, None, xvp_zero) ∧
  xrp_hw_simple_probe 0 match_v1 false pf0 env1 = Some (- ENOMEM, None, xvp_zero) ∧
  xrp_hw_simple_probe 0 match_v1 true pf0
    (mk_init_env (λ n, match n with O => ie_mem env1 0 | _ => None end) (ie_ioremap env1) true (Some 1) 0 None (ie_map env1) 0 false (boot_ok 9) 0)
  = Some (- ENODEV, None, xvp_zero).
Proof. by vm_compute. Qed.
End HwProbeExamples.
