(* ===== verification/HwCache.v ===== *)
(** * Caches (xrp-kernel/xrp_hw_simple.c, xrp-kernel/xvp_main.c)

    The DSP does not see the caches of the host.  The driver cleans or flushes
    memory it shares in place, through the operations of the hardware back
    end, and synchronises shadow copies with the kernel's DMA interface.  The
    rest of the development takes memory to be one; this file shows when the
    driver's cache maintenance makes it so.

    The hardware is a memory with two levels of write-back caches, by line;
    the kernel's cache primitives are parameters, with their documented effect
    on the lines they cover as laws. *)

From stdpp Require Import base tactics list numbers relations.
From S2P Require Import Prelude Mem AddressMap Request PageMap Shadow Share.

(** ** A line and its copies *)

(** A copy in a cache: whether it is dirty, and its bytes by address. *)
Record line := mk_line { inner : option (bool * mem); outer : option (bool * mem); store : mem }.

Definition put (m : mem) (a v : Z) : mem := λ b, if b =? a then v else m b.

Definition outer_read (l : line) : mem := match outer l with Some (_, d) => d | None => store l end.
Definition line_read (l : line) : mem := match inner l with Some (_, d) => d | None => outer_read l end.

(** Write back one level: to the next level when it has the line, else to
    memory. *)
Definition clean_inner (l : line) : line :=
  match inner l with
  | Some (true, d) =>
      match outer l with
      | Some _ => mk_line (Some (false, d)) (Some (true, d)) (store l)
      | None => mk_line (Some (false, d)) None d
      end
  | _ => l
  end.
Definition clean_outer (l : line) : line :=
  match outer l with Some (true, d) => mk_line (inner l) (Some (false, d)) d | _ => l end.
Definition drop_inner (l : line) : line := mk_line None (outer l) (store l).
Definition drop_outer (l : line) : line := mk_line (inner l) None (store l).
Definition fetch_inner (l : line) : line :=
  match inner l with Some _ => l | None => mk_line (Some (false, outer_read l)) (outer l) (store l) end.
Definition fetch_outer (l : line) : line :=
  match outer l with Some _ => l | None => mk_line (inner l) (Some (false, store l)) (store l) end.

(** Stores of the processor, with or without a cache, and of the DSP. *)
Definition cpu_store (cached : bool) (a v : Z) (l : line) : line :=
  if cached then mk_line (Some (true, put (line_read l) a v)) (outer l) (store l)
  else mk_line (inner l) (outer l) (put (store l) a v).
Definition dev_store (a v : Z) (l : line) : line := mk_line (inner l) (outer l) (put (store l) a v).

(** ** Memory *)

Definition caches := Z → line.

Section hardware.
Variable cache_line : Z.

Definition line_of (a : Z) : Z := a / cache_line.
Definition cpu_read (s : caches) : mem := λ a, line_read (s (line_of a)) a.
Definition ram (s : caches) : mem := λ a, store (s (line_of a)) a.
Definition upd (s : caches) (k : Z) (f : line → line) : caches := λ j, if j =? k then f (s j) else s j.

(** The lines of [n] bytes at [p]. *)
Definition on_lines (p n k : Z) : bool := (0 <? n) && (line_of p <=? k) && (k <=? line_of (p + n - 1)).
Definition each_line (p n : Z) (f : line → line) (s : caches) : caches :=
  λ k, if on_lines p n k then f (s k) else s k.

(** *** The kernel's primitives *)

(** By virtual address and size, by physical start and end, and by physical
    address and size ([DMA_TO_DEVICE], [DMA_FROM_DEVICE]). *)
Class KernelCache := {
  __flush_dcache_range : Z → Z → caches → caches;
  __invalidate_dcache_range : Z → Z → caches → caches;
  __cpuc_flush_dcache_area : Z → Z → caches → caches;
  outer_clean_range : Z → Z → caches → caches;
  outer_flush_range : Z → Z → caches → caches;
  outer_inv_range : Z → Z → caches → caches;
  dma_sync_single_for_device : Z → Z → caches → caches;
  dma_sync_single_for_cpu : Z → Z → caches → caches;
}.

Definition clean_line (l : line) : Prop := ∀ d, inner l ≠ Some (true, d) ∧ outer l ≠ Some (true, d).

(** [n] bytes at [v] are consecutive in memory from [p] on. *)
Definition at_phys (follow : Z → result Z) (v p n : Z) : Prop :=
  ∀ j, 0 ≤ j < n → byte_phys follow (v + j) = Ok (p + j).

(** Xtensa's flush writes back; ARM's writes back and invalidates, in the
    inner cache; the outer cache has operations of its own.  After a
    synchronisation for the processor of memory it has not written it reads
    what the device wrote. *)
Class KernelCacheSpec `{KernelCache} (follow : Z → result Z) : Prop := {
  flush_dcache_spec v p n s k :
    at_phys follow v p n → __flush_dcache_range v n s k = each_line p n clean_inner s k;
  invalidate_dcache_spec v p n s k :
    at_phys follow v p n → __invalidate_dcache_range v n s k = each_line p n drop_inner s k;
  cpuc_flush_spec v p n s k :
    at_phys follow v p n →
    __cpuc_flush_dcache_area v n s k = each_line p n (λ l, drop_inner (clean_inner l)) s k;
  outer_clean_spec p n s k : outer_clean_range p (p + n) s k = each_line p n clean_outer s k;
  outer_flush_spec p n s k :
    outer_flush_range p (p + n) s k = each_line p n (λ l, drop_outer (clean_outer l)) s k;
  outer_inv_spec p n s k : outer_inv_range p (p + n) s k = each_line p n drop_outer s k;
  for_device_spec p n s k :
    dma_sync_single_for_device p n s k = each_line p n (λ l, clean_outer (clean_inner l)) s k;
  for_cpu_spec p n s k :
    (on_lines p n k = true → clean_line (s k)) →
    dma_sync_single_for_cpu p n s k = each_line p n (λ l, drop_outer (drop_inner l)) s k;
}.
End hardware.

(** ** The back end's operations *)

(** [__XTENSA__], [__arm__], and architectures without cache operations. *)
Inductive cache_arch := CaXtensa | CaArm | CaOther.

Section operations.
Context `{Arch} `{KernelCache} (arch : cache_arch).

Definition xtensa_clean_cache (vaddr paddr sz : Z) (s : caches) : caches := __flush_dcache_range vaddr sz s.
Definition xtensa_flush_cache (vaddr paddr sz : Z) (s : caches) : caches :=
  __invalidate_dcache_range vaddr sz (__flush_dcache_range vaddr sz s).
Definition xtensa_invalidate_cache (vaddr paddr sz : Z) (s : caches) : caches := __invalidate_dcache_range vaddr sz s.

Definition arm_clean_cache (vaddr paddr sz : Z) (s : caches) : caches :=
  outer_clean_range paddr (phys (paddr + sz)) (__cpuc_flush_dcache_area vaddr sz s).
Definition arm_flush_cache (vaddr paddr sz : Z) (s : caches) : caches :=
  outer_flush_range paddr (phys (paddr + sz)) (__cpuc_flush_dcache_area vaddr sz s).
Definition arm_invalidate_cache (vaddr paddr sz : Z) (s : caches) : caches :=
  outer_inv_range paddr (phys (paddr + sz)) (__cpuc_flush_dcache_area vaddr sz s).

(** Elsewhere the operations are empty. *)
Definition clean_cache (vaddr paddr sz : Z) (s : caches) : caches :=
  match arch with
  | CaXtensa => xtensa_clean_cache vaddr paddr sz s
  | CaArm => arm_clean_cache vaddr paddr sz s
  | CaOther => s
  end.
Definition flush_cache (vaddr paddr sz : Z) (s : caches) : caches :=
  match arch with
  | CaXtensa => xtensa_flush_cache vaddr paddr sz s
  | CaArm => arm_flush_cache vaddr paddr sz s
  | CaOther => s
  end.
Definition invalidate_cache (vaddr paddr sz : Z) (s : caches) : caches :=
  match arch with
  | CaXtensa => xtensa_invalidate_cache vaddr paddr sz s
  | CaArm => arm_invalidate_cache vaddr paddr sz s
  | CaOther => s
  end.

(** [if (do_cache)] at the end of [__xrp_share_block]; the same for kernel
    memory in [xrp_share_kernel]. *)
Definition share_cache (flags virt phys size : Z) (s : caches) : caches :=
  if negb (Z.land flags XRP_FLAG_WRITE =? 0) then flush_cache virt phys size s
  else if negb (Z.land flags XRP_FLAG_READ =? 0) then clean_cache virt phys size s
  else s.

(** [do_cache]: not for shadow copies. *)
Definition do_cache (m : xrp_mapping) : bool :=
  match m with
  | XRP_MAPPING_ALIEN am | XRP_MAPPING_KERNEL_ALIEN am => match am_type am with ALIEN_COPY => false | _ => true end
  | XRP_MAPPING_NATIVE _ _ | XRP_MAPPING_KERNEL => true
  | XRP_MAPPING_NONE => false
  end.

(** The end of [__xrp_share_block], which returns the mapping [m]. *)
Definition share_block_cache (m : xrp_mapping) (flags virt phys size : Z) (s : caches) : caches :=
  if do_cache m then share_cache flags virt phys size s else s.

(** Around the copy loop of [_xrp_copy_user_phys]: a copy that is made is
    synchronised for the device, one that is written back for the
    processor. *)
Definition copy_to_device (flags paddr size : Z) (s : caches) : caches :=
  if Z.land flags XRP_FLAG_READ =? 0 then s else dma_sync_single_for_device paddr size s.
Definition copy_from_device (flags paddr size : Z) (s : caches) : caches :=
  if Z.land flags XRP_FLAG_WRITE =? 0 then s else dma_sync_single_for_cpu paddr size s.
End operations.

(** ** Lines *)

(** Clean copies are copies. *)
Definition line_ok (l : line) : Prop :=
  (∀ d, inner l = Some (false, d) → d ≡ outer_read l) ∧ (∀ d, outer l = Some (false, d) → d ≡ store l).

(** The levels an architecture has: without cache operations memory has to
    be coherent. *)
Definition levels (arch : cache_arch) (l : line) : Prop :=
  match arch with
  | CaXtensa => outer l = None
  | CaArm => True
  | CaOther => inner l = None ∧ outer l = None
  end.
Definition has_inner (arch : cache_arch) : bool := match arch with CaOther => false | _ => true end.
Definition has_outer (arch : cache_arch) : bool := match arch with CaArm => true | _ => false end.

(** All copies of a byte are [v]. *)
Record copies_are (l : line) (a v : Z) : Prop := {
  ca_inner b d : inner l = Some (b, d) → d a = v;
  ca_outer b d : outer l = Some (b, d) → d a = v;
  ca_store : store l a = v;
}.

(** A change of the caches that does not touch the data. *)
Record keeps (l l' : line) : Prop := {
  kp_ok : line_ok l → line_ok l';
  kp_read : line_ok l → line_read l' ≡ line_read l;
  kp_copies a v : copies_are l a v → copies_are l' a v;
  kp_clean : clean_line l → clean_line l' ∧ store l' = store l;
}.

Lemma line_keeps_refl l : keeps l l.
Proof. by split. Qed.
Lemma line_keeps_trans l1 l2 l3 : keeps l1 l2 → keeps l2 l3 → keeps l1 l3.
Proof.
  intros [A1 A2 A3 A4] [B1 B2 B3 B4]. split; [auto | | auto |].
  - intros Hl a. rewrite (B2 (A1 Hl) a). by apply A2.
  - intros [Hc E]%A4. destruct (B4 Hc) as [? E']. split; [done | congruence].
Qed.

(** Decides facts about a line by cases on its copies. *)
Ltac line_cases :=
  intros; repeat match goal with l : line |- _ => destruct l as [[[[] ?] |] [[[] ?] |] ?] end;
  unfold line_ok, line_read, outer_read, clean_line in *; cbn in *;
  repeat match goal with H : copies_are _ _ _ |- _ => destruct H; cbn in * end; try done;
  repeat match goal with |- copies_are _ _ _ => split end; cbn;
  first [naive_solver | symmetry; naive_solver].

Lemma keeps_clean_inner l : keeps l (clean_inner l).
Proof. split; unfold clean_inner; line_cases. Qed.
Lemma keeps_clean_outer l : keeps l (clean_outer l).
Proof. split; unfold clean_outer; line_cases. Qed.
Lemma keeps_fetch_inner l : keeps l (fetch_inner l).
Proof. split; unfold fetch_inner; line_cases. Qed.
Lemma keeps_fetch_outer l : keeps l (fetch_outer l).
Proof. split; unfold fetch_outer; line_cases. Qed.
Lemma keeps_evict_inner l : keeps l (drop_inner (clean_inner l)).
Proof. split; unfold drop_inner, clean_inner; line_cases. Qed.
Lemma keeps_evict_outer l : keeps l (drop_outer (clean_outer l)).
Proof.
  split; [| unfold drop_outer, clean_outer; line_cases..]. intros [Hi Ho]. unfold drop_outer, clean_outer, outer_read in *.
  destruct (outer l) as [[[] d] |]; cbn in *; (split; cbn; [| done]); intros d' Hd; [by apply Hi | | by apply Hi].
  rewrite (Hi d' Hd). by apply Ho.
Qed.

Lemma clean_copies l a : line_ok l → clean_line l → copies_are l a (line_read l a).
Proof.
  intros [Hi Ho] Hc. unfold line_read, outer_read in *.
  assert (∀ b d, outer l = Some (b, d) → d a = store l a) as Hos
    by (intros [] d E; [by destruct (Hc d) | by apply (Ho d)]).
  assert (∀ b d, inner l = Some (b, d) → d a = match outer l with Some (_, d) => d a | None => store l a end) as His.
  { intros [] d E; [by destruct (Hc d) |]. rewrite (Hi d E a). by destruct (outer l) as [[]|]. }
  destruct (inner l) as [[b1 d1] |] eqn:E1, (outer l) as [[b2 d2] |] eqn:E2; split; intros; simplify_eq; try done;
    rewrite ?(His _ _ eq_refl), ?(Hos _ _ eq_refl); done.
Qed.

(** What the operations of the back end do to a line. *)
Definition cleaned (arch : cache_arch) (l : line) : line :=
  match arch with
  | CaXtensa => clean_inner l
  | CaArm => clean_outer (drop_inner (clean_inner l))
  | CaOther => l
  end.
Definition flushed (arch : cache_arch) (l : line) : line :=
  match arch with
  | CaXtensa => drop_inner (clean_inner l)
  | CaArm => drop_outer (clean_outer (drop_inner (clean_inner l)))
  | CaOther => l
  end.

Lemma cleaned_line arch l : levels arch l → keeps l (cleaned arch l) ∧ clean_line (cleaned arch l) ∧ levels arch (cleaned arch l).
Proof.
  intros Hl. split_and!.
  - destruct arch; cbn; [apply keeps_clean_inner | | apply line_keeps_refl].
    eapply line_keeps_trans; [apply keeps_evict_inner | apply keeps_clean_outer].
  - unfold clean_line. destruct arch, l as [[[[] ?] |] [[[] ?] |] ?]; cbn in *; naive_solver.
  - destruct arch, l as [[[[] ?] |] [[[] ?] |] ?]; cbn in *; naive_solver.
Qed.

Lemma flushed_line arch l :
  levels arch l → keeps l (flushed arch l) ∧ inner (flushed arch l) = None ∧ outer (flushed arch l) = None.
Proof.
  intros Hl. split_and!.
  - destruct arch; cbn; [apply keeps_evict_inner | | apply line_keeps_refl].
    eapply line_keeps_trans; [apply keeps_evict_inner | apply keeps_evict_outer].
  - destruct arch, l as [[[[] ?] |] [[[] ?] |] ?]; cbn in *; naive_solver.
  - destruct arch, l as [[[[] ?] |] [[[] ?] |] ?]; cbn in *; naive_solver.
Qed.

Section operations_spec.
Context `{Arch} {cl : Z} `{!KernelCache} (follow : Z → result Z) `{!KernelCacheSpec cl follow} (arch : cache_arch).

(** A block in the range of physical addresses. *)
Definition phys_block (p n : Z) : Prop := 0 ≤ p ∧ 0 < n ∧ p + n < 2 ^ phys_bits.

Lemma clean_cache_line v p n s k :
  at_phys follow v p n → phys_block p n → clean_cache arch v p n s k = each_line cl p n (cleaned arch) s k.
Proof.
  intros Ha (Hp & Hn & Hb). unfold clean_cache, xtensa_clean_cache, arm_clean_cache. destruct arch.
  - apply (flush_dcache_spec cl v p n s k Ha).
  - rewrite phys_small by lia. rewrite (outer_clean_spec cl (follow := follow)). unfold each_line.
    rewrite (cpuc_flush_spec cl v p n s k Ha). unfold each_line. by destruct (on_lines _ _ _ _).
  - unfold each_line. by destruct (on_lines _ _ _ _).
Qed.

Lemma flush_cache_line v p n s k :
  at_phys follow v p n → phys_block p n → flush_cache arch v p n s k = each_line cl p n (flushed arch) s k.
Proof.
  intros Ha (Hp & Hn & Hb). unfold flush_cache, xtensa_flush_cache, arm_flush_cache. destruct arch.
  - rewrite (invalidate_dcache_spec cl v p n _ k Ha). unfold each_line.
    rewrite (flush_dcache_spec cl v p n s k Ha). unfold each_line. by destruct (on_lines _ _ _ _).
  - rewrite phys_small by lia. rewrite (outer_flush_spec cl (follow := follow)). unfold each_line.
    rewrite (cpuc_flush_spec cl v p n s k Ha). unfold each_line. by destruct (on_lines _ _ _ _).
  - unfold each_line. by destruct (on_lines _ _ _ _).
Qed.
End operations_spec.

(** ** Memory that is shared *)

(** The DSP may read a block, write one that is used in place, or write a
    shadow copy. *)
Inductive mode := ReadOnly | InPlace | Copied.
#[export] Instance mode_eq_dec : EqDecision mode.
Proof. solve_decision. Defined.
Record block := mk_block { b_addr : Z; b_size : Z; b_mode : mode }.

(** The caches, the memory both sides are meant to see, and the blocks the
    DSP has. *)
Record sys := mk_sys { sy_caches : caches; sy_mem : mem; sy_owned : list block }.

(** The blocks of a mapping, by the access asked for. *)
Definition shared_as (writable : mode) (flags p n : Z) : list block :=
  if negb (Z.land flags XRP_FLAG_WRITE =? 0) then [mk_block p n writable]
  else if negb (Z.land flags XRP_FLAG_READ =? 0) then [mk_block p n ReadOnly] else [].

Section system.
Context `{Arch} (cl : Z) `{!KernelCache} (follow : Z → result Z) (arch : cache_arch).

Definition in_block (b : block) (a : Z) : Prop := b_addr b ≤ a < b_addr b + b_size b.
Definition on_block (b : block) (k : Z) : Prop := on_lines cl (b_addr b) (b_size b) k = true.
Definition owned_as (o : list block) (md : mode) (k : Z) : Prop := Exists (λ b, b_mode b = md ∧ on_block b k) o.
(** The lines of a new block are not those of blocks owned as [md]. *)
Definition apart (o : list block) (md : mode) (p n : Z) : Prop :=
  ∀ k, on_lines cl p n k = true → ¬ owned_as o md k.

(** What a step does that may have to be restricted. *)
Inductive access := CpuStores (a : Z) | Fetches (k : Z) | Shares (p n : Z) | Copies (flags p n : Z) | Quiet.

(** The processor stores anywhere.  Caches fetch and evict any line at any
    time.  The DSP writes the blocks it may write.  The driver shares and
    unshares: in place, or by a shadow copy. *)
Inductive cache_step : sys → access → sys → Prop :=
| cpu_stores a v s m o :
    cache_step (mk_sys s m o) (CpuStores a) (mk_sys (upd s (line_of cl a) (cpu_store (has_inner arch) a v)) (put m a v) o)
| fetches_inner k s m o :
    has_inner arch = true → cache_step (mk_sys s m o) (Fetches k) (mk_sys (upd s k fetch_inner) m o)
| fetches_outer k s m o :
    has_outer arch = true → cache_step (mk_sys s m o) (Fetches k) (mk_sys (upd s k fetch_outer) m o)
| evicts_inner k s m o : cache_step (mk_sys s m o) Quiet (mk_sys (upd s k (λ l, drop_inner (clean_inner l))) m o)
| evicts_outer k s m o : cache_step (mk_sys s m o) Quiet (mk_sys (upd s k (λ l, drop_outer (clean_outer l))) m o)
| dsp_stores a v b s m o :
    b ∈ o → b_mode b ≠ ReadOnly → in_block b a →
    cache_step (mk_sys s m o) Quiet (mk_sys (upd s (line_of cl a) (dev_store a v)) (put m a v) o)
| shares mp flags v p n s m o :
    do_cache mp = true → at_phys follow v p n → phys_block p n →
    cache_step (mk_sys s m o) (Shares p n) (mk_sys (share_block_cache arch mp flags v p n s) m (shared_as InPlace flags p n ++ o))
| copies flags p n s m o :
    cache_step (mk_sys s m o) (Copies flags p n) (mk_sys (copy_to_device flags p n s) m (shared_as Copied flags p n ++ o))
| unshares b s m o1 o2 :
    b_mode b ≠ Copied → cache_step (mk_sys s m (o1 ++ b :: o2)) Quiet (mk_sys s m (o1 ++ o2))
| unshares_copy b flags s m o1 o2 :
    b_mode b = Copied → Z.land flags XRP_FLAG_WRITE ≠ 0 →
    cache_step (mk_sys s m (o1 ++ b :: o2)) Quiet (mk_sys (copy_from_device flags (b_addr b) (b_size b) s) m (o1 ++ o2)).

(** Runs, with the state each step starts in. *)
Inductive cache_run (σ0 : sys) : list (sys * access) → sys → Prop :=
| cache_run_none : cache_run σ0 [] σ0
| cache_run_more tr σ e σ' : cache_run σ0 tr σ → cache_step σ e σ' → cache_run σ0 ((σ, e) :: tr) σ'.

(** The processor keeps off the blocks of the DSP, and off their lines when
    the DSP may write them. *)
Definition processor_keeps_off (tr : list (sys * access)) : Prop :=
  ∀ σ a, (σ, CpuStores a) ∈ tr →
    (∀ b, b ∈ sy_owned σ → ¬ in_block b a) ∧
    ¬ owned_as (sy_owned σ) InPlace (line_of cl a) ∧ ¬ owned_as (sy_owned σ) Copied (line_of cl a).

(** No cache fetches a line of a block the DSP writes in place. *)
Definition no_fetch_of_written (tr : list (sys * access)) : Prop :=
  ∀ σ k, (σ, Fetches k) ∈ tr → ¬ owned_as (sy_owned σ) InPlace k.

(** Shadow copies have lines of their own, which are not dirty when a copy
    the DSP does not read is placed there. *)
Definition copies_apart (tr : list (sys * access)) : Prop :=
  ∀ σ, (∀ p n, (σ, Shares p n) ∈ tr → apart (sy_owned σ) Copied p n) ∧
       ∀ flags p n, (σ, Copies flags p n) ∈ tr →
         (∀ md, apart (sy_owned σ) md p n) ∧
         (Z.land flags XRP_FLAG_READ = 0 → ∀ k, on_lines cl p n k = true → clean_line (sy_caches σ k)).

(** ** Invariant *)

Record line_inv (m : mem) (o : list block) (k : Z) (l : line) : Prop := {
  li_levels : levels arch l;
  li_cpu : ¬ owned_as o Copied k → line_ok l ∧ ∀ a, line_of cl a = k → line_read l a = m a;
  li_in_place : owned_as o InPlace k → inner l = None ∧ outer l = None;
  li_copied : owned_as o Copied k → clean_line l;
  li_read b a : b ∈ o → b_mode b = ReadOnly → in_block b a → line_of cl a = k → copies_are l a (m a);
  li_store : owned_as o InPlace k ∨ owned_as o Copied k → ∀ a, line_of cl a = k → store l a = m a;
}.

Record sys_inv (σ : sys) : Prop := {
  si_line k : line_inv (sy_mem σ) (sy_owned σ) k (sy_caches σ k);
  si_apart k : owned_as (sy_owned σ) ReadOnly k → ¬ owned_as (sy_owned σ) Copied k;
}.

Hypothesis Hcl : 0 < cl.

#[local] Instance owned_dec o md k : Decision (owned_as o md k).
Proof. unfold owned_as, on_block. apply _. Defined.

Lemma in_on_block b a : in_block b a → on_block b (line_of cl a).
Proof.
  unfold in_block, on_block, on_lines, line_of. intros [H1 H2].
  assert (b_addr b / cl ≤ a / cl ≤ (b_addr b + b_size b - 1) / cl) by (split; apply Z.div_le_mono; lia). lia.
Qed.

Lemma owned_in o b a : b ∈ o → in_block b a → owned_as o (b_mode b) (line_of cl a).
Proof. intros Hb Ha. apply list.Exists_exists. exists b. split_and!; [done | done | by apply in_on_block]. Qed.

Lemma put_ne m a v b : b ≠ a → put m a v b = m b.
Proof. unfold put. destruct (Z.eqb_spec b a); done. Qed.

Lemma line_inv_other m o k l a v : line_of cl a ≠ k → line_inv m o k l → line_inv (put m a v) o k l.
Proof.
  intros Hne [H1 H2 H3 H4 H5 H6].
  assert (∀ b, line_of cl b = k → put m a v b = m b) as Hp by (intros b <-; apply put_ne; congruence).
  split; [done | | done | done | |].
  - intros Hc. destruct (H2 Hc) as [? Hr]. split; [done |]. intros b Hb. rewrite Hp by done. auto.
  - intros b c Hb Hm Hi Hk. rewrite Hp by done. eauto.
  - intros Ho b Hb. rewrite Hp by done. auto.
Qed.

(** A line whose copies are all clean, or that has none. *)
Lemma clean_store m o k l a : line_inv m o k l → clean_line l → line_of cl a = k → store l a = m a.
Proof.
  intros Hi Hc Ha. destruct (decide (owned_as o Copied k)) as [Ho | Ho]; [apply Hi; auto |].
  destruct (li_cpu _ _ _ _ Hi Ho) as [Hok Hr]. rewrite (ca_store _ _ _ (clean_copies l a Hok Hc)). auto.
Qed.
Lemma none_clean l : inner l = None ∧ outer l = None → clean_line l.
Proof. intros [E1 E2] d. by rewrite E1, E2. Qed.

Lemma line_inv_keeps m o k l l' :
  line_inv m o k l → keeps l l' → levels arch l' → (owned_as o InPlace k → inner l' = None ∧ outer l' = None) →
  line_inv m o k l'.
Proof.
  intros Hi Hk Hl Hp. destruct (Hi) as [H1 H2 H3 H4 H5 H6]. destruct Hk as [K1 K2 K3 K4]. split; [done | | done | | |].
  - intros Hc. destruct (H2 Hc) as [Hok Hr]. split; [auto |]. intros a Ha. rewrite (K2 Hok a). auto.
  - intros Hc. apply K4. auto.
  - eauto.
  - intros Ho a Ha. assert (clean_line l) as Hc by (destruct Ho; [by apply none_clean, H3 | auto]).
    rewrite (proj2 (K4 Hc)). by apply (clean_store m o k).
Qed.

(** A new block, and one given back. *)
Lemma line_inv_add m o k l b :
  line_inv m o k l →
  (on_block b k → match b_mode b with
                  | ReadOnly => ∀ a, in_block b a → line_of cl a = k → copies_are l a (m a)
                  | InPlace => inner l = None ∧ outer l = None
                  | Copied => clean_line l
                  end) →
  line_inv m (b :: o) k l.
Proof.
  intros Hi Hb. destruct (Hi) as [H1 H2 H3 H4 H5 H6].
  assert (∀ md, owned_as (b :: o) md k → owned_as o md k ∨ b_mode b = md ∧ on_block b k) as Hs
    by (intros md [? | ?]%Exists_cons; auto).
  split; [done | | | | |].
  - intros Hc. apply H2. intros ?. apply Hc. by right.
  - intros [? | [E ?]]%Hs; [auto |]. rewrite E in Hb. auto.
  - intros [? | [E ?]]%Hs; [auto |]. rewrite E in Hb. auto.
  - intros b' a [-> | Hin]%elem_of_cons Hm Ha Hk; [| eauto]. rewrite Hm in Hb. apply Hb; [| done | done].
    rewrite <- Hk. by apply in_on_block.
  - intros Ho a Ha. destruct (decide (owned_as o InPlace k ∨ owned_as o Copied k)) as [? | Hn]; [auto |].
    apply (clean_store m o k); [done | | done].
    destruct Ho as [[? | [E ?]]%Hs | [? | [E ?]]%Hs]; [tauto | | tauto |]; rewrite E in Hb; [apply none_clean |]; auto.
Qed.

Lemma line_inv_remove m o1 o2 k l b :
  line_inv m (o1 ++ b :: o2) k l → (b_mode b = Copied → on_block b k → inner l = None ∧ outer l = None) →
  line_inv m (o1 ++ o2) k l.
Proof.
  intros Hi Hb. destruct (Hi) as [H1 H2 H3 H4 H5 H6].
  assert (∀ md, owned_as (o1 ++ o2) md k → owned_as (o1 ++ b :: o2) md k) as Hs.
  { intros md. unfold owned_as. rewrite !Exists_app, Exists_cons. tauto. }
  split; [done | | auto | auto | |].
  - intros Hc. destruct (decide (owned_as (o1 ++ b :: o2) Copied k)) as [Ho | Ho]; [| auto].
    assert (inner l = None ∧ outer l = None) as Hn.
    { unfold owned_as in *. rewrite Exists_app in Hc, Ho. rewrite Exists_cons in Ho. apply Hb; tauto. }
    assert (clean_line l) as Hcl' by (by apply none_clean). destruct Hn as [E1 E2].
    split; [by unfold line_ok; rewrite E1, E2 |]. intros a Ha. unfold line_read, outer_read. rewrite E1, E2. auto.
  - intros b' a Hin. apply H5. rewrite elem_of_app in *. rewrite elem_of_cons. tauto.
  - intros Ho. apply H6. destruct Ho; [left | right]; auto.
Qed.

Lemma cpu_store_inv m o l a v :
  line_inv m o (line_of cl a) l → (∀ b, b ∈ o → ¬ in_block b a) →
  ¬ owned_as o InPlace (line_of cl a) → ¬ owned_as o Copied (line_of cl a) →
  line_inv (put m a v) o (line_of cl a) (cpu_store (has_inner arch) a v l).
Proof.
  intros [H1 H2 H3 H4 H5 H6] Hb Hp Hc. destruct (H2 Hc) as [[Hi Ho] Hr].
  assert (∀ b x, b ∈ o → in_block b x → x ≠ a) as Hne by (intros b x Hin Hx ->; by apply (Hb b)).
  assert (line_ok (cpu_store (has_inner arch) a v l) ∧ line_read (cpu_store (has_inner arch) a v l) = put (line_read l) a v) as [Hok Er].
  { unfold cpu_store. destruct (has_inner arch) eqn:E; [done |]. destruct arch; try done. destruct H1 as [E1 E2].
    unfold line_ok, line_read, outer_read. cbn. by rewrite E1, E2. }
  split; [| | tauto | tauto | | tauto].
  - unfold cpu_store. by destruct arch.
  - intros _. split; [done |]. intros x Hx. rewrite Er. unfold put. destruct (x =? a); auto.
  - intros b x Hin Hm Hx Hk. rewrite put_ne by eauto. destruct (H5 b x Hin Hm Hx Hk) as [C1 C2 C3].
    unfold cpu_store. destruct (has_inner arch); split; cbn; [| done | done | done | done |].
    + intros ? ? [= <- <-]. rewrite put_ne by eauto. auto.
    + rewrite put_ne by eauto. done.
Qed.

Lemma dev_store_inv m o l a v b :
  line_inv m o (line_of cl a) l → (owned_as o ReadOnly (line_of cl a) → ¬ owned_as o Copied (line_of cl a)) →
  b ∈ o → b_mode b ≠ ReadOnly → in_block b a →
  line_inv (put m a v) o (line_of cl a) (dev_store a v l).
Proof.
  intros [H1 H2 H3 H4 H5 H6] Hap Hin Hm Hx. pose proof (owned_in o b a Hin Hx) as Ho.
  assert (owned_as o InPlace (line_of cl a) ∨ owned_as o Copied (line_of cl a)) as Hw by (destruct (b_mode b); tauto).
  specialize (H6 Hw). assert (∀ x, line_of cl x = line_of cl a → put (store l) a v x = put m a v x) as Hs
    by (intros x E; unfold put; destruct (x =? a); auto).
  split; cbn [dev_store inner outer store]; [by destruct arch | | done | done | | by auto].
  - intros Hc. destruct Hw as [Hw | ?]; [| done]. destruct (H3 Hw) as [E1 E2].
    unfold line_ok, line_read, outer_read. cbn. rewrite E1, E2. by split; [| auto].
  - intros b' x Hin' Hm' Hx' Hk. pose proof (owned_in o b' x Hin' Hx') as Hr. rewrite Hm', Hk in Hr.
    destruct Hw as [Hw | ?]; [| by destruct (Hap Hr)]. destruct (H3 Hw) as [E1 E2].
    split; cbn; rewrite ?E1, ?E2; [done | done | auto].
Qed.

(** *** Every step keeps the invariant *)

Lemma sys_inv_upd s m o k f m' :
  sys_inv (mk_sys s m o) → line_inv m' o k (f (s k)) → (∀ j, j ≠ k → line_inv m o j (s j) → line_inv m' o j (s j)) →
  sys_inv (mk_sys (upd s k f) m' o).
Proof.
  intros [Hl Ha] Hk Hj. split; [| done]. intros j. cbn in *. unfold upd. destruct (Z.eqb_spec j k) as [-> | Hne]; auto.
Qed.

Lemma evict_none l :
  inner l = None ∧ outer l = None →
  (inner (drop_inner (clean_inner l)) = None ∧ outer (drop_inner (clean_inner l)) = None) ∧
  (inner (drop_outer (clean_outer l)) = None ∧ outer (drop_outer (clean_outer l)) = None).
Proof. destruct l as [[[] |] [[] |] ?]; naive_solver. Qed.

Lemma levels_keep l :
  levels arch l →
  levels arch (drop_inner (clean_inner l)) ∧ levels arch (drop_outer (clean_outer l)) ∧
  (has_inner arch = true → levels arch (fetch_inner l)) ∧ (has_outer arch = true → levels arch (fetch_outer l)).
Proof. destruct arch, l as [[[[] ?] |] [[[] ?] |] ?]; cbn; naive_solver. Qed.

Lemma cache_inv s m o k f :
  sys_inv (mk_sys s m o) → keeps (s k) (f (s k)) → levels arch (f (s k)) →
  (owned_as o InPlace k → inner (f (s k)) = None ∧ outer (f (s k)) = None) →
  sys_inv (mk_sys (upd s k f) m o).
Proof.
  intros Hi Hk Hl Hp. apply (sys_inv_upd s m o k f m Hi); [| done]. eapply line_inv_keeps; [apply Hi | done..].
Qed.

(** A range of lines is treated and a block added. *)
Lemma range_inv s s' m o p n f (bs : list block) :
  sys_inv (mk_sys s m o) → (∀ k, s' k = each_line cl p n f s k) →
  (∀ b, b ∈ bs → b_addr b = p ∧ b_size b = n) → (length bs ≤ 1)%nat →
  (∀ k, owned_as (bs ++ o) ReadOnly k → ¬ owned_as (bs ++ o) Copied k) →
  (∀ k, on_lines cl p n k = true → line_inv m (bs ++ o) k (f (s k))) →
  sys_inv (mk_sys s' m (bs ++ o)).
Proof.
  intros Hi Hs Hbs Hlen Hap Hk. split; [| done]. intros k. cbn. rewrite Hs. unfold each_line.
  destruct (on_lines cl p n k) eqn:Eon; [auto |].
  pose proof (si_line _ Hi k) as Hl. cbn in Hl. destruct bs as [| b [|]]; [done | | cbn in *; lia].
  cbn. apply line_inv_add; [done |]. unfold on_block. destruct (Hbs b ltac:(set_solver)) as [-> ->]. congruence.
Qed.

Lemma levels_none l : inner l = None ∧ outer l = None → levels arch l.
Proof. by destruct arch; cbn; intros []. Qed.

Lemma for_device_line l :
  levels arch l → keeps l (clean_outer (clean_inner l)) ∧ clean_line (clean_outer (clean_inner l)) ∧
  levels arch (clean_outer (clean_inner l)).
Proof.
  intros Hl. split_and!; [eapply line_keeps_trans; [apply keeps_clean_inner | apply keeps_clean_outer] | |].
  - unfold clean_line. destruct l as [[[[] ?] |] [[[] ?] |] ?]; cbn; naive_solver.
  - destruct arch, l as [[[[] ?] |] [[[] ?] |] ?]; cbn in *; naive_solver.
Qed.

Lemma owned_new p n md md' o k :
  owned_as (mk_block p n md' :: o) md k ↔ md' = md ∧ on_lines cl p n k = true ∨ owned_as o md k.
Proof. unfold owned_as. rewrite Exists_cons. done. Qed.

(** The lines of a block that is shared in place. *)
Lemma flushed_inv m o k l :
  line_inv m o k l → line_inv m o k (flushed arch l) ∧ inner (flushed arch l) = None ∧ outer (flushed arch l) = None.
Proof.
  intros Hi. destruct (flushed_line arch l (li_levels _ _ _ _ Hi)) as [Hk Hn]. split; [| done].
  eapply line_inv_keeps; [done | done | by apply levels_none | done].
Qed.

Lemma cleaned_inv m o k l :
  line_inv m o k l → ¬ owned_as o Copied k →
  line_inv m o k (cleaned arch l) ∧ ∀ a, line_of cl a = k → copies_are (cleaned arch l) a (m a).
Proof.
  intros Hi Hc. destruct (cleaned_line arch l (li_levels _ _ _ _ Hi)) as (Hk & Hcl' & Hl).
  assert (line_inv m o k (cleaned arch l)) as Hi'.
  { eapply line_inv_keeps; [done | done | done |]. intros Ho. destruct (li_in_place _ _ _ _ Hi Ho).
    destruct l as [[] [] ?]; try done. by destruct arch. }
  split; [done |]. intros a Ha. destruct (li_cpu _ _ _ _ Hi' Hc) as [Hok Hr]. rewrite <- (Hr a Ha). by apply clean_copies.
Qed.

Context `{!KernelCacheSpec cl follow}.

Lemma shares_inv mp flags v p n s m o :
  sys_inv (mk_sys s m o) → do_cache mp = true → at_phys follow v p n → phys_block p n → apart o Copied p n →
  sys_inv (mk_sys (share_block_cache arch mp flags v p n s) m (shared_as InPlace flags p n ++ o)).
Proof.
  intros Hi Hd Hat Hpb Hap. unfold share_block_cache, share_cache, shared_as. rewrite Hd.
  destruct (negb (Z.land flags XRP_FLAG_WRITE =? 0)); [| destruct (negb (Z.land flags XRP_FLAG_READ =? 0)); [| done]].
  - apply (range_inv s _ m o p n (flushed arch)); [done | | set_solver | done | |].
    + intros k. by eapply flush_cache_line.
    + intros k. cbn [app]. rewrite !owned_new. intros [[? _] | ?] [[? _] | ?]; try done. by apply (si_apart _ Hi k).
    + intros k Hk. destruct (flushed_inv m o k (s k) (si_line _ Hi k)). by apply line_inv_add.
  - apply (range_inv s _ m o p n (cleaned arch)); [done | | set_solver | done | |].
    + intros k. by eapply clean_cache_line.
    + intros k. cbn [app]. rewrite !owned_new. intros [[_ Hk] | ?] [[? _] | ?]; try done; [by apply (Hap k) | by apply (si_apart _ Hi k)].
    + intros k Hk. destruct (cleaned_inv m o k (s k) (si_line _ Hi k) (Hap k Hk)). apply line_inv_add; [done |]. cbn. auto.
Qed.

Lemma copied_inv m o k l flags :
  line_inv m o k l → ¬ owned_as o InPlace k → (Z.land flags XRP_FLAG_READ = 0 → clean_line l) →
  let l' := if Z.land flags XRP_FLAG_READ =? 0 then l else clean_outer (clean_inner l) in
  line_inv m o k l' ∧ clean_line l'.
Proof.
  intros Hi Hp Hc. cbn. destruct (Z.eqb_spec (Z.land flags XRP_FLAG_READ) 0); [auto |].
  destruct (for_device_line l (li_levels _ _ _ _ Hi)) as (Hk & ? & ?). split; [| done].
  by eapply line_inv_keeps.
Qed.

Lemma copies_inv flags p n s m o :
  sys_inv (mk_sys s m o) → (Z.land flags XRP_FLAG_READ = 0 → ∀ k, on_lines cl p n k = true → clean_line (s k)) →
  (∀ md, apart o md p n) → sys_inv (mk_sys (copy_to_device flags p n s) m (shared_as Copied flags p n ++ o)).
Proof.
  intros Hi Hc Hap.
  apply (range_inv s _ m o p n (λ l, if Z.land flags XRP_FLAG_READ =? 0 then l else clean_outer (clean_inner l))); [done | | | | |].
  - intros k. unfold copy_to_device. destruct (_ =? 0); [unfold each_line; by destruct (on_lines _ _ _ _) |].
    apply (for_device_spec cl (follow := follow)).
  - unfold shared_as. repeat case_match; set_solver.
  - unfold shared_as. repeat case_match; cbn; lia.
  - intros k. pose proof (si_apart _ Hi k) as Ha. cbn in Ha. unfold shared_as.
    destruct (negb _); [| destruct (negb _); [| done]]; cbn [app]; rewrite !owned_new.
    + intros [[? _] | Hr] [[_ Hk] | Hc']; [done | done | by apply (Hap ReadOnly k Hk) | by apply Ha].
    + intros [[_ Hk] | Hr] [[? _] | Hc']; [done | by apply (Hap Copied k Hk) | done | by apply Ha].
  - intros k Hk. destruct (copied_inv m o k (s k) flags (si_line _ Hi k) (Hap _ k Hk) (λ E, Hc E k Hk)) as [Hl Hcl'].
    unfold shared_as. destruct (negb _); [by apply line_inv_add |]. destruct (negb _); [| done].
    apply line_inv_add; [done |]. cbn. intros _ a _ Ha. destruct (li_cpu _ _ _ _ Hl (Hap _ k Hk)) as [Hok Hr].
    rewrite <- (Hr a Ha). by apply clean_copies.
Qed.

Lemma line_inv_none m o k l :
  inner l = None ∧ outer l = None → (∀ a, line_of cl a = k → store l a = m a) → line_inv m o k l.
Proof.
  intros [E1 E2] Hs. split; [by apply levels_none | | done | by intros _; apply none_clean | | auto].
  - intros _. unfold line_ok, line_read, outer_read. rewrite E1, E2. by split; [| auto].
  - intros b a _ _ _ Ha. split; [by rewrite E1 | by rewrite E2 | auto].
Qed.

Lemma owned_remove o1 b o2 md k : owned_as (o1 ++ o2) md k → owned_as (o1 ++ b :: o2) md k.
Proof. unfold owned_as. rewrite !Exists_app, Exists_cons. tauto. Qed.

Lemma unshares_copy_inv b flags s m o1 o2 :
  sys_inv (mk_sys s m (o1 ++ b :: o2)) → b_mode b = Copied → Z.land flags XRP_FLAG_WRITE ≠ 0 →
  sys_inv (mk_sys (copy_from_device flags (b_addr b) (b_size b) s) m (o1 ++ o2)).
Proof.
  intros [Hl Ha] Hb Hf. cbn in Hl, Ha. split; [| intros k Hr Hc; apply (Ha k); by apply owned_remove].
  intros k. cbn. unfold copy_from_device. rewrite (proj2 (Z.eqb_neq _ _)) by done.
  assert (on_lines cl (b_addr b) (b_size b) k = true → owned_as (o1 ++ b :: o2) Copied k) as Ho.
  { intros Hk. unfold owned_as. rewrite Exists_app, Exists_cons. right. left. by split. }
  rewrite (for_cpu_spec cl (follow := follow)) by (intros Hk; apply (li_copied _ _ _ _ (Hl k)); auto).
  unfold each_line. destruct (on_lines cl (b_addr b) (b_size b) k) eqn:Ek.
  - apply line_inv_none; [done |]. cbn. intros a. apply (clean_store m (o1 ++ b :: o2) k); [apply Hl |].
    apply (li_copied _ _ _ _ (Hl k)). auto.
  - apply (line_inv_remove m o1 o2 k _ b); [apply Hl |]. unfold on_block. congruence.
Qed.

(** The three restrictions, for one step. *)
Definition restricted (e : access) (σ : sys) : Prop :=
  processor_keeps_off [(σ, e)] ∧ no_fetch_of_written [(σ, e)] ∧ copies_apart [(σ, e)].

Lemma restrictions_sub tr tr' :
  tr ⊆ tr' → processor_keeps_off tr' → no_fetch_of_written tr' → copies_apart tr' →
  processor_keeps_off tr ∧ no_fetch_of_written tr ∧ copies_apart tr.
Proof.
  intros Hs Ha Hb Hc. split_and!; [intros σ a Hin; by apply Ha, Hs | intros σ k Hin; by apply Hb, Hs |].
  intros σ. destruct (Hc σ) as [H1 H2]. split; [intros p n Hin; by apply H1, Hs | intros flags p n Hin; by apply H2, Hs].
Qed.

Lemma cache_step_inv σ e σ' : cache_step σ e σ' → restricted e σ → sys_inv σ → sys_inv σ'.
Proof.
  intros Hs (Hst & Hfe & Hco) Hi. pose proof (λ x, list_elem_of_here x (@nil (sys * access))) as Hin0.
  destruct Hs as [a v s m o | k s m o Hh | k s m o Hh | k s m o | k s m o
    | a v b s m o Hin Hm Hx | mp flags v p n s m o Hd Hat Hpb | flags p n s m o
    | b s m o1 o2 Hb | b flags s m o1 o2 Hb Hf].
  - destruct (Hst _ _ (Hin0 _)) as (Hb & Hp & Hc). cbn in Hb, Hp, Hc.
    eapply sys_inv_upd; [exact Hi | apply cpu_store_inv; [apply (si_line _ Hi) | done..] |]. intros j Hj. by apply line_inv_other.
  - pose proof (Hfe _ _ (Hin0 _)). apply cache_inv; [done | apply keeps_fetch_inner | apply levels_keep; [apply (si_line _ Hi) | done] | done].
  - pose proof (Hfe _ _ (Hin0 _)). apply cache_inv; [done | apply keeps_fetch_outer | apply levels_keep; [apply (si_line _ Hi) | done] | done].
  - apply cache_inv; [done | apply keeps_evict_inner | apply levels_keep, (si_line _ Hi) |]. intros Ho.
    apply evict_none. by apply (li_in_place _ _ _ _ (si_line _ Hi k)).
  - apply cache_inv; [done | apply keeps_evict_outer | apply levels_keep, (si_line _ Hi) |]. intros Ho.
    apply evict_none. by apply (li_in_place _ _ _ _ (si_line _ Hi k)).
  - eapply sys_inv_upd; [exact Hi | eapply dev_store_inv; [apply (si_line _ Hi) | apply (si_apart _ Hi) | done..] |].
    intros j Hj. by apply line_inv_other.
  - apply shares_inv; [done.. |]. by apply (proj1 (Hco _) _ _ (Hin0 _)).
  - destruct (proj2 (Hco _) _ _ _ (Hin0 _)). by apply copies_inv.
  - destruct Hi as [Hl Ha]. cbn in *. split; cbn.
    + intros k. apply (line_inv_remove m o1 o2 k _ b); [apply Hl | done].
    + intros k Hr Hc. apply (Ha k); by apply owned_remove.
  - by apply unshares_copy_inv.
Qed.

Lemma cache_run_inv σ0 tr σ :
  cache_run σ0 tr σ → processor_keeps_off tr → no_fetch_of_written tr → copies_apart tr → sys_inv σ0 → sys_inv σ.
Proof.
  induction 1 as [| tr σ e σ' _ IH Hs]; [done |]. intros Ha Hb Hc Hi.
  destruct (restrictions_sub tr ((σ, e) :: tr)) as (? & ? & ?); [set_solver | done.. |].
  eapply cache_step_inv; [done | | by apply IH]. apply (restrictions_sub _ ((σ, e) :: tr)); [set_solver | done..].
Qed.

Lemma start_inv s : (∀ k, line_ok (s k) ∧ levels arch (s k)) → sys_inv (mk_sys s (cpu_read cl s) []).
Proof.
  intros Hs. assert (∀ md k, ¬ owned_as [] md k) as Hn by (intros md k Ho; by inversion Ho).
  split; cbn; [| intros k Ho; by destruct (Hn _ _ Ho)]. intros k. destruct (Hs k) as [Hok Hl].
  split; [done | | intros Ho; by destruct (Hn _ _ Ho) | intros Ho; by destruct (Hn _ _ Ho) | set_solver |].
  - intros _. split; [done |]. intros a <-. done.
  - intros [Ho | Ho]; by destruct (Hn _ _ Ho).
Qed.

End system.

(** Memory shared in place is where the share says, byte by byte. *)
Lemma shared_block_at_phys `{Arch} `{KLib} follow map v n p : shared_block follow map v n p → at_phys follow v p n.
Proof. intros [_ Hs] j Hj. by destruct (Hs j Hj) as [? _]. Qed.

(** The operation the driver never calls: of lines that are not dirty it
    leaves no copy, so that the processor reads memory. *)
Lemma invalidate_cache_reads `{Arch} cl `{!KernelCache} follow `{!KernelCacheSpec cl follow} arch v p n s a :
  0 < cl → at_phys follow v p n → phys_block p n → (∀ k, clean_line (s k) ∧ levels arch (s k)) → p ≤ a < p + n →
  cpu_read cl (invalidate_cache arch v p n s) a = ram cl s a.
Proof.
  intros Hcl Hat (Hp & Hn & Hb) Hs Ha. pose proof (in_on_block cl Hcl (mk_block p n InPlace) a Ha) as Hon. unfold on_block in Hon. cbn in Hon.
  destruct (Hs (line_of cl a)) as [Hc Hl]. unfold cpu_read, ram, invalidate_cache, xtensa_invalidate_cache, arm_invalidate_cache. destruct arch; cbn in Hl.
  - rewrite (invalidate_dcache_spec cl v p n _ _ Hat). unfold each_line. rewrite Hon. unfold line_read, outer_read. cbn. by rewrite Hl.
  - rewrite phys_small by lia. rewrite (outer_inv_spec cl (follow := follow)). unfold each_line at 1. rewrite Hon.
    rewrite (cpuc_flush_spec cl v p n _ _ Hat). unfold each_line. rewrite Hon.
    destruct (s (line_of cl a)) as [[[[] d] |] [[[] d'] |] st]; try done;
      by destruct (Hc d) || destruct (Hc d').
  - unfold line_read, outer_read. by destruct Hl as [-> ->].
Qed.

(** ** Concrete runs *)

Module CacheExamples.
#[local] Existing Instance arch32.

(** Lines of 64 bytes, and user memory at its physical address. *)
Definition identity (a : Z) : result Z := Ok (a / PAGE_SIZE).
#[local] Instance kernel : KernelCache := {|
  __flush_dcache_range v n := each_line 64 v n clean_inner;
  __invalidate_dcache_range v n := each_line 64 v n drop_inner;
  __cpuc_flush_dcache_area v n := each_line 64 v n (λ l, drop_inner (clean_inner l));
  outer_clean_range st en := each_line 64 st (en - st) clean_outer;
  outer_flush_range st en := each_line 64 st (en - st) (λ l, drop_outer (clean_outer l));
  outer_inv_range st en := each_line 64 st (en - st) drop_outer;
  dma_sync_single_for_device p n := each_line 64 p n (λ l, clean_outer (clean_inner l));
  dma_sync_single_for_cpu p n := each_line 64 p n (λ l, drop_outer (drop_inner l)) |}.

Lemma identity_byte a : byte_phys identity a = Ok a.
Proof. unfold byte_phys, identity. cbn. f_equal. unfold PAGE_SIZE. pose proof (Z.div_mod a 4096). lia. Qed.

Lemma identity_at v p n f s k : at_phys identity v p n → each_line 64 v n f s k = each_line 64 p n f s k.
Proof.
  intros Hat. destruct (Z.lt_ge_cases 0 n).
  - specialize (Hat 0 ltac:(lia)). rewrite identity_byte in Hat. injection Hat as E. by replace p with v by lia.
  - unfold each_line, on_lines. by rewrite (proj2 (Z.ltb_ge 0 n)).
Qed.

#[local] Instance kernel_spec : KernelCacheSpec 64 identity.
Proof.
  split; intros; try (by apply identity_at); unfold kernel; cbn; try done; by replace (p + n - p) with n by lia.
Qed.

Definition cold : caches := λ _, mk_line None None (λ a, a mod 256).
Definition rw := XRP_FLAG_READ_WRITE.
Definition in_place : xrp_mapping := XRP_MAPPING_KERNEL.

(** The processor writes, the outer cache fetches, 128 bytes are shared, the
    DSP answers, the block is given back. *)
Definition s1 : sys := mk_sys cold (cpu_read 64 cold) [].
Definition s2 : sys := mk_sys (upd cold 64 (cpu_store true 0x1000 7)) (put (sy_mem s1) 0x1000 7) [].
Definition s3 : sys := mk_sys (upd (sy_caches s2) 64 fetch_outer) (sy_mem s2) [].
Definition s4 : sys :=
  mk_sys (share_block_cache CaArm in_place rw 0x1000 0x1000 128 (sy_caches s3)) (sy_mem s3) [mk_block 0x1000 128 InPlace].
Definition s5 : sys := mk_sys (upd (sy_caches s4) 64 (dev_store 0x1001 9)) (put (sy_mem s4) 0x1001 9) (sy_owned s4).
Definition s6 : sys := mk_sys (sy_caches s5) (sy_mem s5) [].

Lemma not_owned md k : ¬ owned_as 64 [] md k.
Proof. intros Ho. by inversion Ho. Qed.

Definition trace6 : list (sys * access) :=
  [(s5, Quiet); (s4, Quiet); (s3, Shares 0x1000 128); (s2, Fetches 64); (s1, CpuStores 0x1000)].

Lemma run6 : cache_run 64 identity CaArm s1 trace6 s6.
Proof.
  eapply cache_run_more; [| by apply (unshares 64 identity CaArm (mk_block 0x1000 128 InPlace) (sy_caches s5) (sy_mem s5) [] [])].
  eapply cache_run_more; [| apply (dsp_stores 64 identity CaArm 0x1001 9 (mk_block 0x1000 128 InPlace));
    [by apply list_elem_of_here | done | unfold in_block; cbn; lia]].
  eapply cache_run_more; [| by apply (shares 64 identity CaArm in_place rw 0x1000 0x1000 128); [| intros j _; apply identity_byte |]].
  eapply cache_run_more; [| by apply (fetches_outer 64 identity CaArm 64)].
  eapply cache_run_more; [apply cache_run_none | apply (cpu_stores 64 identity CaArm 0x1000 7)].
Qed.


(** A cache that fetches the line while the DSP has the block: the driver
    does not invalidate it afterwards, and the processor reads the old
    byte.  The operation exists. *)
Example prefetch_hides_output :
  let s := upd (upd (sy_caches s4) 64 fetch_inner) 64 (dev_store 0x1001 9) in
  ram 64 s 0x1001 = 9 ∧ cpu_read 64 s 0x1001 = 1 ∧
  cpu_read 64 (invalidate_cache CaArm 0x1000 0x1000 128 s) 0x1001 = 9.
Proof. by vm_compute. Qed.

(** A store next to a block, on its line, takes the DSP's output with it when
    the line is written back: blocks are not aligned to lines. *)
Example neighbour_store_loses_output :
  let s := share_cache CaArm rw 0x1010 0x1010 16 cold in
  let s := upd s 64 (cpu_store true 0x1000 7) in
  let s := upd s 64 (dev_store 0x1010 9) in
  let s := upd s 64 (λ l, drop_inner (clean_inner l)) in
  ram 64 s 0x1010 = 16 ∧ cpu_read 64 s 0x1010 = 16.
Proof. by vm_compute. Qed.

(** A copy that faults half way returns before the copied part is
    synchronised.  When the memory is used again for a block the DSP only
    writes, it is not synchronised either, and the old line is written over
    the DSP's output. *)
Example faulted_copy_loses_output :
  let s := upd cold 64 (cpu_store true 0x1000 7) in
  let s := copy_to_device XRP_FLAG_WRITE 0x1000 64 s in
  let s := upd s 64 (dev_store 0x1000 9) in
  let s := upd s 64 (λ l, drop_inner (clean_inner l)) in
  cpu_read 64 (copy_from_device XRP_FLAG_WRITE 0x1000 64 s) 0x1000 = 7.
Proof. by vm_compute. Qed.

(** Where there are no cache operations the DSP reads old data. *)
Example no_operations_stale :
  let s := share_cache CaOther rw 0x1000 0x1000 128 (sy_caches s3) in ram 64 s 0x1000 = 0 ∧ cpu_read 64 s 0x1000 = 7.
Proof. by vm_compute. Qed.
End CacheExamples.
