(* ===== verification/Sync.v ===== *)
(** * Synchronisation of host and DSP

    The handshake that starts communication, as two programs over the shared
    memory: [xrp_synchronize] (xrp-kernel/xvp_main.c) on the host and
    [xrp_device_dispatch] with [do_handshake] (xrp-dsp/xrp_dsp.c) on the
    DSP, with the simple hardware back end below them.  Every load, store
    and interrupt is a step; the host may give up at any of its waits. *)

From stdpp Require Import base tactics list relations numbers.
From S2P Require Import Prelude Mem Interface HwSimple.

(** ** Programs *)

Inductive host_pc :=
| HStart                        (* entry of xrp_synchronize *)
| HReady                        (* first polling loop *)
| HWrite (t : list hw_write)    (* writes left before the second loop *)
| HConfirm                      (* second polling loop *)
| HIrq                          (* about to interrupt the device *)
| HWait                         (* wait_for_completion_timeout *)
| HIdle (ret : Z)               (* the exit path, before the last write *)
| HDone (ret : Z).

Inductive dsp_pc :=
| DLoop                         (* calling xrp_device_dispatch *)
| DStart                        (* while (sync != START) *)
| DPutReady                     (* about to store DSP_READY *)
| DPoll                         (* the for (;;) loop *)
| DSet                          (* about to call xrp_hw_set_sync_data *)
| DPutDone                      (* about to store DSP_TO_HOST *)
| DWaitIrq                      (* xrp_hw_wait_device_irq *)
| DSendIrq                      (* xrp_hw_send_host_irq *)
| DCommand.                     (* process_command *)

Record sys := mk_sys {
  s_mem : mem;
  s_host : host_pc;
  s_dsp : dsp_pc;
  s_hw : Dsp.hw_state;
  s_dev_irq : bool;             (* device interrupt pending *)
  s_host_irq : bool;            (* host interrupt pending *)
  s_completion : nat;           (* xvp->completion *)
}.

Definition set_host (s : sys) (m : mem) (h : host_pc) : sys :=
  mk_sys m h (s_dsp s) (s_hw s) (s_dev_irq s) (s_host_irq s) (s_completion s).
Definition set_dsp (s : sys) (m : mem) (d : dsp_pc) : sys :=
  mk_sys m (s_host s) d (s_hw s) (s_dev_irq s) (s_host_irq s) (s_completion s).

Section sync.
Context (hw : xrp_hw_simple) (shared : Z).

Definition word (s : sys) : Z := load32 (s_mem s) (sync_word shared).
Definition put (s : sys) (v : Z) : mem := apply_writes (s_mem s) (xrp_comm_write32 (sync_word shared) v).

(** What is written between the two polling loops. *)
Definition data_trace (data : list Z) : list hw_write :=
  xrp_comm_write (sync_hw_data shared) data (Z.of_nat (length data)) ++
  xrp_comm_write32 (sync_word shared) XRP_DSP_SYNC_HOST_TO_DSP.

(** Host steps. *)
Inductive host_step : sys → sys → Prop :=
| h_nomem s : s_host s = HStart → host_step s (set_host s (s_mem s) (HIdle (- ENOMEM)))
| h_start s : s_host s = HStart → host_step s (set_host s (put s XRP_DSP_SYNC_START) HReady)
| h_ready s data :
    s_host s = HReady → word s = XRP_DSP_SYNC_DSP_READY → get_hw_sync_data true hw = Some data →
    host_step s (set_host s (s_mem s) (HWrite (data_trace data)))
| h_write s w t :
    s_host s = HWrite (w :: t) →
    host_step s (set_host s (apply_write (s_mem s) w) (match t with [] => HConfirm | _ => HWrite t end))
| h_confirm s :
    s_host s = HConfirm → word s = XRP_DSP_SYNC_DSP_TO_HOST → host_step s (set_host s (s_mem s) HIrq)
| h_irq s :
    s_host s = HIrq →
    host_step s (mk_sys (s_mem s) (if xrp_host_irq_mode hw then HWait else HIdle 0) (s_dsp s) (s_hw s)
                   (bool_decide (send_irq hw ≠ []) || s_dev_irq s) (s_host_irq s) (s_completion s))
| h_wait s n :
    s_host s = HWait → s_completion s = S n →
    host_step s (mk_sys (s_mem s) (HIdle 0) (s_dsp s) (s_hw s) (s_dev_irq s) (s_host_irq s) n)
| h_timeout s :
    s_host s = HReady ∨ s_host s = HConfirm ∨ s_host s = HWait →
    host_step s (set_host s (s_mem s) (HIdle (- ENODEV)))
| h_idle s ret :
    s_host s = HIdle ret → host_step s (set_host s (put s XRP_DSP_SYNC_IDLE) (HDone ret)).

(** The host's interrupt handler. *)
Inductive irq_step : sys → sys → Prop :=
| i_handle s :
    s_host_irq s = true → xrp_host_irq_mode hw = true →
    irq_step s (mk_sys (s_mem s) (s_host s) (s_dsp s) (s_hw s) (s_dev_irq s) false
                  (irq_handler (s_mem s) (Some shared) (s_completion s) hw).1.1).

(** DSP steps. *)
Inductive dsp_step : sys → sys → Prop :=
| d_dispatch s :
    s_dsp s = DLoop → request_valid_flags (word s) = true → word s = XRP_DSP_SYNC_START →
    dsp_step s (set_dsp s (s_mem s) DStart)
| d_command s :
    s_dsp s = DLoop → request_valid_flags (word s) = true → word s ≠ XRP_DSP_SYNC_START →
    dsp_step s (set_dsp s (s_mem s) DCommand)
| d_started s :
    s_dsp s = DStart → word s = XRP_DSP_SYNC_START → dsp_step s (set_dsp s (s_mem s) DPutReady)
| d_ready s : s_dsp s = DPutReady → dsp_step s (set_dsp s (put s XRP_DSP_SYNC_DSP_READY) DPoll)
| d_data s :
    s_dsp s = DPoll → word s = XRP_DSP_SYNC_HOST_TO_DSP → dsp_step s (set_dsp s (s_mem s) DSet)
| d_return s :
    s_dsp s = DPoll → word s ≠ XRP_DSP_SYNC_HOST_TO_DSP → word s ≠ XRP_DSP_SYNC_DSP_READY →
    dsp_step s (set_dsp s (s_mem s) DLoop)
| d_set s :
    s_dsp s = DSet →
    dsp_step s (mk_sys (s_mem s) (s_host s) DPutDone
                  (Dsp.xrp_hw_set_sync_data (s_hw s) (s_mem s) (sync_hw_data shared)).1
                  (s_dev_irq s) (s_host_irq s) (s_completion s))
| d_done s : s_dsp s = DPutDone → dsp_step s (set_dsp s (put s XRP_DSP_SYNC_DSP_TO_HOST) DWaitIrq)
| d_nowait s :
    s_dsp s = DWaitIrq → Dsp.xrp_hw_wait_device_irq (s_hw s) = false →
    dsp_step s (set_dsp s (s_mem s) DSendIrq)
| d_irq s :
    s_dsp s = DWaitIrq → Dsp.xrp_hw_wait_device_irq (s_hw s) = true → s_dev_irq s = true →
    dsp_step s (mk_sys (s_mem s) (s_host s) DSendIrq (s_hw s) false (s_host_irq s) (s_completion s))
| d_send s :
    s_dsp s = DSendIrq →
    dsp_step s (mk_sys (s_mem s) (s_host s) DLoop (s_hw s) (s_dev_irq s)
                  (bool_decide (Dsp.xrp_hw_send_host_irq (s_hw s) ≠ []) || s_host_irq s) (s_completion s)).

Definition step (s s' : sys) : Prop := host_step s s' ∨ irq_step s s' ∨ dsp_step s s'.

(** The state [xrp_boot_firmware] leaves: the DSP just released, the word
    idle, nothing pending. *)
Definition initial (s : sys) : Prop :=
  s_host s = HStart ∧ s_dsp s = DLoop ∧ word s = XRP_DSP_SYNC_IDLE ∧
  s_dev_irq s = false ∧ s_host_irq s = false ∧ s_completion s = 0%nat.

(** ** Invariant *)

Definition data : list Z := default [] (get_hw_sync_data true hw).
Definition has_data (m : mem) : Prop := load_bytes m (sync_hw_data shared) (length data) = data.

(** The writes left: the rest of the data, then the word. *)
Definition writes_ok (m : mem) (t : list hw_write) : Prop :=
  ∃ t', t = t' ++ xrp_comm_write32 (sync_word shared) XRP_DSP_SYNC_HOST_TO_DSP ∧
    Forall (λ w : hw_write, sync_hw_data shared ≤ w.1) t' ∧ has_data (apply_writes m t').

Definition quiet (s : sys) : Prop := s_host_irq s = false ∧ s_completion s = 0%nat.

(** After the configuration was taken over: interrupts are only sent at the
    end of the handshake, and then one is on its way. *)
Definition irqs_ok (s : sys) : Prop :=
  agree hw (s_hw s) ∧
  match s_dsp s with
  | DWaitIrq => quiet s ∧ (s_host s = HWait → send_irq hw ≠ [] → s_dev_irq s = true)
  | DSendIrq => quiet s
  | DLoop => Dsp.xrp_hw_send_host_irq (s_hw s) ≠ [] →
             s_host_irq s = true ∨ (0 < s_completion s)%nat
  | _ => False
  end.

Definition legal_word (w : Z) : bool := existsb (Z.eqb w)
  [XRP_DSP_SYNC_IDLE; XRP_DSP_SYNC_HOST_TO_DSP; XRP_DSP_SYNC_DSP_TO_HOST; XRP_DSP_SYNC_START;
   XRP_DSP_SYNC_DSP_READY].

(** The handshake is over for the DSP, or all but its interrupts. *)
Definition finishing (d : dsp_pc) : Prop := d = DLoop ∨ d = DWaitIrq ∨ d = DSendIrq.

(** The phases of a session, by what host and DSP are doing. *)
Inductive inv (s : sys) : Prop :=
| inv_start :
    s_host s = HStart → s_dsp s = DLoop → word s = XRP_DSP_SYNC_IDLE → quiet s → inv s
| inv_ready :
    s_host s = HReady → s_dsp s = DLoop ∨ s_dsp s = DStart ∨ s_dsp s = DPutReady →
    word s = XRP_DSP_SYNC_START → quiet s → inv s
| inv_poll :
    s_host s = HReady ∨ (∃ t, s_host s = HWrite t ∧ writes_ok (s_mem s) t) → s_dsp s = DPoll →
    word s = XRP_DSP_SYNC_DSP_READY → quiet s → inv s
| inv_sent :
    s_host s = HConfirm → s_dsp s = DPoll ∨ s_dsp s = DSet → word s = XRP_DSP_SYNC_HOST_TO_DSP →
    quiet s → has_data (s_mem s) → inv s
| inv_set :
    s_host s = HConfirm → s_dsp s = DPutDone → word s = XRP_DSP_SYNC_HOST_TO_DSP → quiet s →
    agree hw (s_hw s) → inv s
| inv_active :
    s_host s = HConfirm ∨ s_host s = HIrq ∨ s_host s = HWait →
    word s = XRP_DSP_SYNC_DSP_TO_HOST → irqs_ok s → inv s
| inv_leaving :
    s_host s = HIdle 0 → word s = XRP_DSP_SYNC_DSP_TO_HOST → finishing (s_dsp s) → agree hw (s_hw s) →
    (xrp_host_irq_mode hw = true → s_dsp s = DLoop) → inv s
| inv_ok :
    s_host s = HDone 0 → word s = XRP_DSP_SYNC_IDLE → finishing (s_dsp s) → agree hw (s_hw s) →
    (xrp_host_irq_mode hw = true → s_dsp s = DLoop) → inv s
| inv_fail ret :
    s_host s = HIdle ret ∨ s_host s = HDone ret → ret < 0 → legal_word (word s) = true →
    s_dsp s ≠ DCommand → (finishing (s_dsp s) → word s ≠ XRP_DSP_SYNC_HOST_TO_DSP) → inv s.

(** ** Preservation *)

Lemma load_put s v : 0 ≤ v < 2 ^ 32 → load32 (put s v) (sync_word shared) = v.
Proof. intros. unfold put. etrans; [apply load32_store32, u32_range |]. by apply u32_small. Qed.

Lemma has_data_put s v : has_data (s_mem s) → has_data (put s v).
Proof.
  unfold has_data, put. intros E. etrans; [| exact E]. apply load_store_disjoint.
  rewrite length_le_bytes. unfold sync_word, sync_hw_data. simpl. lia.
Qed.

Lemma word_write m w : sync_hw_data shared ≤ w.1 →
  load32 (apply_write m w) (sync_word shared) = load32 m (sync_word shared).
Proof. intros. apply load32_store32_ne. unfold sync_word, sync_hw_data in *. lia. Qed.

Context (Hhw : hw_ok hw).

Lemma data_some : get_hw_sync_data true hw = Some data.
Proof. done. Qed.

Lemma bytes_data : bytes data.
Proof. apply bytes_words_bytes. Qed.

Lemma data_trace_ok m : writes_ok m (data_trace data).
Proof.
  eexists. split; [done |]. split.
  - eapply list.Forall_impl; [apply (comm_write_in (sync_hw_data shared) data); lia |].
    intros w. simpl. lia.
  - unfold has_data. rewrite comm_write_effect by (auto using bytes_data; lia).
    rewrite Nat2Z.id, take_ge by lia. set (l := data ++ _).
    rewrite <- (take_load_bytes _ _ _ (length l)) by (unfold l; rewrite length_app; lia).
    rewrite load_store_same. unfold l. by rewrite take_app_length.
Qed.

(** One of the writes left: still some to go, or the word was written. *)
Lemma writes_ok_step m w t :
  writes_ok m (w :: t) →
  (t ≠ [] ∧ writes_ok (apply_write m w) t ∧
   load32 (apply_write m w) (sync_word shared) = load32 m (sync_word shared)) ∨
  (t = [] ∧ has_data (apply_write m w) ∧
   load32 (apply_write m w) (sync_word shared) = XRP_DSP_SYNC_HOST_TO_DSP).
Proof.
  intros (t' & E & Hall & Hd). destruct t' as [| w' t']; simplify_eq/=.
  - right. apply list.Forall_nil in Hall. unfold xrp_comm_write32 in E. simplify_eq.
    split_and!; [done | | apply load32_store32; done].
    apply (has_data_put (mk_sys m HStart DLoop (Dsp.Build_hw_state 0 0 0 0 0 0 0 0) false false 0)), Hd.
  - left. apply list.Forall_cons in Hall as [Hw Hall].
    split_and!; [by destruct t' | | by apply word_write]. by exists t'.
Qed.

#[local] Ltac simp := cbn [s_mem s_host s_dsp s_hw s_dev_irq s_host_irq s_completion set_host set_dsp] in *.

(** A hypothesis that equates two different program points. *)
#[local] Ltac clash := solve [
  unfold finishing in *; repeat match goal with
         | H : _ ∨ _ |- _ => destruct H
         | H : _ ∧ _ |- _ => destruct H
         | H : ∃ _, _ |- _ => destruct H
         end; congruence ].

Lemma irqs_ok_finishing s : irqs_ok s → finishing (s_dsp s) ∧ agree hw (s_hw s).
Proof. intros [Ha Hi]. split; [| done]. unfold finishing. destruct (s_dsp s); tauto. Qed.

Lemma irqs_ok_not s : irqs_ok s → ∀ d, s_dsp s = d → finishing d.
Proof. intros Hi d <-. apply (irqs_ok_finishing s Hi). Qed.

(** Giving up is possible in every phase. *)
Lemma inv_give_up s ret :
  inv s → ret < 0 → s_host s = HStart ∨ s_host s = HReady ∨ s_host s = HConfirm ∨ s_host s = HWait →
  inv (set_host s (s_mem s) (HIdle ret)).
Proof.
  intros Hi Hr Hh. unfold finishing in *.
  assert (legal_word (word s) = true ∧ s_dsp s ≠ DCommand ∧
          (finishing (s_dsp s) → word s ≠ XRP_DSP_SYNC_HOST_TO_DSP)) as (Hl & Hd & Hf).
  { unfold finishing. destruct Hi as [_ -> -> _ | _ Hd -> _ | _ -> -> _ | _ Hd -> _ _ | _ -> -> _ _ | _ -> Hi | E | E | r E];
      try (by destruct_or?; congruence); try (by split_and!; [done | done | intros [? | [? | ?]]]).
    - by destruct Hd as [-> | [-> | ->]].
    - destruct Hd as [-> | ->]; split_and!; try done; by intros [? | [? | ?]].
    - destruct (irqs_ok_finishing _ Hi) as [Hf _]. split_and!; [done | | done].
      intros E. rewrite E in Hf. destruct Hf as [? | [? | ?]]; done. }
  apply inv_fail with ret; auto.
Qed.

Lemma host_step_inv s s' : inv s → host_step s s' → inv s'.
Proof.
  intros Hi Hs. destruct Hs as [s E | s E | s d E Ew Ed | s w t E | s E Ew | s E | s n E En | s E | s ret E].
  - apply inv_give_up; auto. done.
  - destruct Hi as [_ Hd Hw Hq | | | | | | | |]; try clash.
    apply inv_ready; [done | by left | by apply load_put | done].
  - destruct Hi as [| _ _ Hw _ | _ Hd Hw Hq | | | | | |]; try clash; [by rewrite Hw in Ew |].
    rewrite data_some in Ed. injection Ed as <-.
    apply inv_poll; auto. right. eexists. split; [done | apply data_trace_ok].
  - destruct Hi as [| | [? | (t' & Et & Ht)] Hd Hw Hq | | | | | |]; try clash.
    rewrite E in Et. injection Et as <-.
    destruct (writes_ok_step _ _ _ Ht) as [(Hne & Ht' & Ew) | (-> & Hdat & Ew)].
    + destruct t as [| w' t]; [done |]. apply inv_poll; [right; by eexists | done | by etrans | done].
    + apply inv_sent; auto.
  - destruct Hi as [| | | _ _ Hw _ _ | _ _ Hw _ _ | _ _ [Ha Hi] | | |]; try clash;
      [by rewrite Hw in Ew | by rewrite Hw in Ew |].
    apply inv_active; [auto | done |]. split; [done |]. simp.
    destruct (s_dsp s); try done. by split; [apply Hi |].
  - destruct Hi as [| | | | | _ Hw Hi | | |]; try clash.
    destruct (irqs_ok_finishing _ Hi) as [Hf Ha]. destruct (xrp_host_irq_mode hw) eqn:Em.
    + apply inv_active; [auto | done |]. split; [done |]. destruct Hi as [_ Hi]. simp.
      destruct (s_dsp s); try done. split; [apply Hi |]. intros _ Hn. by rewrite bool_decide_eq_true_2.
    + apply inv_leaving; try done. by rewrite Em.
  - destruct Hi as [| | | | | _ Hw Hi | | |]; try clash.
    destruct (irqs_ok_finishing _ Hi) as [Hf Ha]. apply inv_leaving; try done. intros _. simp.
    destruct Hi as [_ Hi]. destruct (s_dsp s); try done; unfold quiet in Hi; destruct_and?; congruence.
  - apply inv_give_up; auto; done.
  - destruct Hi as [| | | | | | E' _ Hf Ha Hd | | ret' E' Hr _ Hd _]; try clash; rewrite E in E'.
    + injection E' as ->. apply inv_ok; auto. by apply load_put.
    + assert (ret = ret') as -> by (by destruct E' as [[=] | [=]]).
      apply inv_fail with ret'; simp; auto; unfold word; simp; by rewrite load_put.
Qed.

Lemma irq_step_inv s s' : inv s → irq_step s s' → inv s'.
Proof.
  intros Hi Hs. destruct Hs as [s Hh Hm].
  assert (quiet s → False) as Hnq by (intros [Hq _]; congruence).
  destruct Hi as [? ? ? Hq | ? ? ? Hq | ? ? ? Hq | ? ? ? Hq | ? ? ? Hq | ? Hw [Ha Hi] | | | ret];
    try (by destruct (Hnq Hq)); [| by apply inv_leaving | by apply inv_ok | by apply inv_fail with ret].
  apply inv_active; [done | done |]. split; [done |]. simp. destruct (s_dsp s); try tauto.
  intros _. right. unfold irq_handler, xrp_irq_handler, xrp_cmd_complete, xrp_comm_read32, cmd_flags.
  unfold word, sync_word in Hw. rewrite Hw. simpl. lia.
Qed.

Lemma legal_valid w :
  legal_word w = true → request_valid_flags w = true →
  w = XRP_DSP_SYNC_START ∨ w = XRP_DSP_SYNC_HOST_TO_DSP.
Proof.
  intros (v & Hin & ->%Z.eqb_eq)%existsb_exists Hv. simpl in Hin.
  destruct Hin as [<- | [<- | [<- | [<- | [<- | []]]]]]; auto; done.
Qed.

Lemma dsp_step_inv s s' : inv s → dsp_step s s' → inv s'.
Proof.
  intros Hi Hs. destruct Hs as [s E Ev Ew | s E Ev Ew | s E Ew | s E | s E Ew | s E Ew Ew' | s E | s E
                               | s E Ewt | s E Ewt Ei | s E].
  - destruct Hi as [? ? Hw | ? ? Hw Hq | | | | ? Hw | ? Hw | ? Hw | ret ? ? Hl Hd Hf]; try clash;
      try (by rewrite Hw in Ew); [by apply inv_ready; auto |].
    apply inv_fail with ret; auto. by intros [? | [? | ?]].
  - destruct Hi as [? ? Hw | ? ? Hw Hq | | | | ? Hw | ? Hw | ? Hw | ret ? ? Hl Hd Hf]; try clash;
      try (by rewrite Hw in Ev).
    destruct (legal_valid _ Hl Ev); [done |]. destruct Hf; [by left | done].
  - destruct Hi as [| ? ? Hw Hq | | | | ? ? Hi | ? ? Hf | ? ? Hf | ret ? ? Hl Hd Hf]; try clash.
    + apply inv_ready; auto.
    + by destruct (irqs_ok_not _ Hi _ E) as [? | [? | ?]].
    + apply inv_fail with ret; auto. by intros [? | [? | ?]].
  - destruct Hi as [| ? ? Hw Hq | | | | ? ? Hi | ? ? Hf | ? ? Hf | ret ? ? Hl Hd Hf]; try clash.
    + apply inv_poll; [by left | done | by apply load_put | done].
    + by destruct (irqs_ok_not _ Hi _ E) as [? | [? | ?]].
    + apply inv_fail with ret; auto; unfold word; simp; [by rewrite load_put | by intros [? | [? | ?]]].
  - destruct Hi as [| | ? ? Hw | ? ? Hw Hq Hdat | | ? ? Hi | | | ret ? ? Hl Hd Hf]; try clash.
    + by rewrite Hw in Ew.
    + apply inv_sent; auto.
    + by destruct (irqs_ok_not _ Hi _ E) as [? | [? | ?]].
    + apply inv_fail with ret; auto. by intros [? | [? | ?]].
  - destruct Hi as [| | ? ? Hw | ? ? Hw Hq Hdat | | ? ? Hi | | | ret ? ? Hl Hd Hf]; try clash.
    + by destruct (irqs_ok_not _ Hi _ E) as [? | [? | ?]].
    + apply inv_fail with ret; auto.
  - destruct Hi as [| | | ? ? Hw Hq Hdat | | ? ? Hi | | | ret ? ? Hl Hd Hf]; try clash.
    + apply inv_set; auto. simp. by apply (set_sync_data_agree hw data).
    + by destruct (irqs_ok_not _ Hi _ E) as [? | [? | ?]].
    + apply inv_fail with ret; auto; by intros [? | [? | ?]].
  - destruct Hi as [| | | | ? ? Hw Hq Ha | ? ? Hi | | | ret ? ? Hl Hd Hf]; try clash.
    + apply inv_active; [auto | by apply load_put |]. split; [done |]. simp. by split; [| clash].
    + by destruct (irqs_ok_not _ Hi _ E) as [? | [? | ?]].
    + apply inv_fail with ret; auto; unfold word; simp; by rewrite load_put.
  - destruct Hi as [| | | | | ? Hw [Ha Hi] | ? Hw Hf Ha Hd | ? Hw Hf Ha Hd | ret ? ? Hl Hd Hf]; try clash.
    + rewrite E in Hi. apply inv_active; [done | done |]. split; [done | apply Hi].
    + apply inv_leaving; auto; [by right; right |]. intros Hm. specialize (Hd Hm). congruence.
    + apply inv_ok; auto; [by right; right |]. intros Hm. specialize (Hd Hm). congruence.
    + apply inv_fail with ret; auto. intros _. apply Hf. by right; left.
  - destruct Hi as [| | | | | ? Hw [Ha Hi] | ? Hw Hf Ha Hd | ? Hw Hf Ha Hd | ret ? ? Hl Hd Hf]; try clash.
    + rewrite E in Hi. apply inv_active; [done | done |]. split; [done | apply Hi].
    + apply inv_leaving; auto; [by right; right |]. intros Hm. specialize (Hd Hm). congruence.
    + apply inv_ok; auto; [by right; right |]. intros Hm. specialize (Hd Hm). congruence.
    + apply inv_fail with ret; auto. intros _. apply Hf. by right; left.
  - destruct Hi as [| | | | | ? Hw [Ha Hi] | ? Hw Hf Ha Hd | ? Hw Hf Ha Hd | ret ? ? Hl Hd Hf]; try clash.
    + rewrite E in Hi. apply inv_active; [done | done |]. split; [done |]. simp.
      intros Hn. left. by rewrite bool_decide_eq_true_2.
    + apply inv_leaving; auto. by left.
    + apply inv_ok; auto. by left.
    + apply inv_fail with ret; auto. intros _. apply Hf. by right; right.
Qed.

Lemma step_inv s s' : inv s → step s s' → inv s'.
Proof. intros Hi [Hs | [Hs | Hs]]; eauto using host_step_inv, irq_step_inv, dsp_step_inv. Qed.

Lemma initial_inv s : initial s → inv s.
Proof. intros (? & ? & ? & ? & ? & ?). by apply inv_start. Qed.

Lemma reachable_inv s s' : initial s → rtc step s s' → inv s'.
Proof. intros Hs Hr. apply initial_inv in Hs. induction Hr; eauto using step_inv. Qed.

(** C5: in every interleaving of host and DSP, with the host giving up
    wherever it likes, the DSP never takes a synchronisation word for a
    command; and when the host reports success the DSP uses the host's
    configuration, the word is idle again and, if interrupts are in use, the
    DSP is back in its dispatch loop. *)
Theorem sync_safe s s' :
  initial s → rtc step s s' →
  s_dsp s' ≠ DCommand ∧
  (s_host s' = HDone 0 →
   agree hw (s_hw s') ∧ word s' = XRP_DSP_SYNC_IDLE ∧
   (xrp_host_irq_mode hw = true → s_dsp s' = DLoop)).
Proof.
  intros Hs Hr. pose proof (reachable_inv _ _ Hs Hr) as Hi. split.
  - destruct Hi; try clash. by destruct (irqs_ok_finishing s') as [[? | [? | ?]] _]; [| congruence..].
  - intros E. destruct Hi as [| | | | | | | | ret ? Hr0]; try clash; [auto |].
    destruct_or!; [congruence |]. assert (ret = 0) by congruence. lia.
Qed.

(** ** Progress *)

(** Steps in which the host does not give up. *)
Definition good_step (s s' : sys) : Prop := step s s' ∧ ∀ ret, s_host s' = HIdle ret → ret = 0.

Definition good (s : sys) : Prop :=
  inv s ∧ (∀ ret, s_host s = HIdle ret ∨ s_host s = HDone ret → ret = 0) ∧
  (s_host s = HWait → xrp_host_irq_mode hw = true).

Lemma good_step_good s s' : good s → good_step s s' → good s'.
Proof.
  intros (Hi & Hr & Hw) [Hs Hg]. split; [by eapply step_inv |]. clear Hi.
  destruct Hs as [Hs | [Hs | Hs]].
  - destruct Hs as [s E | s E | s d E | s w t E | s E | s E | s n E | s E | s ret E]; simp; split;
      try (by intros ret [? | ?]; auto); try done; try (by destruct t); try (by destruct xrp_host_irq_mode).
    + intros ret [? | ?]; [by apply Hg | by destruct t].
    + intros ret [? | ?]; [by apply Hg | by destruct xrp_host_irq_mode].
    + intros ret' [? | ?]; simplify_eq. apply Hr. by left.
  - by destruct Hs.
  - by destruct Hs.
Qed.

Lemma good_reachable s s' : initial s → rtc good_step s s' → good s'.
Proof.
  intros Hs Hr. assert (good s) as Hg.
  { split; [by apply initial_inv |]. destruct Hs as (E & _). rewrite E. split; [| done]. by intros ? [? | ?]. }
  clear Hs. induction Hr; eauto using good_step_good.
Qed.

Definition host_rank (h : host_pc) : nat :=
  let n := length (data_trace data) in
  match h with
  | HStart => n + 7 | HReady => n + 6 | HWrite t => length t + 5
  | HConfirm => 4 | HIrq => 3 | HWait => 2 | HIdle _ => 1 | HDone _ => 0
  end.
Definition dsp_rank (h : host_pc) (d : dsp_pc) : nat :=
  match d with
  | DLoop => match h with HStart | HReady => 8 | _ => 0 end
  | DStart => 7 | DPutReady => 6 | DPoll => 5 | DSet => 4 | DPutDone => 3 | DWaitIrq => 2
  | DSendIrq => 1 | DCommand => 0
  end.
Definition measure (s : sys) : nat :=
  host_rank (s_host s) + 2 * dsp_rank (s_host s) (s_dsp s) + Nat.b2n (s_host_irq s).

Lemma dsp_rank_host h h' d :
  d ≠ DLoop ∨ (h ≠ HStart ∧ h ≠ HReady ∧ h' ≠ HStart ∧ h' ≠ HReady) → dsp_rank h d = dsp_rank h' d.
Proof. intros [? | (? & ? & ? & ?)]; destruct d; try done. by destruct h, h'. Qed.

Lemma good_step_measure s s' : good s → good_step s s' → (measure s' < measure s)%nat.
Proof.
  intros (Hi & Hr & Hw) [Hs Hg]. unfold measure. destruct Hs as [Hs | [Hs | Hs]].
  - destruct Hs as [s E | s E | s d E Ew Ed | s w t E | s E | s E | s n E | s E | s ret E]; simp;
      try (by discriminate (Hg _ eq_refl)); rewrite E.
    + simpl. destruct (s_dsp s); simpl; lia.
    + destruct Hi as [| ? ? Hw' | | | | | | |]; try clash; [by rewrite Hw' in Ew |].
      rewrite data_some in Ed. injection Ed as <-. rewrite (dsp_rank_host _ HReady) by (left; congruence).
      simpl. lia.
    + rewrite (dsp_rank_host _ (HWrite (w :: t))) by (right; by destruct t). destruct t; simpl; lia.
    + rewrite (dsp_rank_host _ HConfirm) by (by right). simpl. lia.
    + rewrite (dsp_rank_host _ HIrq) by (right; by destruct xrp_host_irq_mode).
      destruct xrp_host_irq_mode; simpl; lia.
    + rewrite (dsp_rank_host _ HWait) by (by right). simpl. lia.
    + rewrite (dsp_rank_host _ (HIdle ret)) by (by right). simpl. lia.
  - destruct Hs as [s E]. simp. rewrite E. simpl. lia.
  - destruct Hs as [s E Ev Ew | s E Ev Ew | s E Ew | s E | s E Ew | s E Ew Ew' | s E | s E
                   | s E Ewt | s E Ewt Ei | s E]; simp; rewrite E; try (simpl; lia).
    + destruct Hi as [? ? Hw' | Hh | | | | ? Hw' | ? Hw' | ? Hw' | ret Hh Hneg]; try clash;
        try (by rewrite Hw' in Ew); [rewrite Hh; simpl; lia |]. specialize (Hr _ Hh). lia.
    + destruct Hi as [? ? Hw' | ? ? Hw' | | | | ? Hw' | ? Hw' | ? Hw' | ret Hh Hneg]; try clash;
        try (by rewrite Hw' in Ev). specialize (Hr _ Hh). lia.
    + destruct Hi as [| | ? ? Hw' | ? ? Hw' | | ? ? Hirq | | | ret Hh Hneg]; try clash; try done.
      * by destruct (irqs_ok_not _ Hirq _ E) as [? | [? | ?]].
      * specialize (Hr _ Hh). lia.
    + assert (dsp_rank (s_host s) DLoop = 0%nat) as ->.
      { destruct Hi as [| | | | | Hh | Hh | Hh | ret Hh Hneg]; try clash.
        - by destruct Hh as [-> | [-> | ->]].
        - by rewrite Hh.
        - by rewrite Hh.
        - specialize (Hr _ Hh). lia. }
      destruct (bool_decide _ || _); simpl; lia.
Qed.

(** What interrupts need to get through: the registers are mapped and, when
    the host waits for interrupts, the DSP is told how to raise them. *)
Definition irq_config : Prop :=
  regs hw = RegsMapped ∧ (xrp_host_irq_mode hw = true → host_irq_mode hw ≠ XRP_IRQ_NONE).

Lemma agree_sends_device d : irq_config → agree hw d → Dsp.xrp_hw_wait_device_irq d = true → send_irq hw ≠ [].
Proof.
  intros [Hr _] Ha Hwt. unfold Dsp.xrp_hw_wait_device_irq in Hwt. rewrite (ag_device_mode _ _ Ha) in Hwt.
  pose proof (ok_device_mode _ Hhw) as Hm. unfold XRP_IRQ_MAX in Hm.
  unfold send_irq, reg_write32. rewrite Hr.
  assert (device_irq_mode hw = 0 ∨ device_irq_mode hw = 1 ∨ device_irq_mode hw = 2) as E by lia.
  destruct E as [E | [E | E]]; rewrite E in *; done.
Qed.

Lemma agree_sends_host d :
  irq_config → agree hw d → xrp_host_irq_mode hw = true → Dsp.xrp_hw_send_host_irq d ≠ [].
Proof.
  intros [_ Hc] Ha Hm. specialize (Hc Hm). unfold XRP_IRQ_NONE in Hc.
  unfold Dsp.xrp_hw_send_host_irq. rewrite (ag_host_mode _ _ Ha).
  pose proof (ok_host_mode _ Hhw) as Hr. unfold XRP_IRQ_MAX in Hr.
  assert (host_irq_mode hw = 1 ∨ host_irq_mode hw = 2) as E by lia.
  by destruct E as [-> | ->].
Qed.

Lemma irq_config_dec : irq_config ∨ ¬ irq_config.
Proof.
  unfold irq_config. destruct (regs hw), (xrp_host_irq_mode hw), (Z.eq_dec (host_irq_mode hw) XRP_IRQ_NONE); tauto || naive_solver.
Qed.

(** A state before the host is done has a step that is not giving up, unless
    the host waits for an interrupt and interrupts do not get through. *)
Lemma good_progress s :
  (s_host s = HWait → irq_config) → good s → s_host s = HDone 0 ∨ ∃ s', good_step s s'.
Proof.
  intros Hc (Hi & Hr & Hw).
  assert (∀ s', dsp_step s s' → s_host s' = s_host s → (∀ ret, s_host s ≠ HIdle ret) → ∃ s', good_step s s') as Hd.
  { intros s' Hs Eh Hn. exists s'. split; [by right; right |]. intros ret E. rewrite Eh in E. by destruct (Hn ret). }
  assert (∀ s', host_step s s' → (∀ ret, s_host s' = HIdle ret → ret = 0) → ∃ s', good_step s s') as Hh.
  { intros s' Hs Hn. exists s'. split; [by left | done]. }
  destruct Hi as [E | E [Ed | [Ed | Ed]] Ew | [E | (t & E & t' & Et & Ht)] Ed Ew | E [Ed | Ed] Ew | E Ed Ew
                 | Hx Ew [Ha Hirq] | E | E | ret E Hneg].
  - right. eapply Hh; [by apply h_start |]. done.
  - right. eapply Hd; [by apply d_dispatch; [| rewrite Ew |] | done | by rewrite E].
  - right. eapply Hd; [by apply d_started | done | by rewrite E].
  - right. eapply Hd; [by apply d_ready | done | by rewrite E].
  - right. eapply Hh; [by eapply h_ready | done].
  - right. destruct t as [| w t]; [by destruct t' |]. eapply Hh; [by eapply h_write |]. by destruct t.
  - right. eapply Hd; [by apply d_data | done | by rewrite E].
  - right. eapply Hd; [by apply d_set | done | by rewrite E].
  - right. eapply Hd; [by apply d_done | done | by rewrite E].
  - right. destruct Hx as [E | [E | E]].
    + eapply Hh; [by apply h_confirm | done].
    + eapply Hh; [by apply h_irq |]. simp. destruct xrp_host_irq_mode; naive_solver.
    + specialize (Hw E). specialize (Hc E). destruct (s_dsp s) eqn:Ed; try done.
      * destruct (Hirq (agree_sends_host _ Hc Ha Hw)) as [Hp | Hp].
        -- eexists. split; [by right; left; apply i_handle |]. simp. by rewrite E.
        -- destruct (s_completion s) as [| n] eqn:En; [lia |]. eapply Hh; [by eapply h_wait |]. simp. naive_solver.
      * destruct (Dsp.xrp_hw_wait_device_irq (s_hw s)) eqn:Ewt.
        -- destruct Hirq as [_ Hirq].
           eapply Hd; [by apply d_irq; eauto using agree_sends_device | done | by rewrite E].
        -- eapply Hd; [by apply d_nowait | done | by rewrite E].
      * eapply Hd; [by apply d_send | done | by rewrite E].
  - right. eapply Hh; [by eapply h_idle |]. done.
  - by left.
  - specialize (Hr _ E). lia.
Qed.

Lemma sync_can_succeed s : irq_config → good s → ∃ s', rtc good_step s s' ∧ s_host s' = HDone 0.
Proof.
  intros Hc. induction (well_founded_ltof sys measure s) as [s _ IH]. intros Hg.
  destruct (good_progress s (λ _, Hc) Hg) as [E | [s1 Hs]]; [by exists s |].
  destruct (IH s1) as (s' & Hr & E); [by apply good_step_measure | by eapply good_step_good |].
  exists s'. split; [by eapply rtc_l | done].
Qed.

(** C22: unless the host gives up, synchronisation ends, whatever the
    scheduling: from the state after boot every run is finite.  It can only
    stop with the host returning success, or - when the registers are not
    mapped, or the host waits for interrupts and the mode the DSP is told is
    none ([irq_config] fails) - with the host waiting for an interrupt that
    does not come. *)
Theorem sync_terminates s :
  initial s →
  sn good_step s ∧
  ∀ s', rtc good_step s s' → nf good_step s' →
    s_host s' = HDone 0 ∧ agree hw (s_hw s') ∨
    s_host s' = HWait ∧ xrp_host_irq_mode hw = true ∧ ¬ irq_config.
Proof.
  intros Hs. split.
  - assert (good s) as Hg by (by eapply good_reachable). clear Hs. revert Hg.
    induction (well_founded_ltof sys measure s) as [s _ IH]. intros Hg. constructor.
    intros s' Hst. unfold flip in Hst. apply IH; [by apply good_step_measure | by eapply good_step_good].
  - intros s' Hr Hnf. pose proof (good_reachable _ _ Hs Hr) as Hg.
    assert (s_host s' = HDone 0 ∨ s_host s' = HWait ∧ ¬ irq_config) as [E | [E Hc]].
    { destruct irq_config_dec as [Hc | Hc]; [left | destruct (s_host s') eqn:E; try (by right); left].
      all: destruct (good_progress s') as [E' | [s'' Hst]]; try done; try congruence; by destruct Hnf; exists s''. }
    + left. split; [done |]. destruct Hg as (Hi & Hret & _).
      destruct Hi as [| | | | | | | | ret Hh Hneg]; try clash. specialize (Hret _ Hh). lia.
    + right. destruct Hg as (_ & _ & Hw). auto.
Qed.
End sync.

(** ** Examples *)

Module SyncExamples.
Import HwExamples.
Definition boot : sys := mk_sys (λ _, 0) HStart DLoop s0 false false 0.

Lemma boot_initial : initial 256 boot.
Proof. split_and!; reflexivity. Qed.

Lemma hw_irq_config : irq_config hw.
Proof. split; [reflexivity | discriminate]. Qed.

Lemma sync_safe_witness :
  ∃ s, s_host s = HDone 0 ∧ agree hw (s_hw s) ∧ s_dsp s = DLoop.
Proof.
  assert (good hw 256 boot) as Hg.
  { apply (good_reachable hw 256 hw_is_ok boot boot boot_initial). reflexivity. }
  destruct (sync_can_succeed hw 256 hw_is_ok boot hw_irq_config Hg) as (s & Hr & E).
  exists s. split; [exact E |].
  destruct (sync_safe hw 256 hw_is_ok boot s boot_initial) as [_ Hs].
  - revert Hr. apply rtc_subrel. intros x y [Hxy _]. exact Hxy.
  - destruct (Hs E) as (Ha & _ & Hd). split; [exact Ha | exact (Hd eq_refl)].
Defined.

Lemma sync_terminates_witness :
  sn (good_step hw 256) boot ∧ ∀ s, rtc (good_step hw 256) boot s → nf (good_step hw 256) s → s_host s = HDone 0.
Proof.
  destruct (sync_terminates hw 256 hw_is_ok boot boot_initial) as [Ht Hs]. split; [exact Ht |].
  intros s Hr Hn. destruct (Hs s Hr Hn) as [[E _] | (_ & _ & Hc)]; [exact E | destruct (Hc hw_irq_config)].
Defined.
End SyncExamples.
