(* ===== verification/Firmware.v ===== *)
(** * Firmware loading (xrp-kernel/xrp_firmware.c)

    The ELF32 image the kernel hands over: header checks, the search of the
    symbol that receives the address of the communication area, and the two
    segment loaders.  The image is a list of bytes; a read outside it is
    [FwUB], a loop that makes no progress is [FwHang].  The translation of
    device addresses and the mapping primitives belong to the Linux kernel
    and are parameters. *)

From stdpp Require Import base tactics list numbers.
From S2P Require Import Prelude Mem Interface AddressMap.

(** ** Outcomes *)

Inductive fw_res (A : Type) : Type :=
| FwOk (a : A)
| FwErr (e : Z)
| FwUB
| FwHang.
Arguments FwOk {A} a.
Arguments FwErr {A} e.
Arguments FwUB {A}.
Arguments FwHang {A}.

Definition fw_bind {A B} (r : fw_res A) (f : A → fw_res B) : fw_res B :=
  match r with FwOk a => f a | FwErr e => FwErr e | FwUB => FwUB | FwHang => FwHang end.
Notation "'do' x '<-' r ; k" := (fw_bind r (λ x, k))
  (at level 100, x pattern, r at level 100, k at level 200, right associativity) : xrp_scope.

(** ** The image *)

Abbreviation image := (list Z).
Definition fw_size (fw : image) : Z := Z.of_nat (length fw).

(** The little-endian value of [n] bytes of the image. *)
Definition rd (fw : image) (off n : Z) : fw_res Z :=
  if (0 <=? off) && (off + n <=? fw_size fw) then
    FwOk (le_val (take (Z.to_nat n) (drop (Z.to_nat off) fw)))
  else FwUB.

(** [memcpy] into the image. *)
Definition wr (fw : image) (off : Z) (l : list Z) : fw_res image :=
  if (0 <=? off) && (off + Z.of_nat (length l) <=? fw_size fw) then
    FwOk (take (Z.to_nat off) fw ++ l ++ drop (Z.to_nat off + length l) fw)
  else FwUB.

Record Elf32_Ehdr := {
  e_ident : list Z; e_type : Z; e_machine : Z; e_phoff : Z; e_shoff : Z;
  e_phentsize : Z; e_phnum : Z; e_shentsize : Z; e_shnum : Z;
}.
Record Elf32_Phdr := {
  p_type : Z; p_offset : Z; p_paddr : Z; p_filesz : Z; p_memsz : Z; p_flags : Z;
}.
Record Elf32_Shdr := {
  sh_type : Z; sh_addr : Z; sh_offset : Z; sh_size : Z; sh_entsize : Z;
}.
Record Elf32_Sym := {
  st_name : Z; st_value : Z; st_size : Z; st_info : Z; st_shndx : Z;
}.

Definition rd_ehdr (fw : image) : fw_res Elf32_Ehdr :=
  do ty <- rd fw 16 2; do mach <- rd fw 18 2; do phoff <- rd fw 28 4; do shoff <- rd fw 32 4;
  do phes <- rd fw 42 2; do phn <- rd fw 44 2; do shes <- rd fw 46 2; do shn <- rd fw 48 2;
  FwOk {| e_ident := take 16 fw; e_type := ty; e_machine := mach; e_phoff := phoff;
          e_shoff := shoff; e_phentsize := phes; e_phnum := phn; e_shentsize := shes;
          e_shnum := shn |}.
Definition rd_phdr (fw : image) (o : Z) : fw_res Elf32_Phdr :=
  do ty <- rd fw o 4; do off <- rd fw (o + 4) 4; do pa <- rd fw (o + 12) 4;
  do fsz <- rd fw (o + 16) 4; do msz <- rd fw (o + 20) 4; do fl <- rd fw (o + 24) 4;
  FwOk {| p_type := ty; p_offset := off; p_paddr := pa; p_filesz := fsz; p_memsz := msz;
          p_flags := fl |}.
Definition rd_shdr (fw : image) (o : Z) : fw_res Elf32_Shdr :=
  do ty <- rd fw (o + 4) 4; do ad <- rd fw (o + 12) 4; do off <- rd fw (o + 16) 4;
  do sz <- rd fw (o + 20) 4; do es <- rd fw (o + 36) 4;
  FwOk {| sh_type := ty; sh_addr := ad; sh_offset := off; sh_size := sz; sh_entsize := es |}.
Definition rd_sym (fw : image) (o : Z) : fw_res Elf32_Sym :=
  do nm <- rd fw o 4; do v <- rd fw (o + 4) 4; do sz <- rd fw (o + 8) 4;
  do inf <- rd fw (o + 12) 1; do ndx <- rd fw (o + 14) 2;
  FwOk {| st_name := nm; st_value := v; st_size := sz; st_info := inf; st_shndx := ndx |}.

Definition ELFMAG : list Z := [0x7f; 0x45; 0x4c; 0x46].
Definition ET_EXEC := 2.
Definition EM_XTENSA := 94.
Definition PT_LOAD := 1.
Definition PF_RWX := 7.
Definition SHT_SYMTAB := 2.
Definition SHT_STRTAB := 3.
Definition STT_OBJECT := 1.
Definition XRP_DSP_COMM_BASE_MAGIC := 0x20161006.

(** ** Symbols *)

Definition xrp_section_bad (fw : image) (shdr : Elf32_Shdr) : bool :=
  (fw_size fw <? sh_offset shdr) || (fw_size fw - sh_offset shdr <? sh_size shdr).

(** The section scan: the last symbol and string tables. *)
Fixpoint scan_sections (fw : image) (ehdr : Elf32_Ehdr) (k : nat) (i : Z)
    (symtab strtab : option Elf32_Shdr) : fw_res (option Elf32_Shdr * option Elf32_Shdr) :=
  match k with
  | O => FwOk (symtab, strtab)
  | S k =>
      do shdr <- rd_shdr fw (e_shoff ehdr + i * e_shentsize ehdr);
      if sh_type shdr =? SHT_SYMTAB then scan_sections fw ehdr k (i + 1) (Some shdr) strtab
      else if sh_type shdr =? SHT_STRTAB then scan_sections fw ehdr k (i + 1) symtab (Some shdr)
      else scan_sections fw ehdr k (i + 1) symtab strtab
  end.

(** [strncmp (fw + off, name, n) == 0]; [name] ends with its zero byte. *)
Fixpoint strncmp_eq (fw : image) (off : Z) (name : list Z) (n : nat) : fw_res bool :=
  match n, name with
  | S n, c :: name =>
      do b <- rd fw off 1;
      if negb (b =? c) then FwOk false
      else if c =? 0 then FwOk true
      else strncmp_eq fw (off + 1) name n
  | _, _ => FwOk true
  end.

(** The test of the symbol loop. *)
Definition sym_matches (fw : image) (strtab : Elf32_Shdr) (name : list Z) (sym : Elf32_Sym)
  : fw_res bool :=
  if (Z.land (st_info sym) 0xf =? STT_OBJECT) && (st_name sym <? sh_size strtab) then
    strncmp_eq fw (sh_offset strtab + st_name sym) name (Z.to_nat (sh_size strtab - st_name sym))
  else FwOk false.

(** [for (i = 0; i < sh_size; i += sh_entsize)] up to the first match. *)
Fixpoint find_sym (fuel : nat) (fw : image) (symtab strtab : Elf32_Shdr) (name : list Z) (i : Z)
  : fw_res (option Elf32_Sym) :=
  match fuel with
  | O => FwHang
  | S fuel =>
      if i <? sh_size symtab then
        do sym <- rd_sym fw (sh_offset symtab + i);
        do m <- sym_matches fw strtab name sym;
        if m then FwOk (Some sym)
        else find_sym fuel fw symtab strtab name (u32 (i + sh_entsize symtab))
      else FwOk None
  end.

(** Enough for every table with a non-zero entry size. *)
Definition sym_fuel (symtab : Elf32_Shdr) : nat := S (S (Z.to_nat (sh_size symtab))).

(** Offset in the image and size of the symbol's data. *)
Definition locate_symbol (fw : image) (ehdr : Elf32_Ehdr) (sym : Elf32_Sym) : fw_res (Z * Z) :=
  if (0 <? st_shndx sym) && (st_shndx sym <? e_shnum ehdr) then
    do shdr <- rd_shdr fw (e_shoff ehdr + st_shndx sym * e_shentsize ehdr);
    let in_section_off := u32 (st_value sym - sh_addr shdr) in
    if xrp_section_bad fw shdr then FwErr EINVAL
    else if (st_value sym <? sh_addr shdr) || (sh_size shdr <? in_section_off)
            || (sh_size shdr - in_section_off <? st_size sym) then FwErr EINVAL
    else FwOk (sh_offset shdr + in_section_off, st_size sym)
  else FwErr EINVAL.

Definition xrp_firmware_find_symbol (fw : image) (name : list Z) : fw_res (Z * Z) :=
  do ehdr <- rd_ehdr fw;
  if e_shoff ehdr =? 0 then FwErr ENOENT
  else if (fw_size fw <? e_shoff ehdr)
          || (fw_size fw - e_shoff ehdr <? e_shnum ehdr * e_shentsize ehdr) then FwErr EINVAL
  else
    do tabs <- scan_sections fw ehdr (Z.to_nat (e_shnum ehdr)) 0 None None;
    match tabs with
    | (Some symtab, Some strtab) =>
        if xrp_section_bad fw symtab then FwErr EINVAL
        else if xrp_section_bad fw strtab then FwErr EINVAL
        else
          do sym <- find_sym (sym_fuel symtab) fw symtab strtab name 0;
          match sym with
          | Some sym => locate_symbol fw ehdr sym
          | None => FwErr ENOENT
          end
    | _ => FwErr ENOENT
    end.

(** The image with the symbol's data replaced. *)
Definition xrp_firmware_fixup_symbol (fw : image) (name : list Z) (v : Z) : fw_res image :=
  do s <- xrp_firmware_find_symbol fw name;
  if s.2 =? 4 then wr fw s.1 (le_bytes 4 (u32 v)) else FwErr EINVAL.

(** ** Segments *)

Section load.
Context `{Arch} `{KLib}.
(** [of_translate_address] of a device address, [pfn_valid] of the page of
    an address, and whether [kmap] and [ioremap] succeed there. *)
Context (xrp_translate_to_cpu : Z → Z) (pfn_valid kmap ioremap : Z → bool).

Definition ALIGN4 (v : Z) : Z := ALIGN long_bits v 4.

(** [n] bytes of the image from [off] on. *)
Definition rd_bytes (fw : image) (off n : Z) : fw_res (list Z) :=
  if (0 <=? off) && (off + n <=? fw_size fw) then FwOk (take (Z.to_nat n) (drop (Z.to_nat off) fw))
  else FwUB.

(** A write of [l] at [offs] of the page at [page]. *)
Definition page_write (m : mem) (page offs : Z) (l : list Z) : fw_res mem :=
  if offs + Z.of_nat (length l) <=? PAGE_SIZE then FwOk (store_bytes m (page + offs) l) else FwUB.

(** Loop state: memory, [page_offs], [offs]. *)
Record seg_state := mk_seg { sg_mem : mem; sg_page_offs : Z; sg_offs : Z }.

(** One iteration of the page loop of [xrp_load_segment_to_sysmem]. *)
Definition load_page (fw : image) (phdr : Elf32_Phdr) (page : Z) (st : seg_state) : fw_res seg_state :=
  let sz := ulong (PAGE_SIZE - sg_page_offs st) in
  let page_offs := Z.land (sg_page_offs st) (PAGE_SIZE - 1) in
  let offs := sg_offs st in
  do copied <-
    (if offs <? p_filesz phdr then
       let copy_sz := if p_filesz phdr - offs <? sz then p_filesz phdr - offs else sz in
       let copy_sz := ALIGN4 copy_sz in
       do l <- rd_bytes fw (p_offset phdr + offs) copy_sz;
       do m <- page_write (sg_mem st) page page_offs l;
       FwOk (mk_seg m (page_offs + copy_sz) (offs + copy_sz), ulong (sz - copy_sz))
     else FwOk (mk_seg (sg_mem st) page_offs offs, sz));
  let '(st, sz) := copied in
  if (sg_offs st <? p_memsz phdr) && negb (sz =? 0) then
    let sz := if p_memsz phdr - sg_offs st <? sz then p_memsz phdr - sg_offs st else sz in
    let sz := ALIGN4 sz in
    do m <- page_write (sg_mem st) page (sg_page_offs st) (replicate (Z.to_nat sz) 0);
    FwOk (mk_seg m (sg_page_offs st + sz) (sg_offs st + sz))
  else FwOk st.

Fixpoint load_pages (fuel : nat) (fw : image) (phdr : Elf32_Phdr) (page : Z) (st : seg_state)
  : fw_res mem :=
  match fuel with
  | O => FwHang
  | S fuel =>
      if sg_offs st <? p_memsz phdr then
        if kmap page then
          do st <- load_page fw phdr page st; load_pages fuel fw phdr (page + PAGE_SIZE) st
        else FwErr ENOMEM
      else FwOk (sg_mem st)
  end.

(** Two rounds per page and one to leave the loop are enough. *)
Definition seg_fuel (phdr : Elf32_Phdr) : nat := Z.to_nat (2 * (p_memsz phdr / PAGE_SIZE) + 4).

Definition xrp_load_segment_to_sysmem (fw : image) (phdr : Elf32_Phdr) (m : mem) : fw_res mem :=
  let pa := xrp_translate_to_cpu (p_paddr phdr) in
  load_pages (seg_fuel phdr) fw phdr (pa / PAGE_SIZE * PAGE_SIZE) (mk_seg m (pa mod PAGE_SIZE) 0).

Definition xrp_load_segment_to_iomem (fw : image) (phdr : Elf32_Phdr) (m : mem) : fw_res mem :=
  let pa := xrp_translate_to_cpu (p_paddr phdr) in
  if ioremap pa then
    let fsz := ALIGN 32 (p_filesz phdr) 4 in
    let zsz := ALIGN 32 (u32 (p_memsz phdr - fsz)) 4 in
    do l <- rd_bytes fw (p_offset phdr) fsz;
    FwOk (store_bytes (store_bytes m pa l) (pa + fsz) (replicate (Z.to_nat zsz) 0))
  else FwErr EINVAL.

(** ** Loading an image *)

Definition OF_BAD_ADDR : Z := phys (-1).

Definition loadable (phdr : Elf32_Phdr) : bool :=
  (p_type phdr =? PT_LOAD) && negb (Z.land (p_flags phdr) PF_RWX =? 0) && (0 <? p_memsz phdr).

Definition load_segment (fw : image) (phdr : Elf32_Phdr) (m : mem) : fw_res mem :=
  if negb (loadable phdr) then FwOk m
  else if (fw_size fw <=? p_offset phdr) || (fw_size fw <? u32 (p_offset phdr + p_filesz phdr))
  then FwErr EINVAL
  else
    let pa := xrp_translate_to_cpu (p_paddr phdr) in
    if pa =? OF_BAD_ADDR then FwErr EINVAL
    else if pfn_valid pa then xrp_load_segment_to_sysmem fw phdr m
    else xrp_load_segment_to_iomem fw phdr m.

Fixpoint load_segments (k : nat) (fw : image) (ehdr : Elf32_Ehdr) (i : Z) (m : mem) : fw_res mem :=
  match k with
  | O => FwOk m
  | S k =>
      do phdr <- rd_phdr fw (e_phoff ehdr + i * e_phentsize ehdr);
      do m <- load_segment fw phdr m;
      load_segments k fw ehdr (i + 1) m
  end.

(** ["xrp_dsp_comm_base"]. *)
Definition comm_base_name : list Z :=
  [120; 114; 112; 95; 100; 115; 112; 95; 99; 111; 109; 109; 95; 98; 97; 115; 101; 0].

(** The result of the fixup is ignored by the caller. *)
Definition fixup_ignored (fw : image) (v : Z) : fw_res image :=
  match xrp_firmware_fixup_symbol fw comm_base_name v with FwErr _ => FwOk fw | r => r end.

Definition xrp_load_firmware (fw : image) (map : xrp_address_map) (comm_phys : Z) (m : mem) : fw_res mem :=
  do ehdr <- rd_ehdr fw;
  if negb (bool_decide (take 4 (e_ident ehdr) = ELFMAG)) then FwErr EINVAL
  else if negb (e_type ehdr =? ET_EXEC) then FwErr EINVAL
  else if negb (e_machine ehdr =? EM_XTENSA) then FwErr EINVAL
  else if (fw_size fw <=? e_phoff ehdr)
          || (fw_size fw <? u32 (e_phoff ehdr + e_phentsize ehdr * e_phnum ehdr)) then FwErr EINVAL
  else
    do fw <- fixup_ignored fw (xrp_translate_to_dsp map comm_phys);
    do ehdr <- rd_ehdr fw;
    load_segments (Z.to_nat (e_phnum ehdr)) fw ehdr 0 m.

(** [request] is what [request_firmware] returns; the flag tells whether the
    image was released again. *)
Definition xrp_request_firmware (request : result image) (map : xrp_address_map) (comm_phys : Z) (m : mem)
  : fw_res mem * bool :=
  match request with
  | Err e => (FwErr e, false)
  | Ok fw => let r := xrp_load_firmware fw map comm_phys m in
             (r, match r with FwErr _ => true | _ => false end)
  end.

(** ** What the loaders leave in memory *)

(** The next multiple of four. *)
Definition r4 (v : Z) : Z := (v + 3) / 4 * 4.

Lemma r4_spec v : v ≤ r4 v < v + 4 ∧ ∃ k, r4 v = 4 * k.
Proof.
  unfold r4. pose proof (Z.div_mod (v + 3) 4 ltac:(lia)). pose proof (Z.mod_pos_bound (v + 3) 4 ltac:(lia)).
  split; [lia | exists ((v + 3) / 4); lia].
Qed.

Lemma r4_unique v k : v ≤ 4 * k < v + 4 → r4 v = 4 * k.
Proof. intros. destruct (r4_spec v) as [? [j Hj]]. lia. Qed.

Lemma ALIGN_r4 w v : 2 ≤ w → 0 ≤ v → v + 3 < 2 ^ w → ALIGN w v 4 = r4 v.
Proof.
  intros. unfold r4. change 4 with (2 ^ 2) at 1. rewrite ALIGN_pow2 by (change (2 ^ 2) with 4; lia).
  change (2 ^ 2) with 4. f_equal. f_equal. lia.
Qed.

(** The segment is in memory at [pa]: every byte of the memory afterwards.
    The loaders copy and clear whole words, so the image's bytes go on up to
    the next word boundary behind the file contents, and the zero fill up to
    the one behind the segment. *)
Definition segment_loaded (fw : image) (phdr : Elf32_Phdr) (pa : Z) (m m' : mem) : Prop :=
  (∀ i, 0 ≤ i < r4 (p_filesz phdr) → m' (pa + i) = nth (Z.to_nat (p_offset phdr + i)) fw 0) ∧
  (∀ i, r4 (p_filesz phdr) ≤ i < r4 (p_memsz phdr) → m' (pa + i) = 0) ∧
  (∀ x, x < pa ∨ pa + r4 (p_memsz phdr) ≤ x → m' x = m x).

(** A header whose sizes make sense for the image, which has the whole last
    word of the file contents. *)
Definition phdr_ok (fw : image) (phdr : Elf32_Phdr) : Prop :=
  0 ≤ p_filesz phdr ≤ p_memsz phdr ∧ p_memsz phdr + 3 < 2 ^ 32 ∧ 0 ≤ p_offset phdr ∧
  p_offset phdr + r4 (p_filesz phdr) ≤ fw_size fw.

Lemma segment_loaded_stores fw phdr pa m :
  phdr_ok fw phdr →
  segment_loaded fw phdr pa m
    (store_bytes
       (store_bytes m pa (take (Z.to_nat (r4 (p_filesz phdr))) (drop (Z.to_nat (p_offset phdr)) fw)))
       (pa + r4 (p_filesz phdr))
       (replicate (Z.to_nat (r4 (p_memsz phdr) - r4 (p_filesz phdr))) 0)).
Proof.
  intros (Hf & Hm & Ho & Hs). unfold fw_size in Hs.
  destruct (r4_spec (p_filesz phdr)) as [? [kf ?]], (r4_spec (p_memsz phdr)) as [? [km ?]].
  set (l := take _ _). assert (Z.of_nat (length l) = r4 (p_filesz phdr)) as Hl.
  { unfold l. rewrite length_take, length_drop. lia. }
  split_and!.
  - intros i Hi. rewrite store_bytes_out by lia. rewrite store_bytes_in by lia.
    replace (Z.to_nat (pa + i - pa)) with (Z.to_nat i) by lia. unfold l.
    rewrite !nth_lookup, lookup_take_lt, lookup_drop by lia. do 3 f_equal. lia.
  - intros i Hi. rewrite store_bytes_in by (rewrite length_replicate; lia). by rewrite nth_lookup, lookup_replicate_2 by lia.
  - intros x Hx. rewrite !store_bytes_out by (rewrite ?length_replicate; lia). done.
Qed.

(** C39: loading a segment through an I/O mapping, for a program header whose
    sizes make sense and whose last word the image has: when the mapping
    fails, [-EINVAL]; otherwise the image's bytes up to the word boundary at
    or behind the end of the file contents are in memory at the segment's
    address, zeros follow up to the word boundary at or behind the end of
    the segment, and no other byte of memory is touched.  (The bytes up to
    three behind the file contents should be zero, [tail_not_zeroed].) *)
Theorem load_segment_to_iomem_ok fw phdr m :
  phdr_ok fw phdr →
  if ioremap (xrp_translate_to_cpu (p_paddr phdr)) then
    ∃ m', xrp_load_segment_to_iomem fw phdr m = FwOk m' ∧
      segment_loaded fw phdr (xrp_translate_to_cpu (p_paddr phdr)) m m'
  else xrp_load_segment_to_iomem fw phdr m = FwErr EINVAL.
Proof.
  intros Hok. pose proof (segment_loaded_stores fw phdr (xrp_translate_to_cpu (p_paddr phdr)) m Hok) as Hst.
  destruct Hok as (Hf & Hm & Ho & Hs). unfold xrp_load_segment_to_iomem. destruct (ioremap _); [| done].
  destruct (r4_spec (p_filesz phdr)) as [? [kf ?]], (r4_spec (p_memsz phdr)) as [? [km ?]].
  rewrite ALIGN_r4 by lia. unfold rd_bytes.
  rewrite (proj2 (Z.leb_le _ _)), (proj2 (Z.leb_le _ _)) by lia. cbn [andb fw_bind].
  replace (ALIGN 32 (u32 (p_memsz phdr - r4 (p_filesz phdr))) 4)
    with (r4 (p_memsz phdr) - r4 (p_filesz phdr)); [by eexists |].
  destruct (decide (r4 (p_filesz phdr) ≤ p_memsz phdr)).
  - rewrite u32_small, ALIGN_r4 by lia. symmetry. rewrite (r4_unique _ (km - kf)); lia.
  - replace (u32 (p_memsz phdr - r4 (p_filesz phdr))) with (2 ^ 32 + (p_memsz phdr - r4 (p_filesz phdr))).
    + change 4 with (2 ^ 2). rewrite ALIGN_wrap by (change (2 ^ 2) with 4; lia). lia.
    + unfold wrap. apply (Z.mod_unique_pos _ _ (-1)); lia.
Qed.

Lemma ulong_small x : 0 ≤ x < 2 ^ 32 → ulong x = x.
Proof. intros. apply wrap_small. destruct long_bits_cases as [-> | ->]; lia. Qed.

Lemma ALIGN4_r4 v : 0 ≤ v → v + 3 < 2 ^ 32 → ALIGN4 v = r4 v.
Proof. intros. unfold ALIGN4. destruct long_bits_cases as [-> | ->]; apply ALIGN_r4; lia. Qed.

Lemma land_page x : 0 ≤ x < PAGE_SIZE → Z.land x (PAGE_SIZE - 1) = x.
Proof.
  intros. change (PAGE_SIZE - 1) with (Z.ones 12). rewrite Z.land_ones by lia. by apply Z.mod_small.
Qed.

Lemma page_write_ok m page offs l :
  offs + Z.of_nat (length l) ≤ PAGE_SIZE → page_write m page offs l = FwOk (store_bytes m (page + offs) l).
Proof. intros. unfold page_write. by rewrite (proj2 (Z.leb_le _ _)). Qed.

Lemma rd_bytes_ok fw off n :
  0 ≤ off → off + n ≤ fw_size fw →
  rd_bytes fw off n = FwOk (take (Z.to_nat n) (drop (Z.to_nat off) fw)).
Proof. intros. unfold rd_bytes. by rewrite (proj2 (Z.leb_le _ _)), (proj2 (Z.leb_le _ _)). Qed.

(** The first page round, on a segment that ends in that page. *)
Lemma load_page_whole fw phdr page po m :
  phdr_ok fw phdr → 0 < p_memsz phdr → 0 ≤ po → po + r4 (p_memsz phdr) ≤ PAGE_SIZE →
  ∃ m', load_page fw phdr page (mk_seg m po 0) = FwOk (mk_seg m' (po + r4 (p_memsz phdr)) (r4 (p_memsz phdr))) ∧
    m' ≡ store_bytes
       (store_bytes m (page + po) (take (Z.to_nat (r4 (p_filesz phdr))) (drop (Z.to_nat (p_offset phdr)) fw)))
       (page + po + r4 (p_filesz phdr))
       (replicate (Z.to_nat (r4 (p_memsz phdr) - r4 (p_filesz phdr))) 0).
Proof.
  intros (Hf & Hm & Ho & Hs) Hpos Hpo Hend. unfold PAGE_SIZE in *.
  destruct (r4_spec (p_filesz phdr)) as [? [kf ?]], (r4_spec (p_memsz phdr)) as [? [km ?]].
  unfold load_page. cbn [sg_page_offs sg_offs sg_mem].
  rewrite (ulong_small (PAGE_SIZE - po)), land_page by (unfold PAGE_SIZE; lia). rewrite Z.sub_0_r, Z.add_0_r, Z.add_0_l.
  set (l := take _ _). assert (Z.of_nat (length l) = r4 (p_filesz phdr)) as Hl.
  { unfold l, fw_size in *. rewrite length_take, length_drop. lia. }
  set (copied := if 0 <? p_filesz phdr then _ else _).
  assert (∃ m1, copied = FwOk (mk_seg m1 (po + r4 (p_filesz phdr)) (r4 (p_filesz phdr)),
                             PAGE_SIZE - po - r4 (p_filesz phdr)) ∧ m1 ≡ store_bytes m (page + po) l)
    as (m1 & -> & Em1).
  { subst copied. destruct (Z.ltb_spec 0 (p_filesz phdr)).
    - replace (if p_filesz phdr <? PAGE_SIZE - po then p_filesz phdr else PAGE_SIZE - po) with (p_filesz phdr)
        by (destruct (Z.ltb_spec (p_filesz phdr) (PAGE_SIZE - po)); unfold PAGE_SIZE in *; lia).
      rewrite ALIGN4_r4, rd_bytes_ok by lia. fold l. cbn [fw_bind].
      rewrite page_write_ok by (unfold PAGE_SIZE; lia). cbn [fw_bind].
      rewrite ulong_small by (unfold PAGE_SIZE; lia). by eexists.
    - assert (p_filesz phdr = 0) as E by lia. rewrite E in *. change (r4 0) with 0 in *.
      destruct l; [| done]. exists m. rewrite Z.add_0_r, Z.sub_0_r. by rewrite store_bytes_nil. }
  cbn [fw_bind sg_page_offs sg_offs sg_mem].
  destruct (Z.ltb_spec (r4 (p_filesz phdr)) (p_memsz phdr)) as [Hz | Hz]; cbn [andb].
  - rewrite (proj2 (Z.eqb_neq _ _)) by (unfold PAGE_SIZE; lia). cbn [negb].
    replace (if _ <? _ then _ else _) with (p_memsz phdr - r4 (p_filesz phdr))
      by (destruct (Z.ltb_spec (p_memsz phdr - r4 (p_filesz phdr)) (PAGE_SIZE - po - r4 (p_filesz phdr)));
          unfold PAGE_SIZE in *; lia).
    rewrite ALIGN4_r4, (r4_unique (p_memsz phdr - _) (km - kf)) by lia.
    rewrite page_write_ok by (rewrite length_replicate; unfold PAGE_SIZE; lia). cbn [fw_bind].
    eexists. split; [do 2 f_equal; lia |]. rewrite Em1, Z.add_assoc.
    by replace (4 * (km - kf)) with (r4 (p_memsz phdr) - r4 (p_filesz phdr)) by lia.
  - assert (r4 (p_filesz phdr) = r4 (p_memsz phdr)) as -> by lia. exists m1. split; [done |].
    rewrite Z.sub_diag. simpl. by rewrite store_bytes_nil.
Qed.

(** Loading a segment that lies within one page of system memory puts
    the file contents and the zero fill where the program header says. *)
Theorem load_segment_to_sysmem_page fw phdr m :
  let pa := xrp_translate_to_cpu (p_paddr phdr) in
  phdr_ok fw phdr → 0 < p_memsz phdr → pa mod PAGE_SIZE + r4 (p_memsz phdr) ≤ PAGE_SIZE →
  kmap (pa / PAGE_SIZE * PAGE_SIZE) = true →
  ∃ m', xrp_load_segment_to_sysmem fw phdr m = FwOk m' ∧ segment_loaded fw phdr pa m m'.
Proof.
  intros pa Hok Hpos Hend Hk. unfold xrp_load_segment_to_sysmem. fold pa.
  pose proof (Z.mod_pos_bound pa PAGE_SIZE ltac:(done)). pose proof (Z.div_mod pa PAGE_SIZE ltac:(done)) as Hdm.
  destruct (load_page_whole fw phdr (pa / PAGE_SIZE * PAGE_SIZE) (pa mod PAGE_SIZE) m) as (m' & E & Em);
    [done | done | lia | done |].
  replace (pa / PAGE_SIZE * PAGE_SIZE + pa mod PAGE_SIZE) with pa in Em by lia.
  exists m'. split.
  - unfold seg_fuel. replace (Z.to_nat _) with (S (S (Z.to_nat (2 * (p_memsz phdr / PAGE_SIZE) + 2)))).
    2:{ pose proof (Z.div_pos (p_memsz phdr) PAGE_SIZE ltac:(lia) ltac:(done)). lia. }
    cbn [load_pages sg_offs]. rewrite (proj2 (Z.ltb_lt _ _) Hpos), Hk, E. cbn [fw_bind sg_offs sg_mem].
    by rewrite (proj2 (Z.ltb_ge _ _)) by apply r4_spec.
  - destruct (segment_loaded_stores fw phdr pa m Hok) as (Ha & Hb & Hc).
    split_and!; intros; rewrite Em; auto.
Qed.
End load.

(** ** The symbol search stays inside the image *)

Lemma rd_range fw off n v : bytes fw → 0 ≤ n → rd fw off n = FwOk v → 0 ≤ v < 256 ^ n.
Proof.
  intros Hb Hn. unfold rd. destruct (_ && _) eqn:E; [| done]. intros [= <-].
  apply andb_prop in E as [E1%Z.leb_le E2%Z.leb_le]. unfold fw_size in E2.
  pose proof (le_val_range (take (Z.to_nat n) (drop (Z.to_nat off) fw)) ltac:(auto with xrp)) as Hr.
  rewrite length_take, length_drop in Hr.
  replace (Z.of_nat _) with n in Hr by lia. done.
Qed.

(** Splits a successful chain of reads. *)
Ltac fw_inv H :=
  repeat match type of H with
  | fw_bind ?r _ = FwOk _ => let E := fresh "Erd" in destruct r eqn:E; cbn [fw_bind] in H; try discriminate H
  end.

Lemma rd_shdr_range fw o shdr :
  bytes fw → rd_shdr fw o = FwOk shdr →
  0 ≤ sh_addr shdr < 2 ^ 32 ∧ 0 ≤ sh_offset shdr < 2 ^ 32 ∧ 0 ≤ sh_size shdr < 2 ^ 32.
Proof.
  intros Hb H. unfold rd_shdr in H. fw_inv H. injection H as <-. simpl.
  split_and!; (eapply rd_range; [done | | eassumption]; lia) || (eapply (rd_range fw _ 4); [done | lia | eassumption]).
Qed.

Lemma rd_sym_range fw o sym :
  bytes fw → rd_sym fw o = FwOk sym → 0 ≤ st_value sym < 2 ^ 32 ∧ 0 ≤ st_size sym < 2 ^ 32.
Proof.
  intros Hb H. unfold rd_sym in H. fw_inv H. injection H as <-. simpl.
  split; eapply (rd_range fw _ 4); [done | lia | eassumption | done | lia | eassumption].
Qed.

Lemma find_sym_some fuel fw symtab strtab name i sym :
  find_sym fuel fw symtab strtab name i = FwOk (Some sym) → ∃ o, rd_sym fw o = FwOk sym.
Proof.
  revert i. induction fuel as [| fuel IH]; intros i; [done |]. cbn [find_sym].
  destruct (i <? _); [| done]. destruct (rd_sym _ _) as [s | | |] eqn:Er; try done. cbn [fw_bind].
  destruct (sym_matches _ _ _ _) as [[] | | |]; try done; cbn [fw_bind]; [| apply IH].
  intros [= <-]. eauto.
Qed.

Lemma locate_symbol_bounds fw ehdr sym addr sz :
  bytes fw → 0 ≤ st_size sym → locate_symbol fw ehdr sym = FwOk (addr, sz) →
  0 ≤ addr ∧ 0 ≤ sz ∧ addr + sz ≤ fw_size fw.
Proof.
  intros Hb Hs. unfold locate_symbol. destruct (_ && _); [| done].
  destruct (rd_shdr _ _) as [shdr | | |] eqn:Er; try done. cbn [fw_bind].
  destruct (rd_shdr_range _ _ _ Hb Er) as (_ & ? & ?).
  destruct (xrp_section_bad fw shdr) eqn:Eb; [done |].
  apply orb_false_elim in Eb as [Eb1%Z.ltb_ge Eb2%Z.ltb_ge].
  destruct (_ || _) eqn:Es; [done |]. intros [= <- <-].
  apply orb_false_elim in Es as [[_ Es1%Z.ltb_ge]%orb_false_elim Es2%Z.ltb_ge].
  pose proof (u32_range (st_value sym - sh_addr shdr)). lia.
Qed.

Lemma find_symbol_bounds fw name addr sz :
  bytes fw → xrp_firmware_find_symbol fw name = FwOk (addr, sz) →
  0 ≤ addr ∧ 0 ≤ sz ∧ addr + sz ≤ fw_size fw.
Proof.
  intros Hb. unfold xrp_firmware_find_symbol.
  destruct (rd_ehdr fw) as [ehdr | | |]; try done. cbn [fw_bind].
  destruct (_ =? 0); [done |]. destruct (_ || _); [done |].
  destruct (scan_sections _ _ _ _ _ _) as [[[symtab |] [strtab |]] | | |]; try done. cbn [fw_bind].
  destruct (xrp_section_bad fw symtab); [done |]. destruct (xrp_section_bad fw strtab); [done |].
  destruct (find_sym _ _ _ _ _ _) as [[sym |] | | |] eqn:Ef; try done. cbn [fw_bind].
  destruct (find_sym_some _ _ _ _ _ _ _ Ef) as [o Ho].
  apply locate_symbol_bounds; [done |]. apply (rd_sym_range fw o); done.
Qed.

(** C40: whatever the image, the data of a symbol that was found lies inside
    it; patching a four-byte symbol is then a safe write of exactly those
    four bytes, and reading them back gives the value. *)
Theorem fixup_symbol_ok fw name addr sz v :
  bytes fw → xrp_firmware_find_symbol fw name = FwOk (addr, sz) →
  0 ≤ addr ∧ 0 ≤ sz ∧ addr + sz ≤ fw_size fw ∧
  (sz = 4 → ∃ fw', xrp_firmware_fixup_symbol fw name v = FwOk fw' ∧
     rd fw' addr 4 = FwOk (u32 v) ∧ length fw' = length fw ∧
     (∀ i, (i < Z.to_nat addr)%nat ∨ (Z.to_nat addr + 4 ≤ i)%nat → fw' !! i = fw !! i)).
Proof.
  intros Hb Hf. destruct (find_symbol_bounds fw name addr sz Hb Hf) as (Ha & Hs & Hl).
  split_and!; [done | done | done |]. intros ->. unfold xrp_firmware_fixup_symbol. rewrite Hf. cbn [fw_bind fst snd].
  set (l := le_bytes 4 (u32 v)). assert (length l = 4%nat) as El by apply length_le_bytes.
  simpl. unfold wr. rewrite El. unfold fw_size in *.
  rewrite (proj2 (Z.leb_le _ _)), (proj2 (Z.leb_le _ _)) by lia. cbn [andb].
  set (k := Z.to_nat addr). set (fw' := take k fw ++ l ++ drop (k + 4) fw).
  assert (length (take k fw) = k) as Ek by (rewrite length_take; lia).
  assert (length fw' = length fw) as Ef' by (unfold fw'; rewrite !length_app, Ek, El, length_drop; lia).
  exists fw'. split_and!; [done | | done |].
  - unfold rd, fw_size. rewrite Ef', (proj2 (Z.leb_le _ _)), (proj2 (Z.leb_le _ _)) by lia. cbn [andb]. f_equal.
    fold k. unfold fw'. rewrite drop_app_length' by done. rewrite take_app_length' by done.
    apply le_val_bytes. apply u32_range.
  - intros i [Hi | Hi]; unfold fw'.
    + rewrite lookup_app_l by lia. by rewrite lookup_take_lt.
    + rewrite !lookup_app_r by lia. rewrite lookup_drop. f_equal. lia.
Qed.

(** Reads and string comparisons always return. *)
Lemma rd_no_hang fw off n : rd fw off n ≠ FwHang.
Proof. unfold rd. by case_match. Qed.

Lemma rd_sym_no_hang fw o : rd_sym fw o ≠ FwHang.
Proof.
  unfold rd_sym. intros H. repeat match type of H with
  | fw_bind ?r _ = _ => destruct r eqn:?; cbn [fw_bind] in H; try done; try by eapply rd_no_hang
  end.
Qed.

Lemma strncmp_no_hang fw off name n : strncmp_eq fw off name n ≠ FwHang.
Proof.
  revert off name. induction n as [| n IH]; intros off [| c name]; try done. cbn [strncmp_eq].
  pose proof (rd_no_hang fw off 1). destruct (rd fw off 1); try done. cbn [fw_bind].
  destruct (negb _); [done |]. destruct (c =? 0); [done | apply IH].
Qed.

Lemma find_sym_enough fuel fw symtab strtab name i :
  0 < sh_entsize symtab < 2 ^ 32 → 0 ≤ sh_size symtab < 2 ^ 31 →
  0 ≤ i → i = 0 ∨ sh_entsize symtab ≤ i → (Z.to_nat (sh_size symtab - i) < fuel)%nat →
  find_sym fuel fw symtab strtab name i ≠ FwHang.
Proof.
  intros He Hs. revert i. induction fuel as [| fuel IH]; intros i Hi Hc Hf; [lia |]. cbn [find_sym].
  destruct (Z.ltb_spec i (sh_size symtab)); [| done].
  pose proof (rd_sym_no_hang fw (sh_offset symtab + i)).
  destruct (rd_sym _ _) as [sym | | |]; try done. cbn [fw_bind].
  assert (sym_matches fw strtab name sym ≠ FwHang) as Hm.
  { unfold sym_matches. destruct (_ && _); [apply strncmp_no_hang | done]. }
  destruct (sym_matches _ _ _ _) as [[] | | |]; try done; cbn [fw_bind].
  rewrite u32_small by lia. apply IH; lia.
Qed.

(** The symbol loop ends on every symbol table with a non-zero entry
    size, below 2 GiB; with entry size zero it never ends once the first
    symbol is not the one looked for. *)
Theorem find_sym_terminates fw symtab strtab name :
  0 ≤ sh_size symtab < 2 ^ 31 → 0 ≤ sh_entsize symtab < 2 ^ 32 →
  (sh_entsize symtab ≠ 0 → find_sym (sym_fuel symtab) fw symtab strtab name 0 ≠ FwHang) ∧
  (sh_entsize symtab = 0 → 0 < sh_size symtab → ∀ sym fuel,
   rd_sym fw (sh_offset symtab) = FwOk sym → sym_matches fw strtab name sym = FwOk false →
   find_sym fuel fw symtab strtab name 0 = FwHang).
Proof.
  intros Hs He. split.
  - intros Hne. apply find_sym_enough; unfold sym_fuel; lia.
  - intros E Hpos sym fuel Hr Hm. induction fuel as [| fuel IH]; [done |]. cbn [find_sym].
    rewrite (proj2 (Z.ltb_lt _ _) Hpos), Z.add_0_r, Hr. cbn [fw_bind]. rewrite Hm. cbn [fw_bind].
    by rewrite E.
Qed.

(** ** Examples *)

Module FirmwareExamples.
#[local] Existing Instance arch32.
Import RefLib.

Definition h (v : Z) : list Z := le_bytes 2 v.
Definition w (v : Z) : list Z := le_bytes 4 v.
Definition ehdr_bytes : list Z :=
  ELFMAG ++ replicate 12 0 ++ h 2 ++ h 94 ++ w 1 ++ w 0 ++ w 52 ++ w 84 ++ w 0 ++ h 52 ++
  h 32 ++ h 1 ++ h 40 ++ h 4 ++ h 0.
Definition phdr_bytes (off fsz msz : Z) : list Z :=
  w 1 ++ w off ++ w 0x1000 ++ w 0x1000 ++ w fsz ++ w msz ++ w 7 ++ w 4.
Definition shdr_bytes (ty ad off sz es : Z) : list Z :=
  w 0 ++ w ty ++ w 0 ++ w ad ++ w off ++ w sz ++ w 0 ++ w 0 ++ w 4 ++ w es.

(** One data section with the symbol, a symbol table and a string table. *)
Definition img : image :=
  ehdr_bytes ++ phdr_bytes 244 8 16 ++
  shdr_bytes 0 0 0 0 0 ++ shdr_bytes 1 0x1000 244 8 0 ++ shdr_bytes 2 0 252 32 16 ++ shdr_bytes 3 0 284 19 0 ++
  w XRP_DSP_COMM_BASE_MAGIC ++ w 0x09090909 ++
  replicate 16 0 ++ (w 1 ++ w 0x1000 ++ w 4 ++ [1; 0] ++ h 1) ++ 0 :: comm_base_name ++ [0].
Definition amap : xrp_address_map := [mk_entry 0 0 (2 ^ 32 - 1)].
Definition mem0 : mem := λ _, 0xaa.
Definition tr (a : Z) : Z := a.
Definition yes (_ : Z) : bool := true.
Definition no (_ : Z) : bool := false.

(** The whole image: the symbol holds the address of the communication
    area, the segment is in memory, the rest is zero. *)
Example image_loads :
  match xrp_load_firmware tr no yes yes img amap 0x2000 mem0 with
  | FwOk m => (load32 m 0x1000, load32 m 0x1004, load32 m 0x1008, load32 m 0x100c, m 0x1010) =
              (0x2000, 0x09090909, 0, 0, 0xaa)
  | _ => False
  end.
Proof. vm_compute. reflexivity. Qed.

Lemma img_bytes : bytes img.
Proof. apply (bool_decide_unpack (bytes img)). vm_compute. exact I. Qed.

Lemma fixup_symbol_ok_witness :
  xrp_firmware_find_symbol img comm_base_name = FwOk (244, 4) ∧
  ∃ fw', xrp_firmware_fixup_symbol img comm_base_name 0x2000 = FwOk fw' ∧ rd fw' 244 4 = FwOk (u32 0x2000).
Proof.
  assert (xrp_firmware_find_symbol img comm_base_name = FwOk (244, 4)) as E by (vm_compute; reflexivity).
  split; [exact E |].
  destruct (fixup_symbol_ok img comm_base_name 244 4 0x2000 img_bytes E) as (_ & _ & _ & Hf).
  destruct (Hf eq_refl) as (fw' & Hf1 & Hf2 & _). exists fw'. split; assumption.
Defined.

Definition symtab (es : Z) : Elf32_Shdr :=
  {| sh_type := 2; sh_addr := 0; sh_offset := 252; sh_size := 32; sh_entsize := es |}.
Definition strtab : Elf32_Shdr :=
  {| sh_type := 3; sh_addr := 0; sh_offset := 284; sh_size := 19; sh_entsize := 0 |}.

Lemma find_sym_terminates_witness :
  find_sym (sym_fuel (symtab 16)) img (symtab 16) strtab comm_base_name 0 ≠ FwHang ∧
  find_sym 1000 img (symtab 0) strtab comm_base_name 0 = FwHang.
Proof.
  split.
  - refine (proj1 (find_sym_terminates img (symtab 16) strtab comm_base_name _ _) _); simpl; lia.
  - refine (proj2 (find_sym_terminates img (symtab 0) strtab comm_base_name _ _) eq_refl _
      {| st_name := 0; st_value := 0; st_size := 0; st_info := 0; st_shndx := 0 |} 1000%nat _ _);
      [simpl; lia | simpl; lia | simpl; lia | vm_compute; reflexivity | vm_compute; reflexivity].
Defined.

Definition seg (fsz msz : Z) : Elf32_Phdr :=
  {| p_type := 1; p_offset := 0; p_paddr := 0x1000; p_filesz := fsz; p_memsz := msz; p_flags := 7 |}.

Lemma seg_ok fsz msz : 0 ≤ fsz ≤ msz → fsz ≤ 300 → msz + 3 < 2 ^ 32 → phdr_ok img (seg fsz msz).
Proof.
  intros. unfold phdr_ok. simpl. change (fw_size img) with 304.
  destruct (r4_spec fsz) as [? [k ?]]. split_and!; lia.
Qed.

Lemma load_segment_to_iomem_ok_witness :
  ∃ m', xrp_load_segment_to_iomem tr yes img (seg 8 16) mem0 = FwOk m' ∧
    segment_loaded img (seg 8 16) 0x1000 mem0 m'.
Proof.
  refine (load_segment_to_iomem_ok tr yes img (seg 8 16) mem0 _). apply seg_ok; lia.
Defined.

Lemma load_segment_to_sysmem_page_witness :
  ∃ m', xrp_load_segment_to_sysmem tr yes img (seg 8 16) mem0 = FwOk m' ∧
    segment_loaded img (seg 8 16) 0x1000 mem0 m'.
Proof.
  refine (load_segment_to_sysmem_page tr yes img (seg 8 16) mem0 _ _ _ eq_refl).
  - apply seg_ok; lia.
  - simpl. lia.
  - vm_compute. discriminate.
Defined.

(** A segment of two pages in system memory: the second page stays as it
    was and its contents end up one page later. *)
Definition big : image := replicate 4096 1 ++ replicate 4096 2.
Example second_page_misplaced :
  match xrp_load_segment_to_sysmem tr yes big (seg 8192 8192) mem0 with
  | FwOk m => (m 0x1000, m 0x1fff, m 0x2000, m 0x2fff, m 0x3000, m 0x3fff) =
              (1, 1, 0xaa, 0xaa, 2, 2)
  | _ => False
  end.
Proof. vm_compute. reflexivity. Qed.

(** The words that hold the end of the file contents are copied whole: the
    bytes behind the contents are the image's, not zero. *)
Example tail_not_zeroed :
  match xrp_load_segment_to_iomem tr yes img (seg 1 8) mem0 with
  | FwOk m => m 0x1001 = 0x45
  | _ => False
  end.
Proof. vm_compute. reflexivity. Qed.

(** Offset and size wrap in the bounds check of a program header; the copy
    then runs out of the image. *)
Example filesz_wraps :
  load_segment tr no yes yes img
    {| p_type := 1; p_offset := 100; p_paddr := 0x1000; p_filesz := 2 ^ 32 - 52; p_memsz := 2 ^ 32 - 52;
       p_flags := 7 |} mem0 = FwUB.
Proof. vm_compute. reflexivity. Qed.

(** An image shorter than the ELF header is read past its end. *)
Example short_image : xrp_load_firmware tr no yes yes [0x7f; 0x45; 0x4c; 0x46] amap 0 mem0 = FwUB.
Proof. reflexivity. Qed.
End FirmwareExamples.
