(* ===== verification/Fifo.v ===== *)
(** * The request queue (xrp-linux-native/xrp_linux_native.c)

    The singly linked list of requests behind [xrp_queue], with its head and
    tail pointers, refined to a list: requests leave in the order in which
    they were queued.  Pointers are keys of the store of [next] fields. *)

From stdpp Require Import base tactics list gmap fin_maps.
From S2P Require Import Prelude.

Section fifo.
Context {P : Type} `{Countable P}.

(** [queue->request_queue] and the [next] fields. *)
Record rq_list := mk_rq {
  rq_next : gmap P (option P);
  rq_head : option P;
  rq_tail : option P;
}.

(** [None]: a pointer that is not a request is dereferenced.  The flag tells
    whether the waiting thread is signalled. *)
Definition xrp_enqueue_request (q : rq_list) (rq : P) : option (rq_list * bool) :=
  let next := <[rq := None]> (rq_next q) in
  match rq_tail q with
  | Some t => _ ← next !! t; Some (mk_rq (<[t := Some rq]> next) (rq_head q) (Some rq), false)
  | None => Some (mk_rq next (Some rq) (Some rq), true)
  end.

Definition _xrp_dequeue_request (q : rq_list) : option (rq_list * option P) :=
  match rq_head q with
  | None => Some (q, None)
  | Some rq =>
      n ← rq_next q !! rq;
      Some (mk_rq (rq_next q) n (if decide (rq_tail q = Some rq) then None else rq_tail q), Some rq)
  end.

(** ** Representation of a list *)

(** The chain of [next] fields from [h] on. *)
Fixpoint chain (next : gmap P (option P)) (h : option P) (l : list P) : Prop :=
  match l with
  | [] => h = None
  | p :: l => h = Some p ∧ ∃ n, next !! p = Some n ∧ chain next n l
  end.

Definition represents (q : rq_list) (l : list P) : Prop :=
  NoDup l ∧ chain (rq_next q) (rq_head q) l ∧ rq_tail q = list.last l.

(** Linking a new last element. *)
Lemma chain_snoc next h l t x :
  NoDup (l ++ [t]) → x ∉ l ++ [t] → chain next h (l ++ [t]) →
  chain (<[t := Some x]> (<[x := None]> next)) h ((l ++ [t]) ++ [x]).
Proof.
  revert h. induction l as [| p l IH]; intros h Hnd Hx; cbn.
  - intros (-> & n & _ & _). split; [done |]. exists (Some x). rewrite lookup_insert_eq. split; [done |].
    split; [done |]. exists None. rewrite lookup_insert_ne, lookup_insert_eq; [done |]. set_solver.
  - intros (-> & n & En & Hc). split; [done |]. exists n.
    apply list.NoDup_cons in Hnd as [Hp Hnd]. split.
    + rewrite !lookup_insert_ne; [done | set_solver | set_solver].
    + apply IH; [done | set_solver | done].
Qed.

(** Enqueueing appends: the queue then holds the same requests followed
    by the new one, and the worker is woken exactly when it was empty. *)
Theorem enqueue_request_fifo q l x :
  represents q l → x ∉ l →
  ∃ q', xrp_enqueue_request q x = Some (q', bool_decide (l = [])) ∧ represents q' (l ++ [x]).
Proof.
  intros (Hnd & Hc & Ht) Hx. unfold xrp_enqueue_request. rewrite Ht.
  assert (NoDup (l ++ [x])) as Hnd'.
  { apply list.NoDup_app. split_and!; [done | set_solver | apply NoDup_singleton]. }
  destruct l as [| t l _] using rev_ind.
  - eexists. split; [done |]. split_and!; [done | | done]. cbn. split; [done |].
    exists None. by rewrite lookup_insert_eq.
  - rewrite last_snoc. rewrite lookup_insert_ne by set_solver.
    assert (is_Some (rq_next q !! t)) as [n ->].
    { clear -Hc. revert Hc. generalize (rq_head q). induction l as [| p l IH]; intros h; cbn.
      - intros (_ & n & E & _). eauto.
      - intros (_ & n & _ & Hc). by apply (IH n). }
    cbn. rewrite bool_decide_eq_false_2 by (by destruct l). eexists. split; [done |].
    split_and!; [done | by apply chain_snoc | cbn; by rewrite last_snoc].
Qed.

(** Dequeueing takes the oldest request and leaves the others in order;
    on an empty queue it returns nothing. *)
Theorem dequeue_request_fifo q l :
  represents q l →
  match l with
  | [] => _xrp_dequeue_request q = Some (q, None)
  | x :: l => ∃ q', _xrp_dequeue_request q = Some (q', Some x) ∧ represents q' l
  end.
Proof.
  intros (Hnd & Hc & Ht). unfold _xrp_dequeue_request. destruct l as [| x l]; cbn in Hc.
  - by rewrite Hc.
  - destruct Hc as (-> & n & En & Hc). rewrite En. cbn. eexists. split; [done |].
    apply list.NoDup_cons in Hnd as [Hx Hnd]. split_and!; [done | done |]. cbn. rewrite Ht.
    destruct l as [| y l]; [by rewrite decide_True |].
    rewrite decide_False; [done |]. intros E. apply Hx. apply last_Some in E as (l' & E).
    destruct l' as [| z l']; [done |]. injection E as <- E. rewrite E. set_solver.
Qed.
End fifo.

Module FifoExamples.
Definition q0 : @rq_list nat _ _ := mk_rq ∅ None None.
Lemma q0_empty : represents q0 [].
Proof. split_and!; [constructor | reflexivity | reflexivity]. Qed.

Lemma enqueue_request_fifo_witness :
  ∃ q, xrp_enqueue_request q0 1%nat = Some (q, true) ∧ represents q [1%nat].
Proof. apply (enqueue_request_fifo q0 [] 1%nat q0_empty). set_solver. Defined.

Lemma dequeue_request_fifo_witness :
  ∃ q, _xrp_dequeue_request (mk_rq {[1%nat := Some 2%nat; 2%nat := None]} (Some 1%nat) (Some 2%nat)) =
       Some (q, Some 1%nat) ∧ represents q [2%nat].
Proof.
  apply (dequeue_request_fifo _ [1%nat; 2%nat]). split_and!.
  - apply (bool_decide_unpack _). vm_compute. exact I.
  - cbn. split; [reflexivity |]. exists (Some 2%nat). split; [reflexivity |]. split; [reflexivity |].
    exists None. split; reflexivity.
  - reflexivity.
Defined.
End FifoExamples.
