(* ===== verification/RefHeap.v ===== *)
(** * Reference counted objects

    The Linux libraries keep devices, buffers, buffer groups, queues and
    events as reference counted objects on the C heap.  This file is the part
    both of them share: a store of objects with counts, the functions on
    counts, and the invariant that the count of every object is the number of
    references to it - from the client, from other objects, and from
    references lost on error paths.  It is proved for any type of objects
    ([Counted]); [Native] and [SimLib] provide theirs.

    Counts are unbounded integers: a wrap of an [unsigned long] count needs
    more references than fit in memory. *)

From stdpp Require Import base tactics list gmap fin_maps numbers.
From S2P Require Import Prelude DspNs.

(** Takes a chain of [option] binds in a hypothesis apart. *)
Ltac unbind H :=
  repeat match type of H with
  | (_ ≫= _) = Some _ => let E := fresh "E" in apply bind_Some in H as (? & E & H); cbn beta in H
  end.

(** ** Objects *)

Inductive kind := KDevice | KBuffer | KGroup | KQueue | KEvent.
#[export] Instance kind_eq_dec : EqDecision kind.
Proof. solve_decision. Defined.

(** A reference: what it points to, and where. *)
Abbreviation ref := (kind * nat)%type.

(** What the invariant needs to know of an object: its kind and the
    references it holds.  [waits] are the events of the requests queued in
    it, and an event belongs to the object that queues its request: it holds
    a reference to its [owner]. *)
Class Counted (obj : Type) := {
  kind_of : obj → kind;
  obj_refs : obj → list ref;
  waits : obj → list nat;
  owner : obj → option nat;
  waits_refs o e : e ∈ waits o → (KEvent, e) ∈ obj_refs o;
  owner_refs o p : owner o = Some p → ∃ k, (k, p) ∈ obj_refs o;
}.

Record cell (obj : Type) := mk_cell { c_count : Z; c_obj : obj }.
Arguments mk_cell {obj} _ _.
Arguments c_count {obj} _.
Arguments c_obj {obj} _.

(** References that the code drops without decrementing a count are
    collected in [lost]. *)
Record store (obj : Type) := mk_store { hp : gmap nat (cell obj); lost : list ref }.
Arguments mk_store {obj} _ _.
Arguments hp {obj} _.
Arguments lost {obj} _.

(** ** Functions on counts *)

Section operations.
Context {obj : Type}.
Implicit Types (s : store obj) (c : cell obj) (o : obj).

Definition set_hp s (h : gmap nat (cell obj)) : store obj := mk_store h (lost s).
Definition lose s (l : list ref) : store obj := mk_store (hp s) (l ++ lost s).
Definition add_count c (n : Z) : cell obj := mk_cell (c_count c + n) (c_obj c).
Definition set_obj s (p : nat) o : store obj :=
  set_hp s (alter (λ c, mk_cell (c_count c) o) p (hp s)).

Definition retain_refcounted s (p : nat) : option (store obj) :=
  c ← hp s !! p; Some (set_hp s (<[p := add_count c 1]> (hp s))).
Definition release_refcounted s (p : nat) : option (store obj) :=
  c ← hp s !! p;
  Some (set_hp s (if c_count c - 1 =? 0 then delete p (hp s) else <[p := add_count c (-1)]> (hp s))).
Definition last_refcount s (p : nat) : option bool :=
  c ← hp s !! p; Some (c_count c =? 1).

(** A function that uses the object after the test meets the same cell. *)
Lemma tested_eq {A} s (p : nat) (f : bool → cell obj → option A) :
  (l ← last_refcount s p; c ← hp s !! p; f l c) = (c ← hp s !! p; f (c_count c =? 1) c).
Proof. unfold last_refcount. by destruct (hp s !! p). Qed.

(** The new object at a free address. *)
Definition alloc_refcounted s o : store obj * nat :=
  let p := fresh (dom (hp s)) in (set_hp s (<[p := mk_cell 1 o]> (hp s)), p).

(** A reference whose release failed is lost when the caller ignores it. *)
Definition ignore (r : ref) (x : store obj * xrp_status) : store obj :=
  if decide (x.2 = XRP_STATUS_SUCCESS) then x.1 else lose x.1 [r].
End operations.

(** ** Counting references *)

Definition cnt (r : ref) (l : list ref) : nat := length (filter (λ x, x = r) l).

Lemma cnt_app r l k : cnt r (l ++ k) = (cnt r l + cnt r k)%nat.
Proof. unfold cnt. by rewrite list.filter_app, length_app. Qed.

Lemma cnt_cons r x l : cnt r (x :: l) = ((if decide (x = r) then 1 else 0) + cnt r l)%nat.
Proof. unfold cnt. rewrite list.filter_cons. by case_decide. Qed.

#[export] Instance cnt_perm r : Proper ((≡ₚ) ==> eq) (cnt r).
Proof. intros l k E. unfold cnt. by rewrite E. Qed.

Lemma cnt_elem r l : r ∈ l ↔ (0 < cnt r l)%nat.
Proof.
  induction l as [| x l IH]; [split; [set_solver | unfold cnt; simpl; lia] |].
  rewrite cnt_cons, elem_of_cons, IH. case_decide; split; intros Hx.
  - lia.
  - by left.
  - destruct Hx; [congruence | lia].
  - right. lia.
Qed.

Section heap.
Context {obj : Type} `{HC : !Counted obj}.
Implicit Types (s : store obj) (c : cell obj) (o : obj) (h : gmap nat (cell obj)) (D : list nat).

Definition heap_refs (h : gmap nat (cell obj)) : list ref := map_to_list h ≫= λ kc, obj_refs (c_obj kc.2).

Lemma heap_refs_delete h p c :
  h !! p = Some c → heap_refs h ≡ₚ obj_refs (c_obj c) ++ heap_refs (delete p h).
Proof.
  intros Hp. unfold heap_refs. rewrite <- (map_to_list_delete h p c Hp) at 1. done.
Qed.

Lemma heap_refs_insert h p c :
  heap_refs (<[p := c]> h) ≡ₚ obj_refs (c_obj c) ++ heap_refs (delete p h).
Proof.
  rewrite <- (delete_insert_eq h p c). apply heap_refs_delete. by rewrite lookup_insert_eq.
Qed.

(** ** The invariant *)

Record inv (h : gmap nat (cell obj)) (roots : list ref) : Prop := {
  i_count : ∀ p c, h !! p = Some c →
    c_count c = Z.of_nat (cnt (kind_of (c_obj c), p) (roots ++ heap_refs h)) ∧ 0 < c_count c;
  i_ref : ∀ k p, (k, p) ∈ roots ++ heap_refs h → ∃ c, h !! p = Some c ∧ kind_of (c_obj c) = k;
  i_link : ∀ q c e, h !! q = Some c → e ∈ waits (c_obj c) →
    ∃ c', h !! e = Some c' ∧ owner (c_obj c') = Some q;
}.

Lemma inv_roots h roots roots' : roots ≡ₚ roots' → inv h roots → inv h roots'.
Proof.
  intros E [Hc Hr He]. split; [| | done].
  - intros p c Hp. rewrite <- E. auto.
  - intros k p Hin. apply Hr. by rewrite E.
Qed.

(** Only the count of [p] and the number of roots to it change. *)
Lemma inv_recount h roots roots' p c n :
  inv h roots → h !! p = Some c →
  (∀ r, r ≠ (kind_of (c_obj c), p) → cnt r roots' = cnt r roots) →
  c_count c + n = Z.of_nat (cnt (kind_of (c_obj c), p) (roots' ++ heap_refs h)) → 0 < c_count c + n →
  inv (<[p := add_count c n]> h) roots'.
Proof.
  intros [Hc Hr He] Hp Hroots Hn Hpos.
  assert (heap_refs (<[p := add_count c n]> h) ≡ₚ heap_refs h) as Eh
    by (rewrite heap_refs_insert, (heap_refs_delete h p c Hp); done).
  assert (∀ q c', <[p := add_count c n]> h !! q = Some c' → ∃ c0, h !! q = Some c0 ∧ c_obj c0 = c_obj c') as Hsame.
  { intros q c' Hq. destruct (decide (q = p)) as [-> |]; [rewrite lookup_insert_eq in Hq; simplify_eq; eauto |].
    rewrite lookup_insert_ne in Hq by done. eauto. }
  assert (∀ q c0, h !! q = Some c0 → ∃ c', <[p := add_count c n]> h !! q = Some c' ∧ c_obj c' = c_obj c0) as Hsame'.
  { intros q c0 Hq. destruct (decide (q = p)) as [-> |].
    - rewrite lookup_insert_eq. simplify_eq. eauto.
    - rewrite lookup_insert_ne by done. eauto. }
  split.
  - intros q c' Hq. rewrite Eh. destruct (decide (q = p)) as [-> |].
    + rewrite lookup_insert_eq in Hq. simplify_eq. auto.
    + rewrite lookup_insert_ne in Hq by done. rewrite cnt_app, Hroots, <- cnt_app by congruence. auto.
  - intros k q. rewrite Eh. intros Hin. destruct (decide ((k, q) = (kind_of (c_obj c), p))) as [[= -> ->] | Hne].
    + exists (add_count c n). by rewrite lookup_insert_eq.
    + destruct (Hr k q) as (c0 & Hq & <-).
      { apply cnt_elem in Hin. apply cnt_elem. rewrite cnt_app in *. by rewrite <- Hroots. }
      destruct (Hsame' q c0 Hq) as (c' & ? & E). exists c'. by rewrite E.
  - intros q c' e Hq Hin. destruct (Hsame q c' Hq) as (c0 & Hq0 & E). rewrite <- E in Hin.
    destruct (He q c0 e Hq0 Hin) as (ce & Hce & Hoe).
    destruct (Hsame' e ce Hce) as (c1 & ? & E1). exists c1. by rewrite E1.
Qed.

(** One more reference. *)
Lemma inv_retain h roots p c :
  inv h roots → h !! p = Some c →
  inv (<[p := add_count c 1]> h) ((kind_of (c_obj c), p) :: roots).
Proof.
  intros Hi Hp. destruct (i_count _ _ Hi p c Hp). apply (inv_recount h roots); auto; try lia.
  - intros r Hr. rewrite cnt_cons, decide_False by done. done.
  - cbn [app]. rewrite cnt_cons, decide_True by done. lia.
Qed.

(** One reference less, not the last. *)
Lemma inv_release h roots k p c :
  inv h ((k, p) :: roots) → h !! p = Some c → c_count c ≠ 1 →
  inv (<[p := add_count c (-1)]> h) roots.
Proof.
  intros Hi Hp Hn. destruct (i_ref _ _ Hi k p) as (c' & Hp' & <-); [by left |]. simplify_eq.
  destruct (i_count _ _ Hi p c Hp) as [E Hpos]. apply (inv_recount h ((kind_of (c_obj c), p) :: roots)); auto; try lia.
  - intros r Hr. rewrite cnt_cons, decide_False by done. done.
  - cbn [app] in E. rewrite cnt_cons, decide_True in E by done. lia.
Qed.

(** The last reference: the object goes, and its references are in hand. *)
Lemma inv_destroy h roots k p c :
  inv h ((k, p) :: roots) → h !! p = Some c → c_count c = 1 →
  inv (delete p h) (obj_refs (c_obj c) ++ roots).
Proof.
  intros Hi Hp H1. destruct (i_ref _ _ Hi k p) as (c' & Hp' & <-); [by left |]. simplify_eq.
  assert ((kind_of (c_obj c), p) :: (obj_refs (c_obj c) ++ roots) ++ heap_refs (delete p h) ≡ₚ
          ((kind_of (c_obj c), p) :: roots) ++ heap_refs h) as ET.
  { rewrite (heap_refs_delete h p c Hp). cbn. rewrite (Permutation_app_comm (obj_refs (c_obj c))).
    by rewrite <- app_assoc. }
  destruct Hi as [Hc Hr He]. set (T := (obj_refs (c_obj c) ++ roots) ++ heap_refs (delete p h)) in *.
  assert (∀ r, cnt r (((kind_of (c_obj c), p) :: roots) ++ heap_refs h) =
               ((if decide ((kind_of (c_obj c), p) = r) then 1 else 0) + cnt r T)%nat) as EC
    by (intros r; rewrite <- ET; apply cnt_cons).
  assert (∀ k', (k', p) ∉ T) as Hno.
  { intros k' Hin. destruct (Hr k' p) as (c' & Hp2 & <-); [rewrite <- ET; by right |]. simplify_eq.
    apply cnt_elem in Hin. destruct (Hc p c Hp) as [E _]. rewrite EC, decide_True in E by done. lia. }
  split.
  - intros q c' [Hne Hq]%lookup_delete_Some. destruct (Hc q c' Hq) as [E Hpos].
    rewrite EC, decide_False in E by congruence. done.
  - intros k' q Hin. destruct (decide (q = p)) as [-> |]; [by destruct (Hno k') |].
    rewrite lookup_delete_ne by done. apply Hr. rewrite <- ET. by right.
  - intros q c' e [Hne Hq]%lookup_delete_Some Hin.
    destruct (He q c' e Hq Hin) as (ce & Hce & Hoe). exists ce.
    rewrite lookup_delete_ne; [done |]. intros ->. apply (Hno KEvent). unfold T. apply elem_of_app. right.
    unfold heap_refs. apply list_elem_of_bind. exists (q, c'). split; [by apply waits_refs |].
    apply elem_of_map_to_list. by rewrite lookup_delete_ne.
Qed.

(** References move between the roots and an object. *)
Lemma inv_alter h ins outs rest p c o :
  inv h (ins ++ rest) → h !! p = Some c → kind_of o = kind_of (c_obj c) →
  obj_refs o ++ outs ≡ₚ obj_refs (c_obj c) ++ ins →
  (∀ e, e ∈ waits o → ∃ c', h !! e = Some c' ∧ owner (c_obj c') = Some p) →
  owner o = owner (c_obj c) →
  inv (<[p := mk_cell (c_count c) o]> h) (outs ++ rest).
Proof.
  intros [Hc Hr He] Hp Hk Hmove Hq He'.
  assert ((outs ++ rest) ++ heap_refs (<[p := mk_cell (c_count c) o]> h) ≡ₚ (ins ++ rest) ++ heap_refs h) as ET.
  { rewrite heap_refs_insert, (heap_refs_delete h p c Hp). cbn [c_obj].
    rewrite !app_assoc, !(Permutation_app_comm (_ ++ rest)), !app_assoc, Hmove. done. }
  split.
  - intros q c' Hq'. rewrite ET. destruct (decide (q = p)) as [-> |].
    + rewrite lookup_insert_eq in Hq'. injection Hq' as <-. cbn. rewrite Hk. by apply Hc.
    + rewrite lookup_insert_ne in Hq' by done. by apply Hc.
  - intros k q. rewrite ET. intros Hin. destruct (Hr k q Hin) as (c' & Hc' & <-).
    destruct (decide (q = p)) as [-> |]; [| exists c'; by rewrite lookup_insert_ne].
    eexists. rewrite lookup_insert_eq. simplify_eq. split; [done |]. done.
  - intros q c' e Hq' Hin.
    assert (∃ c1, h !! e = Some c1 ∧ owner (c_obj c1) = Some q) as (c1 & Hc1 & Ho1).
    { destruct (decide (q = p)) as [-> |].
      - rewrite lookup_insert_eq in Hq'. injection Hq' as <-. by apply Hq.
      - rewrite lookup_insert_ne in Hq' by done. by eapply He. }
    destruct (decide (e = p)) as [-> |]; [| exists c1; by rewrite lookup_insert_ne].
    rewrite lookup_insert_eq. simplify_eq. eexists. split; [done |]. cbn. congruence.
Qed.

(** A new object takes its references from the roots. *)
Lemma inv_alloc h rest p o :
  inv h (obj_refs o ++ rest) → h !! p = None → waits o = [] →
  inv (<[p := mk_cell 1 o]> h) ((kind_of o, p) :: rest).
Proof.
  intros [Hc Hr He] Hp Hq.
  assert (((kind_of o, p) :: rest) ++ heap_refs (<[p := mk_cell 1 o]> h) ≡ₚ
          (kind_of o, p) :: (obj_refs o ++ rest) ++ heap_refs h) as ET.
  { rewrite heap_refs_insert, delete_id by done. cbn. rewrite (Permutation_app_comm (obj_refs o) rest).
    by rewrite <- app_assoc. }
  assert (∀ k, (k, p) ∉ (obj_refs o ++ rest) ++ heap_refs h) as Hno.
  { intros k Hin. destruct (Hr k p Hin) as (c & Hc' & _). congruence. }
  split.
  - intros q c. rewrite ET, cnt_cons. destruct (decide (q = p)) as [-> |].
    + rewrite lookup_insert_eq. intros [= <-]. cbn. rewrite decide_True by done.
      destruct (cnt (kind_of o, p) _) eqn:E; [lia |]. exfalso. apply (Hno (kind_of o)), cnt_elem. lia.
    + rewrite lookup_insert_ne by done. intros Hq'. rewrite decide_False by congruence. by apply Hc.
  - intros k q. rewrite ET. intros [[= -> ->] | Hin]%elem_of_cons.
    + eexists. rewrite lookup_insert_eq. done.
    + destruct (Hr k q Hin) as (c & Hq' & <-). exists c. rewrite lookup_insert_ne; [done |]. congruence.
  - intros q c e Hq' Hin. destruct (decide (q = p)) as [-> |].
    + rewrite lookup_insert_eq in Hq'. injection Hq' as <-. cbn in Hin. rewrite Hq in Hin.
      by apply not_elem_of_nil in Hin.
    + rewrite lookup_insert_ne in Hq' by done. destruct (He q c e Hq' Hin) as (c' & ? & ?).
      exists c'. rewrite lookup_insert_ne; [done |]. congruence.
Qed.

(** ** Objects being released

    While an object is being released its own references are already in
    hand; [minus] leaves such objects out of the store. *)

Definition minus (h : gmap nat (cell obj)) (D : list nat) : gmap nat (cell obj) := foldr delete h D.

Lemma minus_in h D p : p ∈ D → minus h D !! p = None.
Proof.
  induction D as [| q D IH]; cbn; [set_solver |]. intros [-> | Hp]%elem_of_cons; [by rewrite lookup_delete_eq |].
  apply lookup_delete_None. auto.
Qed.

Lemma minus_out h D p : p ∉ D → minus h D !! p = h !! p.
Proof.
  induction D as [| q D IH]; cbn; [done |]. intros Hp. rewrite lookup_delete_ne by set_solver. apply IH. set_solver.
Qed.

Lemma minus_some h D p c : minus h D !! p = Some c → p ∉ D ∧ h !! p = Some c.
Proof.
  intros E. destruct (decide (p ∈ D)) as [Hp | Hp]; [by rewrite minus_in in E |].
  split; [done |]. by rewrite minus_out in E.
Qed.

Lemma minus_insert h D p c : p ∉ D → minus (<[p := c]> h) D = <[p := c]> (minus h D).
Proof.
  intros Hp. apply map_eq. intros q. destruct (decide (q ∈ D)) as [Hq | Hq].
  - rewrite minus_in, lookup_insert_ne, minus_in by set_solver. done.
  - rewrite minus_out by done. destruct (decide (q = p)) as [-> |].
    + by rewrite !lookup_insert_eq.
    + rewrite !lookup_insert_ne by done. by rewrite minus_out.
Qed.

Lemma minus_delete h D p : minus (delete p h) D = delete p (minus h D).
Proof.
  apply map_eq. intros q. destruct (decide (q = p)) as [-> |].
  - rewrite lookup_delete_eq. destruct (decide (p ∈ D)); [by apply minus_in |].
    rewrite minus_out by done. apply lookup_delete_eq.
  - rewrite lookup_delete_ne by done. destruct (decide (q ∈ D)) as [Hq | Hq].
    + by rewrite !minus_in.
    + rewrite !minus_out by done. by apply lookup_delete_ne.
Qed.

Definition holds (D : list nat) (s : store obj) (roots : list ref) : Prop :=
  inv (minus (hp s) D) (roots ++ lost s).
Definition keeps (D : list nat) (s s' : store obj) : Prop := ∀ q, q ∈ D → hp s' !! q = hp s !! q.

(** What every release function does with a reference in hand: it succeeds
    and the reference is gone, or it fails and the reference is still there. *)
Definition release_ok (R : store obj → nat → option (store obj * xrp_status)) (k : kind) : Prop :=
  ∀ D s roots p, holds D s ((k, p) :: roots) →
  ∃ s' st, R s p = Some (s', st) ∧ keeps D s s' ∧
    holds D s' (if decide (st = XRP_STATUS_SUCCESS) then roots else (k, p) :: roots).

Lemma holds_perm D s roots roots' : roots ≡ₚ roots' → holds D s roots → holds D s roots'.
Proof. intros E. unfold holds. apply inv_roots. by rewrite E. Qed.

Lemma keeps_refl D s : keeps D s s.
Proof. by intros q. Qed.
Lemma keeps_trans D s1 s2 s3 : keeps D s1 s2 → keeps D s2 s3 → keeps D s1 s3.
Proof. intros E1 E2 q Hq. by rewrite E2, E1. Qed.
Lemma keeps_tail p D s s' : keeps (p :: D) s s' → keeps D s s'.
Proof. intros E q Hq. apply E. by right. Qed.
#[local] Hint Resolve keeps_refl keeps_tail : core.

Lemma holds_lookup D s roots k p :
  holds D s roots → (k, p) ∈ roots →
  ∃ c, hp s !! p = Some c ∧ kind_of (c_obj c) = k ∧ p ∉ D ∧ 0 < c_count c.
Proof.
  intros Hh Hin. destruct (i_ref _ _ Hh k p) as (c & Hc & Hk); [set_solver |].
  destruct (i_count _ _ Hh p c Hc). destruct (minus_some _ _ _ _ Hc). eauto.
Qed.

Lemma holds_retain D s roots k p :
  holds D s roots → (k, p) ∈ roots →
  ∃ s', retain_refcounted s p = Some s' ∧ keeps D s s' ∧ holds D s' ((k, p) :: roots) ∧
    (∀ q, q ≠ p → hp s' !! q = hp s !! q) ∧
    (∀ c, hp s !! p = Some c → hp s' !! p = Some (add_count c 1)).
Proof.
  intros Hh Hin. destruct (holds_lookup _ _ _ _ _ Hh Hin) as (c & Hp & <- & HD & _).
  unfold retain_refcounted. rewrite Hp. cbn. eexists. split; [done |]. split_and!.
  - intros q Hq. cbn. rewrite lookup_insert_ne; [done |]. by intros ->.
  - unfold holds. cbn. rewrite minus_insert by done. apply inv_retain; [done |]. by rewrite minus_out.
  - intros q Hq. cbn. by rewrite lookup_insert_ne.
  - intros c' E. simplify_eq. cbn. by rewrite lookup_insert_eq.
Qed.

Lemma release_shared D s roots k p c :
  holds D s ((k, p) :: roots) → hp s !! p = Some c → c_count c ≠ 1 →
  ∃ s', release_refcounted s p = Some s' ∧ keeps D s s' ∧ holds D s' roots.
Proof.
  intros Hh Hp H1. destruct (holds_lookup D s _ k p Hh) as (c' & Hp' & Hk & HD & _); [by left |]. simplify_eq.
  unfold release_refcounted. rewrite Hp. cbn. rewrite (proj2 (Z.eqb_neq _ _)) by lia.
  eexists. split; [done |]. split.
  - intros q Hq. cbn. rewrite lookup_insert_ne; [done |]. by intros ->.
  - unfold holds. cbn. rewrite minus_insert by done. eapply inv_release; [exact Hh | by rewrite minus_out | done].
Qed.

Lemma release_begin D s roots k p c :
  holds D s ((k, p) :: roots) → hp s !! p = Some c → c_count c = 1 →
  holds (p :: D) s (obj_refs (c_obj c) ++ roots) ∧ p ∉ D.
Proof.
  intros Hh Hp H1. destruct (holds_lookup D s _ k p Hh) as (c' & Hp' & Hk & HD & _); [by left |]. simplify_eq.
  split; [| done]. unfold holds. cbn. rewrite <- app_assoc.
  eapply inv_destroy; [exact Hh | by rewrite minus_out | done].
Qed.

Lemma release_end D s roots p c :
  holds (p :: D) s roots → hp s !! p = Some c → c_count c = 1 → p ∉ D →
  ∃ s', release_refcounted s p = Some s' ∧ keeps D s s' ∧ holds D s' roots ∧ lost s' = lost s.
Proof.
  intros Hh Hp H1 HD. unfold release_refcounted. rewrite Hp. cbn [mbind option_bind].
  replace (c_count c - 1 =? 0) with true by (by rewrite H1).
  exists (set_hp s (delete p (hp s))). split; [done |]. split_and!; [| | done].
  - intros q Hq. cbn [hp set_hp]. rewrite lookup_delete_ne; [done |]. by intros ->.
  - unfold holds. cbn [hp set_hp lost]. rewrite minus_delete. exact Hh.
Qed.

(** A failed release that the caller ignores. *)
Lemma ignore_ok D s roots k p st :
  holds D s (if decide (st = XRP_STATUS_SUCCESS) then roots else (k, p) :: roots) →
  holds D (ignore (k, p) (s, st)) roots ∧ hp (ignore (k, p) (s, st)) = hp s.
Proof.
  unfold ignore. cbn. case_decide; [done |]. intros Hh. split; [| done].
  unfold holds in *. cbn in *. eapply inv_roots; [| exact Hh]. by rewrite Permutation_middle.
Qed.

(** The references an object of the store holds. *)
Lemma holds_inner D s roots p c k q :
  holds D s roots → hp s !! p = Some c → p ∉ D → (k, q) ∈ obj_refs (c_obj c) →
  ∃ c', hp s !! q = Some c' ∧ kind_of (c_obj c') = k.
Proof.
  intros Hh Hp HD Hin. destruct (i_ref _ _ Hh k q) as (c' & Hc & Hk).
  - apply elem_of_app. right. apply list_elem_of_bind. exists (p, c). split; [done |].
    apply elem_of_map_to_list. by rewrite minus_out.
  - destruct (minus_some _ _ _ _ Hc). eauto.
Qed.

(** No request with an event is queued in an object whose last reference is
    in hand: the event would hold another one. *)
Lemma last_no_waits D s roots k q c :
  holds D s ((k, q) :: roots) → hp s !! q = Some c → c_count c = 1 → waits (c_obj c) = [].
Proof.
  intros Hh Hp H1. destruct (holds_lookup D s _ k q Hh) as (c' & Hp' & Hk & HD & _); [by left |].
  simplify_eq. assert (minus (hp s) D !! q = Some c) as Hm by (by rewrite minus_out).
  apply elem_of_nil_inv. intros e He. destruct (i_link _ _ Hh q c e Hm He) as (ce & Hce & Ho).
  destruct (owner_refs _ _ Ho) as [k' Hk'].
  destruct (i_count _ _ Hh q c Hm) as [E _]. cbn [app] in E. rewrite cnt_cons, decide_True in E by done.
  assert ((k', q) ∈ (roots ++ lost s) ++ heap_refs (minus (hp s) D)) as Hin.
  { apply elem_of_app. right. apply list_elem_of_bind. exists (e, ce). split; [done |]. by apply elem_of_map_to_list. }
  destruct (i_ref _ _ Hh k' q) as (c'' & Hc'' & <-); [by right |]. simplify_eq. apply cnt_elem in Hin. lia.
Qed.

(** The release gives up: the object is as it was, or has fewer references. *)
Lemma release_undo D s roots p o k :
  holds (p :: D) s (obj_refs o ++ roots) → hp s !! p = Some (mk_cell 1 o) → p ∉ D →
  waits o = [] → kind_of o = k → holds D s ((k, p) :: roots).
Proof.
  unfold holds. cbn [minus foldr]. intros Hh Hp HD Hq <-. rewrite <- app_assoc in Hh.
  apply (inv_alloc _ _ p o) in Hh; [| apply lookup_delete_eq | done].
  rewrite insert_delete_id in Hh; [done |]. change (minus (hp s) D !! p = Some (mk_cell 1 o)). by rewrite minus_out.
Qed.

Lemma minus_alter h D p f : p ∈ D → minus (alter f p h) D = minus h D.
Proof.
  intros Hp. apply map_eq. intros q. destruct (decide (q ∈ D)) as [Hq | Hq]; [by rewrite !minus_in |].
  rewrite !minus_out by done. apply lookup_alter_ne. by intros ->.
Qed.

Lemma cell_eta c n o : c_count c = n → c_obj c = o → c = mk_cell n o.
Proof. destruct c. cbn. by intros -> ->. Qed.

(** References move between the roots and an object that is not being
    released. *)
Lemma holds_set D s ins outs rest p c o :
  holds D s (ins ++ rest) → hp s !! p = Some c → p ∉ D → kind_of o = kind_of (c_obj c) →
  obj_refs o ++ outs ≡ₚ obj_refs (c_obj c) ++ ins →
  (∀ e, e ∈ waits o → ∃ c', minus (hp s) D !! e = Some c' ∧ owner (c_obj c') = Some p) →
  owner o = owner (c_obj c) →
  holds D (set_obj s p o) (outs ++ rest).
Proof.
  intros Hh Hp HD Hk Hm Hq He. unfold holds in *. cbn [hp set_obj set_hp lost].
  rewrite <- app_assoc in *. replace (alter _ p (hp s)) with (<[p := mk_cell (c_count c) o]> (hp s)).
  - rewrite minus_insert by done. eapply inv_alter; eauto. by rewrite minus_out.
  - apply map_eq. intros q. destruct (decide (q = p)) as [-> |].
    + by rewrite lookup_insert_eq, lookup_alter_eq, Hp.
    + by rewrite lookup_insert_ne, lookup_alter_ne.
Qed.

(** An update that keeps an object's references. *)
Lemma holds_update D s roots p c o :
  holds D s roots → hp s !! p = Some c → p ∉ D → kind_of o = kind_of (c_obj c) →
  obj_refs o = obj_refs (c_obj c) → waits o = waits (c_obj c) → owner o = owner (c_obj c) →
  holds D (set_obj s p o) roots.
Proof.
  intros Hh Hp HD Hk Hm Hq He. apply (holds_set D s [] [] roots p c o); auto.
  - by rewrite Hm.
  - intros e. rewrite Hq. apply (i_link _ _ Hh p c). by rewrite minus_out.
Qed.

Lemma holds_alloc s roots o k s' p :
  holds [] s (obj_refs o ++ roots) → waits o = [] → kind_of o = k →
  alloc_refcounted s o = (s', p) → holds [] s' ((k, p) :: roots).
Proof.
  intros Hh Hq <- [= <- <-]. unfold holds in *. cbn [hp set_hp lost minus foldr] in *.
  rewrite <- app_assoc in Hh. apply (inv_alloc _ _ (fresh (dom (hp s))) o) in Hh; [done | | done].
  apply not_elem_of_dom, is_fresh.
Qed.

Lemma live s H k p : holds [] s H → (k, p) ∈ H → ∃ c, hp s !! p = Some c ∧ kind_of (c_obj c) = k.
Proof. intros Hh Hin. destruct (holds_lookup [] s H k p Hh Hin) as (c & ? & ? & _). eauto. Qed.

(** The references of an array of buffers in which one was replaced. *)
Lemma fmap_insert_perm (l : list (nat * Z)) i x y :
  l !! i = Some x →
  ((λ r : nat * Z, (KBuffer, r.1)) <$> <[i := y]> l) ++ [(KBuffer, x.1)] ≡ₚ
  ((λ r : nat * Z, (KBuffer, r.1)) <$> l) ++ [(KBuffer, y.1)].
Proof.
  intros Hi. rewrite insert_take_drop by (by eapply lookup_lt_Some).
  rewrite <- (take_drop_middle l i x Hi) at 3. rewrite !fmap_app, !fmap_cons, <- !app_assoc.
  apply Permutation_app_head. cbn. rewrite !(Permutation_app_comm _ [_]). cbn. apply perm_swap.
Qed.

(** ** What a client holds *)

Fixpoint drop_handle (r : ref) (H : list ref) : list ref :=
  match H with
  | [] => []
  | x :: H => if decide (x = r) then H else x :: drop_handle r H
  end.

Definition gain (k : kind) (H : list ref) (x : store obj * option nat) : store obj * list ref :=
  (x.1, match x.2 with Some p => (k, p) :: H | None => H end).
Definition drop_on_success (r : ref) (H : list ref) (x : store obj * xrp_status) : store obj * list ref :=
  (x.1, if decide (x.2 = XRP_STATUS_SUCCESS) then drop_handle r H else H).

Lemma drop_handle_perm r H : r ∈ H → r :: drop_handle r H ≡ₚ H.
Proof.
  induction H as [| x H IH]; [set_solver |]. cbn. intros Hin. case_decide as E; [by rewrite E |].
  rewrite Permutation_swap. rewrite IH; [done |]. by apply elem_of_cons in Hin as [-> |].
Qed.

Lemma release_ok_call R k s H p :
  release_ok R k → holds [] s H → (k, p) ∈ H →
  ∃ x, R s p = Some x ∧ holds [] (drop_on_success (k, p) H x).1 (drop_on_success (k, p) H x).2.
Proof.
  intros HR Hh Hin. destruct (HR [] s (drop_handle (k, p) H) p) as (s' & st & -> & _ & Hh').
  { eapply holds_perm; [| exact Hh]. by rewrite drop_handle_perm. }
  eexists. split; [done |]. unfold drop_on_success. cbn. case_decide; [done |].
  eapply holds_perm; [| exact Hh']. by apply drop_handle_perm.
Qed.

(** Nothing allocated, nothing held. *)
Lemma empty_ok : holds [] (mk_store ∅ []) [].
Proof.
  split.
  - intros p c. cbn. by rewrite lookup_empty.
  - intros k p. cbn. unfold heap_refs. rewrite map_to_list_empty. cbn. set_solver.
  - intros q c e. cbn. by rewrite lookup_empty.
Qed.

(** ** Releasing changes counts only *)

Definition frames (s s' : store obj) : Prop :=
  ∀ p c', hp s' !! p = Some c' → ∃ c, hp s !! p = Some c ∧ c_obj c = c_obj c'.

Lemma frames_refl s : frames s s.
Proof. intros p c. eauto. Qed.
Lemma frames_trans s1 s2 s3 : frames s1 s2 → frames s2 s3 → frames s1 s3.
Proof.
  intros H1 H2 p c3 Hp. destruct (H2 p c3 Hp) as (c2 & Hc2 & <-). destruct (H1 p c2 Hc2) as (c1 & ? & ?). eauto.
Qed.
#[local] Hint Resolve frames_refl : core.

Lemma frames_ignore s r x : frames s x.1 → frames s (ignore r x).
Proof. unfold ignore. by case_decide. Qed.

Lemma release_frames s p s' : release_refcounted s p = Some s' → frames s s'.
Proof.
  unfold release_refcounted. destruct (hp s !! p) as [c |] eqn:Hp; [| done]. cbn [mbind option_bind].
  intros [= <-] q c'. cbn [hp set_hp]. destruct (_ =? _).
  - intros [_ Hq]%lookup_delete_Some. eauto.
  - intros [[<- <-] | [_ Hq]]%lookup_insert_Some; eauto.
Qed.

Lemma retain_keeps_obj s p s' q c :
  retain_refcounted s p = Some s' → hp s !! q = Some c → ∃ c', hp s' !! q = Some c' ∧ c_obj c' = c_obj c.
Proof.
  unfold retain_refcounted. intros H Hq. unbind H. injection H as <-. cbn. destruct (decide (q = p)) as [-> |].
  - rewrite lookup_insert_eq. simplify_eq. eauto.
  - rewrite lookup_insert_ne by done. eauto.
Qed.

End heap.
