(* ===== verification/Native.v ===== *)
(** * The Linux library (xrp-linux-native/xrp_linux_native.c)

    Devices, buffers, buffer groups, queues and events are reference counted
    objects on the C heap.  The model is a store of objects; a call that
    touches an object that is not there (a use after free) has no result.
    System calls ([open], [close], [ioctl], [malloc]) are parameters of the
    calls that make them.  The store and the functions on counts are those of
    [RefHeap].

    A release function is its test for the last reference followed by the
    rest.  In the runs of [NativeClient] calls and rounds of a queue's worker
    thread do not overlap, so that nothing comes between the two. *)

From stdpp Require Import base tactics list gmap fin_maps numbers.
From S2P Require Import Prelude DspNs RefHeap.

(** ** Objects *)

(** [struct xrp_request]; [in_data] is the private copy. *)
Record request := mk_request {
  r_in_data : list Z;
  r_out_data : Z;
  r_out_data_size : Z;
  r_buffer_group : option nat;
  r_event : option nat;
}.

(** The objects without their count.  A buffer of type
    [XRP_BUFFER_TYPE_DEVICE] is one with a device. *)
Inductive obj :=
| Device (fd : Z)
| Buffer (device : option nat) (ptr size map_count map_flags : Z)
| Group (capacity : nat) (buffer : list (nat * Z))
| Queue (device : nat) (nsid : option (list Z)) (rqs : list request)
| Event (queue : nat) (status : xrp_status).

(** The references an object holds, and the events a queue's requests have. *)
Definition request_refs (r : request) : list ref :=
  match r_buffer_group r with Some g => [(KGroup, g)] | None => [] end ++
  match r_event r with Some e => [(KEvent, e)] | None => [] end.
Definition native_refs (o : obj) : list ref :=
  match o with
  | Device _ => []
  | Buffer d _ _ _ _ => match d with Some d => [(KDevice, d)] | None => [] end
  | Group _ l => (λ r : nat * Z, (KBuffer, r.1)) <$> l
  | Queue d _ rqs => (KDevice, d) :: (rqs ≫= request_refs)
  | Event q _ => [(KQueue, q)]
  end.
Definition native_waits (o : obj) : list nat :=
  match o with Queue _ _ rqs => omap r_event rqs | _ => [] end.

#[export, refine] Instance native_counted : Counted obj := {|
  kind_of o := match o with
               | Device _ => KDevice | Buffer _ _ _ _ _ => KBuffer | Group _ _ => KGroup
               | Queue _ _ _ => KQueue | Event _ _ => KEvent
               end;
  obj_refs := native_refs;
  waits := native_waits;
  owner o := match o with Event q _ => Some q | _ => None end;
|}.
Proof.
  - intros [| | | d ns rqs |] e He; cbn in He; try by apply not_elem_of_nil in He.
    apply list_elem_of_omap in He as (r & Hr & E). apply elem_of_cons. right. apply list_elem_of_bind.
    exists r. split; [| done]. unfold request_refs. rewrite E. set_solver.
  - intros [] p [=]; subst. eexists. by left.
Defined.

Arguments kind_of : simpl nomatch.

Abbreviation store := (RefHeap.store obj).

(** Outcomes of the system calls made while objects are used and released:
    [close], [XRP_IOCTL_FREE] and [XRP_IOCTL_QUEUE], the latter with the
    descriptor, the namespace, the request and its buffers. *)
Record env := mk_env {
  close_ok : bool;
  free_ok : bool;
  queue_ok : Z → option (list Z) → request → list (Z * Z * Z) → bool;
}.

(** ** Releasing

    A release function asks whether its caller has the last reference
    ([last_refcount]) and then, without a lock, does the rest: what the last
    reference brings with it, and the decrement ([..._tested], given the
    answer).  Other threads can run in between; [NativeTheorems] shows what
    happens when they release the same object there. *)

Definition release_device_tested (e : env) (last : bool) (s : store) (d : nat) : option (store * xrp_status) :=
  if last && negb (close_ok e) then Some (s, XRP_STATUS_FAILURE)
  else s ← release_refcounted s d; Some (s, XRP_STATUS_SUCCESS).
Definition xrp_release_device (e : env) (s : store) (d : nat) : option (store * xrp_status) :=
  l ← last_refcount s d; release_device_tested e l s d.

Definition release_buffer_tested (e : env) (last : bool) (s : store) (b : nat) : option (store * xrp_status) :=
  c ← hp s !! b;
  match c_obj c with
  | Buffer device _ _ _ _ =>
      match last, device with
      | true, Some d =>
          _ ← hp s !! d;
          if free_ok e then
            x ← xrp_release_device e s d;
            s ← release_refcounted (ignore (KDevice, d) x) b; Some (s, XRP_STATUS_SUCCESS)
          else Some (s, XRP_STATUS_FAILURE)
      | _, _ => s ← release_refcounted s b; Some (s, XRP_STATUS_SUCCESS)
      end
  | _ => None
  end.
Definition xrp_release_buffer (e : env) (s : store) (b : nat) : option (store * xrp_status) :=
  l ← last_refcount s b; release_buffer_tested e l s b.

Fixpoint release_records (e : env) (s : store) (l : list (nat * Z)) : option store :=
  match l with
  | [] => Some s
  | (b, _) :: l => x ← xrp_release_buffer e s b; release_records e (ignore (KBuffer, b) x) l
  end.

Definition release_group_tested (e : env) (last : bool) (s : store) (g : nat) : option (store * xrp_status) :=
  c ← hp s !! g;
  match c_obj c with
  | Group _ l =>
      s ← (if last then release_records e s l else Some s);
      s ← release_refcounted s g; Some (s, XRP_STATUS_SUCCESS)
  | _ => None
  end.
Definition xrp_release_buffer_group (e : env) (s : store) (g : nat) : option (store * xrp_status) :=
  l ← last_refcount s g; release_group_tested e l s g.

(** ** Running a command *)

(** The buffers of a group as the kernel gets them: flags, size and address;
    [None] inside when one of them is mapped. *)
Definition ioctl_buffer (s : store) (r : nat * Z) : option (option (Z * Z * Z)) :=
  c ← hp s !! r.1;
  match c_obj c with
  | Buffer _ ptr size mc _ => Some (if 0 <? mc then None else Some (r.2, size, ptr))
  | _ => None
  end.

(** Outer [None]: use after free; inner [None]: the command is refused. *)
Fixpoint ioctl_buffers (s : store) (l : list (nat * Z)) : option (option (list (Z * Z * Z))) :=
  match l with
  | [] => Some (Some [])
  | r :: l =>
      b ← ioctl_buffer s r;
      match b with
      | None => Some None
      | Some b => bs ← ioctl_buffers s l; Some (option_map (cons b) bs)
      end
  end.

Definition group_records (s : store) (g : option nat) : option (list (nat * Z)) :=
  match g with
  | None => Some []
  | Some g => c ← hp s !! g; match c_obj c with Group _ l => Some l | _ => None end
  end.

Definition _xrp_run_command (e : env) (s : store) (d : nat) (ns : option (list Z)) (r : request)
  : option xrp_status :=
  l ← group_records s (r_buffer_group r);
  bs ← ioctl_buffers s l;
  match bs with
  | Some bs =>
      c ← hp s !! d;
      match c_obj c with
      | Device fd => Some (if queue_ok e fd ns r bs then XRP_STATUS_SUCCESS else XRP_STATUS_FAILURE)
      | _ => None
      end
  | None => Some XRP_STATUS_FAILURE
  end.

(** What the worker does with a request's group. *)
Definition release_request_group (e : env) (s : store) (r : request) : option store :=
  match r_buffer_group r with
  | Some g => x ← xrp_release_buffer_group e s g; Some x.1
  | None => Some s
  end.

(** The worker running the requests left in a queue that is being released.
    Such requests have no event: their event would hold the queue. *)
Fixpoint drain (e : env) (s : store) (d : nat) (ns : option (list Z)) (rqs : list request)
  : option store :=
  match rqs with
  | [] => Some s
  | r :: rqs =>
      match r_event r with
      | Some _ => None
      | None =>
          _ ← _xrp_run_command e s d ns r;
          s ← release_request_group e s r; drain e s d ns rqs
      end
  end.

(** [self]: the caller is the queue's own worker, which cannot wait for
    itself and leaves the requests behind. *)
Definition release_queue_tested (e : env) (self last : bool) (s : store) (q : nat)
  : option (store * xrp_status) :=
  c ← hp s !! q;
  match c_obj c with
  | Queue d ns rqs =>
      if last then
        s ← (if self then Some s
             else s ← drain e s d ns rqs; Some (set_obj s q (Queue d ns [])));
        x ← xrp_release_device e s d;
        if decide (x.2 = XRP_STATUS_SUCCESS) then
          s ← release_refcounted x.1 q;
          Some (lose s (if self then rqs ≫= request_refs else []), XRP_STATUS_SUCCESS)
        else Some x
      else s ← release_refcounted s q; Some (s, XRP_STATUS_SUCCESS)
  | _ => None
  end.
Definition xrp_release_queue (e : env) (self : bool) (s : store) (q : nat) : option (store * xrp_status) :=
  l ← last_refcount s q; release_queue_tested e self l s q.

Definition release_event_tested (e : env) (self last : bool) (s : store) (ev : nat)
  : option (store * xrp_status) :=
  c ← hp s !! ev;
  match c_obj c with
  | Event q _ =>
      if last then
        x ← xrp_release_queue e self s q;
        if decide (x.2 = XRP_STATUS_SUCCESS) then
          s ← release_refcounted x.1 ev; Some (s, XRP_STATUS_SUCCESS)
        else Some x
      else s ← release_refcounted s ev; Some (s, XRP_STATUS_SUCCESS)
  | _ => None
  end.
Definition xrp_release_event (e : env) (self : bool) (s : store) (ev : nat) : option (store * xrp_status) :=
  l ← last_refcount s ev; release_event_tested e self l s ev.

(** ** New references *)

Definition xrp_retain_device (s : store) (d : nat) : option store := retain_refcounted s d.
Definition xrp_retain_buffer (s : store) (b : nat) : option store := retain_refcounted s b.
Definition xrp_retain_buffer_group (s : store) (g : nat) : option store := retain_refcounted s g.
Definition xrp_retain_queue (s : store) (q : nat) : option store := retain_refcounted s q.
Definition xrp_retain_event (s : store) (ev : nat) : option store := retain_refcounted s ev.

(** ** Devices and buffers *)

(** [fd]: the descriptor [open] returned; [mem]: whether the allocation
    succeeds. *)
Definition xrp_open_device (fd : option Z) (mem : bool) (s : store) : store * option nat :=
  match fd with
  | None => (s, None)
  | Some fd => if mem then let '(s, d) := alloc_refcounted s (Device fd) in (s, Some d) else (s, None)
  end.

(** [ioctl]: the address [XRP_IOCTL_ALLOC] returned. *)
Definition xrp_create_buffer (e : env) (mem : bool) (ioctl : option Z) (s : store)
    (device : option nat) (size : Z) (host_ptr : option Z) : option (store * option nat) :=
  match host_ptr, device with
  | None, None => Some (s, None)
  | Some ptr, _ =>
      if mem then let '(s, b) := alloc_refcounted s (Buffer None ptr size 0 0) in Some (s, Some b)
      else Some (s, None)
  | None, Some d =>
      if mem then
        s ← retain_refcounted s d;
        match ioctl with
        | Some addr =>
            let '(s, b) := alloc_refcounted s (Buffer (Some d) addr size 0 0) in Some (s, Some b)
        | None => x ← xrp_release_device e s d; Some (ignore (KDevice, d) x, None)
        end
      else Some (s, None)
  end.

Definition xrp_map_buffer (s : store) (b : nat) (offset size map_flags : Z)
  : option (store * option Z) :=
  c ← hp s !! b;
  match c_obj c with
  | Buffer d ptr bsize mc mf =>
      if (offset <=? bsize) && (size <=? bsize - offset) then
        s ← retain_refcounted s b;
        Some (set_obj s b (Buffer d ptr bsize (mc + 1) (Z.lor mf map_flags)), Some (ptr + offset))
      else Some (s, None)
  | _ => None
  end.

Definition xrp_unmap_buffer (e : env) (s : store) (b : nat) (p : Z) : option (store * xrp_status) :=
  c ← hp s !! b;
  match c_obj c with
  | Buffer d ptr bsize mc mf =>
      if (ptr <=? p) && (p - ptr <=? bsize) then
        xrp_release_buffer e (set_obj s b (Buffer d ptr bsize (mc - 1) mf)) b
      else Some (s, XRP_STATUS_FAILURE)
  | _ => None
  end.

(** [sizeof(size_t)] and [sizeof(void * )] are 8, [sizeof] of an enum is 4. *)
Inductive xrp_buffer_info := XRP_BUFFER_SIZE_SIZE_T | XRP_BUFFER_HOST_POINTER_PTR.

(** The value written to [out], if any; a device buffer has no host address. *)
Definition xrp_buffer_get_info (s : store) (b : nat) (info : option xrp_buffer_info) (out_sz : Z)
  : option (option Z) :=
  c ← hp s !! b;
  match c_obj c with
  | Buffer d ptr size _ _ =>
      Some (match info with
            | Some XRP_BUFFER_SIZE_SIZE_T => if out_sz =? 8 then Some size else None
            | Some XRP_BUFFER_HOST_POINTER_PTR =>
                if out_sz =? 8 then Some (match d with Some _ => 0 | None => ptr end) else None
            | None => None
            end)
  | _ => None
  end.

(** ** Buffer groups *)

Definition xrp_create_buffer_group (mem : bool) (s : store) : store * option nat :=
  if mem then let '(s, g) := alloc_refcounted s (Group 0 []) in (s, Some g) else (s, None).

(** The index of the new element, [None] on failure; [realloc] tells whether
    a full array can grow. *)
Definition xrp_add_buffer_to_group (realloc : bool) (s : store) (g b : nat) (access_flags : Z)
  : option (store * option nat) :=
  c ← hp s !! g;
  match c_obj c with
  | Group cap l =>
      let full := (length l =? cap)%nat in
      if full && negb realloc then Some (s, None)
      else
        s ← retain_refcounted s b;
        Some (set_obj s g (Group (if full then (cap + 2) * 2 else cap) (l ++ [(b, access_flags)])),
              Some (length l))
  | _ => None
  end.

Definition xrp_set_buffer_in_group (e : env) (s : store) (g : nat) (index : nat) (b : nat)
    (access_flags : Z) : option (store * xrp_status) :=
  s ← retain_refcounted s b;
  c ← hp s !! g;
  match c_obj c with
  | Group cap l =>
      match l !! index with
      | Some (old, _) =>
          x ← xrp_release_buffer e (set_obj s g (Group cap (<[index := (b, access_flags)]> l))) old;
          Some (ignore (KBuffer, old) x, XRP_STATUS_SUCCESS)
      | None =>
          x ← xrp_release_buffer e s b; Some (ignore (KBuffer, b) x, XRP_STATUS_FAILURE)
      end
  | _ => None
  end.

Definition xrp_get_buffer_from_group (s : store) (g : nat) (idx : nat) : option (store * option nat) :=
  c ← hp s !! g;
  match c_obj c with
  | Group _ l =>
      match l !! idx with
      | Some (b, _) => s ← retain_refcounted s b; Some (s, Some b)
      | None => Some (s, None)
      end
  | _ => None
  end.

Inductive xrp_buffer_group_info := XRP_BUFFER_GROUP_BUFFER_FLAGS_ENUM | XRP_BUFFER_GROUP_SIZE_SIZE_T.

Definition xrp_buffer_group_get_info (s : store) (g : nat) (info : option xrp_buffer_group_info)
    (idx : nat) (out_sz : Z) : option (option Z) :=
  c ← hp s !! g;
  match c_obj c with
  | Group _ l =>
      Some (match info with
            | Some XRP_BUFFER_GROUP_BUFFER_FLAGS_ENUM =>
                r ← l !! idx; if out_sz =? 4 then Some r.2 else None
            | Some XRP_BUFFER_GROUP_SIZE_SIZE_T =>
                if out_sz =? 8 then Some (Z.of_nat (length l)) else None
            | None => None
            end)
  | _ => None
  end.

(** ** Queues, requests and events *)

Definition xrp_create_ns_queue (mem : bool) (s : store) (device : option nat) (nsid : option (list Z))
  : option (store * option nat) :=
  match device with
  | None => Some (s, None)
  | Some d =>
      if mem then
        s ← retain_refcounted s d;
        let '(s, q) := alloc_refcounted s (Queue d nsid []) in Some (s, Some q)
      else Some (s, None)
  end.

Definition xrp_create_queue (mem : bool) (s : store) (device : option nat) : option (store * option nat) :=
  xrp_create_ns_queue mem s device None.

(** [mem] and [emem]: the allocations of the request and of the event. *)
Definition xrp_enqueue_command (mem emem : bool) (s : store) (q : nat) (in_data : list Z)
    (out_data out_size : Z) (group : option nat) (evt : bool) : option (store * option nat * xrp_status) :=
  if negb mem || (evt && negb emem) then Some (s, None, XRP_STATUS_FAILURE)
  else
    x ← (if evt then
           s ← retain_refcounted s q;
           let '(s, ev) := alloc_refcounted s (Event q XRP_STATUS_PENDING) in
           s ← retain_refcounted s ev; Some (s, Some ev)
         else Some (s, None));
    let '(s, ev) := x in
    s ← match group with Some g => retain_refcounted s g | None => Some s end;
    c ← hp s !! q;
    match c_obj c with
    | Queue d ns rqs =>
        Some (set_obj s q (Queue d ns (rqs ++ [mk_request in_data out_data out_size group ev])),
              ev, XRP_STATUS_SUCCESS)
    | _ => None
    end.

(** One round of the worker: [None] inside when there is nothing to do. *)
Definition xrp_queue_process (e : env) (s : store) (q : nat) : option (option store) :=
  c ← hp s !! q;
  match c_obj c with
  | Queue d ns [] => Some None
  | Queue d ns (r :: rqs) =>
      let s := set_obj s q (Queue d ns rqs) in
      status ← _xrp_run_command e s d ns r;
      s ← release_request_group e s r;
      match r_event r with
      | None => Some (Some s)
      | Some ev =>
          c ← hp s !! ev;
          match c_obj c with
          | Event q' _ =>
              x ← xrp_release_event e true (set_obj s ev (Event q' status)) ev;
              Some (Some (ignore (KEvent, ev) x))
          | _ => None
          end
      end
  | _ => None
  end.

(** The status a waiter sees; [xrp_wait] returns once it is not pending. *)
Definition xrp_event_status (s : store) (ev : nat) : option xrp_status :=
  c ← hp s !! ev; match c_obj c with Event _ st => Some st | _ => None end.

(** Waiting for an event while the worker of [q] is the only other thread
    that runs, for at most [fuel] rounds; [None] when that is not enough. *)
Fixpoint xrp_wait (fuel : nat) (e : env) (s : store) (q ev : nat) : option store :=
  status ← xrp_event_status s ev;
  if decide (status = XRP_STATUS_PENDING) then
    match fuel with
    | O => None
    | S fuel =>
        x ← xrp_queue_process e s q;
        s ← x; xrp_wait fuel e s q ev
    end
  else Some s.

Definition xrp_run_command_sync (fuel : nat) (e : env) (mem emem : bool) (s : store) (q : nat)
    (in_data : list Z) (out_data out_size : Z) (group : option nat) : option (store * xrp_status) :=
  x ← xrp_enqueue_command mem emem s q in_data out_data out_size group true;
  match x with
  | (s, Some ev, XRP_STATUS_SUCCESS) =>
      s ← xrp_wait fuel e s q ev;
      status ← xrp_event_status s ev;
      x ← xrp_release_event e false s ev;
      Some (ignore (KEvent, ev) x, status)
  | (s, _, status) => Some (s, status)
  end.
