(* ===== verification/NativeRefs.v ===== *)
(** * Reference counting in the Linux library

    The release functions of xrp-linux-native/xrp_linux_native.c keep the
    counting invariant of [RefHeap]: with a reference in hand they succeed
    and the reference is gone, or they fail and it is still there. *)

From stdpp Require Import base tactics list gmap fin_maps numbers.
From S2P Require Import Prelude DspNs RefHeap Native.

#[local] Hint Resolve keeps_refl keeps_tail : core.

(** ** The release functions *)

Lemma release_device_ok e : release_ok (xrp_release_device e) KDevice.
Proof.
  intros D s roots d Hh. destruct (holds_lookup D s _ KDevice d Hh) as (c & Hp & Hk & HD & Hpos); [by left |].
  unfold xrp_release_device, release_device_tested, last_refcount. rewrite Hp. cbn.
  destruct (Z.eqb_spec (c_count c) 1) as [H1 |]; cbn.
  - destruct (close_ok e); cbn.
    + destruct (release_begin D s roots KDevice d c Hh Hp H1) as [Hb _].
      destruct (release_end D s _ d c Hb Hp H1 HD) as (s' & -> & Hkeep & Hh' & _). cbn.
      exists s', XRP_STATUS_SUCCESS. split_and!; [done | done |]. rewrite decide_True by done.
      destruct (c_obj c); done.
    + exists s, XRP_STATUS_FAILURE. split_and!; [done | done | by rewrite decide_False].
  - destruct (release_shared D s roots KDevice d c Hh Hp n) as (s' & -> & Hkeep & Hh'). cbn.
    exists s', XRP_STATUS_SUCCESS. split_and!; [done | done | by rewrite decide_True].
Qed.

Lemma release_buffer_ok e : release_ok (xrp_release_buffer e) KBuffer.
Proof.
  intros D s roots b Hh. destruct (holds_lookup D s _ KBuffer b Hh) as (c & Hp & Hk & HD & Hpos); [by left |].
  unfold xrp_release_buffer, release_buffer_tested. rewrite tested_eq. rewrite Hp. cbn [mbind option_bind].
  destruct (c_obj c) as [| dev ptr sz mc mf | | |] eqn:Eo; try done.
  destruct (Z.eqb_spec (c_count c) 1) as [H1 |].
  - destruct (release_begin D s roots KBuffer b c Hh Hp H1) as [Hb _]. rewrite Eo in Hb.
    destruct dev as [d |]; cbn [obj_refs app] in Hb.
    + destruct (holds_lookup (b :: D) s _ KDevice d Hb) as (cd & Hd & _); [by left |].
      rewrite Hd. cbn [mbind option_bind]. destruct (free_ok e); [| exists s, XRP_STATUS_FAILURE; split_and!; [done | done | by rewrite decide_False]].
      destruct (release_device_ok e (b :: D) s roots d Hb) as (s1 & st & -> & Hk1 & Hh1). cbn [mbind option_bind].
      destruct (ignore_ok _ _ _ _ _ _ Hh1) as [Hh2 Ehp].
      destruct (release_end D _ roots b c Hh2) as (s2 & -> & Hk2 & Hh3 & _);
        [rewrite Ehp, Hk1; [done | by left] | done | done |].
      cbn [mbind option_bind]. exists s2, XRP_STATUS_SUCCESS. split_and!; [done | | by rewrite decide_True].
      intros q Hq. rewrite Hk2, Ehp by done. apply Hk1. by right.
    + destruct (release_end D s roots b c Hb Hp H1 HD) as (s' & -> & Hkeep & Hh' & _). cbn.
      exists s', XRP_STATUS_SUCCESS. split_and!; [done | done | by rewrite decide_True].
  - destruct (release_shared D s roots KBuffer b c Hh Hp n) as (s' & E & Hkeep & Hh').
    exists s', XRP_STATUS_SUCCESS. split_and!; [destruct dev; by rewrite E | done | by rewrite decide_True].
Qed.

Lemma release_records_ok e D s roots l :
  holds D s (((λ r : nat * Z, (KBuffer, r.1)) <$> l) ++ roots) →
  ∃ s', release_records e s l = Some s' ∧ keeps D s s' ∧ holds D s' roots.
Proof.
  revert s. induction l as [| [b fl] l IH]; intros s Hh; [by exists s |]. cbn in Hh. cbn [release_records].
  destruct (release_buffer_ok e D s _ b Hh) as (s1 & st & -> & Hk1 & Hh1). cbn [mbind option_bind].
  destruct (ignore_ok _ _ _ _ _ _ Hh1) as [Hh2 Ehp]. destruct (IH _ Hh2) as (s' & -> & Hk2 & Hh3).
  exists s'. split_and!; [done | | done]. intros q Hq. rewrite Hk2, Ehp by done. by apply Hk1.
Qed.

Lemma release_group_ok e : release_ok (xrp_release_buffer_group e) KGroup.
Proof.
  intros D s roots g Hh. destruct (holds_lookup D s _ KGroup g Hh) as (c & Hp & Hk & HD & Hpos); [by left |].
  unfold xrp_release_buffer_group, release_group_tested. rewrite tested_eq. rewrite Hp. cbn [mbind option_bind].
  destruct (c_obj c) as [| | cap l | |] eqn:Eo; try done.
  destruct (Z.eqb_spec (c_count c) 1) as [H1 |].
  - destruct (release_begin D s roots KGroup g c Hh Hp H1) as [Hb _]. rewrite Eo in Hb.
    destruct (release_records_ok e (g :: D) s roots l Hb) as (s1 & -> & Hk1 & Hh1). cbn [mbind option_bind].
    destruct (release_end D s1 roots g c Hh1) as (s2 & -> & Hk2 & Hh2 & _);
      [rewrite Hk1; [done | by left] | done | done |].
    cbn [mbind option_bind]. exists s2, XRP_STATUS_SUCCESS. split_and!; [done | | by rewrite decide_True].
    eapply keeps_trans; [by eapply keeps_tail | done].
  - cbn [mbind option_bind].
    destruct (release_shared D s roots KGroup g c Hh Hp n) as (s' & -> & Hkeep & Hh'). cbn [mbind option_bind].
    exists s', XRP_STATUS_SUCCESS. split_and!; [done | done | by rewrite decide_True].
Qed.

(** The release of a group never fails. *)
Lemma release_group_success e s g s' st :
  xrp_release_buffer_group e s g = Some (s', st) → st = XRP_STATUS_SUCCESS.
Proof.
  unfold xrp_release_buffer_group, release_group_tested. rewrite tested_eq. destruct (hp s !! g) as [c |]; [| done]. cbn [mbind option_bind].
  destruct (c_obj c); try done. intros H. apply bind_Some in H as (s1 & _ & H).
  apply bind_Some in H as (s2 & _ & H). by injection H as _ <-.
Qed.

Definition group_refs (r : request) : list ref :=
  match r_buffer_group r with Some g => [(KGroup, g)] | None => [] end.

Lemma release_request_group_ok e D s roots r :
  holds D s (group_refs r ++ roots) →
  ∃ s', release_request_group e s r = Some s' ∧ keeps D s s' ∧ holds D s' roots.
Proof.
  unfold release_request_group, group_refs. destruct (r_buffer_group r) as [g |]; [| by exists s].
  intros Hh. destruct (release_group_ok e D s roots g Hh) as (s' & st & E & Hk & Hh'). rewrite E.
  rewrite (release_group_success _ _ _ _ _ E), decide_True in Hh' by done. by exists s'.
Qed.

Lemma ioctl_buffers_ok s l :
  (∀ r, r ∈ l → ∃ c, hp s !! r.1 = Some c ∧ kind_of (c_obj c) = KBuffer) →
  ∃ bs, ioctl_buffers s l = Some bs.
Proof.
  induction l as [| r l IH]; intros Hl; [by eexists |]. cbn [ioctl_buffers].
  destruct (Hl r) as (c & Hc & Hk); [by left |]. unfold ioctl_buffer. rewrite Hc. cbn [mbind option_bind].
  destruct (c_obj c) as [| dev ptr sz mc mf | | |]; try done. cbn [mbind option_bind].
  destruct (0 <? mc); [by eexists |]. destruct IH as [bs ->]; [set_solver |]. by eexists.
Qed.

Lemma run_command_ok e D s roots d cd ns r :
  holds D s (group_refs r ++ roots) → hp s !! d = Some cd → kind_of (c_obj cd) = KDevice →
  ∃ st, _xrp_run_command e s d ns r = Some st.
Proof.
  intros Hh Hd Hk. unfold _xrp_run_command.
  assert (∃ l, group_records s (r_buffer_group r) = Some l ∧
               ∀ x, x ∈ l → ∃ c, hp s !! x.1 = Some c ∧ kind_of (c_obj c) = KBuffer) as (l & -> & Hl).
  { unfold group_records, group_refs in *. destruct (r_buffer_group r) as [g |]; [| exists []; split; [done | set_solver]].
    destruct (holds_lookup D s _ KGroup g Hh) as (c & Hp & Hkg & HD & _); [by left |]. rewrite Hp. cbn.
    destruct (c_obj c) as [| | cap l | |] eqn:Eo; try done. exists l. split; [done |]. intros x Hx.
    eapply (holds_inner D s _ g c); [done.. |]. rewrite Eo. apply list_elem_of_fmap. by exists x. }
  cbn [mbind option_bind]. destruct (ioctl_buffers_ok s l Hl) as [[bs |] ->]; cbn [mbind option_bind]; [| by eexists].
  rewrite Hd. cbn [mbind option_bind]. destruct (c_obj cd); try done. by eexists.
Qed.

Lemma drain_ok e D s d ns roots rqs :
  holds D s ((rqs ≫= request_refs) ++ (KDevice, d) :: roots) → Forall (λ r, r_event r = None) rqs →
  ∃ s', drain e s d ns rqs = Some s' ∧ keeps D s s' ∧ holds D s' ((KDevice, d) :: roots).
Proof.
  intros Hh Hn. revert s Hh. induction Hn as [| r rqs Hr Hn IH]; intros s Hh; [by exists s |].
  cbn [drain]. rewrite Hr. change ((r :: rqs) ≫= request_refs) with (request_refs r ++ (rqs ≫= request_refs)) in Hh.
  unfold request_refs at 1 in Hh. rewrite Hr, app_nil_r, <- app_assoc in Hh.
  destruct (holds_lookup D s _ KDevice d Hh) as (cd & Hd & Hk & _); [set_solver |].
  destruct (run_command_ok e D s _ d cd ns r Hh Hd Hk) as [st ->]. cbn [mbind option_bind].
  destruct (release_request_group_ok e D s _ r Hh) as (s1 & -> & Hk1 & Hh1). cbn [mbind option_bind].
  destruct (IH s1 Hh1) as (s2 & -> & Hk2 & Hh2). exists s2. split_and!; [done | | done]. by eapply keeps_trans.
Qed.

Lemma no_events rqs : omap r_event rqs = [] ↔ Forall (λ r, r_event r = None) rqs.
Proof.
  induction rqs as [| r rqs IH]; [done |]. cbn. rewrite list.Forall_cons, <- IH.
  destruct (r_event r); split; [done | by intros [? _] | by split | by intros [_ ?]].
Qed.

Lemma release_queue_ok e self : release_ok (xrp_release_queue e self) KQueue.
Proof.
  intros D s roots q Hh. destruct (holds_lookup D s _ KQueue q Hh) as (c & Hp & Hk & HD & Hpos); [by left |].
  unfold xrp_release_queue, release_queue_tested. rewrite tested_eq. rewrite Hp. cbn [mbind option_bind].
  destruct (c_obj c) as [| | | d ns rqs |] eqn:Eo; try done.
  destruct (Z.eqb_spec (c_count c) 1) as [H1 |].
  2:{ destruct (release_shared D s roots KQueue q c Hh Hp n) as (s' & -> & Hkeep & Hh').
      exists s', XRP_STATUS_SUCCESS. split_and!; [done | done | by rewrite decide_True]. }
  pose proof (last_no_waits D s roots KQueue q c Hh Hp H1) as Hnone. rewrite Eo in Hnone. apply no_events in Hnone.
  destruct (release_begin D s roots KQueue q c Hh Hp H1) as [Hb _]. rewrite Eo in Hb.
  pose (left := if self then rqs else []).
  assert (∃ s1, (if self then Some s else s ← drain e s d ns rqs; Some (set_obj s q (Queue d ns []))) = Some s1 ∧
            keeps D s s1 ∧ hp s1 !! q = Some (mk_cell 1 (Queue d ns left)) ∧
            holds (q :: D) s1 ((KDevice, d) :: (left ≫= request_refs) ++ roots)) as (s1 & -> & Hk1 & Hq1 & Hh1).
  { destruct self; unfold left.
    - exists s. split_and!; [done | done | | done]. rewrite Hp. f_equal. by apply cell_eta.
    - destruct (drain_ok e (q :: D) s d ns roots rqs) as (s1 & -> & Hk1 & Hh1); [| done |].
      { eapply holds_perm; [| exact Hb]. cbn. by rewrite Permutation_middle. }
      cbn [mbind option_bind]. eexists. split; [done |]. split_and!.
      + intros p Hin. cbn. rewrite lookup_alter_ne by (intros ->; done). apply Hk1. by right.
      + cbn. rewrite lookup_alter_eq, Hk1, Hp by (by left). cbn. by rewrite H1.
      + unfold holds. cbn [hp set_obj set_hp]. rewrite minus_alter by (by left). exact Hh1. }
  cbn [mbind option_bind]. destruct (release_device_ok e (q :: D) s1 _ d Hh1) as (s2 & st & -> & Hk2 & Hh2).
  cbn [mbind option_bind fst snd]. assert (hp s2 !! q = Some (mk_cell 1 (Queue d ns left))) as Hq2 by (rewrite Hk2; [done | by left]).
  case_decide as Hst.
  - destruct (release_end D s2 _ q _ Hh2 Hq2 eq_refl HD) as (s3 & -> & Hk3 & Hh3 & El). cbn [mbind option_bind].
    eexists _, XRP_STATUS_SUCCESS. split; [done |]. rewrite decide_True by done. split.
    + intros p Hin. change (hp s3 !! p = hp s !! p). rewrite Hk3, Hk2, Hk1; [done | done | by right | done].
    + unfold holds, lose in *. cbn [hp lost]. eapply inv_roots; [| exact Hh3].
      unfold left. destruct self; cbn; [| done]. rewrite (Permutation_app_comm (rqs ≫= _)).
      by rewrite <- app_assoc.
  - exists s2, st. split; [done |]. rewrite decide_False by done. split.
    + intros p Hin. rewrite Hk2, Hk1; [done | done | by right].
    + apply (release_undo D s2 roots q (Queue d ns left)); [done | done | done | | done].
      apply no_events. unfold left. by destruct self.
Qed.

Lemma release_event_ok e self : release_ok (xrp_release_event e self) KEvent.
Proof.
  intros D s roots ev Hh. destruct (holds_lookup D s _ KEvent ev Hh) as (c & Hp & Hk & HD & Hpos); [by left |].
  unfold xrp_release_event, release_event_tested. rewrite tested_eq. rewrite Hp. cbn [mbind option_bind].
  destruct (c_obj c) as [| | | | q st0] eqn:Eo; try done.
  destruct (Z.eqb_spec (c_count c) 1) as [H1 |].
  2:{ destruct (release_shared D s roots KEvent ev c Hh Hp n) as (s' & -> & Hkeep & Hh').
      exists s', XRP_STATUS_SUCCESS. split_and!; [done | done | by rewrite decide_True]. }
  destruct (release_begin D s roots KEvent ev c Hh Hp H1) as [Hb _]. rewrite Eo in Hb.
  destruct (release_queue_ok e self (ev :: D) s roots q Hb) as (s1 & st & -> & Hk1 & Hh1). cbn [mbind option_bind fst snd].
  assert (hp s1 !! ev = Some (mk_cell 1 (Event q st0))) as Hq1
    by (rewrite Hk1, Hp by (by left); f_equal; by apply cell_eta).
  case_decide.
  - destruct (release_end D s1 _ ev _ Hh1 Hq1 eq_refl HD) as (s2 & -> & Hk2 & Hh2 & El). cbn [mbind option_bind].
    eexists _, XRP_STATUS_SUCCESS. split; [done |]. rewrite decide_True by done. split; [| done].
    eapply keeps_trans; [by eapply keeps_tail | done].
  - exists s1, st. split; [done |]. rewrite decide_False by done. split; [by eapply keeps_tail |].
    by apply (release_undo D s1 roots ev (Event q st0)).
Qed.
