(* ===== verification/NativeClient.v ===== *)
(** * Clients of the Linux library

    A client is the list of references it holds and the store it shares with
    the worker threads.  Its calls, with any outcome of the system calls
    behind them, alternate with worker rounds in any order, without overlap.  The invariant of
    [NativeRefs] holds along every such run: no call of a client that uses
    only references it holds touches a freed object, every count is the
    number of references, and what a client has given up is freed. *)

From stdpp Require Import base tactics list gmap fin_maps numbers.
From S2P Require Import Prelude DspNs RefHeap Native NativeRefs.

(** ** Calls *)

Inductive call :=
| OpenDevice (fd : option Z) (mem : bool)
| Retain (r : ref)
| Release (r : ref)
| CreateBuffer (mem : bool) (ioctl : option Z) (device : option nat) (size : Z) (host_ptr : option Z)
| MapBuffer (b : nat) (offset size flags : Z)
| UnmapBuffer (b : nat) (p : Z)
| CreateGroup (mem : bool)
| AddBuffer (realloc : bool) (g b : nat) (flags : Z)
| SetBuffer (g index b : nat) (flags : Z)
| GetBuffer (g idx : nat)
| CreateQueue (mem : bool) (device : option nat) (nsid : option (list Z))
| EnqueueCommand (mem emem : bool) (q : nat) (in_data : list Z) (out_data out_size : Z)
    (group : option nat) (evt : bool)
| BufferInfo (b : nat) (info : option xrp_buffer_info) (out_sz : Z)
| GroupInfo (g : nat) (info : option xrp_buffer_group_info) (idx : nat) (out_sz : Z)
| EventStatus (ev : nat).

(** The references a call is given. *)
Definition needs (c : call) : list ref :=
  let opt k (x : option nat) := match x with Some p => [(k, p)] | None => [] end in
  match c with
  | OpenDevice _ _ | CreateGroup _ => []
  | Retain r | Release r => [r]
  | CreateBuffer _ _ d _ _ | CreateQueue _ d _ => opt KDevice d
  | MapBuffer b _ _ _ | UnmapBuffer b _ | BufferInfo b _ _ => [(KBuffer, b)]
  | AddBuffer _ g b _ | SetBuffer g _ b _ => [(KGroup, g); (KBuffer, b)]
  | GetBuffer g _ | GroupInfo g _ _ _ => [(KGroup, g)]
  | EnqueueCommand _ _ q _ _ _ g _ => (KQueue, q) :: opt KGroup g
  | EventStatus ev => [(KEvent, ev)]
  end.

Definition xrp_retain (s : store) (r : ref) : option store :=
  match r.1 with
  | KDevice => xrp_retain_device s r.2
  | KBuffer => xrp_retain_buffer s r.2
  | KGroup => xrp_retain_buffer_group s r.2
  | KQueue => xrp_retain_queue s r.2
  | KEvent => xrp_retain_event s r.2
  end.
Lemma xrp_retain_eq s r : xrp_retain s r = retain_refcounted s r.2.
Proof. by destruct r as [[] ?]. Qed.

Definition xrp_release (e : env) (s : store) (r : ref) : option (store * xrp_status) :=
  match r.1 with
  | KDevice => xrp_release_device e s r.2
  | KBuffer => xrp_release_buffer e s r.2
  | KGroup => xrp_release_buffer_group e s r.2
  | KQueue => xrp_release_queue e false s r.2
  | KEvent => xrp_release_event e false s r.2
  end.

(** The client's view of a call: the store and the references it then holds. *)
Definition exec (e : env) (s : store) (H : list ref) (c : call) : option (store * list ref) :=
  match c with
  | OpenDevice fd mem => Some (gain KDevice H (xrp_open_device fd mem s))
  | Retain r => s ← xrp_retain s r; Some (s, r :: H)
  | Release r => x ← xrp_release e s r; Some (drop_on_success r H x)
  | CreateBuffer mem ioctl d size host_ptr =>
      x ← xrp_create_buffer e mem ioctl s d size host_ptr; Some (gain KBuffer H x)
  | MapBuffer b offset size flags =>
      x ← xrp_map_buffer s b offset size flags;
      Some (x.1, match x.2 with Some _ => (KBuffer, b) :: H | None => H end)
  | UnmapBuffer b p => x ← xrp_unmap_buffer e s b p; Some (drop_on_success (KBuffer, b) H x)
  | CreateGroup mem => Some (gain KGroup H (xrp_create_buffer_group mem s))
  | AddBuffer realloc g b flags =>
      x ← xrp_add_buffer_to_group realloc s g b flags; Some (x.1, H)
  | SetBuffer g index b flags => x ← xrp_set_buffer_in_group e s g index b flags; Some (x.1, H)
  | GetBuffer g idx => x ← xrp_get_buffer_from_group s g idx; Some (gain KBuffer H x)
  | CreateQueue mem d nsid => x ← xrp_create_ns_queue mem s d nsid; Some (gain KQueue H x)
  | EnqueueCommand mem emem q in_data out_data out_size group evt =>
      x ← xrp_enqueue_command mem emem s q in_data out_data out_size group evt;
      Some (gain KEvent H x.1)
  | BufferInfo b info out_sz => _ ← xrp_buffer_get_info s b info out_sz; Some (s, H)
  | GroupInfo g info idx out_sz => _ ← xrp_buffer_group_get_info s g info idx out_sz; Some (s, H)
  | EventStatus ev => _ ← xrp_event_status s ev; Some (s, H)
  end.

(** A call of the client, or a round of the worker of a queue. *)
Inductive step : store * list ref → store * list ref → Prop :=
| step_call e c s H s' H' : needs c ⊆ H → exec e s H c = Some (s', H') → step (s, H) (s', H')
| step_worker e q s H s' : xrp_queue_process e s q = Some (Some s') → step (s, H) (s', H).

Definition initial : store * list ref := (mk_store ∅ [], []).

(** ** Each call keeps the invariant *)

Definition call_ok (c : call) : Prop :=
  ∀ e s H, holds [] s H → needs c ⊆ H → ∃ s' H', exec e s H c = Some (s', H') ∧ holds [] s' H'.

Lemma open_device_call fd mem : call_ok (OpenDevice fd mem).
Proof.
  intros e s H Hh _. destruct fd as [fd |]; [| by exists s, H]. destruct mem; [| by exists s, H].
  destruct (alloc_refcounted s (Device fd)) as [s' d] eqn:E. exists s', ((KDevice, d) :: H). split.
  - cbn [exec xrp_open_device]. by rewrite E.
  - by apply (holds_alloc s H (Device fd)).
Qed.

Lemma retain_call r : call_ok (Retain r).
Proof.
  intros e s H Hh Hn. destruct r as [k p]. destruct (holds_retain [] s H k p Hh) as (s' & E & _ & Hh' & _).
  { apply Hn. by left. }
  exists s', ((k, p) :: H). split; [| done]. cbn [exec]. rewrite xrp_retain_eq. cbn [snd]. by rewrite E.
Qed.

Lemma release_call r : call_ok (Release r).
Proof.
  intros e s H Hh Hn. destruct r as [k p]. assert ((k, p) ∈ H) as Hin by (apply Hn; by left).
  assert (∃ x, xrp_release e s (k, p) = Some x ∧
            holds [] (drop_on_success (k, p) H x).1 (drop_on_success (k, p) H x).2) as (x & E & Hh').
  { destruct k; cbn [xrp_release fst snd]; apply release_ok_call; auto.
    - apply release_device_ok.
    - apply release_buffer_ok.
    - apply release_group_ok.
    - apply release_queue_ok.
    - apply release_event_ok. }
  eexists _, _. split; [| exact Hh']. cbn [exec]. rewrite E. done.
Qed.

Lemma create_buffer_call mem ioctl d size host_ptr : call_ok (CreateBuffer mem ioctl d size host_ptr).
Proof.
  intros e s H Hh Hn. cbn [exec needs] in *. unfold xrp_create_buffer.
  destruct host_ptr as [ptr |]; [| destruct d as [d |]; [| by exists s, H]].
  - destruct mem; [| by exists s, H].
    destruct (alloc_refcounted s (Buffer None ptr size 0 0)) as [s' b] eqn:E. exists s', ((KBuffer, b) :: H).
    split; [by destruct d |]. by apply (holds_alloc s H (Buffer None ptr size 0 0)).
  - destruct mem; [| by exists s, H].
    destruct (holds_retain [] s H KDevice d Hh) as (s1 & -> & _ & Hh1 & _); [apply Hn; by left |].
    cbn [mbind option_bind]. destruct ioctl as [addr |].
    + destruct (alloc_refcounted s1 (Buffer (Some d) addr size 0 0)) as [s' b] eqn:E.
      exists s', ((KBuffer, b) :: H). split; [done |]. by apply (holds_alloc s1 H (Buffer (Some d) addr size 0 0)).
    + destruct (release_device_ok e [] s1 H d Hh1) as (s2 & st & -> & _ & Hh2). cbn [mbind option_bind].
      eexists _, H. split; [done |]. by apply ignore_ok.
Qed.

Lemma map_buffer_call b offset size flags : call_ok (MapBuffer b offset size flags).
Proof.
  intros e s H Hh Hn. cbn [exec needs] in *. unfold xrp_map_buffer. assert ((KBuffer, b) ∈ H) as Hin by (apply Hn; by left).
  destruct (live s H _ _ Hh Hin) as (c & Hp & Hk). rewrite Hp. cbn [mbind option_bind].
  destruct (c_obj c) as [| d ptr bsize mc mf | | |] eqn:Eo; try done. destruct (_ && _); [| by exists s, H].
  destruct (holds_retain [] s H _ b Hh Hin) as (s1 & -> & _ & Hh1 & _ & Hp1). cbn [mbind option_bind].
  eexists _, _. split; [done |]. cbn [fst snd].
  eapply holds_update; [done | by apply Hp1 | set_solver | ..]; cbn [c_obj add_count]; rewrite ?Eo; done.
Qed.

Lemma unmap_buffer_call b p : call_ok (UnmapBuffer b p).
Proof.
  intros e s H Hh Hn. cbn [exec needs] in *. unfold xrp_unmap_buffer. assert ((KBuffer, b) ∈ H) as Hin by (apply Hn; by left).
  destruct (live s H _ _ Hh Hin) as (c & Hp & Hk). rewrite Hp. cbn [mbind option_bind].
  destruct (c_obj c) as [| d ptr bsize mc mf | | |] eqn:Eo; try done.
  destruct (_ && _); [| exists s, H; split; [| done]; cbn; unfold drop_on_success; by rewrite decide_False].
  destruct (release_ok_call (xrp_release_buffer e) KBuffer (set_obj s b (Buffer d ptr bsize (mc - 1) mf)) H b)
    as (x & E & Hh'); [apply release_buffer_ok | | done |].
  - eapply holds_update; [done | done | set_solver | ..]; rewrite ?Eo; done.
  - rewrite E. by eexists _, _.
Qed.

Lemma create_group_call mem : call_ok (CreateGroup mem).
Proof.
  intros e s H Hh _. destruct mem; [| by exists s, H].
  destruct (alloc_refcounted s (Group 0 [])) as [s' g] eqn:E. exists s', ((KGroup, g) :: H). split.
  - cbn [exec xrp_create_buffer_group]. by rewrite E.
  - by apply (holds_alloc s H (Group 0 [])).
Qed.

Lemma get_buffer_call g idx : call_ok (GetBuffer g idx).
Proof.
  intros e s H Hh Hn. cbn [exec needs] in *. unfold xrp_get_buffer_from_group.
  destruct (live s H KGroup g Hh) as (c & Hp & Hk); [apply Hn; by left |]. rewrite Hp. cbn [mbind option_bind].
  destruct (c_obj c) as [| | cap l | |] eqn:Eo; try done. destruct (l !! idx) as [[b fl] |] eqn:Ei; [| by exists s, H].
  destruct (holds_inner [] s H g c KBuffer b Hh Hp) as (cb & Hb & Hkb); [set_solver | |].
  { rewrite Eo. apply list_elem_of_fmap. exists (b, fl). split; [done |]. by eapply list_elem_of_lookup_2. }
  unfold retain_refcounted. rewrite Hb. cbn [mbind option_bind]. eexists _, _. split; [done |].
  unfold holds in *. cbn in *. rewrite <- Hkb. by apply inv_retain.
Qed.

Lemma event_status_call ev : call_ok (EventStatus ev).
Proof.
  intros e s H Hh Hn. cbn [exec needs] in *. unfold xrp_event_status.
  destruct (live s H KEvent ev Hh) as (c & Hp & Hk); [apply Hn; by left |]. rewrite Hp. cbn [mbind option_bind].
  destruct (c_obj c); try done. by exists s, H.
Qed.

Lemma buffer_info_call b info sz : call_ok (BufferInfo b info sz).
Proof.
  intros e s H Hh Hn. cbn [exec needs] in *. unfold xrp_buffer_get_info.
  destruct (live s H KBuffer b Hh) as (c & Hp & Hk); [apply Hn; by left |]. rewrite Hp. cbn [mbind option_bind].
  destruct (c_obj c); try done. by exists s, H.
Qed.

Lemma group_info_call g info idx sz : call_ok (GroupInfo g info idx sz).
Proof.
  intros e s H Hh Hn. cbn [exec needs] in *. unfold xrp_buffer_group_get_info.
  destruct (live s H KGroup g Hh) as (c & Hp & Hk); [apply Hn; by left |]. rewrite Hp. cbn [mbind option_bind].
  destruct (c_obj c); try done. by exists s, H.
Qed.

Lemma create_queue_call mem d ns : call_ok (CreateQueue mem d ns).
Proof.
  intros e s H Hh Hn. cbn [exec needs] in *. unfold xrp_create_ns_queue.
  destruct d as [d |]; [| by exists s, H]. destruct mem; [| by exists s, H].
  destruct (holds_retain [] s H KDevice d Hh) as (s1 & -> & _ & Hh1 & _); [apply Hn; by left |].
  cbn [mbind option_bind]. destruct (alloc_refcounted s1 (Queue d ns [])) as [s' q] eqn:E.
  exists s', ((KQueue, q) :: H). split; [done |]. by apply (holds_alloc s1 H (Queue d ns [])).
Qed.

Lemma add_buffer_call realloc g b fl : call_ok (AddBuffer realloc g b fl).
Proof.
  intros e s H Hh Hn. cbn [exec needs] in *. unfold xrp_add_buffer_to_group.
  destruct (live s H KGroup g Hh) as (c & Hp & Hk); [apply Hn; by left |]. rewrite Hp. cbn [mbind option_bind].
  destruct (live s H KBuffer b Hh) as (cb & Hpb & Hkb); [apply Hn; right; by left |].
  destruct (c_obj c) as [| | cap l | |] eqn:Eo; try done. destruct (_ && _); [by exists s, H |].
  destruct (holds_retain [] s H KBuffer b Hh) as (s1 & -> & _ & Hh1 & Hsame & _); [apply Hn; right; by left |].
  cbn [mbind option_bind]. eexists _, H. split; [done |]. cbn [fst].
  apply (holds_set [] s1 [(KBuffer, b)] [] H g c); rewrite ?Eo; [done | | set_solver | done | | | done].
  - rewrite Hsame; [done |]. intros ->. simplify_eq. by rewrite Eo in Hkb.
  - cbn. rewrite fmap_app, app_nil_r. done.
  - by intros e' ?%not_elem_of_nil.
Qed.

Lemma set_buffer_call g i b fl : call_ok (SetBuffer g i b fl).
Proof.
  intros e s H Hh Hn. cbn [exec needs] in *. unfold xrp_set_buffer_in_group.
  destruct (holds_retain [] s H KBuffer b Hh) as (s1 & -> & _ & Hh1 & _); [apply Hn; right; by left |].
  cbn [mbind option_bind]. destruct (live s1 _ KGroup g Hh1) as (c & Hp & Hk); [right; apply Hn; by left |].
  rewrite Hp. cbn [mbind option_bind]. destruct (c_obj c) as [| | cap l | |] eqn:Eo; try done.
  destruct (l !! i) as [[old fl'] |] eqn:Ei.
  - set (s2 := set_obj _ _ _). assert (holds [] s2 ((KBuffer, old) :: H)) as Hh2.
    { apply (holds_set [] s1 [(KBuffer, b)] [(KBuffer, old)] H g c); rewrite ?Eo;
        [done | done | set_solver | done | | by intros e' ?%not_elem_of_nil | done].
      cbn [obj_refs native_counted native_refs]. apply (fmap_insert_perm l i (old, fl') (b, fl) Ei). }
    destruct (release_buffer_ok e [] s2 H old Hh2) as (s3 & st & -> & _ & Hh3). cbn [mbind option_bind].
    eexists _, H. split; [done |]. by apply ignore_ok.
  - destruct (release_buffer_ok e [] s1 H b Hh1) as (s3 & st & -> & _ & Hh3). cbn [mbind option_bind].
    eexists _, H. split; [done |]. by apply ignore_ok.
Qed.

(** A request, with the references it holds in hand, goes into a queue. *)
Lemma enqueue_ok s H q r :
  holds [] s (request_refs r ++ H) → (KQueue, q) ∈ H →
  (∀ ev, r_event r = Some ev → ∃ c st, hp s !! ev = Some c ∧ c_obj c = Event q st) →
  ∃ c d ns rqs, hp s !! q = Some c ∧ c_obj c = Queue d ns rqs ∧
    holds [] (set_obj s q (Queue d ns (rqs ++ [r]))) H.
Proof.
  intros Hh Hq Hev. destruct (live s _ KQueue q Hh) as (c & Hp & Hk); [set_solver |].
  destruct (c_obj c) as [| | | d ns rqs |] eqn:Eo; try done. exists c, d, ns, rqs. split_and!; [done | done |].
  apply (holds_set [] s (request_refs r) [] H q c); rewrite ?Eo; [done | done | set_solver | done | | | done].
  - cbn [obj_refs native_counted native_refs]. rewrite bind_app, app_nil_r. cbn. by rewrite app_nil_r.
  - intros ev. cbn [waits native_counted native_waits]. rewrite omap_app. intros [Hr | Hr]%elem_of_app.
    + apply (i_link _ _ Hh q c ev Hp). by rewrite Eo.
    + cbn in Hr. destruct (r_event r) as [ev' |] eqn:Er; [| by apply not_elem_of_nil in Hr].
      apply list_elem_of_singleton in Hr as ->. destruct (Hev ev' eq_refl) as (c' & st & Hc & Ho).
      exists c'. by rewrite Ho.
Qed.

Lemma enqueue_event_ok s H q (evt : bool) :
  holds [] s H → (KQueue, q) ∈ H →
  ∃ s' ev, (if evt then
              s ← retain_refcounted s q;
              let '(s, ev) := alloc_refcounted s (Event q XRP_STATUS_PENDING) in
              s ← retain_refcounted s ev; Some (s, Some ev)
            else Some (s, None)) = Some (s', ev) ∧
    let refs := match ev with Some ev => [(KEvent, ev)] | None => [] end in
    holds [] s' (refs ++ refs ++ H) ∧
    (∀ e, ev = Some e → ∃ c st, hp s' !! e = Some c ∧ c_obj c = Event q st).
Proof.
  intros Hh Hq. destruct evt; [| by exists s, None].
  destruct (holds_retain [] s H KQueue q Hh Hq) as (s1 & -> & _ & Hh1 & _). cbn [mbind option_bind].
  destruct (alloc_refcounted s1 (Event q XRP_STATUS_PENDING)) as [s2 ev] eqn:E.
  assert (hp s2 !! ev = Some (mk_cell 1 (Event q XRP_STATUS_PENDING))) as He
    by (injection E as <- <-; cbn; by rewrite lookup_insert_eq).
  apply (holds_alloc s1 H (Event q XRP_STATUS_PENDING) KEvent) in E; [| done | done | done].
  destruct (holds_retain [] s2 _ KEvent ev E) as (s3 & -> & _ & Hh3 & _ & Hc); [by left |]. cbn [mbind option_bind].
  exists s3, (Some ev). split_and!; [done | done |]. intros ? [= <-]. eexists _, _. split; [by apply Hc | done].
Qed.

Lemma enqueue_command_call mem emem q in_data out_data out_size group evt :
  call_ok (EnqueueCommand mem emem q in_data out_data out_size group evt).
Proof.
  intros e s H Hh Hn. cbn [exec needs] in *. unfold xrp_enqueue_command.
  destruct (_ || _); [by exists s, H |]. assert ((KQueue, q) ∈ H) as Hq by (apply Hn; by left).
  destruct (enqueue_event_ok s H q evt Hh Hq) as (s1 & ev & -> & Hh1 & Hev). cbn [mbind option_bind].
  set (refs := match ev with Some ev => [(KEvent, ev)] | None => [] end) in *.
  set (r := mk_request in_data out_data out_size group ev).
  assert (∃ s2, match group with Some g => retain_refcounted s1 g | None => Some s1 end = Some s2 ∧
            holds [] s2 (request_refs r ++ refs ++ H) ∧
            (∀ e, ev = Some e → ∃ c st, hp s2 !! e = Some c ∧ c_obj c = Event q st)) as (s2 & -> & Hh2 & Hev2).
  { unfold request_refs. cbn. destruct group as [g |]; [| by exists s1].
    destruct (holds_retain [] s1 _ KGroup g Hh1) as (s2 & -> & _ & Hh2 & Hsame & _);
      [do 2 (apply elem_of_app; right); apply Hn; right; by left |].
    exists s2. split_and!; [done | done |]. intros ev' Ee. destruct (Hev ev' Ee) as (c & st & Hc & Ho).
    exists c, st. split; [| done]. rewrite Hsame; [done |]. intros ->.
    destruct (live s1 _ KGroup g Hh1) as (c' & Hc' & Hk); [do 2 (apply elem_of_app; right); apply Hn; right; by left |].
    simplify_eq. by rewrite Ho in Hk. }
  cbn [mbind option_bind].
  destruct (enqueue_ok s2 (refs ++ H) q r Hh2) as (c & d & ns & rqs & -> & Ho & Hh3); [set_solver | done |].
  cbn [mbind option_bind]. rewrite Ho. eexists _, _. split; [done |]. cbn. unfold refs in Hh3. by destruct ev.
Qed.

(** ** Every step keeps the invariant *)

Lemma all_calls_ok c : call_ok c.
Proof.
  destruct c; auto using open_device_call, retain_call, release_call, create_buffer_call, map_buffer_call,
    unmap_buffer_call, create_group_call, add_buffer_call, set_buffer_call, get_buffer_call, create_queue_call,
    enqueue_command_call, buffer_info_call, group_info_call, event_status_call.
Qed.

Lemma worker_ok e s H q c :
  holds [] s H → hp s !! q = Some c → kind_of (c_obj c) = KQueue →
  ∃ x, xrp_queue_process e s q = Some x ∧ ∀ s', x = Some s' → holds [] s' H.
Proof.
  intros Hh Hp Hk. unfold xrp_queue_process. rewrite Hp. cbn [mbind option_bind].
  destruct (c_obj c) as [| | | d ns rqs |] eqn:Eo; try done. destruct rqs as [| r rqs]; [by eexists |].
  set (s1 := set_obj _ _ _). assert (holds [] s1 (request_refs r ++ H)) as Hh1.
  { apply (holds_set [] s [] (request_refs r) H q c); rewrite ?Eo; [done | done | set_solver | done | | | done].
    - cbn. rewrite app_nil_r. apply perm_skip. apply Permutation_app_comm.
    - intros ev Hr. apply (i_link _ _ Hh q c ev Hp). rewrite Eo. cbn. destruct (r_event r); [by right | done]. }
  assert (hp s1 !! q = Some (mk_cell (c_count c) (Queue d ns rqs))) as Hq1
    by (cbn; by rewrite lookup_alter_eq, Hp).
  destruct (holds_inner [] s1 _ q _ KDevice d Hh1 Hq1) as (cd & Hd & Hkd); [set_solver | by left |].
  unfold request_refs in Hh1. rewrite <- app_assoc in Hh1. fold (group_refs r) in Hh1.
  destruct (run_command_ok e [] s1 _ d cd ns r Hh1 Hd Hkd) as [st ->]. cbn [mbind option_bind].
  destruct (release_request_group_ok e [] s1 _ r Hh1) as (s2 & -> & _ & Hh2). cbn [mbind option_bind].
  destruct (r_event r) as [ev |]; [| eexists; split; [done |]; by intros ? [= <-]].
  destruct (live s2 _ KEvent ev Hh2) as (ce & Hce & Hke); [by left |]. rewrite Hce. cbn [mbind option_bind].
  destruct (c_obj ce) as [| | | | q' st'] eqn:Ee; try done.
  set (s3 := set_obj _ _ _). assert (holds [] s3 ((KEvent, ev) :: H)) as Hh3.
  { eapply holds_update; [done | done | set_solver | ..]; by rewrite ?Ee. }
  destruct (release_event_ok e true [] s3 H ev Hh3) as (s4 & st4 & -> & _ & Hh4). cbn [mbind option_bind].
  eexists. split; [done |]. intros ? [= <-]. by apply ignore_ok.
Qed.

Lemma step_ok x y : holds [] x.1 x.2 → step x y → holds [] y.1 y.2.
Proof.
  intros Hh Hs. destruct Hs as [e c s H s' H' Hn E | e q s H s' E]; cbn in *.
  - destruct (all_calls_ok c e s H Hh Hn) as (s1 & H1 & E1 & Hh1). by simplify_eq.
  - assert (∃ c, hp s !! q = Some c ∧ kind_of (c_obj c) = KQueue) as (c & Hp & Hk).
    { unfold xrp_queue_process in E. destruct (hp s !! q) as [c |] eqn:Hp; [| done]. exists c. split; [done |].
      cbn in E. by destruct (c_obj c). }
    destruct (worker_ok e s H q c Hh Hp Hk) as (z & E1 & Hz). simplify_eq. by apply Hz.
Qed.

Lemma reachable_ok s H : rtc step initial (s, H) → holds [] s H.
Proof.
  intros Hr. change (holds [] (s, H).1 (s, H).2). remember initial as x eqn:Ex. assert (holds [] x.1 x.2) as Hx
    by (subst; apply empty_ok). clear Ex. induction Hr as [| x y z Hs _ IH]; [done |].
  apply IH. by eapply step_ok.
Qed.
