(* ===== verification/NativeLost.v ===== *)
(** * References the Linux library loses (xrp-linux-native/xrp_linux_native.c)

    The store keeps references that code paths drop without decrementing a
    count.  When [close] and [XRP_IOCTL_FREE] succeed there is one such path:
    a worker that gives up the last reference to its own queue leaves the
    requests in it behind. *)

From stdpp Require Import base tactics list gmap fin_maps numbers.
From S2P Require Import Prelude DspNs RefHeap Native NativeRefs NativeClient.

(** The system calls behind a release succeed. *)
Definition releasing_works (e : env) : Prop := close_ok e = true ∧ free_ok e = true.

(** ** Functions on counts lose nothing *)

Lemma release_lost (s : store) p s' : release_refcounted s p = Some s' → lost s' = lost s.
Proof. unfold release_refcounted. intros H. unbind H. by injection H as <-. Qed.
Lemma retain_lost (s : store) p s' : retain_refcounted s p = Some s' → lost s' = lost s.
Proof. unfold retain_refcounted. intros H. unbind H. by injection H as <-. Qed.
Lemma alloc_lost (s : store) (o : obj) s' p : alloc_refcounted s o = (s', p) → lost s' = lost s.
Proof. by intros [= <- _]. Qed.
Lemma ignore_lost r (s : store) (x : store * xrp_status) : x.2 = XRP_STATUS_SUCCESS ∧ lost x.1 = lost s → lost (ignore r x) = lost s.
Proof. intros [E1 E2]. unfold ignore. by rewrite decide_True. Qed.

Lemma ignore_keeps_lost r (x : store * xrp_status) : x.2 = XRP_STATUS_SUCCESS → lost (ignore r x) = lost x.1.
Proof. intros E. unfold ignore. by rewrite decide_True. Qed.

(** The end of a release. *)
Lemma finish_lost (s0 s : store) p (x : store * xrp_status) :
  (s1 ← release_refcounted s p; Some (s1, XRP_STATUS_SUCCESS)) = Some x → lost s = lost s0 →
  x.2 = XRP_STATUS_SUCCESS ∧ lost x.1 = lost s0.
Proof. intros H E. unbind H. injection H as <-. split; [done |]. cbn. rewrite <- E. by eapply release_lost. Qed.

Section lost.
Context (e : env) (He : releasing_works e).

(** ** Releases of a client *)

Lemma release_device_lost s d x : xrp_release_device e s d = Some x → x.2 = XRP_STATUS_SUCCESS ∧ lost x.1 = lost s.
Proof.
  unfold xrp_release_device, release_device_tested. intros H. unbind H. rewrite (proj1 He), andb_false_r in H. by eapply finish_lost.
Qed.

Lemma release_buffer_lost s b x : xrp_release_buffer e s b = Some x → x.2 = XRP_STATUS_SUCCESS ∧ lost x.1 = lost s.
Proof.
  unfold xrp_release_buffer, release_buffer_tested. rewrite tested_eq. intros H. unbind H.
  destruct (c_obj _) as [| dev ptr sz mc mf | | |]; try done.
  destruct (_ =? 1); [destruct dev as [d |] |]; try by eapply finish_lost.
  unbind H. rewrite (proj2 He) in H. apply bind_Some in H as (y & E1 & H).
  eapply finish_lost; [exact H |]. apply ignore_lost. by eapply release_device_lost.
Qed.

Lemma release_records_lost s l s' : release_records e s l = Some s' → lost s' = lost s.
Proof.
  revert s. induction l as [| [b fl] l IH]; cbn [release_records]; intros s H; [by injection H as <- |].
  unbind H. rewrite (IH _ H). apply ignore_lost. by eapply release_buffer_lost.
Qed.

Lemma release_group_lost s g x : xrp_release_buffer_group e s g = Some x → x.2 = XRP_STATUS_SUCCESS ∧ lost x.1 = lost s.
Proof.
  unfold xrp_release_buffer_group, release_group_tested. rewrite tested_eq. intros H. unbind H. destruct (c_obj _); try done.
  apply bind_Some in H as (s1 & E1 & H). eapply finish_lost; [exact H |].
  destruct (_ =? 1); [by eapply release_records_lost | by injection E1 as <-].
Qed.

Lemma release_request_group_lost s r s' : release_request_group e s r = Some s' → lost s' = lost s.
Proof.
  unfold release_request_group. destruct (r_buffer_group r); [| by intros [= <-]].
  intros H. unbind H. injection H as <-. by eapply release_group_lost.
Qed.

Lemma drain_lost s d ns rqs s' : drain e s d ns rqs = Some s' → lost s' = lost s.
Proof.
  revert s. induction rqs as [| r rqs IH]; cbn [drain]; intros s H; [by injection H as <- |].
  destruct (r_event r); [done |]. unbind H. rewrite (IH _ H). by eapply release_request_group_lost.
Qed.

Lemma release_queue_lost self s q x :
  xrp_release_queue e self s q = Some x →
  x.2 = XRP_STATUS_SUCCESS ∧ (lost x.1 = lost s ∨ self = true ∧
    ∃ c d ns rqs, hp s !! q = Some c ∧ c_count c = 1 ∧ c_obj c = Queue d ns rqs ∧ lost x.1 = (rqs ≫= request_refs) ++ lost s).
Proof.
  unfold xrp_release_queue, release_queue_tested. rewrite tested_eq. intros H. apply bind_Some in H as (c & Hc & H).
  destruct (c_obj c) as [| | | d ns rqs |] eqn:Eo; try done. destruct (Z.eqb_spec (c_count c) 1) as [E1 |].
  - destruct self; cbn [mbind option_bind] in H.
    + apply bind_Some in H as (y & Ey & H). apply release_device_lost in Ey as [Es El]. rewrite decide_True in H by done.
      unbind H. injection H as <-. split; [done |]. right. split; [done |]. exists c, d, ns, rqs. split_and!; [done.. |].
      cbn. f_equal. rewrite <- El. by eapply release_lost.
    + apply bind_Some in H as (s1 & E2 & H). unbind E2. injection E2 as <-. apply bind_Some in H as (y & Ey & H).
      apply release_device_lost in Ey as [Es El]. rewrite decide_True in H by done. unbind H. injection H as <-.
      split; [done |]. left. cbn. rewrite <- (drain_lost _ _ _ _ _ E). etrans; [by eapply release_lost | exact El].
  - destruct (finish_lost s s q x H eq_refl). auto.
Qed.

Lemma release_event_lost self s ev x :
  xrp_release_event e self s ev = Some x →
  x.2 = XRP_STATUS_SUCCESS ∧ (lost x.1 = lost s ∨ self = true ∧
    ∃ c q st cq d ns rqs, hp s !! ev = Some c ∧ c_obj c = Event q st ∧ hp s !! q = Some cq ∧ c_count cq = 1 ∧
      c_obj cq = Queue d ns rqs ∧ lost x.1 = (rqs ≫= request_refs) ++ lost s).
Proof.
  unfold xrp_release_event, release_event_tested. rewrite tested_eq. intros H. apply bind_Some in H as (c & Hc & H).
  destruct (c_obj c) as [| | | | q st] eqn:Eo; try done. destruct (_ =? 1).
  - apply bind_Some in H as (y & Ey & H). apply release_queue_lost in Ey as [Es El]. rewrite decide_True in H by done.
    unbind H. injection H as <-. split; [done |]. cbn. rewrite (release_lost _ _ _ E).
    destruct El as [El | (Hself & cq & d & ns & rqs & ? & ? & ? & ?)]; [by left | right].
    split; [done |]. by exists c, q, st, cq, d, ns, rqs.
  - destruct (finish_lost s s ev x H eq_refl). auto.
Qed.

(** ** Calls and rounds *)

Lemma xrp_release_lost s r x : xrp_release e s r = Some x → lost x.1 = lost s.
Proof.
  unfold xrp_release. destruct r as [[] p]; cbn [fst snd]; intros H.
  - by eapply release_device_lost.
  - by eapply release_buffer_lost.
  - by eapply release_group_lost.
  - by destruct (release_queue_lost _ _ _ _ H) as [_ [? | [? _]]].
  - by destruct (release_event_lost _ _ _ _ H) as [_ [? | [? _]]].
Qed.

Lemma create_buffer_lost mem ioctl s d size ptr x : xrp_create_buffer e mem ioctl s d size ptr = Some x → lost x.1 = lost s.
Proof.
  unfold xrp_create_buffer. destruct ptr as [ptr |]; [| destruct d as [d |]]; [destruct mem | destruct mem | ]; intros H; simplify_eq/=; try done.
  unbind H. apply retain_lost in E. destruct ioctl; [by simplify_eq/= |]. unbind H. simplify_eq/=. rewrite <- E.
  apply ignore_lost. by eapply release_device_lost.
Qed.

Lemma set_buffer_lost s g i b fl x : xrp_set_buffer_in_group e s g i b fl = Some x → lost x.1 = lost s.
Proof.
  unfold xrp_set_buffer_in_group. intros H. unbind H. apply retain_lost in E. destruct (c_obj _) as [| | cap l | |]; try done.
  destruct (l !! i) as [[old ?] |]; apply bind_Some in H as (y & Ey & H); simplify_eq/=; rewrite <- E; apply ignore_lost;
    exact (release_buffer_lost _ _ _ Ey).
Qed.

Lemma enqueue_lost mem emem s q in_data out_data out_size group evt x :
  xrp_enqueue_command mem emem s q in_data out_data out_size group evt = Some x → lost x.1.1 = lost s.
Proof.
  unfold xrp_enqueue_command. destruct (_ || _); [by intros [= <-] |]. intros H.
  apply bind_Some in H as ([s1 ev] & E1 & H). apply bind_Some in H as (s2 & E2 & H). unbind H. destruct (c_obj _); try done. simplify_eq/=.
  assert (lost s1 = lost s) as <-.
  { destruct evt; [| by simplify_eq]. apply bind_Some in E1 as (s3 & E3 & E1). cbn in E1. unbind E1. simplify_eq.
    repeat match goal with H : retain_refcounted _ _ = Some _ |- _ => apply retain_lost in H end. cbn in *. congruence. }
  destruct group; [by eapply retain_lost | by simplify_eq].
Qed.

(** No call of a client loses a reference. *)
Lemma exec_lost s H c s' H' : exec e s H c = Some (s', H') → lost s' = lost s.
Proof.
  destruct c; cbn [exec]; intros E; try (apply bind_Some in E as (x & E1 & E)); unfold gain, drop_on_success in E; simplify_eq/=; try done.
  - unfold xrp_open_device. destruct fd; [| done]. by destruct mem.
  - rewrite xrp_retain_eq in E1. by eapply retain_lost.
  - by eapply xrp_release_lost.
  - by eapply create_buffer_lost.
  - unfold xrp_map_buffer in E1. unbind E1. destruct (c_obj _); try done. destruct (_ && _); [| by simplify_eq].
    unbind E1. simplify_eq/=. by eapply retain_lost.
  - unfold xrp_unmap_buffer in E1. unbind E1. destruct (c_obj _); try done. destruct (_ && _); [| by simplify_eq].
    apply release_buffer_lost in E1 as [_ ->]. done.
  - by destruct mem.
  - unfold xrp_add_buffer_to_group in E1. unbind E1. destruct (c_obj _); try done. destruct (_ && _); [by simplify_eq |].
    unbind E1. simplify_eq/=. by eapply retain_lost.
  - by eapply set_buffer_lost.
  - unfold xrp_get_buffer_from_group in E1. unbind E1. destruct (c_obj _) as [| | cap l | |]; try done.
    destruct (l !! idx) as [[] |]; [| by simplify_eq]. unbind E1. simplify_eq/=. by eapply retain_lost.
  - unfold xrp_create_ns_queue in E1. destruct device; [| by simplify_eq]. destruct mem; [| by simplify_eq].
    unbind E1. simplify_eq/=. by eapply retain_lost.
  - by eapply enqueue_lost.
Qed.

End lost.
