(* ===== verification/NativeTheorems.v ===== *)
(** * What the Linux library guarantees its clients

    The properties of xrp-linux-native/xrp_linux_native.c over all runs of a
    client: memory safety, exact counts, no leak, completion of commands; what
    two releases that overlap do to a queue; then what a run can lose, as
    examples. *)

From stdpp Require Import base tactics list gmap fin_maps numbers.
From S2P Require Import Prelude DspNs RefHeap Native NativeRefs NativeClient NativeLost.

(** ** Releasing changes counts only *)

#[local] Hint Resolve frames_refl : core.

Lemma release_device_frames e s d x : xrp_release_device e s d = Some x → frames s x.1.
Proof.
  unfold xrp_release_device, release_device_tested. intros H. unbind H. destruct (_ && _); [by injection H as <- |].
  unbind H. injection H as <-. by eapply release_frames.
Qed.

Lemma release_buffer_frames e s b x : xrp_release_buffer e s b = Some x → frames s x.1.
Proof.
  unfold xrp_release_buffer, release_buffer_tested. rewrite tested_eq. intros H. unbind H. destruct (c_obj _) as [| dev ptr sz mc mf | | |]; try done.
  assert (∀ s0, frames s s0 → (s1 ← release_refcounted s0 b; Some (s1, XRP_STATUS_SUCCESS)) = Some x → frames s x.1) as Hend.
  { intros s0 Hf Hx. unbind Hx. injection Hx as <-. eapply frames_trans; [done |]. by eapply release_frames. }
  destruct (_ =? 1); [destruct dev as [d |] |]; [| by eauto | by eauto].
  unbind H. destruct (free_ok e); [| by injection H as <-]. apply bind_Some in H as (y & E1 & H).
  eapply Hend; [| exact H]. apply frames_ignore. by eapply release_device_frames.
Qed.

Lemma release_records_frames e s l s' : release_records e s l = Some s' → frames s s'.
Proof.
  revert s. induction l as [| [b fl] l IH]; cbn [release_records]; intros s H; [by injection H as <- |].
  unbind H. eapply frames_trans; [| by eapply IH]. apply frames_ignore. by eapply release_buffer_frames.
Qed.

Lemma release_group_frames e s g x : xrp_release_buffer_group e s g = Some x → frames s x.1.
Proof.
  unfold xrp_release_buffer_group, release_group_tested. rewrite tested_eq. intros H. unbind H. destruct (c_obj _); try done. unbind H. injection H as <-.
  eapply frames_trans; [| by eapply release_frames]. destruct (_ =? 1); [by eapply release_records_frames |].
  simplify_eq. done.
Qed.

Lemma release_request_group_frames e s r s' : release_request_group e s r = Some s' → frames s s'.
Proof.
  unfold release_request_group. destruct (r_buffer_group r); [| intros [= <-]; done].
  intros H. unbind H. injection H as <-. by eapply release_group_frames.
Qed.

Lemma release_queue_frames e s q x : xrp_release_queue e true s q = Some x → frames s x.1.
Proof.
  unfold xrp_release_queue, release_queue_tested. rewrite tested_eq. intros H. unbind H. destruct (c_obj _); try done. destruct (_ =? 1).
  - cbn [mbind option_bind] in H. apply bind_Some in H as (y & E1 & H). pose proof (release_device_frames _ _ _ _ E1).
    case_decide; [| by injection H as <-]. unbind H. injection H as <-. cbn [fst].
    eapply frames_trans; [done |]. intros p c Hp. eapply release_frames; [done |]. exact Hp.
  - unbind H. injection H as <-. by eapply release_frames.
Qed.

Lemma release_event_frames e s ev x : xrp_release_event e true s ev = Some x → frames s x.1.
Proof.
  unfold xrp_release_event, release_event_tested. rewrite tested_eq. intros H. unbind H. destruct (c_obj _); try done. destruct (_ =? 1).
  - apply bind_Some in H as (y & E1 & H). pose proof (release_queue_frames _ _ _ _ E1).
    case_decide; [| by injection H as <-]. unbind H. injection H as <-. eapply frames_trans; [done |]. by eapply release_frames.
  - unbind H. injection H as <-. by eapply release_frames.
Qed.

(** ** A worker round *)

Lemma run_command_status e s d ns r st :
  _xrp_run_command e s d ns r = Some st → st = XRP_STATUS_SUCCESS ∨ st = XRP_STATUS_FAILURE.
Proof.
  unfold _xrp_run_command. intros H. unbind H. destruct x0 as [bs |]; [| injection H as <-; by right].
  unbind H. destruct (c_obj _); try done. injection H as <-. destruct (queue_ok _ _ _ _ _); auto.
Qed.

(** A round on a queue the client holds: the queue is left with the other
    requests, and an event the client holds has the command's status if it is
    the request's, and its old status otherwise. *)
Lemma worker_round e s H q c d ns r rqs :
  holds [] s H → (KQueue, q) ∈ H → hp s !! q = Some c → c_obj c = Queue d ns (r :: rqs) →
  ∃ s' st, xrp_queue_process e s q = Some (Some s') ∧ holds [] s' H ∧
    _xrp_run_command e (set_obj s q (Queue d ns rqs)) d ns r = Some st ∧
    (∃ c', hp s' !! q = Some c' ∧ c_obj c' = Queue d ns rqs) ∧
    (∀ ev, (KEvent, ev) ∈ H → r_event r = Some ev → xrp_event_status s' ev = Some st) ∧
    (∀ ev, (KEvent, ev) ∈ H → r_event r ≠ Some ev → xrp_event_status s' ev = xrp_event_status s ev).
Proof.
  intros Hh Hq Hp Eo. destruct (worker_ok e s H q c Hh Hp) as (x & E & Hx); [by rewrite Eo |].
  pose proof E as E'. unfold xrp_queue_process in E. rewrite Hp in E. cbn [mbind option_bind] in E. rewrite Eo in E.
  apply bind_Some in E as (st & Est & E). apply bind_Some in E as (s2 & E2 & E).
  set (s1 := set_obj s q (Queue d ns rqs)) in *. pose proof (release_request_group_frames _ _ _ _ E2) as F12.
  assert (∃ s3 s', x = Some s' ∧ frames s3 s' ∧
            (∀ p, r_event r ≠ Some p → hp s3 !! p = hp s2 !! p) ∧
            (∀ ev, r_event r = Some ev → ∃ c2 q', hp s2 !! ev = Some c2 ∧ kind_of (c_obj c2) = KEvent ∧
               hp s3 !! ev = Some (mk_cell (c_count c2) (Event q' st)))) as (s3 & s' & -> & F3 & Hoth & Hev).
  { destruct (r_event r) as [ev |] eqn:Ev; [| injection E as <-; exists s2, s2; split_and!; done].
    apply bind_Some in E as (c2 & Hc2 & E). destruct (c_obj c2) as [| | | | q' st'] eqn:Ee; try done.
    apply bind_Some in E as (y & Ey & E). injection E as <-. eexists _, _. split; [done |]. split_and!.
    - apply frames_ignore. by eapply release_event_frames.
    - intros p Hne. cbn. rewrite lookup_alter_ne; [done |]. congruence.
    - intros ? [= <-]. exists c2, q'. split_and!; [done | by rewrite Ee |]. cbn. by rewrite lookup_alter_eq, Hc2. }
  specialize (Hx s' eq_refl). exists s', st. split_and!; [done | done | done | ..].
  - destruct (live s' H KQueue q Hx Hq) as (c' & Hc' & Hk). exists c'. split; [done |].
    destruct (F3 q c' Hc') as (c3 & Hc3 & E3). rewrite <- E3 in *. destruct (decide (r_event r = Some q)) as [Ev |].
    + destruct (Hev q Ev) as (c2 & q' & Hc2 & Hk2 & Hc3'). rewrite Hc3 in Hc3'. injection Hc3' as ->. done.
    + rewrite Hoth in Hc3 by done. destruct (F12 q c3 Hc3) as (c1 & Hc1 & <-). cbn in Hc1.
      rewrite lookup_alter_eq, Hp in Hc1. cbn in Hc1. by injection Hc1 as <-.
  - intros ev Hin Ev. destruct (live s' H KEvent ev Hx Hin) as (c' & Hc' & Hk). unfold xrp_event_status. rewrite Hc'.
    destruct (F3 ev c' Hc') as (c3 & Hc3 & E3). destruct (Hev ev Ev) as (c2 & q' & _ & _ & Hc3').
    rewrite Hc3 in Hc3'. injection Hc3' as ->. cbn in E3 |- *. by rewrite <- E3.
  - intros ev Hin Ev. destruct (live s' H KEvent ev Hx Hin) as (c' & Hc' & Hk). unfold xrp_event_status. rewrite Hc'.
    destruct (F3 ev c' Hc') as (c3 & Hc3 & E3). rewrite Hoth in Hc3 by done. destruct (F12 ev c3 Hc3) as (c1 & Hc1 & E1).
    assert (ev ≠ q) as Hne by (intros ->; destruct (live s H KEvent q Hh Hin) as (c0 & Hc0 & Hk0); simplify_eq; by rewrite Eo in Hk0).
    cbn in Hc1. rewrite lookup_alter_ne in Hc1 by done. rewrite Hc1. cbn. by rewrite E1, E3.
Qed.

(** A round on a queue loses no reference, unless its worker gives up the
    last reference to the queue; then the references of the requests left in
    it are lost. *)
Lemma worker_lost e s H q c d ns r rqs s' :
  releasing_works e → holds [] s H → hp s !! q = Some c → c_obj c = Queue d ns (r :: rqs) →
  xrp_queue_process e s q = Some (Some s') →
  lost s' = lost s ∨ r_event r ≠ None ∧ lost s' = (rqs ≫= request_refs) ++ lost s.
Proof.
  intros He Hh Hp Eo E. unfold xrp_queue_process in E. rewrite Hp in E. cbn [mbind option_bind] in E. rewrite Eo in E.
  apply bind_Some in E as (st & Est & E). apply bind_Some in E as (s2 & E2 & E).
  pose proof (release_request_group_frames _ _ _ _ E2) as F12. apply release_request_group_lost in E2; [| done]. cbn in E2.
  destruct (r_event r) as [ev |] eqn:Ev; [| injection E as <-; by left].
  destruct (i_link _ _ Hh q c ev Hp) as (ce & Hce & Hoe); [rewrite Eo; cbn; rewrite Ev; by left |].
  change (hp s !! ev = Some ce) in Hce. destruct (c_obj ce) as [| | | | q0 st0] eqn:Ee; try done. injection Hoe as ->.
  apply bind_Some in E as (c2 & Hc2 & E). destruct (c_obj c2) as [| | | | q' st'] eqn:Ee2; try done.
  apply bind_Some in E as ([s4 st4] & E4 & E). injection E as <-.
  destruct (release_event_lost e He _ _ _ _ E4) as [Es [El | (_ & c3 & q3 & st3 & cq & d3 & ns3 & rqs3 & H3 & O3 & Hq3 & _ & Oq3 & El)]];
    (rewrite ignore_keeps_lost by done).
  - left. cbn in El |- *. congruence.
  - right. split; [done |]. cbn in El |- *. rewrite El, E2. f_equal. f_equal.
    assert (ev ≠ q) as Hne by (intros ->; assert (ce = c) as -> by congruence; congruence).
    cbn in H3. rewrite lookup_alter_eq, Hc2 in H3. cbn in H3. injection H3 as <-. cbn in O3. injection O3 as -> _.
    destruct (F12 ev c2 Hc2) as (c5 & Hc5 & E5). cbn in Hc5. rewrite lookup_alter_ne in Hc5 by done.
    assert (c5 = ce) as -> by congruence. rewrite Ee, Ee2 in E5. injection E5 as <- _.
    cbn in Hq3. rewrite lookup_alter_ne in Hq3 by done. destruct (F12 _ _ Hq3) as (c6 & Hc6 & E6).
    cbn in Hc6. rewrite lookup_alter_eq, Hp in Hc6. cbn in Hc6. injection Hc6 as <-. cbn in E6. rewrite Oq3 in E6. by injection E6 as <- <- <-.
Qed.

(** ** Waiting for a command *)

Lemma wait_ok e H q ev d ns r post pre :
  (KQueue, q) ∈ H → (KEvent, ev) ∈ H → r_event r = Some ev → ∀ fuel s c,
  holds [] s H → hp s !! q = Some c → c_obj c = Queue d ns (pre ++ r :: post) → (length pre < fuel)%nat →
  ∃ s' st, xrp_wait fuel e s q ev = Some s' ∧ holds [] s' H ∧ xrp_event_status s' ev = Some st ∧
    st ≠ XRP_STATUS_PENDING.
Proof.
  intros Hq Hev Er. induction pre as [| r' pre IH]; intros fuel s c Hh Hp Eo Hfuel; (destruct fuel as [| fuel]; [lia |]);
    cbn [xrp_wait]; destruct (live s H KEvent ev Hh Hev) as (ce & Hce & Hk); unfold xrp_event_status at 1; rewrite Hce;
    cbn [mbind option_bind]; destruct (c_obj ce) as [| | | | q' st] eqn:Ee; try done; cbn [mbind option_bind]; case_decide as Hst;
    try (exists s, st; split_and!; [done | done | unfold xrp_event_status; rewrite Hce; cbn; by rewrite Ee | done]).
  - destruct (worker_round e s H q c d ns r post Hh Hq Hp Eo) as (s' & st' & -> & Hh' & Est & _ & Hown & _).
    cbn [mbind option_bind]. specialize (Hown ev Hev Er). apply run_command_status in Est.
    exists s', st'. split_and!; [| done | done | by destruct Est as [-> | ->]].
    destruct fuel; cbn [xrp_wait]; rewrite Hown; cbn [mbind option_bind];
      (rewrite decide_False; [done |]; by destruct Est as [-> | ->]).
  - destruct (worker_round e s H q c d ns r' (pre ++ r :: post) Hh Hq Hp Eo)
      as (s' & st' & -> & Hh' & _ & (c' & Hc' & Eo') & _). cbn [mbind option_bind].
    apply (IH fuel s' c'); auto. cbn in Hfuel. lia.
Qed.

(** An enqueued command is the last request of its queue. *)
Lemma enqueue_command_queue s q in_data out_data out_size group s' ev st c d ns rqs :
  xrp_enqueue_command true true s q in_data out_data out_size group true = Some (s', ev, st) →
  hp s !! q = Some c → c_obj c = Queue d ns rqs →
  st = XRP_STATUS_SUCCESS ∧ ∃ e c', ev = Some e ∧ hp s' !! q = Some c' ∧
    c_obj c' = Queue d ns (rqs ++ [mk_request in_data out_data out_size group (Some e)]).
Proof.
  unfold xrp_enqueue_command. cbn [negb orb andb]. intros H Hp Eo.
  apply bind_Some in H as ([s3 ev3] & Ex & H). apply bind_Some in Ex as (s1 & E1 & Ex).
  destruct (alloc_refcounted s1 _) as [s2 e] eqn:E2. apply bind_Some in Ex as (s3' & E3 & Ex). injection Ex as <- <-.
  apply bind_Some in H as (s4 & E4 & H). destruct (retain_keeps_obj _ _ _ q c E1 Hp) as (c1 & Hc1 & O1).
  assert (hp s2 !! q = Some c1) as Hc2.
  { injection E2 as <- <-. cbn. rewrite lookup_insert_ne; [done |]. intros Eq.
    apply (is_fresh (dom (hp s1))). rewrite Eq. apply elem_of_dom. by exists c1. }
  destruct (retain_keeps_obj _ _ _ q c1 E3 Hc2) as (c3 & Hc3 & O3).
  assert (∃ c4, hp s4 !! q = Some c4 ∧ c_obj c4 = c_obj c3) as (c4 & Hc4 & O4).
  { destruct group; [by eapply retain_keeps_obj | injection E4 as <-; eauto]. }
  rewrite Hc4 in H. cbn [mbind option_bind] in H. rewrite O4, O3, O1, Eo in H. injection H as <- <- <-.
  split; [done |]. eexists e, _. split_and!; [done | cbn; by rewrite lookup_alter_eq, Hc4 | done].
Qed.

(** ** The theorems *)

(** C6: along every run of a client, with any outcome of the system calls,
    whose calls and rounds of the worker threads do not overlap in time -
    each release's test for the last reference and its decrement with nothing
    in between; see [overlapping_queue_releases] for what happens otherwise -
    no call whose references the client holds touches a freed object, and
    neither does a round of the worker of any queue. *)
Theorem native_no_use_after_free s H :
  rtc step initial (s, H) →
  (∀ e c, needs c ⊆ H → is_Some (exec e s H c)) ∧
  (∀ e q c, hp s !! q = Some c → kind_of (c_obj c) = KQueue → is_Some (xrp_queue_process e s q)).
Proof.
  intros Hr%reachable_ok. split.
  - intros e c Hn. destruct (all_calls_ok c e s H Hr Hn) as (s' & H' & -> & _). by eexists.
  - intros e q c Hp Hk. destruct (worker_ok e s H q c Hr Hp Hk) as (x & -> & _). by eexists.
Qed.

(** C13: along every such run of a client (calls and worker rounds do not
    overlap) the count of an object is exactly the number of references to
    it, from the client, the other objects, the queued requests and the lost
    references; it is never zero; and every reference of the client is to an
    object of its kind.  References are lost only where [close] or
    [XRP_IOCTL_FREE] fails, or where the worker of a queue gives up the last
    reference to its own queue: then those of the requests left in it. *)
Theorem native_counts_exact s H :
  rtc step initial (s, H) →
  (∀ p c, hp s !! p = Some c →
     c_count c = Z.of_nat (cnt (kind_of (c_obj c), p) (H ++ lost s ++ heap_refs (hp s))) ∧ 0 < c_count c) ∧
  (∀ k p, (k, p) ∈ H → ∃ c, hp s !! p = Some c ∧ kind_of (c_obj c) = k) ∧
  lost initial.1 = [] ∧
  (∀ e c s' H', close_ok e = true → free_ok e = true → exec e s H c = Some (s', H') → lost s' = lost s) ∧
  (∀ e q c d ns r rqs s', close_ok e = true → free_ok e = true → hp s !! q = Some c → c_obj c = Queue d ns (r :: rqs) →
     xrp_queue_process e s q = Some (Some s') →
     lost s' = lost s ∨ r_event r ≠ None ∧ lost s' = (rqs ≫= request_refs) ++ lost s).
Proof.
  intros Hr%reachable_ok. split_and!.
  - intros p c Hp. rewrite app_assoc. by apply (i_count _ _ Hr p c).
  - intros k p Hin. by apply (live s H).
  - done.
  - intros e c s' H' ? ?. by apply exec_lost.
  - intros e q c d ns r rqs s' ? ?. by apply (worker_lost e s H q c d ns r rqs s').
Qed.

(** ** Releases that overlap *)

(** C30: a release tests for the last reference and decrements later, without
    a lock.  When two threads release the same queue, which has a count of
    two, and both test before either decrements, both are told that theirs
    is not the last reference, and both succeed.  Then the queue is freed
    although its worker thread was not stopped - its next round uses freed
    memory - and the reference to the device is never given up: its count
    exceeds the number of references by one for good, and the requests'
    references likewise. *)
Theorem overlapping_queue_releases e self1 self2 s H q c d ns rqs :
  rtc step initial (s, H) → hp s !! q = Some c → c_obj c = Queue d ns rqs → c_count c = 2 →
  ∃ last s1 s2, last_refcount s q = Some last ∧
    release_queue_tested e self1 last s q = Some (s1, XRP_STATUS_SUCCESS) ∧
    release_queue_tested e self2 last s1 q = Some (s2, XRP_STATUS_SUCCESS) ∧
    hp s2 = delete q (hp s) ∧ (∀ e, xrp_queue_process e s2 q = None) ∧
    ∀ k p cp, hp s2 !! p = Some cp → kind_of (c_obj cp) = k → (k, p) ∉ (rqs ≫= request_refs) →
      c_count cp = Z.of_nat (cnt (k, p) (H ++ lost s2 ++ heap_refs (hp s2)) + if decide ((k, p) = (KDevice, d)) then 1 else 0).
Proof.
  intros Hr%reachable_ok Hp Eo E2. exists false.
  set (s1 := set_hp s (<[q := add_count c (-1)]> (hp s))). set (s2 := set_hp s (delete q (hp s))). exists s1, s2.
  assert (∀ e', xrp_queue_process e' s2 q = None) as Hnone.
  { intros e'. unfold xrp_queue_process. cbn. by rewrite lookup_delete_eq. }
  split_and!; [| | | done | done |].
  - unfold last_refcount. rewrite Hp. cbn. by rewrite E2.
  - unfold release_queue_tested, release_refcounted. rewrite Hp. cbn [mbind option_bind]. rewrite Eo, E2. done.
  - unfold release_queue_tested, release_refcounted. cbn [s1 hp set_hp]. rewrite lookup_insert_eq. cbn [mbind option_bind add_count c_obj c_count].
    rewrite Eo, E2. cbn. unfold s2, set_hp. cbn. by rewrite delete_insert_eq.
  - intros k p cp Hcp <- Hno. cbn in Hcp. apply lookup_delete_Some in Hcp as [Hne Hcp].
    destruct (i_count _ _ Hr p cp Hcp) as [E _]. rewrite E. f_equal.
    rewrite <- app_assoc, !cnt_app, (heap_refs_delete (hp s) q c Hp), !cnt_app, Eo. cbn [obj_refs native_counted native_refs s2 hp set_hp lost].
    rewrite cnt_cons. assert (cnt (kind_of (c_obj cp), p) (rqs ≫= request_refs) = 0%nat) as ->.
    { apply Nat.le_0_r, Nat.nlt_ge. intros Hlt. by apply Hno, cnt_elem. }
    repeat case_decide; simplify_eq; try congruence; lia.
Qed.

(** Without queued requests references go down in rank. *)
Definition rank (k : kind) : nat :=
  match k with KDevice => 0 | KBuffer => 1 | KGroup => 2 | KQueue => 3 | KEvent => 4 end.

Lemma obj_refs_rank o k q :
  (∀ d ns rqs, o = Queue d ns rqs → rqs = []) → (k, q) ∈ obj_refs o → (rank k < rank (kind_of o))%nat.
Proof.
  intros Hq. destruct o as [| [d |] | cap l | d ns rqs | q' st]; cbn [obj_refs]; intros Hin.
  - by apply elem_of_nil in Hin.
  - apply list_elem_of_singleton in Hin. injection Hin as -> _. cbn. lia.
  - by apply elem_of_nil in Hin.
  - apply list_elem_of_fmap in Hin as (? & [= -> _] & _). cbn. lia.
  - rewrite (Hq d ns rqs eq_refl) in Hin. apply list_elem_of_singleton in Hin. injection Hin as -> _. cbn. lia.
  - apply list_elem_of_singleton in Hin. injection Hin as -> _. cbn. lia.
Qed.

Lemma unreferenced s n :
  holds [] s [] → lost s = [] →
  (∀ q c d ns rqs, hp s !! q = Some c → c_obj c = Queue d ns rqs → rqs = []) →
  ∀ p c, hp s !! p = Some c → (rank (kind_of (c_obj c)) + n < 5)%nat.
Proof.
  intros Hh Hl Hempty. induction n as [| n IH]; intros p c Hp; [destruct (c_obj c); cbn; lia |].
  destruct (i_count _ _ Hh p c Hp) as [E Hpos]. rewrite Hl in E.
  change (c_count c = Z.of_nat (cnt (kind_of (c_obj c), p) (heap_refs (hp s)))) in E.
  assert ((kind_of (c_obj c), p) ∈ heap_refs (hp s)) as Hin by (apply cnt_elem; lia).
  apply list_elem_of_bind in Hin as ([p' c'] & Hin & Hp'%elem_of_map_to_list). specialize (IH p' c' Hp').
  apply obj_refs_rank in Hin; [cbn in Hin; lia |]. intros d ns rqs. by apply (Hempty p' c').
Qed.

(** When a client has given up all its references, no request is queued
    and no reference was lost on an error path, nothing is left allocated. *)
Theorem native_no_leak s :
  rtc step initial (s, []) → lost s = [] →
  (∀ q c d ns rqs, hp s !! q = Some c → c_obj c = Queue d ns rqs → rqs = []) →
  hp s = ∅.
Proof.
  intros Hr%reachable_ok Hl Hempty. apply map_eq. intros p. rewrite lookup_empty.
  destruct (hp s !! p) as [c |] eqn:Hp; [| done]. pose proof (unreferenced s 5 Hr Hl Hempty p c Hp). lia.
Qed.

(** C24: a synchronous command on a queue the client holds completes once the
    worker has run the requests queued before it and its own, with success
    or failure and never pending, and the client's references are intact. *)
Theorem native_run_command_sync_completes e s H q c d ns rqs in_data out_data out_size group :
  rtc step initial (s, H) →
  needs (EnqueueCommand true true q in_data out_data out_size group true) ⊆ H →
  hp s !! q = Some c → c_obj c = Queue d ns rqs →
  ∃ s' st, xrp_run_command_sync (S (length rqs)) e true true s q in_data out_data out_size group = Some (s', st) ∧
    (st = XRP_STATUS_SUCCESS ∨ st = XRP_STATUS_FAILURE) ∧ holds [] s' H.
Proof.
  intros Hr%reachable_ok Hn Hp Eo. assert ((KQueue, q) ∈ H) as Hq by (apply Hn; by left).
  destruct (all_calls_ok _ e s H Hr Hn) as (s1 & H1 & Ex & Hh1). cbn [exec] in Ex.
  apply bind_Some in Ex as ([[s1' ev'] st'] & En & Ex).
  destruct (enqueue_command_queue _ _ _ _ _ _ _ _ _ _ _ _ _ En Hp Eo) as (-> & ev & c1 & -> & Hc1 & Eo1).
  unfold gain in Ex. cbn in Ex. injection Ex as <- <-. unfold xrp_run_command_sync. rewrite En. cbn [mbind option_bind].
  destruct (wait_ok e ((KEvent, ev) :: H) q ev d ns (mk_request in_data out_data out_size group (Some ev)) [] rqs
    ltac:(by right) ltac:(by left) eq_refl
    (S (length rqs)) s1' c1 Hh1 Hc1 Eo1) as (s2 & st & -> & Hh2 & Est & Hst); [lia |]. cbn [mbind option_bind]. rewrite Est.
  cbn [mbind option_bind]. destruct (release_event_ok e false [] s2 H ev Hh2) as (s3 & st3 & -> & _ & Hh3).
  cbn [mbind option_bind]. eexists _, st. split; [done |]. split; [destruct st; auto; done | by apply ignore_ok].
Qed.

(** A round of the worker of a queue the client holds takes the oldest
    request; an event of the client gets exactly that command's status if it
    is the request's event, and keeps its status otherwise. *)
Theorem native_worker_reports e s H q c d ns r rqs :
  rtc step initial (s, H) → (KQueue, q) ∈ H → hp s !! q = Some c → c_obj c = Queue d ns (r :: rqs) →
  ∃ s' st, xrp_queue_process e s q = Some (Some s') ∧
    _xrp_run_command e (set_obj s q (Queue d ns rqs)) d ns r = Some st ∧
    (∃ c', hp s' !! q = Some c' ∧ c_obj c' = Queue d ns rqs) ∧
    (∀ ev, (KEvent, ev) ∈ H →
       xrp_event_status s' ev = if decide (r_event r = Some ev) then Some st else xrp_event_status s ev).
Proof.
  intros Hr%reachable_ok Hq Hp Eo.
  destruct (worker_round e s H q c d ns r rqs Hr Hq Hp Eo) as (s' & st & E & _ & Est & Hc & Hown & Hoth).
  exists s', st. split_and!; [done | done | done |]. intros ev Hin. case_decide; auto.
Qed.

(** ** Concrete runs *)

Inductive action := Call (c : call) | Worker (q : nat).

Definition act (e : env) (x : store * list ref) (a : action) : option (store * list ref) :=
  match a with
  | Call c => if decide (Forall (.∈ x.2) (needs c)) then exec e x.1 x.2 c else None
  | Worker q => y ← xrp_queue_process e x.1 q; s ← y; Some (s, x.2)
  end.
Definition acts (e : env) (x : store * list ref) (l : list action) : option (store * list ref) :=
  foldl (λ x a, x ← x; act e x a) (Some x) l.

Lemma act_step e x a y : act e x a = Some y → step x y.
Proof.
  destruct x as [s H], y as [s' H'], a as [c | q]; cbn.
  - case_decide as Hn; [| done]. intros E. apply (step_call e c); [| done]. intros r Hr.
    rewrite list.Forall_forall in Hn. by apply Hn.
  - intros E. unbind E. injection E as <- <-. apply (step_worker e q). by simplify_eq.
Qed.

Lemma acts_none e l : foldl (λ x a, x ← x; act e x a) None l = None.
Proof. by induction l. Qed.

Lemma acts_reachable e x l y : acts e x l = Some y → rtc step x y.
Proof.
  unfold acts. revert x. induction l as [| a l IH]; intros x; cbn; [by intros [= ->] |].
  destruct (act e x a) as [z |] eqn:E; [| by rewrite acts_none].
  intros Hl. eapply rtc_l; [by eapply act_step |]. by apply IH.
Qed.

Module NativeExamples.

(** All system calls succeed; commands with two bytes of input are refused. *)
Definition good : env := mk_env true true (λ _ _ r _, negb (length (r_in_data r) =? 2)%nat).

(** A device, a queue, a group of one device buffer, two commands. *)
Definition setup : list action :=
  [ Call (OpenDevice (Some 3) true);                                   (* 0 *)
    Call (CreateQueue true (Some 0%nat) None);                         (* 1 *)
    Call (CreateBuffer true (Some 4096) (Some 0%nat) 64 None);         (* 2 *)
    Call (CreateGroup true);                                           (* 3 *)
    Call (AddBuffer true 3 2 1);
    Call (EnqueueCommand true true 1 [7] 0 0 (Some 3%nat) true);       (* 4 *)
    Call (EnqueueCommand true true 1 [7; 8] 0 0 (Some 3%nat) true) ].  (* 5 *)
Definition teardown : list action :=
  [ Worker 1; Call (Release (KDevice, 0%nat)); Call (Release (KGroup, 3%nat)); Worker 1;
    Call (Release (KBuffer, 2%nat)); Call (Release (KEvent, 4%nat)); Call (Release (KQueue, 1%nat));
    Call (Release (KEvent, 5%nat)) ].
Definition after_setup : store * list ref := default initial (acts good initial setup).
Definition after_all : store * list ref := default initial (acts good initial (setup ++ teardown)).

Lemma after_setup_reachable : rtc step initial (after_setup.1, after_setup.2).
Proof. apply (acts_reachable good _ setup). vm_compute. reflexivity. Qed.
Lemma after_all_reachable : rtc step initial (after_all.1, []).
Proof. apply (acts_reachable good _ (setup ++ teardown)). vm_compute. reflexivity. Qed.

Definition queue_cell : cell obj := default (mk_cell 0 (Device 0)) (hp after_setup.1 !! 1%nat).
Definition pending : list request :=
  [ mk_request [7] 0 0 (Some 3%nat) (Some 4%nat); mk_request [7; 8] 0 0 (Some 3%nat) (Some 5%nat) ].

Lemma native_no_use_after_free_witness :
  is_Some (exec good after_setup.1 after_setup.2 (SetBuffer 3 0 2 2)) ∧
  is_Some (xrp_queue_process good after_setup.1 1).
Proof.
  destruct (native_no_use_after_free after_setup.1 after_setup.2 after_setup_reachable) as [Hcall Hworker]. split.
  - apply Hcall. apply list_subseteq_cons_iff. apply (bool_decide_unpack _). vm_compute. done.
  - apply (Hworker good 1%nat queue_cell); vm_compute; reflexivity.
Defined.

Lemma native_counts_exact_witness :
  Z.of_nat (cnt (KGroup, 3%nat) (after_setup.2 ++ lost after_setup.1 ++ heap_refs (hp after_setup.1))) = 3.
Proof.
  destruct (native_counts_exact after_setup.1 after_setup.2 after_setup_reachable) as (Hcount & _).
  destruct (Hcount 3%nat (mk_cell 3 (Group 4 [(2%nat, 1)]))) as [E _]; [vm_compute; reflexivity |].
  symmetry. exact E.
Defined.

Lemma native_no_leak_witness : hp after_all.1 = ∅.
Proof.
  apply (native_no_leak after_all.1 after_all_reachable); [vm_compute; reflexivity |].
  intros q c d ns rqs Hq. vm_compute in Hq. discriminate.
Defined.

Lemma native_run_command_sync_completes_witness :
  ∃ s' st, xrp_run_command_sync 3 good true true after_setup.1 1 [7] 0 0 (Some 3%nat) = Some (s', st) ∧
    (st = XRP_STATUS_SUCCESS ∨ st = XRP_STATUS_FAILURE) ∧ holds [] s' after_setup.2.
Proof.
  apply (native_run_command_sync_completes good after_setup.1 after_setup.2 1%nat queue_cell 0%nat None pending
    [7] 0 0 (Some 3%nat) after_setup_reachable); [| vm_compute; reflexivity | vm_compute; reflexivity].
  apply list_subseteq_cons_iff. apply (bool_decide_unpack _). vm_compute. done.
Defined.

Lemma native_worker_reports_witness :
  ∃ s' st, xrp_queue_process good after_setup.1 1 = Some (Some s') ∧
    _xrp_run_command good (set_obj after_setup.1 1 (Queue 0 None (tail pending))) 0 None
      (mk_request [7] 0 0 (Some 3%nat) (Some 4%nat)) = Some st ∧
    xrp_event_status s' 4 = Some st ∧ xrp_event_status s' 5 = Some XRP_STATUS_PENDING.
Proof.
  destruct (native_worker_reports good after_setup.1 after_setup.2 1%nat queue_cell 0%nat None
    (mk_request [7] 0 0 (Some 3%nat) (Some 4%nat)) (tail pending) after_setup_reachable)
    as (s' & st & E & Est & _ & Hev);
    [apply (bool_decide_unpack _); vm_compute; done | vm_compute; reflexivity | vm_compute; reflexivity |].
  exists s', st. split_and!; [done | done | |].
  - rewrite Hev by (apply (bool_decide_unpack _); vm_compute; done). reflexivity.
  - rewrite Hev by (apply (bool_decide_unpack _); vm_compute; done). vm_compute. reflexivity.
Defined.

(** A queue with the client's reference and that of an event of which the
    request's reference is given up: the client releases the queue while its
    worker releases the event. *)
Definition racing : list action :=
  [ Call (OpenDevice (Some 3) true); Call (CreateQueue true (Some 0%nat) None);
    Call (EnqueueCommand true true 1 [7] 0 0 None true); Call (Release (KEvent, 2%nat)) ].
Definition before_race : store * list ref := default initial (acts good initial racing).
Lemma before_race_reachable : rtc step initial (before_race.1, before_race.2).
Proof. apply (acts_reachable good _ racing). vm_compute. reflexivity. Qed.

Lemma overlapping_queue_releases_witness :
  ∃ last s1 s2, last_refcount before_race.1 1 = Some last ∧
    release_queue_tested good false last before_race.1 1 = Some (s1, XRP_STATUS_SUCCESS) ∧
    release_queue_tested good true last s1 1 = Some (s2, XRP_STATUS_SUCCESS) ∧
    xrp_queue_process good s2 1 = None ∧ (c_count <$> hp s2 !! 0%nat) = Some 2 ∧
    cnt (KDevice, 0%nat) (before_race.2 ++ lost s2 ++ heap_refs (hp s2)) = 1%nat.
Proof.
  destruct (overlapping_queue_releases good false true before_race.1 before_race.2 1%nat
    (default (mk_cell 0 (Device 0)) (hp before_race.1 !! 1%nat)) 0%nat None
    [mk_request [7] 0 0 None (Some 2%nat)] before_race_reachable)
    as (last & s1 & s2 & E1 & E2 & E3 & Ehp & Ew & Hc); try (vm_compute; reflexivity).
  assert (hp s2 !! 0%nat = Some (mk_cell 2 (Device 3))) as Hd by (rewrite Ehp; vm_compute; reflexivity).
  exists last, s1, s2. split_and!; [done.. | by rewrite Hd |].
  specialize (Hc KDevice 0%nat _ Hd eq_refl). cbn [c_count] in Hc. rewrite decide_True in Hc by done.
  assert ((KDevice, 0%nat) ∉ [mk_request [7] 0 0 None (Some 2%nat)] ≫= request_refs) as Hno
    by (apply (bool_decide_unpack _); vm_compute; done).
  specialize (Hc Hno). lia.
Defined.

(** A worker that drops the last reference to its own queue cannot run the
    requests left in it: a command without an event, enqueued after one with
    an event, is not run and its group is never freed. *)
Example worker_drops_requests :
  let l := [ Call (OpenDevice (Some 3) true); Call (CreateQueue true (Some 0%nat) None); Call (CreateGroup true);
             Call (EnqueueCommand true true 1 [7] 0 0 None true);
             Call (EnqueueCommand true true 1 [7] 0 0 (Some 2%nat) false);
             Call (Release (KQueue, 1%nat)); Call (Release (KEvent, 3%nat)); Worker 1;
             Call (Release (KGroup, 2%nat)); Call (Release (KDevice, 0%nat)) ] in
  (λ x : store * list ref, (lost x.1, c_count <$> hp x.1 !! 2%nat, x.2)) <$> acts good initial l =
  Some ([(KGroup, 2%nat)], Some 1, []).
Proof. vm_compute. reflexivity. Qed.

(** A failed [close] behind the release of a buffer is not reported, and the
    device is left allocated with a count nobody owns. *)
Example ignored_close_failure :
  let bad := mk_env false true (λ _ _ _ _, true) in
  let l := [ Call (OpenDevice (Some 3) true); Call (CreateBuffer true (Some 4096) (Some 0%nat) 64 None);
             Call (Release (KDevice, 0%nat)); Call (Release (KBuffer, 1%nat)) ] in
  (λ x : store * list ref, (lost x.1, c_count <$> hp x.1 !! 0%nat, x.2)) <$> acts bad initial l =
  Some ([(KDevice, 0%nat)], Some 1, []).
Proof. vm_compute. reflexivity. Qed.

End NativeExamples.
