(* ===== verification/SimMem.v ===== *)
(** * The library for the simulator: memory and devices (xrp-linux-sim/xrp_linux_sim.c)

    The simulator shares its memory with the host program through POSIX
    shared memory: every region of the simulated physical address space that
    the device tree lists is mapped into the program.  This file has the
    table of regions and the translation between the two address spaces
    ([p2v], [v2p]), the search for devices in the device tree, and the
    handshake with their firmware.

    The flattened device tree library and the system calls are parameters.
    Memory is that of the host program, by virtual address; the DSP finds
    the same bytes at physical addresses ([dsp_view]).  Reading a table
    entry that was never written, or storing outside the mapped regions, has
    no result. *)

From stdpp Require Import base tactics list gmap numbers strings.
From S2P Require Import Prelude Alloc PrivateAlloc Mem Interface HwSimple.
Open Scope Z_scope.

(** ** Data *)

(** [struct xrp_shmem]: a region; [ptr] is where it is mapped. *)
Record xrp_shmem := mk_shmem {
  sh_start : Z;
  sh_size : Z;
  sh_name : list Z;
  sh_fd : Z;
  sh_ptr : Z;
}.

Record xrp_device_description := mk_description {
  io_base : Z;
  comm_base : Z;
  shared_base : Z;
  shared_size : Z;
  comm_ptr : Z;
  shared_ptr : Z;
  dd_irq_mode : Z;
  dd_irq : Z * Z * Z;
  dd_irq_host_offset : Z;
  shared_pool : option (alloc_state xrp_private_pool);
}.

(** The static variables; an entry of the region table that was never
    written is [None]. *)
Record globals := mk_globals {
  gl_shmem : list (option xrp_shmem);
  gl_description : list xrp_device_description;
  gl_count : nat;
  gl_exit_loc : Z;
}.

Definition description_zero : xrp_device_description :=
  mk_description 0 0 0 0 0 0 0 (0, 0, 0) 0 None.
Definition globals_zero : globals := mk_globals [] (replicate 4 description_zero) 0 0.

(** ** The world *)

(** libfdt: the node after an offset with a given [compatible] value, and
    the value of a property. *)
Record fdt := mk_fdt {
  fdt_node_offset_by_compatible : Z → string → Z;
  fdt_getprop : Z → string → option (list Z);
}.

(** How mapping one region ends. *)
Inductive shm_outcome :=
| ShmOpenFails
| FtruncateFails (fd : Z)
| MmapFails (fd : Z)
| Mapped (fd ptr : Z).

(** [e_snprintf] formats a name with the process id; [e_pool] are the two
    allocations [xrp_init_private_pool] makes for a device; [e_dsp] is what
    its DSP does to memory between the host's looks at it. *)
Record sim_env := mk_sim_env {
  e_fdt : fdt;
  e_malloc : bool;
  e_snprintf : list Z → list Z;
  e_shm : nat → shm_outcome;
  e_pool : nat → bool * option Z;
  e_dsp : nat → list (mem → mem);
}.

(** ** Properties *)

(** The big-endian word at an offset of a property. *)
Definition getprop_u32 (value : list Z) (offset : nat) : option Z :=
  match drop offset value with
  | a :: b :: c :: d :: _ => Some (((a * 256 + b) * 256 + c) * 256 + d)
  | _ => None
  end.

Section sim_mem.
Context `{Arch}.

(** ** Regions *)

Definition MAP_FAILED : Z := ulong (-1).

Fixpoint find_shmem_by_phys (tab : list (option xrp_shmem)) (addr : Z) : option (option xrp_shmem) :=
  match tab with
  | [] => Some None
  | None :: _ => None
  | Some e :: tab =>
      if (sh_start e <=? addr) && (u32 (addr - sh_start e) <? sh_size e) then Some (Some e)
      else find_shmem_by_phys tab addr
  end.

Fixpoint find_shmem_by_virt (tab : list (option xrp_shmem)) (p : Z) : option (option xrp_shmem) :=
  match tab with
  | [] => Some None
  | None :: _ => None
  | Some e :: tab =>
      if (sh_ptr e <=? p) && (ulong (p - sh_ptr e) <? sh_size e) then Some (Some e)
      else find_shmem_by_virt tab p
  end.

(** The null pointer is 0. *)
Definition p2v (tab : list (option xrp_shmem)) (addr : Z) : option Z :=
  e ← find_shmem_by_phys tab addr;
  Some (match e with Some e => ulong (sh_ptr e + addr - sh_start e) | None => 0 end).

Definition v2p (tab : list (option xrp_shmem)) (p : Z) : option Z :=
  e ← find_shmem_by_virt tab p;
  Some (match e with Some e => u32 (sh_start e + p - sh_ptr e) | None => 0 end).

(** [n] bytes at [p] lie in one mapped region. *)
Definition mapped (e : xrp_shmem) : bool :=
  negb (sh_ptr e =? 0) && negb (sh_ptr e =? MAP_FAILED).
Definition accessible (tab : list (option xrp_shmem)) (p n : Z) : bool :=
  existsb (λ e, match e with
                | Some e => mapped e && (sh_ptr e <=? p) && (p + n <=? sh_ptr e + sh_size e)
                | None => false
                end) tab.

Definition xrp_comm_write32 (tab : list (option xrp_shmem)) (m : mem) (addr v : Z) : option mem :=
  if accessible tab addr 4 then Some (store32 m addr (u32 v)) else None.
Definition xrp_comm_read32 (tab : list (option xrp_shmem)) (m : mem) (addr : Z) : option Z :=
  if accessible tab addr 4 then Some (load32 m addr) else None.

(** ** [initialize_shmem] *)

(** A string of the property: its bytes up to the terminating zero. *)
Fixpoint cstring (l : list Z) : option (list Z) :=
  match l with
  | [] => None
  | b :: l => if b =? 0 then Some [] else s ← cstring l; Some (b :: s)
  end.

(** The loop that enlarges the buffer until the name fits; [out] is the
    formatted name. *)
Fixpoint format_name (fuel : nat) (sz : Z) (out : list Z) : option (list Z) :=
  match fuel with
  | O => None
  | S fuel =>
      let rc := Z.of_nat (length out) in
      if rc <? sz then Some out else format_name fuel (rc + 1) out
  end.

(** [n] regions from number [i] on; [names] is the rest of the names. *)
Fixpoint shmem_loop (e : sim_env) (n i : nat) (reg names : list Z) : option (list (option xrp_shmem)) :=
  match n with
  | O => Some []
  | S n =>
      name_fmt ← cstring names;
      name ← format_name 2 (Z.of_nat (length name_fmt) + 4 * 3 + 1) (e_snprintf e name_fmt);
      start ← getprop_u32 reg (8 * i);
      size ← getprop_u32 reg (8 * i + 4);
      let entry fd ptr := Some (mk_shmem start size name fd ptr) in
      match e_shm e i with
      | ShmOpenFails => Some (entry (-1) 0 :: replicate n None)
      | FtruncateFails fd => Some (entry fd 0 :: replicate n None)
      | MmapFails fd => Some (entry fd MAP_FAILED :: replicate n None)
      | Mapped fd ptr =>
          rest ← shmem_loop e n (S i) reg (drop (S (length name_fmt)) names);
          Some (entry fd ptr :: rest)
      end
  end.

Definition initialize_shmem (e : sim_env) (g : globals) : option globals :=
  let offset := fdt_node_offset_by_compatible (e_fdt e) (-1) "cdns,sim-shmem" in
  if offset <? 0 then Some g
  else
    match fdt_getprop (e_fdt e) offset "reg", fdt_getprop (e_fdt e) offset "reg-names" with
    | Some reg, Some names =>
        let n := (length reg / 8)%nat in
        if negb (e_malloc e) then None
        else
          tab ← shmem_loop e n 0 reg names;
          let g := mk_globals tab (gl_description g) (gl_count g) (gl_exit_loc g) in
          match fdt_getprop (e_fdt e) offset "exit-loc" with
          | None => Some g
          | Some reg =>
              loc ← getprop_u32 reg 0;
              Some (mk_globals tab (gl_description g) (gl_count g) loc)
          end
    | _, _ => Some g
    end.

(** ** Interrupts and the handshake *)

Definition xrp_send_device_irq (tab : list (option xrp_shmem)) (d : xrp_device_description) (m : mem)
  : option mem :=
  device_irq ← p2v tab (u32 (io_base d + dd_irq_host_offset d));
  let bit := (dd_irq d).1.2 in
  let raise m :=
    if (0 <=? bit) && (bit <? 32) then xrp_comm_write32 tab m device_irq (Z.shiftl 1 bit) else None in
  if dd_irq_mode d =? XRP_IRQ_EDGE then m ← xrp_comm_write32 tab m device_irq 0; raise m
  else if dd_irq_mode d =? XRP_IRQ_LEVEL then raise m
  else Some m.

(** The table [irq_mode[]]. *)
Definition irq_mode (i : Z) : option Z :=
  if i =? XRP_IRQ_NONE then Some XRP_DSP_SYNC_IRQ_MODE_NONE
  else if i =? XRP_IRQ_LEVEL then Some XRP_DSP_SYNC_IRQ_MODE_LEVEL
  else if i =? XRP_IRQ_EDGE then Some XRP_DSP_SYNC_IRQ_MODE_EDGE
  else None.

(** What [synchronize] writes between its two loops. *)
Definition sync_writes (d : xrp_device_description) : option (list hw_write) :=
  let p := sync_hw_data (comm_ptr d) in
  host_mode ← irq_mode 0;
  device_mode ← irq_mode (dd_irq_mode d);
  Some [(p, u32 (io_base d)); (p + 4, u32 host_mode); (p + 8, 0); (p + 12, 0);
        (p + 16, u32 device_mode); (p + 20, u32 (dd_irq d).1.1); (p + 24, u32 (dd_irq d).1.2);
        (p + 28, u32 (dd_irq d).2); (sync_word (comm_ptr d), XRP_DSP_SYNC_HOST_TO_DSP)].

(** [synchronize], one memory access or interrupt at a time. *)
Inductive sync_pc :=
| SStart                        (* entry *)
| SWake                         (* about to interrupt the device *)
| SReady                        (* first polling loop *)
| SWrite (t : list hw_write)    (* writes left before the second loop *)
| SConfirm                      (* second polling loop *)
| SIrq                          (* about to interrupt the device again *)
| SIdle                         (* about to store XRP_DSP_SYNC_IDLE *)
| SDone.

Definition sync_next (tab : list (option xrp_shmem)) (d : xrp_device_description) (pc : sync_pc) (m : mem)
  : option (sync_pc * mem) :=
  let sync := sync_word (comm_ptr d) in
  match pc with
  | SStart => m ← xrp_comm_write32 tab m sync XRP_DSP_SYNC_START; Some (SWake, m)
  | SWake => m ← xrp_send_device_irq tab d m; Some (SReady, m)
  | SReady =>
      v ← xrp_comm_read32 tab m sync;
      if v =? XRP_DSP_SYNC_DSP_READY then t ← sync_writes d; Some (SWrite t, m) else Some (SReady, m)
  | SWrite [] => Some (SConfirm, m)
  | SWrite (w :: t) =>
      if accessible tab w.1 4 then Some (match t with [] => SConfirm | _ => SWrite t end, apply_write m w)
      else None
  | SConfirm =>
      v ← xrp_comm_read32 tab m sync;
      Some (if v =? XRP_DSP_SYNC_DSP_TO_HOST then SIrq else SConfirm, m)
  | SIrq => m ← xrp_send_device_irq tab d m; Some (SIdle, m)
  | SIdle => m ← xrp_comm_write32 tab m sync XRP_DSP_SYNC_IDLE; Some (SDone, m)
  | SDone => Some (SDone, m)
  end.

(** The whole call, with what the DSP does before each access of the host. *)
Fixpoint sync_run (tab : list (option xrp_shmem)) (d : xrp_device_description) (pc : sync_pc) (m : mem)
    (dsp : list (mem → mem)) : option mem :=
  match pc, dsp with
  | SDone, _ => Some m
  | _, [] => None
  | _, act :: dsp => x ← sync_next tab d pc (act m); sync_run tab d x.1 x.2 dsp
  end.
Definition synchronize (tab : list (option xrp_shmem)) (d : xrp_device_description) (m : mem)
    (dsp : list (mem → mem)) : option mem := sync_run tab d SStart m dsp.

(** ** Devices *)

(** Returns the value of the function and the description it leaves. *)
Definition init_cdns_xrp_common (tab : list (option xrp_shmem)) (pool : bool * option Z)
    (d : xrp_device_description) : option (bool * xrp_device_description) :=
  let set c s p := mk_description (io_base d) (comm_base d) (shared_base d) (shared_size d) c s
                     (dd_irq_mode d) (dd_irq d) (dd_irq_host_offset d) p in
  c ← p2v tab (comm_base d);
  if c =? 0 then Some (false, set c (shared_ptr d) (shared_pool d))
  else
    s ← p2v tab (shared_base d);
    if s =? 0 then Some (false, set c s (shared_pool d))
    else
      Some (true, set c s (match xrp_init_private_pool pool.1 pool.2 (shared_base d) (shared_size d) with
                           | Ok p => Some (mk_alloc_state p ∅)
                           | Err _ => shared_pool d
                           end)).

Definition init_cdns_xrp (e : sim_env) (tab : list (option xrp_shmem)) (pool : bool * option Z) (offset : Z)
    (d : xrp_device_description) : option (bool * xrp_device_description) :=
  match fdt_getprop (e_fdt e) offset "reg" with
  | None => Some (false, d)
  | Some reg =>
      if (length reg <? 24)%nat then Some (false, d)
      else
        io ← getprop_u32 reg 0; comm ← getprop_u32 reg 8;
        base ← getprop_u32 reg 16; size ← getprop_u32 reg 20;
        init_cdns_xrp_common tab pool (mk_description io comm base size 0 0 0 (0, 0, 0) 0 None)
  end.

Definition init_cdns_xrp_v1 (e : sim_env) (tab : list (option xrp_shmem)) (pool : bool * option Z) (offset : Z)
    (d : xrp_device_description) : option (bool * xrp_device_description) :=
  match fdt_getprop (e_fdt e) offset "reg" with
  | None => Some (false, d)
  | Some reg =>
      if (length reg <? 16)%nat then Some (false, d)
      else
        base ← getprop_u32 reg 0; size ← getprop_u32 reg 4; io ← getprop_u32 reg 8;
        init_cdns_xrp_common tab pool
          (mk_description io base (u32 (base + 4096)) (u32 (size - 4096)) 0 0 0 (0, 0, 0) 0 None)
  end.

(** A property of at least [n] bytes. *)
Definition valid_prop (e : sim_env) (offset : Z) (name : string) (n : nat) : option (list Z) :=
  l ← fdt_getprop (e_fdt e) offset name; if (length l <? n)%nat then None else Some l.

Definition init_cdns_xrp_hw_simple_common (e : sim_env) (offset : Z) (d : xrp_device_description)
  : option (bool * xrp_device_description) :=
  match valid_prop e offset "device-irq-mode" 4 with
  | None => Some (true, d)
  | Some p =>
      mode ← getprop_u32 p 0;
      if mode =? 0 then Some (true, d)
      else
        match valid_prop e offset "device-irq" 12 with
        | None => Some (true, d)
        | Some irq =>
            a ← getprop_u32 irq 0; b ← getprop_u32 irq 4; c ← getprop_u32 irq 8;
            off ← match valid_prop e offset "device-irq-host-offset" 4 with
                  | None => Some a
                  | Some l => getprop_u32 l 0
                  end;
            Some (true, mk_description (io_base d) (comm_base d) (shared_base d) (shared_size d) (comm_ptr d)
                          (shared_ptr d) mode (a, b, c) off (shared_pool d))
        end
  end.

Definition and_then (x : option (bool * xrp_device_description))
    (f : xrp_device_description → option (bool * xrp_device_description))
  : option (bool * xrp_device_description) :=
  match x with Some (true, d) => f d | _ => x end.

Definition init_cdns_xrp_hw_simple (e : sim_env) (tab : list (option xrp_shmem)) (pool : bool * option Z)
    (offset : Z) (d : xrp_device_description) : option (bool * xrp_device_description) :=
  and_then (init_cdns_xrp e tab pool offset d) (init_cdns_xrp_hw_simple_common e offset).

Definition init_cdns_xrp_hw_simple_v1 (e : sim_env) (tab : list (option xrp_shmem)) (pool : bool * option Z)
    (offset : Z) (d : xrp_device_description) : option (bool * xrp_device_description) :=
  and_then (init_cdns_xrp_v1 e tab pool offset d) (init_cdns_xrp_hw_simple_common e offset).

(** [struct of_node_match] and [of_match[]]. *)
Definition of_node_match : Type :=
  string * (sim_env → list (option xrp_shmem) → bool * option Z → Z → xrp_device_description →
            option (bool * xrp_device_description)).
Definition of_match : list of_node_match :=
  [("cdns,xrp"%string, init_cdns_xrp);
   ("cdns,xrp,v1"%string, init_cdns_xrp_v1);
   ("cdns,xrp-hw-simple"%string, init_cdns_xrp_hw_simple);
   ("cdns,xrp-hw-simple,v1"%string, init_cdns_xrp_hw_simple_v1)].

(** The size of [reg] a kind of node needs; its initialisation function stores
    to the description once it has found a property of that size. *)
Definition reg_size (compatible : string) : nat :=
  if decide (compatible = "cdns,xrp,v1"%string ∨ compatible = "cdns,xrp-hw-simple,v1"%string) then 16 else 24.
Definition init_stores (e : sim_env) (compatible : string) (offset : Z) : bool :=
  match fdt_getprop (e_fdt e) offset "reg" with None => false | Some reg => (reg_size compatible <=? length reg)%nat end.

(** The search loop: [match] is the rest of [of_match] and [offset] the last
    node found.  The number of devices is not compared with the size of
    [xrp_device_description]: behind the array a node is passed over as long
    as its initialisation does not store, and a store there is undefined.
    [None] is that store, a fault, a handshake that has not ended, or fuel
    that ran out. *)
Fixpoint initialize_loop (fuel : nat) (e : sim_env) (rest : list of_node_match) (offset : Z) (g : globals) (m : mem)
  : option (globals * mem) :=
  match fuel, rest with
  | _, [] => Some (g, m)
  | O, _ => None
  | S fuel, (compatible, init) :: rest' =>
      let offset := fdt_node_offset_by_compatible (e_fdt e) offset compatible in
      if offset <? 0 then initialize_loop fuel e rest' (-1) g m
      else
        let n := gl_count g in
        match gl_description g !! n with
        | None => if init_stores e compatible offset then None else initialize_loop fuel e rest offset g m
        | Some d =>
            r ← init e (gl_shmem g) (e_pool e n) offset d;
            let set (d : xrp_device_description) (k : nat) := mk_globals (gl_shmem g) (<[n := d]> (gl_description g)) k (gl_exit_loc g) in
            match r : bool * xrp_device_description with
            | (false, d) => initialize_loop fuel e rest offset (set d n) m
            | (true, d) =>
                m ← synchronize (gl_shmem g) d m (e_dsp e n);
                initialize_loop fuel e rest offset (set d (S n)) m
            end
        end
  end.

Definition initialize (fuel : nat) (e : sim_env) (g : globals) (m : mem) : option (globals * mem) :=
  g ← initialize_shmem e g; initialize_loop fuel e of_match (-1) g m.

Definition xrp_exit (g : globals) (m : mem) : option mem :=
  exit_loc ← p2v (gl_shmem g) (gl_exit_loc g);
  xrp_comm_write32 (gl_shmem g) m exit_loc 0xff.
End sim_mem.

(** ** Translation *)

Section translation.
Context `{Arch}.

(** A region the operating system mapped, and two that do not overlap. *)
Record region_ok (e : xrp_shmem) : Prop := {
  rg_phys : 0 ≤ sh_start e ∧ sh_start e + sh_size e ≤ 2 ^ 32;
  rg_size : 0 < sh_size e;
  rg_virt : 0 < sh_ptr e ∧ sh_ptr e + sh_size e < 2 ^ long_bits;
}.
Definition apart (e f : xrp_shmem) : Prop :=
  (sh_start e + sh_size e ≤ sh_start f ∨ sh_start f + sh_size f ≤ sh_start e) ∧
  (sh_ptr e + sh_size e ≤ sh_ptr f ∨ sh_ptr f + sh_size f ≤ sh_ptr e).
Definition regions_ok (l : list xrp_shmem) : Prop := Forall region_ok l ∧ ForallOrdPairs apart l.

Definition in_phys (e : xrp_shmem) (a : Z) : Prop := sh_start e ≤ a < sh_start e + sh_size e.
Definition in_virt (e : xrp_shmem) (v : Z) : Prop := sh_ptr e ≤ v < sh_ptr e + sh_size e.

Lemma long_pos : 0 ≤ long_bits.
Proof. destruct long_bits_cases as [-> | ->]; lia. Qed.

Lemma phys_test e a : region_ok e → 0 ≤ a < 2 ^ 32 →
  (sh_start e <=? a) && (u32 (a - sh_start e) <? sh_size e) = bool_decide (in_phys e a).
Proof.
  intros [Hp Hs _] Ha. unfold in_phys. destruct (Z.leb_spec (sh_start e) a); cbn [andb].
  - rewrite u32_small by lia. destruct (Z.ltb_spec (a - sh_start e) (sh_size e)).
    + by rewrite bool_decide_eq_true_2 by lia.
    + by rewrite bool_decide_eq_false_2 by lia.
  - by rewrite bool_decide_eq_false_2 by lia.
Qed.

Lemma virt_test e v : region_ok e → 0 ≤ v < 2 ^ long_bits →
  (sh_ptr e <=? v) && (ulong (v - sh_ptr e) <? sh_size e) = bool_decide (in_virt e v).
Proof.
  intros [_ Hs Hv] Ha. unfold in_virt. destruct (Z.leb_spec (sh_ptr e) v); cbn [andb].
  - rewrite wrap_small by lia. destruct (Z.ltb_spec (v - sh_ptr e) (sh_size e)).
    + by rewrite bool_decide_eq_true_2 by lia.
    + by rewrite bool_decide_eq_false_2 by lia.
  - by rewrite bool_decide_eq_false_2 by lia.
Qed.

Lemma find_phys_ok l e a :
  regions_ok l → e ∈ l → in_phys e a → find_shmem_by_phys (Some <$> l) a = Some (Some e).
Proof.
  intros [Hl Hp] He Ha. induction Hp as [| f l Hf Hp IH]; [by apply not_elem_of_nil in He |].
  apply list.Forall_cons in Hl as [Hfo Hl]. cbn [fmap list_fmap find_shmem_by_phys].
  assert (region_ok e) as [? ? _]
    by (apply elem_of_cons in He as [-> | He]; [done | by apply (proj1 (list.Forall_forall _ _) Hl)]).
  rewrite phys_test by (done || unfold in_phys in Ha; lia).
  apply elem_of_cons in He as [-> | He]; [by rewrite bool_decide_eq_true_2 |].
  rewrite bool_decide_eq_false_2; [by apply IH |].
  destruct (proj1 (list.Forall_forall _ _) Hf e He) as [Hd _]. unfold in_phys in *. lia.
Qed.

Lemma find_phys_none l a :
  Forall region_ok l → 0 ≤ a < 2 ^ 32 → (∀ e, e ∈ l → ¬ in_phys e a) →
  find_shmem_by_phys (Some <$> l) a = Some None.
Proof.
  intros Hl Ha Hn. induction Hl as [| e l He Hl IH]; [done |]. cbn [fmap list_fmap find_shmem_by_phys].
  rewrite phys_test, bool_decide_eq_false_2 by (done || apply Hn; by left).
  apply IH. intros f Hf. apply Hn. by right.
Qed.

Lemma find_virt_ok l e v :
  regions_ok l → e ∈ l → in_virt e v → find_shmem_by_virt (Some <$> l) v = Some (Some e).
Proof.
  intros [Hl Hp] He Ha. induction Hp as [| f l Hf Hp IH]; [by apply not_elem_of_nil in He |].
  apply list.Forall_cons in Hl as [Hfo Hl]. cbn [fmap list_fmap find_shmem_by_virt].
  assert (region_ok e) as [_ ? ?]
    by (apply elem_of_cons in He as [-> | He]; [done | by apply (proj1 (list.Forall_forall _ _) Hl)]).
  rewrite virt_test by (done || unfold in_virt in Ha; lia).
  apply elem_of_cons in He as [-> | He]; [by rewrite bool_decide_eq_true_2 |].
  rewrite bool_decide_eq_false_2; [by apply IH |].
  destruct (proj1 (list.Forall_forall _ _) Hf e He) as [_ Hd]. unfold in_virt in *. lia.
Qed.

Lemma regions_elem l e : regions_ok l → e ∈ l → region_ok e.
Proof. intros [Hl _]. by apply list.Forall_forall. Qed.

Lemma p2v_region l e a :
  regions_ok l → e ∈ l → in_phys e a → p2v (Some <$> l) a = Some (sh_ptr e + (a - sh_start e)).
Proof.
  intros Hl He Ha. unfold p2v. rewrite (find_phys_ok l e a) by done. cbn. f_equal.
  destruct (regions_elem l e Hl He) as [? ? ?]. unfold in_phys in Ha. rewrite wrap_small by lia. lia.
Qed.

Lemma v2p_region l e v :
  regions_ok l → e ∈ l → in_virt e v → v2p (Some <$> l) v = Some (sh_start e + (v - sh_ptr e)).
Proof.
  intros Hl He Hv. unfold v2p. rewrite (find_virt_ok l e v) by done. cbn. f_equal.
  destruct (regions_elem l e Hl He) as [? ? ?]. unfold in_virt in Hv. rewrite u32_small by lia. lia.
Qed.

(** ** Building the table *)

Definition be32 (v : Z) : list Z := [v / 2 ^ 24; v / 2 ^ 16 mod 256; v / 2 ^ 8 mod 256; v mod 256].

Lemma be32_val v : ((v / 2 ^ 24 * 256 + v / 2 ^ 16 mod 256) * 256 + v / 2 ^ 8 mod 256) * 256 + v mod 256 = v.
Proof.
  assert (∀ x, x / 256 * 256 + x mod 256 = x) as Hdm by (intros x; pose proof (Z.div_mod x 256); lia).
  replace (v / 2 ^ 24) with (v / 2 ^ 16 / 256) by (rewrite Z.div_div by lia; done). rewrite Hdm.
  replace (v / 2 ^ 16) with (v / 2 ^ 8 / 256) by (rewrite Z.div_div by lia; done). rewrite Hdm.
  apply Hdm.
Qed.

Definition reg_bytes (l : list xrp_shmem) : list Z := l ≫= λ e, be32 (sh_start e) ++ be32 (sh_size e).
Definition name_bytes (fmts : list (list Z)) : list Z := fmts ≫= λ f, f ++ [0].

Lemma length_reg_bytes l : length (reg_bytes l) = (8 * length l)%nat.
Proof.
  unfold reg_bytes. induction l as [| e l IH]; [done |]. rewrite bind_cons, length_app, IH. cbn. lia.
Qed.

Lemma getprop_reg l i e :
  l !! i = Some e →
  getprop_u32 (reg_bytes l) (8 * i) = Some (sh_start e) ∧ getprop_u32 (reg_bytes l) (8 * i + 4) = Some (sh_size e).
Proof.
  intros Hi. assert (reg_bytes l = reg_bytes (take i l) ++ (be32 (sh_start e) ++ be32 (sh_size e)) ++ reg_bytes (drop (S i) l)) as E.
  { unfold reg_bytes. rewrite <- (take_drop_middle l i e Hi) at 1. by rewrite bind_app, bind_cons. }
  assert (length (reg_bytes (take i l)) = 8 * i)%nat as El.
  { rewrite length_reg_bytes, length_take. apply lookup_lt_Some in Hi. lia. }
  unfold getprop_u32. rewrite E. split.
  - rewrite drop_app_ge, El, Nat.sub_diag by lia. cbn. f_equal. apply be32_val.
  - rewrite drop_app_ge, El by lia. replace (8 * i + 4 - 8 * i)%nat with 4%nat by lia. cbn. f_equal. apply be32_val.
Qed.

Lemma cstring_spec f rest : Forall (λ b, b ≠ 0) f → cstring (f ++ 0 :: rest) = Some f.
Proof.
  induction 1 as [| b f Hb _ IH]; [done |]. cbn [app cstring]. destruct (Z.eqb_spec b 0); [done |]. by rewrite IH.
Qed.

Lemma format_name_ok sz out : format_name 2 sz out = Some out.
Proof.
  cbn. destruct (Z.ltb_spec (Z.of_nat (length out)) sz); [done |].
  by rewrite (proj2 (Z.ltb_lt (Z.of_nat (length out)) (Z.of_nat (length out) + 1))) by lia.
Qed.

(** Every region was mapped, as the list says. *)
Definition mapped_as (e : sim_env) (i : nat) (l : list xrp_shmem) (fmts : list (list Z)) : Prop :=
  Forall (Forall (λ b, b ≠ 0)) fmts ∧ length fmts = length l ∧
  ∀ k r f, l !! k = Some r → fmts !! k = Some f →
    e_shm e (i + k) = Mapped (sh_fd r) (sh_ptr r) ∧ sh_name r = e_snprintf e f.

Lemma shmem_loop_ok e l0 i l fmts :
  drop i l0 = l → mapped_as e i l fmts →
  shmem_loop e (length l) i (reg_bytes l0) (name_bytes fmts) = Some (Some <$> l).
Proof.
  revert i fmts. induction l as [| r l IH]; intros i fmts Hd (Hf & Hl & Hm); [done |].
  destruct fmts as [| f fmts]; [done |]. apply list.Forall_cons in Hf as [Hf0 Hf].
  assert (l0 !! i = Some r) as Hi by (rewrite <- (Nat.add_0_r i), <- lookup_drop, Hd; done).
  assert (name_bytes (f :: fmts) = f ++ 0 :: name_bytes fmts) as ->
    by (unfold name_bytes; by rewrite bind_cons, <- app_assoc).
  cbn [length shmem_loop]. rewrite cstring_spec by done. cbn [mbind option_bind]. rewrite format_name_ok. cbn [mbind option_bind].
  destruct (getprop_reg l0 i r Hi) as [-> ->]. cbn [mbind option_bind].
  destruct (Hm 0%nat r f eq_refl eq_refl) as [Eo En]. rewrite Nat.add_0_r in Eo. rewrite Eo.
  rewrite drop_app_ge by lia. replace (S (length f) - length f)%nat with 1%nat by lia. cbn [drop]. rewrite drop_0.
  rewrite (IH (S i) fmts).
  - cbn [mbind option_bind fmap list_fmap]. rewrite <- En. by destruct r.
  - rewrite <- Nat.add_1_r, <- drop_drop, Hd. done.
  - split_and!; [done | by injection Hl |]. intros k r' f' Hk Hk'.
    replace (S i + k)%nat with (i + S k)%nat by lia. by apply (Hm (S k)).
Qed.

Lemma initialize_shmem_ok e g offset l fmts :
  fdt_node_offset_by_compatible (e_fdt e) (-1) "cdns,sim-shmem" = offset → 0 ≤ offset →
  fdt_getprop (e_fdt e) offset "reg" = Some (reg_bytes l) →
  fdt_getprop (e_fdt e) offset "reg-names" = Some (name_bytes fmts) →
  (∀ p, fdt_getprop (e_fdt e) offset "exit-loc" = Some p → (4 ≤ length p)%nat) →
  e_malloc e = true → mapped_as e 0 l fmts →
  ∃ g', initialize_shmem e g = Some g' ∧ gl_shmem g' = Some <$> l ∧
    gl_description g' = gl_description g ∧ gl_count g' = gl_count g.
Proof.
  intros Eo Ho Er En Ee Em Hm. unfold initialize_shmem. rewrite Eo, Er, En, Em.
  rewrite (proj2 (Z.ltb_ge _ _)) by done. rewrite length_reg_bytes, Nat.mul_comm, Nat.div_mul by done.
  cbn [negb]. rewrite shmem_loop_ok by done. cbn [mbind option_bind].
  destruct (fdt_getprop (e_fdt e) offset "exit-loc") as [p |]; [| by eexists]. specialize (Ee p eq_refl).
  destruct p as [| a [| b [| c [| d p]]]]; cbn in Ee; try lia. by eexists.
Qed.

(** C29: the two address spaces of the simulator.  When the device tree
    lists disjoint regions and the operating system has mapped each of them,
    the table is built in full; [p2v] and [v2p] are then inverse to each
    other on the regions, byte by byte in place, and [p2v] of a physical
    address outside all regions is the null pointer. *)
Theorem sim_translation e g offset l fmts :
  fdt_node_offset_by_compatible (e_fdt e) (-1) "cdns,sim-shmem" = offset → 0 ≤ offset →
  fdt_getprop (e_fdt e) offset "reg" = Some (reg_bytes l) →
  fdt_getprop (e_fdt e) offset "reg-names" = Some (name_bytes fmts) →
  (∀ p, fdt_getprop (e_fdt e) offset "exit-loc" = Some p → (4 ≤ length p)%nat) →
  e_malloc e = true → mapped_as e 0 l fmts → regions_ok l →
  ∃ g', initialize_shmem e g = Some g' ∧ let tab := gl_shmem g' in
    (∀ r a, r ∈ l → in_phys r a → ∃ v, p2v tab a = Some v ∧ in_virt r v ∧ v2p tab v = Some a ∧
       v - sh_ptr r = a - sh_start r) ∧
    (∀ r v, r ∈ l → in_virt r v → ∃ a, v2p tab v = Some a ∧ in_phys r a ∧ p2v tab a = Some v) ∧
    (∀ a, 0 ≤ a < 2 ^ 32 → (∀ r, r ∈ l → ¬ in_phys r a) → p2v tab a = Some 0).
Proof.
  intros Eo Ho Er En Ee Em Hm Hl. destruct (initialize_shmem_ok e g offset l fmts) as (g' & -> & Et & _); try done.
  exists g'. split; [done |]. cbn. rewrite Et. split_and!.
  - intros r a Hr Ha. eexists. split; [by apply p2v_region |]. unfold in_phys in Ha.
    assert (in_virt r (sh_ptr r + (a - sh_start r))) as Hv by (unfold in_virt; lia).
    split; [done |]. split; [| lia]. rewrite (v2p_region l r) by done. f_equal. lia.
  - intros r v Hr Hv. eexists. split; [by apply (v2p_region l r) |]. unfold in_virt in Hv.
    assert (in_phys r (sh_start r + (v - sh_ptr r))) as Ha by (unfold in_phys; lia).
    split; [done |]. rewrite (p2v_region l r) by done. f_equal. lia.
  - intros a Ha Hn. unfold p2v. by rewrite find_phys_none by (done || apply Hl).
Qed.

(** ** One memory, two views *)

(** What the DSP sees: shared bytes at their physical address, and its own
    memory elsewhere. *)
Definition dsp_view (tab : list (option xrp_shmem)) (dsp m : mem) : mem := λ a,
  match p2v tab a with Some v => if v =? 0 then dsp a else m v | None => dsp a end.

(** The program's memory when the DSP has left [w] in its view. *)
Definition host_view (tab : list (option xrp_shmem)) (m w : mem) : mem := λ v,
  match find_shmem_by_virt tab v with
  | Some (Some e) => w (u32 (sh_start e + v - sh_ptr e))
  | _ => m v
  end.

(** [n] bytes of a region, by physical address. *)
Definition inside (r : xrp_shmem) (a : Z) (n : nat) : Prop :=
  sh_start r ≤ a ∧ a + Z.of_nat n ≤ sh_start r + sh_size r.
Definition virt (r : xrp_shmem) (a : Z) : Z := sh_ptr r + (a - sh_start r).

Lemma dsp_view_in l r d m a : regions_ok l → r ∈ l → in_phys r a → dsp_view (Some <$> l) d m a = m (virt r a).
Proof.
  intros Hl Hr Ha. unfold dsp_view. rewrite (p2v_region l r) by done. fold (virt r a).
  destruct (regions_elem l r Hl Hr) as [? ? ?]. unfold in_phys, virt in *.
  by rewrite (proj2 (Z.eqb_neq _ _)) by lia.
Qed.

Lemma host_view_in l r m w a : regions_ok l → r ∈ l → in_phys r a → host_view (Some <$> l) m w (virt r a) = w a.
Proof.
  intros Hl Hr Ha. unfold host_view. destruct (regions_elem l r Hl Hr) as [? ? ?]. unfold in_phys, virt in *.
  rewrite (find_virt_ok l r) by (done || unfold in_virt; lia). f_equal. rewrite u32_small; lia.
Qed.

Lemma host_view_out l m w v :
  regions_ok l → 0 ≤ v < 2 ^ long_bits → (∀ r, r ∈ l → ¬ in_virt r v) → host_view (Some <$> l) m w v = m v.
Proof.
  intros [Hl _] Hv Hn. unfold host_view.
  assert (find_shmem_by_virt (Some <$> l) v = Some None) as ->; [| done].
  induction Hl as [| e l He Hl IH]; [done |]. cbn [fmap list_fmap find_shmem_by_virt].
  rewrite virt_test, bool_decide_eq_false_2 by (done || apply Hn; by left). apply IH. intros. apply Hn. by right.
Qed.

Lemma virt_add r a i : virt r (a + i) = virt r a + i.
Proof. unfold virt. lia. Qed.

Lemma load_dsp_view l r d m a n :
  regions_ok l → r ∈ l → inside r a n → load_bytes (dsp_view (Some <$> l) d m) a n = load_bytes m (virt r a) n.
Proof.
  intros Hl Hr Ha. unfold inside in Ha. apply map_ext_in. intros i Hi%in_seq.
  rewrite (dsp_view_in l r) by (done || unfold in_phys; lia). by rewrite virt_add.
Qed.

Lemma load_host_view l r m w a n :
  regions_ok l → r ∈ l → inside r a n → load_bytes (host_view (Some <$> l) m w) (virt r a) n = load_bytes w a n.
Proof.
  intros Hl Hr Ha. unfold inside in Ha. apply map_ext_in. intros i Hi%in_seq.
  rewrite <- virt_add. rewrite (host_view_in l r) by (done || unfold in_phys; lia). done.
Qed.

Lemma load_host_view_out l m w v n :
  regions_ok l → 0 ≤ v → v + Z.of_nat n ≤ 2 ^ long_bits →
  (∀ r, r ∈ l → v + Z.of_nat n ≤ sh_ptr r ∨ sh_ptr r + sh_size r ≤ v) →
  load_bytes (host_view (Some <$> l) m w) v n = load_bytes m v n.
Proof.
  intros Hl Hv Hn Hd. apply load_bytes_ext. intros x Hx. apply host_view_out; [done | lia |].
  intros r Hr. specialize (Hd r Hr). unfold in_virt. lia.
Qed.

Lemma accessible_in l r a n :
  regions_ok l → r ∈ l → sh_start r ≤ a → a + n ≤ sh_start r + sh_size r →
  accessible (Some <$> l) (virt r a) n = true.
Proof.
  intros Hl Hr Ha Hn. apply existsb_exists. exists (Some r). split.
  - apply list_elem_of_In, list_elem_of_fmap. eauto.
  - destruct (regions_elem l r Hl Hr) as [? ? ?]. unfold mapped, MAP_FAILED, virt.
    assert (ulong (-1) = 2 ^ long_bits - 1) as ->.
    { unfold wrap. destruct long_bits_cases as [-> | ->]; done. }
    rewrite (proj2 (Z.eqb_neq _ _)), (proj2 (Z.eqb_neq _ _)), (proj2 (Z.leb_le _ _)), (proj2 (Z.leb_le _ _)) by lia.
    done.
Qed.

(** ** The search for devices *)

(** libfdt: a search goes forward and ends within the tree. *)
Definition fdt_forward (f : fdt) (size : Z) : Prop :=
  ∀ offset c, -1 ≤ offset → let n := fdt_node_offset_by_compatible f offset c in n < 0 ∨ offset < n < size.

(** A device that was found: its two areas are in the shared memory, and its
    pool, when it could be allocated, is the whole shared area. *)
Definition found (tab : list (option xrp_shmem)) (pool : bool * option Z) (d : xrp_device_description) : Prop :=
  p2v tab (comm_base d) = Some (comm_ptr d) ∧ comm_ptr d ≠ 0 ∧
  p2v tab (shared_base d) = Some (shared_ptr d) ∧ shared_ptr d ≠ 0 ∧
  shared_pool d = match xrp_init_private_pool pool.1 pool.2 (shared_base d) (shared_size d) with
                  | Ok p => Some (mk_alloc_state p ∅)
                  | Err _ => None
                  end.

Lemma init_common_found tab pool d d' :
  shared_pool d = None → init_cdns_xrp_common tab pool d = Some (true, d') → found tab pool d'.
Proof.
  intros Hn. unfold init_cdns_xrp_common. destruct (p2v tab (comm_base d)) as [c |] eqn:Ec; [| done].
  cbn [mbind option_bind]. destruct (Z.eqb_spec c 0); [done |].
  destruct (p2v tab (shared_base d)) as [s |] eqn:Es; [| done]. cbn [mbind option_bind].
  destruct (Z.eqb_spec s 0); [done |]. intros [= <-]. unfold found. cbn. rewrite Hn. by split_and!.
Qed.

Lemma init_simple_found e tab pool offset d ok d' :
  init_cdns_xrp_hw_simple_common e offset d = Some (ok, d') → found tab pool d → found tab pool d'.
Proof.
  unfold init_cdns_xrp_hw_simple_common. intros E Hd.
  destruct (valid_prop e offset "device-irq-mode" 4) as [p |]; [| by simplify_eq].
  destruct (getprop_u32 p 0) as [mode |]; [| done]. cbn [mbind option_bind] in E.
  destruct (mode =? 0); [by simplify_eq |].
  destruct (valid_prop e offset "device-irq" 12) as [q |]; [| by simplify_eq].
  repeat (apply bind_Some in E as (? & _ & E)). by simplify_eq.
Qed.

Lemma of_match_found c init e tab pool offset d d' :
  (c, init) ∈ of_match → init e tab pool offset d = Some (true, d') → found tab pool d'.
Proof.
  assert (∀ d', init_cdns_xrp e tab pool offset d = Some (true, d') → found tab pool d') as H0.
  { intros x. unfold init_cdns_xrp. destruct (fdt_getprop _ _ _) as [reg |]; [| done].
    destruct (_ <? _)%nat; [done |]. intros E. do 4 (apply bind_Some in E as (? & _ & E)).
    by eapply init_common_found; [| exact E]. }
  assert (∀ d', init_cdns_xrp_v1 e tab pool offset d = Some (true, d') → found tab pool d') as H1.
  { intros x. unfold init_cdns_xrp_v1. destruct (fdt_getprop _ _ _) as [reg |]; [| done].
    destruct (_ <? _)%nat; [done |]. intros E. do 3 (apply bind_Some in E as (? & _ & E)).
    by eapply init_common_found; [| exact E]. }
  assert (∀ x, and_then x (init_cdns_xrp_hw_simple_common e offset) = Some (true, d') →
               (∀ d', x = Some (true, d') → found tab pool d') → found tab pool d') as H2.
  { intros [[[] dx] |] E Hx; try done. cbn in E. by eapply init_simple_found, Hx. }
  unfold of_match. rewrite !elem_of_cons.
  intros [[= _ ->] | [[= _ ->] | [[= _ ->] | [[= _ ->] | []%not_elem_of_nil]]]] E; eauto.
Qed.

(** *** The nodes of the tree *)

(** The nodes the search comes to from an offset on, kind by kind. *)
Inductive enumerates (f : fdt) : list string → Z → list (string * Z) → Prop :=
| en_none offset : enumerates f [] offset []
| en_next_kind c cs offset ns :
    fdt_node_offset_by_compatible f offset c < 0 → enumerates f cs (-1) ns → enumerates f (c :: cs) offset ns
| en_node c cs offset n ns :
    fdt_node_offset_by_compatible f offset c = n → 0 ≤ n → enumerates f (c :: cs) n ns →
    enumerates f (c :: cs) offset ((c, n) :: ns).

Lemma enumerates_total f size cs offset :
  fdt_forward f size → 0 ≤ size → -1 ≤ offset → ∃ ns, enumerates f cs offset ns.
Proof.
  intros Hf Hs. revert offset. induction cs as [| c cs IH]; intros offset Ho; [eexists; constructor |].
  remember (Z.to_nat (size - offset)) as k eqn:Ek. revert offset Ho Ek.
  induction k as [k IHk] using lt_wf_ind. intros offset Ho ->.
  destruct (Hf offset c Ho) as [Hn | Hn].
  - destruct (IH (-1)) as [ns Hns]; [lia |]. exists ns. by apply en_next_kind.
  - destruct (IHk (Z.to_nat (size - fdt_node_offset_by_compatible f offset c)) ltac:(lia)
      (fdt_node_offset_by_compatible f offset c)) as [ns Hns]; [lia | done |].
    eexists. eapply en_node; [done | lia | exact Hns].
Qed.

Lemma enumerates_unique f cs offset ns ns' : enumerates f cs offset ns → enumerates f cs offset ns' → ns = ns'.
Proof.
  intros Hn. revert ns'. induction Hn; intros ns' Hn'; inversion Hn'; subst; try lia; auto.
  f_equal. auto.
Qed.

(** The command area and the shared area a node describes. *)
Definition node_areas (e : sim_env) (x : string * Z) : option (Z * Z) :=
  reg ← fdt_getprop (e_fdt e) x.2 "reg";
  if (length reg <? reg_size x.1)%nat then None
  else if decide (reg_size x.1 = 16%nat) then base ← getprop_u32 reg 0; Some (base, u32 (base + 4096))
  else comm ← getprop_u32 reg 8; base ← getprop_u32 reg 16; Some (comm, base).
Definition in_regions (l : list xrp_shmem) (a : Z) : Prop := Exists (λ r, in_phys r a) l.
#[export] Instance in_regions_dec l a : Decision (in_regions l a).
Proof. unfold in_regions, in_phys. apply _. Defined.
Definition shared_areas (l : list xrp_shmem) (a : Z * Z) : Prop := in_regions l a.1 ∧ in_regions l a.2.
#[export] Instance shared_areas_dec l a : Decision (shared_areas l a).
Proof. unfold shared_areas. apply _. Defined.

Definition fdt_bytes (f : fdt) : Prop := ∀ offset name p, fdt_getprop f offset name = Some p → bytes p.

Lemma getprop_u32_total p n : bytes p → (n + 4 ≤ length p)%nat → ∃ v, getprop_u32 p n = Some v ∧ 0 ≤ v < 2 ^ 32.
Proof.
  intros Hp Hn. unfold getprop_u32. assert (bytes (drop n p)) as Hd by (by apply Forall_drop).
  assert (4 ≤ length (drop n p))%nat as Hl by (rewrite length_drop; lia).
  destruct (drop n p) as [| a [| b [| c [| d q]]]]; cbn in Hl; try lia. unfold bytes in Hd.
  rewrite !list.Forall_cons in Hd. destruct Hd as (? & ? & ? & ? & _). eexists. split; [done |]. lia.
Qed.

Lemma p2v_total l a : regions_ok l → 0 ≤ a < 2 ^ 32 → ∃ v, p2v (Some <$> l) a = Some v ∧ (v ≠ 0 ↔ in_regions l a).
Proof.
  intros Hl Ha. destruct (decide (in_regions l a)) as [Hin | Hout].
  - pose proof Hin as (r & Hr & Hp)%list.Exists_exists. rewrite (p2v_region l r) by done. eexists. split; [done |].
    destruct (regions_elem l r Hl Hr) as [_ _ ?]. unfold in_phys in Hp. split; [done | lia].
  - unfold p2v. rewrite find_phys_none; [| apply Hl | done |]; [by eexists |].
    intros r Hr Hp. apply Hout, list.Exists_exists. by exists r.
Qed.

(** What the initialisation of a node does, whatever was in the description. *)
Definition node_result (e : sim_env) (l : list xrp_shmem) (x : string * Z) (r : bool * xrp_device_description) : Prop :=
  if r.1 then ∃ a, node_areas e x = Some a ∧ shared_areas l a ∧ (comm_base r.2, shared_base r.2) = a
  else ∀ a, node_areas e x = Some a → ¬ shared_areas l a.

Lemma init_common_total l pool d :
  regions_ok l → 0 ≤ comm_base d < 2 ^ 32 → 0 ≤ shared_base d < 2 ^ 32 →
  ∃ ok d', init_cdns_xrp_common (Some <$> l) pool d = Some (ok, d') ∧
    (ok = true ↔ shared_areas l (comm_base d, shared_base d)) ∧ comm_base d' = comm_base d ∧ shared_base d' = shared_base d.
Proof.
  intros Hl Hc Hs. unfold init_cdns_xrp_common, shared_areas. cbn [fst snd].
  destruct (p2v_total l (comm_base d) Hl Hc) as (c & -> & Ec). cbn [mbind option_bind].
  destruct (Z.eqb_spec c 0) as [-> | Hc0].
  { eexists false, _. split; [done |]. split; [| done]. split; [done |]. intros [Hin _]. by apply Ec in Hin. }
  destruct (p2v_total l (shared_base d) Hl Hs) as (p & -> & Ep). cbn [mbind option_bind].
  destruct (Z.eqb_spec p 0) as [-> | Hp0]; eexists _, _; (split; [done |]); (split; [| done]).
  - split; [done |]. intros [_ Hin]. by apply Ep in Hin.
  - split; [| done]. intros _. split; [by apply Ec | by apply Ep].
Qed.

Lemma init_simple_total e offset d :
  fdt_bytes (e_fdt e) → ∃ d', init_cdns_xrp_hw_simple_common e offset d = Some (true, d') ∧
    comm_base d' = comm_base d ∧ shared_base d' = shared_base d.
Proof.
  intros Hb. unfold init_cdns_xrp_hw_simple_common.
  assert (∀ name n p, valid_prop e offset name n = Some p → bytes p ∧ (n ≤ length p)%nat) as Hv.
  { intros name n p. unfold valid_prop. intros (q & Eq & E)%bind_Some. destruct (Nat.ltb_spec (length q) n); [done |].
    injection E as ->. split; [by eapply Hb | lia]. }
  destruct (valid_prop e offset "device-irq-mode" 4) as [p |] eqn:E1; [| by eexists].
  destruct (Hv _ _ _ E1). destruct (getprop_u32_total p 0) as (mode & -> & _); [done | lia |]. cbn [mbind option_bind].
  destruct (mode =? 0); [by eexists |].
  destruct (valid_prop e offset "device-irq" 12) as [q |] eqn:E2; [| by eexists]. destruct (Hv _ _ _ E2).
  destruct (getprop_u32_total q 0) as (a & -> & _); [done | lia |]. destruct (getprop_u32_total q 4) as (b & -> & _); [done | lia |].
  destruct (getprop_u32_total q 8) as (c & -> & _); [done | lia |]. cbn [mbind option_bind].
  destruct (valid_prop e offset "device-irq-host-offset" 4) as [o |] eqn:E3; [| by eexists]. destruct (Hv _ _ _ E3).
  destruct (getprop_u32_total o 0) as (v & -> & _); [done | lia |]. by eexists.
Qed.

Lemma init_xrp_total e l pool offset d c :
  regions_ok l → fdt_bytes (e_fdt e) → reg_size c = 24%nat →
  ∃ r, init_cdns_xrp e (Some <$> l) pool offset d = Some r ∧ node_result e l (c, offset) r.
Proof.
  intros Hl Hb Hc. unfold init_cdns_xrp, node_result, node_areas. cbn [fst snd]. rewrite Hc.
  destruct (fdt_getprop (e_fdt e) offset "reg") as [reg |] eqn:Er; [| by eexists (false, d)]. cbn [mbind option_bind].
  destruct (Nat.ltb_spec (length reg) 24); [by eexists (false, d) |]. pose proof (Hb _ _ _ Er) as Hreg.
  destruct (getprop_u32_total reg 0) as (io & -> & _); [done | lia |]. destruct (getprop_u32_total reg 8) as (cb & Ecb & Hcb); [done | lia |].
  destruct (getprop_u32_total reg 16) as (sb & Esb & Hsb); [done | lia |]. destruct (getprop_u32_total reg 20) as (sz & -> & _); [done | lia |].
  rewrite Ecb, Esb. cbn [mbind option_bind].
  destruct (init_common_total l pool (mk_description io cb sb sz 0 0 0 (0, 0, 0) 0 None)) as (ok & d' & -> & Hok & E1 & E2); [done.. |].
  eexists. split; [done |]. cbn [fst snd comm_base shared_base] in *. rewrite decide_False by done. destruct ok.
  - exists (cb, sb). rewrite E1, E2. split_and!; [done | by apply Hok | done].
  - intros a [= <-] Ha. by apply Hok in Ha.
Qed.

Lemma init_xrp_v1_total e l pool offset d c :
  regions_ok l → fdt_bytes (e_fdt e) → reg_size c = 16%nat →
  ∃ r, init_cdns_xrp_v1 e (Some <$> l) pool offset d = Some r ∧ node_result e l (c, offset) r.
Proof.
  intros Hl Hb Hc. unfold init_cdns_xrp_v1, node_result, node_areas. cbn [fst snd]. rewrite Hc.
  destruct (fdt_getprop (e_fdt e) offset "reg") as [reg |] eqn:Er; [| by eexists (false, d)]. cbn [mbind option_bind].
  destruct (Nat.ltb_spec (length reg) 16); [by eexists (false, d) |]. pose proof (Hb _ _ _ Er) as Hreg.
  destruct (getprop_u32_total reg 0) as (cb & Ecb & Hcb); [done | lia |]. destruct (getprop_u32_total reg 4) as (sz & -> & _); [done | lia |].
  destruct (getprop_u32_total reg 8) as (io & -> & _); [done | lia |]. rewrite Ecb. cbn [mbind option_bind].
  destruct (init_common_total l pool (mk_description io cb (u32 (cb + 4096)) (u32 (sz - 4096)) 0 0 0 (0, 0, 0) 0 None))
    as (ok & d' & -> & Hok & E1 & E2); [done | done | by apply wrap_range |].
  eexists. split; [done |]. cbn [fst snd comm_base shared_base] in *. rewrite decide_True by done. destruct ok.
  - exists (cb, u32 (cb + 4096)). rewrite E1, E2. split_and!; [done | by apply Hok | done].
  - intros a [= <-] Ha. by apply Hok in Ha.
Qed.

Lemma node_result_simple e l x off r :
  fdt_bytes (e_fdt e) → node_result e l x r →
  ∃ r', and_then (Some r) (init_cdns_xrp_hw_simple_common e off) = Some r' ∧ node_result e l x r'.
Proof.
  intros Hb Hr. destruct r as [[] d]; [| by eexists]. cbn [and_then].
  destruct (init_simple_total e off d Hb) as (d' & -> & E1 & E2). eexists. split; [done |].
  destruct Hr as (a & ? & ? & <-). eexists. cbn [fst snd] in *. rewrite E1, E2. by split_and!.
Qed.

Lemma of_match_total c init e l pool offset d :
  (c, init) ∈ of_match → regions_ok l → fdt_bytes (e_fdt e) →
  ∃ r, init e (Some <$> l) pool offset d = Some r ∧ node_result e l (c, offset) r.
Proof.
  intros Hin Hl Hb. unfold of_match in Hin. rewrite !elem_of_cons in Hin.
  destruct Hin as [[= -> ->] | [[= -> ->] | [[= -> ->] | [[= -> ->] | []%not_elem_of_nil]]]].
  - by apply init_xrp_total.
  - by apply init_xrp_v1_total.
  - destruct (init_xrp_total e l pool offset d "cdns,xrp-hw-simple" Hl Hb eq_refl) as (r & E & Hr).
    unfold init_cdns_xrp_hw_simple. rewrite E. by apply node_result_simple.
  - destruct (init_xrp_v1_total e l pool offset d "cdns,xrp-hw-simple,v1" Hl Hb eq_refl) as (r & E & Hr).
    unfold init_cdns_xrp_hw_simple_v1. rewrite E. by apply node_result_simple.
Qed.

(** The firmware of every device that is set up finishes the handshake. *)
Definition handshakes_end (e : sim_env) (tab : list (option xrp_shmem)) (ns : list (string * Z)) : Prop :=
  ∀ i c init offset d d' m, (c, offset) ∈ ns → (c, init) ∈ of_match →
    init e tab (e_pool e i) offset d = Some (true, d') → is_Some (synchronize tab d' m (e_dsp e i)).

(** The devices found so far are those of a list of areas. *)
Record found_devices (e : sim_env) (tab : list (option xrp_shmem)) (g : globals) (l : list (Z * Z)) : Prop := {
  fd_tab : gl_shmem g = tab;
  fd_length : length (gl_description g) = 4%nat;
  fd_count : gl_count g = length l;
  fd_device i a : l !! i = Some a → ∃ d, gl_description g !! i = Some d ∧ (comm_base d, shared_base d) = a ∧ found tab (e_pool e i) d;
}.

Lemma initialize_loop_total fuel e l rest offset g m ns k :
  regions_ok l → fdt_bytes (e_fdt e) → rest ⊆ of_match → enumerates (e_fdt e) rest.*1 offset ns →
  handshakes_end e (Some <$> l) ns → found_devices e (Some <$> l) g k → (length k + length ns ≤ 4)%nat →
  (length ns + length rest ≤ fuel)%nat →
  ∃ g' m', initialize_loop fuel e rest offset g m = Some (g', m') ∧
    found_devices e (Some <$> l) g' (k ++ filter (shared_areas l) (omap (node_areas e) ns)).
Proof.
  intros Hl Hb Hrest Hen. remember rest.*1 as cs eqn:Ecs. revert rest fuel g m k Hrest Ecs.
  induction Hen as [offset | c cs offset ns Hneg Hen IH | c cs offset n ns Hn Hpos Hen IH];
    intros rest fuel g m k Hrest Ecs Hsync Hg Hk Hfuel.
  { destruct rest; [| done]. exists g, m. split; [by destruct fuel |]. by rewrite app_nil_r. }
  - destruct rest as [| [c' init] rest]; [done |]. injection Ecs as <- ->. destruct fuel as [| fuel]; [cbn in Hfuel; lia |].
    cbn [initialize_loop]. rewrite (proj2 (Z.ltb_lt _ _)) by done.
    apply IH; [set_solver | done | done | done | done | cbn in Hfuel; lia].
  - destruct rest as [| [c' init] rest]; [done |]. injection Ecs as <- ->. destruct fuel as [| fuel]; [cbn in Hfuel; lia |].
    cbn [initialize_loop]. rewrite Hn, (proj2 (Z.ltb_ge _ _)) by done. pose proof Hg as [Et E4 Ec Hd].
    destruct (lookup_lt_is_Some_2 (gl_description g) (gl_count g)) as [d Ed]; [cbn in Hk; lia |]. rewrite Ed, Et.
    assert ((c, init) ∈ of_match) as Hin by (apply Hrest; by left).
    destruct (of_match_total c init e l (e_pool e (gl_count g)) n d Hin Hl Hb) as ([ok d'] & Ei & Hr). rewrite Ei. cbn [mbind option_bind].
    assert (handshakes_end e (Some <$> l) ns) as Hsync'.
    { intros i c0 init0 off0 d0 d0' m0 Hx. apply Hsync. by right. }
    destruct ok.
    + destruct (Hsync (gl_count g) c init n d d' m) as [m1 ->]; [by left | done | done |]. cbn [mbind option_bind].
      destruct Hr as (a & Ea & Ha & Eb). cbn [snd] in Eb. cbn [omap list_omap]. rewrite Ea. rewrite filter_cons_True by done.
      change (?x :: ?y) with ([x] ++ y). rewrite app_assoc. apply (IH ((c, init) :: rest)).
      * done.
      * done.
      * done.
      * split; cbn [gl_shmem gl_description gl_count]; [done | by rewrite length_insert | rewrite length_app; cbn; lia |].
        intros i a'. intros [Hi | [Hlen Hi]]%lookup_app_Some.
        -- rewrite list_lookup_insert_ne by (apply lookup_lt_Some in Hi; lia). by apply Hd.
        -- apply list_lookup_singleton_Some in Hi as [Hi <-]. assert (i = gl_count g) as -> by lia.
           exists d'. rewrite list_lookup_insert_eq by (by eapply lookup_lt_Some). split_and!; [done | done |].
           by eapply of_match_found.
      * rewrite length_app. cbn in *. lia.
      * cbn in *. lia.
    + cbn [omap list_omap]. replace (filter (shared_areas l) (match node_areas e (c, n) with Some y => y :: omap (node_areas e) ns | None => omap (node_areas e) ns end))
        with (filter (shared_areas l) (omap (node_areas e) ns)).
      2: { destruct (node_areas e (c, n)) as [a |] eqn:Ea; [| done]. rewrite filter_cons_False by (by apply Hr). done. }
      apply (IH ((c, init) :: rest)); [done | done | done | | cbn in *; lia | cbn in *; lia].
      split; cbn [gl_shmem gl_description gl_count]; [done | by rewrite length_insert | done |].
      intros i a Hi. rewrite list_lookup_insert_ne by (apply lookup_lt_Some in Hi; lia). by apply Hd.
Qed.

Lemma initialize_shmem_devices e g :
  initialize_shmem e globals_zero = Some g → gl_count g = 0%nat ∧ length (gl_description g) = 4%nat.
Proof.
  intros Eg. unfold initialize_shmem in Eg. destruct (_ <? 0); [by simplify_eq |].
  destruct (fdt_getprop _ _ "reg"); [| by simplify_eq]. destruct (fdt_getprop _ _ "reg-names"); [| by simplify_eq].
  destruct (negb _); [done |]. apply bind_Some in Eg as (tab & _ & Eg).
  destruct (fdt_getprop _ _ "exit-loc"); [apply bind_Some in Eg as (loc & _ & Eg) |]; by simplify_eq.
Qed.

End translation.
