(* ===== verification/SimSync.v ===== *)
(** * The simulator library's handshake

    [synchronize] (xrp-linux-sim/xrp_linux_sim.c) as one of two interleaved
    programs, the other being the DSP's half of the handshake from [Sync].
    The simulator library has no interrupts from the DSP and never gives up;
    otherwise its program follows the driver's, one extra interrupt apart.
    The invariant of [Sync] carries over: every state of the simulator's
    handshake is a state of the driver's up to memory outside the
    synchronisation area.

    The DSP reaches the area by its physical address and the program by the
    address where it is mapped; the bytes are the same ([SimMem]), and both
    are named by the program's address here. *)

From stdpp Require Import base tactics list relations numbers.
From S2P Require Import Prelude Alloc PrivateAlloc Mem Interface HwSimple Sync SimMem.

Section sim_sync.
Context `{Arch}.
Context (tab : list (option xrp_shmem)) (d : xrp_device_description).

Abbreviation shared := (comm_ptr d).

(** The device as the driver would describe it. *)
Definition sim_hw : xrp_hw_simple := {|
  regs_phys := io_base d; regs := RegsMapped; device_irq_mode := dd_irq_mode d; device_irq := dd_irq d;
  device_irq_host_offset := dd_irq_host_offset d; host_irq_mode := XRP_IRQ_NONE; host_irq := (0, 0);
  xrp_host_irq_mode := false |}.
Abbreviation hw := sim_hw.

(** The point of the driver's program a point stands for. *)
Definition abs (pc : sync_pc) : host_pc :=
  match pc with
  | SStart => HStart
  | SWake | SReady => HReady
  | SWrite t => HWrite t
  | SConfirm => HConfirm
  | SIrq => HIrq
  | SIdle => HIdle 0
  | SDone => HDone 0
  end.

Definition sends (pc : sync_pc) : bool :=
  match pc with SWake | SIrq => negb (dd_irq_mode d =? XRP_IRQ_NONE) | _ => false end.

(** One access of the program, rounds of its polling loops left out, or one
    step of the DSP. *)
Inductive sim_step : sync_pc * sys → sync_pc * sys → Prop :=
| sim_host pc s pc' m :
    sync_next tab d pc (s_mem s) = Some (pc', m) → pc' ≠ pc →
    sim_step (pc, s) (pc', mk_sys m (abs pc') (s_dsp s) (s_hw s) (sends pc || s_dev_irq s)
                             (s_host_irq s) (s_completion s))
| sim_dsp pc s s' : dsp_step shared s s' → sim_step (pc, s) (pc, s').

(** The area and the interrupt register are where the program can reach
    them and apart, and the device tree has values the program expects. *)
Record sim_device_ok : Prop := {
  sd_area : ∀ a, shared ≤ a → a + 4 ≤ shared + 36 → accessible tab a 4 = true;
  sd_mode : 0 ≤ dd_irq_mode d < XRP_IRQ_MAX;
  sd_values : is_u32 (dd_irq d).1.1 ∧ is_u32 (dd_irq d).1.2 ∧ is_u32 (dd_irq d).2;
  sd_irq : ∃ p, p2v tab (u32 (io_base d + dd_irq_host_offset d)) = Some p ∧
    (dd_irq_mode d ≠ XRP_IRQ_NONE →
     accessible tab p 4 = true ∧ (p + 4 ≤ shared ∨ shared + 36 ≤ p) ∧ 0 ≤ (dd_irq d).1.2 < 32);
}.
Context (Hok : sim_device_ok).

Lemma sim_hw_ok : hw_ok hw.
Proof.
  destruct Hok as [_ ? ? _]. split; cbn; [unfold XRP_IRQ_NONE, XRP_IRQ_MAX; lia | done | by split | done].
Qed.

(** ** The writes are the driver's *)

Lemma sim_irq_mode_id v : 0 ≤ v < XRP_IRQ_MAX → SimMem.irq_mode v = Some v.
Proof.
  unfold XRP_IRQ_MAX. intros Hv. assert (v = 0 ∨ v = 1 ∨ v = 2) as E by lia. by destruct E as [-> | [-> | ->]].
Qed.

(** Whole words are written one by one. *)
Fixpoint word_writes (a : Z) (ws : list Z) : list hw_write :=
  match ws with [] => [] | w :: ws => (a, w) :: word_writes (a + 4) ws end.

Lemma comm_write_word_list a ws :
  Forall is_u32 ws → comm_write_words (length ws) a (ws ≫= le_bytes 4) = word_writes a ws.
Proof.
  intros Hws. revert a. induction Hws as [| w ws Hw _ IH]; intros a; [done |].
  cbn [length comm_write_words word_writes]. rewrite bind_cons.
  rewrite take_app_length', drop_app_length' by (by rewrite length_le_bytes).
  rewrite le_val_bytes by apply Hw. f_equal. apply IH.
Qed.

Lemma sync_writes_trace : sync_writes d = Some (data_trace shared (data hw)).
Proof.
  unfold sync_writes. rewrite !sim_irq_mode_id by (apply Hok || done). cbn [mbind option_bind]. f_equal.
  pose proof (sd_values Hok) as (Ha & Hb & Hc). pose proof (sd_mode Hok) as Hm. unfold XRP_IRQ_MAX in *.
  unfold data_trace. destruct (get_hw_sync_data true hw) as [l |] eqn:Eg; [| done].
  replace (data hw) with l by (unfold data; by rewrite Eg). injection Eg as <-.
  set (sd := Build_xrp_hw_simple_sync_data _ _ _ _ _ _ _ _).
  assert (Forall is_u32 (sync_data_words sd)) as Hws.
  { unfold is_u32 in *. repeat constructor; cbn; try apply u32_range; unfold XRP_IRQ_NONE; lia. }
  assert (length (sync_data_bytes sd) = 32%nat) as El by apply length_words_bytes.
  unfold xrp_comm_write. rewrite El. change (Z.land (Z.of_nat 32) 3 =? 0) with true.
  change (Z.to_nat (Z.land (Z.of_nat 32) (Z.lnot 3) / 4)) with (length (sync_data_words sd)).
  rewrite app_nil_r. unfold sync_data_bytes. rewrite comm_write_word_list by done.
  unfold is_u32 in *. cbn. unfold sync_hw_data, sync_word.
  rewrite !(u32_small (dd_irq_mode d)), !(u32_small (dd_irq d).1.1), !(u32_small (dd_irq d).1.2),
    !(u32_small (dd_irq d).2) by lia.
  rewrite <- !Z.add_assoc. reflexivity.
Qed.

(** ** Memory outside the area does not matter *)

Definition same_area (m m' : mem) : Prop := ∀ x, shared ≤ x < shared + 36 → m' x = m x.

Lemma same_area_writes m m' t : same_area m m' → same_area (apply_writes m t) (apply_writes m' t).
Proof.
  revert m m'. induction t as [| w t IH]; intros m m' Hm; [done |]. apply IH. intros x Hx.
  unfold apply_write, store32, store_bytes. by rewrite Hm.
Qed.

Lemma same_area_data m m' : same_area m m' → has_data hw shared m → has_data hw shared m'.
Proof.
  intros Hm Hd. unfold has_data in *. rewrite <- Hd. apply load_bytes_ext. intros x Hx. apply Hm.
  unfold sync_hw_data in Hx. change (length (data hw)) with 32%nat in Hx. lia.
Qed.

Lemma same_area_word m m' : same_area m m' → load32 m' (sync_word shared) = load32 m (sync_word shared).
Proof.
  intros Hm. unfold load32. f_equal. apply load_bytes_ext. intros x Hx. apply Hm. unfold sync_word in Hx. lia.
Qed.

Lemma inv_ext s m' irq :
  inv hw shared s → same_area (s_mem s) m' →
  inv hw shared (mk_sys m' (s_host s) (s_dsp s) (s_hw s) (irq || s_dev_irq s) (s_host_irq s) (s_completion s)).
Proof.
  intros Hi Hm. pose proof (same_area_word _ _ Hm) as Ew. set (s' := mk_sys _ _ _ _ _ _ _).
  assert (word shared s' = word shared s) as Ew' by exact Ew. clear Ew.
  assert (irqs_ok hw s → irqs_ok hw s') as Hirq.
  { intros [Ha Hq]. split; [done |]. subst s'. unfold quiet in *. cbn in *. destruct (s_dsp s); try done.
    destruct Hq as [Hq1 Hq2]. split; [done |]. intros Hh Hs. rewrite Hq2 by done. by rewrite orb_true_r. }
  destruct Hi as [? ? ? ? | ? ? ? ? | [Hh | (t & Hh & t' & Et & Hall & Hd)] ? ? ? | ? ? ? ? Hd | ? ? ? ? ? | ? ? Hq
                 | ? ? ? ? ? | ? ? ? ? ? | ret ? ? ? ? ?].
  - apply inv_start; congruence || done.
  - apply inv_ready; congruence || done.
  - apply inv_poll; [by left | congruence || done..].
  - apply inv_poll; [| congruence || done..]. right. exists t. split; [done |]. exists t'. split_and!; [done | done |].
    eapply same_area_data; [| exact Hd]. by apply same_area_writes.
  - apply inv_sent; try (congruence || done). by eapply same_area_data.
  - apply inv_set; congruence || done.
  - apply inv_active; [done | congruence | auto].
  - apply inv_leaving; congruence || done.
  - apply inv_ok; congruence || done.
  - apply inv_fail with ret; try done; rewrite Ew'; done.
Qed.

Lemma good_ext s m' irq :
  good hw shared s → same_area (s_mem s) m' →
  good hw shared (mk_sys m' (s_host s) (s_dsp s) (s_hw s) (irq || s_dev_irq s) (s_host_irq s) (s_completion s)).
Proof. intros (Hi & Hr & Hw) Hm. split; [by apply inv_ext |]. by split. Qed.

(** An interrupt of the device succeeds and stays outside the area. *)
Lemma send_irq_ok m : ∃ m', xrp_send_device_irq tab d m = Some m' ∧ same_area m m'.
Proof.
  destruct (sd_irq Hok) as (p & Ep & Hp). unfold xrp_send_device_irq. rewrite Ep. cbn [mbind option_bind].
  pose proof (sd_mode Hok) as Hm. unfold XRP_IRQ_MAX in Hm.
  destruct (Z.eq_dec (dd_irq_mode d) XRP_IRQ_NONE) as [E | E].
  { rewrite E. by exists m. }
  destruct (Hp E) as (Ha & Hd & Hb). unfold xrp_comm_write32. rewrite Ha.
  rewrite (proj2 (Z.leb_le _ _)), (proj2 (Z.ltb_lt _ _)) by lia. cbn [andb mbind option_bind].
  assert (∀ m v, same_area m (store32 m p v)) as Hs.
  { intros m1 v x Hx. apply store_bytes_out. rewrite length_le_bytes. lia. }
  destruct (Z.eqb_spec (dd_irq_mode d) XRP_IRQ_EDGE).
  - eexists. split; [done |]. intros x Hx. by rewrite !Hs.
  - destruct (Z.eqb_spec (dd_irq_mode d) XRP_IRQ_LEVEL); [eexists; by split |].
    unfold XRP_IRQ_NONE, XRP_IRQ_EDGE, XRP_IRQ_LEVEL in *. lia.
Qed.

Lemma area_word : accessible tab (sync_word shared) 4 = true.
Proof. apply (sd_area Hok); unfold sync_word; lia. Qed.

(** ** The two programs together *)

Definition in_area (w : hw_write) : Prop := shared ≤ w.1 ∧ w.1 + 4 ≤ shared + 36.

Definition sim_inv (x : sync_pc * sys) : Prop :=
  s_host x.2 = abs x.1 ∧ good hw shared x.2 ∧ ∀ t, x.1 = SWrite t → t ≠ [] ∧ Forall in_area t.

Lemma trace_in_area : data_trace shared (data hw) ≠ [] ∧ Forall in_area (data_trace shared (data hw)).
Proof.
  pose proof sync_writes_trace as E. unfold sync_writes in E.
  rewrite !sim_irq_mode_id in E by (apply Hok || done). cbn [mbind option_bind] in E.
  apply (inj Some) in E. rewrite <- E. split; [done |]. unfold in_area, sync_hw_data, sync_word. repeat constructor; cbn; lia.
Qed.

Lemma sends_send_irq : bool_decide (send_irq hw ≠ []) = negb (dd_irq_mode d =? XRP_IRQ_NONE).
Proof.
  pose proof (sd_mode Hok) as Hm. unfold XRP_IRQ_MAX in Hm. unfold send_irq, reg_write32. cbn.
  assert (dd_irq_mode d = 0 ∨ dd_irq_mode d = 1 ∨ dd_irq_mode d = 2) as E by lia.
  by destruct E as [-> | [-> | ->]].
Qed.

(** No access of the program faults. *)
Lemma sync_next_total x : sim_inv x → is_Some (sync_next tab d x.1 (s_mem x.2)).
Proof.
  destruct x as [pc s]. intros (_ & _ & Ht). cbn in *.
  destruct pc as [| | | [| w t] | | | |]; unfold sync_next, xrp_comm_write32, xrp_comm_read32;
    rewrite ?area_word; cbn [mbind option_bind]; try by eexists.
  - destruct (send_irq_ok (s_mem s)) as (m & -> & _). by eexists.
  - destruct (_ =? _); [| by eexists]. rewrite sync_writes_trace. by eexists.
  - destruct (Ht _ eq_refl) as [_ Hall]. apply list.Forall_cons in Hall as [[? ?] _].
    rewrite (sd_area Hok) by done. by eexists.
  - destruct (send_irq_ok (s_mem s)) as (m & -> & _). by eexists.
Qed.

(** An access is the driver's step up to memory outside the area, or the
    extra interrupt. *)
Lemma sim_host_step pc s pc' m :
  sim_inv (pc, s) → sync_next tab d pc (s_mem s) = Some (pc', m) → pc' ≠ pc →
  (∀ t, pc' = SWrite t → t ≠ [] ∧ Forall in_area t) ∧
  ((pc = SWake ∧ pc' = SReady ∧ same_area (s_mem s) m) ∨
   ∃ m1, same_area m1 m ∧
     good_step hw shared s (mk_sys m1 (abs pc') (s_dsp s) (s_hw s) (sends pc || s_dev_irq s)
                              (s_host_irq s) (s_completion s))).
Proof.
  intros (Hh & Hg & Ht) E Hne. cbn in Hh, Hg, Ht.
  assert (∀ m1, host_step hw shared s (mk_sys m1 (abs pc') (s_dsp s) (s_hw s) (sends pc || s_dev_irq s)
                              (s_host_irq s) (s_completion s)) → same_area m1 m →
     ∃ m1, same_area m1 m ∧ good_step hw shared s (mk_sys m1 (abs pc') (s_dsp s) (s_hw s)
             (sends pc || s_dev_irq s) (s_host_irq s) (s_completion s))) as Hgo.
  { intros m1 Hs Hm. exists m1. split; [done |]. split; [by left |]. cbn. by destruct pc'; intros ? [=]. }
  unfold sync_next, xrp_comm_write32, xrp_comm_read32 in E.
  destruct pc as [| | | [| w t] | | | |]; cbn [abs] in Hh; rewrite ?area_word in E; cbn [mbind option_bind] in E.
  - injection E as <- <-. split; [done |]. right. eapply Hgo; [by apply h_start | by intros x].
  - destruct (send_irq_ok (s_mem s)) as (m' & E' & Hs). rewrite E' in E. injection E as <- <-.
    split; [done |]. by left.
  - destruct (Z.eqb_spec (load32 (s_mem s) (sync_word shared)) XRP_DSP_SYNC_DSP_READY) as [Ew |]; [| by simplify_eq].
    rewrite sync_writes_trace in E. injection E as <- <-. split; [intros ? [= <-]; apply trace_in_area |].
    right. eapply Hgo; [by apply h_ready | by intros x].
  - destruct (Ht [] eq_refl). done.
  - destruct (Ht _ eq_refl) as [_ Hall]. apply list.Forall_cons in Hall as [Hw Hall].
    rewrite (sd_area Hok) in E by apply Hw. injection E as <- <-.
    split; [intros ? Et; destruct t; [done |]; by injection Et as <- |].
    right. eapply Hgo; [| by intros x]. replace (abs _) with (match t with [] => HConfirm | _ => HWrite t end)
      by (by destruct t). by apply h_write.
  - destruct (Z.eqb_spec (load32 (s_mem s) (sync_word shared)) XRP_DSP_SYNC_DSP_TO_HOST); [| by simplify_eq].
    injection E as <- <-. split; [done |]. right. eapply Hgo; [by apply h_confirm | by intros x].
  - destruct (send_irq_ok (s_mem s)) as (m' & E' & Hs). rewrite E' in E. injection E as <- <-.
    split; [done |]. right. eapply Hgo; [| exact Hs]. cbn [sends]. rewrite <- sends_send_irq.
    change (abs SIdle) with (if xrp_host_irq_mode hw then HWait else HIdle 0). by apply h_irq.
  - injection E as <- <-. split; [done |]. right. eapply Hgo; [by apply (h_idle _ _ s 0) | by intros x].
  - by simplify_eq.
Qed.

Definition sim_measure (x : sync_pc * sys) : nat :=
  2 * measure hw shared x.2 + match x.1 with SWake => 1 | _ => 0 end.

Lemma sim_step_inv x y : sim_inv x → sim_step x y → sim_inv y ∧ (sim_measure y < sim_measure x)%nat.
Proof.
  intros Hx Hs. destruct Hs as [pc s pc' m E Hne | pc s s' Hd].
  - destruct (sim_host_step pc s pc' m Hx E Hne) as [Ht Hc]. destruct Hx as (Hh & Hg & _). cbn in Hh, Hg.
    destruct Hc as [(-> & -> & Hm) | (m1 & Hm & Hst)].
    + pose proof (good_ext s m (sends SWake) Hg Hm) as Hg'. rewrite Hh in Hg'. split; [by split |].
      unfold sim_measure. cbn [fst snd]. unfold measure. cbn [s_host s_dsp s_host_irq]. rewrite Hh. cbn [abs]. lia.
    + set (s1 := mk_sys m1 _ _ _ _ _ _) in *. pose proof (good_step_good hw shared sim_hw_ok _ _ Hg Hst) as Hg1.
      pose proof (good_ext s1 m false Hg1 Hm) as Hg'. split; [by split |].
      pose proof (good_step_measure hw shared _ _ Hg Hst) as Hlt.
      unfold sim_measure. cbn [fst snd]. set (s2 := mk_sys m _ _ _ _ _ _).
      change (measure hw shared s2) with (measure hw shared s1). destruct pc'; lia.
  - destruct Hx as (Hh & Hg & Ht). cbn in Hh, Hg, Ht.
    assert (s_host s' = s_host s) as Eh by (by destruct Hd).
    assert (good_step hw shared s s') as Hst.
    { split; [by right; right |]. intros ret. rewrite Eh, Hh. by destruct pc; intros [=]. }
    split.
    + split_and!; [cbn; congruence | by eapply good_step_good, Hst; [apply sim_hw_ok |] | done].
    + pose proof (good_step_measure hw shared _ _ Hg Hst). unfold sim_measure. cbn [fst snd]. destruct pc; lia.
Qed.

(** Only a finished handshake is stuck. *)
Lemma sim_progress x : sim_inv x → x.1 = SDone ∨ ∃ y, sim_step x y.
Proof.
  intros Hx. destruct (sync_next_total x Hx) as [[pc' m] E]. destruct x as [pc s]. cbn [fst snd] in *.
  assert (pc' ≠ pc → ∃ y, sim_step (pc, s) y) as Hgo by (intros; eexists; by eapply sim_host).
  destruct Hx as (Hh & Hg & Ht). cbn in Hh, Hg, Ht.
  assert (pc = SReady ∨ pc = SConfirm → ∃ s', dsp_step shared s s' ∨
            (host_step hw shared s s' ∧ ∀ ret, s_host s' = HIdle ret → ret = 0)) as Hpoll.
  { intros Hpc. destruct (good_progress hw shared sim_hw_ok s) as [Ed | [s' [Hst Hret]]]; [by split | done | |].
    - rewrite Hh in Ed. by destruct Hpc as [-> | ->].
    - exists s'. destruct Hst as [Hst | [[? ? ?] | Hst]]; [by right | done | by left]. }
  unfold sync_next, xrp_comm_write32, xrp_comm_read32 in E.
  destruct pc as [| | | [| w t] | | | |]; rewrite ?area_word in E; cbn [mbind option_bind abs] in E, Hh; [.. | by left];
    right.
  - apply Hgo. by simplify_eq.
  - apply Hgo. by apply bind_Some in E as (? & _ & [= <- _]).
  - destruct Hpoll as [s' [Hd | [Hst Hret]]]; [by left | eexists; by apply sim_dsp |]. apply Hgo.
    destruct Hst; try congruence; [| by discriminate (Hret _ eq_refl)].
    rewrite (proj2 (Z.eqb_eq _ _)) in E by done. rewrite sync_writes_trace in E. by simplify_eq/=.
  - by destruct (Ht [] eq_refl).
  - apply Hgo. destruct (accessible _ _ _); [| done]. injection E as <- _. destruct t as [| w' t]; [done |].
    intros Et. apply (f_equal (λ p, match p with SWrite l => length l | _ => 0%nat end)) in Et. cbn in Et. lia.
  - destruct Hpoll as [s' [Hd | [Hst Hret]]]; [by right | eexists; by apply sim_dsp |]. apply Hgo.
    destruct Hst; try congruence; [| by discriminate (Hret _ eq_refl)].
    rewrite (proj2 (Z.eqb_eq _ _)) in E by done. by simplify_eq/=.
  - apply Hgo. by apply bind_Some in E as (? & _ & [= <- _]).
  - apply Hgo. by simplify_eq.
Qed.

(** Two program points that cannot be the same. *)
#[local] Ltac clash := solve [
  unfold finishing in *; repeat match goal with
         | H : _ ∨ _ |- _ => destruct H
         | H : _ ∧ _ |- _ => destruct H
         | H : ∃ _, _ |- _ => destruct H
         end; congruence ].

Lemma sim_reachable s x : initial shared s → rtc sim_step (SStart, s) x → sim_inv x.
Proof.
  intros Hs Hr. assert (sim_inv (SStart, s)) as H0.
  { pose proof Hs as (Eh & _). split_and!; [done | | done].
    split; [by apply initial_inv |]. cbn [snd]. rewrite Eh. split; [| done]. by intros ? [? | ?]. }
  clear Hs. induction Hr as [| x y z Hst _ IH]; [done |]. apply IH. by eapply sim_step_inv.
Qed.

(** C23: the simulator's handshake on a device in order ([sim_device_ok]): the
    area for synchronisation is mapped, the interrupt mode is one of the table
    of modes, the values of the device tree are 32-bit cells, and the
    interrupt register, if one is used, is mapped apart from the area with a
    bit below 32.  From the state after a reset, whatever the interleaving: no
    access of the program faults; the DSP never takes a synchronisation word
    for a command; every run is finite; and a run can only stop when
    [synchronize] has returned, with the word idle again and the DSP using the
    configuration the program wrote. *)
Theorem sim_sync_correct s :
  initial shared s →
  sn sim_step (SStart, s) ∧
  ∀ pc s', rtc sim_step (SStart, s) (pc, s') →
    is_Some (sync_next tab d pc (s_mem s')) ∧ s_dsp s' ≠ DCommand ∧
    (nf sim_step (pc, s') → pc = SDone) ∧
    (pc = SDone → agree hw (s_hw s') ∧ word shared s' = XRP_DSP_SYNC_IDLE).
Proof.
  intros Hs. split.
  - assert (sim_inv (SStart, s)) as Hi by (by eapply sim_reachable). clear Hs. revert Hi. generalize (SStart, s).
    intros x. induction (well_founded_ltof _ sim_measure x) as [x _ IH]. intros Hi. constructor.
    intros y Hst. unfold flip in Hst. destruct (sim_step_inv x y Hi Hst). by apply IH.
  - intros pc s' Hr. pose proof (sim_reachable _ _ Hs Hr) as Hi. split; [by apply (sync_next_total (pc, s')) |].
    pose proof Hi as (Hh & (Hv & Hret & Hw) & _). cbn in Hh, Hv, Hret, Hw. split; [| split].
    + destruct Hv; try clash. by destruct (irqs_ok_finishing hw s') as [[? | [? | ?]] _]; [| congruence..].
    + intros Hnf. destruct (sim_progress _ Hi) as [E | Hst]; [done |]. by destruct Hnf.
    + intros ->. cbn in Hh. destruct Hv as [| | | | | | | | ret Hx]; try clash; [done |].
      assert (ret = 0) by (by apply Hret). lia.
Qed.
End sim_sync.
