(* ===== verification/SimLib.v ===== *)
(** * The library for the simulator: objects and commands (xrp-linux-sim/xrp_linux_sim.c)

    The programming interface is that of the Linux library ([Native]), but
    there is no driver below it: the library allocates command data in the
    shared area of the device itself, and the worker thread of a device
    writes commands to the memory the simulated DSP polls.

    The state is the static variables and the memory of [SimMem] together
    with a store of reference counted objects ([RefHeap]).  Pool descriptors
    that error paths forget are collected in [leaked].  Calls and worker
    rounds do not overlap, except that a group whose lock an error path forgets
    to release stays locked; taking that lock has no result, like any other
    undefined behaviour. *)

From stdpp Require Import base tactics list gmap fin_maps numbers.
From S2P Require Import Prelude DspNs RefHeap Alloc PrivateAlloc Mem Interface SimMem.

(** ** Objects *)

(** [struct xrp_request].  [r_cmd] are the bytes of [dsp_cmd], from 0;
    [r_out_ptr] and [r_buffer_ptr] are [None] when they point into it; a
    field that was never written is [None] ([r_event], the elements of
    [r_user_alloc]). *)
Record request := mk_request {
  r_cmd : mem;
  r_n_buffers : nat;
  r_in_data_size : Z;
  r_out_data : Z;
  r_out_ptr : option Z;
  r_out_data_size : Z;
  r_group : option nat;
  r_event : option nat;
  r_in_alloc : option Z;
  r_out_alloc : option Z;
  r_buffer_alloc : option Z;
  r_user_alloc : list (option Z);
  r_buffer_ptr : option Z;
}.

(** A device has the number of its description and the request queue; a
    buffer of type [XRP_BUFFER_TYPE_DEVICE] is one with an allocation, given
    by description and address. *)
Inductive obj :=
| Device (description : nat) (rqs : list request)
| Buffer (alloc : option (nat * Z)) (ptr size map_count map_flags : Z)
| Group (locked : bool) (capacity : nat) (buffer : list (nat * Z))
| Queue (device : nat) (nsid : option (list Z))
| Event (device : nat) (status : xrp_status).

Definition request_refs (r : request) : list ref :=
  match r_group r with Some g => [(KGroup, g)] | None => [] end ++
  match r_event r with Some e => [(KEvent, e)] | None => [] end.
Definition sim_refs (o : obj) : list ref :=
  match o with
  | Device _ rqs => rqs ≫= request_refs
  | Buffer _ _ _ _ _ => []
  | Group _ _ l => (λ r : nat * Z, (KBuffer, r.1)) <$> l
  | Queue d _ => [(KDevice, d)]
  | Event d _ => [(KDevice, d)]
  end.
(** The pool descriptors a request of description [i], and an object, hold. *)
Definition request_allocs (i : nat) (r : request) : list (nat * Z) :=
  (λ p, (i, p)) <$> omap id ([r_in_alloc r; r_out_alloc r; r_buffer_alloc r] ++ r_user_alloc r).
Definition obj_allocs (o : obj) : list (nat * Z) :=
  match o with
  | Device i rqs => rqs ≫= request_allocs i
  | Buffer (Some a) _ _ _ _ => [a]
  | _ => []
  end.
Definition sim_waits (o : obj) : list nat :=
  match o with Device _ rqs => omap r_event rqs | _ => [] end.

#[export, refine] Instance sim_counted : Counted obj := {|
  kind_of o := match o with
               | Device _ _ => KDevice | Buffer _ _ _ _ _ => KBuffer | Group _ _ _ => KGroup
               | Queue _ _ => KQueue | Event _ _ => KEvent
               end;
  obj_refs := sim_refs;
  waits := sim_waits;
  owner o := match o with Event d _ => Some d | _ => None end;
|}.
Proof.
  - intros [d rqs | | | |] e He; cbn in He; try by apply not_elem_of_nil in He.
    apply list_elem_of_omap in He as (r & Hr & E). apply list_elem_of_bind.
    exists r. split; [| done]. unfold request_refs. rewrite E. set_solver.
  - intros [] p [=]; subst. eexists. by left.
Defined.
Arguments kind_of : simpl nomatch.

Record sim := mk_sim {
  s_gl : globals;
  s_mem : mem;
  s_st : store obj;
  leaked : list (nat * Z);
}.
Definition set_gl (s : sim) (g : globals) : sim := mk_sim g (s_mem s) (s_st s) (leaked s).
Definition set_mem (s : sim) (m : mem) : sim := mk_sim (s_gl s) m (s_st s) (leaked s).
Definition set_st (s : sim) (st : store obj) : sim := mk_sim (s_gl s) (s_mem s) st (leaked s).
Definition leak (s : sim) (l : list (nat * Z)) : sim := mk_sim (s_gl s) (s_mem s) (s_st s) (l ++ leaked s).

Definition heap (s : sim) : gmap nat (cell obj) := hp (s_st s).
Definition tab (s : sim) : list (option xrp_shmem) := gl_shmem (s_gl s).
Definition set_object (s : sim) (p : nat) (o : obj) : sim := set_st s (set_obj (s_st s) p o).
Definition retain (s : sim) (p : nat) : option sim := st ← retain_refcounted (s_st s) p; Some (set_st s st).
Definition xrp_retain_device (s : sim) (d : nat) : option sim := retain s d.
Definition xrp_retain_buffer (s : sim) (b : nat) : option sim := retain s b.
Definition xrp_retain_buffer_group (s : sim) (g : nat) : option sim := retain s g.
Definition xrp_retain_queue (s : sim) (q : nat) : option sim := retain s q.
Definition xrp_retain_event (s : sim) (ev : nat) : option sim := retain s ev.
Definition release (s : sim) (p : nat) : option sim := st ← release_refcounted (s_st s) p; Some (set_st s st).

Section sim_lib.
Context `{Arch}.

(** ** The pools of the devices *)

(** What [calloc] returns to an allocator: two descriptors, given those in
    use. *)
Definition callocs : Type := gset Z → option Z * option Z.

Definition pool_of (s : sim) (i : nat) : option (alloc_state xrp_private_pool) :=
  d ← gl_description (s_gl s) !! i; shared_pool d.

Definition set_pool (s : sim) (i : nat) (p : alloc_state xrp_private_pool) : sim :=
  let g := s_gl s in
  let set d := mk_description (io_base d) (comm_base d) (shared_base d) (shared_size d) (comm_ptr d)
                 (shared_ptr d) (dd_irq_mode d) (dd_irq d) (dd_irq_host_offset d) (Some p) in
  set_gl s (mk_globals (gl_shmem g) (alter set i (gl_description g)) (gl_count g) (gl_exit_loc g)).

(** [xrp_allocate] from the pool of description [i], with the size converted
    to the 32 bits the pool takes: the descriptor and the address of the
    memory, or [None] on failure. *)
Definition allocate (kz : callocs) (s : sim) (i : nat) (size : Z) : option (sim * option (Z * Z)) :=
  st ← pool_of s i;
  let k := kz (ops_heap (st_pool st)) in
  match xrp_allocate k.1 k.2 st (u32 size) 0x10 with
  | (Ok p, st) => a ← st_objs st !! p; Some (set_pool s i st, Some (p, a_start a))
  | (Err _, st) => Some (set_pool s i st, None)
  end.

Definition free (s : sim) (a : nat * Z) : option sim :=
  st ← pool_of s a.1; st ← xrp_free st a.2; Some (set_pool s a.1 st).

Definition start_of (s : sim) (a : nat * Z) : option Z :=
  st ← pool_of s a.1; x ← st_objs st !! a.2; Some (a_start x).

(** ** Copies to and from shared memory *)

(** At the address where physical address [start] is mapped, plus [off]. *)
Definition shm_write (s : sim) (start off : Z) (l : list Z) : option sim :=
  p ← p2v (tab s) start;
  if accessible (tab s) (p + off) (Z.of_nat (length l)) then Some (set_mem s (store_bytes (s_mem s) (p + off) l))
  else None.
Definition shm_read (s : sim) (start off : Z) (n : nat) : option (list Z) :=
  p ← p2v (tab s) start;
  if accessible (tab s) (p + off) (Z.of_nat n) then Some (load_bytes (s_mem s) (p + off) n) else None.

(** ** Releasing *)

Definition object (s : sim) (p : nat) : option obj := c ← heap s !! p; Some (c_obj c).
Definition last (s : sim) (p : nat) : option bool := last_refcount (s_st s) p.

(** A function that uses the object after the test meets the same object. *)
Lemma object_tested {A} s p (f : bool → obj → option A) :
  (l ← last s p; o ← object s p; f l o) = (o ← object s p; l ← last s p; f l o).
Proof. unfold object, last, last_refcount, heap. by destruct (hp (s_st s) !! p). Qed.

(** As in the Linux library, a release function asks whether its caller has
    the last reference and then, without a lock, does the rest
    ([..._tested], given the answer). *)

(** The last reference ends the worker thread.  A request left in the queue
    has no event - an event would hold the device - and the worker that runs
    it reads the event field that was never set; [self]: the caller is the
    worker, which cannot be joined, and leaves the requests behind. *)
Definition release_device_tested (self l : bool) (s : sim) (d : nat) : option sim :=
  o ← object s d;
  match o with
  | Device i rqs =>
      if l then
        match rqs, self with
        | [], _ => release s d
        | _, true =>
            s ← release s d;
            Some (set_st (leak s (rqs ≫= request_allocs i)) (lose (s_st s) (rqs ≫= request_refs)))
        | _, false => None
        end
      else release s d
  | _ => None
  end.
Definition xrp_release_device (self : bool) (s : sim) (d : nat) : option sim :=
  l ← last s d; release_device_tested self l s d.

Definition release_buffer_tested (l : bool) (s : sim) (b : nat) : option sim :=
  o ← object s b;
  match o with
  | Buffer (Some a) _ _ _ _ => if l then s ← free s a; release s b else release s b
  | Buffer None _ _ _ _ => release s b
  | _ => None
  end.
Definition xrp_release_buffer (s : sim) (b : nat) : option sim :=
  l ← last s b; release_buffer_tested l s b.

Fixpoint release_records (s : sim) (l : list (nat * Z)) : option sim :=
  match l with
  | [] => Some s
  | (b, _) :: l => s ← xrp_release_buffer s b; release_records s l
  end.

Definition release_group_tested (l : bool) (s : sim) (g : nat) : option sim :=
  o ← object s g;
  match o with
  | Group locked _ bufs =>
      if l then
        if locked then None else s ← release_records s bufs; release s g
      else release s g
  | _ => None
  end.
Definition xrp_release_buffer_group (s : sim) (g : nat) : option sim :=
  l ← last s g; release_group_tested l s g.

Definition release_queue_tested (l : bool) (s : sim) (q : nat) : option sim :=
  o ← object s q;
  match o with
  | Queue d _ => s ← (if l then xrp_release_device false s d else Some s); release s q
  | _ => None
  end.
Definition xrp_release_queue (s : sim) (q : nat) : option sim :=
  l ← last s q; release_queue_tested l s q.

Definition release_event_tested (self l : bool) (s : sim) (ev : nat) : option sim :=
  o ← object s ev;
  match o with
  | Event d _ => s ← (if l then xrp_release_device self s d else Some s); release s ev
  | _ => None
  end.
Definition xrp_release_event (self : bool) (s : sim) (ev : nat) : option sim :=
  l ← last s ev; release_event_tested self l s ev.

(** ** Devices and buffers *)

(** [mem]: whether the allocation of the object succeeds. *)
Definition alloc_object (mem : bool) (s : sim) (o : obj) : sim * option nat :=
  if mem then let '(st, p) := alloc_refcounted (s_st s) o in (set_st s st, Some p) else (s, None).

Definition xrp_open_device (fuel : nat) (e : sim_env) (mem : bool) (s : sim) (idx : Z)
  : option (sim * option nat) :=
  s ← (if (gl_count (s_gl s) =? 0)%nat then
         x ← initialize fuel e (s_gl s) (s_mem s); Some (set_mem (set_gl s x.1) x.2)
       else Some s);
  if (idx <? 0) || (Z.of_nat (gl_count (s_gl s)) <? idx) then Some (s, None)
  else Some (alloc_object mem s (Device (Z.to_nat idx) [])).

Definition description_of (s : sim) (d : nat) : option nat :=
  o ← object s d; match o with Device i _ => Some i | _ => None end.

Definition xrp_create_buffer (kz : callocs) (mem : bool) (s : sim) (device : option nat) (size : Z)
    (host_ptr : option Z) : option (sim * option nat) :=
  match host_ptr, device with
  | None, None => Some (s, None)
  | Some ptr, _ => Some (alloc_object mem s (Buffer None ptr size 0 0))
  | None, Some d =>
      if negb mem then Some (s, None)
      else
        i ← description_of s d;
        x ← allocate kz s i size;
        match x with
        | (s, Some (p, start)) => v ← p2v (tab s) start; Some (alloc_object mem s (Buffer (Some (i, p)) v size 0 0))
        | (s, None) => Some (s, None)
        end
  end.

Definition xrp_map_buffer (s : sim) (b : nat) (offset size map_flags : Z) : option (sim * option Z) :=
  o ← object s b;
  match o with
  | Buffer a ptr bsize mc mf =>
      if (offset <=? bsize) && (size <=? bsize - offset) then
        s ← retain s b;
        Some (set_object s b (Buffer a ptr bsize (mc + 1) (Z.lor mf map_flags)), Some (ptr + offset))
      else Some (s, None)
  | _ => None
  end.

Definition xrp_unmap_buffer (s : sim) (b : nat) (p : Z) : option (sim * xrp_status) :=
  o ← object s b;
  match o with
  | Buffer a ptr bsize mc mf =>
      if (ptr <=? p) && (p - ptr <=? bsize) then
        s ← xrp_release_buffer (set_object s b (Buffer a ptr bsize (mc - 1) mf)) b; Some (s, XRP_STATUS_SUCCESS)
      else Some (s, XRP_STATUS_FAILURE)
  | _ => None
  end.

Inductive xrp_buffer_info := XRP_BUFFER_SIZE_SIZE_T | XRP_BUFFER_HOST_POINTER_PTR.

Definition xrp_buffer_get_info (s : sim) (b : nat) (info : option xrp_buffer_info) (out_sz : Z)
  : option (option Z) :=
  o ← object s b;
  match o with
  | Buffer a ptr size _ _ =>
      Some (match info with
            | Some XRP_BUFFER_SIZE_SIZE_T => if out_sz =? 8 then Some size else None
            | Some XRP_BUFFER_HOST_POINTER_PTR =>
                if out_sz =? 8 then Some (match a with Some _ => 0 | None => ptr end) else None
            | None => None
            end)
  | _ => None
  end.

(** ** Buffer groups *)

Definition xrp_create_buffer_group (mem : bool) (s : sim) : sim * option nat :=
  alloc_object mem s (Group false 0 []).

Definition xrp_add_buffer_to_group (realloc : bool) (s : sim) (g b : nat) (access_flags : Z)
  : option (sim * option nat) :=
  o ← object s g;
  match o with
  | Group false cap l =>
      let full := (length l =? cap)%nat in
      if full && negb realloc then Some (s, None)
      else
        s ← retain s b;
        Some (set_object s g (Group false (if full then (cap + 2) * 2 else cap) (l ++ [(b, access_flags)])),
              Some (length l))
  | _ => None
  end.

Definition xrp_set_buffer_in_group (s : sim) (g index b : nat) (access_flags : Z)
  : option (sim * xrp_status) :=
  s ← retain s b;
  o ← object s g;
  match o with
  | Group false cap l =>
      match l !! index with
      | Some (old, _) =>
          s ← xrp_release_buffer (set_object s g (Group false cap (<[index := (b, access_flags)]> l))) old;
          Some (s, XRP_STATUS_SUCCESS)
      | None => s ← xrp_release_buffer s b; Some (s, XRP_STATUS_FAILURE)
      end
  | _ => None
  end.

Definition xrp_get_buffer_from_group (s : sim) (g idx : nat) : option (sim * option nat) :=
  o ← object s g;
  match o with
  | Group false _ l =>
      match l !! idx with
      | Some (b, _) => s ← retain s b; Some (s, Some b)
      | None => Some (s, None)
      end
  | _ => None
  end.

Inductive xrp_buffer_group_info := XRP_BUFFER_GROUP_BUFFER_FLAGS_ENUM | XRP_BUFFER_GROUP_SIZE_SIZE_T.

Definition xrp_buffer_group_get_info (s : sim) (g : nat) (info : option xrp_buffer_group_info) (idx : nat)
    (out_sz : Z) : option (option Z) :=
  o ← object s g;
  match o with
  | Group false _ l =>
      Some (match info with
            | Some XRP_BUFFER_GROUP_BUFFER_FLAGS_ENUM =>
                r ← l !! idx; if out_sz =? 4 then Some r.2 else None
            | Some XRP_BUFFER_GROUP_SIZE_SIZE_T =>
                if out_sz =? 8 then Some (Z.of_nat (length l)) else None
            | None => None
            end)
  | _ => None
  end.

(** ** Queues *)

Definition xrp_create_ns_queue (mem : bool) (s : sim) (device : option nat) (nsid : option (list Z))
  : option (sim * option nat) :=
  match device with
  | None => Some (s, None)
  | Some d =>
      if mem then s ← retain s d; Some (alloc_object true s (Queue d nsid)) else Some (s, None)
  end.
Definition xrp_create_queue (mem : bool) (s : sim) (device : option nat) : option (sim * option nat) :=
  xrp_create_ns_queue mem s device None.

(** ** Enqueueing a command *)

(** Room for data of a command: memory of the pool, whose address goes into
    the command at [field], or the command itself.  [None] inside: the pool
    has no memory. *)
Definition place (kz : callocs) (s : sim) (i : nat) (big : bool) (size : Z) (cmd : mem) (field : Z)
  : option (sim * option (mem * option (Z * Z))) :=
  if big then
    x ← allocate kz s i size;
    Some (match x with
          | (s, Some a) => (s, Some (store32 cmd field (u32 a.2), Some a))
          | (s, None) => (s, None)
          end)
  else Some (s, Some (cmd, None)).

(** A copy to memory from the pool, or into the command. *)
Definition fill (s : sim) (cmd : mem) (at_ : option Z) (field off : Z) (l : list Z) : option (sim * mem) :=
  match at_ with
  | Some start => s ← shm_write s start off l; Some (s, cmd)
  | None => Some (s, store_bytes cmd (field + off) l)
  end.

(** What the loop over the buffers leaves: descriptors and allocations for
    all of them, or the state in which the call gives up, with the
    allocations made so far and whether the group's lock is kept. *)
Inductive placed :=
| Placed (s : sim) (cmd : mem) (user : list (option Z))
| Refused (s : sim) (user : list (option Z)) (locked : bool).

Definition more (u : option Z) (x : placed) : placed :=
  match x with
  | Placed s cmd user => Placed s cmd (u :: user)
  | Refused s user locked => Refused s (u :: user) locked
  end.

(** The memory of one buffer for the DSP: its own, or a copy. *)
Definition place_buffer (kz : callocs) (s : sim) (i : nat) (alloc : option (nat * Z)) (ptr size : Z)
  : option (sim * option (option Z * Z)) :=
  match alloc with
  | Some a => start ← start_of s a; Some (s, Some (None, start))
  | None =>
      x ← allocate kz s i size;
      match x with
      | (s, Some (p, start)) =>
          s ← shm_write s start 0 (load_bytes (s_mem s) ptr (Z.to_nat size)); Some (s, Some (Some p, start))
      | (s, None) => Some (s, None)
      end
  end.

Definition descriptor (flags size addr : Z) : list Z :=
  dsp_buffer_bytes (mk_dsp_buffer (u32 flags) (u32 size) (u32 addr)).

(** From buffer [k] of the group on; [at_]: where the descriptors are. *)
Fixpoint place_buffers (kz : callocs) (s : sim) (i : nat) (cmd : mem) (at_ : option Z) (k : nat)
    (l : list (nat * Z)) : option placed :=
  match l with
  | [] => Some (Placed s cmd [])
  | (b, flags) :: l =>
      o ← object s b;
      match o with
      | Buffer a ptr size mc _ =>
          if 0 <? mc then Some (Refused s [] false)
          else
            x ← place_buffer kz s i a ptr size;
            match x with
            | (s, None) => Some (Refused s [] true)
            | (s, Some (u, addr)) =>
                y ← fill s cmd at_ (cmd_buffer_data 0) (12 * Z.of_nat k) (descriptor flags size addr);
                r ← place_buffers kz y.1 i y.2 at_ (S k) l; Some (more u r)
            end
      | _ => None
      end
  end.

(** The buffers of the group, if there is one; taking the lock of a locked
    group does not return. *)
Definition group_buffers (s : sim) (g : option nat) : option (list (nat * Z)) :=
  match g with
  | None => Some []
  | Some g => o ← object s g; match o with Group false _ l => Some l | _ => None end
  end.

Definition set_locked (s : sim) (g : option nat) (locked : bool) : option sim :=
  match g with
  | None => Some s
  | Some g => o ← object s g; match o with Group _ cap l => Some (set_object s g (Group locked cap l)) | _ => None end
  end.

Definition group_ref (g : option nat) : list ref := match g with Some g => [(KGroup, g)] | None => [] end.

(** Giving up: the reference to the group and the pool memory are forgotten. *)
Definition enqueue_failed (s : sim) (i : nat) (g : option nat) (got : list (option Z)) : sim * option nat * xrp_status :=
  (set_st (leak s ((λ p, (i, p)) <$> omap id got)) (lose (s_st s) (group_ref g)), None, XRP_STATUS_FAILURE).

Definition alloc_ptr (a : option (Z * Z)) : option Z := fst <$> a.
Definition alloc_start (a : option (Z * Z)) : option Z := snd <$> a.

(** The event: one reference for the client, one for the request. *)
Definition new_event (s : sim) (d : nat) : option (sim * nat) :=
  s ← retain s d;
  let '(st, ev) := alloc_refcounted (s_st s) (Event d XRP_STATUS_PENDING) in
  s ← retain (set_st s st) ev; Some (s, ev).

(** [mem]: the allocations of the request; [emem]: that of the event;
    [junk]: what the memory of the request holds. *)
Definition xrp_enqueue_command (kz : callocs) (mem emem : bool) (junk : Mem.mem) (s : sim) (q : nat) (in_data : list Z)
    (out_data out_size : Z) (group : option nat) (evt : bool) : option (sim * option nat * xrp_status) :=
  o ← object s q;
  match o with
  | Queue d ns =>
      i ← description_of s d;
      if negb mem then None
      else
      let in_size := Z.of_nat (length in_data) in
      s ← match group with Some g => retain s g | None => Some s end;
      x ← place kz s i (XRP_DSP_CMD_INLINE_DATA_SIZE <? in_size) in_size junk (cmd_in_data 0);
      match x with
      | (s, None) => Some (enqueue_failed s i group [])
      | (s, Some (cmd, a_in)) =>
      y ← fill s (store32 cmd (cmd_in_data_size 0) (u32 in_size)) (alloc_start a_in) (cmd_in_data 0) 0 in_data;
      x ← place kz y.1 i (XRP_DSP_CMD_INLINE_DATA_SIZE <? out_size) out_size y.2 (cmd_out_data 0);
      match x with
      | (s, None) => Some (enqueue_failed s i group [alloc_ptr a_in])
      | (s, Some (cmd, a_out)) =>
      let cmd := store32 cmd (cmd_out_data_size 0) (u32 out_size) in
      l ← group_buffers s group;
      let n := Z.of_nat (length l) in
      x ← place kz s i (XRP_DSP_CMD_INLINE_BUFFER_COUNT <? n) (n * sizeof_dsp_buffer) cmd (cmd_buffer_data 0);
      match x with
      | (s, None) => Some (enqueue_failed s i group [alloc_ptr a_in; alloc_ptr a_out])
      | (s, Some (cmd, a_buf)) =>
      let cmd := store32 cmd (cmd_buffer_size 0) (u32 (n * sizeof_dsp_buffer)) in
      let got := [alloc_ptr a_in; alloc_ptr a_out; alloc_ptr a_buf] in
      r ← place_buffers kz s i cmd (alloc_start a_buf) 0 l;
      match r with
      | Refused s user locked => s ← set_locked s group locked; Some (enqueue_failed s i group (got ++ user))
      | Placed s cmd user =>
      if evt && negb emem then Some (enqueue_failed s i group (got ++ user))
      else
      x ← (if evt then x ← new_event s d; Some (x.1, Some x.2) else Some (s, None));
      let '(s, ev) := x in
      let cmd := store32 cmd (cmd_flags 0) (match ns with Some _ => XRP_DSP_CMD_FLAG_REQUEST_NSID | None => 0 end) in
      let cmd := match ns with Some id => store_bytes cmd (cmd_nsid 0) id | None => cmd end in
      out_ptr ← match alloc_start a_out with Some start => v ← p2v (tab s) start; Some (Some v) | None => Some None end;
      buf_ptr ← match alloc_start a_buf with Some start => v ← p2v (tab s) start; Some (Some v) | None => Some None end;
      let rq := mk_request cmd (length l) in_size out_data out_ptr out_size group ev (alloc_ptr a_in)
                  (alloc_ptr a_out) (alloc_ptr a_buf) user buf_ptr in
      o ← object s d;
      match o with
      | Device i rqs => Some (set_object s d (Device i (rqs ++ [rq])), ev, XRP_STATUS_SUCCESS)
      | _ => None
      end
      end
      end
      end
      end
  | _ => None
  end.

(** ** The worker *)

(** The polling loop: [dsp] is what the DSP does to memory before each look. *)
Fixpoint wait_response (tab : list (option xrp_shmem)) (m : mem) (cmd : Z) (dsp : list (mem → mem)) : option mem :=
  match dsp with
  | [] => None
  | act :: dsp =>
      flags ← SimMem.xrp_comm_read32 tab (act m) (cmd_flags cmd);
      if cmd_complete_flags flags then Some (act m) else wait_response tab (act m) cmd dsp
  end.

(** A command is handed to the DSP: the memory when it has answered. *)
Definition run_on_dsp (dsp : list (mem → mem)) (s : sim) (i : nat) (r : request) : option sim :=
  d ← gl_description (s_gl s) !! i;
  let cmd := comm_ptr d in
  if accessible (tab s) cmd sizeof_dsp_cmd then
    let m := store_bytes (s_mem s) cmd (load_bytes (r_cmd r) 0 (Z.to_nat sizeof_dsp_cmd)) in
    m ← SimMem.xrp_comm_write32 (tab s) m (cmd_flags cmd)
          (Z.lor (load32 (r_cmd r) (cmd_flags 0)) XRP_DSP_CMD_FLAG_REQUEST_VALID);
    m ← SimMem.xrp_send_device_irq (tab s) d m;
    m ← wait_response (tab s) m cmd dsp;
    Some (set_mem s m)
  else None.

(** [rq->dsp_cmd] is overwritten with the answer. *)
Definition answer (s : sim) (i : nat) (r : request) : option mem :=
  d ← gl_description (s_gl s) !! i;
  Some (store_bytes (r_cmd r) 0 (load_bytes (s_mem s) (comm_ptr d) (Z.to_nat sizeof_dsp_cmd))).

(** Bytes behind a pointer of the request. *)
Definition rq_read (s : sim) (cmd : mem) (ptr : option Z) (field off : Z) (n : nat) : option (list Z) :=
  match ptr with
  | None => Some (load_bytes cmd (field + off) n)
  | Some p => if accessible (tab s) (p + off) (Z.of_nat n) then Some (load_bytes (s_mem s) (p + off) n) else None
  end.

Definition free_if (big : bool) (s : sim) (i : nat) (a : option Z) : option sim :=
  if big then p ← a; free s (i, p) else Some s.

(** Copies back to the host's buffers [k .. n-1], and frees the copies.  The
    copy of a buffer that was replaced by a device buffer is forgotten. *)
Fixpoint return_buffers (s : sim) (i : nat) (cmd : mem) (r : request) (k n : nat) (l : list (nat * Z)) : option sim :=
  match n with
  | O => Some s
  | S n =>
      rec ← l !! k;
      o ← object s rec.1;
      match o with
      | Buffer (Some _) _ _ _ _ =>
          u ← r_user_alloc r !! k;
          return_buffers (leak s ((λ p, (i, p)) <$> option_list u)) i cmd r (S k) n l
      | Buffer None ptr size _ _ =>
          fl ← rq_read s cmd (r_buffer_ptr r) (cmd_buffer_data 0) (12 * Z.of_nat k) 4;
          u ← r_user_alloc r !! k;
          p ← u;
          s ← (if Z.land (le_val fl) XRP_DSP_BUFFER_FLAG_WRITE =? 0 then Some s
               else
                 start ← start_of s (i, p);
                 data ← shm_read s start 0 (Z.to_nat size);
                 Some (set_mem s (store_bytes (s_mem s) ptr data)));
          s ← free s (i, p);
          return_buffers s i cmd r (S k) n l
      | _ => None
      end
  end.

(** A round of the worker that has a request: [cmd] is the answer. *)
Definition finish (s : sim) (i : nat) (r : request) (cmd : mem) : option sim :=
  out ← rq_read s cmd (r_out_ptr r) (cmd_out_data 0) 0 (Z.to_nat (r_out_data_size r));
  let s := set_mem s (store_bytes (s_mem s) (r_out_data r) out) in
  s ← free_if (XRP_DSP_CMD_INLINE_DATA_SIZE <? r_in_data_size r) s i (r_in_alloc r);
  s ← free_if (XRP_DSP_CMD_INLINE_DATA_SIZE <? r_out_data_size r) s i (r_out_alloc r);
  l ← group_buffers s (r_group r);
  s ← return_buffers s i cmd r 0 (r_n_buffers r) l;
  s ← free_if (XRP_DSP_CMD_INLINE_BUFFER_COUNT <? Z.of_nat (r_n_buffers r)) s i (r_buffer_alloc r);
  s ← match r_group r with Some g => xrp_release_buffer_group s g | None => Some s end;
  ev ← r_event r;
  o ← object s ev;
  match o with
  | Event d _ =>
      let fail := negb (Z.land (load32 cmd (cmd_flags 0)) XRP_DSP_CMD_FLAG_RESPONSE_DELIVERY_FAIL =? 0) in
      xrp_release_event true
        (set_object s ev (Event d (if fail then XRP_STATUS_FAILURE else XRP_STATUS_SUCCESS))) ev
  | _ => None
  end.

(** One round: [None] inside when the queue is empty and the worker waits. *)
Definition xrp_queue_process (dsp : list (mem → mem)) (s : sim) (d : nat) : option (option sim) :=
  o ← object s d;
  match o with
  | Device i [] => Some None
  | Device i (r :: rqs) =>
      let s := set_object s d (Device i rqs) in
      s ← run_on_dsp dsp s i r;
      cmd ← answer s i r;
      s ← finish s i r cmd; Some (Some s)
  | _ => None
  end.

Definition xrp_event_status (s : sim) (ev : nat) : option xrp_status :=
  o ← object s ev; match o with Event _ st => Some st | _ => None end.

(** Waiting while the worker of [d] runs, at most one round per element. *)
Fixpoint xrp_wait (rounds : list (list (mem → mem))) (s : sim) (d ev : nat) : option sim :=
  status ← xrp_event_status s ev;
  if decide (status = XRP_STATUS_PENDING) then
    match rounds with
    | [] => None
    | dsp :: rounds => x ← xrp_queue_process dsp s d; s ← x; xrp_wait rounds s d ev
    end
  else Some s.

Definition xrp_run_command_sync (rounds : list (list (mem → mem))) (kz : callocs) (mem emem : bool) (junk : Mem.mem)
    (s : sim) (q : nat) (in_data : list Z) (out_data out_size : Z) (group : option nat)
  : option (sim * xrp_status) :=
  o ← object s q;
  match o with
  | Queue d _ =>
      x ← xrp_enqueue_command kz mem emem junk s q in_data out_data out_size group true;
      match x with
      | (s, Some ev, XRP_STATUS_SUCCESS) =>
          s ← xrp_wait rounds s d ev;
          status ← xrp_event_status s ev;
          s ← xrp_release_event false s ev; Some (s, status)
      | (s, _, status) => Some (s, status)
      end
  | _ => None
  end.
End sim_lib.
