(* ===== verification/SimRefs.v ===== *)
(** * References and pool memory in the simulator library

    Two invariants of xrp-linux-sim/xrp_linux_sim.c: the counting invariant
    of [RefHeap] for its objects, and, for the pools of the devices, that
    every allocation has exactly one owner - a buffer, a queued request, the
    call being executed, or an error path that forgot it.  Every function of
    [SimLib] keeps both. *)

From stdpp Require Import base tactics list gmap fin_maps numbers.
From S2P Require Import Prelude DspNs RefHeap Alloc PrivateAlloc Mem Interface SimMem SimLib.

(** ** Owners of pool memory *)

Definition heap_allocs (h : gmap nat (cell obj)) : list (nat * Z) :=
  map_to_list h ≫= λ kc, obj_allocs (c_obj kc.2).

Lemma heap_allocs_delete h p c :
  h !! p = Some c → heap_allocs h ≡ₚ obj_allocs (c_obj c) ++ heap_allocs (delete p h).
Proof. intros Hp. unfold heap_allocs. rewrite <- (map_to_list_delete h p c Hp) at 1. done. Qed.

Lemma heap_allocs_insert h p c :
  heap_allocs (<[p := c]> h) ≡ₚ obj_allocs (c_obj c) ++ heap_allocs (delete p h).
Proof. rewrite <- (delete_insert_eq h p c). apply heap_allocs_delete. by rewrite lookup_insert_eq. Qed.

(** A request whose allocations match its sizes. *)
Definition request_wf (r : request) : Prop :=
  ((XRP_DSP_CMD_INLINE_DATA_SIZE <? r_in_data_size r) = false → r_in_alloc r = None) ∧
  ((XRP_DSP_CMD_INLINE_DATA_SIZE <? r_out_data_size r) = false → r_out_alloc r = None) ∧
  ((XRP_DSP_CMD_INLINE_BUFFER_COUNT <? Z.of_nat (r_n_buffers r)) = false → r_buffer_alloc r = None) ∧
  length (r_user_alloc r) = r_n_buffers r.

Section sim_refs.
Context `{Arch}.

(** Sizes and descriptors as the allocator expects them. *)
Definition kz_ok (kz : callocs) : Prop := ∀ h, kz_fresh h (kz h).1 (kz h).2.
Definition size_ok (size : Z) : Prop := valid_request (u32 size) 0x10.

Definition obj_wf (o : obj) : Prop :=
  match o with
  | Device _ rqs => Forall request_wf rqs
  | Buffer _ _ size _ _ => size_ok size
  | _ => True
  end.

Implicit Types (s : sim) (D : list nat) (roots : list ref) (ex : list (nat * Z)).

(** [ex]: the allocations the running call has in hand; [D]: the objects
    being released, whose own are in hand already. *)
Definition owners D s ex : list (nat * Z) := ex ++ heap_allocs (minus (heap s) D) ++ leaked s.

Record sim_holds D s roots ex : Prop := {
  sh_refs : holds D (s_st s) roots;
  sh_wf : map_Forall (λ _ c, obj_wf (c_obj c)) (heap s);
  sh_pools : ∀ i st, pool_of s i = Some st → alloc_inv st;
  sh_nodup : NoDup (owners D s ex);
  sh_live : ∀ a, a ∈ owners D s ex ↔ is_Some (start_of s a);
}.

(** States that differ in memory and in who owns what. *)
Definition same_pools s s' : Prop := ∀ i, pool_of s' i = pool_of s i.

Lemma start_of_same s s' a : same_pools s s' → start_of s' a = start_of s a.
Proof. intros E. unfold start_of. by rewrite E. Qed.

Lemma sim_holds_move D D' s s' roots roots' ex ex' :
  sim_holds D s roots ex → holds D' (s_st s') roots' → map_Forall (λ _ c, obj_wf (c_obj c)) (heap s') →
  same_pools s s' → owners D' s' ex' ≡ₚ owners D s ex → sim_holds D' s' roots' ex'.
Proof.
  intros [_ _ Hp Hn Hl] Hr Hw Es Eo. split; [done | done | | |].
  - intros i st E. apply (Hp i). by rewrite <- Es.
  - by rewrite Eo.
  - intros a. rewrite Eo, Hl. by rewrite (start_of_same s s').
Qed.

Lemma sim_holds_perm D s roots roots' ex ex' :
  roots ≡ₚ roots' → ex ≡ₚ ex' → sim_holds D s roots ex → sim_holds D s roots' ex'.
Proof.
  intros Er Ee Hs. eapply sim_holds_move; [exact Hs | | apply Hs | done |].
  - eapply holds_perm; [exact Er |]. apply Hs.
  - unfold owners. by rewrite Ee.
Qed.

Lemma sim_holds_mem D s roots ex m : sim_holds D s roots ex → sim_holds D (set_mem s m) roots ex.
Proof. intros Hs. eapply sim_holds_move; [exact Hs | apply Hs | apply Hs | done | done]. Qed.

(** ** Pools *)

Lemma pool_of_set s i st st0 j :
  pool_of s i = Some st0 → pool_of (set_pool s i st) j = if decide (j = i) then Some st else pool_of s j.
Proof.
  unfold pool_of, set_pool. cbn. intros E. destruct (decide (j = i)) as [-> |].
  - rewrite list_lookup_alter_eq. destruct (gl_description (s_gl s) !! i); done.
  - by rewrite list_lookup_alter_ne.
Qed.

Lemma start_of_set s i st st0 a :
  pool_of s i = Some st0 →
  start_of (set_pool s i st) a = if decide (a.1 = i) then a_start <$> st_objs st !! a.2 else start_of s a.
Proof.
  intros E. unfold start_of. rewrite (pool_of_set s i st st0) by done. case_decide; [| done]. cbn.
  by destruct (st_objs st !! a.2).
Qed.

Lemma start_of_some s i p st : pool_of s i = Some st → start_of s (i, p) = a_start <$> st_objs st !! p.
Proof. intros E. unfold start_of. cbn. rewrite E. cbn. by destruct (st_objs st !! p). Qed.

(** Only the pools change. *)
Lemma sim_holds_pool D s roots ex ex' i st st0 :
  sim_holds D s roots ex → pool_of s i = Some st0 → alloc_inv st → NoDup (owners D s ex') →
  (∀ a, a ∈ owners D s ex' ↔ is_Some (start_of (set_pool s i st) a)) →
  sim_holds D (set_pool s i st) roots ex'.
Proof.
  intros Hs Ep Hi Hn Hl. split; [apply Hs | apply Hs | | done | done].
  intros j st' Ej. rewrite (pool_of_set s i st st0) in Ej by done. case_decide; [by simplify_eq |].
  by eapply (sh_pools _ _ _ _ Hs).
Qed.

Lemma allocate_holds D s roots ex kz i size s' x :
  sim_holds D s roots ex → kz_ok kz → size_ok size → allocate kz s i size = Some (s', x) →
  sim_holds D s' roots (((λ a : Z * Z, (i, a.1)) <$> option_list x) ++ ex) ∧
  s_st s' = s_st s ∧ s_mem s' = s_mem s ∧ leaked s' = leaked s.
Proof.
  intros Hs Hkz Hsz E. unfold allocate in E. apply bind_Some in E as (st & Ep & E).
  pose proof (sh_pools _ _ _ _ Hs i st Ep) as Hi.
  destruct (xrp_allocate _ _ st (u32 size) 16) as [[p | e] st'] eqn:Ea.
  - destruct (allocate_inv _ _ _ _ _ _ _ Hi (Hkz _) Hsz Ea) as (Hi' & Hnone & a & Eo & _).
    rewrite Eo, lookup_insert_eq in E. cbn in E. simplify_eq. cbn. split; [| done].
    assert (start_of s (i, p) = None) as Ef by (rewrite (start_of_some s i p st), Hnone; done).
    eapply sim_holds_pool; [exact Hs | exact Ep | done | |].
    + unfold owners. cbn. apply list.NoDup_cons. split; [| apply Hs].
      intros Hin. apply (sh_live _ _ _ _ Hs) in Hin as [? Hin]. congruence.
    + intros b. rewrite (start_of_set s i st' st b Ep). unfold owners. cbn. rewrite elem_of_cons.
      change (ex ++ heap_allocs (minus (heap s) D) ++ leaked s) with (owners D s ex).
      rewrite (sh_live _ _ _ _ Hs). destruct b as [j q]. cbn. rewrite Eo. case_decide as Ej; [subst j |].
      * destruct (decide (q = p)) as [-> |].
        -- rewrite lookup_insert_eq. split; [by eexists | by left].
        -- rewrite lookup_insert_ne by done. rewrite (start_of_some s i q st) by done. naive_solver.
      * naive_solver.
  - destruct (allocate_err_inv _ _ _ _ _ _ _ Hi (Hkz _) Hsz Ea) as [Hi' Eo]. simplify_eq. cbn. split; [| done].
    eapply sim_holds_pool; [exact Hs | exact Ep | done | apply Hs |].
    intros b. rewrite (sh_live _ _ _ _ Hs), (start_of_set s i st' st b Ep). destruct b as [j q]. cbn.
    case_decide as Ej; [subst j | done]. by rewrite Eo, (start_of_some s i q st).
Qed.

Lemma free_holds D s roots ex a s' :
  sim_holds D s roots (a :: ex) → free s a = Some s' →
  sim_holds D s' roots ex ∧ s_st s' = s_st s ∧ s_mem s' = s_mem s ∧ leaked s' = leaked s.
Proof.
  intros Hs E. unfold free in E. apply bind_Some in E as (st & Ep & E). apply bind_Some in E as (st' & Ef & E).
  unfold xrp_free in Ef. apply bind_Some in Ef as (x & Ex & Ef). simplify_eq. cbn. split; [| done].
  pose proof (sh_pools _ _ _ _ Hs a.1 st Ep) as Hi. destruct a as [i p]. cbn in *.
  pose proof (sh_nodup _ _ _ _ Hs) as Hn. unfold owners in Hn. cbn in Hn. apply list.NoDup_cons in Hn as [Hni Hn].
  eapply sim_holds_pool; [exact Hs | exact Ep | exact (alloc_inv_delete st p x Hi Ex) | done |].
  intros b. rewrite (start_of_set s i _ st b Ep). destruct b as [j q]. cbn.
  pose proof (sh_live _ _ _ _ Hs (j, q)) as Hl. unfold owners in Hl |- *. cbn in Hl. rewrite elem_of_cons in Hl.
  case_decide as Ej; [subst j |].
  - rewrite (start_of_some s i q st) in Hl by done. destruct (decide (q = p)) as [-> |].
    + rewrite lookup_delete_eq. split; [done |]. by intros [? ?].
    + rewrite lookup_delete_ne by done. rewrite <- Hl. split; [by right |]. intros [[=] | ?]; done.
  - rewrite <- Hl. split; [by right |]. intros [[=] | ?]; done.
Qed.

(** ** Objects *)

Lemma heap_allocs_count h p c n :
  h !! p = Some c → heap_allocs (<[p := add_count c n]> h) ≡ₚ heap_allocs h.
Proof. intros Hp. by rewrite heap_allocs_insert, (heap_allocs_delete h p c Hp). Qed.

Lemma wf_insert (h : gmap nat (cell obj)) p c c0 :
  map_Forall (λ _ c, obj_wf (c_obj c)) h → h !! p = Some c0 → c_obj c = c_obj c0 →
  map_Forall (λ _ c, obj_wf (c_obj c)) (<[p := c]> h).
Proof. intros Hw Hp E. apply map_Forall_insert_2; [| done]. rewrite E. by apply (Hw p c0). Qed.

Lemma object_cell s p o : object s p = Some o → ∃ c, heap s !! p = Some c ∧ c_obj c = o.
Proof. unfold object. intros (c & ? & ?)%bind_Some. simplify_eq. eauto. Qed.

Lemma last_cell s p c l : heap s !! p = Some c → last s p = Some l → l = (c_count c =? 1).
Proof. unfold last, last_refcount, heap. intros ->. cbn. congruence. Qed.

(** One more reference to an object something refers to. *)
Lemma retain_holds D s roots ex k p c s' :
  sim_holds D s roots ex → heap s !! p = Some c → p ∉ D → kind_of (c_obj c) = k → retain s p = Some s' →
  sim_holds D s' ((k, p) :: roots) ex ∧ same_pools s s' ∧
  s' = set_st s (set_hp (s_st s) (<[p := add_count c 1]> (heap s))).
Proof.
  intros Hs Hp HD <- E. unfold retain, retain_refcounted in E. change (hp (s_st s)) with (heap s) in E.
  rewrite Hp in E. cbn in E. injection E as <-. split; [| done].
  eapply sim_holds_move; [exact Hs | | | done |].
  - unfold holds. cbn. rewrite minus_insert by done. apply inv_retain; [apply Hs | by rewrite minus_out].
  - eapply wf_insert; [apply Hs | exact Hp | done].
  - unfold owners, heap. cbn. rewrite minus_insert by done.
    rewrite heap_allocs_count by (by rewrite minus_out). done.
Qed.

(** An object is changed: references and allocations move between it and the
    call. *)
Lemma set_holds D s roots0 roots roots' ex ex' p c o :
  sim_holds D s (roots0 ++ roots) ex → heap s !! p = Some c → p ∉ D → kind_of o = kind_of (c_obj c) →
  obj_refs o ++ roots' ≡ₚ obj_refs (c_obj c) ++ roots0 → obj_wf o →
  obj_allocs o ++ ex' ≡ₚ obj_allocs (c_obj c) ++ ex →
  (∀ e, e ∈ waits o → ∃ c', minus (heap s) D !! e = Some c' ∧ owner (c_obj c') = Some p) →
  owner o = owner (c_obj c) →
  sim_holds D (set_object s p o) (roots' ++ roots) ex'.
Proof.
  intros Hs Hp HD Hk Hr Hw Ha Hwait Hown.
  assert (heap (set_object s p o) = <[p := mk_cell (c_count c) o]> (heap s)) as Eh.
  { unfold heap. cbn. apply map_eq. intros q. destruct (decide (q = p)) as [-> |].
    - rewrite lookup_insert_eq, lookup_alter_eq. change (hp (s_st s)) with (heap s). by rewrite Hp.
    - by rewrite lookup_insert_ne, lookup_alter_ne. }
  eapply sim_holds_move; [exact Hs | | | done |].
  - eapply holds_set; [apply Hs | exact Hp | done..].
  - rewrite Eh. apply map_Forall_insert_2; [done | apply Hs].
  - unfold owners. rewrite Eh, minus_insert by done. rewrite heap_allocs_insert. cbn [c_obj].
    rewrite (heap_allocs_delete (minus (heap s) D) p c) by (by rewrite minus_out).
    rewrite !app_assoc, (Permutation_app_comm ex'), (Permutation_app_comm ex), Ha. done.
Qed.

Lemma alloc_object_holds s roots ex o k s' p :
  sim_holds [] s (obj_refs o ++ roots) (obj_allocs o ++ ex) → waits o = [] → kind_of o = k → obj_wf o →
  alloc_object true s o = (s', Some p) → sim_holds [] s' ((k, p) :: roots) ex.
Proof.
  intros Hs Hwt Hk Hw E. unfold alloc_object in E. destruct (alloc_refcounted (s_st s) o) as [st q] eqn:Ea.
  simplify_eq. eapply sim_holds_move; [exact Hs | | | done |].
  - eapply holds_alloc; [apply Hs | done | done | exact Ea].
  - injection Ea as <- <-. apply map_Forall_insert_2; [done | apply Hs].
  - injection Ea as <- <-. unfold owners, heap. cbn. rewrite heap_allocs_insert. cbn [c_obj].
    rewrite delete_id by apply not_elem_of_dom, is_fresh.
    rewrite !app_assoc. rewrite (Permutation_app_comm ex). done.
Qed.

(** References and allocations that are forgotten. *)
Lemma forget_holds D s roots0 roots ex0 ex :
  sim_holds D s (roots0 ++ roots) (ex0 ++ ex) →
  sim_holds D (set_st (leak s ex0) (lose (s_st s) roots0)) roots ex.
Proof.
  intros Hs. eapply sim_holds_move; [exact Hs | | apply Hs | done |].
  - pose proof (sh_refs _ _ _ _ Hs) as Hr. unfold holds in *. cbn. eapply inv_roots; [| exact Hr].
    rewrite !app_assoc. by rewrite (Permutation_app_comm roots).
  - unfold owners. cbn. rewrite !app_assoc. apply Permutation_app_tail.
    rewrite (Permutation_app_comm (ex ++ _)), !app_assoc. done.
Qed.

(** ** Releasing *)

Lemma release_shared_holds D s roots ex k p c s' :
  sim_holds D s ((k, p) :: roots) ex → heap s !! p = Some c → c_count c ≠ 1 → release s p = Some s' →
  sim_holds D s' roots ex ∧ keeps D (s_st s) (s_st s').
Proof.
  intros Hs Hp Hc E. pose proof (sh_refs _ _ _ _ Hs) as Hr.
  destruct (holds_lookup D _ _ k p Hr) as (c' & Hp' & _ & HD & _); [by left |].
  destruct (release_shared D (s_st s) roots k p c Hr Hp Hc) as (st & Est & Hk & Hr').
  unfold release in E. rewrite Est in E. injection E as <-. split; [| done].
  unfold release_refcounted in Est. change (hp (s_st s)) with (heap s) in Est. rewrite Hp in Est. cbn in Est.
  rewrite (proj2 (Z.eqb_neq _ _)) in Est by lia. injection Est as <-.
  eapply sim_holds_move; [exact Hs | done | | done |].
  - eapply wf_insert; [apply Hs | exact Hp | done].
  - unfold owners, heap. cbn. rewrite minus_insert by done.
    rewrite heap_allocs_count by (by rewrite minus_out). done.
Qed.

Lemma release_begin_holds D s roots ex k p c :
  sim_holds D s ((k, p) :: roots) ex → heap s !! p = Some c → c_count c = 1 →
  sim_holds (p :: D) s (obj_refs (c_obj c) ++ roots) (obj_allocs (c_obj c) ++ ex) ∧ p ∉ D.
Proof.
  intros Hs Hp Hc. destruct (release_begin D (s_st s) roots k p c (sh_refs _ _ _ _ Hs) Hp Hc) as [Hr HD].
  split; [| done]. eapply sim_holds_move; [exact Hs | done | apply Hs | done |].
  unfold owners. cbn. rewrite (heap_allocs_delete (minus (heap s) D) p c) by (by rewrite minus_out).
  rewrite !app_assoc. by rewrite (Permutation_app_comm ex).
Qed.

Lemma release_end_holds D s roots ex p c s' :
  sim_holds (p :: D) s roots ex → heap s !! p = Some c → c_count c = 1 → p ∉ D → release s p = Some s' →
  sim_holds D s' roots ex ∧ keeps D (s_st s) (s_st s').
Proof.
  intros Hs Hp Hc HD E.
  destruct (release_end D (s_st s) roots p c (sh_refs _ _ _ _ Hs) Hp Hc HD) as (st & Est & Hk & Hr & _).
  unfold release in E. rewrite Est in E. injection E as <-. split; [| done].
  unfold release_refcounted in Est. change (hp (s_st s)) with (heap s) in Est. rewrite Hp in Est. cbn in Est.
  rewrite Hc in Est. cbn in Est. injection Est as <-.
  eapply sim_holds_move; [exact Hs | done | | done |].
  - apply map_Forall_delete, Hs.
  - unfold owners, heap. cbn. by rewrite minus_delete.
Qed.

(** What every release function does with a reference in hand. *)
Definition releases (R : sim → nat → option sim) (k : kind) : Prop :=
  ∀ D s roots ex p s', sim_holds D s ((k, p) :: roots) ex → R s p = Some s' →
  sim_holds D s' roots ex ∧ keeps D (s_st s) (s_st s').

(** The beginning of a release function. *)
#[local] Ltac begin_release E c l Hp Hl Eo :=
  apply bind_Some in E as (? & Eo & E); apply object_cell in Eo as (c & Hp & Eo);
  apply bind_Some in E as (l & Hl & E); apply (last_cell _ _ _ _ Hp) in Hl as ->; subst.

Lemma release_device_holds self : releases (xrp_release_device self) KDevice.
Proof.
  intros D s roots ex d s' Hs E. unfold xrp_release_device, release_device_tested in E. rewrite object_tested in E. begin_release E c l Hp Hl Eo.
  destruct (c_obj c) as [i rqs | | | |] eqn:Eo; try done.
  destruct (Z.eqb_spec (c_count c) 1) as [Hc |]; [| by eapply release_shared_holds].
  destruct (release_begin_holds D s roots ex KDevice d c Hs Hp Hc) as [Hb HD]. rewrite Eo in Hb. cbn in Hb.
  destruct rqs as [| r rqs]; [by eapply release_end_holds |].
  destruct self; [| done]. apply bind_Some in E as (s1 & E1 & E). injection E as <-.
  destruct (release_end_holds D s _ _ d c s1 Hb Hp Hc HD E1) as [Hh Hk]. split; [| done].
  by apply forget_holds.
Qed.

Lemma release_buffer_holds : releases xrp_release_buffer KBuffer.
Proof.
  intros D s roots ex b s' Hs E. unfold xrp_release_buffer, release_buffer_tested in E. rewrite object_tested in E. begin_release E c l Hp Hl Eo.
  destruct (c_obj c) as [| a ptr size mc mf | | |] eqn:Eo; try done.
  destruct (Z.eqb_spec (c_count c) 1) as [Hc |];
    [| eapply release_shared_holds; [exact Hs | exact Hp | done | by destruct a]].
  destruct (release_begin_holds D s roots ex KBuffer b c Hs Hp Hc) as [Hb HD]. rewrite Eo in Hb. cbn in Hb.
  destruct a as [a |]; [| by eapply release_end_holds].
  apply bind_Some in E as (s1 & E1 & E). destruct (free_holds _ _ _ ex a s1 Hb E1) as (Hf & Est & _).
  destruct (release_end_holds D s1 roots ex b c s' Hf) as [Hh Hk]; [unfold heap; by rewrite Est | done | done | done |].
  split; [done |]. intros q Hq. rewrite Hk by done. by rewrite Est.
Qed.

Lemma release_records_holds D s roots ex l s' :
  sim_holds D s (((λ r : nat * Z, (KBuffer, r.1)) <$> l) ++ roots) ex → release_records s l = Some s' →
  sim_holds D s' roots ex ∧ keeps D (s_st s) (s_st s').
Proof.
  revert s. induction l as [| [b fl] l IH]; intros s Hs E; [by injection E as <- |]. cbn [release_records] in E.
  apply bind_Some in E as (s1 & E1 & E). cbn in Hs. destruct (release_buffer_holds D s _ ex b s1 Hs E1) as [Hs1 Hk1].
  destruct (IH s1 Hs1 E) as [Hs2 Hk2]. split; [done |]. by eapply keeps_trans.
Qed.

Lemma release_group_holds : releases xrp_release_buffer_group KGroup.
Proof.
  intros D s roots ex g s' Hs E. unfold xrp_release_buffer_group, release_group_tested in E. rewrite object_tested in E. begin_release E c l Hp Hl Eo.
  destruct (c_obj c) as [| | lk cap bufs | |] eqn:Eo; try done.
  destruct (Z.eqb_spec (c_count c) 1) as [Hc |]; [| by eapply release_shared_holds].
  destruct lk; [done |]. destruct (release_begin_holds D s roots ex KGroup g c Hs Hp Hc) as [Hb HD].
  rewrite Eo in Hb. cbn in Hb. apply bind_Some in E as (s1 & E1 & E).
  destruct (release_records_holds (g :: D) s roots ex bufs s1 Hb E1) as [Hh Hk].
  destruct (release_end_holds D s1 roots ex g c s' Hh) as [Hh' Hk']; [| done | done | done |].
  - unfold heap. by rewrite Hk by (by left).
  - split; [done |]. eapply keeps_trans; [by eapply keeps_tail | done].
Qed.

(** Queues and events hold a device only. *)
Lemma release_holder_holds self k (R : sim → nat → option sim) :
  (∀ s p, R s p = (o ← object s p; l ← last s p;
     match o with
     | Queue d _ => if decide (k = KQueue) then s ← (if l : bool then xrp_release_device self s d else Some s); release s p else None
     | Event d _ => if decide (k = KEvent) then s ← (if l : bool then xrp_release_device self s d else Some s); release s p else None
     | _ => None
     end)) → releases R k.
Proof.
  intros HR D s roots ex p s' Hs E. rewrite HR in E. begin_release E c l Hp Hl Eo.
  assert (∃ d, obj_refs (c_obj c) = [(KDevice, d)] ∧ obj_allocs (c_obj c) = [] ∧
    (s1 ← (if c_count c =? 1 then xrp_release_device self s d else Some s); release s1 p) = Some s') as (d & Er & Ea & E').
  { destruct (c_obj c) as [| | | d ns | d st]; try done; case_decide; try done; by exists d. }
  apply bind_Some in E' as (s1 & E1 & E'). destruct (Z.eqb_spec (c_count c) 1) as [Hc |].
  - destruct (release_begin_holds D s roots ex k p c Hs Hp Hc) as [Hb HD]. rewrite Er, Ea in Hb. cbn in Hb.
    destruct (release_device_holds self (p :: D) s roots ex d s1 Hb E1) as [Hh Hk].
    destruct (release_end_holds D s1 roots ex p c s' Hh) as [Hh' Hk']; [| done | done | done |].
    + unfold heap. by rewrite Hk by (by left).
    + split; [done |]. eapply keeps_trans; [by eapply keeps_tail | done].
  - injection E1 as <-. by eapply release_shared_holds.
Qed.

Lemma release_queue_holds : releases xrp_release_queue KQueue.
Proof. apply (release_holder_holds false). intros s p. unfold xrp_release_queue, release_queue_tested. rewrite object_tested. by destruct (object s p) as [[] |]. Qed.

Lemma release_event_holds self : releases (xrp_release_event self) KEvent.
Proof. apply (release_holder_holds self). intros s p. unfold xrp_release_event, release_event_tested. rewrite object_tested. by destruct (object s p) as [[] |]. Qed.
End sim_refs.
