(* ===== verification/SimClient.v ===== *)
(** * Clients of the simulator library

    A client holds references and makes calls, interleaved with rounds of the
    worker threads, whatever the simulated DSP does to the shared memory.
    Every call and every round keeps the invariant of [SimRefs]. *)

From stdpp Require Import base tactics list gmap fin_maps numbers.
From S2P Require Import Prelude DspNs RefHeap Alloc PrivateAlloc Mem Interface SimMem SimLib SimRefs.

(** Pool descriptors of description [i]. *)
Definition gots (i : nat) (us : list (option Z)) : list (nat * Z) := (λ p, (i, p)) <$> omap id us.

Lemma gots_app i us vs : gots i (us ++ vs) = gots i us ++ gots i vs.
Proof. unfold gots. by rewrite omap_app, fmap_app. Qed.

Lemma gots_cons i u us : gots i (u :: us) = ((λ p, (i, p)) <$> option_list u) ++ gots i us.
Proof. by destruct u. Qed.

Section sim_client.
Context `{Arch} (kz : callocs) (Hkz : kz_ok kz).
Implicit Types (s : sim) (roots : list ref).

(** ** Enqueueing *)

Lemma shm_write_holds D s roots ex start off l s' :
  sim_holds D s roots ex → shm_write s start off l = Some s' →
  sim_holds D s' roots ex ∧ s_st s' = s_st s.
Proof.
  intros Hs E. unfold shm_write in E. apply bind_Some in E as (p & _ & E). destruct (accessible _ _ _); [| done].
  injection E as <-. split; [by apply sim_holds_mem | done].
Qed.

Lemma allocate_gots D s roots i us size s' x :
  sim_holds D s roots (gots i us) → size_ok size → allocate kz s i size = Some (s', x) →
  sim_holds D s' roots (gots i (us ++ [fst <$> x])) ∧ s_st s' = s_st s.
Proof.
  intros Hs Hz E. destruct (allocate_holds _ _ _ _ _ _ _ _ _ Hs Hkz Hz E) as (Hs' & Est & _). split; [| done].
  eapply sim_holds_perm; [done | | exact Hs']. rewrite gots_app, gots_cons, Permutation_app_comm.
  rewrite app_nil_r. by destruct x.
Qed.

Lemma place_holds D s roots i us big size cmd field s' x :
  sim_holds D s roots (gots i us) → size_ok size → place kz s i big size cmd field = Some (s', x) →
  s_st s' = s_st s ∧
  match x with
  | Some (_, a) => sim_holds D s' roots (gots i (us ++ [alloc_ptr a])) ∧ (big = false → a = None)
  | None => sim_holds D s' roots (gots i us)
  end.
Proof.
  intros Hs Hz E. unfold place in E. destruct big.
  - apply bind_Some in E as ([s1 a] & Ea & E). destruct (allocate_gots _ _ _ _ _ _ _ _ Hs Hz Ea) as [Hs1 Est].
    destruct a as [a |]; simplify_eq; split; try done. by rewrite gots_app, app_nil_r in Hs1.
  - simplify_eq. split; [done |]. split; [| done]. by rewrite gots_app, app_nil_r.
Qed.

Lemma fill_holds D s roots ex cmd at_ field off l s' cmd' :
  sim_holds D s roots ex → fill s cmd at_ field off l = Some (s', cmd') →
  sim_holds D s' roots ex ∧ s_st s' = s_st s.
Proof.
  intros Hs E. unfold fill in E. destruct at_ as [start |]; [| by simplify_eq].
  apply bind_Some in E as (s1 & E1 & E). simplify_eq. by eapply shm_write_holds.
Qed.

Lemma place_buffer_holds D s roots i us a ptr size s' x :
  sim_holds D s roots (gots i us) → size_ok size → place_buffer kz s i a ptr size = Some (s', x) →
  s_st s' = s_st s ∧
  match x with
  | Some (u, _) => sim_holds D s' roots (gots i (us ++ [u]))
  | None => sim_holds D s' roots (gots i us)
  end.
Proof.
  intros Hs Hz E. unfold place_buffer in E. destruct a as [a |].
  - apply bind_Some in E as (st & _ & E). simplify_eq. split; [done |]. by rewrite gots_app, app_nil_r.
  - apply bind_Some in E as ([s1 y] & Ea & E). destruct (allocate_gots _ _ _ _ _ _ _ _ Hs Hz Ea) as [Hs1 Est].
    destruct y as [[p st] |]; [| simplify_eq; split; [done |]; by rewrite gots_app, app_nil_r in Hs1].
    apply bind_Some in E as (s2 & E2 & E). simplify_eq.
    destruct (shm_write_holds _ _ _ _ _ _ _ _ Hs1 E2) as [Hs2 Est2]. split; [congruence | done].
Qed.

Lemma place_buffers_holds D s roots i us cmd at_ k l x :
  sim_holds D s roots (gots i us) → place_buffers kz s i cmd at_ k l = Some x →
  match x with
  | Placed s' _ user => sim_holds D s' roots (gots i (us ++ user)) ∧ s_st s' = s_st s ∧ length user = length l
  | Refused s' user _ => sim_holds D s' roots (gots i (us ++ user)) ∧ s_st s' = s_st s
  end.
Proof.
  revert s us cmd k x. induction l as [| [b fl] l IH]; intros s us cmd k x Hs E; cbn [place_buffers] in E.
  { injection E as <-. by rewrite app_nil_r. }
  apply bind_Some in E as (o & Eo & E). apply object_cell in Eo as (c & Hp & Eo).
  destruct o as [| a ptr size mc mf | | |]; try done.
  assert (size_ok size) as Hz.
  { pose proof (sh_wf _ _ _ _ Hs b c Hp) as Hw. cbn in Hw. by rewrite Eo in Hw. }
  destruct (0 <? mc); [injection E as <-; by rewrite app_nil_r |].
  apply bind_Some in E as ([s1 y] & Eb & E). destruct (place_buffer_holds _ _ _ _ _ _ _ _ _ _ Hs Hz Eb) as [Est1 Hs1].
  destruct y as [[u addr] |]; [| injection E as <-; by rewrite app_nil_r].
  apply bind_Some in E as ([s2 cmd2] & Ef & E). destruct (fill_holds _ _ _ _ _ _ _ _ _ _ _ Hs1 Ef) as [Hs2 Est2].
  apply bind_Some in E as (r & Er & E). injection E as <-. specialize (IH _ _ _ _ _ Hs2 Er).
  destruct r as [s' cmd' user | s' user lk]; cbn [more]; rewrite <- app_assoc in IH; cbn [app fst snd] in IH.
  - destruct IH as (? & ? & Hl). split_and!; [done | congruence | cbn; by rewrite Hl].
  - destruct IH. split; [done | congruence].
Qed.

Lemma set_locked_holds s roots ex g lk s' :
  sim_holds [] s roots ex → set_locked s g lk = Some s' → sim_holds [] s' roots ex.
Proof.
  intros Hs E. unfold set_locked in E. destruct g as [g |]; [| by simplify_eq].
  apply bind_Some in E as (o & Eo & E). apply object_cell in Eo as (c & Hp & Eo).
  destruct o as [| | lk0 cap l | |]; try done. injection E as <-.
  apply (set_holds [] s [] roots [] ex ex g c); rewrite ?Eo; try done; [by apply not_elem_of_nil |].
  by intros e ?%not_elem_of_nil.
Qed.

Lemma enqueue_failed_holds s i g us roots s' ev st :
  sim_holds [] s (group_ref g ++ roots) (gots i us) → Some (enqueue_failed s i g us) = Some (s', ev, st) →
  sim_holds [] s' (match ev with Some e => (KEvent, e) :: roots | None => roots end) [].
Proof.
  intros Hs [= <- <- _]. apply (forget_holds [] s (group_ref g) roots (gots i us) []). by rewrite app_nil_r.
Qed.

Lemma object_st s s' p : s_st s' = s_st s → object s' p = object s p.
Proof. intros E. unfold object, heap. by rewrite E. Qed.

Lemma object_retain s p s' q : retain s p = Some s' → object s' q = object s q.
Proof.
  unfold retain, retain_refcounted, object, heap. intros E. apply bind_Some in E as (st & E & [= <-]).
  apply bind_Some in E as (c & Hp & [= <-]). cbn. destruct (decide (q = p)) as [-> |].
  - by rewrite lookup_insert_eq, Hp.
  - by rewrite lookup_insert_ne.
Qed.

(** A request takes over the references and allocations in hand. *)
Lemma queue_request_holds s roots d i rqs r :
  sim_holds [] s (request_refs r ++ roots) (request_allocs i r) → object s d = Some (Device i rqs) →
  request_wf r → (∀ e, r_event r = Some e → ∃ st, object s e = Some (Event d st)) →
  sim_holds [] (set_object s d (Device i (rqs ++ [r]))) roots [].
Proof.
  intros Hs Eo Hr Hev. apply object_cell in Eo as (c & Hp & Eo).
  apply (set_holds [] s (request_refs r) roots [] (request_allocs i r) [] d c); rewrite ?Eo; try done.
  - by apply not_elem_of_nil.
  - cbn. rewrite bind_app, app_nil_r. cbn. by rewrite app_nil_r.
  - pose proof (sh_wf _ _ _ _ Hs d c Hp) as Hw. cbn in Hw. rewrite Eo in Hw. cbn in Hw |- *.
    apply Forall_app. split; [done |]. by constructor.
  - cbn. rewrite bind_app, app_nil_r. cbn. by rewrite app_nil_r.
  - cbn. rewrite omap_app. intros e [He | He]%elem_of_app.
    + apply (i_link _ _ (sh_refs _ _ _ _ Hs) d c e Hp). by rewrite Eo.
    + cbn in He. destruct (r_event r) as [ev |]; [| by apply not_elem_of_nil in He].
      apply list_elem_of_singleton in He as ->. destruct (Hev ev eq_refl) as [st Ee].
      apply object_cell in Ee as (c' & Hc' & Ec'). exists c'. by rewrite Ec'.
Qed.

Lemma new_event_holds s roots ex d o s' ev :
  sim_holds [] s roots ex → object s d = Some o → kind_of o = KDevice → new_event s d = Some (s', ev) →
  sim_holds [] s' ((KEvent, ev) :: (KEvent, ev) :: roots) ex ∧
  object s' ev = Some (Event d XRP_STATUS_PENDING) ∧ object s' d = Some o.
Proof.
  intros Hs Eo Hk E. unfold new_event in E. apply bind_Some in E as (s1 & E1 & E).
  pose proof (object_retain _ _ _ d E1) as Eo1. rewrite Eo in Eo1.
  apply object_cell in Eo as (c & Hp & Ec). rewrite <- Ec in Hk.
  destruct (retain_holds [] s roots ex KDevice d c s1 Hs Hp) as (Hs1 & _ & _); [by apply not_elem_of_nil | done | done |].
  destruct (alloc_refcounted (s_st s1) _) as [st ev'] eqn:Ea. apply bind_Some in E as (s2 & E2 & E). simplify_eq.
  assert (alloc_object true s1 (Event d XRP_STATUS_PENDING) = (set_st s1 st, Some ev)) as Eal
    by (unfold alloc_object; by rewrite Ea).
  pose proof (alloc_object_holds s1 roots ex (Event d XRP_STATUS_PENDING) KEvent _ ev Hs1 eq_refl eq_refl I Eal) as Hs2.
  assert (object (set_st s1 st) ev = Some (Event d XRP_STATUS_PENDING) ∧
          object (set_st s1 st) d = Some (c_obj c)) as [Oe Od].
  { injection Ea as <- <-. unfold object, heap in *. cbn. rewrite lookup_insert_eq. split; [done |].
    rewrite lookup_insert_ne; [done |]. intros Ef. apply (is_fresh (dom (hp (s_st s1)))). rewrite Ef.
    apply elem_of_dom. destruct (hp (s_st s1) !! d); [by eexists | done]. }
  destruct (object_cell _ _ _ Oe) as (ce & Hce & Ece).
  destruct (retain_holds [] _ _ ex KEvent ev ce s' Hs2 Hce) as (Hs3 & _ & _);
    [by apply not_elem_of_nil | by rewrite Ece | done |].
  split; [done |]. by rewrite !(object_retain _ _ _ _ E2).
Qed.

(** Sizes a call asks the allocator for. *)
Definition group_size_ok s (g : option nat) : Prop :=
  ∀ l, group_buffers s g = Some l → size_ok (Z.of_nat (length l) * sizeof_dsp_buffer).

Lemma group_buffers_st s s' g : (∀ p, object s' p = object s p) → group_buffers s' g = group_buffers s g.
Proof. intros E. unfold group_buffers. destruct g; [by rewrite E | done]. Qed.

Lemma enqueue_holds s roots mem emem junk q in_data out_data out_size group evt s' ev st :
  sim_holds [] s roots [] → (∀ g, group = Some g → (KGroup, g) ∈ roots) →
  size_ok (Z.of_nat (length in_data)) → size_ok out_size → group_size_ok s group →
  xrp_enqueue_command kz mem emem junk s q in_data out_data out_size group evt = Some (s', ev, st) →
  sim_holds [] s' (match ev with Some e => (KEvent, e) :: roots | None => roots end) [].
Proof.
  intros Hs Hg Hzi Hzo Hzg E. unfold xrp_enqueue_command in E.
  apply bind_Some in E as (oq & Eq & E). destruct oq as [| | | d ns |]; try done.
  apply bind_Some in E as (i & Ei & E). destruct mem; [cbn [negb] in E | done].
  unfold description_of in Ei. apply bind_Some in Ei as (od & Eod & Ei). destruct od as [i' rqs | | | |]; try done.
  injection Ei as ->.
  (* the group *)
  apply bind_Some in E as (s1 & E1 & E).
  assert (sim_holds [] s1 (group_ref group ++ roots) (gots i []) ∧ ∀ p, object s1 p = object s p) as [H1 O1].
  { destruct group as [g |]; [| by simplify_eq]. split; [| intros p; by eapply object_retain].
    destruct (holds_lookup [] _ _ KGroup g (sh_refs _ _ _ _ Hs)) as (c & Hp & Hk & _); [by apply Hg |].
    by destruct (retain_holds [] s roots [] KGroup g c s1 Hs Hp) as (H1 & _); [apply not_elem_of_nil | | |]. }
  (* input data *)
  apply bind_Some in E as ([s2 x2] & E2 & E). destruct (place_holds _ _ _ _ _ _ _ _ _ _ _ H1 Hzi E2) as [S2 H2].
  destruct x2 as [[cmd2 a_in] |]; [destruct H2 as [H2 B2] | by eapply enqueue_failed_holds].
  apply bind_Some in E as ([s3 cmd3] & E3 & E). destruct (fill_holds _ _ _ _ _ _ _ _ _ _ _ H2 E3) as [H3 S3].
  (* output data *)
  cbn [fst snd] in E. apply bind_Some in E as ([s4 x4] & E4 & E).
  destruct (place_holds _ _ _ _ _ _ _ _ _ _ _ H3 Hzo E4) as [S4 H4].
  destruct x4 as [[cmd4 a_out] |]; [destruct H4 as [H4 B4] | by eapply enqueue_failed_holds].
  (* descriptors *)
  assert (∀ p, object s4 p = object s p) as O4 by (intros p; rewrite <- O1; apply object_st; congruence).
  apply bind_Some in E as (l & El & E). rewrite (group_buffers_st s s4) in El by done. specialize (Hzg l El).
  apply bind_Some in E as ([s5 x5] & E5 & E). destruct (place_holds _ _ _ _ _ _ _ _ _ _ _ H4 Hzg E5) as [S5 H5].
  destruct x5 as [[cmd5 a_buf] |]; [destruct H5 as [H5 B5] | by eapply enqueue_failed_holds].
  cbn [app] in H5.
  (* buffers *)
  apply bind_Some in E as (r & E6 & E). pose proof (place_buffers_holds _ _ _ _ _ _ _ _ _ _ H5 E6) as H6.
  destruct r as [s6 cmd6 user | s6 user lk].
  2:{ destruct H6 as [H6 _]. apply bind_Some in E as (s7 & E7 & E).
      eapply enqueue_failed_holds; [| exact E]. by eapply set_locked_holds. }
  destruct H6 as (H6 & S6 & L6).
  assert (∀ p, object s6 p = object s p) as O6 by (intros p; rewrite <- O4; apply object_st; congruence).
  destruct (evt && negb emem); [by eapply enqueue_failed_holds |].
  (* event *)
  apply bind_Some in E as ([s7 ev7] & E7 & E).
  assert (sim_holds [] s7 (match ev7 with Some e => [(KEvent, e); (KEvent, e)] | None => [] end ++ group_ref group ++ roots)
            (gots i ([alloc_ptr a_in; alloc_ptr a_out; alloc_ptr a_buf] ++ user)) ∧
          object s7 d = Some (Device i rqs) ∧ ∀ e, ev7 = Some e → ∃ st, object s7 e = Some (Event d st))
    as (H7 & Od & Oe).
  { destruct evt; [| simplify_eq; by rewrite O6]. apply bind_Some in E7 as ([s7' e] & E7 & [= <- <-]).
    destruct (new_event_holds s6 _ _ d (Device i rqs) s7' e H6) as (H7 & Oe & Od); [by rewrite O6 | done | done |].
    split_and!; [done | done |]. intros ? [= <-]. eauto. }
  (* into the queue *)
  apply bind_Some in E as (op & _ & E). apply bind_Some in E as (bp & _ & E). rewrite Od in E.
  cbn [mbind option_bind] in E. injection E as <- <- _.
  apply queue_request_holds.
  - eapply sim_holds_perm; [| reflexivity | exact H7]. unfold request_refs. cbn. unfold group_ref.
    destruct ev7 as [e |]; cbn; [| by rewrite app_nil_r]. destruct group; cbn.
    + rewrite (Permutation_swap (KGroup, _)). by rewrite (perm_swap (KGroup, _)).
    + done.
  - done.
  - split_and!; cbn; [| | | done].
    + intros Eb. by rewrite (B2 Eb).
    + intros Eb. by rewrite (B4 Eb).
    + intros Eb. by rewrite (B5 Eb).
  - done.
Qed.

(** ** A worker round *)

Lemma leak_holds D s roots ex0 ex : sim_holds D s roots (ex0 ++ ex) → sim_holds D (leak s ex0) roots ex.
Proof.
  intros Hs. eapply sim_holds_move; [exact Hs | apply Hs | apply Hs | done |].
  unfold owners. cbn. rewrite !app_assoc. apply Permutation_app_tail.
  rewrite (Permutation_app_comm (ex ++ _)), !app_assoc. done.
Qed.

Lemma free_if_holds D s roots i a us big s' :
  (big = false → a = None) → sim_holds D s roots (gots i (a :: us)) → free_if big s i a = Some s' →
  sim_holds D s' roots (gots i us).
Proof.
  intros Hb Hs E. unfold free_if in E. destruct big; [| rewrite (Hb eq_refl) in Hs; by simplify_eq].
  apply bind_Some in E as (p & -> & E). by destruct (free_holds D s roots (gots i us) (i, p) s' Hs E).
Qed.

Lemma return_buffers_holds s roots i cmd r k n l rest s' :
  sim_holds [] s roots (gots i (drop k (r_user_alloc r) ++ rest)) → (length (r_user_alloc r) = k + n)%nat →
  return_buffers s i cmd r k n l = Some s' → sim_holds [] s' roots (gots i rest).
Proof.
  revert s k. induction n as [| n IH]; intros s k Hs Hl E; cbn [return_buffers] in E.
  { injection E as <-. by rewrite drop_ge in Hs by lia. }
  apply bind_Some in E as (rec & _ & E). apply bind_Some in E as (o & _ & E).
  destruct (lookup_lt_is_Some_2 (r_user_alloc r) k) as [u Eu]; [lia |].
  rewrite (drop_S _ u k) in Hs by done. cbn [app] in Hs. rewrite gots_cons in Hs.
  destruct o as [| [a |] ptr size mc mf | | |]; try done.
  - rewrite Eu in E. cbn [mbind option_bind] in E. apply IH in E; [done | by apply leak_holds | lia].
  - apply bind_Some in E as (fl & _ & E). rewrite Eu in E. cbn [mbind option_bind] in E.
    destruct u as [p |]; [cbn [mbind option_bind] in E | done]. apply bind_Some in E as (s1 & E1 & E).
    assert (sim_holds [] s1 roots ((i, p) :: gots i (drop (S k) (r_user_alloc r) ++ rest))) as Hs1.
    { destruct (_ =? 0); [by simplify_eq |]. apply bind_Some in E1 as (st & _ & E1).
      apply bind_Some in E1 as (dat & _ & E1). simplify_eq. by apply sim_holds_mem. }
    apply bind_Some in E as (s2 & E2 & E). destruct (free_holds _ _ _ _ _ _ Hs1 E2) as (Hs2 & _).
    apply IH in E; [done | done | lia].
Qed.

Lemma set_event_holds s roots ex ev d st st' :
  sim_holds [] s roots ex → object s ev = Some (Event d st) → sim_holds [] (set_object s ev (Event d st')) roots ex.
Proof.
  intros Hs Eo. apply object_cell in Eo as (c & Hp & Eo).
  apply (set_holds [] s [] roots [] ex ex ev c); rewrite ?Eo; try done; [by apply not_elem_of_nil |].
  by intros e ?%not_elem_of_nil.
Qed.

Lemma finish_holds s roots i r cmd s' :
  sim_holds [] s (request_refs r ++ roots) (request_allocs i r) → request_wf r → finish s i r cmd = Some s' →
  sim_holds [] s' roots [].
Proof.
  intros Hs (Wi & Wo & Wb & Wl) E. unfold finish in E. apply bind_Some in E as (out & _ & E).
  set (s0 := set_mem _ _) in E. assert (sim_holds [] s0 (request_refs r ++ roots) (request_allocs i r)) as H0
    by (by apply sim_holds_mem). clearbody s0. clear Hs.
  apply bind_Some in E as (s1 & E1 & E). apply (free_if_holds [] _ _ _ _ _ _ _ Wi H0) in E1 as H1. 
  apply bind_Some in E as (s2 & E2 & E). apply (free_if_holds [] _ _ _ _ _ _ _ Wo H1) in E2 as H2.
  apply bind_Some in E as (l & _ & E). apply bind_Some in E as (s3 & E3 & E).
  apply (return_buffers_holds _ (request_refs r ++ roots) _ _ _ _ _ _ [r_buffer_alloc r]) in E3 as H3;
    [| | by rewrite Wl].
  2:{ eapply sim_holds_perm; [done | | exact H2]. rewrite gots_app. cbn [drop].
      rewrite (gots_cons _ (r_buffer_alloc r) []), (gots_cons _ (r_buffer_alloc r)), app_nil_r.
      apply Permutation_app_comm. }
  apply bind_Some in E as (s4 & E4 & E). apply (free_if_holds [] _ _ _ _ _ _ _ Wb H3) in E4 as H4.
  apply bind_Some in E as (s5 & E5 & E).
  assert (sim_holds [] s5 (match r_event r with Some e => [(KEvent, e)] | None => [] end ++ roots) []) as H5.
  { unfold request_refs in H4. destruct (r_group r) as [g |]; [| by simplify_eq].
    by destruct (release_group_holds [] s4 _ [] g s5 H4 E5). }
  apply bind_Some in E as (ev & Ev & E). rewrite Ev in H5. apply bind_Some in E as (o & Eo & E).
  destruct o as [| | | | d st]; try done. eapply release_event_holds; [| exact E].
  by eapply set_event_holds.
Qed.

(** The oldest request leaves the queue. *)
Lemma dequeue_holds s roots d i r rqs :
  sim_holds [] s roots [] → object s d = Some (Device i (r :: rqs)) →
  sim_holds [] (set_object s d (Device i rqs)) (request_refs r ++ roots) (request_allocs i r) ∧ request_wf r.
Proof.
  intros Hs Eo. apply object_cell in Eo as (c & Hp & Eo). pose proof (sh_wf _ _ _ _ Hs d c Hp) as Hw. cbn in Hw.
  rewrite Eo in Hw. cbn in Hw. apply list.Forall_cons in Hw as [Hwr Hw]. split; [| done].
  apply (set_holds [] s [] roots (request_refs r) [] (request_allocs i r) d c); rewrite ?Eo; try done.
  - by apply not_elem_of_nil.
  - cbn. rewrite app_nil_r. apply Permutation_app_comm.
  - cbn. rewrite app_nil_r. apply Permutation_app_comm.
  - intros e He. apply (i_link _ _ (sh_refs _ _ _ _ Hs) d c e Hp). rewrite Eo. cbn in *.
    destruct (r_event r); [by right | done].
Qed.

Lemma worker_holds dsp s roots d s' :
  sim_holds [] s roots [] → xrp_queue_process dsp s d = Some (Some s') → sim_holds [] s' roots [].
Proof.
  intros Hs E. unfold xrp_queue_process in E. apply bind_Some in E as (o & Eo & E).
  destruct o as [i [| r rqs] | | | |]; try done. apply bind_Some in E as (s2 & E2 & E).
  apply bind_Some in E as (cmd & _ & E). apply bind_Some in E as (s3 & E3 & E). injection E as <-.
  destruct (dequeue_holds s roots d i r rqs Hs Eo) as [H1 Hwr].
  eapply finish_holds; [| exact Hwr | exact E3]. unfold run_on_dsp in E2.
  apply bind_Some in E2 as (dd & _ & E2). destruct (accessible _ _ _); [| done].
  apply bind_Some in E2 as (m1 & _ & E2). apply bind_Some in E2 as (m2 & _ & E2).
  apply bind_Some in E2 as (m3 & _ & E2). injection E2 as <-. by apply sim_holds_mem.
Qed.

(** ** Other calls *)

Lemma create_buffer_holds s roots mem device size host_ptr s' b :
  sim_holds [] s roots [] → size_ok size →
  xrp_create_buffer kz mem s device size host_ptr = Some (s', b) →
  sim_holds [] s' (match b with Some b => (KBuffer, b) :: roots | None => roots end) [].
Proof.
  intros Hs Hz E. unfold xrp_create_buffer in E. destruct host_ptr as [ptr |].
  - assert (Some (alloc_object mem s (Buffer None ptr size 0 0)) = Some (s', b)) as E' by (by destruct device). clear E.
    destruct mem; [| by simplify_eq/=]. destruct (alloc_object true s _) as [s1 [b1 |]] eqn:Ea; [| done].
    injection E' as <- <-. by apply (alloc_object_holds s roots [] (Buffer None ptr size 0 0) KBuffer) in Ea.
  - destruct device as [d |]; [| by simplify_eq]. destruct mem; [cbn [negb] in E | by simplify_eq/=].
    apply bind_Some in E as (i & _ & E). apply bind_Some in E as ([s1 x] & Ea & E).
    destruct (allocate_holds _ _ _ _ _ _ _ _ _ Hs Hkz Hz Ea) as (Hs1 & _).
    destruct x as [[p st] |]; [| by simplify_eq]. apply bind_Some in E as (v & _ & E).
    destruct (alloc_object true s1 _) as [s2 [b1 |]] eqn:Eb; [| done]. injection E as <- <-.
    by apply (alloc_object_holds s1 roots [] (Buffer (Some (i, p)) v size 0 0) KBuffer) in Eb.
Qed.

(** A reference of the client is to a live object of its kind. *)
Lemma held s roots ex k p :
  sim_holds [] s roots ex → (k, p) ∈ roots → ∃ c, heap s !! p = Some c ∧ kind_of (c_obj c) = k.
Proof.
  intros Hs Hin. destruct (holds_lookup [] _ _ k p (sh_refs _ _ _ _ Hs) Hin) as (c & ? & ? & _). eauto.
Qed.

Lemma retain_call_holds s roots k p s' :
  sim_holds [] s roots [] → (k, p) ∈ roots → retain s p = Some s' → sim_holds [] s' ((k, p) :: roots) [].
Proof.
  intros Hs Hin E. destruct (held s roots [] k p Hs Hin) as (c & Hp & Hk).
  by destruct (retain_holds [] s roots [] k p c s' Hs Hp) as [? _]; [apply not_elem_of_nil | ..].
Qed.

Lemma release_call_holds R k s roots p s' :
  releases R k → sim_holds [] s roots [] → (k, p) ∈ roots → R s p = Some s' →
  sim_holds [] s' (drop_handle (k, p) roots) [].
Proof.
  intros HR Hs Hin E. apply (HR [] s _ [] p s'); [| done].
  eapply sim_holds_perm; [| reflexivity | exact Hs]. by rewrite drop_handle_perm.
Qed.

(** An update of a buffer's map count and flags. *)
Lemma set_buffer_holds s roots b a ptr size mc mf mc' mf' :
  sim_holds [] s roots [] → object s b = Some (Buffer a ptr size mc mf) →
  sim_holds [] (set_object s b (Buffer a ptr size mc' mf')) roots [].
Proof.
  intros Hs Eo. apply object_cell in Eo as (c & Hp & Eo). pose proof (sh_wf _ _ _ _ Hs b c Hp) as Hw. cbn in Hw.
  rewrite Eo in Hw. apply (set_holds [] s [] roots [] [] [] b c); rewrite ?Eo; try done; [by apply not_elem_of_nil |].
  by intros e ?%not_elem_of_nil.
Qed.

(** The array of a group changes, and with it the references it holds. *)
Lemma set_group_holds s roots0 roots roots' g lk cap l cap' l' :
  sim_holds [] s (roots0 ++ roots) [] → object s g = Some (Group lk cap l) →
  ((λ r : nat * Z, (KBuffer, r.1)) <$> l') ++ roots' ≡ₚ ((λ r : nat * Z, (KBuffer, r.1)) <$> l) ++ roots0 →
  sim_holds [] (set_object s g (Group lk cap' l')) (roots' ++ roots) [].
Proof.
  intros Hs Eo Hl. apply object_cell in Eo as (c & Hp & Eo).
  apply (set_holds [] s roots0 roots roots' [] [] g c); rewrite ?Eo; try done; [by apply not_elem_of_nil |].
  by intros e ?%not_elem_of_nil.
Qed.

Lemma map_buffer_holds s roots b offset size flags s' v :
  sim_holds [] s roots [] → (KBuffer, b) ∈ roots → xrp_map_buffer s b offset size flags = Some (s', v) →
  sim_holds [] s' (match v with Some _ => (KBuffer, b) :: roots | None => roots end) [].
Proof.
  intros Hs Hin E. unfold xrp_map_buffer in E. apply bind_Some in E as (o & Eo & E).
  destruct o as [| a ptr bsize mc mf | | |]; try done. destruct (_ && _); [| by simplify_eq].
  apply bind_Some in E as (s1 & E1 & E). simplify_eq. eapply set_buffer_holds; [by eapply retain_call_holds |].
  by rewrite (object_retain _ _ _ _ E1).
Qed.

Lemma unmap_buffer_holds s roots b p s' st :
  sim_holds [] s roots [] → (KBuffer, b) ∈ roots → xrp_unmap_buffer s b p = Some (s', st) →
  sim_holds [] s' (if decide (st = XRP_STATUS_SUCCESS) then drop_handle (KBuffer, b) roots else roots) [].
Proof.
  intros Hs Hin E. unfold xrp_unmap_buffer in E. apply bind_Some in E as (o & Eo & E).
  destruct o as [| a ptr bsize mc mf | | |]; try done. destruct (_ && _); [| by simplify_eq].
  apply bind_Some in E as (s1 & E1 & E). simplify_eq. rewrite decide_True by done.
  eapply release_call_holds; [apply release_buffer_holds | by eapply set_buffer_holds | done | done].
Qed.

Lemma add_buffer_holds s roots realloc g b fl s' x :
  sim_holds [] s roots [] → (KBuffer, b) ∈ roots → xrp_add_buffer_to_group realloc s g b fl = Some (s', x) →
  sim_holds [] s' roots [].
Proof.
  intros Hs Hin E. unfold xrp_add_buffer_to_group in E. apply bind_Some in E as (o & Eo & E).
  destruct o as [| | [] cap l | |]; try done. destruct (_ && _); [by simplify_eq |].
  apply bind_Some in E as (s1 & E1 & E). simplify_eq.
  apply (set_group_holds s1 [(KBuffer, b)] roots [] g false cap l); [by eapply retain_call_holds | |].
  - by rewrite (object_retain _ _ _ _ E1).
  - rewrite fmap_app, app_nil_r. done.
Qed.

Lemma replace_buffer_holds s roots g index b fl s' st :
  sim_holds [] s roots [] → (KBuffer, b) ∈ roots → xrp_set_buffer_in_group s g index b fl = Some (s', st) →
  sim_holds [] s' roots [].
Proof.
  intros Hs Hin E. unfold xrp_set_buffer_in_group in E. apply bind_Some in E as (s1 & E1 & E).
  pose proof (retain_call_holds _ _ _ _ _ Hs Hin E1) as H1. apply bind_Some in E as (o & Eo & E).
  destruct o as [| | [] cap l | |]; try done. destruct (l !! index) as [[old fl'] |] eqn:Ei.
  - apply bind_Some in E as (s2 & E2 & E). simplify_eq. eapply release_buffer_holds; [| exact E2].
    apply (set_group_holds s1 [(KBuffer, b)] roots [(KBuffer, old)] g false cap l); [done | done |].
    apply (fmap_insert_perm l index (old, fl') (b, fl) Ei).
  - apply bind_Some in E as (s2 & E2 & E). simplify_eq. by eapply release_buffer_holds.
Qed.

Lemma get_buffer_holds s roots g idx s' b :
  sim_holds [] s roots [] → xrp_get_buffer_from_group s g idx = Some (s', b) →
  sim_holds [] s' (match b with Some b => (KBuffer, b) :: roots | None => roots end) [].
Proof.
  intros Hs E. unfold xrp_get_buffer_from_group in E. apply bind_Some in E as (o & Eo & E).
  destruct o as [| | [] cap l | |]; try done. destruct (l !! idx) as [[b1 fl] |] eqn:Ei; [| by simplify_eq].
  apply bind_Some in E as (s1 & E1 & E). simplify_eq. apply object_cell in Eo as (c & Hp & Eo).
  destruct (holds_inner [] _ _ g c KBuffer b1 (sh_refs _ _ _ _ Hs) Hp) as (cb & Hb & Hk).
  - apply not_elem_of_nil.
  - rewrite Eo. apply list_elem_of_fmap. exists (b1, fl). split; [done |]. by eapply list_elem_of_lookup_2.
  - by destruct (retain_holds [] s roots [] KBuffer b1 cb s' Hs Hb) as [? _]; [apply not_elem_of_nil | ..].
Qed.

Lemma create_queue_holds s roots mem device ns s' q :
  sim_holds [] s roots [] → (∀ d, device = Some d → (KDevice, d) ∈ roots) →
  xrp_create_ns_queue mem s device ns = Some (s', q) →
  sim_holds [] s' (match q with Some q => (KQueue, q) :: roots | None => roots end) [].
Proof.
  intros Hs Hin E. unfold xrp_create_ns_queue in E. destruct device as [d |]; [| by simplify_eq].
  destruct mem; [| by simplify_eq]. apply bind_Some in E as (s1 & E1 & E).
  destruct (alloc_object true s1 (Queue d ns)) as [s2 [q1 |]] eqn:Ea; [| done]. simplify_eq.
  apply (alloc_object_holds s1 roots [] (Queue d ns) KQueue) in Ea; try done.
  eapply retain_call_holds; [done | by apply Hin | done].
Qed.
End sim_client.
