(* ===== verification/SimSteps.v ===== *)
(** * Runs of clients of the simulator library

    The calls of a client of xrp-linux-sim/xrp_linux_sim.c and the rounds of
    the worker threads of its devices, whatever the simulated DSPs do, as
    steps that do not overlap in time, and that every step keeps the
    invariants of [SimRefs]. *)

From stdpp Require Import base tactics list gmap fin_maps numbers.
From S2P Require Import Prelude DspNs RefHeap Alloc PrivateAlloc Mem Interface SimMem SimLib SimRefs SimClient.

(** ** Calls *)

Inductive call :=
| OpenDevice (mem : bool) (idx : Z)
| Retain (r : ref)
| Release (r : ref)
| CreateBuffer (mem : bool) (device : option nat) (size : Z) (host_ptr : option Z)
| MapBuffer (b : nat) (offset size flags : Z)
| UnmapBuffer (b : nat) (p : Z)
| CreateGroup (mem : bool)
| AddBuffer (realloc : bool) (g b : nat) (flags : Z)
| SetBuffer (g index b : nat) (flags : Z)
| GetBuffer (g idx : nat)
| CreateQueue (mem : bool) (device : option nat) (nsid : option (list Z))
| EnqueueCommand (mem emem : bool) (junk : Mem.mem) (q : nat) (in_data : list Z) (out_data out_size : Z)
    (group : option nat) (evt : bool)
| BufferInfo (b : nat) (info : option xrp_buffer_info) (out_sz : Z)
| GroupInfo (g : nat) (info : option xrp_buffer_group_info) (idx : nat) (out_sz : Z)
| EventStatus (ev : nat).

(** The references a call is given. *)
Definition needs (c : call) : list ref :=
  let opt k (x : option nat) := match x with Some p => [(k, p)] | None => [] end in
  match c with
  | OpenDevice _ _ | CreateGroup _ => []
  | Retain r | Release r => [r]
  | CreateBuffer _ d _ _ | CreateQueue _ d _ => opt KDevice d
  | MapBuffer b _ _ _ | UnmapBuffer b _ | BufferInfo b _ _ => [(KBuffer, b)]
  | AddBuffer _ g b _ | SetBuffer g _ b _ => [(KGroup, g); (KBuffer, b)]
  | GetBuffer g _ | GroupInfo g _ _ _ => [(KGroup, g)]
  | EnqueueCommand _ _ _ q _ _ _ g _ => (KQueue, q) :: opt KGroup g
  | EventStatus ev => [(KEvent, ev)]
  end.

Section sim_steps.
Context `{A : Arch} (e : sim_env) (kz : callocs).

Definition xrp_retain (s : sim) (r : ref) : option sim :=
  match r.1 with
  | KDevice => xrp_retain_device s r.2
  | KBuffer => xrp_retain_buffer s r.2
  | KGroup => xrp_retain_buffer_group s r.2
  | KQueue => xrp_retain_queue s r.2
  | KEvent => xrp_retain_event s r.2
  end.
Lemma sim_retain_eq s r : xrp_retain s r = retain s r.2.
Proof. by destruct r as [[] ?]. Qed.

Definition xrp_release (s : sim) (r : ref) : option sim :=
  match r.1 with
  | KDevice => xrp_release_device false s r.2
  | KBuffer => xrp_release_buffer s r.2
  | KGroup => xrp_release_buffer_group s r.2
  | KQueue => xrp_release_queue s r.2
  | KEvent => xrp_release_event false s r.2
  end.

Definition gains (k : kind) (H : list ref) (x : sim * option nat) : sim * list ref :=
  (x.1, match x.2 with Some p => (k, p) :: H | None => H end).

(** The client's view of a call: the state and the references it then holds. *)
Definition exec (s : sim) (H : list ref) (c : call) : option (sim * list ref) :=
  match c with
  | OpenDevice mem idx => x ← xrp_open_device 0 e mem s idx; Some (gains KDevice H x)
  | Retain r => s ← xrp_retain s r; Some (s, r :: H)
  | Release r => s ← xrp_release s r; Some (s, drop_handle r H)
  | CreateBuffer mem d size host_ptr => x ← xrp_create_buffer kz mem s d size host_ptr; Some (gains KBuffer H x)
  | MapBuffer b offset size flags =>
      x ← xrp_map_buffer s b offset size flags;
      Some (x.1, match x.2 with Some _ => (KBuffer, b) :: H | None => H end)
  | UnmapBuffer b p =>
      x ← xrp_unmap_buffer s b p;
      Some (x.1, if decide (x.2 = XRP_STATUS_SUCCESS) then drop_handle (KBuffer, b) H else H)
  | CreateGroup mem => Some (gains KGroup H (xrp_create_buffer_group mem s))
  | AddBuffer realloc g b flags => x ← xrp_add_buffer_to_group realloc s g b flags; Some (x.1, H)
  | SetBuffer g index b flags => x ← xrp_set_buffer_in_group s g index b flags; Some (x.1, H)
  | GetBuffer g idx => x ← xrp_get_buffer_from_group s g idx; Some (gains KBuffer H x)
  | CreateQueue mem d nsid => x ← xrp_create_ns_queue mem s d nsid; Some (gains KQueue H x)
  | EnqueueCommand mem emem junk q in_data out_data out_size group evt =>
      x ← xrp_enqueue_command kz mem emem junk s q in_data out_data out_size group evt;
      Some (gains KEvent H x.1)
  | BufferInfo b info out_sz => _ ← xrp_buffer_get_info s b info out_sz; Some (s, H)
  | GroupInfo g info idx out_sz => _ ← xrp_buffer_group_get_info s g info idx out_sz; Some (s, H)
  | EventStatus ev => _ ← xrp_event_status s ev; Some (s, H)
  end.

(** Devices are opened once the library is initialised, and sizes are in the
    range the pool allocator can represent. *)
Definition valid_call (s : sim) (c : call) : Prop :=
  match c with
  | OpenDevice _ _ => gl_count (s_gl s) ≠ 0%nat
  | CreateBuffer _ _ size _ => size_ok size
  | EnqueueCommand _ _ _ _ in_data _ out_size group _ =>
      size_ok (Z.of_nat (length in_data)) ∧ size_ok out_size ∧ group_size_ok s group
  | _ => True
  end.

(** A call of the client, or a round of the worker of a device. *)
Inductive step : sim * list ref → sim * list ref → Prop :=
| step_call c s H s' H' :
    needs c ⊆ H → valid_call s c → exec s H c = Some (s', H') → step (s, H) (s', H')
| step_worker dsp d s H s' : xrp_queue_process dsp s d = Some (Some s') → step (s, H) (s', H).

#[export] Instance valid_call_dec s c : Decision (valid_call s c).
Proof.
  assert (∀ size, Decision (size_ok size)) by (intros; unfold size_ok; apply _).
  assert (∀ g, Decision (group_size_ok s g)) as Hg.
  { intros g. unfold group_size_ok. destruct (group_buffers s g) as [l |].
    - destruct (decide (size_ok (Z.of_nat (length l) * sizeof_dsp_buffer))); [left; congruence |].
      right. intros Hl. by apply n, Hl.
    - by left. }
  destruct c; cbn; apply _.
Defined.

(** The state [initialize] leaves: no object, and pools that are consistent
    and have nothing allocated. *)
Definition initial (s : sim) : Prop :=
  s_st s = mk_store ∅ [] ∧ leaked s = [] ∧ ∀ i st, pool_of s i = Some st → alloc_inv st ∧ st_objs st = ∅.

(** Runs that can be evaluated. *)
Inductive action := Call (c : call) | Worker (dsp : list (mem → mem)) (d : nat).

Definition act (x : sim * list ref) (a : action) : option (sim * list ref) :=
  match a with
  | Call c => if decide (Forall (.∈ x.2) (needs c) ∧ valid_call x.1 c) then exec x.1 x.2 c else None
  | Worker dsp d => y ← xrp_queue_process dsp x.1 d; s ← y; Some (s, x.2)
  end.
Fixpoint acts (x : sim * list ref) (l : list action) : option (sim * list ref) :=
  match l with [] => Some x | a :: l => x ← act x a; acts x l end.

Lemma sim_act_step x a y : act x a = Some y → step x y.
Proof.
  destruct x as [s H], y as [s' H'], a as [c | dsp d]; cbn.
  - case_decide as Hn; [| done]. destruct Hn as [Hn Hv]. intros E. apply (step_call c); [| done | done].
    intros r Hr. rewrite list.Forall_forall in Hn. by apply Hn.
  - intros E. destruct (xrp_queue_process dsp s d) as [[s1 |] |] eqn:Eq; try done. cbn in E. injection E as <- <-.
    by apply (step_worker dsp d).
Qed.

Lemma sim_acts_reachable x l : is_Some (acts x l) → rtc step x (default x (acts x l)).
Proof.
  intros [y Ey]. rewrite Ey. cbn. revert x Ey. induction l as [| a l IH]; intros x Ey; cbn in Ey; [by simplify_eq |].
  apply bind_Some in Ey as (z & Ez & Ey). eapply rtc_l; [by eapply sim_act_step | by apply IH].
Qed.

(** ** Every step keeps the invariant *)

Context (Hkz : kz_ok kz).

Lemma open_device_holds s H mem idx s' d :
  sim_holds [] s H [] → gl_count (s_gl s) ≠ 0%nat → xrp_open_device 0 e mem s idx = Some (s', d) →
  sim_holds [] s' (match d with Some d => (KDevice, d) :: H | None => H end) [].
Proof.
  intros Hs Hc E. unfold xrp_open_device in E. rewrite (proj2 (Nat.eqb_neq _ _) Hc) in E. cbn [mbind option_bind] in E.
  destruct (_ || _); [by simplify_eq |]. destruct mem; [| by simplify_eq/=].
  destruct (alloc_object true s _) as [s1 [d1 |]] eqn:Ea; [| done]. simplify_eq.
  by apply (alloc_object_holds s H [] (Device (Z.to_nat idx) []) KDevice) in Ea; [.. | apply list.Forall_nil].
Qed.

Lemma release_any_holds s H r s' :
  sim_holds [] s H [] → r ∈ H → xrp_release s r = Some s' → sim_holds [] s' (drop_handle r H) [].
Proof.
  intros Hs Hin E. destruct r as [k p]. unfold xrp_release in E. cbn in E.
  destruct k; (eapply release_call_holds; [| exact Hs | exact Hin | exact E]);
    auto using release_device_holds, release_buffer_holds, release_group_holds, release_queue_holds, release_event_holds.
Qed.

Lemma exec_holds s H c s' H' :
  sim_holds [] s H [] → needs c ⊆ H → valid_call s c → exec s H c = Some (s', H') → sim_holds [] s' H' [].
Proof.
  intros Hs Hn Hv E. assert (∀ r, r ∈ needs c → r ∈ H) as Hin by (intros r; apply Hn).
  destruct c; cbn [exec needs valid_call] in *;
    try (apply bind_Some in E as (x & E1 & E)); try destruct x as [s1 x]; unfold gains in E; simplify_eq/=.
  - by eapply open_device_holds.
  - rewrite sim_retain_eq in *. destruct r as [k p]. eapply retain_call_holds; [exact Hs | apply Hin; by left | done].
  - eapply release_any_holds; [exact Hs | apply Hin; by left | done].
  - by eapply create_buffer_holds.
  - eapply map_buffer_holds; [exact Hs | apply Hin; by left | exact E1].
  - eapply unmap_buffer_holds; [exact Hs | apply Hin; by left | exact E1].
  - destruct mem; [| done]. unfold xrp_create_buffer_group. destruct (alloc_object true s _) as [s1 [g |]] eqn:Ea; [| done].
    by apply (alloc_object_holds s H [] (Group false 0 []) KGroup) in Ea.
  - eapply add_buffer_holds; [exact Hs | apply Hin; right; by left | exact E1].
  - eapply replace_buffer_holds; [exact Hs | apply Hin; right; by left | exact E1].
  - by eapply get_buffer_holds.
  - eapply create_queue_holds; [exact Hs | | exact E1]. intros d ->. apply Hin. by left.
  - destruct s1 as [s1 ev1]. destruct Hv as (? & ? & ?). eapply (enqueue_holds kz Hkz); [exact Hs | | done.. | exact E1].
    intros g ->. apply Hin. right. by left.
  - done.
  - done.
  - done.
Qed.

Lemma step_holds s H s' H' : step (s, H) (s', H') → sim_holds [] s H [] → sim_holds [] s' H' [].
Proof.
  inversion 1; subst; intros Hs; [by eapply exec_holds | by eapply worker_holds].
Qed.

Lemma initial_holds s : initial s → sim_holds [] s [] [].
Proof.
  intros (Es & El & Hp).
  assert (heap s = ∅) as Eh by (unfold heap; by rewrite Es).
  assert (owners [] s [] = []) as Eo.
  { unfold owners. cbn [minus app]. rewrite Eh, El. done. }
  split.
  - rewrite Es. apply empty_ok.
  - rewrite Eh. apply map_Forall_empty.
  - intros i st E. by apply (Hp i st).
  - rewrite Eo. constructor.
  - intros [i p]. rewrite Eo. split; [by intros ?%not_elem_of_nil |]. intros [x E].
    destruct (pool_of s i) as [st |] eqn:Ep; [| by unfold start_of in E; cbn in E; rewrite Ep in E].
    rewrite (start_of_some s i p st Ep), (proj2 (Hp i st Ep)), lookup_empty in E. done.
Qed.

Lemma reachable_holds s0 s H : initial s0 → rtc step (s0, []) (s, H) → sim_holds [] s H [].
Proof.
  intros Hi Hr. apply initial_holds in Hi. remember (s0, []) as x eqn:Ex. remember (s, H) as y eqn:Ey.
  assert (sim_holds [] x.1 x.2 []) as Hx by (by rewrite Ex). clear Ex Hi.
  revert s H Ey. induction Hr as [| x z y Hxz Hr IH]; intros s H Ey; [by rewrite Ey in Hx |].
  apply IH; [| done]. destruct x, z. by eapply step_holds.
Qed.
End sim_steps.
