(* ===== verification/SimLost.v ===== *)
(** * What the simulator library forgets (xrp-linux-sim/xrp_linux_sim.c)

    References and pool memory that code paths drop without giving them
    back are kept in [lost] and [leaked].  A call of the client adds to them
    only when the enqueueing of a command fails.  A round of a worker adds
    the copy of a buffer that was replaced by a device buffer meanwhile, and
    the requests left when the worker gives up the last reference to its own
    device. *)

From stdpp Require Import base tactics list gmap fin_maps numbers.
From S2P Require Import Prelude DspNs RefHeap Alloc PrivateAlloc Mem Interface SimMem SimLib SimRefs SimClient SimSteps.

Section lost.
Context `{A : Arch}.
Implicit Types (s : sim).

Definition unlost s s' : Prop := lost (s_st s') = lost (s_st s) ∧ leaked s' = leaked s.

#[local] Instance unlost_preorder : PreOrder unlost.
Proof. split; [by intros s | intros s1 s2 s3 [A1 A2] [B1 B2]; split; congruence]. Qed.

(** ** Operations that forget nothing *)

Lemma retain_unlost s p s' : retain s p = Some s' → unlost s s'.
Proof. unfold retain, retain_refcounted. intros H. unbind H. unbind E. by simplify_eq/=. Qed.
Lemma release_unlost s p s' : release s p = Some s' → unlost s s'.
Proof. unfold release, release_refcounted. intros H. unbind H. unbind E. by simplify_eq/=. Qed.
Lemma free_unlost s a s' : free s a = Some s' → unlost s s'.
Proof. unfold free. intros H. unbind H. by simplify_eq/=. Qed.
Lemma allocate_unlost kz s i size s' x : allocate kz s i size = Some (s', x) → unlost s s'.
Proof.
  unfold allocate. intros H. unbind H. destruct (xrp_allocate _ _ _ _ _) as [[p | er] st]; [unbind H |]; by simplify_eq/=.
Qed.
Lemma shm_write_unlost s start off l s' : shm_write s start off l = Some s' → unlost s s'.
Proof. unfold shm_write. intros H. unbind H. destruct (accessible _ _ _); by simplify_eq/=. Qed.
Lemma alloc_object_unlost mem s o s' p : alloc_object mem s o = (s', p) → unlost s s'.
Proof. destruct mem; by intros [= <- _]. Qed.

(** ** Releases of a client *)

Lemma release_device_unlost s d s' : xrp_release_device false s d = Some s' → unlost s s'.
Proof.
  unfold xrp_release_device, release_device_tested. rewrite object_tested. intros H. unbind H. destruct (x : obj) as [i rqs | | | |]; try done.
  destruct x0, rqs; try done; by eapply release_unlost.
Qed.

Lemma release_buffer_unlost s b s' : xrp_release_buffer s b = Some s' → unlost s s'.
Proof.
  unfold xrp_release_buffer, release_buffer_tested. rewrite object_tested. intros H. unbind H. destruct (x : obj) as [| [a |] ptr sz mc mf | | |]; try done.
  - destruct x0; [| by eapply release_unlost]. apply bind_Some in H as (s1 & E1 & H).
    etrans; [by eapply free_unlost | by eapply release_unlost].
  - by eapply release_unlost.
Qed.

Lemma release_records_unlost s l s' : release_records s l = Some s' → unlost s s'.
Proof.
  revert s. induction l as [| [b fl] l IH]; cbn [release_records]; intros s H; [by simplify_eq |].
  apply bind_Some in H as (s1 & E1 & H). etrans; [by eapply release_buffer_unlost | by eapply IH].
Qed.

Lemma release_group_unlost s g s' : xrp_release_buffer_group s g = Some s' → unlost s s'.
Proof.
  unfold xrp_release_buffer_group, release_group_tested. rewrite object_tested. intros H. unbind H. destruct (x : obj) as [| | lk cap bufs | |]; try done.
  destruct x0; [destruct lk; [done |] | by eapply release_unlost]. apply bind_Some in H as (s1 & E1 & H).
  etrans; [by eapply release_records_unlost | by eapply release_unlost].
Qed.

(** The end of the release of a queue or an event. *)
Lemma release_holder_unlost (l : bool) s d p s' :
  (s1 ← (if l then xrp_release_device false s d else Some s); release s1 p) = Some s' → unlost s s'.
Proof.
  intros H. apply bind_Some in H as (s1 & E1 & H). etrans; [| by eapply release_unlost].
  destruct l; [by eapply release_device_unlost | by simplify_eq].
Qed.

Lemma xrp_release_unlost s r s' : xrp_release s r = Some s' → unlost s s'.
Proof.
  unfold xrp_release. destruct r as [[] p]; cbn [fst snd]; intros H.
  - by eapply release_device_unlost.
  - by eapply release_buffer_unlost.
  - by eapply release_group_unlost.
  - unfold xrp_release_queue, release_queue_tested in H. rewrite object_tested in H. unbind H. destruct (x : obj); try done. by eapply release_holder_unlost.
  - unfold xrp_release_event, release_event_tested in H. rewrite object_tested in H. unbind H. destruct (x : obj); try done. by eapply release_holder_unlost.
Qed.

(** ** Enqueueing *)

Lemma place_unlost kz s i big size cmd field s' x : place kz s i big size cmd field = Some (s', x) → unlost s s'.
Proof.
  unfold place. destruct big; [| by intros [= <- _]]. intros H. apply bind_Some in H as ([s1 a] & E1 & H).
  apply allocate_unlost in E1. by destruct a; simplify_eq.
Qed.

Lemma fill_unlost s cmd at_ field off l y : fill s cmd at_ field off l = Some y → unlost s y.1.
Proof.
  unfold fill. destruct at_; intros H; [apply bind_Some in H as (s1 & E1 & H); simplify_eq/=; by eapply shm_write_unlost | by simplify_eq/=].
Qed.

Lemma place_buffer_unlost kz s i a ptr size s' x : place_buffer kz s i a ptr size = Some (s', x) → unlost s s'.
Proof.
  unfold place_buffer. destruct a; intros H; [unbind H; by simplify_eq |].
  apply bind_Some in H as ([s1 y] & E1 & H). apply allocate_unlost in E1. destruct y as [[p st] |]; [| by simplify_eq].
  apply bind_Some in H as (s2 & E2 & H). simplify_eq. etrans; [done | by eapply shm_write_unlost].
Qed.

Definition placed_sim (x : placed) : sim := match x with Placed s _ _ | Refused s _ _ => s end.

Lemma place_buffers_unlost kz s i cmd at_ k l x : place_buffers kz s i cmd at_ k l = Some x → unlost s (placed_sim x).
Proof.
  revert s cmd k x. induction l as [| [b fl] l IH]; cbn [place_buffers]; intros s cmd k x H; [by simplify_eq/= |].
  apply bind_Some in H as (o & _ & H). destruct o as [| a ptr size mc mf | | |]; try done.
  destruct (0 <? mc); [by simplify_eq/= |]. apply bind_Some in H as ([s1 y] & E1 & H). apply place_buffer_unlost in E1.
  destruct y as [[u addr] |]; [| by simplify_eq/=]. apply bind_Some in H as (y & E2 & H). apply fill_unlost in E2.
  apply bind_Some in H as (r & E3 & H). apply IH in E3. simplify_eq/=. etrans; [done |]. etrans; [done |]. by destruct r.
Qed.

Lemma set_locked_unlost s g lk s' : set_locked s g lk = Some s' → unlost s s'.
Proof. unfold set_locked. destruct g; intros H; [unbind H; destruct (x : obj); try done |]; by simplify_eq/=. Qed.

Lemma new_event_unlost s d s' ev : new_event s d = Some (s', ev) → unlost s s'.
Proof.
  unfold new_event. intros H. apply bind_Some in H as (s1 & E1 & H). cbn in H. apply bind_Some in H as (s2 & E2 & H).
  simplify_eq. apply retain_unlost in E1, E2. etrans; [done | exact E2].
Qed.

(** What a failed enqueueing forgets. *)
Definition forgotten s (g : option nat) (x : sim * option nat * xrp_status) : Prop :=
  x.1.2 = None ∧ x.2 = XRP_STATUS_FAILURE ∧ lost (s_st x.1.1) = group_ref g ++ lost (s_st s) ∧
  ∃ l, leaked x.1.1 = l ++ leaked s.

Lemma enqueue_failed_forgotten s0 s i g got : unlost s0 s → forgotten s0 g (enqueue_failed s i g got).
Proof. intros [E1 E2]. split_and!; [done | done | cbn; by rewrite E1 |]. eexists. cbn. by rewrite E2. Qed.

Lemma enqueue_unlost kz mem emem junk s q in_data out_data out_size g evt x :
  xrp_enqueue_command kz mem emem junk s q in_data out_data out_size g evt = Some x →
  unlost s x.1.1 ∧ x.2 = XRP_STATUS_SUCCESS ∨ forgotten s g x.
Proof.
  unfold xrp_enqueue_command. intros H. apply bind_Some in H as (o & _ & H). destruct o as [| | | d ns |]; try done.
  apply bind_Some in H as (i & _ & H). destruct mem; [cbn [negb] in H | done].
  apply bind_Some in H as (s1 & E1 & H). assert (unlost s s1) as U1 by (destruct g; [by eapply retain_unlost | by simplify_eq]).
  apply bind_Some in H as ([s2 y2] & E2 & H). apply place_unlost in E2. assert (unlost s s2) as U2 by (by etrans). clear E1 U1 E2.
  destruct y2 as [[cmd a_in] |]; [| injection H as <-; right; by apply enqueue_failed_forgotten].
  apply bind_Some in H as (y3 & E3 & H). apply fill_unlost in E3. assert (unlost s y3.1) as U3 by (by etrans). clear U2 E3.
  apply bind_Some in H as ([s4 y4] & E4 & H). apply place_unlost in E4. assert (unlost s s4) as U4 by (by etrans). clear U3 E4.
  destruct y4 as [[cmd4 a_out] |]; [| injection H as <-; right; by apply enqueue_failed_forgotten].
  apply bind_Some in H as (l & _ & H).
  apply bind_Some in H as ([s5 y5] & E5 & H). apply place_unlost in E5. assert (unlost s s5) as U5 by (by etrans). clear U4 E5.
  destruct y5 as [[cmd5 a_buf] |]; [| injection H as <-; right; by apply enqueue_failed_forgotten].
  apply bind_Some in H as (r & E6 & H). apply place_buffers_unlost in E6. assert (unlost s (placed_sim r)) as U6 by (by etrans). clear U5 E6.
  destruct r as [s6 cmd6 user | s6 user locked]; cbn [placed_sim] in U6.
  2: { apply bind_Some in H as (s7 & E7 & H). apply set_locked_unlost in E7. injection H as <-. right.
       apply enqueue_failed_forgotten. by etrans. }
  destruct (evt && negb emem); [injection H as <-; right; by apply enqueue_failed_forgotten |].
  apply bind_Some in H as ([s7 ev] & E7 & H). left.
  assert (unlost s s7) as U7.
  { etrans; [exact U6 |]. destruct evt; [| by simplify_eq]. apply bind_Some in E7 as ([s8 ev8] & E8 & E7). simplify_eq/=. by eapply new_event_unlost. }
  unbind H. destruct (x2 : obj); try done. by simplify_eq/=.
Qed.

(** ** Calls *)

Definition enqueue_fails (kz : callocs) s (c : call) (g : option nat) s' : Prop :=
  ∃ mem emem junk q in_data out_data out_size evt,
    c = EnqueueCommand mem emem junk q in_data out_data out_size g evt ∧
    xrp_enqueue_command kz mem emem junk s q in_data out_data out_size g evt = Some (s', None, XRP_STATUS_FAILURE).

Lemma exec_unlost e kz s H c s' H' :
  exec e kz s H c = Some (s', H') → unlost s s' ∨
  ∃ g, enqueue_fails kz s c g s' ∧ lost (s_st s') = group_ref g ++ lost (s_st s) ∧ ∃ l, leaked s' = l ++ leaked s.
Proof.
  destruct c; cbn [exec]; intros E; try (apply bind_Some in E as (x & E1 & E)); unfold gains in E; simplify_eq/=;
    try (by left); try (left; by eapply xrp_release_unlost).
  - left. unfold xrp_open_device in E1. apply bind_Some in E1 as (s1 & E0 & E1).
    assert (unlost s s1) as U by (destruct (_ =? 0)%nat; [unbind E0 |]; by simplify_eq/=).
    destruct (_ || _); [by simplify_eq/= |]. destruct mem; by simplify_eq/=.
  - left. rewrite sim_retain_eq in E1. by eapply retain_unlost.
  - left. unfold xrp_create_buffer in E1. destruct host_ptr, device; simplify_eq/=; try (destruct mem; by simplify_eq/=).
    destruct mem; [cbn [negb] in E1 | by simplify_eq/=]. apply bind_Some in E1 as (i & _ & E1). apply bind_Some in E1 as ([s1 y] & E2 & E1).
    apply allocate_unlost in E2. destruct y as [[p st] |]; [unbind E1 |]; by simplify_eq/=.
  - left. unfold xrp_map_buffer in E1. unbind E1. destruct (x0 : obj); try done. destruct (_ && _); [| by simplify_eq/=].
    apply bind_Some in E1 as (s1 & E2 & E1). simplify_eq/=. by eapply retain_unlost in E2.
  - left. unfold xrp_unmap_buffer in E1. unbind E1. destruct (x0 : obj); try done. destruct (_ && _); [| by simplify_eq/=].
    apply bind_Some in E1 as (s1 & E2 & E1). simplify_eq/=. by apply release_buffer_unlost in E2.
  - left. by destruct mem.
  - left. unfold xrp_add_buffer_to_group in E1. unbind E1. destruct (x0 : obj) as [| | [] cap l | |]; try done.
    destruct (_ && _); [by simplify_eq/= |]. apply bind_Some in E1 as (s1 & E2 & E1). simplify_eq/=. by apply retain_unlost in E2.
  - left. unfold xrp_set_buffer_in_group in E1. apply bind_Some in E1 as (s1 & E2 & E1). apply retain_unlost in E2.
    unbind E1. destruct (x0 : obj) as [| | [] cap l | |]; try done. destruct (l !! index) as [[old ?] |];
      apply bind_Some in E1 as (s2 & E3 & E1); simplify_eq/=; apply release_buffer_unlost in E3; etrans; [exact E2 | exact E3 | exact E2 | exact E3].
  - left. unfold xrp_get_buffer_from_group in E1. unbind E1. destruct (x0 : obj) as [| | lk cap l | |]; try done.
    destruct lk; [done |]. destruct (l !! idx) as [[] |]; [| by simplify_eq/=].
    apply bind_Some in E1 as (s1 & E2 & E1). simplify_eq/=. by eapply retain_unlost.
  - left. unfold xrp_create_ns_queue in E1. destruct device; [| by simplify_eq/=]. destruct mem; [| by simplify_eq/=].
    apply bind_Some in E1 as (s1 & E2 & E1). apply retain_unlost in E2. by simplify_eq/=.
  - destruct (enqueue_unlost _ _ _ _ _ _ _ _ _ _ _ _ E1) as [[U _] | F]; [by left |]. right.
    destruct x as [[sx ev] stx], F as (F1 & F2 & F3 & F4). cbn in F1, F2, F3, F4. subst ev stx. exists group. split; [| by split].
    do 8 eexists. by split.
Qed.

(** ** Rounds of a worker *)

Lemma frames_object s s' p o : frames (s_st s) (s_st s') → object s' p = Some o → object s p = Some o.
Proof.
  intros Hf (c' & Hp & Eo)%object_cell. destruct (Hf p c' Hp) as (c & Hc & E). unfold object, heap. rewrite Hc. cbn. congruence.
Qed.

Lemma release_frames_sim s p s' : release s p = Some s' → frames (s_st s) (s_st s').
Proof. unfold release. intros H. unbind H. simplify_eq/=. by eapply release_frames. Qed.
Lemma free_keeps s a s' : free s a = Some s' → s_st s' = s_st s ∧ leaked s' = leaked s.
Proof. unfold free. intros H. unbind H. by simplify_eq/=. Qed.
Lemma free_if_keeps big s i a s' : free_if big s i a = Some s' → s_st s' = s_st s ∧ leaked s' = leaked s.
Proof. unfold free_if. destruct big; intros H; [unbind H; by eapply free_keeps | by simplify_eq]. Qed.

Lemma sim_buffer_frames s b s' : xrp_release_buffer s b = Some s' → frames (s_st s) (s_st s').
Proof.
  unfold xrp_release_buffer, release_buffer_tested. rewrite object_tested. intros H. unbind H. destruct (x : obj) as [| [a |] ptr sz mc mf | | |]; try done.
  - destruct x0; [| by eapply release_frames_sim]. apply bind_Some in H as (s1 & E1 & H).
    apply free_keeps in E1 as [<- _]. by eapply release_frames_sim.
  - by eapply release_frames_sim.
Qed.

Lemma sim_group_frames s g s' : xrp_release_buffer_group s g = Some s' → frames (s_st s) (s_st s').
Proof.
  unfold xrp_release_buffer_group, release_group_tested. rewrite object_tested. intros H. unbind H. destruct (x : obj) as [| | lk cap bufs | |]; try done.
  destruct x0; [destruct lk; [done |] | by eapply release_frames_sim]. apply bind_Some in H as (s1 & E1 & H).
  eapply frames_trans; [| by eapply release_frames_sim]. clear H. revert s E E0 E1. generalize bufs at 2. intros l. revert l.
  assert (∀ l s, release_records s l = Some s1 → frames (s_st s) (s_st s1)) as Hr; [| intros l s _ _; apply Hr].
  induction l as [| [b fl] l IH]; cbn [release_records]; intros s H; [simplify_eq; apply frames_refl |].
  apply bind_Some in H as (s2 & E2 & H). eapply frames_trans; [by eapply sim_buffer_frames | by apply IH].
Qed.

(** No buffer of the request's group has become a device buffer since its
    copy was made. *)
Definition copies_kept s (r : request) : Prop :=
  ∀ g lk cap l j rec a ptr size mc mf u,
    r_group r = Some g → object s g = Some (Group lk cap l) → l !! j = Some rec →
    object s rec.1 = Some (Buffer (Some a) ptr size mc mf) → r_user_alloc r !! j = Some u → u = None.

Lemma return_buffers_keeps s i cmd r k n l s' :
  return_buffers s i cmd r k n l = Some s' → s_st s' = s_st s ∧ ∃ L, leaked s' = L ++ leaked s ∧
    ((∀ j rec a ptr size mc mf u, l !! j = Some rec → object s rec.1 = Some (Buffer (Some a) ptr size mc mf) →
        r_user_alloc r !! j = Some u → u = None) → L = []).
Proof.
  revert s k. induction n as [| n IH]; cbn [return_buffers]; intros s k H; [simplify_eq; split; [done |]; by exists [] |].
  apply bind_Some in H as (rec & Erec & H). apply bind_Some in H as (o & Eo & H).
  destruct o as [| [a |] ptr size mc mf | | |]; try done.
  - apply bind_Some in H as (u & Eu & H). apply IH in H as (Est & L & EL & HL). split; [done |].
    exists (L ++ ((λ p, (i, p)) <$> option_list u)). cbn in EL. rewrite EL, <- app_assoc. split; [done |].
    intros Hk. rewrite (Hk k rec a ptr size mc mf u) by done. rewrite HL; [done |]. exact Hk.
  - apply bind_Some in H as (fl & _ & H). apply bind_Some in H as (u & _ & H). apply bind_Some in H as (p & _ & H).
    apply bind_Some in H as (s1 & E1 & H). assert (s_st s1 = s_st s ∧ leaked s1 = leaked s) as [Es1 El1].
    { destruct (_ =? 0); [by simplify_eq |]. unbind E1. by simplify_eq/=. }
    apply bind_Some in H as (s2 & E2 & H). apply free_keeps in E2 as [Es2 El2]. apply IH in H as (Est & L & EL & HL).
    split; [congruence |]. exists L. split; [congruence |]. intros Hk. apply HL. intros j rec' a' ptr' size' mc' mf' u' Hj Ho.
    apply (Hk j rec' a' ptr' size' mc' mf' u' Hj). unfold object, heap in *. by rewrite Es2, Es1 in Ho.
Qed.

(** The worker gives up its reference to the event of its request. *)
Lemma release_event_left s ev d st i rqs s' :
  object s ev = Some (Event d st) → (∀ o, object s d = Some o → o = Device i rqs) →
  xrp_release_event true s ev = Some s' →
  unlost s s' ∨ rqs ≠ [] ∧ lost (s_st s') = (rqs ≫= request_refs) ++ lost (s_st s) ∧ leaked s' = (rqs ≫= request_allocs i) ++ leaked s.
Proof.
  unfold xrp_release_event, release_event_tested. rewrite object_tested. intros -> Hd H. cbn [mbind option_bind] in H. unbind H. rename x into l, x0 into s1.
  rename H into Hrel. destruct l; [| simplify_eq; left; by eapply release_unlost].
  unfold xrp_release_device, release_device_tested in E0. rewrite object_tested in E0. apply bind_Some in E0 as (o & Eo & E0).
  specialize (Hd o Eo) as ->. apply bind_Some in E0 as (l & _ & E0). apply release_unlost in Hrel.
  destruct l, rqs as [| r rqs]; try (left; etrans; [by eapply release_unlost | done]).
  right. split; [done |]. apply bind_Some in E0 as (s2 & E2 & E0). apply release_unlost in E2 as [A1 A2]. destruct Hrel as [B1 B2].
  injection E0 as <-. split; [rewrite B1 | rewrite B2]; cbn [s_st set_st lose lost leak leaked]; by rewrite ?A1, ?A2.
Qed.

Lemma round_lost dsp s roots d i r rqs s' :
  sim_holds [] s roots [] → object s d = Some (Device i (r :: rqs)) → xrp_queue_process dsp s d = Some (Some s') →
  ∃ L, (copies_kept s r → L = []) ∧
    (lost (s_st s') = lost (s_st s) ∧ leaked s' = L ++ leaked s ∨
     rqs ≠ [] ∧ lost (s_st s') = (rqs ≫= request_refs) ++ lost (s_st s) ∧ leaked s' = (rqs ≫= request_allocs i) ++ L ++ leaked s).
Proof.
  intros Hs Ho E. unfold xrp_queue_process in E. rewrite Ho in E. cbn [mbind option_bind] in E.
  set (s0 := set_object s d (Device i rqs)) in *. apply bind_Some in E as (s1 & E1 & E).
  assert (s_st s1 = s_st s0 ∧ leaked s1 = leaked s) as [S1 L1].
  { unfold run_on_dsp in E1. apply bind_Some in E1 as (dd & _ & E1). destruct (accessible _ _ _); [| done]. unbind E1. by simplify_eq/=. }
  apply bind_Some in E as (cmd & _ & E). apply bind_Some in E as (s7 & Ef & E). injection E as ->.
  unfold finish in Ef. apply bind_Some in Ef as (out & _ & Ef). apply bind_Some in Ef as (s2 & E2 & Ef). apply free_if_keeps in E2 as [S2 L2].
  apply bind_Some in Ef as (s3 & E3 & Ef). apply free_if_keeps in E3 as [S3 L3]. cbn in S2, L2.
  apply bind_Some in Ef as (l & El & Ef). apply bind_Some in Ef as (s4 & E4 & Ef). apply return_buffers_keeps in E4 as (S4 & L & L4 & HL).
  apply bind_Some in Ef as (s5 & E5 & Ef). apply free_if_keeps in E5 as [S5 L5].
  apply bind_Some in Ef as (s6 & E6 & Ef). assert (unlost s5 s6 ∧ frames (s_st s5) (s_st s6)) as [U6 F6].
  { destruct (r_group r); [split; [by eapply release_group_unlost | by eapply sim_group_frames] | simplify_eq; split; [done | apply frames_refl]]. }
  assert (s_st s3 = s_st s0) as S30 by congruence. assert (s_st s5 = s_st s0) as S50 by congruence.
  apply bind_Some in Ef as (ev & Ev & Ef). apply bind_Some in Ef as (oe & Eoe & Ef). destruct oe as [| | | | de st]; try done.
  destruct (object_cell _ _ _ Ho) as (c & Hc & Eo). destruct (i_link _ _ (sh_refs _ _ _ _ Hs) d c ev Hc) as (ce & Hce & Hoe).
  { rewrite Eo. cbn. rewrite Ev. by left. }
  change (heap s !! ev = Some ce) in Hce. destruct (c_obj ce) as [| | | | d0 st0] eqn:Ee; try done. injection Hoe as ->.
  assert (ev ≠ d) as Hne by (intros ->; assert (ce = c) as -> by congruence; congruence).
  assert (de = d) as ->.
  { apply (frames_object s5) in Eoe; [| done]. unfold object, heap in Eoe. rewrite S50 in Eoe. cbn in Eoe.
    rewrite lookup_alter_ne in Eoe by done. unfold heap in Hce. rewrite Hce in Eoe. cbn in Eoe. congruence. }
  exists L. split.
  - intros Hk. apply HL. intros j rec a ptr size mc mf u Hj Hob Hu. unfold group_buffers in El.
    destruct (r_group r) as [g |] eqn:Eg; [| injection El as <-; by rewrite lookup_nil in Hj].
    assert (∀ p o, object s3 p = Some o → (∀ i rqs, o ≠ Device i rqs) → object s p = Some o) as Hback.
    { intros p o Hp Hno. unfold object, heap in Hp |- *. rewrite S30 in Hp. cbn in Hp. destruct (decide (p = d)) as [-> |].
      - rewrite lookup_alter_eq in Hp. unfold heap in Hc. rewrite Hc in Hp. cbn in Hp. injection Hp as <-. by destruct (Hno i rqs).
      - by rewrite lookup_alter_ne in Hp. }
    apply bind_Some in El as (og & Eog & El). destruct og as [| | [] cap l' | |]; try done. injection El as ->.
    apply (Hk g false cap l j rec a ptr size mc mf u); [done | by apply Hback | done | by apply Hback | done].
  - destruct U6 as [U61 U62]. eapply (release_event_left _ ev d _ i rqs) in Ef.
    + assert (lost (s_st s6) = lost (s_st s)) as Elost by (rewrite U61, S50; done).
      assert (leaked s6 = L ++ leaked s) as Eleak by congruence.
      unfold unlost in Ef. cbn in Ef. rewrite Elost, Eleak in Ef. exact Ef.
    + unfold object, heap in *. cbn. destruct (hp (s_st s6) !! ev) as [c6 |] eqn:E66; [| done]. rewrite lookup_alter_eq, E66. done.
    + intros o Hob. unfold object, heap in Hob. cbn in Hob. rewrite lookup_alter_ne in Hob by done.
      apply (frames_object s5 s6 d o F6) in Hob. unfold object, heap in Hob. rewrite S50 in Hob. cbn in Hob.
      rewrite lookup_alter_eq in Hob. unfold heap in Hc. rewrite Hc in Hob. cbn in Hob. congruence.
Qed.
End lost.
