(* ===== verification/SimTheorems.v ===== *)
(** * What the simulator library guarantees its clients

    Along every run of [SimSteps]: exact counts and one owner for all pool
    memory, up to what [SimLost] says is forgotten; and what two releases
    that overlap do to a buffer. *)

From stdpp Require Import base tactics list gmap fin_maps numbers.
From S2P Require Import Prelude DspNs RefHeap Alloc PrivateAlloc Mem Interface SimMem SimLib SimRefs SimClient SimSteps SimLost.

Section sim_theorems.
Context `{A : Arch} (e : sim_env) (kz : callocs) (Hkz : kz_ok kz).
Notation exec := (exec e kz).
Notation step := (step e kz).

(** C16: in the simulator library too the reference counts are exact.
    Whatever a client that keeps to its own references calls, with rounds of
    the workers and the simulated DSPs running in between - calls and rounds
    do not overlap in time; see [overlapping_buffer_releases] - the count of
    every live object is the number of references to it - the client's, those
    of other objects and queued requests, and those forgotten on the way -
    and is positive; and every reference the client holds is to a live object
    of its kind.  References are forgotten only by an enqueueing that fails,
    the one to its group, and by a worker that gives up the last reference to
    its own device, those of the requests left in it. *)
Theorem sim_counts_exact s0 s H :
  initial s0 → rtc step (s0, []) (s, H) →
  (∀ p c, heap s !! p = Some c →
     c_count c = Z.of_nat (cnt (kind_of (c_obj c), p) (H ++ lost (s_st s) ++ heap_refs (heap s))) ∧ 0 < c_count c) ∧
  (∀ k p, (k, p) ∈ H → ∃ c, heap s !! p = Some c ∧ kind_of (c_obj c) = k) ∧
  lost (s_st s0) = [] ∧
  (∀ c s' H', exec s H c = Some (s', H') →
     lost (s_st s') = lost (s_st s) ∨ ∃ g, enqueue_fails kz s c g s' ∧ lost (s_st s') = group_ref g ++ lost (s_st s)) ∧
  (∀ dsp d i r rqs s', object s d = Some (Device i (r :: rqs)) → xrp_queue_process dsp s d = Some (Some s') →
     lost (s_st s') = lost (s_st s) ∨ rqs ≠ [] ∧ lost (s_st s') = (rqs ≫= request_refs) ++ lost (s_st s)).
Proof.
  intros Hi Hr. pose proof (reachable_holds e kz Hkz s0 s H Hi Hr) as Hs. split_and!.
  - intros p c Hp. rewrite app_assoc. by apply (i_count _ _ (sh_refs _ _ _ _ Hs) p c).
  - intros k p Hin. by apply (held s H []).
  - by rewrite (proj1 Hi).
  - intros c s' H' E. destruct (exec_unlost _ _ _ _ _ _ _ E) as [[? _] | (g & ? & ? & _)]; [by left | right; by exists g].
  - intros dsp d i r rqs s' Ho E. destruct (round_lost _ _ _ _ _ _ _ _ Hs Ho E) as (L & _ & [[? _] | (? & ? & _)]); auto.
Qed.

(** C15: the memory of the device pools has exactly one owner.  Along every
    such run (calls and worker rounds do not overlap) the descriptors that
    buffers and queued requests hold, together with those forgotten on the
    way, are without repetition and are exactly the allocations of the pools;
    different allocations of a pool do not share an address; and when no
    object is left and nothing was forgotten, every pool has all its memory
    back.  Descriptors are forgotten only by an enqueueing that fails, and by
    a round of a worker either when a buffer of the request's group was
    replaced by a device buffer after its copy was made, or when the worker
    gives up the last reference to its own device, those of the requests left
    in it. *)
Theorem sim_memory_owned s0 s H :
  initial s0 → rtc step (s0, []) (s, H) →
  NoDup (heap_allocs (heap s) ++ leaked s) ∧
  (∀ i p, (i, p) ∈ heap_allocs (heap s) ++ leaked s ↔ ∃ st a, pool_of s i = Some st ∧ st_objs st !! p = Some a) ∧
  (∀ i st p q a b x, pool_of s i = Some st → st_objs st !! p = Some a → st_objs st !! q = Some b →
     a_start a ≤ x < a_end a → a_start b ≤ x < a_end b → p = q) ∧
  (heap s = ∅ → leaked s = [] → ∀ i st, pool_of s i = Some st → alloc_inv st ∧ st_objs st = ∅) ∧
  leaked s0 = [] ∧
  (∀ c s' H', exec s H c = Some (s', H') → leaked s' = leaked s ∨ ∃ g, enqueue_fails kz s c g s') ∧
  (∀ dsp d i r rqs s', object s d = Some (Device i (r :: rqs)) → xrp_queue_process dsp s d = Some (Some s') →
     copies_kept s r →
     leaked s' = leaked s ∨ rqs ≠ [] ∧ leaked s' = (rqs ≫= request_allocs i) ++ leaked s).
Proof.
  intros Hi Hr. pose proof (reachable_holds e kz Hkz s0 s H Hi Hr) as Hs.
  assert (∀ i p, (i, p) ∈ heap_allocs (heap s) ++ leaked s ↔
            ∃ st a, pool_of s i = Some st ∧ st_objs st !! p = Some a) as Hl.
  { intros i p. rewrite (sh_live _ _ _ _ Hs (i, p) : _ ↔ is_Some (start_of s (i, p))). split.
    - intros [x E]. unfold start_of in E. cbn in E. destruct (pool_of s i) as [st |]; [| done]. cbn in E.
      destruct (st_objs st !! p) as [a |] eqn:Ea; [eauto | done].
    - intros (st & a & Ep & Ea). rewrite (start_of_some s i p st Ep), Ea. by eexists. }
  split_and!; [apply (sh_nodup _ _ _ _ Hs) | done | | | apply Hi | |].
  - intros i st p q a b x Ep Ea Eb Hx Hy. destruct (decide (p = q)) as [| Hne]; [done |]. exfalso.
    by eapply (live_disjoint st p q a b x (sh_pools _ _ _ _ Hs i st Ep)).
  - intros Eh El i st Ep. split; [by apply (sh_pools _ _ _ _ Hs i) |]. apply map_eq. intros p. rewrite lookup_empty.
    destruct (st_objs st !! p) as [a |] eqn:Ea; [| done].
    assert ((i, p) ∈ heap_allocs (heap s) ++ leaked s) as Hin by (apply Hl; eauto).
    rewrite Eh, El in Hin. by apply not_elem_of_nil in Hin.
  - intros c s' H' E. destruct (exec_unlost _ _ _ _ _ _ _ E) as [[_ ?] | (g & ? & _)]; [by left | right; by exists g].
  - intros dsp d i r rqs s' Ho E Hk. destruct (round_lost _ _ _ _ _ _ _ _ Hs Ho E) as (L & HL & Hcase).
    rewrite (HL Hk) in Hcase. destruct Hcase as [[_ ?] | (? & _ & ?)]; auto.
Qed.

(** ** Releases that overlap *)

(** A release tests for the last reference and decrements later, without a
    lock.  When two threads - a client and a worker that releases a group,
    say - release the same device buffer, which has a count of two, and both
    test before either decrements, both are told that theirs is not the last
    reference: the buffer is freed and its memory stays allocated with
    nothing left that owns it. *)
Theorem overlapping_buffer_releases s0 s H b c a ptr size mc mf :
  initial s0 → rtc step (s0, []) (s, H) →
  heap s !! b = Some c → c_obj c = Buffer (Some a) ptr size mc mf → c_count c = 2 →
  ∃ l s1 s2, last s b = Some l ∧ release_buffer_tested l s b = Some s1 ∧ release_buffer_tested l s1 b = Some s2 ∧
    heap s2 = delete b (heap s) ∧ leaked s2 = leaked s ∧ a ∉ heap_allocs (heap s2) ++ leaked s2 ∧
    ∃ st x, pool_of s2 a.1 = Some st ∧ st_objs st !! a.2 = Some x.
Proof.
  intros Hi Hr Hp Eo E2. pose proof (reachable_holds e kz Hkz s0 s H Hi Hr) as Hs. exists false.
  set (s1 := set_st s (set_hp (s_st s) (<[b := add_count c (-1)]> (heap s)))).
  set (s2 := set_st s (set_hp (s_st s) (delete b (heap s)))). exists s1, s2.
  split_and!; [| | | done | done | |].
  - unfold last, last_refcount. unfold heap in Hp. rewrite Hp. cbn. by rewrite E2.
  - unfold release_buffer_tested, object. rewrite Hp. cbn [mbind option_bind]. rewrite Eo. unfold release, release_refcounted.
    unfold heap in Hp. rewrite Hp. cbn. by rewrite E2.
  - unfold release_buffer_tested, object, heap. cbn. rewrite lookup_insert_eq. cbn. rewrite Eo. unfold release, release_refcounted. cbn.
    rewrite lookup_insert_eq. cbn. rewrite E2. cbn. unfold s2, set_st, set_hp. cbn. by rewrite delete_insert_eq.
  - intros Hin. pose proof (sh_nodup _ _ _ _ Hs) as Hnd. unfold owners in Hnd. cbn [minus foldr app] in Hnd.
    rewrite (heap_allocs_delete _ _ _ Hp), Eo in Hnd. cbn in Hnd. by apply list.NoDup_cons in Hnd as [Hnd _].
  - assert (is_Some (start_of s a)) as [x Hx].
    { apply (sh_live _ _ _ _ Hs). unfold owners. cbn [minus foldr app]. rewrite (heap_allocs_delete _ _ _ Hp), Eo. by left. }
    unfold start_of in Hx. apply bind_Some in Hx as (st & Hst & Hx). apply bind_Some in Hx as (y & Hy & _). by exists st, y.
Qed.
End sim_theorems.
