(* ===== verification/SimExamples.v ===== *)
(** * The simulator library on concrete inputs

    A device tree with two shared regions and one device, a run of a client
    on it, the theorems of [SimMem], [SimSync] and [SimTheorems] applied to
    them, and the inputs on which the library goes wrong. *)

From stdpp Require Import base tactics list gmap fin_maps numbers strings.
From S2P Require Import Prelude DspNs RefHeap Alloc PrivateAlloc Mem Interface HwSimple Sync.
From S2P Require Import SimMem SimSync SimLib SimRefs SimClient SimSteps SimTheorems.
Open Scope Z_scope.

Module SimWorld.

(** A 64-bit program; physical addresses of the simulator have 32 bits. *)
Definition arch_sim : Arch :=
  {| phys_bits := 32; long_bits := 64;
     phys_bits_cases := or_introl eq_refl; long_bits_cases := or_intror eq_refl |}.
#[local] Existing Instance arch_sim.

(** Shared memory with the command area and the pool of the device, and the
    device registers. *)
Definition ram : xrp_shmem := mk_shmem 0x10000000 0x10000 [114; 49] 3 0x7f0000000000.
Definition io : xrp_shmem := mk_shmem 0x20000000 0x1000 [105; 49] 4 0x7f0000100000.
Definition regions : list xrp_shmem := [ram; io].
Definition tab : list (option xrp_shmem) := Some <$> regions.

(** [mode]: the interrupt mode property; [devices]: how many nodes of the
    device there are, at offsets 100, 200, ... *)
Definition tree (mode : Z) (devices : Z) : fdt := {|
  fdt_node_offset_by_compatible offset c :=
    if decide (c = "cdns,sim-shmem") then if offset <? 8 then 8 else -1
    else if decide (c = "cdns,xrp-hw-simple,v1") then
      let next := 100 * ((offset + 100) / 100) in if next <=? 100 * devices then Z.max 100 next else -1
    else -1;
  fdt_getprop offset name :=
    if offset =? 8 then
      if decide (name = "reg") then Some (reg_bytes regions)
      else if decide (name = "reg-names") then Some (name_bytes [[114]; [105]])
      else if decide (name = "exit-loc") then Some (be32 0x20000800) else None
    else
      if decide (name = "reg") then Some (be32 0x10000000 ++ be32 0x9000 ++ be32 0x20000000 ++ be32 0x1000)
      else if decide (name = "device-irq-mode") then Some (be32 mode)
      else if decide (name = "device-irq") then Some (be32 0 ++ be32 5 ++ be32 0) else None |}.

(** The DSP answers the handshake as soon as it is asked. *)
Definition comm : Z := 0x7f0000000000.
Definition put (v : Z) (m : mem) : mem := store32 m (sync_word comm) v.
Definition responsive : list (mem → mem) :=
  [id; id; put XRP_DSP_SYNC_DSP_READY] ++ replicate 9 id ++ [put XRP_DSP_SYNC_DSP_TO_HOST; id; id].

Definition world (f : fdt) : sim_env :=
  mk_sim_env f true (λ l, l ++ [49])
    (λ i, match i with 0%nat => Mapped 3 (sh_ptr ram) | _ => Mapped 4 (sh_ptr io) end)
    (λ _, (true, Some 1)) (λ _, responsive).
Definition world1 : sim_env := world (tree XRP_IRQ_LEVEL 1).

Lemma regions_are_ok : regions_ok regions.
Proof.
  split.
  - repeat constructor; cbn; lia.
  - repeat constructor; cbn; lia.
Qed.

Lemma sim_translation_witness :
  ∃ g', initialize_shmem world1 globals_zero = Some g' ∧
    (∃ v, p2v (gl_shmem g') 0x10001000 = Some v ∧ v2p (gl_shmem g') v = Some 0x10001000) ∧
    p2v (gl_shmem g') 0x30000000 = Some 0.
Proof.
  destruct (sim_translation world1 globals_zero 8 regions [[114]; [105]]) as (g' & E & Hp & _ & Ho);
    [reflexivity | lia | reflexivity | reflexivity | | reflexivity | | exact regions_are_ok |].
  - intros p [= <-]. cbn. lia.
  - split_and!; [| reflexivity |]; [repeat constructor; lia |].
    intros [| [| k]] r f; cbn; [| | done]; by intros [= <-] [= <-].
  - exists g'. split; [exact E |]. split.
    + destruct (Hp ram 0x10001000) as (v & Hv & _ & Hb & _); [by left | unfold in_phys; cbn; lia |].
      exists v. done.
    + apply Ho; [lia |]. intros r. unfold regions. rewrite !elem_of_cons, elem_of_nil. unfold in_phys.
      intros [-> | [-> | []]]; cbn; lia.
Defined.

Definition found1 : globals * mem := default (globals_zero, λ _, 0) (initialize 2000 world1 globals_zero (λ _, 0)).

Lemma found1_eq : initialize 2000 world1 globals_zero (λ _, 0) = Some (found1.1, found1.2).
Proof.
  unfold found1. destruct (initialize 2000 world1 globals_zero (λ _, 0)) as [[g m] |] eqn:E; [done |].
  exfalso. assert (is_Some (initialize 2000 world1 globals_zero (λ _, 0))) as Hx.
  { apply (bool_decide_unpack _). vm_compute. done. }
  rewrite E in Hx. by destruct Hx.
Qed.

Lemma tree_forward mode devices : 0 ≤ devices → fdt_forward (tree mode devices) (100 * devices + 200).
Proof.
  intros Hd offset c Ho. cbn. destruct (decide (c = "cdns,sim-shmem")).
  - destruct (Z.ltb_spec offset 8); lia.
  - destruct (decide _); [| lia]. destruct (Z.leb_spec (100 * ((offset + 100) / 100)) (100 * devices)); [| lia].
    right. pose proof (Z.div_mod (offset + 100) 100). pose proof (Z.mod_pos_bound (offset + 100) 100). lia.
Qed.

Lemma found1_area d :
  gl_description found1.1 !! 0%nat = Some d → shared_base d = 0x10001000 ∧ shared_size d = 0x8000.
Proof.
  assert ((λ d, (shared_base d, shared_size d)) <$> gl_description found1.1 !! 0%nat = Some (0x10001000, 0x8000)) as Ex
    by (vm_compute; reflexivity).
  intros Ed. rewrite Ed in Ex. injection Ex as E1 E2. exact (conj E1 E2).
Qed.

(** The search comes to one node. *)
Definition nodes1 : list (string * Z) := [("cdns,xrp-hw-simple,v1"%string, 100)].
Lemma nodes1_all : enumerates (e_fdt world1) of_match.*1 (-1) nodes1.
Proof.
  apply en_next_kind; [done |]. apply en_next_kind; [done |]. apply en_next_kind; [done |].
  apply (en_node _ _ _ _ 100); [done | done |]. apply en_next_kind; [done |]. constructor.
Qed.

Lemma nodes1_handshakes : handshakes_end world1 tab nodes1.
Proof.
  intros i c init offset d d' m Hin Hc E. apply list_elem_of_singleton in Hin as [= -> ->].
  unfold of_match in Hc. rewrite !elem_of_cons in Hc.
  destruct Hc as [[= ? _] | [[= ? _] | [[= ? _] | [[= ->] | []%not_elem_of_nil]]]]; try discriminate.
  vm_compute in E. injection E as <-.
  match goal with |- is_Some ?x => assert (match x with Some _ => true | None => false end = true) as V by (vm_compute; reflexivity) end.
  by destruct (synchronize _ _ _ _).
Qed.

Lemma tree_bytes : fdt_bytes (e_fdt world1).
Proof.
  assert (∀ v, v = 0x10000000 ∨ v = 0x9000 ∨ v = 0x20000000 ∨ v = 0x1000 ∨ v = 0x20000800 ∨ v = 0x10000 ∨ 0 ≤ v < 256 → bytes (be32 v)) as Hb.
  { intros v Hv. unfold be32, bytes. repeat constructor; destruct_or!; subst; try done; Z.to_euclidean_division_equations; lia. }
  intros offset name p E. cbn in E. repeat case_match; simplify_eq; repeat (apply Forall_app; split); try (apply Hb; lia);
    apply (bool_decide_unpack _); vm_compute; done.
Qed.

Lemma some_pair_inj {A B} (a c : A) (b d : B) : Some (a, b) = Some (c, d) → a = c ∧ b = d.
Proof. by intros [= -> ->]. Qed.


(** The device as [init_cdns_xrp_hw_simple_v1] leaves it. *)
Definition dev : xrp_device_description :=
  mk_description 0x20000000 0x10000000 0x10001000 0x8000 comm (comm + 0x1000) XRP_IRQ_LEVEL (0, 5, 0) 0 None.

Lemma dev_ok : sim_device_ok tab dev.
Proof.
  split.
  - cbn. unfold comm. intros a Ha Hb. replace a with (virt ram (a - sh_ptr ram + sh_start ram)) by (unfold virt; lia).
    apply (accessible_in regions); [exact regions_are_ok | by left | cbn; lia..].
  - cbn. unfold XRP_IRQ_MAX, XRP_IRQ_LEVEL. lia.
  - cbn. unfold is_u32. lia.
  - exists (sh_ptr io). split; [vm_compute; reflexivity |]. intros _.
    split; [vm_compute; reflexivity |]. cbn. unfold comm. lia.
Qed.

Definition reset : sys := mk_sys (λ _, 0) HStart DLoop HwExamples.s0 false false 0.

Lemma sim_sync_correct_witness :
  sn (sim_step tab dev) (SStart, reset) ∧ is_Some (sync_next tab dev SStart (Sync.s_mem reset)).
Proof.
  assert (Sync.initial (comm_ptr dev) reset) as Hi by (vm_compute; repeat split).
  destruct (sim_sync_correct tab dev dev_ok reset Hi) as [Hsn Hr]. split; [exact Hsn |].
  destruct (Hr SStart reset) as [Hs _]; [reflexivity | exact Hs].
Defined.

(** ** A run of a client *)

(** Two descriptors above all in use. *)
Definition kz (h : gset Z) : option Z * option Z :=
  let top := foldr Z.max 0 (elements h) in (Some (top + 1), Some (top + 2)).

Lemma kz_is_ok : kz_ok kz.
Proof.
  intros h. assert (∀ x, x ∈ h → 0 ≤ foldr Z.max 0 (elements h) ∧ x ≤ foldr Z.max 0 (elements h)) as Hm.
  { intros x Hx%elem_of_elements. induction (elements h) as [| y l IH]; [by apply not_elem_of_nil in Hx |]. cbn.
    assert (0 ≤ foldr Z.max 0 l) by (clear; induction l; cbn; lia).
    apply elem_of_cons in Hx as [-> | Hx]; [lia |]. specialize (IH Hx). lia. }
  assert (0 ≤ foldr Z.max 0 (elements h)) by (generalize (elements h); intros l; induction l; cbn; lia).
  split; cbn; intros p [= <-]; split_and!; try lia; try congruence.
  - intros ?%Hm. lia.
  - intros ?%Hm. lia.
  - injection 1. lia.
Qed.

Definition start : sim := mk_sim found1.1 found1.2 (mk_store ∅ []) [].

Lemma start_initial : initial start.
Proof.
  split_and!; [reflexivity | reflexivity |]. intros i st E.
  assert (i = 0%nat ∧ st = mk_alloc_state (mk_pool 0x10001000 0x8000 [mk_allocation 1 0x10001000 0x8000 0] {[1]}) ∅)
    as [-> ->].
  { destruct i as [| [| [| [| i]]]]; vm_compute in E; try done. injection E as <-. done. }
  split; [| reflexivity]. split; [| apply map_Forall_empty | apply map_Forall_empty].
  apply (private_init_inv 0x10001000 0x8000 1); cbn; lia.
Qed.

(** What the DSP leaves: a response, or one that says the command was not
    for anyone. *)
Definition respond (w : Z) : list (mem → mem) := [id; λ m, store32 m (cmd_flags comm) w].

(** A device, a queue, a group of a device buffer and a buffer of the host,
    and a command whose input and output do not fit in it. *)
Definition setup : list action :=
  [ Call (OpenDevice true 0);                                                      (* 0 *)
    Call (CreateQueue true (Some 0%nat) None);                                     (* 1 *)
    Call (CreateBuffer true (Some 0%nat) 64 None);                                 (* 2 *)
    Call (CreateBuffer true (Some 0%nat) 32 (Some 0x1000));                        (* 3 *)
    Call (CreateGroup true);                                                       (* 4 *)
    Call (AddBuffer true 4 2 1); Call (AddBuffer true 4 3 3);
    Call (EnqueueCommand true true (λ _, 0) 1 (replicate 40 7) 0x2000 48 (Some 4%nat) true) ]. (* 5 *)
Definition teardown : list action :=
  [ Worker (respond 3) 0; Call (Release (KEvent, 5%nat)); Call (Release (KGroup, 4%nat));
    Call (Release (KBuffer, 2%nat)); Call (Release (KBuffer, 3%nat)); Call (Release (KQueue, 1%nat));
    Call (Release (KDevice, 0%nat)) ].

Definition run (l : list action) : option (sim * list ref) := acts world1 kz (start, []) l.
Definition after (l : list action) : sim * list ref := default (start, []) (run l).

Lemma after_reachable l : is_Some (run l) → rtc (step world1 kz) (start, []) ((after l).1, (after l).2).
Proof. intros Hr. apply sim_acts_reachable in Hr. unfold after. by destruct (default _ _). Qed.

Lemma setup_runs : is_Some (run setup).
Proof. apply (bool_decide_unpack _). vm_compute. done. Qed.
Lemma all_runs : is_Some (run (setup ++ teardown)).
Proof. apply (bool_decide_unpack _). vm_compute. done. Qed.

Lemma sim_counts_exact_witness :
  Z.of_nat (cnt (KGroup, 4%nat)
    ((after setup).2 ++ lost (s_st (after setup).1) ++ heap_refs (heap (after setup).1))) = 2.
Proof.
  destruct (sim_counts_exact world1 kz kz_is_ok start (after setup).1 (after setup).2 start_initial
    (after_reachable setup setup_runs)) as [Hc _].
  destruct (Hc 4%nat (mk_cell 2 (Group false 4 [(2%nat, 1); (3%nat, 3)]))) as [E _]; [vm_compute; reflexivity |].
  symmetry. exact E.
Defined.

(** Five allocations while the command is queued; none in the end. *)
Lemma sim_memory_owned_witness :
  NoDup (heap_allocs (heap (after setup).1) ++ leaked (after setup).1) ∧
  length (heap_allocs (heap (after setup).1) ++ leaked (after setup).1) = 5%nat ∧
  ∀ i st, pool_of (after (setup ++ teardown)).1 i = Some st → st_objs st = ∅.
Proof.
  destruct (sim_memory_owned world1 kz kz_is_ok start (after setup).1 (after setup).2 start_initial
    (after_reachable setup setup_runs)) as [Hn _].
  destruct (sim_memory_owned world1 kz kz_is_ok start (after (setup ++ teardown)).1 (after (setup ++ teardown)).2
    start_initial (after_reachable _ all_runs)) as (_ & _ & _ & He & _).
  split; [exact Hn |]. split; [vm_compute; reflexivity |].
  intros i st Ei. refine (proj2 (He _ _ i st Ei)); vm_compute; reflexivity.
Defined.

(** The device buffer that the client and the group refer to, released by
    both at once. *)
Lemma overlapping_buffer_releases_setup :
  ∃ l s1 s2, last (after setup).1 2 = Some l ∧ release_buffer_tested l (after setup).1 2 = Some s1 ∧
    release_buffer_tested l s1 2 = Some s2 ∧ heap s2 !! 2%nat = None ∧
    ∃ a, a ∉ heap_allocs (heap s2) ++ leaked s2 ∧ ∃ st x, pool_of s2 a.1 = Some st ∧ st_objs st !! a.2 = Some x.
Proof.
  assert (object (after setup).1 2 = Some (Buffer (Some (0%nat, 2)) 139637976731648 64 0 0)) as Eo by (vm_compute; reflexivity).
  assert (c_count <$> heap (after setup).1 !! 2%nat = Some 2) as Ec by (vm_compute; reflexivity).
  apply object_cell in Eo as (c & Hc & Eo). rewrite Hc in Ec. apply (inj Some) in Ec.
  destruct (overlapping_buffer_releases world1 kz kz_is_ok start (after setup).1 (after setup).2 2%nat c _ _ _ _ _ start_initial
    (after_reachable setup setup_runs) Hc Eo Ec) as (l & s1 & s2 & E1 & E2 & E3 & E4 & _ & E5 & E6).
  exists l, s1, s2. split; [exact E1 |]. split; [exact E2 |]. split; [exact E3 |]. split; [rewrite E4; apply lookup_delete_eq |].
  exists (0%nat, 2). split; [exact E5 | exact E6].
Qed.

(** ** Where the library goes wrong *)

(** The bound check of [xrp_open_device] admits the number one past the last
    device; that description has no pool. *)
Example open_one_too_many :
  gl_count found1.1 = 1%nat ∧ snd <$> xrp_open_device 0 world1 true start 1 = Some (Some 0%nat) ∧
  run [Call (OpenDevice true 1); Call (CreateBuffer true (Some 0%nat) 64 None)] = None.
Proof. split_and!; vm_compute; reflexivity. Qed.

Definition small : list action := [Call (OpenDevice true 0); Call (CreateQueue true (Some 0%nat) None)].
Definition enqueue (out_size : Z) (group : option nat) (evt : bool) : action :=
  Call (EnqueueCommand true true (λ _, 0) 1 (replicate 40 7) 0x2000 out_size group evt).

(** The event of a request is never set when the caller wants none, and the
    worker reads it. *)
Example no_event_worker_faults :
  is_Some (run (small ++ [enqueue 8 None false])) ∧ run (small ++ [enqueue 8 None false; Worker (respond 3) 0]) = None.
Proof. split; [apply (bool_decide_unpack _); vm_compute; done | vm_compute; reflexivity]. Qed.

(** A command that is refused for lack of memory keeps the memory it already
    had, and its reference to the group. *)
Definition refused : list action := small ++ [Call (CreateGroup true); enqueue 0x9000 (Some 2%nat) true].
Example refused_command_leaks :
  (after refused).2 = [(KGroup, 2%nat); (KQueue, 1%nat); (KDevice, 0%nat)] ∧
  length (leaked (after refused).1) = 1%nat ∧ lost (s_st (after refused).1) = [(KGroup, 2%nat)].
Proof. split_and!; vm_compute; reflexivity. Qed.

(** When the copy of a host buffer cannot be allocated, the lock of the
    group is kept as well: the next operation on the group does not return. *)
Definition stuck : list action :=
  small ++ [Call (CreateGroup true); Call (CreateBuffer true None 0x9000 (Some 0x100000)); Call (AddBuffer true 2 3 1);
            enqueue 8 (Some 2%nat) true].
Example group_stays_locked : is_Some (run stuck) ∧ run (stuck ++ [Call (GetBuffer 2 0)]) = None.
Proof. split; [apply (bool_decide_unpack _); vm_compute; done | vm_compute; reflexivity]. Qed.

(** An interrupt mode the table of [synchronize] has no entry for. *)
Example bad_irq_mode_faults :
  bool_decide (is_Some (initialize 2000 world1 globals_zero (λ _, 0))) = true ∧
  bool_decide (is_Some (initialize 2000 (world (tree 3 1)) globals_zero (λ _, 0))) = false.
Proof. split; vm_compute; reflexivity. Qed.

(** Four devices fill the table; a fifth is written behind it. *)
Example fifth_device_overruns :
  gl_count ∘ fst <$> initialize 4000 (world (tree XRP_IRQ_LEVEL 4)) globals_zero (λ _, 0) = Some 4%nat ∧
  bool_decide (is_Some (initialize 4000 (world (tree XRP_IRQ_LEVEL 5)) globals_zero (λ _, 0))) = false.
Proof. split; vm_compute; reflexivity. Qed.

(** Without an exit location [xrp_exit] writes through a null pointer. *)
Example exit_without_location :
  bool_decide (is_Some (xrp_exit found1.1 found1.2)) = true ∧
  bool_decide (is_Some (xrp_exit globals_zero (λ _, 0))) = false.
Proof. split; vm_compute; reflexivity. Qed.

(** A pool that could not be created is used all the same. *)
Definition no_pool : sim_env :=
  let w := world1 in mk_sim_env (e_fdt w) (e_malloc w) (e_snprintf w) (e_shm w) (λ _, (false, None)) (e_dsp w).
Example missing_pool_ignored :
  (λ x : globals * mem, (gl_count x.1, shared_pool <$> gl_description x.1 !! 0%nat)) <$>
    initialize 2000 no_pool globals_zero (λ _, 0) = Some (1%nat, Some None).
Proof. vm_compute. reflexivity. Qed.

(** A region that could not be mapped is used all the same. *)
Definition no_io : sim_env :=
  let w := world1 in
  mk_sim_env (e_fdt w) (e_malloc w) (e_snprintf w)
    (λ i, match i with 0%nat => Mapped 3 (sh_ptr ram) | _ => MmapFails 4 end) (e_pool w) (e_dsp w).
Example failed_mmap_used :
  bool_decide (is_Some (initialize_shmem no_io globals_zero)) = true ∧
  bool_decide (is_Some (initialize 2000 no_io globals_zero (λ _, 0))) = false.
Proof. split; vm_compute; reflexivity. Qed.

(** The size of a buffer has 64 bits, that of its memory 32. *)
Definition large : list action := [Call (OpenDevice true 0); Call (CreateBuffer true (Some 0%nat) (2 ^ 32 + 16) None)].
Example buffer_size_truncated :
  xrp_buffer_get_info (after large).1 1 (Some XRP_BUFFER_SIZE_SIZE_T) 8 = Some (Some (2 ^ 32 + 16)) ∧
  (λ st, a_size <$> (map_to_list (st_objs st)).*2) <$> pool_of (after large).1 0 = Some [0x1000].
Proof. split; vm_compute; reflexivity. Qed.

(** The shared area of a device may reach beyond the region it starts in. *)
Example shared_area_unchecked :
  (λ x, (fst x, (λ st, a_end (region (st_pool st))) <$> shared_pool (snd x))) <$>
    init_cdns_xrp_common tab (true, Some 1)
      (mk_description 0x20000000 0x10000000 0x10001000 0x20000 0 0 0 (0, 0, 0) 0 None) = Some (true, Some 0x10021000) ∧
  sh_start ram + sh_size ram = 0x10010000.
Proof. split; vm_compute; reflexivity. Qed.

(** A host buffer of a queued command that is replaced by a device buffer:
    its copy is never freed. *)
Definition replaced : list action := setup ++ [Call (SetBuffer 4 1 2 1); Worker (respond 3) 0].
Example replaced_buffer_leaks : length (leaked (after replaced).1) = 1%nat.
Proof. vm_compute. reflexivity. Qed.

(** A command no one handles is reported as a failure. *)
Definition undelivered : list action := setup ++ [Worker (respond 11) 0].
Example delivery_failure_reported :
  xrp_event_status (after setup).1 5 = Some XRP_STATUS_PENDING ∧
  xrp_event_status (after undelivered).1 5 = Some XRP_STATUS_FAILURE.
Proof. split; vm_compute; reflexivity. Qed.
End SimWorld.
