(* ===== verification/SimBlocks.v ===== *)
(** * Pool memory of the simulator library as blocks of bytes

    The library keeps command data in memory it allocates from the pool of a
    device and reaches through a mapped region (xrp-linux-sim/xrp_linux_sim.c).
    Here that memory is seen as a finite map from descriptors to blocks, an
    address and the bytes there; allocating, freeing and copying have exact
    effects on the map, because the allocator keeps allocations apart and
    inside the pool. *)

From stdpp Require Import base tactics list gmap fin_maps numbers.
From S2P Require Import Prelude RefHeap Alloc PrivateAlloc PoolRoom Mem Interface HwSimple SimMem SimLib SimRefs.

(** ** Bytes of a block *)

(** [l] over the bytes of [bs] from [off] on. *)
Definition splice (bs : list Z) (off : nat) (l : list Z) : list Z :=
  take off bs ++ l ++ drop (off + length l) bs.

Lemma length_splice bs off l : (off + length l ≤ length bs)%nat → length (splice bs off l) = length bs.
Proof. intros. unfold splice. rewrite !length_app, length_take, length_drop. lia. Qed.

Lemma splice_app a b c l n : n = length a → length l = length b → splice (a ++ b ++ c) n l = a ++ l ++ c.
Proof.
  intros -> E. unfold splice. rewrite take_app_length, E. f_equal. f_equal.
  rewrite drop_app_ge by lia. replace (length a + length b - length a)%nat with (length b) by lia.
  by rewrite drop_app_length.
Qed.

Lemma splice_nil bs off : splice bs off [] = bs.
Proof. unfold splice. cbn [length app]. by rewrite Nat.add_0_r, take_drop. Qed.

Lemma splice_splice bs off l1 l2 :
  (off + length (l1 ++ l2) ≤ length bs)%nat →
  splice (splice bs off l1) (off + length l1) l2 = splice bs off (l1 ++ l2).
Proof.
  rewrite length_app. intros Hl. unfold splice.
  rewrite (app_assoc (take off bs) l1), take_app_length' by (rewrite length_app, length_take; lia).
  rewrite drop_app_ge by (rewrite length_app, length_take; lia).
  rewrite drop_drop, !length_app, length_take, <- !app_assoc. do 4 f_equal. lia.
Qed.

Lemma load_splice m a n off l :
  (off + length l ≤ n)%nat →
  load_bytes (store_bytes m (a + Z.of_nat off) l) a n = splice (load_bytes m a n) off l.
Proof.
  intros Hl. replace n with (off + (length l + (n - off - length l)))%nat by lia.
  rewrite !load_bytes_app.
  rewrite splice_app by (by rewrite length_load_bytes). rewrite load_store_same.
  rewrite !load_store_disjoint by lia. done.
Qed.

(** ** The platform *)

(** A device: the regions of shared memory, the one its command area is in
    and the one its pool is in, its number and its description. *)
Record platform := mk_platform {
  pf_regions : list xrp_shmem;
  pf_comm : xrp_shmem;
  pf_pool : xrp_shmem;
  pf_dev : nat;
  pf_desc : xrp_device_description;
}.

Definition with_pool (d : xrp_device_description) (st : alloc_state xrp_private_pool) : xrp_device_description :=
  mk_description (io_base d) (comm_base d) (shared_base d) (shared_size d) (comm_ptr d)
    (shared_ptr d) (dd_irq_mode d) (dd_irq d) (dd_irq_host_offset d) (Some st).

(** The allocator always gets its descriptors. *)
Definition kz_full (kz : callocs) : Prop := ∀ h, is_Some (kz h).1 ∧ is_Some (kz h).2.

Section blocks.
Context `{A : Arch} (P : platform) {kz : callocs}.
Abbreviation l := (pf_regions P).
Abbreviation rc := (pf_comm P).
Abbreviation rp := (pf_pool P).
Abbreviation i := (pf_dev P).
Abbreviation d := (pf_desc P).

(** [n] bytes at a physical address of the pool. *)
Definition in_pool (a n : Z) : Prop := shared_base d ≤ a ∧ a + n ≤ shared_base d + shared_size d.
(** Addresses of the program where the pool is mapped. *)
Definition pool_virt (x : Z) : Prop := virt rp (shared_base d) ≤ x < virt rp (shared_base d) + shared_size d.

(** The command area and the pool are in their regions, the interrupt
    register can be reached, and they are apart. *)
Record platform_ok : Prop := {
  po_regions : regions_ok l;
  po_comm : rc ∈ l ∧ inside rc (comm_base d) 80 ∧ comm_ptr d = virt rc (comm_base d);
  po_pool : rp ∈ l ∧ sh_start rp ≤ shared_base d ∧ shared_base d + shared_size d ≤ sh_start rp + sh_size rp;
  po_apart : comm_base d + 80 ≤ shared_base d ∨ shared_base d + shared_size d ≤ comm_base d;
  po_irq : dd_irq_mode d = XRP_IRQ_LEVEL ∨ dd_irq_mode d = XRP_IRQ_EDGE →
    ∃ r a, r ∈ l ∧ inside r a 4 ∧ u32 (io_base d + dd_irq_host_offset d) = a ∧ 0 ≤ (dd_irq d).1.2 < 32 ∧
      (a + 4 ≤ comm_base d ∨ comm_base d + 80 ≤ a) ∧ (a + 4 ≤ shared_base d ∨ shared_base d + shared_size d ≤ a);
}.
Context (Hok : platform_ok).

(** The state has the platform's regions and devices, with a consistent pool
    that has lost nothing as long as there was memory for descriptors. *)
Definition pool_ok (s : sim) (st : alloc_state xrp_private_pool) : Prop :=
  tab s = Some <$> l ∧ gl_description (s_gl s) !! i = Some (with_pool d st) ∧
  region (st_pool st) = mk_allocation 0 (shared_base d) (shared_size d) 0 ∧ alloc_inv st ∧ (kz_full kz → tidy st) ∧
  (0 < gl_count (s_gl s))%nat ∧ (i ≤ gl_count (s_gl s))%nat.
Definition on_platform (s : sim) : Prop := ∃ st, pool_ok s st.

Definition block_of (m : mem) (a : xrp_allocation) : Z * list Z :=
  (a_start a, load_bytes m (virt rp (a_start a)) (Z.to_nat (a_size a))).
Definition blocks (s : sim) : gmap Z (Z * list Z) :=
  match pool_of s i with Some st => block_of (s_mem s) <$> st_objs st | None => ∅ end.

Lemma pool_ok_pool s st : pool_ok s st → pool_of s i = Some st.
Proof. intros (_ & E & _). unfold pool_of. by rewrite E. Qed.

Lemma blocks_ok s st : pool_ok s st → blocks s = block_of (s_mem s) <$> st_objs st.
Proof. intros Hs. unfold blocks. by rewrite (pool_ok_pool s st). Qed.

Lemma block_lookup s st p start bs :
  pool_ok s st → blocks s !! p = Some (start, bs) →
  ∃ a, st_objs st !! p = Some a ∧ a_start a = start ∧ bs = load_bytes (s_mem s) (virt rp start) (Z.to_nat (a_size a)).
Proof.
  intros Hs. rewrite (blocks_ok s st Hs), lookup_fmap. destruct (st_objs st !! p) as [a |]; [| done].
  cbn. intros [= <- <-]. by exists a.
Qed.

(** ** Where blocks are *)

Lemma live_in_pool s st p a : pool_ok s st → st_objs st !! p = Some a → 0 < a_size a ∧ in_pool (a_start a) (a_size a).
Proof.
  intros (_ & _ & Hr & Hi & _) Ha. pose proof (ai_pool _ Hi) as Hp. pose proof (live_elem _ _ _ Ha) as Hin.
  destruct (private_live_in_region _ _ a Hp Hin) as [H1 H2].
  pose proof (proj1 (list.Forall_forall _ _) (pi_live _ _ Hp) a Hin). rewrite Hr in H2. unfold region in Hr.
  injection Hr as E1 E2. unfold a_end, in_pool in *. cbn in *. lia.
Qed.

Lemma block_bytes s p start bs :
  on_platform s → blocks s !! p = Some (start, bs) →
  bs = load_bytes (s_mem s) (virt rp start) (length bs) ∧ (0 < length bs)%nat ∧ in_pool start (Z.of_nat (length bs)).
Proof.
  intros [st Hs] Hb. destruct (block_lookup s st p start bs Hs Hb) as (a & Ha & <- & ->).
  destruct (live_in_pool s st p a Hs Ha). rewrite length_load_bytes. split; [done |]. split; [lia |].
  by rewrite Z2Nat.id by lia.
Qed.

Lemma blocks_apart s p q start bs start' bs' :
  on_platform s → blocks s !! p = Some (start, bs) → blocks s !! q = Some (start', bs') → p ≠ q →
  start + Z.of_nat (length bs) ≤ start' ∨ start' + Z.of_nat (length bs') ≤ start.
Proof.
  intros [st Hs] Hp Hq Hne. destruct (block_lookup s st p start bs Hs Hp) as (a & Ha & <- & ->).
  destruct (block_lookup s st q start' bs' Hs Hq) as (b & Hb & <- & ->). rewrite !length_load_bytes.
  destruct (live_in_pool s st p a Hs Ha), (live_in_pool s st q b Hs Hb). rewrite !Z2Nat.id by lia.
  destruct (Z_le_gt_dec (a_start a + a_size a) (a_start b)); [by left |].
  destruct (Z_le_gt_dec (a_start b + a_size b) (a_start a)); [by right |]. exfalso.
  destruct Hs as (_ & _ & _ & Hi & _).
  apply (live_disjoint st p q a b (Z.max (a_start a) (a_start b)) Hi Ha Hb Hne); unfold a_end; lia.
Qed.

(** ** Changing memory *)

Lemma pool_ok_mem s st m : pool_ok s st → pool_ok (set_mem s m) st.
Proof. done. Qed.

Lemma blocks_mem s m p start bs :
  on_platform s → blocks s !! p = Some (start, bs) →
  blocks (set_mem s m) !! p = Some (start, load_bytes m (virt rp start) (length bs)).
Proof.
  intros [st Hs] Hb. destruct (block_lookup s st p start bs Hs Hb) as (a & Ha & <- & ->).
  rewrite (blocks_ok _ st) by done. rewrite lookup_fmap, Ha. cbn. by rewrite length_load_bytes.
Qed.

(** Memory that agrees on the pool. *)
Lemma blocks_frame s m :
  on_platform s → (∀ x, pool_virt x → m x = s_mem s x) → blocks (set_mem s m) = blocks s.
Proof.
  intros [st Hs] Hm. rewrite (blocks_ok _ st Hs), (blocks_ok (set_mem s m) st Hs). apply map_fmap_ext.
  intros p a Ha. destruct (live_in_pool s st p a Hs Ha) as [? [? ?]]. unfold block_of. f_equal. cbn.
  apply load_bytes_ext. intros x Hx. apply Hm. unfold pool_virt, virt in *. lia.
Qed.

Lemma p2v_pool a : in_pool a 1 → p2v (Some <$> l) a = Some (virt rp a).
Proof.
  intros [? ?]. destruct Hok as [Hl _ (Hr & ? & ?) _ _]. rewrite (p2v_region l rp) by (done || unfold in_phys; lia). done.
Qed.

Lemma accessible_pool a n : in_pool a n → accessible (Some <$> l) (virt rp a) n = true.
Proof. intros [? ?]. destruct Hok as [Hl _ (Hr & ? & ?) _ _]. apply accessible_in; [done | done | lia | lia]. Qed.

(** ** The operations *)

(** A state that differs in the pool and the memory of the pool only. *)
Definition same_but_pool (s s' : sim) : Prop :=
  s_st s' = s_st s ∧ leaked s' = leaked s ∧ ∀ x, ¬ pool_virt x → s_mem s' x = s_mem s x.

Lemma same_but_pool_refl s : same_but_pool s s.
Proof. done. Qed.
Lemma same_but_pool_trans s1 s2 s3 : same_but_pool s1 s2 → same_but_pool s2 s3 → same_but_pool s1 s3.
Proof.
  intros (E1 & L1 & M1) (E2 & L2 & M2). split_and!; [congruence | congruence |]. intros x Hx. by rewrite M2, M1.
Qed.

Lemma write_block s p start bs off w :
  on_platform s → blocks s !! p = Some (start, bs) → (off + length w ≤ length bs)%nat →
  ∃ s', shm_write s start (Z.of_nat off) w = Some s' ∧ on_platform s' ∧ same_but_pool s s' ∧
    blocks s' = <[p := (start, splice bs off w)]> (blocks s).
Proof.
  intros Hs Hb Hl. destruct (block_bytes s p start bs Hs Hb) as (Eb & ? & Hin). unfold in_pool in Hin.
  pose proof Hs as [st Hst]. pose proof Hst as (Et & _).
  assert (virt rp start + Z.of_nat off = virt rp (start + Z.of_nat off)) as Ev by (unfold virt; lia).
  unfold shm_write. rewrite Et, p2v_pool by (unfold in_pool; lia). cbn [mbind option_bind].
  rewrite Ev, accessible_pool by (unfold in_pool; lia).
  set (m := store_bytes (s_mem s) (virt rp (start + Z.of_nat off)) w). eexists. split; [done |].
  split; [by exists st |]. split; [split_and!; try done |].
  - intros x Hx. cbn. apply store_bytes_out. unfold pool_virt, virt in *. lia.
  - apply map_eq. intros q. destruct (decide (q = p)) as [-> |].
    + rewrite lookup_insert_eq, (blocks_mem s m p start bs Hs Hb). f_equal. f_equal. subst m. rewrite <- Ev.
      rewrite load_splice by done. by rewrite <- Eb.
    + rewrite lookup_insert_ne by done. destruct (blocks s !! q) as [[start' bs'] |] eqn:Eq.
      * rewrite (blocks_mem s m q start' bs' Hs Eq). f_equal. f_equal.
        destruct (block_bytes s q start' bs' Hs Eq) as (Eb' & _ & Hin'). rewrite Eb' at 2.
        apply load_store_disjoint. destruct (blocks_apart s p q start bs start' bs' Hs Hb Eq); [done | |];
          unfold virt; lia.
      * rewrite (blocks_ok s st Hst), lookup_fmap in Eq. rewrite (blocks_ok (set_mem s m) st Hst), lookup_fmap.
        by destruct (st_objs st !! q).
Qed.

Lemma read_block s p start bs off n :
  on_platform s → blocks s !! p = Some (start, bs) → (off + n ≤ length bs)%nat →
  shm_read s start (Z.of_nat off) n = Some (take n (drop off bs)).
Proof.
  intros Hs Hb Hl. destruct (block_bytes s p start bs Hs Hb) as (Eb & ? & Hin). unfold in_pool in Hin.
  destruct Hs as [st (Et & _)].
  assert (virt rp start + Z.of_nat off = virt rp (start + Z.of_nat off)) as Ev by (unfold virt; lia).
  unfold shm_read. rewrite Et, p2v_pool by (unfold in_pool; lia). cbn [mbind option_bind].
  rewrite Ev, accessible_pool by (unfold in_pool; lia). f_equal. rewrite <- Ev, Eb.
  replace (length bs) with (off + (n + (length bs - off - n)))%nat by lia. rewrite !load_bytes_app.
  rewrite drop_app_length', take_app_length' by (by rewrite length_load_bytes). done.
Qed.

Lemma set_pool_ok s st st' :
  pool_ok s st → region (st_pool st') = region (st_pool st) → alloc_inv st' → (kz_full kz → tidy st') →
  pool_ok (set_pool s i st') st'.
Proof.
  intros (Et & Ed & Er & _ & _ & Hc) Er' Hi Ht. split; [done |]. split; [| split; [congruence | split; [done | split; done]]]. cbn.
  rewrite list_lookup_alter_eq, Ed. done.
Qed.

Lemma allocate_region kz1 kz2 st size align r st' :
  alloc_inv st → kz_fresh (ops_heap (st_pool st)) kz1 kz2 → valid_request size align →
  xrp_allocate kz1 kz2 st size align = (r, st') → region (st_pool st') = region (st_pool st).
Proof.
  intros [Hp _ _] Hk Hv. unfold xrp_allocate. cbn [ops_alloc].
  destruct (ops_alloc kz1 kz2 (st_pool st) size align) as [[a | e] p] eqn:E; intros [= <- <-]; cbn.
  - by destruct (private_alloc_spec _ _ _ _ _ _ _ _ Hp Hk Hv E) as (_ & _ & _ & _ & ? & _).
  - by destruct (private_alloc_spec _ _ _ _ _ _ _ _ Hp Hk Hv E) as (_ & ? & _).
Qed.

(** What the pool can still give in one piece; an operation that takes at
    most [n] of it, and a request it is too small for. *)
Definition avail (s : sim) : Z := match pool_of s i with Some st => room_of st | None => 0 end.
Definition spends (s s' : sim) (n : Z) : Prop := kz_full kz → avail s - n ≤ avail s'.
Definition short (s : sim) (n : Z) : Prop := kz_full kz → avail s < n.

Lemma spends_refl s : spends s s 0.
Proof. intros _. lia. Qed.
Lemma spends_trans s1 s2 s3 n m : spends s1 s2 n → spends s2 s3 m → spends s1 s3 (n + m).
Proof. intros H1 H2 Hf. specialize (H1 Hf). specialize (H2 Hf). lia. Qed.
Lemma spends_short s1 s2 n m : spends s1 s2 n → short s2 m → short s1 (n + m).
Proof. intros H1 H2 Hf. specialize (H1 Hf). specialize (H2 Hf). lia. Qed.
Lemma short_le s n m : n ≤ m → short s n → short s m.
Proof. intros Hn H Hf. specialize (H Hf). lia. Qed.

Lemma avail_ok s st : pool_ok s st → avail s = room_of st.
Proof. intros Hs. unfold avail. by rewrite (pool_ok_pool s st Hs). Qed.

Lemma allocate_block s size :
  kz_ok kz → on_platform s → size_ok size →
  ∃ s' x, allocate kz s i size = Some (s', x) ∧ on_platform s' ∧ same_but_pool s s' ∧ s_mem s' = s_mem s ∧
    match x with
    | Some (p, start) =>
        blocks s !! p = None ∧ (∃ bs, blocks s' = <[p := (start, bs)]> (blocks s) ∧ u32 size ≤ Z.of_nat (length bs)) ∧
        spends s s' (page_align (u32 size))
    | None => blocks s' = blocks s ∧ (u32 size = 0 ∨ short s (page_align (u32 size)))
    end.
Proof.
  intros Hkz [st Hs] Hz. pose proof Hs as (_ & _ & _ & Hi & Ht & _). unfold allocate. rewrite (pool_ok_pool s st Hs).
  cbn [mbind option_bind].
  destruct (xrp_allocate _ _ st (u32 size) 16) as [r st'] eqn:Ea.
  pose proof (allocate_region _ _ _ _ _ _ _ Hi (Hkz _) Hz Ea) as Er.
  assert (u32 size ≠ 0 → kz_full kz → tidy st' ∧
    match r with Ok _ => room_of st - page_align (u32 size) ≤ room_of st' | Err _ => room_of st < page_align (u32 size) end) as Hroom.
  { intros Hnz Hf. destruct (Hf (ops_heap (st_pool st))) as [Hk1 Hk2].
    pose proof (allocate_room _ _ st (u32 size) Hi (Ht Hf) (Hkz _) Hk1 Hk2 Hz Hnz) as Hr. rewrite Ea in Hr. by destruct r. }
  assert (u32 size = 0 → st' = st ∧ ∃ e, r = Err e) as Hzero.
  { intros E0. rewrite E0 in Ea. injection Ea as <- <-. split; [by destruct st | by eexists]. }
  assert (kz_full kz → tidy st') as Ht'.
  { intros Hf. destruct (decide (u32 size = 0)) as [E0 | Hnz]; [destruct (Hzero E0) as [-> _]; by apply Ht | by apply Hroom]. }
  destruct r as [p | e].
  - destruct (allocate_inv _ _ _ _ _ _ _ Hi (Hkz _) Hz Ea) as (Hi' & Hnone & a & Eo & _ & Hsz).
    rewrite Eo, lookup_insert_eq. cbn [mbind option_bind]. do 2 eexists. split; [done |].
    pose proof (set_pool_ok s st st' Hs Er Hi' Ht') as Hs'. split; [by exists st' |]. split; [done |]. split; [done |].
    rewrite (blocks_ok s st Hs), (blocks_ok _ st' Hs'), lookup_fmap, Hnone. split; [done |]. split.
    + rewrite Eo, fmap_insert. eexists. split; [done |]. rewrite length_load_bytes. lia.
    + intros Hf. rewrite (avail_ok s st Hs), (avail_ok _ st' Hs'). apply Hroom; [| done]. intros E0.
      by destruct (Hzero E0) as [_ [e He]].
  - destruct (allocate_err_inv _ _ _ _ _ _ _ Hi (Hkz _) Hz Ea) as [Hi' Eo]. do 2 eexists. split; [done |].
    pose proof (set_pool_ok s st st' Hs Er Hi' Ht') as Hs'. split; [by exists st' |]. split; [done |]. split; [done |].
    split; [by rewrite (blocks_ok s st Hs), (blocks_ok _ st' Hs'), Eo |].
    destruct (decide (u32 size = 0)); [by left | right]. intros Hf. rewrite (avail_ok s st Hs). by apply Hroom.
Qed.

(** Only the allocator changes what is available. *)
Lemma avail_pool s s' : pool_of s' i = pool_of s i → avail s' = avail s.
Proof. intros E. unfold avail. by rewrite E. Qed.
Lemma shm_write_avail s start off w s' : shm_write s start off w = Some s' → avail s' = avail s.
Proof. unfold shm_write. intros (v & _ & E)%bind_Some. destruct (accessible _ _ _); [| done]. by injection E as <-. Qed.

(** Nothing allocated: all of the pool. *)
Lemma avail_empty s : on_platform s → kz_full kz → blocks s = ∅ → avail s = shared_size d.
Proof.
  intros [st Hs] Hf Hb. rewrite (avail_ok s st Hs). pose proof Hs as (_ & _ & Hr & Hi & Ht & _).
  rewrite (tidy_empty st Hi (Ht Hf)); [by injection Hr |]. rewrite (blocks_ok s st Hs) in Hb. by apply fmap_empty_inv in Hb.
Qed.

Lemma free_block s p b :
  on_platform s → blocks s !! p = Some b →
  ∃ s', free s (i, p) = Some s' ∧ on_platform s' ∧ same_but_pool s s' ∧ s_mem s' = s_mem s ∧
    blocks s' = delete p (blocks s).
Proof.
  intros [st Hs] Hb. destruct b as [start bs]. destruct (block_lookup s st p start bs Hs Hb) as (a & Ha & _).
  unfold free. cbn [fst snd]. rewrite (pool_ok_pool s st Hs). cbn [mbind option_bind]. unfold xrp_free. rewrite Ha.
  cbn [mbind option_bind]. set (st' := mk_alloc_state _ _).
  pose proof Hs as (_ & _ & _ & Hi & Ht & _). assert (alloc_inv st') as Hi' by (by apply alloc_inv_delete).
  assert (kz_full kz → tidy st') as Ht' by (intros Hf; apply free_tidy; [done | by apply Ht | done]).
  assert (region (st_pool st') = region (st_pool st)) as Er.
  { cbn. unfold xrp_private_free. by destruct (free_loop _ _). }
  pose proof (set_pool_ok s st st' Hs Er Hi' Ht') as Hs'. eexists. split; [done |]. split; [by exists st' |].
  split; [done |]. split; [done |]. rewrite (blocks_ok s st Hs), (blocks_ok _ st' Hs'). cbn.
  apply fmap_delete.
Qed.

Lemma start_of_block s p start bs :
  on_platform s → blocks s !! p = Some (start, bs) → start_of s (i, p) = Some start.
Proof.
  intros [st Hs] Hb. destruct (block_lookup s st p start bs Hs Hb) as (a & Ha & <- & _).
  rewrite (start_of_some s i p st) by (by apply pool_ok_pool). by rewrite Ha.
Qed.
End blocks.
