(* ===== verification/SimEnqueue.v ===== *)
(** * What the simulator library puts into a command

    [xrp_enqueue_command] (xrp-linux-sim/xrp_linux_sim.c) against the blocks
    of [SimBlocks]: it always returns, and the request it queues carries the
    command the client meant - the input data, room for the output, and for
    every buffer of the group a descriptor of its memory or of a copy. *)

From stdpp Require Import base tactics list gmap fin_maps numbers.
From S2P Require Import Prelude DspNs RefHeap Alloc PrivateAlloc PoolRoom Mem Interface SimMem SimLib SimRefs SimClient SimBlocks.

(** ** Buffers of a group *)

(** A buffer: the descriptor of its pool memory, unless it is the host's,
    its address and size in the program, the access flags, and how often the
    program has it mapped. *)
Record item := mk_item {
  it_alloc : option Z;
  it_ptr : Z;
  it_size : Z;
  it_flags : Z;
  it_maps : Z;
}.

Section enqueue.
Context `{A : Arch} (P : platform) (Hok : platform_ok P) (kz : callocs) (Hkz : kz_ok kz).
Abbreviation rgns := (pf_regions P).
Abbreviation rp := (pf_pool P).
Abbreviation i := (pf_dev P).
Abbreviation blocks := (SimBlocks.blocks P).
Abbreviation on_platform := (SimBlocks.on_platform (kz := kz) P).
Abbreviation avail := (SimBlocks.avail P).
Abbreviation spends := (SimBlocks.spends (kz := kz) P).
Abbreviation short := (SimBlocks.short (kz := kz) P).
Abbreviation same_but_pool := (SimBlocks.same_but_pool P).

(** [n] bytes of the program that are not shared memory. *)
Definition private (a n : Z) : Prop :=
  0 ≤ a ∧ a + n ≤ 2 ^ long_bits ∧ ∀ r, r ∈ rgns → a + n ≤ sh_ptr r ∨ sh_ptr r + sh_size r ≤ a.

Definition is_item (s : sim) (rec : nat * Z) (it : item) : Prop :=
  rec.2 = it_flags it ∧ ∃ mf,
    object s rec.1 = Some (Buffer ((λ p, (i, p)) <$> it_alloc it) (it_ptr it) (it_size it) (it_maps it) mf).

Definition item_ok (s : sim) (it : item) : Prop :=
  0 ≤ it_size it < 2 ^ 32 ∧ size_ok (it_size it) ∧
  match it_alloc it with
  | Some p => ∃ start bs, blocks s !! p = Some (start, bs) ∧ it_size it ≤ Z.of_nat (length bs) ∧ it_ptr it = virt rp start
  | None => private (it_ptr it) (it_size it)
  end.

Definition contents (m : mem) (it : item) : list Z := load_bytes m (it_ptr it) (Z.to_nat (it_size it)).

(** What has become of a buffer in a queued command: the address in its
    descriptor, the allocation of its copy, and the block there, which holds
    the contents of the buffer. *)
Definition item_block (it : item) (u : option Z) : option Z := match it_alloc it with Some p => Some p | None => u end.
Definition placed_item (m : mem) (s' : sim) (it : item) (addr : Z) (u : option Z) : Prop :=
  (∀ p, it_alloc it = Some p → u = None ∧ it_ptr it = virt rp addr) ∧
  ∃ p bs, item_block it u = Some p ∧ blocks s' !! p = Some (addr, bs) ∧ it_size it ≤ Z.of_nat (length bs) ∧
    take (Z.to_nat (it_size it)) bs = contents m it.

Definition descriptor_of (it : item) (addr : Z) : xrp_dsp_buffer :=
  mk_dsp_buffer (u32 (it_flags it)) (u32 (it_size it)) (u32 addr).
Definition descriptors_of (items : list item) (addrs : list Z) : list Z :=
  dsp_buffers_bytes (zip_with descriptor_of items addrs).

Lemma length_descriptor fl sz a : length (descriptor fl sz a) = 12%nat.
Proof. reflexivity. Qed.

Lemma length_descriptors items addrs :
  length addrs = length items → length (descriptors_of items addrs) = (12 * length items)%nat.
Proof.
  revert addrs. induction items as [| it items IH]; intros [| a addrs] E; try done.
  unfold descriptors_of, dsp_buffers_bytes in *. cbn [zip_with]. rewrite bind_cons, length_app, IH by (by injection E).
  rewrite length_dsp_buffer_bytes. cbn [length]. lia.
Qed.

Lemma private_not_pool a n x : private a n → a ≤ x < a + n → ¬ pool_virt P x.
Proof.
  intros (_ & _ & Hr) Hx Hp. destruct Hok as [_ _ (Hin & ? & ?) _ _]. specialize (Hr rp Hin).
  unfold pool_virt, virt in *. lia.
Qed.

Lemma device_contents s it p :
  on_platform s → item_ok s it → it_alloc it = Some p →
  ∃ start bs, blocks s !! p = Some (start, bs) ∧ it_size it ≤ Z.of_nat (length bs) ∧ it_ptr it = virt rp start ∧
    take (Z.to_nat (it_size it)) bs = contents (s_mem s) it.
Proof.
  intros Hs (Hz & _ & Hi) E. rewrite E in Hi. destruct Hi as (start & bs & Hb & Hl & Ep). exists start, bs.
  split_and!; [done.. |]. destruct (block_bytes P s p start bs Hs Hb) as (Eb & _). unfold contents. rewrite Eb, Ep.
  replace (length bs) with (Z.to_nat (it_size it) + (length bs - Z.to_nat (it_size it)))%nat by lia.
  rewrite load_bytes_app. apply take_app_length'. by rewrite length_load_bytes.
Qed.

(** ** Steps of the call *)

(** Only blocks that exist, other than [p], are kept. *)
Definition keeps_blocks (ps : option Z) (s s' : sim) : Prop :=
  ∀ p, ps ≠ Some p → is_Some (blocks s !! p) → blocks s' !! p = blocks s !! p.

Lemma keeps_blocks_trans ps s1 s2 s3 :
  keeps_blocks ps s1 s2 → keeps_blocks ps s2 s3 → keeps_blocks ps s1 s3.
Proof. intros H1 H2 p Hp Hs. rewrite H2; [by apply H1 | done |]. by rewrite H1. Qed.

Lemma keeps_insert ps s s' p b : blocks s !! p = None → blocks s' = <[p := b]> (blocks s) → keeps_blocks ps s s'.
Proof. intros Hn E q _ [x Hq]. rewrite E, lookup_insert_ne; [done |]. intros ->. congruence. Qed.

Lemma item_ok_keeps ps s s' it :
  keeps_blocks ps s s' → (∀ p, ps = Some p → it_alloc it ≠ Some p) → item_ok s it → item_ok s' it.
Proof.
  intros Hk Hne (? & ? & Hi). split; [done |]. split; [done |]. destruct (it_alloc it) as [p |]; [| done].
  destruct Hi as (start & bs & Hb & ? & ?). exists start, bs. split; [| done]. rewrite Hk; [done | | by eexists].
  intros ->. by apply (Hne p).
Qed.

(** Writing to other blocks leaves the contents of a buffer. *)
Lemma contents_kept ps s s' it :
  on_platform s → on_platform s' → keeps_blocks ps s s' → (∀ p, ps = Some p → it_alloc it ≠ Some p) →
  (∀ x, ¬ pool_virt P x → s_mem s' x = s_mem s x) → item_ok s it → contents (s_mem s') it = contents (s_mem s) it.
Proof.
  intros Hs Hs' Hk Hne Hm Hi. pose proof (item_ok_keeps ps s s' it Hk Hne Hi) as Hi'. destruct (it_alloc it) as [p |] eqn:E.
  - destruct (device_contents s it p Hs Hi E) as (start & bs & Hb & _ & _ & <-).
    destruct (device_contents s' it p Hs' Hi' E) as (start' & bs' & Hb' & _ & _ & <-).
    rewrite Hk in Hb'; [by simplify_eq | | by eexists]. intros Ep. by apply (Hne p Ep).
  - destruct Hi as (Hz & _ & Hp). rewrite E in Hp. apply load_bytes_ext. intros x Hx. apply Hm.
    eapply private_not_pool; [exact Hp | lia].
Qed.

Lemma placed_item_mem m m' s it addr u : contents m' it = contents m it → placed_item m s it addr u → placed_item m' s it addr u.
Proof. intros E (? & p & bs & ? & ? & ? & ?). split; [done |]. exists p, bs. by rewrite E. Qed.

Lemma is_item_same s s' rec it : s_st s' = s_st s → is_item s rec it → is_item s' rec it.
Proof. intros E (? & mf & Ho). split; [done |]. exists mf. by rewrite (object_st s s'). Qed.

Lemma block_start_u32 s p start bs : on_platform s → blocks s !! p = Some (start, bs) → 0 ≤ start < 2 ^ 32.
Proof.
  intros Hs Hb. destruct (block_bytes P s p start bs Hs Hb) as (_ & ? & ? & ?).
  destruct Hok as [Hl _ (Hin & ? & ?) _ _]. destruct (regions_elem _ _ Hl Hin) as [? ? ?]. lia.
Qed.

(** ** What a command takes from the pool *)

Definition cost_if (big : bool) (size : Z) : Z := if big then page_align size else 0.
Definition item_cost (it : item) : Z := match it_alloc it with Some _ => 0 | None => page_align (it_size it) end.
Definition items_cost (items : list item) : Z := foldr (λ it n, item_cost it + n) 0 items.

Lemma page_cost_nonneg v : 0 ≤ page_align v.
Proof. unfold page_align, ALIGN. apply Z.land_nonneg. left. apply u32_range. Qed.
Lemma item_cost_nonneg it : 0 ≤ item_cost it.
Proof. unfold item_cost. destruct (it_alloc it); [done | apply page_cost_nonneg]. Qed.
Lemma items_cost_nonneg items : 0 ≤ items_cost items.
Proof. induction items as [| it items IH]; [done |]. cbn. pose proof (item_cost_nonneg it). unfold items_cost in IH. lia. Qed.
Lemma cost_if_nonneg big size : 0 ≤ cost_if big size.
Proof. unfold cost_if. destruct big; [apply page_cost_nonneg | done]. Qed.

(** A buffer the library cannot take: mapped, or of the host and empty. *)
Definition unusable (it : item) : Prop := 0 < it_maps it ∨ it_alloc it = None ∧ it_size it = 0.

(** One buffer gets memory. *)
Lemma place_buffer_spec s it :
  on_platform s → item_ok s it →
  ∃ s' x, place_buffer kz s i ((λ p, (i, p)) <$> it_alloc it) (it_ptr it) (it_size it) = Some (s', x) ∧
    on_platform s' ∧ same_but_pool s s' ∧ keeps_blocks None s s' ∧
    match x with
    | Some (u, addr) =>
        placed_item (s_mem s) s' it addr u ∧ (∀ p, u = Some p → blocks s !! p = None ∧ is_Some (blocks s' !! p)) ∧
        spends s s' (item_cost it)
    | None => unusable it ∨ short s (item_cost it)
    end.
Proof.
  intros Hs Hit. pose proof Hit as (Hz & Hz' & Hi). unfold place_buffer, placed_item, item_block, item_cost, unusable.
  destruct (it_alloc it) as [p |] eqn:Eal; cbn [fmap option_fmap option_map].
  - destruct (device_contents s it p Hs Hit Eal) as (start & bs & Hb & ? & ? & ?).
    rewrite (start_of_block P s p start bs Hs Hb). cbn [mbind option_bind].
    do 2 eexists. split; [done |]. split_and!; try done; [by exists p, bs | apply spends_refl].
  - destruct (allocate_block P s (it_size it) Hkz Hs Hz') as (s1 & x & -> & Hs1 & Hsp & Hm & Hx).
    rewrite u32_small in Hx by done. cbn [mbind option_bind]. destruct x as [[p start] |].
    + destruct Hx as (Hn & (bs & Eb & Hl) & Hsd).
      assert (blocks s1 !! p = Some (start, bs)) as Hb by (by rewrite Eb, lookup_insert_eq).
      set (w := load_bytes (s_mem s1) (it_ptr it) (Z.to_nat (it_size it))).
      assert (length w = Z.to_nat (it_size it)) as Elw by apply length_load_bytes.
      destruct (write_block P Hok s1 p start bs 0 w Hs1 Hb) as (s2 & Ew & Hs2 & Hsp2 & Eb2); [lia |].
      change (Z.of_nat 0) with 0 in Ew. rewrite Ew. pose proof (shm_write_avail P _ _ _ _ _ Ew) as Ea2.
      cbn [mbind option_bind]. do 2 eexists. split; [done |].
      rewrite Eb, insert_insert_eq in Eb2.
      split; [done |]. split; [by eapply same_but_pool_trans |]. split; [by eapply keeps_insert |]. split.
      * split; [done |]. exists p, (splice bs 0 w). rewrite Eb2, lookup_insert_eq. split_and!; [done | done | |].
        -- rewrite length_splice by lia. lia.
        -- unfold splice. rewrite take_0. cbn [app]. rewrite take_app_length' by done. subst w. by rewrite Hm.
      * split; [| intros Hf; rewrite Ea2; by apply Hsd].
        intros q [= <-]. split; [done |]. rewrite Eb2, lookup_insert_eq. by eexists.
    + destruct Hx as [Hx Hsh]. do 2 eexists. split; [done |].
      split_and!; try done; [intros p _ _; by rewrite Hx |]. destruct Hsh as [? | ?]; [left; by right | by right].
Qed.

(** Copies of all buffers of a group. *)
Definition placed_items (m : mem) (s' : sim) (items : list item) (addrs : list Z) (user : list (option Z)) : Prop :=
  length addrs = length items ∧ length user = length items ∧
  ∀ k it addr u, items !! k = Some it → addrs !! k = Some addr → user !! k = Some u → placed_item m s' it addr u.

(** Data in memory of its own, or in the command. *)
Definition written (s s' : sim) (cmd cmd' : mem) (a : option (Z * Z)) (field : Z) (off : nat) (w : list Z) : Prop :=
  match a with
  | Some (p, start) =>
      cmd' = cmd ∧ ∀ bs, blocks s !! p = Some (start, bs) → blocks s' !! p = Some (start, splice bs off w)
  | None => cmd' ≡ store_bytes cmd (field + Z.of_nat off) w
  end.

Definition room (s : sim) (a : option (Z * Z)) (n : nat) : Prop :=
  match a with Some (p, start) => ∃ bs, blocks s !! p = Some (start, bs) ∧ (n ≤ length bs)%nat | None => True end.

Lemma fill_spec s cmd a field off w :
  on_platform s → room s a (off + length w) →
  ∃ s' cmd', fill s cmd (alloc_start a) field (Z.of_nat off) w = Some (s', cmd') ∧
    on_platform s' ∧ same_but_pool s s' ∧ keeps_blocks (alloc_ptr a) s s' ∧ written s s' cmd cmd' a field off w ∧
    (∀ n, room s a n → room s' a n) ∧ (∀ p, is_Some (blocks s' !! p) ↔ is_Some (blocks s !! p)) ∧ avail s' = avail s.
Proof.
  intros Hs Hr. destruct a as [[p start] |]; cbn in *.
  - destruct Hr as (bs & Hb & Hl). destruct (write_block P Hok s p start bs off w Hs Hb Hl) as (s' & Ew & Hs' & Hsp & Eb).
    pose proof (shm_write_avail P _ _ _ _ _ Ew) as Ea. rewrite Ew. cbn. exists s', cmd. split_and!; try done.
    + intros q Hq _. rewrite Eb, lookup_insert_ne; [done |]. congruence.
    + intros bs' Hb'. simplify_eq. by rewrite Eb, lookup_insert_eq.
    + intros n (bs' & Hb' & Hn). simplify_eq. rewrite Eb, lookup_insert_eq. eexists. split; [done |].
      by rewrite length_splice.
    + intros q. rewrite Eb, lookup_insert_is_Some'. split; [by intros [-> | ?]; [eexists |] | by right].
  - exists s, (store_bytes cmd (field + Z.of_nat off) w). by split_and!.
Qed.

Lemma room_le s a n n' : (n ≤ n')%nat → room s a n' → room s a n.
Proof. intros Hn. destruct a as [[p start] |]; [| done]. intros (bs & Hb & ?). exists bs. split; [done | lia]. Qed.

Lemma room_keeps s s' a n : keeps_blocks None s s' → room s a n → room s' a n.
Proof. intros Hk. destruct a as [[p start] |]; [| done]. intros (bs & Hb & ?). exists bs. by rewrite Hk. Qed.

Lemma written_app s0 s1 s2 cmd0 cmd1 cmd2 a field off w1 w2 :
  room s0 a (off + length (w1 ++ w2)) →
  written s0 s1 cmd0 cmd1 a field off w1 → written s1 s2 cmd1 cmd2 a field (off + length w1) w2 →
  written s0 s2 cmd0 cmd2 a field off (w1 ++ w2).
Proof.
  intros Hr. destruct a as [[p start] |]; cbn in *.
  - intros [-> H1] [-> H2]. split; [done |]. intros bs Hb. rewrite (H2 _ (H1 _ Hb)). do 2 f_equal.
    destruct Hr as (bs' & Hb' & ?). simplify_eq. by rewrite splice_splice.
  - intros H1 H2. rewrite H2, H1. rewrite <- store_bytes_app. f_equiv. lia.
Qed.

Lemma written_keeps s0 s s' cmd cmd' a field off w :
  keeps_blocks None s0 s → written s s' cmd cmd' a field off w → written s0 s' cmd cmd' a field off w.
Proof.
  intros Hk. destruct a as [[p start] |]; [| done]. intros [? Hw]. split; [done |]. intros bs Hb. apply Hw.
  by rewrite Hk.
Qed.

(** No device buffer of the list is the memory of the descriptors. *)
Definition apart_from (a : option (Z * Z)) (items : list item) : Prop :=
  ∀ it p, it ∈ items → alloc_ptr a = Some p → it_alloc it ≠ Some p.

Lemma placed_item_keeps ps m s s' it addr u :
  keeps_blocks ps s s' → placed_item m s it addr u →
  (∀ p, ps = Some p → it_alloc it ≠ Some p ∧ u ≠ Some p) → placed_item m s' it addr u.
Proof.
  intros Hk (Hd & p & bs & Ep & Hb & ? & ?) Hne. split; [done |]. exists p, bs. split_and!; try done.
  rewrite Hk; [done | | by eexists]. intros Eps. destruct (Hne p Eps) as [H1 H2]. unfold item_block in Ep.
  destruct (it_alloc it); congruence.
Qed.

Lemma place_buffers_spec items : ∀ s cmd a k recs,
  on_platform s → Forall2 (is_item s) recs items → Forall (item_ok s) items →
  room s a (12 * (k + length items)) → apart_from a items →
  ∃ x, place_buffers kz s i cmd (alloc_start a) k recs = Some x ∧
    match x with
    | Refused s' _ _ => on_platform s' ∧ same_but_pool s s' ∧ (Exists unusable items ∨ short s (items_cost items))
    | Placed s' cmd' user =>
        on_platform s' ∧ same_but_pool s s' ∧ keeps_blocks (alloc_ptr a) s s' ∧ spends s s' (items_cost items) ∧
        (∀ p, Some p ∈ user → blocks s !! p = None) ∧ NoDup (omap id user) ∧
        ∃ addrs, placed_items (s_mem s) s' items addrs user ∧
          written s s' cmd cmd' a (cmd_buffer_data 0) (12 * k) (descriptors_of items addrs)
    end.
Proof.
  induction items as [| it items IH]; intros s cmd a k recs Hs Hr Hi Hroom Ha.
  { apply Forall2_nil_inv_r in Hr as ->. eexists. split; [done |]. cbn. split_and!; try done.
    - apply spends_refl.
    - by intros p ?%not_elem_of_nil.
    - apply NoDup_nil_2.
    - exists []. split; [done |]. change (descriptors_of [] []) with (@nil Z). destruct a as [[p start] |].
      + split; [done |]. intros bs Hb. by rewrite splice_nil.
      + cbn [written]. symmetry. apply store_bytes_nil. }
  apply Forall2_cons_inv_r in Hr as ([b fl] & recs' & (Efl & mf & Eo) & Hr & ->). cbn in Efl, Eo. subst fl.
  apply list.Forall_cons in Hi as [Hit Hi]. cbn [place_buffers]. rewrite Eo. cbn [mbind option_bind].
  destruct (Z.ltb_spec 0 (it_maps it)); [eexists; split; [done |]; split_and!; [done.. |]; left; by left; left |].
  destruct (place_buffer_spec s it Hs Hit) as (s1 & x & -> & Hs1 & Hsp1 & Hk1 & Hx). cbn [mbind option_bind].
  pose proof (items_cost_nonneg items) as Hic. change (items_cost (it :: items)) with (item_cost it + items_cost items).
  destruct x as [[u addr] |].
  2:{ eexists. split; [done |]. split_and!; [done.. |].
      destruct Hx as [Hx | Hx]; [left; by left | right; eapply short_le; [| exact Hx]; lia]. }
  destruct Hx as (Hp & Hu & Hsd1).
  set (dsc := descriptor (it_flags it) (it_size it) addr).
  destruct (fill_spec s1 cmd a (cmd_buffer_data 0) (12 * k) dsc Hs1) as (s2 & cmd2 & Ef & Hs2 & Hsp2 & Hk2 & Hw2 & Hroom2 & Hn2 & Ea2).
  { eapply room_keeps; [exact Hk1 |]. destruct a as [[p start] |]; [| done]. destruct Hroom as (bs & ? & ?). exists bs.
    split; [done |]. subst dsc. rewrite length_descriptor. cbn [length] in *. lia. }
  replace (12 * Z.of_nat k) with (Z.of_nat (12 * k)) by lia. rewrite Ef. cbn [mbind option_bind fst snd].
  assert (s_st s2 = s_st s) as Est by (destruct Hsp1 as [? _], Hsp2 as [? _]; congruence).
  assert (same_but_pool s s2) as Hsp by (by eapply same_but_pool_trans).
  assert (spends s s2 (item_cost it)) as Hsd2 by (intros Hf; rewrite Ea2; by apply Hsd1).
  assert (keeps_blocks (alloc_ptr a) s s2) as Hk.
  { eapply keeps_blocks_trans; [| exact Hk2]. intros q Hq. by apply Hk1. }
  destruct (IH s2 cmd2 a (S k) recs') as (r & -> & Hr'); [done | | | | |].
  { eapply Forall2_impl; [| exact Hr]. intros rec it'. by apply is_item_same. }
  { apply list.Forall_forall. intros it' Hin. apply (item_ok_keeps (alloc_ptr a) s s2); [done | |].
    - intros q Hq. apply (Ha it' q); [by right | done].
    - by apply (proj1 (list.Forall_forall _ _) Hi). }
  { apply Hroom2. eapply room_keeps; [exact Hk1 |]. by replace (12 * (S k + length items))%nat with (12 * (k + length (it :: items)))%nat by (cbn [length]; lia). }
  { intros it' q Hin. apply Ha. by right. }
  cbn [mbind option_bind]. eexists. split; [done |]. destruct r as [s3 cmd3 user | s3 user lk]; cbn [more].
  2:{ destruct Hr' as (? & ? & Hrf). split; [done |]. split; [by eapply same_but_pool_trans |].
      destruct Hrf as [Hrf | Hrf]; [left; by right | right; by eapply spends_short]. }
  destruct Hr' as (Hs3 & Hsp3 & Hk3 & Hsd3 & Hfresh & Hnd & addrs & (Hla & Hlu & Hpl) & Hw3).
  assert (∀ p, is_Some (blocks s !! p) → is_Some (blocks s2 !! p)) as Hmono.
  { intros p Hp'. apply Hn2. by rewrite Hk1. }
  split; [done |]. split; [by eapply same_but_pool_trans |]. split; [by eapply keeps_blocks_trans |].
  split; [by eapply spends_trans |]. split; [| split].
  - intros p [E | Hin]%elem_of_cons; [by apply Hu |]. specialize (Hfresh p Hin). apply eq_None_not_Some.
    intros Hp'%Hmono. rewrite Hfresh in Hp'. by destruct Hp'.
  - destruct u as [p |]; [| done]. cbn. apply list.NoDup_cons. split; [| done]. intros Hin.
    apply list_elem_of_omap in Hin as (u & Hin & Eu). cbn in Eu. subst u. specialize (Hfresh p Hin).
    destruct (Hu p eq_refl) as [_ Hp']. apply Hn2 in Hp'. rewrite Hfresh in Hp'. by destruct Hp'.
  - exists (addr :: addrs). split.
    + split_and!; [cbn; congruence | cbn; congruence |]. intros [| j] it' addr' u'; cbn.
      * intros [= <-] [= <-] [= <-]. apply (placed_item_keeps (alloc_ptr a) _ s1); [| done |].
        { by eapply keeps_blocks_trans. }
        intros p Hap. split; [by apply (Ha it p); [left |] |]. intros ->. destruct (Hu p eq_refl) as [Hn _].
        destruct a as [[p' start] |]; [| done]. injection Hap as ->. destruct Hroom as (bs & Hb & _). congruence.
      * intros Ei Ea Eu. eapply placed_item_mem; [| by apply (Hpl j)].
        pose proof (list_elem_of_lookup_2 _ _ _ Ei) as Hin.
        symmetry. apply (contents_kept (alloc_ptr a) s s2); try done; [| apply Hsp | by apply (proj1 (list.Forall_forall _ _) Hi)].
        intros p Ep. apply (Ha it' p); [by right | done].
    + apply (written_app s s2 s3 cmd cmd2 cmd3 a (cmd_buffer_data 0) (12 * k) dsc (descriptors_of items addrs)).
      * destruct a as [[p start] |]; [| done]. destruct Hroom as (bs & Hb & Hl). exists bs. split; [done |].
        etrans; [| exact Hl]. rewrite length_app. subst dsc. rewrite length_descriptor.
        rewrite length_descriptors by done. cbn [length]. lia.
      * by eapply written_keeps.
      * subst dsc. rewrite length_descriptor. by replace (12 * k + 12)%nat with (12 * S k)%nat by lia.
Qed.

(** ** The parts of a command *)

Definition fits (size : Z) : Prop := 0 ≤ size < 2 ^ 32 ∧ size_ok size.

Lemma place_spec s big size cmd field :
  on_platform s → fits size →
  ∃ s' x, place kz s i big size cmd field = Some (s', x) ∧ on_platform s' ∧ same_but_pool s s' ∧ keeps_blocks None s s' ∧
    match x with
    | None => big = true ∧ (size = 0 ∨ short s (cost_if big size))
    | Some (cmd', Some (p, start)) =>
        big = true ∧ blocks s !! p = None ∧ cmd' = store32 cmd field start ∧ 0 ≤ start < 2 ^ 32 ∧
        room s' (Some (p, start)) (Z.to_nat size)
    | Some (cmd', None) => big = false ∧ cmd' = cmd ∧ s' = s
    end ∧ (is_Some x → spends s s' (cost_if big size)).
Proof.
  intros Hs [Hz Hz']. unfold place. destruct big.
  - destruct (allocate_block P s size Hkz Hs Hz') as (s1 & x & -> & Hs1 & Hsp & _ & Hx). cbn [mbind option_bind].
    rewrite u32_small in Hx by done. destruct x as [[p start] |].
    + destruct Hx as (Hn & (bs & Eb & Hl) & Hsd).
      assert (blocks s1 !! p = Some (start, bs)) as Hb by (by rewrite Eb, lookup_insert_eq).
      pose proof (block_start_u32 s1 p start bs Hs1 Hb) as Hst.
      do 2 eexists. split; [done |]. split; [done |]. split; [done |]. split; [by eapply keeps_insert |]. split; [| by intros _].
      split; [done |]. split; [done |]. split; [by rewrite u32_small by done |]. split; [done |].
      exists bs. split; [done |]. lia.
    + destruct Hx as [Hx Hsh]. do 2 eexists. split; [done |].
      split; [done |]. split; [done |]. split; [intros p _ _; by rewrite Hx |]. split; [done | by intros [? ?]].
  - do 2 eexists. split; [done |]. split_and!; try done. intros _. apply spends_refl.
Qed.

(** Bytes of the command that belong to the input, the output and the
    buffers. *)
Definition in_field (x : Z) : Prop := 4 ≤ x < 8 ∨ 16 ≤ x < 32.
Definition out_field (x : Z) : Prop := 8 ≤ x < 12 ∨ 32 ≤ x < 48.
Definition buf_field (x : Z) : Prop := 12 ≤ x < 16 ∨ 48 ≤ x < 64.
Definition same_on (R : Z → Prop) (c c' : mem) : Prop := ∀ x, R x → c' x = c x.

Definition input_stored (s : sim) (cmd : mem) (in_data : list Z) (a : option (Z * Z)) : Prop :=
  let n := Z.of_nat (length in_data) in
  load32 cmd (cmd_in_data_size 0) = n ∧
  match a with
  | Some (p, start) =>
      XRP_DSP_CMD_INLINE_DATA_SIZE < n ∧ load32 cmd (cmd_in_data 0) = start ∧
      ∃ rest, blocks s !! p = Some (start, in_data ++ rest)
  | None => n ≤ XRP_DSP_CMD_INLINE_DATA_SIZE ∧ load_bytes cmd (cmd_in_data 0) (length in_data) = in_data
  end.

Definition output_stored (s : sim) (cmd : mem) (out_size : Z) (a : option (Z * Z)) : Prop :=
  load32 cmd (cmd_out_data_size 0) = out_size ∧
  match a with
  | Some (p, start) =>
      XRP_DSP_CMD_INLINE_DATA_SIZE < out_size ∧ load32 cmd (cmd_out_data 0) = start ∧
      ∃ bs, blocks s !! p = Some (start, bs) ∧ out_size ≤ Z.of_nat (length bs)
  | None => out_size ≤ XRP_DSP_CMD_INLINE_DATA_SIZE
  end.

Definition buffers_stored (s : sim) (cmd : mem) (items : list item) (addrs : list Z) (a : option (Z * Z)) : Prop :=
  let n := Z.of_nat (length items) in
  load32 cmd (cmd_buffer_size 0) = 12 * n ∧
  match a with
  | Some (p, start) =>
      XRP_DSP_CMD_INLINE_BUFFER_COUNT < n ∧ load32 cmd (cmd_buffer_data 0) = start ∧
      ∃ rest, blocks s !! p = Some (start, descriptors_of items addrs ++ rest)
  | None =>
      n ≤ XRP_DSP_CMD_INLINE_BUFFER_COUNT ∧
      load_bytes cmd (cmd_buffer_data 0) (12 * length items) = descriptors_of items addrs
  end.

(** A new allocation. *)
Definition fresh_in (s : sim) (a : option (Z * Z)) : Prop := ∀ p, alloc_ptr a = Some p → blocks s !! p = None.

Lemma load32_same c c' a : (∀ x, a ≤ x < a + 4 → c' x = c x) → load32 c' a = load32 c a.
Proof. intros E. unfold load32. f_equal. by apply load_bytes_ext. Qed.

Lemma keeps_fresh s s1 s2 a :
  keeps_blocks None s s1 → keeps_blocks (alloc_ptr a) s1 s2 → fresh_in s a → keeps_blocks None s s2.
Proof.
  intros H1 H2 Hf p _ Hp. rewrite H2; [by apply H1 | | by rewrite H1]. intros Ea. rewrite (Hf p Ea) in Hp.
  by destruct Hp.
Qed.

Lemma same_on_store R c a w : (∀ x, R x → x < a ∨ a + Z.of_nat (length w) ≤ x) → same_on R c (store_bytes c a w).
Proof. intros Hr x Hx. apply store_bytes_out. auto. Qed.

Lemma same_on_trans R c1 c2 c3 : same_on R c1 c2 → same_on R c2 c3 → same_on R c1 c3.
Proof. intros H1 H2 x Hx. by rewrite H2, H1. Qed.

Lemma input_stage s cmd in_data :
  let n := Z.of_nat (length in_data) in
  on_platform s → fits n →
  ∃ s1 x, place kz s i (XRP_DSP_CMD_INLINE_DATA_SIZE <? n) n cmd (cmd_in_data 0) = Some (s1, x) ∧
    match x with
    | None => on_platform s1 ∧ same_but_pool s s1 ∧ short s (cost_if (XRP_DSP_CMD_INLINE_DATA_SIZE <? n) n)
    | Some (cmd1, a) =>
        ∃ s2 cmd2, fill s1 (store32 cmd1 (cmd_in_data_size 0) (u32 n)) (alloc_start a) (cmd_in_data 0) 0 in_data = Some (s2, cmd2) ∧
          on_platform s2 ∧ same_but_pool s s2 ∧ keeps_blocks None s s2 ∧ fresh_in s a ∧
          spends s s2 (cost_if (XRP_DSP_CMD_INLINE_DATA_SIZE <? n) n) ∧
          input_stored s2 cmd2 in_data a ∧ same_on (λ x, ¬ in_field x) cmd cmd2
    end.
Proof.
  intros n Hs Hf. destruct (place_spec s (XRP_DSP_CMD_INLINE_DATA_SIZE <? n) n cmd (cmd_in_data 0) Hs Hf)
    as (s1 & x & -> & Hs1 & Hsp1 & Hk1 & Hx & Hsd1).
  do 2 eexists. split; [done |].
  destruct x as [[cmd1 a] |].
  2:{ destruct Hx as [Hbig [Hx | Hx]]; [unfold XRP_DSP_CMD_INLINE_DATA_SIZE in Hbig; lia |]. by rewrite Hbig in *. }
  assert (room s1 a (0 + length in_data)) as Hroom.
  { destruct a as [[p start] |]; [| done]. destruct Hx as (_ & _ & _ & _ & Hr). subst n. by rewrite Nat2Z.id in Hr. }
  destruct (fill_spec s1 (store32 cmd1 (cmd_in_data_size 0) (u32 n)) a (cmd_in_data 0) 0 in_data Hs1 Hroom)
    as (s2 & cmd2 & Ef & Hs2 & Hsp2 & Hk2 & Hw & _ & _ & Ea2).
  exists s2, cmd2. split; [exact Ef |]. destruct Hf as [Hn _]. rewrite u32_small in Hw by done.
  assert (fresh_in s a) as Hfr by (intros p Ea; destruct a as [[p' start] |]; [| done]; injection Ea as ->; apply Hx).
  split; [done |]. split; [by eapply same_but_pool_trans |]. split; [by eapply keeps_fresh |]. split; [done |].
  split; [intros Hfu; rewrite Ea2; by apply Hsd1 |].
  assert (same_on (λ x, ¬ in_field x) cmd cmd1) as Hc1.
  { destruct a as [[p start] |]; destruct Hx as (_ & Hx); [destruct Hx as (_ & -> & _) | by destruct Hx as [-> _]].
    apply same_on_store. intros x. rewrite length_le_bytes. unfold in_field, cmd_in_data. lia. }
  assert (same_on (λ x, ¬ in_field x) cmd (store32 cmd1 (cmd_in_data_size 0) n)) as Hc2.
  { eapply same_on_trans; [exact Hc1 |]. apply same_on_store. intros x. rewrite length_le_bytes.
    unfold in_field, cmd_in_data_size. lia. }
  destruct a as [[p start] |]; cbn [written] in Hw.
  - destruct Hx as (Hb & _ & -> & Hst & bs & Hbs & Hl). destruct Hw as [-> Hw]. split; [| done].
    split; [by rewrite load32_store32 |]. split; [lia |]. split.
    + rewrite load32_store32_ne by (unfold cmd_in_data, cmd_in_data_size; lia). by rewrite load32_store32.
    + rewrite (Hw bs Hbs). by eexists.
  - destruct Hx as (Hb & _ & _). rewrite Z.add_0_r in Hw.
    assert (length in_data ≤ 16)%nat by (unfold XRP_DSP_CMD_INLINE_DATA_SIZE in Hb; lia). split.
    + split.
      * rewrite Hw, (load32_same (store32 cmd1 (cmd_in_data_size 0) n)); [by rewrite load32_store32 |].
        intros x Hx. apply store_bytes_out. unfold cmd_in_data, cmd_in_data_size in *. lia.
      * split; [unfold XRP_DSP_CMD_INLINE_DATA_SIZE; lia |]. rewrite Hw. apply load_store_same.
    + intros x Hx. rewrite Hw. rewrite store_bytes_out by (unfold in_field, cmd_in_data in *; lia). by apply Hc2.
Qed.

Lemma output_stage s cmd out_size :
  on_platform s → fits out_size →
  ∃ s1 x, place kz s i (XRP_DSP_CMD_INLINE_DATA_SIZE <? out_size) out_size cmd (cmd_out_data 0) = Some (s1, x) ∧
    on_platform s1 ∧ same_but_pool s s1 ∧ keeps_blocks None s s1 ∧
    match x with
    | None => short s (cost_if (XRP_DSP_CMD_INLINE_DATA_SIZE <? out_size) out_size)
    | Some (cmd1, a) =>
        fresh_in s a ∧ spends s s1 (cost_if (XRP_DSP_CMD_INLINE_DATA_SIZE <? out_size) out_size) ∧
        let cmd2 := store32 cmd1 (cmd_out_data_size 0) (u32 out_size) in
        output_stored s1 cmd2 out_size a ∧ same_on (λ x, ¬ out_field x) cmd cmd2
    end.
Proof.
  intros Hs Hf. destruct (place_spec s (XRP_DSP_CMD_INLINE_DATA_SIZE <? out_size) out_size cmd (cmd_out_data 0) Hs Hf)
    as (s1 & x & -> & Hs1 & Hsp1 & Hk1 & Hx & Hsd1).
  do 2 eexists. split; [done |]. split; [done |]. split; [done |]. split; [done |].
  destruct x as [[cmd1 a] |].
  2:{ destruct Hx as [Hbig [Hx | Hx]]; [unfold XRP_DSP_CMD_INLINE_DATA_SIZE in Hbig; lia |]. by rewrite Hbig in *. }
  destruct Hf as [Hn _]. rewrite u32_small by done. split.
  { intros p Ea. destruct a as [[p' start] |]; [| done]; injection Ea as ->; apply Hx. }
  split; [by apply Hsd1 |].
  unfold output_stored. rewrite load32_store32 by done. destruct a as [[p start] |].
  - destruct Hx as (Hb & _ & -> & Hst & bs & Hbs & Hl). split.
    + split; [done |]. split; [lia |]. split; [| exists bs; split; [done | lia]].
      rewrite load32_store32_ne by (unfold cmd_out_data, cmd_out_data_size; lia). by rewrite load32_store32.
    + eapply same_on_trans; apply same_on_store; intros x; rewrite length_le_bytes;
        unfold out_field, cmd_out_data_size, cmd_out_data; lia.
  - destruct Hx as (Hb & -> & _). split; [split; [done | lia] |].
    apply same_on_store; intros x; rewrite length_le_bytes; unfold out_field, cmd_out_data_size; lia.
Qed.

Lemma buffers_stage s cmd recs items :
  let n := Z.of_nat (length recs) in
  let cost := cost_if (XRP_DSP_CMD_INLINE_BUFFER_COUNT <? n) (n * sizeof_dsp_buffer) in
  on_platform s → Forall2 (is_item s) recs items → Forall (item_ok s) items → fits (n * sizeof_dsp_buffer) →
  ∃ s1 x, place kz s i (XRP_DSP_CMD_INLINE_BUFFER_COUNT <? n) (n * sizeof_dsp_buffer) cmd (cmd_buffer_data 0) = Some (s1, x) ∧
    match x with
    | None => on_platform s1 ∧ same_but_pool s s1 ∧ short s cost
    | Some (cmd1, a) =>
        ∃ y, place_buffers kz s1 i (store32 cmd1 (cmd_buffer_size 0) (u32 (n * sizeof_dsp_buffer))) (alloc_start a) 0 recs = Some y ∧
          match y with
          | Refused s2 _ _ => on_platform s2 ∧ same_but_pool s s2 ∧ (Exists unusable items ∨ short s (cost + items_cost items))
          | Placed s2 cmd2 user =>
              on_platform s2 ∧ same_but_pool s s2 ∧ keeps_blocks None s s2 ∧
              (∀ p, p ∈ omap id (alloc_ptr a :: user) → blocks s !! p = None) ∧ NoDup (omap id (alloc_ptr a :: user)) ∧
              ∃ addrs, placed_items (s_mem s) s2 items addrs user ∧ buffers_stored s2 cmd2 items addrs a ∧
                same_on (λ x, ¬ buf_field x) cmd cmd2
          end
    end.
Proof.
  intros n cost Hs Hr Hi Hf. assert (length recs = length items) as El by (by eapply Forall2_length).
  destruct (place_spec s (XRP_DSP_CMD_INLINE_BUFFER_COUNT <? n) (n * sizeof_dsp_buffer) cmd (cmd_buffer_data 0) Hs Hf)
    as (s1 & x & -> & Hs1 & Hsp1 & Hk1 & Hx & Hsd1).
  do 2 eexists. split; [done |]. destruct x as [[cmd1 a] |].
  2:{ destruct Hx as [Hbig [Hx | Hx]]; [unfold XRP_DSP_CMD_INLINE_BUFFER_COUNT, sizeof_dsp_buffer in *; lia | done]. }
  specialize (Hsd1 ltac:(by eexists)). destruct Hf as [Hn _]. rewrite u32_small by done. unfold sizeof_dsp_buffer in *.
  assert (fresh_in s a) as Hfr by (intros p Ea; destruct a as [[p' start] |]; [| done]; injection Ea as ->; apply Hx).
  destruct (place_buffers_spec items s1 (store32 cmd1 (cmd_buffer_size 0) (n * 12)) a 0 recs) as (y & -> & Hy); [done | | | | |].
  { eapply Forall2_impl; [| exact Hr]. intros rec it. apply is_item_same, Hsp1. }
  { eapply Forall_impl; [| exact Hi]. intros it. by apply (item_ok_keeps None). }
  { destruct a as [[p start] |]; [| done]. destruct Hx as (_ & _ & _ & _ & bs & Hb & Hl). exists bs. split; [done |]. lia. }
  { intros it p Hin Ea Eit. pose proof (proj1 (list.Forall_forall _ _) Hi it Hin) as (_ & _ & Hd). rewrite Eit in Hd.
    destruct Hd as (? & ? & Hb & _). rewrite (Hfr p Ea) in Hb. done. }
  eexists. split; [done |]. destruct y as [s2 cmd2 user | s2 user lk].
  2:{ destruct Hy as (? & ? & Hrf). split; [done |]. split; [by eapply same_but_pool_trans |].
      destruct Hrf as [? | ?]; [by left | right; by eapply spends_short]. }
  destruct Hy as (Hs2 & Hsp2 & Hk2 & _ & Hfu & Hnd & addrs & (Hla & Hlu & Hpl) & Hw).
  assert (∀ p, Some p ∈ user → blocks s !! p = None) as Hfu'.
  { intros p Hin. apply eq_None_not_Some. intros Hp. specialize (Hfu p Hin). rewrite Hk1 in Hfu by done.
    rewrite Hfu in Hp. by destruct Hp. }
  split; [done |]. split; [by eapply same_but_pool_trans |]. split; [by eapply keeps_fresh |].
  assert (∀ p, p ∈ omap id user → Some p ∈ user) as Hom.
  { intros p (u & Hin & Eu)%list_elem_of_omap. cbn in Eu. by subst u. }
  split; [| split; [| exists addrs; split; [| split]]].
  - destruct (alloc_ptr a) as [p' |] eqn:Ea; [| intros p Hin; by apply Hfu', Hom].
    intros p. cbn. rewrite elem_of_cons. intros [-> | Hin]; [by apply Hfr | by apply Hfu', Hom].
  - destruct a as [[p start] |]; [| done]. cbn. apply list.NoDup_cons. split; [| done]. intros Hin%Hom%Hfu.
    destruct Hx as (_ & _ & _ & _ & bs & Hb & _). congruence.
  - split_and!; [done | done |]. intros k it addr u Ei Ea Eu. eapply placed_item_mem; [| by apply (Hpl k)].
    symmetry. apply (contents_kept None s s1); try done; [apply Hsp1 |].
    by apply (proj1 (list.Forall_forall _ _) Hi), (list_elem_of_lookup_2 _ _ _ Ei).
  - unfold buffers_stored. rewrite <- El. fold n. pose proof (length_descriptors items addrs Hla) as Eld.
    destruct a as [[p start] |]; cbn [written] in Hw.
    + destruct Hx as (Hb & _ & -> & Hst & bs & Hbs & Hl). destruct Hw as [-> Hw].
      rewrite load32_store32 by done. split; [lia |]. split; [lia |]. split.
      * rewrite load32_store32_ne by (unfold cmd_buffer_data, cmd_buffer_size; lia). by rewrite load32_store32.
      * rewrite (Hw bs Hbs). by eexists.
    + destruct Hx as (Hb & _ & _). unfold XRP_DSP_CMD_INLINE_BUFFER_COUNT in *. split; [| split].
      * rewrite Hw, (load32_same (store32 cmd1 (cmd_buffer_size 0) (n * 12))); [rewrite load32_store32 by done; lia |].
        intros x Hx. apply store_bytes_out. unfold cmd_buffer_data, cmd_buffer_size in *. lia.
      * lia.
      * rewrite Hw, El, <- Eld. rewrite Z.add_0_r. apply load_store_same.
  - assert (same_on (λ x, ¬ buf_field x) cmd (store32 cmd1 (cmd_buffer_size 0) (n * 12))) as Hc.
    { destruct a as [[p start] |]; [destruct Hx as (_ & _ & -> & _) | destruct Hx as (_ & -> & _)];
        [eapply same_on_trans |]; apply same_on_store; intros x; rewrite length_le_bytes;
        unfold buf_field, cmd_buffer_data, cmd_buffer_size; lia. }
    destruct a as [[p start] |]; cbn [written] in Hw; [by destruct Hw as [-> _] |].
    destruct Hx as (Hb & _ & _). unfold XRP_DSP_CMD_INLINE_BUFFER_COUNT in *.
    intros x Hx. rewrite Hw, store_bytes_out; [by apply Hc |]. rewrite length_descriptors by done.
    unfold buf_field, cmd_buffer_data in *. lia.
Qed.

(** ** The whole call *)

Lemma input_stored_keeps s s' c c' in_data a :
  keeps_blocks None s s' → same_on in_field c c' → input_stored s c in_data a → input_stored s' c' in_data a.
Proof.
  intros Hk Hc [Hn Ha]. unfold input_stored.
  assert (∀ b n, (∀ x, b ≤ x < b + Z.of_nat n → in_field x) → load_bytes c' b n = load_bytes c b n) as Hl
    by (intros; apply load_bytes_ext; auto).
  unfold load32 in *. rewrite Hl by (unfold in_field, cmd_in_data_size; lia). split; [done |].
  destruct a as [[p start] |].
  - destruct Ha as (? & ? & rest & Hb). rewrite Hl by (unfold in_field, cmd_in_data; lia).
    split_and!; [done | done |]. exists rest. by rewrite Hk.
  - destruct Ha as (? & E). split; [done |]. rewrite Hl; [done |].
    unfold in_field, cmd_in_data, XRP_DSP_CMD_INLINE_DATA_SIZE in *. lia.
Qed.

Lemma output_stored_keeps s s' c c' out_size a :
  keeps_blocks None s s' → same_on out_field c c' → output_stored s c out_size a → output_stored s' c' out_size a.
Proof.
  intros Hk Hc [Hn Ha]. unfold output_stored.
  rewrite (load32_same c c') by (intros; apply Hc; unfold out_field, cmd_out_data_size in *; lia). split; [done |].
  destruct a as [[p start] |]; [| done]. destruct Ha as (? & ? & bs & Hb & ?).
  rewrite (load32_same c c') by (intros; apply Hc; unfold out_field, cmd_out_data in *; lia).
  split_and!; [done | done |]. exists bs. by rewrite Hk.
Qed.

Lemma buffers_stored_keeps s s' c c' items addrs a :
  keeps_blocks None s s' → same_on buf_field c c' → buffers_stored s c items addrs a → buffers_stored s' c' items addrs a.
Proof.
  intros Hk Hc [Hn Ha]. unfold buffers_stored.
  rewrite (load32_same c c') by (intros; apply Hc; unfold buf_field, cmd_buffer_size in *; lia). split; [done |].
  destruct a as [[p start] |].
  - destruct Ha as (? & ? & rest & Hb).
    rewrite (load32_same c c') by (intros; apply Hc; unfold buf_field, cmd_buffer_data in *; lia).
    split_and!; [done | done |]. exists rest. by rewrite Hk.
  - destruct Ha as (? & E). split; [done |]. rewrite <- E. apply load_bytes_ext. intros x Hx. apply Hc.
    unfold buf_field, cmd_buffer_data, XRP_DSP_CMD_INLINE_BUFFER_COUNT in *. lia.
Qed.

(** A command in the request [mk_request cmd ..] that stands for the input
    [in_data], [out_size] bytes of output and the buffers [items]; [m] is the
    memory of the program when it was enqueued. *)
Record carries (s : sim) (m cmd : mem) (ns : option (list Z)) (in_data : list Z) (out_size : Z) (items : list item)
    (addrs : list Z) (a_in a_out a_buf : option (Z * Z)) (user : list (option Z)) : Prop := {
  ca_flags : load32 cmd (cmd_flags 0) = match ns with Some _ => XRP_DSP_CMD_FLAG_REQUEST_NSID | None => 0 end;
  ca_nsid : ∀ id, ns = Some id → load_bytes cmd (cmd_nsid 0) 16 = id;
  ca_in : input_stored s cmd in_data a_in;
  ca_out : output_stored s cmd out_size a_out;
  ca_buf : buffers_stored s cmd items addrs a_buf;
  ca_items : placed_items m s items addrs user;
  ca_nodup : NoDup (omap id ([alloc_ptr a_in; alloc_ptr a_out; alloc_ptr a_buf] ++ user));
  ca_apart : ∀ it p, it ∈ items → it_alloc it = Some p →
    p ∉ omap id ([alloc_ptr a_in; alloc_ptr a_out; alloc_ptr a_buf] ++ user) ∧ is_Some (blocks s !! p);
}.

(** Parts of the state the pool does not depend on. *)
Definition same_memory (s s' : sim) : Prop := s_gl s' = s_gl s ∧ s_mem s' = s_mem s.

Lemma same_memory_blocks s s' : same_memory s s' → blocks s' = blocks s.
Proof. intros [Eg Em]. unfold SimBlocks.blocks, pool_of. by rewrite Eg, Em. Qed.
Lemma same_memory_avail s s' : same_memory s s' → avail s' = avail s.
Proof. intros [Eg _]. apply avail_pool. unfold pool_of. by rewrite Eg. Qed.
Lemma same_memory_platform s s' : same_memory s s' → on_platform s → on_platform s'.
Proof. intros [Eg Em] [st Hs]. exists st. unfold pool_ok, tab in *. by rewrite Eg. Qed.

Lemma object_set_eq s p o o' : object s p = Some o → object (set_object s p o') p = Some o'.
Proof.
  intros (c & Hc & _)%object_cell. unfold object, heap in *. cbn. rewrite lookup_alter_eq, Hc. done.
Qed.
Lemma object_set_ne s p q o : q ≠ p → object (set_object s p o) q = object s q.
Proof. intros Hne. unfold object, heap. cbn. by rewrite lookup_alter_ne. Qed.

(** What error paths lost so far: references and memory. *)
Definition books (s : sim) : list ref * list (nat * Z) := (lost (s_st s), leaked s).
Lemma same_but_pool_books s s' : same_but_pool s s' → books s' = books s.
Proof. intros (E & L & _). unfold books. by rewrite E, L. Qed.

Lemma retain_some s p o : object s p = Some o → ∃ s', retain s p = Some s' ∧ same_memory s s' ∧ books s' = books s.
Proof.
  intros Eo. apply object_cell in Eo as (c & Hp & _). unfold retain, retain_refcounted. unfold heap in Hp. rewrite Hp.
  by eexists.
Qed.

Lemma new_event_some s d o :
  object s d = Some o →
  ∃ s' ev, new_event s d = Some (s', ev) ∧ same_memory s s' ∧ object s ev = None ∧
    object s' ev = Some (Event d XRP_STATUS_PENDING) ∧ (∀ p, p ≠ ev → object s' p = object s p) ∧ books s' = books s.
Proof.
  intros Eo. unfold new_event. destruct (retain_some s d o Eo) as (s1 & E1 & [Eg Em] & B1). rewrite E1. cbn [mbind option_bind].
  destruct (alloc_refcounted (s_st s1) _) as [st ev] eqn:Ea.
  assert (object (set_st s1 st) ev = Some (Event d XRP_STATUS_PENDING) ∧
          (∀ p, p ≠ ev → object (set_st s1 st) p = object s1 p) ∧ books (set_st s1 st) = books s1) as (Oe & Op & B2).
  { injection Ea as <- <-. unfold object, heap. cbn. rewrite lookup_insert_eq. split; [done |]. split; [| done].
    intros p Hp. by rewrite lookup_insert_ne. }
  assert (object s ev = None) as Hn.
  { rewrite <- (object_retain _ _ _ ev E1). injection Ea as _ <-. unfold object, heap.
    by rewrite (proj1 (not_elem_of_dom _ _) (is_fresh (dom (hp (s_st s1))))). }
  destruct (retain_some _ ev _ Oe) as (s2 & E2 & [Eg2 Em2] & B3). rewrite E2. cbn [mbind option_bind].
  exists s2, ev. split; [done |]. split; [split; [by rewrite Eg2 | by rewrite Em2] |]. split; [done |].
  split; [by rewrite (object_retain _ _ _ _ E2) |]. split; [| by rewrite B3, B2, B1].
  intros p Hp. rewrite (object_retain _ _ _ _ E2), Op by done. by rewrite (object_retain _ _ _ _ E1).
Qed.

(** What a call of [xrp_enqueue_command] leaves. *)
Definition enqueued (s s' : sim) (d : nat) (rqs : list request) (ns : option (list Z)) (in_data : list Z)
    (out_data out_size : Z) (group : option nat) (items : list item) (ev : nat) : Prop :=
  ∃ cmd addrs a_in a_out a_buf user,
    carries s' (s_mem s) cmd ns in_data out_size items addrs a_in a_out a_buf user ∧
    object s' d = Some (Device i (rqs ++
      [mk_request cmd (length items) (Z.of_nat (length in_data)) out_data (virt rp <$> alloc_start a_out) out_size
         group (Some ev) (alloc_ptr a_in) (alloc_ptr a_out) (alloc_ptr a_buf) user (virt rp <$> alloc_start a_buf)])) ∧
    object s ev = None ∧ object s' ev = Some (Event d XRP_STATUS_PENDING) ∧
    (∀ p, p ≠ d → p ≠ ev → object s' p = object s p) ∧ books s' = books s.

(** A call can only be refused when a buffer cannot be used, or when the
    memory the command needs is more than the pool has in one piece. *)
Definition outcome (s s' : sim) (needs : Prop) (P' : nat → Prop) (ev : option nat) (st : xrp_status) : Prop :=
  on_platform s' ∧ (∀ x, ¬ pool_virt P x → s_mem s' x = s_mem s x) ∧
  match ev with None => st = XRP_STATUS_FAILURE ∧ needs | Some ev => st = XRP_STATUS_SUCCESS ∧ P' ev end.

Definition demand (in_data : list Z) (out_size : Z) (items : list item) : Z :=
  let n := Z.of_nat (length in_data) in
  let k := Z.of_nat (length items) in
  cost_if (XRP_DSP_CMD_INLINE_DATA_SIZE <? n) n + cost_if (XRP_DSP_CMD_INLINE_DATA_SIZE <? out_size) out_size +
  cost_if (XRP_DSP_CMD_INLINE_BUFFER_COUNT <? k) (k * sizeof_dsp_buffer) + items_cost items.
Definition refusable (s : sim) (in_data : list Z) (out_size : Z) (items : list item) : Prop :=
  Exists unusable items ∨ short s (demand in_data out_size items).

Lemma demand_parts in_data out_size items :
  let n := Z.of_nat (length in_data) in
  let k := Z.of_nat (length items) in
  let c1 := cost_if (XRP_DSP_CMD_INLINE_DATA_SIZE <? n) n in
  let c2 := cost_if (XRP_DSP_CMD_INLINE_DATA_SIZE <? out_size) out_size in
  let c3 := cost_if (XRP_DSP_CMD_INLINE_BUFFER_COUNT <? k) (k * sizeof_dsp_buffer) in
  0 ≤ c1 ∧ 0 ≤ c2 ∧ 0 ≤ c3 ∧ 0 ≤ items_cost items ∧ demand in_data out_size items = c1 + c2 + c3 + items_cost items.
Proof. cbn zeta. split_and!; try apply cost_if_nonneg; [apply items_cost_nonneg | done]. Qed.

Lemma refused_outcome s s' g us (needs : Prop) P' :
  on_platform s' → (∀ x, ¬ pool_virt P x → s_mem s' x = s_mem s x) → needs →
  ∃ s2 ev st, Some (enqueue_failed s' i g us) = Some (s2, ev, st) ∧ outcome s s2 needs (P' s2) ev st.
Proof.
  intros Hs Hm Hn. unfold enqueue_failed. do 3 eexists. split; [done |].
  split; [by apply (same_memory_platform s') |]. split; [by intros x Hx; apply Hm | done].
Qed.

Lemma p2v_alloc s a n :
  on_platform s → room s a n →
  match alloc_start a with Some start => v ← p2v (tab s) start; Some (Some v) | None => Some None end =
  Some (virt rp <$> alloc_start a).
Proof.
  intros Hs. destruct a as [[p start] |]; [| done]. intros (bs & Hb & _). cbn.
  destruct (block_bytes P s p start bs Hs Hb) as (_ & ? & ? & ?). destruct Hs as [st (-> & _)].
  rewrite (p2v_pool P Hok); [done |]. unfold in_pool. lia.
Qed.

Lemma finish_command cmd ns :
  (∀ id, ns = Some id → length id = 16%nat) →
  let cmd1 := store32 cmd (cmd_flags 0) (match ns with Some _ => XRP_DSP_CMD_FLAG_REQUEST_NSID | None => 0 end) in
  let cmd2 := match ns with Some id => store_bytes cmd1 (cmd_nsid 0) id | None => cmd1 end in
  load32 cmd2 (cmd_flags 0) = match ns with Some _ => XRP_DSP_CMD_FLAG_REQUEST_NSID | None => 0 end ∧
  (∀ id, ns = Some id → load_bytes cmd2 (cmd_nsid 0) 16 = id) ∧ same_on (λ x, 4 ≤ x < 64) cmd cmd2.
Proof.
  intros Hl. destruct ns as [id |]; cbn zeta.
  - specialize (Hl id eq_refl). split_and!.
    + rewrite (load32_same (store32 cmd (cmd_flags 0) XRP_DSP_CMD_FLAG_REQUEST_NSID)); [by rewrite load32_store32 |].
      intros x Hx. apply store_bytes_out. unfold cmd_flags, cmd_nsid in *. lia.
    + intros id' [= <-]. rewrite <- Hl. apply load_store_same.
    + eapply same_on_trans; apply same_on_store; intros x; rewrite ?length_le_bytes; unfold cmd_flags, cmd_nsid; lia.
  - split_and!; [by rewrite load32_store32 | done |].
    apply same_on_store; intros x; rewrite ?length_le_bytes; unfold cmd_flags; lia.
Qed.

Lemma nodup_option (u : option Z) us :
  (∀ p, u = Some p → p ∉ omap id us) → NoDup (omap id us) → NoDup (omap id (u :: us)).
Proof. intros Hu Hn. destruct u as [p |]; [| done]. cbn. apply list.NoDup_cons. auto. Qed.

Lemma elem_option (p : Z) (u : option Z) us : p ∈ omap id (u :: us) → u = Some p ∨ p ∈ omap id us.
Proof. destruct u as [q |]; cbn; [| by right]. rewrite elem_of_cons. intros [-> | ?]; [by left | by right]. Qed.

(** Allocations made one after the other are different, and different from
    all that were there before. *)
Lemma allocations_distinct s1 s3 s4 a_in a_out us :
  keeps_blocks None s1 s3 → keeps_blocks None s3 s4 → fresh_in s1 a_in → fresh_in s3 a_out →
  (∀ p, p ∈ omap id us → blocks s4 !! p = None) → NoDup (omap id us) →
  (∀ p, alloc_ptr a_in = Some p → is_Some (blocks s3 !! p)) →
  (∀ p, alloc_ptr a_out = Some p → is_Some (blocks s4 !! p)) →
  NoDup (omap id (alloc_ptr a_in :: alloc_ptr a_out :: us)) ∧
  ∀ p, is_Some (blocks s1 !! p) → p ∉ omap id (alloc_ptr a_in :: alloc_ptr a_out :: us).
Proof.
  intros H13 H34 Fi Fo Fu Hn Si So.
  assert (∀ p, is_Some (blocks s3 !! p) → p ∉ omap id (alloc_ptr a_out :: us)) as Hout.
  { intros p Hp [E | Hin]%elem_option; [rewrite (Fo p E) in Hp; by destruct Hp |].
    specialize (Fu p Hin). rewrite H34 in Fu by done. rewrite Fu in Hp. by destruct Hp. }
  split.
  - apply nodup_option; [intros p Ep; by apply Hout, Si |]. apply nodup_option; [| done].
    intros p Ep Hin. specialize (So p Ep). rewrite (Fu p Hin) in So. by destruct So.
  - intros p Hp [E | Hin]%elem_option; [rewrite (Fi p E) in Hp; by destruct Hp |].
    apply (Hout p); [by rewrite H13 | done].
Qed.

Lemma enqueue_spec s q d ns rqs in_data out_data out_size group recs items junk :
  on_platform s → object s q = Some (Queue d ns) → object s d = Some (Device i rqs) →
  (∀ g, group = Some g → is_Some (object s g)) → group_buffers s group = Some recs →
  Forall2 (is_item s) recs items → Forall (item_ok s) items →
  fits (Z.of_nat (length in_data)) → fits out_size → fits (Z.of_nat (length recs) * sizeof_dsp_buffer) →
  (∀ id, ns = Some id → length id = 16%nat) →
  ∃ s' ev st, xrp_enqueue_command kz true true junk s q in_data out_data out_size group true = Some (s', ev, st) ∧
    outcome s s' (refusable s in_data out_size items) (enqueued s s' d rqs ns in_data out_data out_size group items) ev st.
Proof.
  intros Hs Eq Ed Hg Hrecs Hitems Hi Hfi Hfo Hfb Hns. unfold xrp_enqueue_command, description_of.
  rewrite Eq. cbn [mbind option_bind]. rewrite Ed. cbn [mbind option_bind negb].
  assert (∃ s1, match group with Some g => retain s g | None => Some s end = Some s1 ∧ same_memory s s1 ∧
            (∀ p, object s1 p = object s p) ∧ books s1 = books s) as (s1 & -> & Hm1 & O1 & Bk1).
  { destruct group as [g |]; [| by exists s]. destruct (Hg g eq_refl) as [o Eo].
    destruct (retain_some s g o Eo) as (s1 & E1 & Hm & ?). exists s1. split_and!; [done | done | | done].
    intros p. by eapply object_retain. }
  cbn [mbind option_bind]. pose proof (same_memory_platform s s1 Hm1 Hs) as Hs1.
  pose proof (same_memory_blocks s s1 Hm1) as B1.
  assert (∀ s', same_but_pool s1 s' → ∀ x, ¬ pool_virt P x → s_mem s' x = s_mem s x) as Hframe.
  { intros s' (_ & _ & Hm) x Hx. rewrite Hm by done. by rewrite (proj2 Hm1). }
  (* what can make the call fail *)
  pose proof (Forall2_length Hitems) as Elen.
  assert (∀ n, short s1 n → n ≤ demand in_data out_size items → refusable s in_data out_size items) as Hshort.
  { intros n Hsh Hn. right. intros Hf. specialize (Hsh Hf). by rewrite (same_memory_avail s s1 Hm1) in Hsh; lia. }
  destruct (demand_parts in_data out_size items) as (D1 & D2 & D3 & D4 & ED). rewrite <- Elen in D3, ED.
  (* input *)
  destruct (input_stage s1 junk in_data Hs1 Hfi) as (s2 & x & -> & Hx). cbn [mbind option_bind].
  destruct x as [[cmd2 a_in] |]; [| apply refused_outcome; [apply Hx | apply Hframe, Hx | eapply Hshort; [apply Hx | lia]]].
  destruct Hx as (s3 & cmd3 & -> & Hs3 & Hsp3 & Hk3 & Hf3 & Hsd3 & Hin & Hc3). cbn [mbind option_bind fst snd].
  (* output *)
  destruct (output_stage s3 cmd3 out_size Hs3 Hfo) as (s4 & x & -> & Hs4 & Hsp4 & Hk4 & Hx). cbn [mbind option_bind].
  assert (same_but_pool s1 s4) as Hsp14 by (by eapply same_but_pool_trans).
  assert (keeps_blocks None s1 s4) as Hk14 by (by eapply keeps_blocks_trans).
  destruct x as [[cmd4 a_out] |]; [| apply refused_outcome; [done | by apply Hframe | eapply Hshort; [by eapply spends_short | lia]]].
  destruct Hx as (Hf4 & Hsd4 & Hout & Hc4). cbn zeta in Hout, Hc4. pose proof (spends_trans P _ _ _ _ _ Hsd3 Hsd4) as Hsd14. set (cmd4' := store32 cmd4 _ _) in *.
  assert (∀ p, object s4 p = object s p) as O4.
  { intros p. rewrite <- O1. apply object_st. apply Hsp14. }
  rewrite (group_buffers_st s s4) by done. rewrite Hrecs. cbn [mbind option_bind].
  (* buffers *)
  assert (keeps_blocks None s s4) as Hk04.
  { intros p _ Hp. rewrite <- B1. apply Hk14; [done | by rewrite B1]. }
  destruct (buffers_stage s4 cmd4' recs items Hs4) as (s5 & x & -> & Hx); [| | done |].
  { eapply Forall2_impl; [| exact Hitems]. intros rec it (? & mf & Eo). split; [done |]. exists mf. by rewrite O4. }
  { eapply Forall_impl; [| exact Hi]. intros it. by apply (item_ok_keeps None). }
  cbn [mbind option_bind].
  destruct x as [[cmd5 a_buf] |].
  2:{ destruct Hx as (? & ? & ?). apply refused_outcome; [done | apply Hframe; by eapply same_but_pool_trans |].
      eapply Hshort; [by eapply spends_short | lia]. }
  destruct Hx as (y & -> & Hy). cbn [mbind option_bind]. destruct y as [s6 cmd6 user | s6 user lk].
  2:{ destruct Hy as (Hs6 & Hsp6 & Hne).
      assert (∃ s7, set_locked s6 group lk = Some s7 ∧ same_memory s6 s7) as (s7 & -> & Hm7).
      { unfold set_locked, group_buffers in *. destruct group as [g |]; [| by exists s6].
        rewrite (object_st s4 s6) by apply Hsp6. rewrite O4. destruct (object s g) as [[] |]; try done. cbn. by eexists. }
      cbn [mbind option_bind]. apply refused_outcome; [by eapply same_memory_platform | |].
      2:{ destruct Hne as [? | ?]; [by left | eapply Hshort; [by eapply spends_short | lia]]. }
      intros x Hx. rewrite (proj2 Hm7). apply Hframe; [| done]. by eapply same_but_pool_trans. }
  destruct Hy as (Hs6 & Hsp6 & Hk6 & Hf6 & Hnd6 & addrs & Hpl & Hbuf & Hc6). cbn [andb negb].
  assert (same_but_pool s1 s6) as Hsp16 by (by eapply same_but_pool_trans).
  (* event *)
  assert (object s6 d = Some (Device i rqs)) as Od6 by (rewrite (object_st s4 s6) by apply Hsp6; by rewrite O4).
  destruct (new_event_some s6 d _ Od6) as (s7 & ev & -> & Hm7 & Onew & Oev & O7 & Bk7). cbn [mbind option_bind fst snd].
  pose proof (same_memory_platform s6 s7 Hm7 Hs6) as Hs7. pose proof (same_memory_blocks s6 s7 Hm7) as B7.
  assert (keeps_blocks None s4 s7) as Hk47 by (intros p Hp1 Hp2; rewrite B7; by apply Hk6).
  destruct (finish_command cmd6 ns Hns) as (Hfl & Hid & Hc7). cbn zeta in Hfl, Hid, Hc7.
  set (cmd7 := match ns with Some id => store_bytes _ _ id | None => _ end) in *.
  (* the parts of the command *)
  assert (input_stored s7 cmd7 in_data a_in) as Hin7.
  { eapply input_stored_keeps; [| | exact Hin]; [by eapply keeps_blocks_trans |].
    intros x Hx. rewrite Hc7, Hc6, Hc4; [done | ..]; unfold in_field, out_field, buf_field in *; lia. }
  assert (output_stored s7 cmd7 out_size a_out) as Hout7.
  { eapply output_stored_keeps; [exact Hk47 | | exact Hout].
    intros x Hx. rewrite Hc7, Hc6; [done | ..]; unfold in_field, out_field, buf_field in *; lia. }
  assert (buffers_stored s7 cmd7 items addrs a_buf) as Hbuf7.
  { eapply buffers_stored_keeps; [| | exact Hbuf]; [intros p _ _; by rewrite B7 |].
    intros x Hx. rewrite Hc7; [done |]. unfold buf_field in *. lia. }
  rewrite (p2v_alloc s7 a_out 0 Hs7).
  2:{ destruct Hout7 as [_ Ha]. destruct a_out as [[p start] |]; [| done]. destruct Ha as (_ & _ & bs & Hb & _).
      exists bs. split; [done | lia]. }
  cbn [mbind option_bind]. rewrite (p2v_alloc s7 a_buf 0 Hs7).
  2:{ destruct Hbuf7 as [_ Ha]. destruct a_buf as [[p start] |]; [| done]. destruct Ha as (_ & _ & rest & Hb).
      eexists. split; [done | lia]. }
  assert (d ≠ ev) as Hdev by (intros ->; congruence).
  assert (object s7 d = Some (Device i rqs)) as Od7 by (by rewrite O7).
  cbn [mbind option_bind]. rewrite Od7. cbn [mbind option_bind].
  do 3 eexists. split; [done |]. split; [by apply (same_memory_platform s7) |].
  split; [intros x Hx; cbn; rewrite (proj2 Hm7); by apply Hframe |]. split; [done |].
  set (s8 := set_object _ _ _). assert (blocks s8 = blocks s7) as B8 by (by apply same_memory_blocks).
  assert (keeps_blocks None s7 s8) as Hk8 by (intros p _ _; by rewrite B8).
  destruct (allocations_distinct s1 s3 s4 a_in a_out (alloc_ptr a_buf :: user)) as [Hnd Hold]; try done.
  { intros p Ep. destruct a_in as [[p' start] |]; [| done]. injection Ep as ->. destruct Hin as (_ & _ & _ & rest & Hb).
    by eexists. }
  { intros p Ep. destruct a_out as [[p' start] |]; [| done]. injection Ep as ->. destruct Hout as (_ & _ & _ & bs & Hb & _).
    by eexists. }
  exists cmd7, addrs, a_in, a_out, a_buf, user. split; [split |].
  - done.
  - done.
  - by eapply input_stored_keeps.
  - by eapply output_stored_keeps.
  - by eapply buffers_stored_keeps.
  - destruct Hpl as (? & ? & Hpl). split_and!; [done | done |]. intros k it addr u Ei Ea Eu.
    apply (placed_item_keeps None _ s6); [intros p _ _; by rewrite B8, B7 | | done].
    eapply placed_item_mem; [| by apply (Hpl k)]. symmetry. apply (contents_kept None s s4); try done; [by apply Hframe |].
    by apply (proj1 (list.Forall_forall _ _) Hi), (list_elem_of_lookup_2 _ _ _ Ei).
  - done.
  - intros it p Hit Eal. pose proof (proj1 (list.Forall_forall _ _) Hi it Hit) as (_ & _ & Hpr). rewrite Eal in Hpr.
    destruct Hpr as (start & bs & Hb & _). split; [apply Hold; rewrite B1; by eexists |].
    rewrite B8, Hk47; [rewrite Hk04; [by eexists | done | by eexists] | done |]. rewrite Hk04; [by eexists | done | by eexists].
  - rewrite <- (Forall2_length Hitems). split_and!.
    + by eapply object_set_eq.
    + rewrite (object_st s4 s6) in Onew by apply Hsp6. by rewrite <- O4.
    + unfold s8. by rewrite object_set_ne.
    + intros p Hne Hne'. unfold s8. rewrite object_set_ne, O7 by done.
      rewrite (object_st s4 s6) by apply Hsp6. by rewrite O4.
    + change (books s8) with (books s7). by rewrite Bk7, (same_but_pool_books s1 s6 Hsp16), Bk1.
Qed.
End enqueue.
