(* ===== verification/SimRun.v ===== *)
(** * A command on the simulator

    [xrp_run_command_sync] (xrp-linux-sim/xrp_linux_sim.c) composed with the
    DSP's [xrp_device_dispatch] (xrp-dsp/xrp_dsp.c), each in its own address
    space: the program enqueues a command, the worker hands it to the DSP
    through the shared memory, a handler runs on what it finds there, and the
    worker brings its results back to the program's memory. *)

From stdpp Require Import base tactics list gmap fin_maps numbers.
From S2P Require Import Prelude Alloc PrivateAlloc Mem Interface HwSimple DspNs DspBuffer DspCmd RefHeap.
From S2P Require Import SimMem SimLib SimRefs SimClient SimBlocks SimEnqueue.

Section run.
Context `{A : Arch} (P : platform) (Hok : platform_ok P) (kz : callocs) (Hkz : kz_ok kz).
Abbreviation rgns := (pf_regions P).
Abbreviation rc := (pf_comm P).
Abbreviation rp := (pf_pool P).
Abbreviation i := (pf_dev P).
Abbreviation d := (pf_desc P).
Abbreviation c := (comm_base (pf_desc P)).
Abbreviation blocks := (SimBlocks.blocks P).
Abbreviation on_platform := (SimBlocks.on_platform (kz := kz) P).
Abbreviation dtab := (Some <$> pf_regions P).

(** ** Addresses of the program and of the DSP *)

Lemma virt_inj r r' a a' :
  r ∈ rgns → r' ∈ rgns → in_phys r a → in_phys r' a' → virt r a = virt r' a' → a = a'.
Proof.
  intros Hr Hr' Ha Ha' E. pose proof (po_regions P Hok) as Hl.
  assert (v2p dtab (virt r a) = Some a) as E1.
  { rewrite (v2p_region rgns r) by (done || unfold in_virt, in_phys, virt in *; lia). unfold virt. f_equal. lia. }
  assert (v2p dtab (virt r' a') = Some a') as E2.
  { rewrite (v2p_region rgns r') by (done || unfold in_virt, in_phys, virt in *; lia). unfold virt. f_equal. lia. }
  congruence.
Qed.

(** Ranges that are apart for the DSP are apart for the program. *)
Lemma virt_apart r r' a a' (n n' : nat) x :
  r ∈ rgns → r' ∈ rgns → inside r a n → inside r' a' n' → a + Z.of_nat n ≤ a' ∨ a' + Z.of_nat n' ≤ a →
  virt r a ≤ x < virt r a + Z.of_nat n → x < virt r' a' ∨ virt r' a' + Z.of_nat n' ≤ x.
Proof.
  intros Hr Hr' Hi Hi' Hd Hx. destruct (Z_lt_ge_dec x (virt r' a')); [by left |].
  destruct (Z_le_gt_dec (virt r' a' + Z.of_nat n') x); [by right |]. exfalso. unfold inside in *.
  assert (a + (x - virt r a) = a' + (x - virt r' a')) as E; [| lia].
  apply (virt_inj r r'); [done | done | unfold in_phys; lia | unfold in_phys; lia |]. rewrite !virt_add. lia.
Qed.

(** ** Handing the command over *)

(** The memory when the command is published and the DSP interrupted. *)
Definition publish (m cmd : mem) : option mem :=
  let p := comm_ptr d in
  let m := store_bytes m p (load_bytes cmd 0 80) in
  m ← SimMem.xrp_comm_write32 dtab m (cmd_flags p) (Z.lor (load32 cmd (cmd_flags 0)) XRP_DSP_CMD_FLAG_REQUEST_VALID);
  SimMem.xrp_send_device_irq dtab d m.

(** What the two sides then find: the command, and otherwise what was there. *)
Record published (m cmd m' : mem) : Prop := {
  pb_flags : load32 m' (comm_ptr d) = u32 (Z.lor (load32 cmd (cmd_flags 0)) XRP_DSP_CMD_FLAG_REQUEST_VALID);
  pb_fields : ∀ a n, 4 ≤ a → a + Z.of_nat n ≤ 80 → load_bytes m' (comm_ptr d + a) n = load_bytes cmd a n;
  pb_pool : ∀ x, pool_virt P x → m' x = m x;
  pb_private : ∀ x, (∀ r, r ∈ rgns → ¬ in_virt r x) → m' x = m x;
}.

Lemma irq_effect m :
  ∃ m', SimMem.xrp_send_device_irq dtab d m = Some m' ∧
    (∀ x, comm_ptr d ≤ x < comm_ptr d + 80 → m' x = m x) ∧ (∀ x, pool_virt P x → m' x = m x) ∧
    (∀ x, (∀ r, r ∈ rgns → ¬ in_virt r x) → m' x = m x).
Proof.
  unfold SimMem.xrp_send_device_irq.
  assert (∃ v, p2v dtab (u32 (io_base d + dd_irq_host_offset d)) = Some v) as [v Ev].
  { unfold p2v. generalize (u32 (io_base d + dd_irq_host_offset d)). intros a.
    induction rgns as [| r l IH]; [by eexists |]. cbn [fmap list_fmap find_shmem_by_phys]. case_match; [by eexists | done]. }
  rewrite Ev. cbn [mbind option_bind].
  destruct (decide (dd_irq_mode d = XRP_IRQ_LEVEL ∨ dd_irq_mode d = XRP_IRQ_EDGE)) as [Hm | Hm].
  2:{ rewrite (proj2 (Z.eqb_neq _ _)), (proj2 (Z.eqb_neq _ _)) by tauto. by eexists. }
  destruct (po_irq P Hok Hm) as (r & a & Hr & Hi & Ea & Hb & Hac & Hap).
  destruct Hok as [Hl (Hrc & Hic & Ecp) (Hrp & Hp1 & Hp2) _ _].
  assert (v = virt r a) as ->.
  { rewrite Ea, (p2v_region rgns r) in Ev by (done || unfold in_phys, inside in *; lia). by injection Ev. }
  assert (accessible dtab (virt r a) 4 = true) as Hacc by (apply (accessible_in rgns); [done | done | unfold inside in *; lia..]).
  assert (∀ m w x, x < virt r a ∨ virt r a + 4 ≤ x → store32 m (virt r a) w x = m x) as Hout
    by (intros; by apply store32_out).
  assert (∀ x, comm_ptr d ≤ x < comm_ptr d + 80 → x < virt r a ∨ virt r a + 4 ≤ x) as H1.
  { rewrite Ecp. intros x Hx. apply (virt_apart rc r (comm_base d) a 80 4); try done; lia. }
  assert (∀ x, pool_virt P x → x < virt r a ∨ virt r a + 4 ≤ x) as H2.
  { intros x Hx. unfold pool_virt in Hx.
    apply (virt_apart rp r (shared_base d) a (Z.to_nat (shared_size d)) 4); try done; unfold inside; lia. }
  assert (∀ x, (∀ r, r ∈ rgns → ¬ in_virt r x) → x < virt r a ∨ virt r a + 4 ≤ x) as H3.
  { intros x Hx. specialize (Hx r Hr). unfold in_virt, inside, virt in *. lia. }
  unfold SimMem.xrp_comm_write32. rewrite Hacc.
  rewrite (proj2 (Z.leb_le _ _)), (proj2 (Z.ltb_lt _ _)) by lia. cbn [andb].
  destruct (Z.eqb_spec (dd_irq_mode d) XRP_IRQ_EDGE); cbn [mbind option_bind].
  - eexists. split; [done |]. split_and!; intros x Hx; rewrite !Hout; auto.
  - rewrite (proj2 (Z.eqb_eq _ _)) by tauto.
    eexists. split; [done |]. split_and!; intros x Hx; rewrite !Hout; auto.
Qed.

(** The command area, for the program. *)
Lemma comm_accessible a n : 0 ≤ a → a + n ≤ 80 → accessible dtab (comm_ptr d + a) n = true.
Proof.
  intros Ha Hn. destruct Hok as [Hl (Hrc & Hic & Ecp) _ _ _]. rewrite Ecp, <- virt_add. unfold inside in Hic.
  apply (accessible_in rgns); [done | done | lia | lia].
Qed.

Lemma comm_not_pool x : comm_ptr d ≤ x < comm_ptr d + 80 → ¬ pool_virt P x.
Proof.
  intros Hx Hp. destruct Hok as [Hl (Hrc & Hic & Ecp) (Hrp & Hp1 & Hp2) Hap _]. rewrite Ecp in Hx. unfold pool_virt in Hp.
  destruct (virt_apart rc rp (comm_base d) (shared_base d) 80 (Z.to_nat (shared_size d)) x);
    try done; unfold inside in *; lia.
Qed.

Lemma comm_in_region x : comm_ptr d ≤ x < comm_ptr d + 80 → in_virt rc x.
Proof.
  intros Hx. destruct Hok as [Hl (Hrc & Hic & Ecp) _ _ _]. rewrite Ecp in Hx. unfold in_virt, inside, virt in *. lia.
Qed.

Lemma publish_effect m cmd : ∃ m', publish m cmd = Some m' ∧ published m cmd m'.
Proof.
  unfold publish, SimMem.xrp_comm_write32, cmd_flags.
  assert (accessible dtab (comm_ptr d) 4 = true) as -> by (rewrite <- (Z.add_0_r (comm_ptr d)); by apply comm_accessible).
  cbn [mbind option_bind].
  set (v := u32 _). set (m1 := store_bytes m _ _). destruct (irq_effect (store32 m1 (comm_ptr d) v)) as (m' & Em & H1 & H2 & H3).
  rewrite Em. exists m'. split; [done |]. pose proof (length_load_bytes cmd 0 80) as El. split.
  - rewrite (load32_same (store32 m1 (comm_ptr d) v)) by (intros; apply H1; lia). apply load32_store32, u32_range.
  - intros a n Ha Hn. transitivity (load_bytes m1 (comm_ptr d + a) n).
    + apply load_bytes_ext. intros x Hx. rewrite H1 by lia. apply store32_out. lia.
    + apply map_ext_in. intros j Hj%in_seq. unfold m1. rewrite store_bytes_in by lia.
      replace (Z.to_nat _) with (Z.to_nat a + j)%nat by lia.
      rewrite (nth_lookup_Some _ _ 0 (cmd (0 + Z.of_nat (Z.to_nat a + j)))) by (apply load_bytes_lookup; lia).
      f_equal. lia.
  - intros x Hx. rewrite H2 by done.
    assert (¬ (comm_ptr d ≤ x < comm_ptr d + 80)) by (intros Hc; by eapply comm_not_pool).
    rewrite store32_out by lia. apply store_bytes_out. lia.
  - intros x Hx. rewrite H3 by done.
    assert (¬ (comm_ptr d ≤ x < comm_ptr d + 80)).
    { intros Hc%comm_in_region. apply (Hx rc); [apply Hok | done]. }
    rewrite store32_out by lia. apply store_bytes_out. lia.
Qed.

(** ** The DSP's side *)

(** [dm]: the DSP's own memory. *)
Context (dm : mem).
Abbreviation view := (dsp_view dtab dm).
Abbreviation back := (host_view dtab).

Lemma view_comm m a n :
  0 ≤ a → a + Z.of_nat n ≤ 80 → load_bytes (view m) (c + a) n = load_bytes m (comm_ptr d + a) n.
Proof.
  intros Ha Hn. destruct Hok as [Hl (Hrc & Hic & Ecp) _ _ _]. unfold inside in Hic.
  rewrite (load_dsp_view rgns rc) by (done || unfold inside; lia). by rewrite virt_add, Ecp.
Qed.

Lemma view_pool m a n : in_pool P a (Z.of_nat n) → load_bytes (view m) a n = load_bytes m (virt rp a) n.
Proof.
  intros [? ?]. destruct Hok as [Hl _ (Hrp & ? & ?) _ _]. apply load_dsp_view; [done | done |]. unfold inside. lia.
Qed.

Lemma back_comm m w a n :
  0 ≤ a → a + Z.of_nat n ≤ 80 → load_bytes (back m w) (comm_ptr d + a) n = load_bytes w (c + a) n.
Proof.
  intros Ha Hn. destruct Hok as [Hl (Hrc & Hic & Ecp) _ _ _]. unfold inside in Hic.
  rewrite Ecp, <- virt_add. apply load_host_view; [done | done |]. unfold inside. lia.
Qed.

Lemma back_pool m w a n : in_pool P a (Z.of_nat n) → load_bytes (back m w) (virt rp a) n = load_bytes w a n.
Proof.
  intros [? ?]. destruct Hok as [Hl _ (Hrp & ? & ?) _ _]. apply load_host_view; [done | done |]. unfold inside. lia.
Qed.

Lemma back_private m w a n :
  private P a (Z.of_nat n) → load_bytes (back m w) a n = load_bytes m a n.
Proof. intros (? & ? & Hr). apply load_host_view_out; [apply Hok | done | done | done]. Qed.

(** Where data is: in memory of its own, or in the command. *)
Definition area (a : option (Z * Z)) (inline : Z) : Z := default inline (alloc_start a).
Lemma area_some p start inline : area (Some (p, start)) inline = start.
Proof. done. Qed.
Lemma area_none inline : area None inline = inline.
Proof. done. Qed.

Lemma block_view s cmd m' p start w rest :
  on_platform s → published (s_mem s) cmd m' → blocks s !! p = Some (start, w ++ rest) →
  load_bytes (view m') start (length w) = w.
Proof.
  intros Hs Hpb Hb. destruct (block_bytes P s p start _ Hs Hb) as (E & _ & Hin). rewrite length_app in *.
  unfold in_pool in Hin. rewrite view_pool by (unfold in_pool; lia).
  rewrite (load_bytes_ext _ (s_mem s)).
  - rewrite load_bytes_app in E. apply app_inj_1 in E as [E1 _]; [by symmetry | by rewrite length_load_bytes].
  - intros x Hx. apply Hpb. unfold pool_virt, virt in *. lia.
Qed.

Lemma view_fields m cmd m' a n :
  published m cmd m' → 4 ≤ a → a + Z.of_nat n ≤ 80 → load_bytes (view m') (c + a) n = load_bytes cmd a n.
Proof. intros Hpb Ha Hn. rewrite view_comm by lia. by apply Hpb. Qed.

(** What the DSP reads from a published command. *)
Record understood (w : mem) (ns : option (list Z)) (in_data : list Z) (out_size : Z) (items : list item)
    (addrs : list Z) (a_in a_out a_buf : option (Z * Z)) : Prop := {
  un_flags : load32 w (cmd_flags c) =
    Z.lor (match ns with Some _ => XRP_DSP_CMD_FLAG_REQUEST_NSID | None => 0 end) XRP_DSP_CMD_FLAG_REQUEST_VALID;
  un_nsid : ∀ id, ns = Some id → load_bytes w (cmd_nsid c) 16 = id;
  un_args : args_of w c = mk_args (area a_in (cmd_in_data c)) (Z.of_nat (length in_data)) (area a_out (cmd_out_data c)) out_size;
  un_in : load_bytes w (area a_in (cmd_in_data c)) (length in_data) = in_data;
  un_n : n_buffers_of w c = Z.of_nat (length items);
  un_base : dsp_buffer_of w c = area a_buf (cmd_buffer_data c);
  un_bufs : load_dsp_buffers w (area a_buf (cmd_buffer_data c)) (length items) = zip_with descriptor_of items addrs;
}.

Lemma descriptors_load w a items addrs :
  length addrs = length items → load_bytes w a (12 * length items) = descriptors_of items addrs →
  load_dsp_buffers w a (length items) = zip_with descriptor_of items addrs.
Proof.
  intros El E. assert (length (zip_with descriptor_of items addrs) = length items) as Ez
    by (rewrite length_zip_with; lia).
  rewrite <- Ez. apply load_dsp_buffers_bytes; [| by rewrite Ez].
  apply list.Forall_forall. intros b (j & Hj)%list_elem_of_lookup. apply lookup_zip_with_Some in Hj as (it & ad & -> & _).
  unfold dsp_buffer_ok, descriptor_of. cbn. pose proof (u32_range (it_flags it)). pose proof (u32_range (it_size it)).
  pose proof (u32_range ad). lia.
Qed.

Lemma command_understood s m0 cmd m' ns in_data out_size items addrs a_in a_out a_buf user :
  on_platform s → carries P s m0 cmd ns in_data out_size items addrs a_in a_out a_buf user →
  published (s_mem s) cmd m' →
  understood (view m') ns in_data out_size items addrs a_in a_out a_buf.
Proof.
  intros Hs Hca Hpb. assert (∀ a, 4 ≤ a → a + 4 ≤ 80 → load32 (view m') (c + a) = load32 cmd a) as H32.
  { intros a Ha Hn. unfold load32. by rewrite (view_fields (s_mem s) cmd) by (done || lia). }
  destruct Hca as [Hfl Hid Hin Hout Hbuf (Hla & _ & _) _ _].
  destruct Hin as [Hin Hin'], Hout as [Hout Hout'], Hbuf as [Hbuf Hbuf'].
  assert (n_buffers_of (view m') c = Z.of_nat (length items)) as En.
  { unfold n_buffers_of, cmd_buffer_size. rewrite H32 by lia.
    unfold cmd_buffer_size in Hbuf. rewrite Z.add_0_l in Hbuf. rewrite Hbuf. unfold sizeof_dsp_buffer. rewrite Z.mul_comm. by apply Z.div_mul. }
  split.
  - unfold cmd_flags. replace c with (c + 0) by lia. unfold load32. rewrite view_comm by lia. rewrite Z.add_0_r.
    fold (load32 m' (comm_ptr d)). rewrite (pb_flags _ _ _ Hpb), Hfl. by destruct ns.
  - intros id E. unfold cmd_nsid. rewrite (view_fields (s_mem s) cmd) by (done || lia). by apply Hid.
  - unfold args_of, cmd_in_data_size, cmd_out_data_size, cmd_in_data, cmd_out_data in *. rewrite !H32 by lia.
    rewrite Z.add_0_l in *. rewrite Hin, Hout. f_equal.
    + destruct a_in as [[p start] |]; [destruct Hin' as (Hb & E & _) | destruct Hin' as [Hb _]]; rewrite ?area_some, ?area_none.
      * by rewrite (proj2 (Z.ltb_lt _ _)), E by done.
      * by rewrite (proj2 (Z.ltb_ge _ _)) by done.
    + destruct a_out as [[p start] |]; [destruct Hout' as (Hb & E & _) | pose proof Hout' as Hb]; rewrite ?area_some, ?area_none.
      * by rewrite (proj2 (Z.ltb_lt _ _)), E by done.
      * by rewrite (proj2 (Z.ltb_ge _ _)) by done.
  - destruct a_in as [[p start] |]; [destruct Hin' as (Hb & E & rest & Hbl) | destruct Hin' as [Hb E]]; rewrite ?area_some, ?area_none.
    + by eapply block_view.
    + unfold cmd_in_data, XRP_DSP_CMD_INLINE_DATA_SIZE in *. rewrite (view_fields (s_mem s) cmd) by (done || lia). done.
  - done.
  - unfold dsp_buffer_of. rewrite En. unfold cmd_buffer_data in *. rewrite H32, Z.add_0_l in * by lia.
    destruct a_buf as [[p start] |]; [destruct Hbuf' as (Hb & E & _) | destruct Hbuf' as [Hb _]]; rewrite ?area_some, ?area_none.
    + by rewrite (proj2 (Z.ltb_lt _ _)), E by done.
    + by rewrite (proj2 (Z.ltb_ge _ _)) by done.
  - apply descriptors_load; [done |].
    destruct a_buf as [[p start] |]; [destruct Hbuf' as (Hb & E & rest & Hbl) | destruct Hbuf' as [Hb E]]; rewrite ?area_some, ?area_none.
    + rewrite <- (length_descriptors items addrs) by done. by eapply block_view.
    + unfold cmd_buffer_data, XRP_DSP_CMD_INLINE_BUFFER_COUNT in *.
      rewrite (view_fields (s_mem s) cmd) by (done || lia). done.
Qed.

(** ** The answer *)

(** Two parts of a command are apart: their memory, their places in the
    command, and memory and command. *)
Lemma areas_apart s a a' o o' (n n' : nat) :
  on_platform s → room P s a n → room P s a' n' → (∀ p, alloc_ptr a = Some p → alloc_ptr a' ≠ Some p) →
  (a = None → 0 ≤ o ∧ o + Z.of_nat n ≤ 80) → (a' = None → 0 ≤ o' ∧ o' + Z.of_nat n' ≤ 80) →
  (a = None → a' = None → o + Z.of_nat n ≤ o' ∨ o' + Z.of_nat n' ≤ o) →
  area a (c + o) + Z.of_nat n ≤ area a' (c + o') ∨ area a' (c + o') + Z.of_nat n' ≤ area a (c + o).
Proof.
  intros Hs Hr Hr' Hne Ho Ho' Hoo. pose proof (po_apart P Hok) as Hap.
  assert (∀ p start k, room P s (Some (p, start)) k → shared_base d ≤ start ∧ start + Z.of_nat k ≤ shared_base d + shared_size d) as Hin.
  { intros p start k (bs & Hb & Hk). destruct (block_bytes P s p start bs Hs Hb) as (_ & _ & ? & ?). lia. }
  destruct a as [[p start] |], a' as [[p' start'] |]; rewrite ?area_some, ?area_none.
  - destruct Hr as (bs & Hb & ?), Hr' as (bs' & Hb' & ?).
    destruct (blocks_apart P s p p' start bs start' bs' Hs Hb Hb'); [| lia | lia]. intros ->. by apply (Hne p').
  - specialize (Hin _ _ _ Hr). specialize (Ho' eq_refl). lia.
  - specialize (Hin _ _ _ Hr'). specialize (Ho eq_refl). lia.
  - specialize (Hoo eq_refl eq_refl). lia.
Qed.

Lemma item_room m s it addr u :
  placed_item P m s it addr u → ∃ p, item_block it u = Some p ∧ room P s (Some (p, addr)) (Z.to_nat (it_size it)).
Proof.
  intros (_ & p & bs & Ep & Hb & Hl & _). exists p. split; [done |]. exists bs. split; [done | lia].
Qed.

(** The flag word of the answer, and bytes of the DSP's memory outside the
    flags and the descriptors. *)
Record answered (w w2 : mem) (r : handler_result) (items : list item) (da : Z) : Prop := {
  an_complete : cmd_complete_flags (load32 w2 c) = true;
  an_status : (Z.land (load32 w2 c) XRP_DSP_CMD_FLAG_RESPONSE_DELIVERY_FAIL =? 0) = bool_decide (hr_status r = XRP_STATUS_SUCCESS);
  an_mem : ∀ x, x < c ∨ c + 4 ≤ x → x < da ∨ da + 12 * Z.of_nat (length items) ≤ x → w2 x = hr_mem r x;
  an_flags : ∀ k b, g_buffer (hr_group r) !! k = Some b → load32 w2 (da + 12 * Z.of_nat k) = report_flags b;
}.

Context {Hd : Type}.
Context (run : Hd → Z → cmd_args → mem → DspBuffer.xrp_buffer_group → handler_result).
Context (run_command : cmd_args → mem → DspBuffer.xrp_buffer_group → option xrp_status * mem * DspBuffer.xrp_buffer_group).
Context (hs : mem → mem * nat) (malloc : bool) (device : xrp_device Hd) (Hdev : d_dsp_cmd device = c).

(** What the DSP does with a command. *)
Definition dsp_turn (m : mem) : mem :=
  match xrp_device_dispatch run run_command hs malloc (view m) device with
  | Some (_, w, _) => back m w
  | None => m
  end.

(** The handler the queue names. *)
Definition named (ns : option (list Z)) (h : option (Hd * Z)) : Prop :=
  match ns with
  | Some id => ∃ hc, h = Some hc ∧ lookup_handler device id = Some (Some hc)
  | None => h = None
  end.

(** The handler's call in memory [w], and handlers that use their buffers
    through the buffer interface. *)
Definition call_of (h : option (Hd * Z)) (w : mem) (in_data : list Z) (out_size : Z) (items : list item) (addrs : list Z)
    (a_in a_out : option (Z * Z)) : handler_result :=
  run_handler run run_command h
    (mk_args (area a_in (cmd_in_data c)) (Z.of_nat (length in_data)) (area a_out (cmd_out_data c)) out_size) w
    (mk_group 0 (init_buffer <$> zip_with descriptor_of items addrs)).
Definition well_behaved (h : option (Hd * Z)) : Prop :=
  ∀ args w bufs, ∃ cs, hr_group (run_handler run run_command h args w (mk_group 0 bufs)) = group_run (mk_group 0 bufs) cs.

Lemma answer_flags (ns : option (list Z)) st :
  let fl := Z.lor (match ns with Some _ => XRP_DSP_CMD_FLAG_REQUEST_NSID | None => 0 end) XRP_DSP_CMD_FLAG_REQUEST_VALID in
  let v := Z.lor (if decide (st = XRP_STATUS_SUCCESS) then fl else Z.lor fl XRP_DSP_CMD_FLAG_RESPONSE_DELIVERY_FAIL)
             XRP_DSP_CMD_FLAG_RESPONSE_VALID in
  0 ≤ v < 2 ^ 32 ∧ cmd_complete_flags v = true ∧
  (Z.land v XRP_DSP_CMD_FLAG_RESPONSE_DELIVERY_FAIL =? 0) = bool_decide (st = XRP_STATUS_SUCCESS).
Proof. destruct ns, st; vm_compute; repeat split; congruence. Qed.

Lemma dsp_answers w ns h in_data out_size items addrs a_in a_out a_buf :
  understood w ns in_data out_size items addrs a_in a_out a_buf → named ns h → well_behaved h →
  length addrs = length items → Z.of_nat (length items) ≤ MAX_STACK_BUFFERS ∨ malloc = true →
  (let da := area a_buf (cmd_buffer_data c) in c + 4 ≤ da ∨ da + 12 * Z.of_nat (length items) ≤ c) →
  let r := call_of h w in_data out_size items addrs a_in a_out in
  ∃ w2, xrp_device_dispatch run run_command hs malloc w device = Some (hr_status r, w2, 1%nat) ∧
    length (g_buffer (hr_group r)) = length items ∧ answered w w2 r items (area a_buf (cmd_buffer_data c)).
Proof.
  intros [Hfl Hid Hargs _ Hn Hbase Hbufs] Hns Hwb Hla Hmal Hda r.
  set (fl := Z.lor _ _) in Hfl.
  assert (request_valid_flags fl = true ∧ fl ≠ XRP_DSP_SYNC_START) as [Hv Hne] by (by destruct ns).
  eexists. split.
  { rewrite (dispatch_runs run run_command hs malloc w device fl h); rewrite ?Hdev, ?Hargs, ?Hn, ?Hbase, ?Nat2Z.id, ?Hbufs;
      try done. unfold selects. rewrite Hdev. subst fl. unfold named in Hns. destruct ns as [id |]; [| done].
    change XRP_NAMESPACE_ID_SIZE with 16%nat. by rewrite (Hid id eq_refl). }
  unfold call_of in r. set (bs := init_buffer <$> zip_with descriptor_of items addrs) in *. fold r.
  assert (length (g_buffer (hr_group r)) = length items) as Elg.
  { destruct (Hwb (mk_args (area a_in (cmd_in_data c)) (Z.of_nat (length in_data)) (area a_out (cmd_out_data c)) out_size) w bs)
      as [cs Hg]. unfold r. rewrite Hg, group_run_length. cbn. unfold bs.
    rewrite length_fmap, length_zip_with. lia. }
  split; [done |]. unfold complete_request, cmd_flags.
  set (mr := report_buffers _ _ _). set (v := Z.lor _ XRP_DSP_CMD_FLAG_RESPONSE_VALID).
  assert (0 ≤ v < 2 ^ 32 ∧ cmd_complete_flags v = true ∧
    (Z.land v XRP_DSP_CMD_FLAG_RESPONSE_DELIVERY_FAIL =? 0) = bool_decide (hr_status r = XRP_STATUS_SUCCESS)) as (Hv1 & Hv2 & Hv3).
  { apply answer_flags. }
  split.
  - by rewrite load32_store32.
  - by rewrite load32_store32.
  - intros x Hx Hx'. rewrite store32_out by lia. apply report_buffers_out. rewrite Elg. lia.
  - intros k b Hb. pose proof (lookup_lt_Some _ _ _ Hb) as Hk.
    cbn zeta in Hda. rewrite (load32_same mr) by (intros x Hx; apply store32_out; lia).
    pose proof (report_buffers_load (hr_mem r) (area a_buf (cmd_buffer_data c)) (g_buffer (hr_group r))) as E. fold mr in E.
    apply (f_equal (.!! k)) in E. unfold load_dsp_buffers in E at 1.
    rewrite list_lookup_fmap, lookup_seq_lt in E by done. cbn in E. symmetry in E.
    apply lookup_zip_with_Some in E as (dd & b' & E & _ & Hb'). rewrite Hb in Hb'. injection Hb' as <-.
    apply (f_equal db_flags) in E. cbn in E. unfold sizeof_dsp_buffer in E. rewrite <- E. by rewrite Z.mul_comm.
Qed.

(** ** The worker *)

Lemma wait_idle k act m :
  cmd_complete_flags (load32 m (comm_ptr d)) = false →
  wait_response dtab m (comm_ptr d) (replicate k id ++ [act]) = wait_response dtab m (comm_ptr d) [act].
Proof.
  intros Hf. induction k as [| k IH]; [done |]. cbn [replicate app wait_response]. unfold SimMem.xrp_comm_read32, id, cmd_flags.
  rewrite <- (Z.add_0_r (comm_ptr d)) at 1. rewrite comm_accessible by lia. cbn [mbind option_bind]. rewrite Hf. exact IH.
Qed.

(** The command runs: the DSP leaves [w2] in its memory. *)
Lemma run_effect s k r ns in_data out_size items addrs a_in a_out a_buf m' w2 hr :
  on_platform s → publish (s_mem s) (r_cmd r) = Some m' →
  understood (view m') ns in_data out_size items addrs a_in a_out a_buf →
  xrp_device_dispatch run run_command hs malloc (view m') device = Some (hr_status hr, w2, 1%nat) →
  answered (view m') w2 hr items (area a_buf (cmd_buffer_data c)) →
  run_on_dsp (replicate k id ++ [dsp_turn]) s i r = Some (set_mem s (back m' w2)).
Proof.
  intros [st (Et & Ed & _)] Hpub Hun Hdis Han. unfold run_on_dsp. rewrite Ed, Et. cbn [mbind option_bind].
  change (comm_ptr (with_pool d st)) with (comm_ptr d).
  change (SimMem.xrp_send_device_irq dtab (with_pool d st)) with (SimMem.xrp_send_device_irq dtab d).
  assert (accessible dtab (comm_ptr d) sizeof_dsp_cmd = true) as ->
    by (rewrite <- (Z.add_0_r (comm_ptr d)); by apply comm_accessible).
  unfold publish in Hpub. apply bind_Some in Hpub as (m1 & E1 & E2). change (Z.to_nat sizeof_dsp_cmd) with 80%nat.
  rewrite E1. cbn [mbind option_bind]. rewrite E2. cbn [mbind option_bind].
  assert (∀ m, load32 (view m) (cmd_flags c) = load32 m (comm_ptr d)) as Hf.
  { intros m. unfold load32, cmd_flags. rewrite <- (Z.add_0_r c), view_comm by lia. by rewrite Z.add_0_r. }
  rewrite wait_idle; [| rewrite <- Hf, (un_flags _ _ _ _ _ _ _ _ _ Hun); by destruct ns].
  cbn [wait_response]. unfold SimMem.xrp_comm_read32, cmd_flags.
  assert (accessible dtab (comm_ptr d) 4 = true) as -> by (rewrite <- (Z.add_0_r (comm_ptr d)); by apply comm_accessible).
  cbn [mbind option_bind]. unfold dsp_turn. rewrite Hdis.
  assert (load32 (back m' w2) (comm_ptr d) = load32 w2 c) as ->.
  { unfold load32. rewrite <- (Z.add_0_r (comm_ptr d)), back_comm by lia. by rewrite Z.add_0_r. }
  by rewrite (an_complete _ _ _ _ _ Han).
Qed.

(** The worker's copy of the answer. *)
Definition answer_cmd (cmd mh : mem) : mem := store_bytes cmd 0 (load_bytes mh (comm_ptr d) 80).

Lemma answer_load cmd m' w2 a n :
  0 ≤ a → a + Z.of_nat n ≤ 80 → load_bytes (answer_cmd cmd (back m' w2)) a n = load_bytes w2 (c + a) n.
Proof.
  intros Ha Hn. rewrite <- (back_comm m' w2) by lia. apply map_ext_in. intros j Hj%in_seq. unfold answer_cmd.
  pose proof (length_load_bytes (back m' w2) (comm_ptr d) 80) as El. rewrite store_bytes_in by lia.
  rewrite (nth_lookup_Some _ _ 0 (back m' w2 (comm_ptr d + Z.of_nat (Z.to_nat (a + Z.of_nat j - 0)))))
    by (apply load_bytes_lookup; lia). f_equal. lia.
Qed.

(** A state during the worker's round: the pool is as the DSP left it. *)
Definition has_answer (s : sim) (m' w2 : mem) : Prop :=
  on_platform s ∧ ∀ x, pool_virt P x → s_mem s x = back m' w2 x.

Lemma answer_pool s m' w2 a n :
  has_answer s m' w2 → in_pool P a (Z.of_nat n) → load_bytes (s_mem s) (virt rp a) n = load_bytes w2 a n.
Proof.
  intros [_ Hm] Hin. rewrite <- (back_pool m' w2 a n Hin). apply load_bytes_ext. intros x Hx. apply Hm.
  unfold in_pool, pool_virt, virt in *. lia.
Qed.

(** Reading a part of the command or the memory it has. *)
Lemma rq_read_area s cmd m' w2 a o off n :
  has_answer s m' w2 → room P s a (off + n) → 0 ≤ o → (a = None → o + Z.of_nat (off + n) ≤ 80) →
  rq_read s (answer_cmd cmd (back m' w2)) (virt rp <$> alloc_start a) o (Z.of_nat off) n =
  Some (load_bytes w2 (area a (c + o) + Z.of_nat off) n).
Proof.
  intros Ha Hr Ho Hn. destruct a as [[p start] |]; cbn [rq_read alloc_start fmap option_fmap option_map snd].
  - rewrite area_some. destruct Hr as (bs & Hb & Hl). pose proof Ha as [Hs _].
    destruct (block_bytes P s p start bs Hs Hb) as (_ & _ & ? & ?). destruct Hs as [st (Et & _)]. rewrite Et.
    rewrite <- virt_add. assert (in_pool P (start + Z.of_nat off) (Z.of_nat n)) as Hin by (unfold in_pool; lia).
    rewrite (accessible_pool P Hok) by done. f_equal. exact (answer_pool s m' w2 _ n Ha Hin).
  - rewrite area_none. specialize (Hn eq_refl). rewrite answer_load by lia. f_equal. f_equal. lia.
Qed.

(** ** Bringing the buffers back *)

Definition comes_back (it : item) (b : DspBuffer.xrp_buffer) : bool :=
  match it_alloc it with
  | Some _ => false
  | None => negb (Z.land (report_flags b) XRP_DSP_BUFFER_FLAG_WRITE =? 0)
  end.

(** The program's memory when the host buffers the handler wrote are back. *)
Fixpoint returned (w2 m : mem) (items : list item) (addrs : list Z) (bs : list DspBuffer.xrp_buffer) : mem :=
  match items, addrs, bs with
  | it :: items, addr :: addrs, b :: bs =>
      returned w2
        (if comes_back it b then store_bytes m (it_ptr it) (load_bytes w2 addr (Z.to_nat (it_size it))) else m)
        items addrs bs
  | _, _, _ => m
  end.

(** A buffer of the command that is being finished. *)
Definition pending_item (s : sim) (it : item) (addr : Z) (u : option Z) : Prop :=
  match it_alloc it with
  | Some _ => u = None
  | None =>
      private P (it_ptr it) (it_size it) ∧ 0 ≤ it_size it ∧
      ∃ p, u = Some p ∧ room P s (Some (p, addr)) (Z.to_nat (it_size it))
  end.

Lemma drop_cons {X} k (xs : list X) x t : drop k xs = x :: t → xs !! k = Some x ∧ drop (S k) xs = t.
Proof.
  intros E. split.
  - rewrite <- (Nat.add_0_r k), <- lookup_drop, E. done.
  - replace (S k) with (k + 1)%nat by lia. by rewrite <- drop_drop, E.
Qed.

(** Memory of the program does not touch the pool. *)
Lemma private_store_answer s m' w2 a w :
  has_answer s m' w2 → private P a (Z.of_nat (length w)) →
  has_answer (set_mem s (store_bytes (s_mem s) a w)) m' w2 ∧ blocks (set_mem s (store_bytes (s_mem s) a w)) = blocks s.
Proof.
  intros [Hs Hm] Hp.
  assert (∀ x, pool_virt P x → store_bytes (s_mem s) a w x = s_mem s x) as Hx.
  { intros x Hx. apply store_bytes_out. destruct (Z_lt_ge_dec x a); [by left |].
    destruct (Z_le_gt_dec (a + Z.of_nat (length w)) x); [by right |]. exfalso.
    apply (private_not_pool P Hok a (Z.of_nat (length w)) x); [done | lia | done]. }
  split; [split |].
  - by destruct Hs as [st Hst]; exists st.
  - intros x Hpx. cbn. rewrite Hx by done. by apply Hm.
  - apply (blocks_frame P s (store_bytes (s_mem s) a w) Hs Hx).
Qed.

(** Neither objects nor what has been lost change. *)
Definition quiet (s s' : sim) : Prop := s_st s' = s_st s ∧ leaked s' = leaked s.
Lemma quiet_trans s1 s2 s3 : quiet s1 s2 → quiet s2 s3 → quiet s1 s3.
Proof. intros [? ?] [? ?]. split; congruence. Qed.
Lemma quiet_books s s' : quiet s s' → books s' = books s.
Proof. intros [E L]. unfold books. by rewrite E, L. Qed.

Lemma free_answer s m' w2 p b :
  has_answer s m' w2 → blocks s !! p = Some b →
  ∃ s', free s (i, p) = Some s' ∧ has_answer s' m' w2 ∧ quiet s s' ∧ s_mem s' = s_mem s ∧ blocks s' = delete p (blocks s).
Proof.
  intros [Hs Hm] Hb. destruct (free_block P s p b Hs Hb) as (s' & E & Hs' & (Est & El & _) & Em & Eb).
  exists s'. split_and!; try done. split; [done |]. by rewrite Em.
Qed.

Lemma room_same s s' a n : blocks s' = blocks s → room P s a n → room P s' a n.
Proof. intros E. unfold room. by rewrite E. Qed.

Lemma room_delete s s' a n q : blocks s' = delete q (blocks s) → alloc_ptr a ≠ Some q → room P s a n → room P s' a n.
Proof.
  intros E Hne. destruct a as [[p start] |]; [| done]. intros (bs & Hb & ?). exists bs. split; [| done].
  rewrite E, lookup_delete_ne; [done |]. intros ->. by apply Hne.
Qed.

Lemma pending_delete s s' p items addrs user :
  blocks s' = delete p (blocks s) → p ∉ omap id user → Forall3 (pending_item s) items addrs user →
  Forall3 (pending_item s') items addrs user.
Proof.
  intros Eb Hp Hits. induction Hits as [| it addr u items addrs user Hit Hits IH]; [constructor |].
  constructor; [| apply IH; intros Hin; apply Hp; destruct u; cbn; [by right | done]].
  unfold pending_item in *. destruct (it_alloc it); [done |]. destruct Hit as (? & ? & q & -> & Hr).
  split_and!; [done | done |]. exists q. split; [done |]. eapply room_delete; [exact Eb | | exact Hr].
  intros [= ->]. apply Hp. cbn. by left.
Qed.

Lemma return_buffers_spec r cmd m' w2 a_buf recs items : ∀ s k addrs user bs,
  r_buffer_ptr r = virt rp <$> alloc_start a_buf →
  has_answer s m' w2 → Forall2 (is_item P s) (drop k recs) items → drop k (r_user_alloc r) = user →
  Forall3 (pending_item s) items addrs user → length bs = length items →
  NoDup (omap id user) → (∀ p, p ∈ omap id user → alloc_ptr a_buf ≠ Some p) →
  room P s a_buf (12 * (k + length items)) → (a_buf = None → (k + length items ≤ 1)%nat) →
  (∀ j b, bs !! j = Some b → load32 w2 (area a_buf (cmd_buffer_data c) + 12 * Z.of_nat (k + j)) = report_flags b) →
  ∃ s', return_buffers s i (answer_cmd cmd (back m' w2)) r k (length items) recs = Some s' ∧
    has_answer s' m' w2 ∧ quiet s s' ∧ s_mem s' = returned w2 (s_mem s) items addrs bs ∧
    ∀ p, p ∉ omap id user → blocks s' !! p = blocks s !! p.
Proof.
  induction items as [| it items IH]; intros s k addrs user bs Hbp Ha Hrecs Hus Hit Hlb Hnd Hap Hroom Hinl Hfl.
  { exists s. inversion Hit. by split_and!. }
  apply Forall3_cons_inv_l in Hit as (addr & addrs' & u & user' & -> & -> & Hit & Hits).
  destruct bs as [| b bs]; [done |].
  inversion Hrecs as [| rec ? recs' ? Hrec Hrecs' Er]; subst. symmetry in Er. destruct (drop_cons _ _ _ _ Er) as [Hk Er'].
  destruct (drop_cons _ _ _ _ Hus) as [Hu Hus'].
  destruct Hrec as (Ef & mf & Eo). cbn [length return_buffers]. rewrite Hk. cbn [mbind option_bind]. rewrite Eo.
  cbn [mbind option_bind]. unfold pending_item in Hit. cbn [returned]. unfold comes_back.
  assert (∀ s1, has_answer s1 m' w2 → quiet s s1 → Forall3 (pending_item s1) items addrs' user' →
    (∀ p, p ∉ omap id (u :: user') → blocks s1 !! p = blocks s !! p) → room P s1 a_buf (12 * (k + S (length items))) →
    ∃ s', return_buffers s1 i (answer_cmd cmd (back m' w2)) r (S k) (length items) recs = Some s' ∧
      has_answer s' m' w2 ∧ quiet s s' ∧ s_mem s' = returned w2 (s_mem s1) items addrs' bs ∧
      ∀ p, p ∉ omap id (u :: user') → blocks s' !! p = blocks s !! p) as Hrest.
  { intros s1 Ha1 Est Hits1 Hb1 Hroom1. destruct (IH s1 (S k) addrs' user' bs) as (s' & E & Ha' & Est' & Em & Hb); try done.
    - rewrite Er'. eapply Forall2_impl; [| exact Hrecs']. intros rec' it'. apply is_item_same, Est.
    - by injection Hlb.
    - destruct u as [p |]; [| done]. by apply list.NoDup_cons in Hnd as [_ ?].
    - intros p Hin. apply Hap. destruct u as [q |]; cbn; [by right | done].
    - by replace (12 * (S k + length items))%nat with (12 * (k + S (length items)))%nat by lia.
    - intros En. specialize (Hinl En). cbn [length] in Hinl. lia.
    - intros j b' Hj. rewrite <- (Hfl (S j) b' Hj). do 3 f_equal. lia.
    - exists s'. split; [done |]. split; [done |]. split; [by eapply quiet_trans |]. split; [done |]. intros p Hp. rewrite Hb; [by apply Hb1 |].
      intros Hin. apply Hp. destruct u; cbn; [by right | done]. }
  destruct (it_alloc it) as [q |]; cbn [fmap option_fmap option_map].
  - subst u. rewrite Hu. cbn [mbind option_bind option_list fmap list_fmap]. by apply (Hrest (leak s [])).
  - destruct Hit as (Hpr & Hz & p & -> & Hrp). pose proof Hrp as (bl & Hbl & Hll).
    assert (room P s a_buf (12 * k + 4)) as Hroomk.
    { destruct a_buf as [[pb sb] |]; [| done]. destruct Hroom as (x & ? & ?). exists x. split; [done |]. cbn [length] in *. lia. }
    replace (12 * Z.of_nat k) with (Z.of_nat (12 * k)) by lia. rewrite Hbp. unfold cmd_buffer_data at 1. rewrite Z.add_0_l.
    rewrite (rq_read_area s cmd m' w2 a_buf 48 (12 * k) 4 Ha Hroomk); [| lia |].
    2:{ intros En. specialize (Hinl En). cbn [length] in Hinl. lia. }
    cbn [mbind option_bind]. rewrite Hu. cbn [mbind option_bind].
    change (le_val (load_bytes w2 (area a_buf (c + 48) + Z.of_nat (12 * k)) 4)) with (load32 w2 (area a_buf (c + 48) + Z.of_nat (12 * k))).
    assert (load32 w2 (area a_buf (c + 48) + Z.of_nat (12 * k)) = report_flags b) as ->.
    { rewrite <- (Hfl 0%nat b eq_refl). f_equal. unfold cmd_buffer_data. lia. }
    assert (∃ s1, (if Z.land (report_flags b) XRP_DSP_BUFFER_FLAG_WRITE =? 0 then Some s
       else start ← start_of s (i, p); data ← shm_read s start 0 (Z.to_nat (it_size it));
            Some (set_mem s (store_bytes (s_mem s) (it_ptr it) data))) = Some s1 ∧
      has_answer s1 m' w2 ∧ quiet s s1 ∧ blocks s1 = blocks s ∧
      s_mem s1 = if negb (Z.land (report_flags b) XRP_DSP_BUFFER_FLAG_WRITE =? 0)
                 then store_bytes (s_mem s) (it_ptr it) (load_bytes w2 addr (Z.to_nat (it_size it))) else s_mem s)
      as (s1 & -> & Ha1 & Est1 & Eb1 & Em1).
    { destruct (_ =? 0); cbn [negb]; [by exists s |]. pose proof Ha as [Hs _].
      rewrite (start_of_block P s p addr bl Hs Hbl). cbn [mbind option_bind].
      pose proof (read_block P Hok s p addr bl 0 (Z.to_nat (it_size it)) Hs Hbl ltac:(lia)) as Erd.
      change (Z.of_nat 0) with 0 in Erd. rewrite Erd. cbn [mbind option_bind].
      destruct (block_bytes P s p addr bl Hs Hbl) as (Ebl & _ & ? & ?).
      assert (take (Z.to_nat (it_size it)) (drop 0 bl) = load_bytes w2 addr (Z.to_nat (it_size it))) as ->.
      { rewrite <- (answer_pool s m' w2 addr) by (done || unfold in_pool; lia). rewrite drop_0, Ebl.
        replace (length bl) with (Z.to_nat (it_size it) + (length bl - Z.to_nat (it_size it)))%nat by lia.
        rewrite load_bytes_app. apply take_app_length'. by rewrite length_load_bytes. }
      eexists. split; [done |]. 
      destruct (private_store_answer s m' w2 (it_ptr it) (load_bytes w2 addr (Z.to_nat (it_size it))) Ha) as [Ha1 Eb1].
      { rewrite length_load_bytes, Z2Nat.id by lia. done. }
      by split_and!. }
    cbn [mbind option_bind]. destruct (free_answer s1 m' w2 p (addr, bl) Ha1) as (s2 & -> & Ha2 & Est2 & Em2 & Eb2);
      [by rewrite Eb1 |]. cbn [mbind option_bind]. rewrite Eb1 in Eb2. rewrite <- Em1, <- Em2.
    cbn in Hnd. apply list.NoDup_cons in Hnd as [Hnp Hnd].
    apply Hrest; [done | by eapply quiet_trans | | |].
    + by eapply pending_delete.
    + intros q Hq. rewrite Eb2, lookup_delete_ne; [done |]. intros ->. apply Hq. cbn. by left.
    + eapply room_delete; [exact Eb2 | | exact Hroom]. apply Hap. cbn. by left.
Qed.

(** ** The end of a round *)

(** Giving up one of several references. *)
Lemma release_twice s k p roots :
  holds [] (s_st s) ((k, p) :: roots) → (k, p) ∈ roots →
  ∃ s', release s p = Some s' ∧ last s p = Some false ∧ same_memory s s' ∧ (∀ q, object s' q = object s q) ∧
    holds [] (s_st s') roots ∧ books s' = books s.
Proof.
  intros Hh Hin. destruct (holds_lookup [] _ _ k p Hh) as (cl & Hp & Hk & _); [by left |].
  assert (c_count cl ≠ 1) as Hc.
  { destruct (i_count _ _ Hh p cl Hp) as [E _]. rewrite Hk in E. cbn [app] in E. rewrite cnt_cons, decide_True in E by done.
    assert (0 < cnt (k, p) ((roots ++ lost (s_st s)) ++ heap_refs (minus (hp (s_st s)) [])))%nat by (apply cnt_elem; set_solver).
    lia. }
  destruct (release_shared [] _ roots k p cl Hh Hp Hc) as (st & Est & _ & Hh').
  unfold release, last, last_refcount. rewrite Est, Hp. cbn [mbind option_bind]. eexists. split; [done |].
  split; [by rewrite (proj2 (Z.eqb_neq _ _)) |]. split; [done |].
  unfold release_refcounted in Est. rewrite Hp in Est. cbn in Est. rewrite (proj2 (Z.eqb_neq _ _)) in Est by lia.
  injection Est as <-. split; [| done]. intros q. unfold object, heap. cbn. destruct (decide (q = p)) as [-> |].
  - by rewrite lookup_insert_eq, Hp.
  - by rewrite lookup_insert_ne.
Qed.

Lemma has_answer_same s s' m' w2 : same_memory s s' → has_answer s m' w2 → has_answer s' m' w2.
Proof. intros Hm [Hs Ha]. split; [by eapply same_memory_platform |]. by rewrite (proj2 Hm). Qed.

Lemma free_if_spec s m' w2 a :
  has_answer s m' w2 → room P s a 0 →
  ∃ s', free_if (bool_decide (is_Some a)) s i (alloc_ptr a) = Some s' ∧ has_answer s' m' w2 ∧ quiet s s' ∧ s_mem s' = s_mem s ∧
    ∀ q, alloc_ptr a ≠ Some q → blocks s' !! q = blocks s !! q.
Proof.
  intros Ha Hr. unfold free_if. destruct a as [[p start] |]; [| by exists s].
  rewrite bool_decide_eq_true_2 by by eexists. destruct Hr as (bs & Hb & _). cbn [alloc_ptr fmap option_fmap option_map fst mbind option_bind].
  destruct (free_answer s m' w2 p _ Ha Hb) as (s' & E & Ha' & Est & Em & Eb). exists s'. split_and!; try done.
  intros q Hq. rewrite Eb, lookup_delete_ne; [done |]. congruence.
Qed.

Lemma room_lookup s s' a n :
  (∀ p, alloc_ptr a = Some p → blocks s' !! p = blocks s !! p) → room P s a n → room P s' a n.
Proof. intros E. destruct a as [[p start] |]; [| done]. intros (bs & Hb & ?). exists bs. by rewrite E. Qed.

Lemma pending_lookup s s' items addrs user :
  (∀ p, p ∈ omap id user → blocks s' !! p = blocks s !! p) → Forall3 (pending_item s) items addrs user →
  Forall3 (pending_item s') items addrs user.
Proof.
  intros Eb Hits. induction Hits as [| it addr u items addrs user Hit Hits IH]; [constructor |].
  constructor; [| apply IH; intros p Hin; apply Eb; destruct u; cbn; [by right | done]].
  unfold pending_item in *. destruct (it_alloc it); [done |]. destruct Hit as (? & ? & q & -> & Hr).
  split_and!; [done | done |]. exists q. split; [done |]. eapply room_lookup; [| exact Hr].
  intros p [= <-]. apply Eb. cbn. by left.
Qed.

(** The request the library made for a command. *)
Definition request_for (cmd : mem) (in_data : list Z) (out_data out_size : Z) (group : option nat) (items : list item)
    (a_in a_out a_buf : option (Z * Z)) (user : list (option Z)) (ev : nat) : request :=
  mk_request cmd (length items) (Z.of_nat (length in_data)) out_data (virt rp <$> alloc_start a_out) out_size
    group (Some ev) (alloc_ptr a_in) (alloc_ptr a_out) (alloc_ptr a_buf) user (virt rp <$> alloc_start a_buf).

Definition status_of (st : xrp_status) : xrp_status :=
  if decide (st = XRP_STATUS_SUCCESS) then XRP_STATUS_SUCCESS else XRP_STATUS_FAILURE.

Lemma nodup_option_inv (u : option Z) us :
  NoDup (omap id (u :: us)) → (∀ p, u = Some p → p ∉ omap id us) ∧ NoDup (omap id us).
Proof.
  destruct u as [p |]; [| done]. cbn. intros [Hp Hn]%list.NoDup_cons. split; [| done]. by intros q [= <-].
Qed.

(** One of the allocations of a request. *)
Lemma in_option (p : Z) (u : option Z) us : u = Some p ∨ p ∈ omap id us → p ∈ omap id (u :: us).
Proof. destruct u as [q |]; cbn; [rewrite elem_of_cons; intros [[= ->] | ?]; [by left | by right] | by intros [| ?]]. Qed.

Lemma finish_spec s cmd m' w2 w hr in_data out_data out_size group recs items addrs a_in a_out a_buf user ev dd st0 roots :
  let rq := request_for cmd in_data out_data out_size group items a_in a_out a_buf user ev in
  has_answer s m' w2 → answered w w2 hr items (area a_buf (cmd_buffer_data c)) →
  length (g_buffer (hr_group hr)) = length items →
  room P s a_in 0 → room P s a_out (Z.to_nat out_size) → room P s a_buf (12 * length items) →
  (XRP_DSP_CMD_INLINE_DATA_SIZE <? Z.of_nat (length in_data)) = bool_decide (is_Some a_in) →
  (XRP_DSP_CMD_INLINE_DATA_SIZE <? out_size) = bool_decide (is_Some a_out) →
  (XRP_DSP_CMD_INLINE_BUFFER_COUNT <? Z.of_nat (length items)) = bool_decide (is_Some a_buf) →
  0 ≤ out_size → private P out_data out_size →
  NoDup (omap id ([alloc_ptr a_in; alloc_ptr a_out; alloc_ptr a_buf] ++ user)) →
  Forall3 (pending_item s) items addrs user →
  group_buffers s group = Some recs → Forall2 (is_item P s) recs items →
  holds [] (s_st s) (request_refs rq ++ roots) → (∀ g, group = Some g → (KGroup, g) ∈ roots) → (KEvent, ev) ∈ roots →
  object s ev = Some (Event dd st0) →
  ∃ s', finish s i rq (answer_cmd cmd (back m' w2)) = Some s' ∧ on_platform s' ∧
    s_mem s' = returned w2 (store_bytes (s_mem s) out_data (load_bytes w2 (area a_out (cmd_out_data c)) (Z.to_nat out_size)))
                 items addrs (g_buffer (hr_group hr)) ∧
    object s' ev = Some (Event dd (status_of (hr_status hr))) ∧
    (∀ q, q ≠ ev → object s' q = object s q) ∧ books s' = books s.
Proof.
  intros rq Ha Han Hlg Hri Hro Hrb Bi Bo Bb Hz Hpo Hnd Hits Hgb Hrecs Hh Hg Hev Oev. unfold finish.
  cbn [rq request_for r_out_ptr r_out_data_size r_out_data r_in_data_size r_in_alloc r_out_alloc r_buffer_alloc
       r_group r_n_buffers r_event]. rewrite Bi, Bo, Bb.
  cbn [app] in Hnd. apply nodup_option_inv in Hnd as [Ni Hnd]. apply nodup_option_inv in Hnd as [No Hnd].
  apply nodup_option_inv in Hnd as [Nb Hnd].
  (* output *)
  pose proof (rq_read_area s cmd m' w2 a_out 32 0 (Z.to_nat out_size) Ha Hro ltac:(lia)) as Erd.
  change (Z.of_nat 0) with 0 in Erd. change (cmd_out_data 0) with 32. rewrite Erd.
  2:{ intros ->. rewrite bool_decide_eq_false_2 in Bo by (by intros [? ?]). unfold XRP_DSP_CMD_INLINE_DATA_SIZE in Bo. lia. }
  cbn [mbind option_bind]. rewrite Z.add_0_r. change (c + 32) with (cmd_out_data c).
  set (out := load_bytes w2 _ _). destruct (private_store_answer s m' w2 out_data out Ha) as [Ha0 Eb0].
  { unfold out. rewrite length_load_bytes, Z2Nat.id by lia. done. }
  set (s0 := set_mem s _) in *.
  (* input and output memory *)
  destruct (free_if_spec s0 m' w2 a_in Ha0) as (s1 & -> & Ha1 & Est1 & Em1 & Eb1); [by eapply room_same |].
  cbn [mbind option_bind].
  destruct (free_if_spec s1 m' w2 a_out Ha1) as (s2 & -> & Ha2 & Est2 & Em2 & Eb2).
  { eapply room_lookup; [| eapply room_same; [exact Eb0 |]; eapply (room_le P s a_out 0 (Z.to_nat out_size)); [lia | done]].
    intros p Ep. apply Eb1. intros Ei. apply (Ni p Ei), in_option. by left. }
  cbn [mbind option_bind].
  assert (∀ p, p ∈ omap id (alloc_ptr a_buf :: user) → blocks s2 !! p = blocks s !! p) as Hkeep.
  { intros p Hin. rewrite Eb2, Eb1, Eb0; [done | |].
    - intros Ei. apply (Ni p Ei), in_option. by right.
    - intros Eo. by apply (No p Eo). }
  assert (quiet s0 s2) as Q2 by (by eapply quiet_trans). assert (s_st s2 = s_st s) as Est by apply Q2.
  rewrite (group_buffers_st s s2) by (intros; by apply object_st). rewrite Hgb. cbn [mbind option_bind].
  (* buffers *)
  destruct (return_buffers_spec rq cmd m' w2 a_buf recs items s2 0 addrs user (g_buffer (hr_group hr)))
    as (s3 & Ert & Ha3 & Est3 & Em3 & Eb3); try done.
  { rewrite drop_0. eapply Forall2_impl; [| exact Hrecs]. intros rec it. by apply is_item_same. }
  { eapply pending_lookup; [| exact Hits]. intros p Hin. apply Hkeep, in_option. by right. }
  { intros p Hin Ep. by apply (Nb p Ep). }
  { eapply room_lookup; [| exact Hrb]. intros p Ep. apply Hkeep, in_option. by left. }
  { intros ->. rewrite bool_decide_eq_false_2 in Bb by (by intros [? ?]). unfold XRP_DSP_CMD_INLINE_BUFFER_COUNT in Bb. lia. }
  { intros j b Hj. apply Han. done. }
  rewrite Ert. cbn [mbind option_bind].
  destruct (free_if_spec s3 m' w2 a_buf Ha3) as (s4 & -> & Ha4 & Est4 & Em4 & _).
  { eapply room_lookup; [| eapply (room_le P s a_buf 0 (12 * length items)); [lia | done]].
    intros p Ep. rewrite Eb3 by (by apply Nb). apply Hkeep, in_option. by left. }
  cbn [mbind option_bind]. pose proof (quiet_trans _ _ _ Q2 (quiet_trans _ _ _ Est3 Est4)) as Q4.
  assert (s_st s4 = s_st s) as Est' by apply Q4.
  (* group *)
  assert (∃ s5, match group with Some g => xrp_release_buffer_group s4 g | None => Some s4 end = Some s5 ∧
    same_memory s4 s5 ∧ (∀ q, object s5 q = object s q) ∧ holds [] (s_st s5) ((KEvent, ev) :: roots) ∧
    books s5 = books s4) as (s5 & -> & Hm5 & O5 & Hh5 & Bk5).
  { rewrite <- Est' in Hh. assert (∀ q, object s4 q = object s q) as O4 by (intros; by apply object_st).
    unfold request_refs in Hh. cbn in Hh. destruct group as [g |]; [| by exists s4].
    destruct (release_twice s4 KGroup g ((KEvent, ev) :: roots) Hh) as (s5 & Er & El & Hm & O5 & Hh5 & Bk5); [right; by apply Hg |].
    exists s5. split; [| split; [done |]; split; [intros q; by rewrite O5 | done]].
    unfold xrp_release_buffer_group, release_group_tested. rewrite object_tested. cbn in Hgb. rewrite O4. destruct (object s g) as [[] |]; try done. cbn [mbind option_bind].
    rewrite El. done. }
  cbn [mbind option_bind]. rewrite O5, Oev. cbn [mbind option_bind].
  (* event *)
  assert (load32 (answer_cmd cmd (back m' w2)) (cmd_flags 0) = load32 w2 c) as ->.
  { unfold load32, cmd_flags. rewrite answer_load by lia. by rewrite Z.add_0_r. }
  rewrite (an_status _ _ _ _ _ Han).
  replace (if negb (bool_decide (hr_status hr = XRP_STATUS_SUCCESS)) then XRP_STATUS_FAILURE else XRP_STATUS_SUCCESS)
    with (status_of (hr_status hr)) by (by destruct (hr_status hr)).
  set (s6 := set_object s5 ev _).
  assert (object s6 ev = Some (Event dd (status_of (hr_status hr)))) as O6 by (eapply object_set_eq; by rewrite O5).
  assert (holds [] (s_st s6) ((KEvent, ev) :: roots)) as Hh6.
  { destruct (object_cell s5 ev (Event dd st0)) as (ce & Hce & Ece); [by rewrite O5 |].
    apply (holds_set [] (s_st s5) [] [] ((KEvent, ev) :: roots) ev ce); rewrite ?Ece; try done.
    - apply not_elem_of_nil.
    - by intros e ?%not_elem_of_nil. }
  destruct (release_twice s6 KEvent ev roots Hh6 Hev) as (s7 & Er & El & Hm7 & O7 & _ & Bk7).
  exists s7. split; [unfold xrp_release_event, release_event_tested; rewrite object_tested; rewrite O6; cbn [mbind option_bind]; rewrite El; exact Er |].
  split; [apply (same_memory_platform P kz s6 s7 Hm7), (same_memory_platform P kz s5 s6), (same_memory_platform P kz s4 s5 Hm5), Ha4; done |].
  split; [| split; [rewrite O7; exact O6 |]; split].
  - rewrite (proj2 Hm7). change (s_mem s6) with (s_mem s5). rewrite (proj2 Hm5), Em4, Em3, Em2, Em1. done.
  - intros q Hq. rewrite O7. unfold s6. rewrite object_set_ne by done. apply O5.
  - rewrite Bk7. change (books s6) with (books s5). by rewrite Bk5, (quiet_books _ _ Q4).
Qed.

(** ** A whole round *)

Definition host_item_ok (it : item) : Prop :=
  0 ≤ it_size it < 2 ^ 32 ∧ (it_alloc it = None → private P (it_ptr it) (it_size it)).

Lemma room_mem s m a n : on_platform s → room P s a n → room P (set_mem s m) a n.
Proof.
  intros Hs. destruct a as [[p start] |]; [| done]. intros (bs & Hb & Hn). eexists.
  split; [apply (blocks_mem P s m p start bs Hs Hb) |]. by rewrite length_load_bytes.
Qed.

Lemma pending_of_placed m s s' items addrs user :
  (∀ a n, room P s a n → room P s' a n) → Forall host_item_ok items → placed_items P m s items addrs user →
  Forall3 (pending_item s') items addrs user.
Proof.
  intros Hr Hi. revert addrs user. induction Hi as [| it items [Hz Hp] Hi IH]; intros [| addr addrs] [| u user] (Ha & Hu & Hpl);
    try done; [constructor |].
  constructor.
  - destruct (item_room m s it addr u (Hpl 0%nat it addr u eq_refl eq_refl eq_refl)) as (p & Ep & Hrp).
    destruct (Hpl 0%nat it addr u eq_refl eq_refl eq_refl) as [Hdv _].
    unfold pending_item, item_block in *. destruct (it_alloc it) as [q |]; [by apply (Hdv q) |]. subst u.
    split; [by apply Hp |]. split; [lia |]. exists p. split; [done |]. by apply Hr.
  - apply IH. split_and!; [by injection Ha | by injection Hu |]. intros k. apply (Hpl (S k)).
Qed.

Lemma carries_same s s' m cmd ns in_data out_size items addrs a_in a_out a_buf user :
  blocks s' = blocks s → carries P s m cmd ns in_data out_size items addrs a_in a_out a_buf user →
  carries P s' m cmd ns in_data out_size items addrs a_in a_out a_buf user.
Proof.
  intros E [H1 H2 H3 H4 H5 (H6 & H6' & H6'') H7 H8]. assert (keeps_blocks P None s s') as Hk by (intros p _ _; by rewrite E).
  split; try done.
  - by eapply input_stored_keeps.
  - by eapply output_stored_keeps.
  - by eapply buffers_stored_keeps.
  - split_and!; try done. intros k it addr u Ei Ea Eu. eapply placed_item_keeps; [exact Hk | by apply (H6'' k) | done].
  - intros it p. rewrite E. apply H8.
Qed.

(** Rooms of the parts of a command, and which of them it has. *)
Lemma carries_rooms s m cmd ns in_data out_size items addrs a_in a_out a_buf user :
  carries P s m cmd ns in_data out_size items addrs a_in a_out a_buf user → 0 ≤ out_size →
  room P s a_in 0 ∧ room P s a_out (Z.to_nat out_size) ∧ room P s a_buf (12 * length items) ∧
  (XRP_DSP_CMD_INLINE_DATA_SIZE <? Z.of_nat (length in_data)) = bool_decide (is_Some a_in) ∧
  (XRP_DSP_CMD_INLINE_DATA_SIZE <? out_size) = bool_decide (is_Some a_out) ∧
  (XRP_DSP_CMD_INLINE_BUFFER_COUNT <? Z.of_nat (length items)) = bool_decide (is_Some a_buf).
Proof.
  intros [_ _ [_ H1] [_ H2] [_ H3] (Hla & _) _ _] Hz.
  assert (∀ (x y : Z) (a : option (Z * Z)), match a with Some _ => x < y | None => y ≤ x end → (x <? y) = bool_decide (is_Some a)) as Hb.
  { intros x y [a |] Hx; [rewrite bool_decide_eq_true_2 by (by eexists); lia |].
    rewrite bool_decide_eq_false_2 by (by intros [? ?]). lia. }
  split_and!.
  - destruct a_in as [[p st] |]; [| done]. destruct H1 as (_ & _ & rest & H1). eexists. split; [exact H1 | lia].
  - destruct a_out as [[p st] |]; [| done]. destruct H2 as (_ & _ & bs & H2 & ?). eexists. split; [exact H2 | lia].
  - destruct a_buf as [[p st] |]; [| done]. destruct H3 as (_ & _ & rest & H3). eexists. split; [exact H3 |].
    rewrite length_app, length_descriptors by done. lia.
  - apply Hb. destruct a_in as [[p st] |]; apply H1.
  - apply Hb. destruct a_out as [[p st] |]; apply H2.
  - apply Hb. destruct a_buf as [[p st] |]; apply H3.
Qed.

(** What a round does: the handler is called in memory [w], and its results
    are brought back. *)
Record round (m0 : mem) (s s' : sim) (h : option (Hd * Z)) (ns : option (list Z)) (in_data : list Z) (out_data out_size : Z) (items : list item)
    (addrs : list Z) (a_in a_out a_buf : option (Z * Z)) (dd ev : nat) (w w2 m' : mem) (hr : handler_result) : Prop := {
  ro_understood : understood w ns in_data out_size items addrs a_in a_out a_buf;
  ro_call : hr = call_of h w in_data out_size items addrs a_in a_out;
  ro_answered : answered w w2 hr items (area a_buf (cmd_buffer_data c));
  ro_length : length (g_buffer (hr_group hr)) = length items;
  ro_view : ∃ cmd, published (s_mem s) cmd m' ∧ w = view m';
  ro_event : object s' ev = Some (Event dd (status_of (hr_status hr)));
  ro_mem : s_mem s' = returned w2 (store_bytes (back m' w2) out_data
             (load_bytes w2 (area a_out (cmd_out_data c)) (Z.to_nat out_size))) items addrs (g_buffer (hr_group hr));
}.

Lemma process_spec s m0 k d0 rqs h ns cmd in_data out_data out_size group recs items addrs a_in a_out a_buf user ev dd st0 roots :
  let rq := request_for cmd in_data out_data out_size group items a_in a_out a_buf user ev in
  on_platform s → sim_holds [] s roots [] → object s d0 = Some (Device i (rq :: rqs)) →
  carries P s m0 cmd ns in_data out_size items addrs a_in a_out a_buf user →
  named ns h → well_behaved h → Z.of_nat (length items) ≤ MAX_STACK_BUFFERS ∨ malloc = true →
  0 ≤ out_size → private P out_data out_size → Forall host_item_ok items →
  group_buffers s group = Some recs → Forall2 (is_item P s) recs items →
  (∀ g, group = Some g → (KGroup, g) ∈ roots) → (KEvent, ev) ∈ roots → object s ev = Some (Event dd st0) →
  ∃ s' w w2 m' hr, xrp_queue_process (replicate k id ++ [dsp_turn]) s d0 = Some (Some s') ∧ on_platform s' ∧
    round m0 s s' h ns in_data out_data out_size items addrs a_in a_out a_buf dd ev w w2 m' hr ∧
    (∀ q, q ≠ ev → q ≠ d0 → object s' q = object s q) ∧ object s' d0 = Some (Device i rqs) ∧ books s' = books s.
Proof.
  intros rq Hs Hh Od Hca Hns Hwb Hmal Hz Hpo Hits Hgb Hrecs Hg Hev Oev.
  assert (d0 ≠ ev) as Hde by (intros ->; congruence).
  assert (∀ g, group = Some g → d0 ≠ g) as Hdg.
  { intros g -> ->. cbn in Hgb. rewrite Od in Hgb. done. }
  destruct (dequeue_holds s roots d0 i rq rqs Hh Od) as [Hh1 _].
  unfold xrp_queue_process. rewrite Od. cbn [mbind option_bind]. set (s1 := set_object s d0 (Device i rqs)) in *.
  assert (same_memory s s1) as Hm1 by done. pose proof (same_memory_platform P kz s s1 Hm1 Hs) as Hs1.
  pose proof (carries_same s s1 _ _ _ _ _ _ _ _ _ _ _ (same_memory_blocks P s s1 Hm1) Hca) as Hca1.
  destruct (publish_effect (s_mem s1) cmd) as (m' & Epub & Hpub).
  pose proof (command_understood s1 m0 cmd m' ns in_data out_size items addrs a_in a_out a_buf user Hs1 Hca1 Hpub) as Hun.
  destruct (carries_rooms s1 _ _ _ _ _ _ _ _ _ _ _ Hca1 Hz) as (Ri & Ro & Rb & Bi & Bo & Bb).
  pose proof (ca_items _ _ _ _ _ _ _ _ _ _ _ _ _ Hca1) as Hpl. pose proof Hpl as (Hla & _).
  destruct (dsp_answers (view m') ns h in_data out_size items addrs a_in a_out a_buf Hun Hns Hwb Hla Hmal)
    as (w2 & Hdis & Hlg & Han).
  { cbn zeta.
    destruct (areas_apart s1 None a_buf 0 48 4 (12 * length items)) as [? | ?]; try done.
    - intros ->. rewrite bool_decide_eq_false_2 in Bb by (by intros [? ?]). unfold XRP_DSP_CMD_INLINE_BUFFER_COUNT in Bb. lia.
    - intros _ _. lia.
    - left. rewrite area_none in *. unfold cmd_buffer_data. lia.
    - right. rewrite area_none in *. unfold cmd_buffer_data. lia. }
  set (hr := call_of h (view m') in_data out_size items addrs a_in a_out) in *.
  rewrite (run_effect s1 k rq ns in_data out_size items addrs a_in a_out a_buf m' w2 hr Hs1 Epub Hun Hdis Han).
  cbn [mbind option_bind]. set (s2 := set_mem s1 (back m' w2)).
  assert (answer s2 i rq = Some (answer_cmd cmd (back m' w2))) as ->.
  { unfold answer. destruct Hs1 as [st (_ & Ed & _)]. change (s_gl s2) with (s_gl s1). rewrite Ed. done. }
  cbn [mbind option_bind].
  destruct (finish_spec s2 cmd m' w2 (view m') hr in_data out_data out_size group recs items addrs a_in a_out a_buf user ev dd st0 roots)
    as (s' & Ef & Hs' & Em & Oe & Oq & Bk); try done.
  - by apply room_mem.
  - by apply room_mem.
  - by apply room_mem.
  - apply Hca.
  - eapply pending_of_placed; [| done | exact Hpl]. intros a n. by apply room_mem.
  - unfold group_buffers in *. destruct group as [g |]; [| done]. change (object s2 g) with (object s1 g). unfold s1.
    rewrite object_set_ne; [done |]. intros ->. by apply (Hdg d0).
  - eapply Forall2_impl; [| exact Hrecs]. intros [b fl] it (Ef & mf & Eo). split; [done |]. exists mf.
    cbn [fst] in *. change (object s2 b) with (object s1 b). unfold s1. rewrite object_set_ne; [done |]. intros ->. congruence.
  - apply Hh1.
  - change (object s2 ev) with (object s1 ev). unfold s1. by rewrite object_set_ne.
  - exists s', (view m'), w2, m', hr. fold rq in Ef. rewrite Ef. split; [done |]. split; [done |]. split; [split; try done; by exists cmd |].
    split_and!; [| | exact Bk].
    + intros q Hq Hq'. rewrite Oq by done. change (object s2 q) with (object s1 q). unfold s1. by rewrite object_set_ne.
    + rewrite Oq by done. change (object s2 d0) with (object s1 d0). unfold s1. by eapply object_set_eq.
Qed.
End run.
