(* ===== verification/SimCommand.v ===== *)
(** * Commands on the simulator, from end to end

    [xrp_run_command_sync] (xrp-linux-sim/xrp_linux_sim.c) on a device whose
    DSP answers with [xrp_device_dispatch] (xrp-dsp/xrp_dsp.c): it returns,
    the handler gets the data and the buffers the program passed, the program
    gets what the handler left, and nothing else of the program's memory
    changes. *)

From stdpp Require Import base tactics list gmap fin_maps numbers.
From S2P Require Import Prelude Alloc PrivateAlloc Mem Interface HwSimple DspNs DspBuffer DspCmd RefHeap.
From S2P Require Import SimMem SimLib SimRefs SimClient SimBlocks SimEnqueue SimRun.

(** ** Buffers brought back *)

(** Host buffers that do not overlap. *)
Definition apart_items (it it' : item) : Prop :=
  it_alloc it = None → it_alloc it' = None → it_ptr it + it_size it ≤ it_ptr it' ∨ it_ptr it' + it_size it' ≤ it_ptr it.
(** An address no host buffer of the list covers. *)
Definition off_items (items : list item) (x : Z) : Prop :=
  ∀ it, it ∈ items → it_alloc it = None → x < it_ptr it ∨ it_ptr it + it_size it ≤ x.

Lemma off_items_cons it items x : off_items (it :: items) x → off_items items x.
Proof. intros H it' Hin. apply H. by right. Qed.

Lemma returned_off w2 m items addrs bs x :
  Forall (λ it, 0 ≤ it_size it) items → off_items items x → returned w2 m items addrs bs x = m x.
Proof.
  intros Hz. revert m addrs bs. induction Hz as [| it items Hz Hzs IH]; intros m [| addr addrs] [| b bs] Hx; try done.
  cbn [returned]. rewrite IH by (by eapply off_items_cons). unfold comes_back.
  destruct (it_alloc it) eqn:Ea; [done |]. case_match; [| done]. apply store_bytes_out.
  rewrite length_load_bytes, Z2Nat.id by done. apply Hx; [by left | done].
Qed.

Lemma returned_contents w2 m items addrs bs k it addr b :
  Forall (λ it, 0 ≤ it_size it) items → ForallOrdPairs apart_items items → it_alloc it = None →
  items !! k = Some it → addrs !! k = Some addr → bs !! k = Some b →
  contents (returned w2 m items addrs bs) it =
  if comes_back it b then load_bytes w2 addr (Z.to_nat (it_size it)) else contents m it.
Proof.
  intros Hz Hap. revert m k addrs bs. induction Hap as [| it0 items Hap0 Hap IH]; intros m k addrs bs Hh Hi Ha Hb; [done |].
  apply list.Forall_cons in Hz as [Hz0 Hz]. destruct addrs as [| addr0 addrs], bs as [| b0 bs]; try done.
  cbn [returned]. destruct k as [| k]; cbn in Hi, Ha, Hb.
  - injection Hi as ->. injection Ha as ->. injection Hb as ->. unfold contents.
    rewrite (load_bytes_ext _ (if comes_back it b then store_bytes m (it_ptr it) (load_bytes w2 addr (Z.to_nat (it_size it))) else m)).
    + destruct (comes_back it b); [| done].
      rewrite <- (length_load_bytes w2 addr (Z.to_nat (it_size it))) at 2. apply load_store_same.
    + intros x Hx. apply returned_off; [done |]. intros it' Hin Ha'.
      pose proof (proj1 (list.Forall_forall _ _) Hap0 it' Hin Hh Ha'). lia.
  - rewrite (IH Hz _ k addrs bs Hh Hi Ha Hb). destruct (comes_back it b); [done |]. unfold comes_back.
    destruct (it_alloc it0) eqn:Ea0; [done |]. case_match; [| done]. apply load_store_disjoint.
    pose proof (list_elem_of_lookup_2 _ _ _ Hi) as Hin. pose proof (proj1 (list.Forall_forall _ _) Hz it Hin) as Hzi.
    rewrite length_load_bytes, !Z2Nat.id by done.
    pose proof (proj1 (list.Forall_forall _ _) Hap0 it Hin Ea0 Hh). lia.
Qed.

Lemma nodup_omap_lookup (us : list (option Z)) k k' p :
  NoDup (omap id us) → us !! k = Some (Some p) → us !! k' = Some (Some p) → k = k'.
Proof.
  revert k k'. induction us as [| u us IH]; intros k k' Hn Ek Ek'; [done |].
  apply nodup_option_inv in Hn as [Hu Hn].
  assert (∀ j, us !! j = Some (Some p) → p ∈ omap id us) as Hin.
  { intros j Ej. apply list_elem_of_omap. exists (Some p). split; [by eapply list_elem_of_lookup_2 | done]. }
  destruct k as [| k], k' as [| k']; cbn in Ek, Ek'; [done | | | f_equal; by apply IH].
  - injection Ek as ->. exfalso. apply (Hu p eq_refl). by eapply Hin.
  - injection Ek' as ->. exfalso. apply (Hu p eq_refl). by eapply Hin.
Qed.

Section command.
Context `{A : Arch} (P : platform) (Hok : platform_ok P) (kz : callocs) (Hkz : kz_ok kz).
Abbreviation rgns := (pf_regions P).
Abbreviation rp := (pf_pool P).
Abbreviation i := (pf_dev P).
Abbreviation c := (comm_base (pf_desc P)).
Abbreviation blocks := (SimBlocks.blocks P).
Abbreviation on_platform := (SimBlocks.on_platform (kz := kz) P).

(** What the handler left at the output and in the buffers is still there
    when the answer is complete: the DSP library writes to the flags and the
    descriptors only. *)
Lemma answer_kept s m0 cmd ns in_data out_size items addrs a_in a_out a_buf user w w2 hr a (n : nat) x :
  on_platform s → carries P s m0 cmd ns in_data out_size items addrs a_in a_out a_buf user → 0 ≤ out_size →
  answered P w w2 hr items (area a_buf (cmd_buffer_data c)) →
  room P s a n → (∀ p, alloc_ptr a = Some p → alloc_ptr a_buf ≠ Some p) → (a = None → (n ≤ 16)%nat) →
  area a (cmd_out_data c) ≤ x < area a (cmd_out_data c) + Z.of_nat n → w2 x = hr_mem hr x.
Proof.
  intros Hs Hca Hz Han Hr Hne Hn Hx. destruct (carries_rooms P s _ _ _ _ _ _ _ _ _ _ _ Hca Hz) as (_ & _ & Rb & _ & _ & Bb).
  assert (a_buf = None → (length items ≤ 1)%nat) as Hb1.
  { intros ->. rewrite bool_decide_eq_false_2 in Bb by (by intros [? ?]). unfold XRP_DSP_CMD_INLINE_BUFFER_COUNT in Bb. lia. }
  unfold cmd_out_data, cmd_buffer_data in *. apply (an_mem _ _ _ _ _ _ Han).
  - destruct (areas_apart P Hok kz s a None 32 0 n 4) as [? | ?]; rewrite ?area_none in *; try done;
      try (intros Ea; specialize (Hn Ea)); lia.
  - destruct (areas_apart P Hok kz s a a_buf 32 48 n (12 * length items)) as [? | ?]; try done; try lia; intros Ea.
    + specialize (Hn Ea). lia.
    + specialize (Hb1 Ea). lia.
    + specialize (Hn Ea). lia.
Qed.

Lemma item_block_fresh s m0 cmd ns in_data out_size items addrs a_in a_out a_buf user k it addr u p :
  carries P s m0 cmd ns in_data out_size items addrs a_in a_out a_buf user →
  items !! k = Some it → addrs !! k = Some addr → user !! k = Some u → item_block it u = Some p → alloc_ptr a_buf ≠ Some p.
Proof.
  intros Hca Ei Ea Eu Ep Eb. pose proof (ca_nodup _ _ _ _ _ _ _ _ _ _ _ _ _ Hca) as Hnd. cbn [app] in Hnd.
  apply nodup_option_inv in Hnd as [_ Hnd]. apply nodup_option_inv in Hnd as [_ Hnd].
  apply nodup_option_inv in Hnd as [Hb _]. specialize (Hb p Eb). unfold item_block in Ep.
  destruct (it_alloc it) as [p' |] eqn:Eal.
  - injection Ep as ->. destruct (ca_apart _ _ _ _ _ _ _ _ _ _ _ _ _ Hca it p (list_elem_of_lookup_2 _ _ _ Ei) Eal) as [Hn _].
    apply Hn. cbn [app]. apply in_option. right. apply in_option. right. apply in_option. by left.
  - subst u. apply Hb. apply list_elem_of_omap. exists (Some p). split; [| done]. by eapply list_elem_of_lookup_2.
Qed.

(** ** What a command gets done *)

Context {Hd : Type}.
Context (run : Hd → Z → cmd_args → mem → DspBuffer.xrp_buffer_group → handler_result).
Context (run_command : cmd_args → mem → DspBuffer.xrp_buffer_group → option xrp_status * mem * DspBuffer.xrp_buffer_group).

(** The handler is called with [args] in the DSP's memory [w] and leaves
    [hr]; [m0] and [m1] are the program's memory before and after, [addrs]
    where the DSP has the buffers. *)
Record delivered (m0 m1 : mem) (h : option (Hd * Z)) (in_data : list Z) (out_data out_size : Z) (items : list item)
    (addrs : list Z) (args : cmd_args) (w : mem) (hr : handler_result) : Prop := {
  de_call : hr = run_handler run run_command h args w (mk_group 0 (init_buffer <$> zip_with descriptor_of items addrs));
  de_addrs : length addrs = length items;
  de_in_size : DspCmd.in_data_size args = Z.of_nat (length in_data);
  de_in : load_bytes w (DspCmd.in_data args) (length in_data) = in_data;
  de_out_size : DspCmd.out_data_size args = out_size;
  de_items : ∀ k it addr, items !! k = Some it → addrs !! k = Some addr →
    load_bytes w addr (Z.to_nat (it_size it)) = contents m0 it;
  de_out : load_bytes m1 out_data (Z.to_nat out_size) = load_bytes (hr_mem hr) (DspCmd.out_data args) (Z.to_nat out_size);
  de_items_out : ∀ k it addr b, items !! k = Some it → addrs !! k = Some addr → g_buffer (hr_group hr) !! k = Some b →
    contents m1 it =
    if bool_decide (is_Some (it_alloc it)) || comes_back it b
    then load_bytes (hr_mem hr) addr (Z.to_nat (it_size it)) else contents m0 it;
  de_rest : ∀ x, 0 ≤ x < 2 ^ long_bits → (∀ r, r ∈ rgns → ¬ in_virt r x) → off_items items x →
    x < out_data ∨ out_data + out_size ≤ x → m1 x = m0 x;
  de_data_apart :
    DspCmd.in_data args + Z.of_nat (length in_data) ≤ DspCmd.out_data args ∨
    DspCmd.out_data args + out_size ≤ DspCmd.in_data args;
  de_in_pool : ∀ k it addr, items !! k = Some it → addrs !! k = Some addr → in_pool P addr (it_size it);
  de_items_apart : ∀ k k' it it' addr addr',
    k ≠ k' → items !! k = Some it → addrs !! k = Some addr → items !! k' = Some it' → addrs !! k' = Some addr' →
    (∀ p, it_alloc it = Some p → it_alloc it' ≠ Some p) → addr + it_size it ≤ addr' ∨ addr' + it_size it' ≤ addr;
}.

(** The output area does not overlap a host buffer. *)
Definition out_apart (items : list item) (out_data out_size : Z) : Prop :=
  ∀ it, it ∈ items → it_alloc it = None → it_ptr it + it_size it ≤ out_data ∨ out_data + out_size ≤ it_ptr it.

Context (dm : mem).

(** Memory of the program that is not shared. *)
Definition own (x : Z) : Prop := 0 ≤ x < 2 ^ long_bits ∧ ∀ r, r ∈ rgns → ¬ in_virt r x.

Lemma private_own a n x : private P a n → a ≤ x < a + n → own x.
Proof.
  intros (? & ? & Hr) Hx. split; [lia |]. intros r Hin. specialize (Hr r Hin). unfold in_virt. lia.
Qed.

Lemma own_not_pool x : own x → ¬ pool_virt P x.
Proof.
  intros [_ Hx] Hp. destruct Hok as [_ _ (Hin & ? & ?) _ _]. apply (Hx rp Hin). unfold pool_virt, in_virt, virt in *. lia.
Qed.

Section results.
Context (s s' : sim) (m0 : mem) (h : option (Hd * Z)) (ns : option (list Z)) (in_data : list Z) (out_data out_size : Z).
Context (items : list item) (addrs : list Z) (a_in a_out a_buf : option (Z * Z)) (user : list (option Z)).
Context (dd ev : nat) (cmd w w2 m' : mem) (hr : handler_result).
Context (Hs : on_platform s) (Hm0 : ∀ x, ¬ pool_virt P x → s_mem s x = m0 x).
Context (Hca : carries P s m0 cmd ns in_data out_size items addrs a_in a_out a_buf user).
Context (Hro : round P dm run run_command m0 s s' h ns in_data out_data out_size items addrs a_in a_out a_buf dd ev w w2 m' hr).
Context (Hz : 0 ≤ out_size) (Hpo : private P out_data out_size) (Hits : Forall (host_item_ok P) items).
Context (Hap : ForallOrdPairs apart_items items) (Hoa : out_apart items out_data out_size).
Abbreviation out_at := (area a_out (cmd_out_data c)).
Abbreviation back := (host_view (Some <$> rgns) m' w2).

Lemma sizes_nonneg : Forall (λ it, 0 ≤ it_size it) items.
Proof. eapply Forall_impl; [| exact Hits]. intros it [? _]. lia. Qed.

Lemma back_own x : own x → back x = m0 x.
Proof.
  intros Hx. destruct (ro_view _ _ _ _ _ _ _ _ _ _ _ _ _ _ _ _ _ _ _ _ _ _ _ Hro) as (cmd' & Hpb & _).
  rewrite host_view_out by (apply Hok || apply Hx).
  rewrite (pb_private _ _ _ _ Hpb) by apply Hx. by apply Hm0, own_not_pool.
Qed.

Lemma final_memory :
  s_mem s' = returned w2 (store_bytes back out_data (load_bytes w2 out_at (Z.to_nat out_size))) items addrs (g_buffer (hr_group hr)).
Proof. apply (ro_mem _ _ _ _ _ _ _ _ _ _ _ _ _ _ _ _ _ _ _ _ _ _ _ Hro). Qed.

Lemma rest_unchanged x : own x → off_items items x → x < out_data ∨ out_data + out_size ≤ x → s_mem s' x = m0 x.
Proof.
  intros Hx Hoff Ho. rewrite final_memory, returned_off by (done || apply sizes_nonneg).
  rewrite store_bytes_out by (rewrite length_load_bytes, Z2Nat.id; lia). by apply back_own.
Qed.

Lemma output_back : load_bytes (s_mem s') out_data (Z.to_nat out_size) = load_bytes (hr_mem hr) out_at (Z.to_nat out_size).
Proof.
  rewrite final_memory.
  transitivity (load_bytes (store_bytes back out_data (load_bytes w2 out_at (Z.to_nat out_size))) out_data (Z.to_nat out_size)).
  { apply load_bytes_ext. intros x Hx. apply returned_off; [apply sizes_nonneg |]. intros it Hin Ha.
    destruct (Hoa it Hin Ha); lia. }
  transitivity (load_bytes w2 out_at (Z.to_nat out_size)).
  { rewrite <- (length_load_bytes w2 out_at (Z.to_nat out_size)) at 2. apply load_store_same. }
  destruct (carries_rooms P s _ _ _ _ _ _ _ _ _ _ _ Hca Hz) as (_ & Ro & _ & _ & Bo & _).
  apply load_bytes_ext. intros x Hx.
  apply (answer_kept s m0 cmd ns in_data out_size items addrs a_in a_out a_buf user w w2 hr a_out (Z.to_nat out_size)); try done.
  - apply (ro_answered _ _ _ _ _ _ _ _ _ _ _ _ _ _ _ _ _ _ _ _ _ _ _ Hro).
  - intros p Ep Eb. pose proof (ca_nodup _ _ _ _ _ _ _ _ _ _ _ _ _ Hca) as Hnd. cbn [app] in Hnd.
    apply nodup_option_inv in Hnd as [_ Hnd]. apply nodup_option_inv in Hnd as [Hno _]. apply (Hno p Ep), in_option. by left.
  - intros E. rewrite E, bool_decide_eq_false_2 in Bo by (by intros [? ?]). unfold XRP_DSP_CMD_INLINE_DATA_SIZE in Bo. lia.
Qed.

(** Where the DSP has a buffer, and what it finds there. *)
Lemma item_placed k it addr :
  items !! k = Some it → addrs !! k = Some addr →
  ∃ p bs, (∀ q, it_alloc it = Some q → it_ptr it = virt rp addr) ∧ alloc_ptr a_buf ≠ Some p ∧
    blocks s !! p = Some (addr, bs) ∧ it_size it ≤ Z.of_nat (length bs) ∧ take (Z.to_nat (it_size it)) bs = contents m0 it.
Proof.
  intros Ei Ea. pose proof (ca_items _ _ _ _ _ _ _ _ _ _ _ _ _ Hca) as (_ & Hl & Hpl).
  destruct (lookup_lt_is_Some_2 user k) as [u Eu]; [rewrite Hl; by eapply lookup_lt_Some |].
  destruct (Hpl k it addr u Ei Ea Eu) as (Hdv & p & bs & Ep & Hb & Hlen & Ht). exists p, bs. split_and!; try done.
  - intros q Eq. by destruct (Hdv q Eq).
  - by eapply item_block_fresh.
Qed.

Lemma item_seen k it addr :
  items !! k = Some it → addrs !! k = Some addr → load_bytes w addr (Z.to_nat (it_size it)) = contents m0 it.
Proof.
  intros Ei Ea. destruct (item_placed k it addr Ei Ea) as (p & bs & _ & _ & Hb & Hl & <-).
  destruct (ro_view _ _ _ _ _ _ _ _ _ _ _ _ _ _ _ _ _ _ _ _ _ _ _ Hro) as (cmd' & Hpb & ->).
  rewrite <- (take_drop (Z.to_nat (it_size it)) bs) in Hb.
  rewrite <- (block_view P Hok kz dm s cmd' m' p addr _ _ Hs Hpb Hb). f_equal. rewrite length_take. lia.
Qed.

Lemma item_kept k it addr :
  items !! k = Some it → addrs !! k = Some addr →
  load_bytes w2 addr (Z.to_nat (it_size it)) = load_bytes (hr_mem hr) addr (Z.to_nat (it_size it)).
Proof.
  intros Ei Ea. destruct (item_placed k it addr Ei Ea) as (p & bs & _ & Hne & Hb & Hl & _).
  apply load_bytes_ext. intros x Hx.
  apply (answer_kept s m0 cmd ns in_data out_size items addrs a_in a_out a_buf user w w2 hr (Some (p, addr)) (Z.to_nat (it_size it))); try done.
  - apply (ro_answered _ _ _ _ _ _ _ _ _ _ _ _ _ _ _ _ _ _ _ _ _ _ _ Hro).
  - exists bs. split; [done | lia].
  - by intros q [= <-].
Qed.

Lemma item_back k it addr b :
  items !! k = Some it → addrs !! k = Some addr → g_buffer (hr_group hr) !! k = Some b →
  contents (s_mem s') it =
  if bool_decide (is_Some (it_alloc it)) || comes_back it b
  then load_bytes (hr_mem hr) addr (Z.to_nat (it_size it)) else contents m0 it.
Proof.
  intros Ei Ea Eb. rewrite <- (item_kept k it addr Ei Ea), final_memory.
  pose proof (list_elem_of_lookup_2 _ _ _ Ei) as Hin. pose proof (proj1 (list.Forall_forall _ _) Hits it Hin) as [Hzi Hpi].
  destruct (it_alloc it) as [p0 |] eqn:Eal.
  - rewrite bool_decide_eq_true_2 by (by eexists). cbn [orb].
    destruct (item_placed k it addr Ei Ea) as (p & bs & Hv & _ & Hb & Hl & _).
    destruct (block_bytes P s p addr bs Hs Hb) as (_ & _ & Hp1 & Hp2). specialize (Hv p0 Eal).
    assert (in_pool P addr (Z.of_nat (Z.to_nat (it_size it)))) as Hp by (unfold in_pool; lia).
    rewrite <- (back_pool P Hok m' w2 addr _ Hp). unfold contents. rewrite Hv. apply load_bytes_ext. intros x Hx.
    assert (pool_virt P x) as Hpv by (unfold in_pool, pool_virt, virt in *; lia).
    rewrite returned_off, store_bytes_out; [done | | apply sizes_nonneg |].
    + rewrite length_load_bytes, Z2Nat.id by done. destruct (Z_lt_ge_dec x out_data); [by left |].
      destruct (Z_le_gt_dec (out_data + out_size) x); [by right |]. exfalso.
      apply (own_not_pool x); [| done]. eapply private_own; [exact Hpo | lia].
    + intros it' Hin' Hn'. destruct (proj1 (list.Forall_forall _ _) Hits it' Hin') as [_ Hpr]. specialize (Hpr Hn').
      destruct (Z_lt_ge_dec x (it_ptr it')); [by left |]. destruct (Z_le_gt_dec (it_ptr it' + it_size it') x); [by right |].
      exfalso. apply (own_not_pool x); [| done]. eapply private_own; [exact Hpr | lia].
  - rewrite bool_decide_eq_false_2 by (by intros [? ?]). cbn [orb].
    rewrite (returned_contents _ _ _ _ _ k it addr b) by (done || apply sizes_nonneg).
    destruct (comes_back it b); [done |]. apply load_bytes_ext. intros x Hx.
    destruct (Hoa it Hin Eal); rewrite store_bytes_out by (rewrite length_load_bytes, Z2Nat.id; lia);
      apply back_own; (eapply private_own; [by apply Hpi | lia]).
Qed.

(** Input and output are apart, and so are the buffers. *)
Lemma data_areas_apart :
  area a_in (cmd_in_data c) + Z.of_nat (length in_data) ≤ out_at ∨ out_at + out_size ≤ area a_in (cmd_in_data c).
Proof.
  destruct (carries_rooms P s _ _ _ _ _ _ _ _ _ _ _ Hca Hz) as (_ & Ro & _ & Bi & Bo & _).
  pose proof (ca_nodup _ _ _ _ _ _ _ _ _ _ _ _ _ Hca) as Hnd. cbn [app] in Hnd. apply nodup_option_inv in Hnd as [Hni _].
  assert (room P s a_in (length in_data)) as Ri.
  { destruct (ca_in _ _ _ _ _ _ _ _ _ _ _ _ _ Hca) as [_ Ha]. destruct a_in as [[p start] |]; [| done].
    destruct Ha as (_ & _ & rest & Hb). eexists. split; [exact Hb |]. rewrite length_app. lia. }
  unfold XRP_DSP_CMD_INLINE_DATA_SIZE in *.
  assert (a_in = None → Z.of_nat (length in_data) ≤ 16) as Hi.
  { intros E. rewrite E, bool_decide_eq_false_2 in Bi by (by intros [? ?]). lia. }
  assert (a_out = None → out_size ≤ 16) as Ho.
  { intros E. rewrite E, bool_decide_eq_false_2 in Bo by (by intros [? ?]). lia. }
  destruct (areas_apart P Hok kz s a_in a_out 16 32 (length in_data) (Z.to_nat out_size)) as [? | ?]; try done.
  - intros p Ei Eo. apply (Hni p Ei), in_option. by left.
  - intros E. specialize (Hi E). lia.
  - intros E. specialize (Ho E). lia.
  - intros E _. specialize (Hi E). lia.
  - by left.
  - right. rewrite Z2Nat.id in * by done. done.
Qed.

Lemma item_in_pool k it addr : items !! k = Some it → addrs !! k = Some addr → in_pool P addr (it_size it).
Proof.
  intros Ei Ea. destruct (item_placed k it addr Ei Ea) as (p & bs & _ & _ & Hb & Hl & _).
  destruct (block_bytes P s p addr bs Hs Hb) as (_ & _ & ? & ?). unfold in_pool. lia.
Qed.

Lemma items_apart k k' it it' addr addr' :
  k ≠ k' → items !! k = Some it → addrs !! k = Some addr → items !! k' = Some it' → addrs !! k' = Some addr' →
  (∀ p, it_alloc it = Some p → it_alloc it' ≠ Some p) → addr + it_size it ≤ addr' ∨ addr' + it_size it' ≤ addr.
Proof.
  intros Hk Ei Ea Ei' Ea' Hne. pose proof (ca_items _ _ _ _ _ _ _ _ _ _ _ _ _ Hca) as (_ & Hl & Hpl).
  destruct (lookup_lt_is_Some_2 user k) as [u Eu]; [rewrite Hl; by eapply lookup_lt_Some |].
  destruct (lookup_lt_is_Some_2 user k') as [u' Eu']; [rewrite Hl; by eapply lookup_lt_Some |].
  destruct (Hpl k it addr u Ei Ea Eu) as (Hdv & p & bs & Ep & Hb & Hlen & _).
  destruct (Hpl k' it' addr' u' Ei' Ea' Eu') as (Hdv' & p' & bs' & Ep' & Hb' & Hlen' & _).
  destruct (blocks_apart P s p p' addr bs addr' bs' Hs Hb Hb') as [? | ?]; [| lia | lia].
  intros ->. unfold item_block in Ep, Ep'.
  pose proof (ca_nodup _ _ _ _ _ _ _ _ _ _ _ _ _ Hca) as Hnd. cbn [app] in Hnd.
  do 3 apply nodup_option_inv in Hnd as [_ Hnd].
  assert (∀ j it0, items !! j = Some it0 → it_alloc it0 = Some p' → Some p' ∉ user) as Hdev.
  { intros j it0 Ej Eal Hin. destruct (ca_apart _ _ _ _ _ _ _ _ _ _ _ _ _ Hca it0 p' (list_elem_of_lookup_2 _ _ _ Ej) Eal) as [Hn _].
    apply Hn. cbn [app]. do 3 (apply in_option; right). apply list_elem_of_omap. by exists (Some p'). }
  destruct (it_alloc it) as [q |] eqn:E1, (it_alloc it') as [q' |] eqn:E2; simplify_eq.
  - by apply (Hne p').
  - apply (Hdev k it Ei E1). by eapply list_elem_of_lookup_2.
  - apply (Hdev k' it' Ei' E2). by eapply list_elem_of_lookup_2.
  - by apply Hk, (nodup_omap_lookup user k k' p').
Qed.

Lemma round_delivers :
  delivered m0 (s_mem s') h in_data out_data out_size items addrs
    (mk_args (area a_in (cmd_in_data c)) (Z.of_nat (length in_data)) out_at out_size) w hr.
Proof.
  split; try done.
  - apply (ro_call _ _ _ _ _ _ _ _ _ _ _ _ _ _ _ _ _ _ _ _ _ _ _ Hro).
  - apply (ca_items _ _ _ _ _ _ _ _ _ _ _ _ _ Hca).
  - apply (un_in _ _ _ _ _ _ _ _ _ _ (ro_understood _ _ _ _ _ _ _ _ _ _ _ _ _ _ _ _ _ _ _ _ _ _ _ Hro)).
  - apply item_seen.
  - apply output_back.
  - apply item_back.
  - intros x Hx Hr Hoff Ho. by apply rest_unchanged.
  - apply data_areas_apart.
  - apply item_in_pool.
  - apply items_apart.
Qed.
End results.

(** ** The call *)

Lemma release_cell s p cl :
  heap s !! p = Some cl →
  ∃ s', release s p = Some s' ∧ last s p = Some (c_count cl =? 1) ∧ same_memory s s' ∧ books s' = books s ∧
    (∀ q, q ≠ p → heap s' !! q = heap s !! q) ∧
    heap s' !! p = if c_count cl =? 1 then None else Some (add_count cl (-1)).
Proof.
  intros Hp. unfold release, release_refcounted, last, last_refcount, heap in *. rewrite Hp. cbn [mbind option_bind].
  eexists. split; [done |]. split; [done |]. split; [done |]. split; [done |]. cbn [s_st set_st hp set_hp].
  replace (c_count cl - 1 =? 0) with (c_count cl =? 1) by lia. destruct (_ =? 1); split.
  - intros q Hq. by rewrite lookup_delete_ne.
  - by rewrite lookup_delete_eq.
  - intros q Hq. by rewrite lookup_insert_ne.
  - by rewrite lookup_insert_eq.
Qed.

Lemma object_heap s s' q : heap s' !! q = heap s !! q → object s' q = object s q.
Proof. intros E. unfold object. by rewrite E. Qed.

(** The last reference to an event of an idle device. *)
Lemma release_event_last s ev d0 st cl :
  heap s !! ev = Some cl → c_obj cl = Event d0 st → c_count cl = 1 → object s d0 = Some (Device i []) →
  ∃ s', xrp_release_event false s ev = Some s' ∧ same_memory s s' ∧ books s' = books s ∧
    (∀ q, q ≠ ev → q ≠ d0 → object s' q = object s q) ∧ object s' ev = None ∧
    (∀ o, object s' d0 = Some o → o = Device i []).
Proof.
  intros Hev Eo Ec Od. assert (object s ev = Some (Event d0 st)) as Oe by (unfold object; by rewrite Hev, <- Eo).
  assert (d0 ≠ ev) as Hne by (intros ->; congruence). apply object_cell in Od as (cd & Hd0 & Ed).
  destruct (release_cell s ev cl Hev) as (_ & _ & El & _). rewrite Ec in El.
  destruct (release_cell s d0 cd Hd0) as (s1 & E1 & El1 & [G1 M1] & B1 & O1 & D1).
  assert (heap s1 !! ev = Some cl) as Hev1 by (by rewrite O1).
  destruct (release_cell s1 ev cl Hev1) as (s2 & E2 & _ & [G2 M2] & B2 & O2 & D2). rewrite Ec in D2.
  exists s2. split; [| split; [split; congruence |]; split; [by rewrite B2, B1 |]; split; [| split]].
  - unfold xrp_release_event, release_event_tested. rewrite object_tested. rewrite Oe. cbn [mbind option_bind]. rewrite El. cbn [mbind option_bind].
    unfold xrp_release_device, release_device_tested. rewrite object_tested. unfold object at 1. rewrite Hd0. cbn [mbind option_bind fmap option_fmap option_map].
    rewrite Ed, El1. cbn [mbind option_bind].
    change (1 =? 1) with true. cbn match. destruct (c_count cd =? 1); rewrite E1; exact E2.
  - intros q H1 H2. apply object_heap. by rewrite O2, O1.
  - unfold object. by rewrite D2.
  - intros o. unfold object. rewrite O2, D1 by done. destruct (c_count cd =? 1); [done |]. cbn. rewrite Ed. congruence.
Qed.

(** Nothing refers to an address with no object. *)
Lemma no_reference s roots k p :
  holds [] (s_st s) roots → object s p = None → (k, p) ∉ (roots ++ lost (s_st s)) ++ heap_refs (heap s).
Proof.
  intros Hh Ho Hin. destruct (i_ref _ _ Hh k p Hin) as (cl & Hp & _). unfold object, heap in Ho. cbn in Hp.
  by rewrite Hp in Ho.
Qed.

Lemma heap_refs_elem h r : r ∈ heap_refs h ↔ ∃ q cl, h !! q = Some cl ∧ r ∈ obj_refs (c_obj cl).
Proof.
  unfold heap_refs. rewrite list_elem_of_bind. split.
  - intros ([q cl] & Hr & Hq%elem_of_map_to_list). by exists q, cl.
  - intros (q & cl & Hq & Hr). exists (q, cl). by rewrite elem_of_map_to_list.
Qed.

Lemma sole_reference s roots k p cl :
  holds [] (s_st s) ((k, p) :: roots) → heap s !! p = Some cl → kind_of (c_obj cl) = k →
  (k, p) ∉ (roots ++ lost (s_st s)) ++ heap_refs (heap s) → c_count cl = 1.
Proof.
  intros Hh Hp Hk Hn. destruct (i_count _ _ Hh p cl Hp) as [E _]. rewrite E, Hk. cbn [app].
  rewrite cnt_cons, decide_True by done. rewrite cnt_elem in Hn. unfold heap in Hn. cbn [minus foldr]. lia.
Qed.

(** A queue the client holds keeps its device. *)
Lemma queue_keeps_device s roots q d0 ns :
  holds [] (s_st s) roots → (KQueue, q) ∈ roots → object s q = Some (Queue d0 ns) → is_Some (object s d0).
Proof.
  intros Hh Hq Oq. apply object_cell in Oq as (cl & Hc & Ec). unfold heap in Hc.
  destruct (i_ref _ _ Hh KDevice d0) as (cl' & Hc' & _).
  - apply elem_of_app. right. unfold heap_refs. apply list_elem_of_bind. exists (q, cl).
    split; [cbn [snd]; rewrite Ec; by left |]. by apply elem_of_map_to_list.
  - unfold object, heap. cbn in Hc'. rewrite Hc'. by eexists.
Qed.

(** The event of a finished command: the new state has no reference to it
    besides the client's. *)
Lemma no_new_reference s s' roots d0 ev st :
  holds [] (s_st s) roots → object s ev = None → books s' = books s → object s' d0 = Some (Device i []) →
  object s' ev = Some (Event d0 st) → (∀ p, p ≠ d0 → p ≠ ev → object s' p = object s p) →
  (KEvent, ev) ∉ (roots ++ lost (s_st s')) ++ heap_refs (heap s').
Proof.
  intros Hh Hn [= El _] Od Oev Ho. pose proof (no_reference s roots KEvent ev Hh Hn) as Hnr. rewrite El.
  rewrite elem_of_app in *. intros [Hin | Hin]; [by apply Hnr; left |].
  apply heap_refs_elem in Hin as (q & cl & Hq & Hr).
  assert (object s' q = Some (c_obj cl)) as Oq by (unfold object; by rewrite Hq).
  destruct (decide (q = d0)) as [-> |]; [rewrite Od in Oq; injection Oq as Eq; by rewrite <- Eq in Hr; apply not_elem_of_nil in Hr |].
  destruct (decide (q = ev)) as [-> |].
  - rewrite Oev in Oq. injection Oq as Eq. rewrite <- Eq in Hr. by apply list_elem_of_singleton in Hr.
  - apply Hnr. right. rewrite Ho in Oq by done. apply object_cell in Oq as (cl' & Hq' & Ec).
    apply heap_refs_elem. exists q, cl'. by rewrite Ec.
Qed.

Context (hs : mem → mem * nat) (malloc : bool) (device : xrp_device Hd) (Hdev : d_dsp_cmd device = c).

(** A call the library is meant for: the queue [q] is on the idle device
    [d0], the client holds the queue and the group, whose buffers are
    [items]; sizes fit, the handler the queue names is there, and the areas
    the results go to do not overlap. *)
Record command_ok (s : sim) (roots : list (kind * nat)) (q d0 : nat) (ns : option (list Z)) (h : option (Hd * Z))
    (in_data : list Z) (out_data out_size : Z) (group : option nat) (items : list item) : Prop := {
  co_queue : (KQueue, q) ∈ roots ∧ object s q = Some (Queue d0 ns);
  co_device : object s d0 = Some (Device i []);
  co_nsid : ∀ id, ns = Some id → length id = 16%nat;
  co_handler : named device ns h ∧ well_behaved run run_command h;
  co_in : fits (Z.of_nat (length in_data));
  co_out : fits out_size ∧ private P out_data out_size;
  co_group : ∀ g, group = Some g → (KGroup, g) ∈ roots;
  co_items : ∃ recs, group_buffers s group = Some recs ∧ Forall2 (is_item P s) recs items;
  co_items_ok : Forall (item_ok P s) items;
  co_count : fits (Z.of_nat (length items) * sizeof_dsp_buffer) ∧
    (Z.of_nat (length items) ≤ MAX_STACK_BUFFERS ∨ malloc = true);
  co_apart : ForallOrdPairs apart_items items ∧ out_apart items out_data out_size;
}.

Lemma host_items s items : Forall (item_ok P s) items → Forall (host_item_ok P) items.
Proof.
  intros H. eapply Forall_impl; [| exact H]. intros it (Hz & _ & Hi). split; [done |]. intros E. by rewrite E in Hi.
Qed.

Lemma run_command_spec s roots q d0 ns h in_data out_data out_size group items junk k :
  on_platform s → sim_holds [] s roots [] → command_ok s roots q d0 ns h in_data out_data out_size group items →
  ∃ s' st,
    xrp_run_command_sync [replicate k id ++ [dsp_turn P dm run run_command hs malloc device]] kz true true junk
      s q in_data out_data out_size group = Some (s', st) ∧
    on_platform s' ∧ sim_holds [] s' roots [] ∧
    (st = XRP_STATUS_FAILURE ∧ refusable P kz s in_data out_size items ∧ (∀ x, ¬ pool_virt P x → s_mem s' x = s_mem s x) ∨
     ∃ addrs args w hr, st = status_of (hr_status hr) ∧
       delivered (s_mem s) (s_mem s') h in_data out_data out_size items addrs args w hr ∧
       (∀ p, object s' p = object s p) ∧ books s' = books s).
Proof.
  intros Hs Hh [[Hq Eq] Ed Hns [Hnm Hwb] Hfi [Hfo Hpo] Hg (recs & Hrecs & Hits) Hi [Hfb Hmal] [Hap Hoa]].
  unfold xrp_run_command_sync. rewrite Eq. cbn [mbind option_bind].
  assert (length recs = length items) as El by (by eapply Forall2_length).
  destruct (enqueue_spec P Hok kz Hkz s q d0 ns [] in_data out_data out_size group recs items junk)
    as (s1 & ev & st & Een & Hs1 & Hm1 & Hev); try done.
  { intros g ->. cbn in Hrecs. destruct (object s g); [by eexists | done]. }
  { by rewrite El. }
  rewrite Een. cbn [mbind option_bind].
  assert (sim_holds [] s1 (match ev with Some e => (KEvent, e) :: roots | None => roots end) []) as Hh1.
  { eapply (enqueue_holds kz Hkz); [done | done | apply Hfi | apply Hfo | | exact Een].
    intros l E. rewrite Hrecs in E. injection E as <-. rewrite El. apply Hfb. }
  destruct ev as [ev |]; [| destruct Hev as [-> Hn]; do 2 eexists; split; [done |]; split; [done |]; split; [done |]; by left].
  destruct Hev as [-> (cmd & addrs & a_in & a_out & a_buf & user & Hca & Od1 & Onew & Oev & O1 & Bk1)].
  assert (∀ p o, object s p = Some o → p ≠ ev) as Hne by (intros p o Ep ->; congruence).
  cbn [app] in Od1. assert (xrp_event_status s1 ev = Some XRP_STATUS_PENDING) as Es1
    by (unfold xrp_event_status; by rewrite Oev).
  cbn [xrp_wait]. rewrite Es1. cbn [mbind option_bind].
  rewrite decide_True by done.
  destruct (process_spec P Hok kz Hkz dm run run_command hs malloc device Hdev s1 (s_mem s) k d0 [] h ns cmd in_data out_data
    out_size group recs items addrs a_in a_out a_buf user ev d0 XRP_STATUS_PENDING ((KEvent, ev) :: roots))
    as (s2 & w & w2 & m' & hr & Epr & Hs2 & Hro & O2 & Od2 & Bk2); try done.
  { apply Hfo. }
  { by eapply host_items. }
  { unfold group_buffers in *. destruct group as [g |]; [| done]. destruct (object s g) as [o |] eqn:Eg; [| done].
    rewrite (O1 g), Eg; [done | | by eapply Hne]. intros ->. rewrite Ed in Eg. by injection Eg as <-. }
  { eapply Forall2_impl; [| exact Hits]. intros rec it (Ef & mf & Eo). split; [done |]. exists mf.
    rewrite O1; [done | | by eapply Hne]. intros E. rewrite E in Eo. congruence. }
  { intros g Eg. right. by apply Hg. }
  { by left. }
  rewrite Epr. cbn [mbind option_bind].
  pose proof (ro_event _ _ _ _ _ _ _ _ _ _ _ _ _ _ _ _ _ _ _ _ _ _ _ Hro) as Oev2.
  assert (xrp_event_status s2 ev = Some (status_of (hr_status hr))) as Es2 by (unfold xrp_event_status; by rewrite Oev2).
  rewrite Es2. cbn [mbind option_bind]. rewrite decide_False by (by destruct (hr_status hr)). cbn [mbind option_bind].
  rewrite Es2. cbn [mbind option_bind].
  pose proof (worker_holds _ _ _ _ _ Hh1 Epr) as Hh2.
  assert (∀ p, p ≠ d0 → p ≠ ev → object s2 p = object s p) as O12 by (intros p H1 H2; by rewrite O2, O1).
  assert (books s2 = books s) as Bk12 by congruence.
  pose proof (object_cell s2 ev _ Oev2) as (ce & Hce & Ece).
  assert (c_count ce = 1) as Hone.
  { apply (sole_reference s2 roots KEvent ev ce (sh_refs _ _ _ _ Hh2) Hce); [by rewrite Ece |].
    apply (no_new_reference s s2 roots d0 ev (status_of (hr_status hr))); try done. apply Hh. }
  destruct (release_event_last s2 ev d0 _ ce Hce Ece Hone Od2) as (s3 & Er & Hm3 & Bk3 & O3 & On3 & D3).
  rewrite Er. cbn [mbind option_bind].
  destruct (release_event_holds false [] s2 roots [] ev s3 Hh2 Er) as [Hh3 _].
  exists s3, (status_of (hr_status hr)). split; [done |]. split; [by eapply same_memory_platform |]. split; [done |]. right.
  exists addrs, (mk_args (area a_in (cmd_in_data c)) (Z.of_nat (length in_data)) (area a_out (cmd_out_data c)) out_size), w, hr.
  split; [done |]. rewrite (proj2 Hm3). split.
  - eapply (round_delivers s1 s2 (s_mem s)); [exact Hs1 | exact Hm1 | exact Hca | exact Hro | apply Hfo | done | by eapply host_items | done | done].
  - split; [| congruence]. assert (∀ p, p ≠ d0 → object s3 p = object s p) as Hold.
    { intros p Hp. destruct (decide (p = ev)) as [-> |]; [by rewrite On3 |]. by rewrite O3, O12. }
    intros p. destruct (decide (p = d0)) as [-> | Hp]; [| by apply Hold]. rewrite Ed.
    destruct (queue_keeps_device s3 roots q d0 ns (sh_refs _ _ _ _ Hh3) Hq) as [o Eo].
    { rewrite Hold; [done |]. intros ->. congruence. }
    rewrite Eo. f_equal. by apply D3.
Qed.

(** C3: A command run with [xrp_run_command_sync] on an idle device of the
    simulator returns, however often the worker polls before the DSP turns to
    the command.  Either the library refuses it, which it can only do when
    a buffer is mapped or an empty one of the host, when the command asks for
    more bytes than the largest free piece of the pool has, or when the
    allocator gets no descriptors; it then returns FAILURE and leaves all
    memory outside the pool alone; or the handler the queue names is called
    on exactly the input and the buffer contents the program passed, its
    output, its status and the buffers it may have written are what the
    program finds afterwards, no other byte of the program's own memory
    changes, every object is as before, no object has been added, and
    nothing has been lost. *)
Theorem sim_command_roundtrip s roots q d0 ns h in_data out_data out_size group items junk k :
  on_platform s → sim_holds [] s roots [] → command_ok s roots q d0 ns h in_data out_data out_size group items →
  ∃ s' st,
    xrp_run_command_sync [replicate k id ++ [dsp_turn P dm run run_command hs malloc device]] kz true true junk
      s q in_data out_data out_size group = Some (s', st) ∧
    on_platform s' ∧ sim_holds [] s' roots [] ∧
    (st = XRP_STATUS_FAILURE ∧ refusable P kz s in_data out_size items ∧ (∀ x, ¬ pool_virt P x → s_mem s' x = s_mem s x) ∨
     ∃ addrs args w hr, st = status_of (hr_status hr) ∧
       delivered (s_mem s) (s_mem s') h in_data out_data out_size items addrs args w hr ∧
       (∀ p, object s' p = object s p) ∧ books s' = books s).
Proof. apply run_command_spec. Qed.
End command.
