(* ===== verification/SimCommandExamples.v ===== *)
(** * A command on the simulator, on concrete inputs

    The client and the device of [SimExamples], with a handler on the DSP's
    side: [SimCommand.sim_command_roundtrip] applied to them, and the same
    run evaluated. *)

From stdpp Require Import base tactics list gmap fin_maps numbers.
From S2P Require Import Prelude DspNs RefHeap Alloc PrivateAlloc PoolRoom Mem Interface HwSimple DspBuffer DspCmd.
From S2P Require Import SimMem SimLib SimRefs SimClient SimSteps SimTheorems SimBlocks SimEnqueue SimRun SimCommand SimExamples.
Open Scope Z_scope.

Module SimCommandWorld.
Import SimWorld.
#[local] Existing Instance arch_sim.

Definition board : platform := mk_platform regions ram ram 0 dev.

Lemma board_ok : platform_ok board.
Proof.
  split.
  - exact regions_are_ok.
  - split; [by left |]. split; [unfold inside; cbn; lia | reflexivity].
  - split; [by left |]. cbn. lia.
  - cbn. lia.
  - intros _. exists io, 0x20000000. split; [right; by left |]. split; [unfold inside; cbn; lia |].
    split; [reflexivity |]. cbn. lia.
Qed.

(** A queue for namespace 3, and a group of a device buffer and a buffer of
    the host. *)
Definition prepare : list action :=
  [ Call (OpenDevice true 0);                                                      (* 0 *)
    Call (CreateQueue true (Some 0%nat) (Some (NsExamples.id_of 3)));              (* 1 *)
    Call (CreateBuffer true (Some 0%nat) 64 None);                                 (* 2 *)
    Call (CreateBuffer true (Some 0%nat) 32 (Some 0x1000));                        (* 3 *)
    Call (CreateGroup true);                                                       (* 4 *)
    Call (AddBuffer true 4 2 1); Call (AddBuffer true 4 3 3) ].
Definition ready : sim := (after prepare).1.
Definition held_refs : list ref := (after prepare).2.
Definition its : list item := [mk_item (Some 2) (comm + 0x1000) 64 1 0; mk_item None 0x1000 32 3 0].
Definition input : list Z := replicate 40 7.

(** The handler overwrites its last buffer and answers with the input plus
    one. *)
Definition handler (h : nat) (ctx : Z) (a : cmd_args) (m : mem) (g : DspBuffer.xrp_buffer_group) : handler_result :=
  let g := group_run g [CallMap 0 0 64 XRP_READ; CallMap 1 0 32 XRP_WRITE] in
  let data := load_bytes m (DspCmd.in_data a) (Z.to_nat (DspCmd.in_data_size a)) in
  let m := match g_buffer g !! 1%nat with Some b => store_bytes m (b_ptr b) (replicate 32 9) | None => m end in
  mk_hres XRP_STATUS_SUCCESS (store_bytes m (DspCmd.out_data a) ((λ x, x + 1) <$> data)) g.
Definition dsp : xrp_device nat := mk_device 0 0x10000000 (n_cmd_ns NsExamples.dev2) (cmd_ns NsExamples.dev2).
Definition hs (m : mem) : mem * nat := (m, 0%nat).
Definition turn : mem → mem := dsp_turn board (λ _, 0) handler xrp_run_command_default hs true dsp.
Definition result : option (sim * xrp_status) :=
  xrp_run_command_sync [replicate 3 id ++ [turn]] kz true true (λ _, 0) ready 1 input 0x2000 40 (Some 4%nat).

Lemma prepare_runs : is_Some (run prepare).
Proof. apply (bool_decide_unpack _). vm_compute. done. Qed.

Lemma ready_holds : sim_holds [] ready held_refs [].
Proof. exact (reachable_holds world1 kz kz_is_ok start ready held_refs start_initial (after_reachable prepare prepare_runs)). Qed.

(** The pool with one page in use. *)
Definition ready_pool : alloc_state xrp_private_pool :=
  mk_alloc_state (mk_pool 0x10001000 0x8000 [mk_allocation 1 0x10002000 0x7000 0] {[1; 2]})
    {[2 := mk_allocation 2 0x10001000 0x1000 1]}.

Lemma ready_on_board : on_platform (kz := kz) board ready.
Proof.
  exists ready_pool.
  assert (gl_description (s_gl ready) !! 0%nat = Some (with_pool dev ready_pool)) as Ed by (vm_compute; reflexivity).
  split; [vm_compute; reflexivity |]. split; [exact Ed |]. split; [reflexivity |].
  split; [apply (sh_pools _ _ _ _ ready_holds 0%nat); unfold pool_of; rewrite Ed; reflexivity |].
  split; [| vm_compute; lia]. intros _. split; [by constructor |]. split; [by constructor |]. intros x.
  change (live ready_pool) with [mk_allocation 2 0x10001000 0x1000 1]. cbn. unfold in_block, a_end. cbn.
  repeat case_match; lia.
Qed.

Lemma ready_command :
  command_ok board handler xrp_run_command_default true dsp ready held_refs 1 0 (Some (NsExamples.id_of 3))
    (Some (30%nat, 2)) input 0x2000 40 (Some 4%nat) its.
Proof.
  assert (∀ z, (0 <=? z) && (z <? 0x7f0000000000 - 0x10000) = true → private board z 64) as Hp.
  { intros z Hz. split; [lia |]. split; [cbn; lia |]. intros r. cbn. unfold regions. rewrite !elem_of_cons, elem_of_nil.
    intros [-> | [-> | []]]; cbn; lia. }
  assert (∀ z n, 0 ≤ n ≤ 64 → private board z 64 → private board z n) as Hle.
  { intros z n Hn (H1 & H2 & H3). split; [done |]. split; [lia |]. intros r Hr. specialize (H3 r Hr). lia. }
  split.
  - split; [| vm_compute; reflexivity]. apply (bool_decide_unpack _). vm_compute. done.
  - vm_compute. reflexivity.
  - by intros id [= <-].
  - split; [exists (30%nat, 2); split; reflexivity |]. intros args w bufs. by eexists.
  - vm_compute. repeat split; congruence.
  - split; [vm_compute; repeat split; congruence |]. apply Hle; [lia | by apply Hp].
  - intros g [= <-]. apply (bool_decide_unpack _). vm_compute. done.
  - exists [(2%nat, 1); (3%nat, 3)]. split; [vm_compute; reflexivity |].
    constructor; [split; [reflexivity |]; exists 0; vm_compute; reflexivity |].
    constructor; [split; [reflexivity |]; exists 0; vm_compute; reflexivity |]. constructor.
  - constructor; [| constructor; [| constructor]].
    + split; [cbn; lia |]. split; [vm_compute; repeat split; congruence |]. cbn.
      exists 0x10001000, (load_bytes (s_mem ready) (virt ram 0x10001000) 0x1000). split.
      * destruct ready_on_board as [st Hst]. pose proof (pool_ok_pool _ _ _ Hst) as Ep.
        rewrite (blocks_ok _ _ _ Hst), lookup_fmap.
        assert (st_objs st !! 2 = Some (mk_allocation 2 0x10001000 0x1000 1)) as ->; [| reflexivity].
        assert ((λ st, st_objs st !! 2) <$> pool_of ready 0 = Some (Some (mk_allocation 2 0x10001000 0x1000 1))) as Ex
          by (vm_compute; reflexivity).
        change (pf_dev board) with 0%nat in Ep. rewrite Ep in Ex. injection Ex as Ex. exact Ex.
      * rewrite length_load_bytes. split; [lia | reflexivity].
    + split; [cbn; lia |]. split; [vm_compute; repeat split; congruence |]. cbn. apply Hle; [lia | by apply Hp].
  - split; [vm_compute; repeat split; congruence | by right].
  - split.
    + constructor; [| constructor; [| constructor]; constructor]. constructor; [| constructor]. intros E. discriminate E.
    + intros it. unfold its. rewrite !elem_of_cons, elem_of_nil. intros [-> | [-> | []]]; [discriminate |]. cbn. lia.
Qed.

(** The output, the host buffer and the byte after it, evaluated. *)
Example result_evaluated :
  (λ x, (x.2, load_bytes (s_mem x.1) 0x2000 40, load_bytes (s_mem x.1) 0x1000 33)) <$> result =
  Some (XRP_STATUS_SUCCESS, replicate 40 8, replicate 32 9 ++ [0]).
Proof. vm_compute. reflexivity. Qed.

Lemma result_status : snd <$> result = Some XRP_STATUS_SUCCESS.
Proof. vm_compute. reflexivity. Qed.

(** The program finds the answer, 40 times 8. *)
Lemma sim_command_roundtrip_witness :
  ∃ s', result = Some (s', XRP_STATUS_SUCCESS) ∧ load_bytes (s_mem s') 0x2000 40 = replicate 40 8 ∧
    sim_holds [] s' held_refs [].
Proof.
  destruct (sim_command_roundtrip board board_ok kz kz_is_ok handler xrp_run_command_default (λ _, 0) hs true dsp eq_refl
    ready held_refs 1 0 (Some (NsExamples.id_of 3)) (Some (30%nat, 2)) input 0x2000 40 (Some 4%nat) its (λ _, 0) 3
    ready_on_board ready_holds ready_command) as (s' & st & E & _ & Hh & Hr).
  pose proof result_status as Hst. unfold result, turn in *. rewrite E in *. injection Hst as ->.
  exists s'. split; [reflexivity |]. split; [| exact Hh].
  destruct Hr as [(Hf & _) | (addrs & args & w & hr & _ & Hd & _)]; [discriminate Hf |].
  pose proof (de_out _ _ _ _ _ _ _ _ _ _ _ _ _ _ Hd) as Ho. change (Z.to_nat 40) with 40%nat in Ho. rewrite Ho.
  rewrite (de_call _ _ _ _ _ _ _ _ _ _ _ _ _ _ Hd). cbn [run_handler hr_mem handler].
  rewrite (de_in_size _ _ _ _ _ _ _ _ _ _ _ _ _ _ Hd), Nat2Z.id, (de_in _ _ _ _ _ _ _ _ _ _ _ _ _ _ Hd).
  exact (load_store_same _ _ ((λ x, x + 1) <$> input)).
Defined.
End SimCommandWorld.
