(* ===== verification/ExampleDsp.v ===== *)
(** * The DSP side of the example (xrp-example/dsp_main.c,
      xrp-example/dsp_framework_main.c, xrp-dsp/xrp_dsp_framework.c)

    The command handlers of the example firmware and the way its [main]
    registers them, the framework's variant of [xrp_run_command], and the
    two main loops.  [printf] and the exception handlers are left out. *)

From stdpp Require Import base tactics list gmap fin_maps numbers.
From S2P Require Import Prelude Mem Interface DspNs DspBuffer DspCmd.

(** ** Namespaces (xrp-example/example_namespace.h) *)

Definition XRP_EXAMPLE_V1_NSID : list Z :=
  [0x47; 0xf4; 0x5d; 0x8c; 0x99; 0xc5; 0x11; 0xe7; 0xb5; 0x86; 0x00; 0x21; 0xcc; 0x4a; 0x5f; 0xb6].
Definition XRP_EXAMPLE_V2_NSID : list Z :=
  [0x33; 0x56; 0xfc; 0x3c; 0x63; 0x27; 0x40; 0x96; 0x8a; 0x33; 0x1a; 0x5c; 0xca; 0x3b; 0xa1; 0x64].
Definition EXAMPLE_V2_CMD_OK := 0.
Definition EXAMPLE_V2_CMD_FAIL := 1.
Definition sizeof_example_v2_cmd := 4.

(** ** Echo and copy *)

(** [out_data[i] = in_data[i] + i], a byte at a time. *)
Definition echo_byte (a : cmd_args) (m : mem) (i : nat) : mem :=
  if Z.of_nat i <? out_data_size a
  then store_bytes m (out_data a + Z.of_nat i) [wrap 8 (m (in_data a + Z.of_nat i) + Z.of_nat i)]
  else m.
Definition echo (a : cmd_args) (m : mem) : mem :=
  foldl (echo_byte a) m (seq 0 (Z.to_nat (in_data_size a))).

Definition copy_size (a : cmd_args) (m : mem) : Z := if 4 <=? in_data_size a then load32 m (in_data a) else 0.

(** Mapping a buffer of the group; a null pointer is no mapping. *)
Definition map_at (g : xrp_buffer_group) (idx : nat) (size map_flags : Z) : xrp_buffer_group * option Z :=
  (group_step g (CallMap idx 0 size map_flags),
   b ← g_buffer g !! idx; p ← (xrp_map_buffer b 0 size map_flags).1.2; if p =? 0 then None else Some p).

(** The loop over pairs of buffers, from [i] on: the memory, the group and
    the final [i]; [None] when the fuel runs out. *)
Fixpoint copy_buffers (fuel : nat) (m : mem) (g : xrp_buffer_group) (sz : Z) (i : nat)
  : option (mem * xrp_buffer_group * nat) :=
  match fuel with
  | O => None
  | S fuel =>
      let '(g, sbuf, _) := xrp_get_buffer_from_group g i in
      let '(g, dbuf, _) := xrp_get_buffer_from_group g (i + 1) in
      match sbuf, dbuf with
      | Some s, Some d =>
          let '(g, src) := map_at g s sz XRP_READ in
          let '(g, dst) := map_at g d sz XRP_WRITE in
          match src, dst with
          | Some src, Some dst =>
              let m := store_bytes m dst (load_bytes m src (Z.to_nat sz)) in
              let g := group_run g [CallUnmap s src; CallUnmap d dst; CallRelease s; CallRelease d] in
              copy_buffers fuel m g sz (i + 2)
          | _, _ => Some (m, group_run g [CallRelease s; CallRelease d], i)
          end
      | _, _ => Some (m, g, i)
      end
  end.

Definition copy_all (m : mem) (g : xrp_buffer_group) (sz : Z) : option (mem * xrp_buffer_group * nat) :=
  if sz =? 0 then Some (m, g, 0%nat) else copy_buffers (S (length (g_buffer g))) m g sz 0.

(** ** Handlers *)

Definition example_v1_handler (handler_context : Z) (a : cmd_args) (m : mem) (g : xrp_buffer_group) : handler_result :=
  let m := echo a m in
  match copy_all m g (copy_size a m) with
  | Some (m, g, i) =>
      let sz := match (xrp_buffer_group_get_info g XRP_BUFFER_GROUP_SIZE_SIZE_T 0 4).1 with
                | Some l => le_val l
                | None => 0
                end in
      mk_hres (if sz =? Z.of_nat i then XRP_STATUS_SUCCESS else XRP_STATUS_FAILURE) m g
  | None => mk_hres XRP_STATUS_FAILURE m g
  end.

Definition example_v2_handler (handler_context : Z) (a : cmd_args) (m : mem) (g : xrp_buffer_group) : handler_result :=
  mk_hres
    (if in_data_size a <? sizeof_example_v2_cmd then XRP_STATUS_FAILURE
     else if load32 m (in_data a) =? EXAMPLE_V2_CMD_OK then XRP_STATUS_SUCCESS
     else XRP_STATUS_FAILURE) m g.

(** [xrp_run_command] of dsp_main.c ... *)
Definition xrp_run_command (a : cmd_args) (m : mem) (g : xrp_buffer_group) : option xrp_status * mem * xrp_buffer_group :=
  (Some XRP_STATUS_SUCCESS, m, g).

(** ... and of dsp_framework_main.c. *)
Definition framework_run_command (a : cmd_args) (m : mem) (g : xrp_buffer_group)
  : option xrp_status * mem * xrp_buffer_group :=
  let m := echo a m in
  match copy_all m g (copy_size a m) with
  | Some (m, g, _) => (Some XRP_STATUS_SUCCESS, m, g)
  | None => (None, m, g)
  end.

(** ** Registration *)

(** The handlers of the firmware; [test_ns] registers null pointers, and
    [null] is what calling one does. *)
Inductive example_handler := NullHandler | ExampleV1 | ExampleV2.
Definition run_example (null : Z → cmd_args → mem → xrp_buffer_group → handler_result) (h : example_handler)
  : Z → cmd_args → mem → xrp_buffer_group → handler_result :=
  match h with
  | NullHandler => null
  | ExampleV1 => example_v1_handler
  | ExampleV2 => example_v2_handler
  end.

Section registration.
Context (fresh : nat → option (list (xrp_cmd_ns example_handler))).
Abbreviation device := (xrp_device example_handler).

Fixpoint register_all (dev : device) (ids : list (list Z)) : device * xrp_status :=
  match ids with
  | [] => (dev, XRP_STATUS_SUCCESS)
  | id :: ids =>
      let '(dev, status) := xrp_device_register_namespace fresh dev id NullHandler 0 in
      if decide (status = XRP_STATUS_SUCCESS) then register_all dev ids else (dev, XRP_STATUS_FAILURE)
  end.
Fixpoint unregister_all (dev : device) (ids : list (list Z)) : device * xrp_status :=
  match ids with
  | [] => (dev, XRP_STATUS_SUCCESS)
  | id :: ids =>
      let '(dev, status) := xrp_device_unregister_namespace dev id in
      if decide (status = XRP_STATUS_SUCCESS) then unregister_all dev ids else (dev, XRP_STATUS_FAILURE)
  end.

(** [test_nsid]: the random ids. *)
Definition test_ns (dev : device) (test_nsid : list (list Z)) : device * xrp_status :=
  let '(dev, status) := register_all dev test_nsid in
  if decide (status = XRP_STATUS_SUCCESS) then unregister_all dev test_nsid else (dev, status).

(** [main] up to its loop; [None]: it returns 1. *)
Definition dsp_main (comm_base : Z) (dev : device) (test_nsid : list (list Z)) : option device :=
  let '(dev, _, status) := xrp_open_device comm_base dev 0 in
  if decide (status = XRP_STATUS_SUCCESS) then
    let '(dev, status) := test_ns dev test_nsid in
    if decide (status = XRP_STATUS_SUCCESS) then
      let '(dev, status) := xrp_device_register_namespace fresh dev XRP_EXAMPLE_V1_NSID ExampleV1 0 in
      if decide (status = XRP_STATUS_SUCCESS) then
        let '(dev, status) := xrp_device_register_namespace fresh dev XRP_EXAMPLE_V2_NSID ExampleV2 0 in
        if decide (status = XRP_STATUS_SUCCESS) then Some dev else None
      else None
    else None
  else None.
End registration.

(** ** Main loops *)

Section loops.
Context {Hd : Type}.
Context (run : Hd → Z → cmd_args → mem → xrp_buffer_group → handler_result).
Context (run_command : cmd_args → mem → xrp_buffer_group → option xrp_status * mem * xrp_buffer_group).
Context (hs : mem → mem * nat) (malloc : bool) (dev : xrp_device Hd).

(** The loop of dsp_main.c.  An element of [host]: what the host does to the
    shared memory before the next turn, while the DSP waits or not; [None]
    inside a turn is a fault. *)
Fixpoint dispatch_loop (host : list (mem → mem)) (m : mem) : option mem :=
  match host with
  | [] => Some m
  | act :: host =>
      x ← xrp_device_dispatch run run_command hs malloc (act m) dev; dispatch_loop host x.1.2
  end.

(** The loop of xrp_dsp_framework.c ends with the first status that is
    neither success nor pending. *)
Fixpoint command_loop (host : list (mem → mem)) (m : mem) : option (mem * option xrp_status) :=
  match host with
  | [] => Some (m, None)
  | act :: host =>
      x ← xrp_device_dispatch run run_command hs malloc (act m) dev;
      match x.1.1 with
      | XRP_STATUS_FAILURE => Some (x.1.2, Some XRP_STATUS_FAILURE)
      | _ => command_loop host x.1.2
      end
  end.
End loops.

Section framework.
Context {Hd : Type}.
Context (run : Hd → Z → cmd_args → mem → xrp_buffer_group → handler_result).
Context (run_command : cmd_args → mem → xrp_buffer_group → option xrp_status * mem * xrp_buffer_group).
Context (hs : mem → mem * nat) (malloc : bool).

Definition run_command_loop (comm_base : Z) (dev : xrp_device Hd) (host : list (mem → mem)) (m : mem)
  : option (mem * option xrp_status) :=
  let '(dev, _, status) := xrp_open_device comm_base dev 0 in
  if decide (status = XRP_STATUS_SUCCESS) then command_loop run run_command hs malloc dev host m else Some (m, Some status).

(** [main] of xrp_dsp_framework.c; [status] is what [xrp_user_initialize]
    returns. *)
Definition framework_main (status : xrp_status) (comm_base : Z) (dev : xrp_device Hd) (host : list (mem → mem)) (m : mem)
  : option (mem * option xrp_status) :=
  if decide (status = XRP_STATUS_SUCCESS) then run_command_loop comm_base dev host m else Some (m, Some status).

(** The framework's loop does what the example's does, up to the first
    command that fails, and nothing afterwards. *)
Lemma command_loop_prefix dev host m m' r :
  command_loop run run_command hs malloc dev host m = Some (m', r) →
  ∃ served rest, host = served ++ rest ∧ dispatch_loop run run_command hs malloc dev served m = Some m' ∧
    (r = None ∧ rest = [] ∨ r = Some XRP_STATUS_FAILURE).
Proof.
  revert m. induction host as [| act host IH]; intros m E; cbn [command_loop] in E.
  { injection E as <- <-. exists [], []. split_and!; [done | done | by left]. }
  apply bind_Some in E as ([[st m1] n] & E1 & E). cbn [fst snd] in E.
  assert (∀ served, dispatch_loop run run_command hs malloc dev (act :: served) m =
                    dispatch_loop run run_command hs malloc dev served m1) as Hd1.
  { intros served. cbn [dispatch_loop]. by rewrite E1. }
  destruct st.
  - destruct (IH m1 E) as (served & rest & -> & Es & Hr). exists (act :: served), rest. by rewrite Hd1.
  - injection E as <- <-. exists [act], host. rewrite Hd1. split_and!; [done | done | by right].
  - destruct (IH m1 E) as (served & rest & -> & Es & Hr). exists (act :: served), rest. by rewrite Hd1.
Qed.
End framework.

(** The weak default and the one of dsp_framework_main.c. *)
Definition xrp_user_initialize : xrp_status := XRP_STATUS_SUCCESS.

(** ** Echo *)

Definition echo_count (a : cmd_args) : nat := Z.to_nat (Z.min (in_data_size a) (out_data_size a)).
(** Input and output of a command do not overlap. *)
Definition data_apart (a : cmd_args) : Prop :=
  in_data a + in_data_size a ≤ out_data a ∨ out_data a + out_data_size a ≤ in_data a.
Definition echo_of (l : list Z) : list Z := imap (λ i b, wrap 8 (b + Z.of_nat i)) l.

Lemma echo_byte_out a m i x : x ≠ out_data a + Z.of_nat i → echo_byte a m i x = m x.
Proof. intros Hx. unfold echo_byte. case_match; [| done]. apply store_bytes_out. cbn. lia. Qed.

Lemma foldl_snoc {X Y} (f : X → Y → X) x l y : foldl f x (l ++ [y]) = f (foldl f x l) y.
Proof. by rewrite foldl_app. Qed.

(** After [n] turns. *)
Lemma echo_turns a m n :
  0 ≤ out_data_size a → data_apart a → Z.of_nat n ≤ in_data_size a →
  let m' := foldl (echo_byte a) m (seq 0 n) in
  (∀ x, x < out_data a ∨ out_data a + out_data_size a ≤ x → m' x = m x) ∧
  (∀ j, (j < n)%nat → Z.of_nat j < out_data_size a →
     m' (out_data a + Z.of_nat j) = wrap 8 (m (in_data a + Z.of_nat j) + Z.of_nat j)).
Proof.
  intros Hz Hd. induction n as [| n IH]; intros Hn m'; [split; [done | lia] |].
  unfold m'. rewrite seq_S, foldl_snoc, Nat.add_0_l. specialize (IH ltac:(lia)). destruct IH as [Hout Hin].
  set (m1 := foldl (echo_byte a) m (seq 0 n)) in *. split.
  - intros x Hx. destruct (Z.ltb_spec (Z.of_nat n) (out_data_size a)) as [Hl | Hl].
    + rewrite echo_byte_out by lia. by apply Hout.
    + unfold echo_byte. rewrite (proj2 (Z.ltb_ge _ _)) by lia. by apply Hout.
  - intros j Hj Hjo. destruct (decide (j = n)) as [-> | Hne].
    + unfold echo_byte. rewrite (proj2 (Z.ltb_lt _ _)) by lia. rewrite store_bytes_in by (cbn; lia).
      rewrite Z.sub_diag. cbn [Z.to_nat nth]. rewrite Hout; [done |]. unfold data_apart in Hd. lia.
    + rewrite echo_byte_out by lia. apply Hin; lia.
Qed.

Lemma echo_out a m x :
  0 ≤ in_data_size a → 0 ≤ out_data_size a → data_apart a → x < out_data a ∨ out_data a + out_data_size a ≤ x → echo a m x = m x.
Proof. intros Hi Ho Hd. apply (echo_turns a m (Z.to_nat (in_data_size a))); [done | done | lia]. Qed.

Lemma echo_bytes a m :
  0 ≤ in_data_size a → 0 ≤ out_data_size a → data_apart a →
  load_bytes (echo a m) (out_data a) (echo_count a) = echo_of (load_bytes m (in_data a) (echo_count a)).
Proof.
  intros Hi Ho Hd. destruct (echo_turns a m (Z.to_nat (in_data_size a)) Ho Hd ltac:(lia)) as [_ H].
  apply list_eq. intros j. unfold echo_of. rewrite list_lookup_imap. unfold echo_count in *.
  destruct (decide (j < Z.to_nat (Z.min (in_data_size a) (out_data_size a)))%nat) as [Hj | Hj].
  - rewrite !load_bytes_lookup by done. cbn. f_equal. apply H; lia.
  - rewrite !lookup_ge_None_2; [done | rewrite length_load_bytes; lia..].
Qed.

(** No room for output. *)
Lemma echo_nothing a m : out_data_size a = 0 → echo a m = m.
Proof.
  intros E. unfold echo. induction (seq 0 (Z.to_nat (in_data_size a))) as [| k l IH]; [done |]. cbn [foldl].
  replace (echo_byte a m k) with m; [done |]. unfold echo_byte. by rewrite E, (proj2 (Z.ltb_ge _ _)) by lia.
Qed.

(** ** Copy *)

(** Pairs of buffers as the loop takes them. *)
Definition flat (l : list (xrp_buffer * xrp_buffer)) : list xrp_buffer := l ≫= λ p, [p.1; p.2].
(** A fresh buffer that can be mapped with [f] for [sz] bytes. *)
Definition mappable (sz f : Z) (b : xrp_buffer) : Prop :=
  b_count b = 0 ∧ b_map_count b = 0 ∧ 0 < b_ptr b < 2 ^ 32 ∧ sz ≤ b_size b < 2 ^ 32 ∧
  Z.land (b_allowed_access b) f = f.
Definition pair_ok (sz : Z) (p : xrp_buffer * xrp_buffer) : Prop := mappable sz XRP_READ p.1 ∧ mappable sz XRP_WRITE p.2.

Definition accessed (f : Z) (b : xrp_buffer) : xrp_buffer := with_map b 0 (Z.lor (b_map_flags b) f).
Definition after_copy (p : xrp_buffer * xrp_buffer) : xrp_buffer * xrp_buffer :=
  (accessed XRP_READ p.1, accessed XRP_WRITE p.2).
Definition copy_pair (sz : Z) (m : mem) (p : xrp_buffer * xrp_buffer) : mem :=
  store_bytes m (b_ptr p.2) (load_bytes m (b_ptr p.1) (Z.to_nat sz)).

(** The calls on one buffer: get, map, unmap, release. *)
Lemma buffer_turn sz f b :
  0 ≤ sz → mappable sz f b →
  let b1 := (xrp_retain_buffer b).1 in
  let b2 := (xrp_map_buffer b1 0 sz f).1.1 in
  (xrp_map_buffer b1 0 sz f).1.2 = Some (b_ptr b) ∧
  (xrp_release_buffer (xrp_unmap_buffer b2 (b_ptr b)).1).1 = accessed f b.
Proof.
  intros Hz (Hc & Hm & Hp & Hs & Ha). unfold xrp_map_buffer. cbn -[Z.land Z.lor wrap].
  rewrite Z.sub_0_r, (u32_small (b_size b)) by lia.
  rewrite (proj2 (Z.leb_le 0 _)), (proj2 (Z.leb_le sz _)) by lia. rewrite Ha, Z.eqb_refl. cbn -[Z.lor wrap].
  rewrite Z.add_0_r, u32_small by lia. split; [done |]. unfold xrp_unmap_buffer. cbn -[Z.lor wrap].
  rewrite Z.leb_refl, Z.sub_diag. change (u32 0) with 0. rewrite (proj2 (Z.leb_le 0 _)) by lia. cbn -[Z.lor wrap].
  unfold accessed, with_map. rewrite Hc, Hm. reflexivity.
Qed.

Lemma lookup_two {X} (l : list X) a b r : (l ++ a :: b :: r) !! length l = Some a ∧ (l ++ a :: b :: r) !! (length l + 1)%nat = Some b.
Proof.
  split; [by rewrite list_lookup_middle |]. rewrite lookup_app_r by lia.
  by replace (length l + 1 - length l)%nat with 1%nat by lia.
Qed.

Lemma alter_first {X} (l : list X) a b r f : alter f (length l) (l ++ a :: b :: r) = l ++ f a :: b :: r.
Proof. by rewrite alter_app_r_alt, Nat.sub_diag by lia. Qed.
Lemma alter_second {X} (l : list X) a b r f : alter f (length l + 1)%nat (l ++ a :: b :: r) = l ++ a :: f b :: r.
Proof. rewrite alter_app_r_alt by lia. by replace (length l + 1 - length l)%nat with 1%nat by lia. Qed.

(** One turn of the loop over a pair at position [length done]. *)
Lemma copy_turn fuel m sz n done s d rest :
  0 ≤ sz → pair_ok sz (s, d) →
  copy_buffers (S fuel) m (mk_group n (done ++ s :: d :: rest)) sz (length done) =
  copy_buffers fuel (copy_pair sz m (s, d))
    (mk_group n (done ++ accessed XRP_READ s :: accessed XRP_WRITE d :: rest)) sz (length done + 2).
Proof.
  intros Hz [Hs Hd]. destruct (buffer_turn sz XRP_READ s Hz Hs) as [Ps Es], (buffer_turn sz XRP_WRITE d Hz Hd) as [Pd Ed].
  cbn [fst snd] in *. pose proof (lookup_two done s d rest) as [L1 L2].
  cbn [copy_buffers]. pose proof (get_buffer_alter (mk_group n (done ++ s :: d :: rest)) (length done)) as G1.
  unfold xrp_get_buffer_from_group at 1. unfold xrp_get_buffer_from_group in G1. cbn [g_buffer g_count] in *.
  rewrite L1 in G1 |- *. cbn [fst snd] in G1. rewrite G1. unfold on_buffer. cbn [g_buffer g_count]. rewrite alter_first.
  set (s1 := (xrp_retain_buffer s).1) in *. pose proof (lookup_two done s1 d rest) as [L3 L4].
  pose proof (get_buffer_alter (mk_group n (done ++ s1 :: d :: rest)) (length done + 1)) as G2.
  unfold xrp_get_buffer_from_group at 1. unfold xrp_get_buffer_from_group in G2. cbn [g_buffer g_count] in *.
  rewrite L4 in G2 |- *. cbn [fst snd] in G2. rewrite G2. unfold on_buffer. cbn [g_buffer g_count]. rewrite alter_second.
  set (d1 := (xrp_retain_buffer d).1) in *. unfold map_at. cbn [group_step g_buffer]. unfold on_buffer. cbn [g_buffer g_count].
  rewrite alter_first, alter_second, (proj1 (lookup_two done s1 d1 rest)). cbn [mbind option_bind]. rewrite Ps.
  set (s2 := (xrp_map_buffer s1 0 sz XRP_READ).1.1) in *.
  rewrite (proj2 (lookup_two done s2 d1 rest)). cbn [mbind option_bind]. rewrite Pd.
  set (d2 := (xrp_map_buffer d1 0 sz XRP_WRITE).1.1) in *.
  destruct Hs as (_ & _ & Hps & _), Hd as (_ & _ & Hpd & _).
  cbn [mbind option_bind]. rewrite (proj2 (Z.eqb_neq (b_ptr s) 0)), (proj2 (Z.eqb_neq (b_ptr d) 0)) by lia.
  cbn [group_run foldl group_step]. unfold on_buffer. cbn [g_buffer g_count].
  rewrite !alter_first, !alter_second, !alter_first, !alter_second. rewrite Es, Ed. reflexivity.
Qed.

Lemma copy_end fuel m sz n done : copy_buffers (S fuel) m (mk_group n done) sz (length done) = Some (m, mk_group n done, length done).
Proof.
  cbn [copy_buffers]. unfold xrp_get_buffer_from_group. cbn [g_buffer]. rewrite lookup_ge_None_2 by lia. cbn [g_buffer].
  by rewrite lookup_ge_None_2 by lia.
Qed.

Lemma copy_pairs_run sz n pairs : ∀ fuel m done,
  0 ≤ sz → Forall (pair_ok sz) pairs → (length pairs < fuel)%nat →
  copy_buffers fuel m (mk_group n (done ++ flat pairs)) sz (length done) =
  Some (foldl (copy_pair sz) m pairs, mk_group n (done ++ flat (after_copy <$> pairs)), (length done + 2 * length pairs)%nat).
Proof.
  induction pairs as [| [s d] pairs IH]; intros [| fuel] m done Hz Hp Hf; cbn [length] in Hf; try lia.
  { cbn [flat mbind list_bind fmap list_fmap foldl length]. rewrite app_nil_r, copy_end. do 2 f_equal. lia. }
  apply list.Forall_cons in Hp as [Hp Hps].
  change (flat ((s, d) :: pairs)) with (s :: d :: flat pairs). rewrite copy_turn by done.
  replace (done ++ accessed XRP_READ s :: accessed XRP_WRITE d :: flat pairs)
    with ((done ++ [accessed XRP_READ s; accessed XRP_WRITE d]) ++ flat pairs) by (by rewrite <- app_assoc).
  replace (length done + 2)%nat with (length (done ++ [accessed XRP_READ s; accessed XRP_WRITE d])) by (rewrite length_app; done).
  rewrite IH by (done || lia). cbn [foldl]. do 2 f_equal; [| rewrite length_app; cbn [length]; lia].
  f_equal. f_equal. cbn. by rewrite <- app_assoc.
Qed.

Lemma length_flat pairs : length (flat pairs) = (2 * length pairs)%nat.
Proof. induction pairs as [| p pairs IH]; [done |]. cbn. unfold flat in IH. rewrite IH. lia. Qed.

(** The loop ends on every group, and only makes calls on the group. *)
Lemma group_run_app g cs cs' : group_run g (cs ++ cs') = group_run (group_run g cs) cs'.
Proof. apply foldl_app. Qed.

Lemma get_cases g i :
  ∃ b st, xrp_get_buffer_from_group g i = (group_step g (CallGet i), b, st) ∧
    (is_Some b → b = Some i ∧ (i < length (g_buffer g))%nat).
Proof.
  cbn [group_step]. unfold xrp_get_buffer_from_group. destruct (g_buffer g !! i) as [b |] eqn:E; do 2 eexists; split; [done | | done |].
  - intros _. split; [done |]. by eapply lookup_lt_Some.
  - by intros [? ?].
Qed.

Lemma copy_buffers_total fuel m g sz i :
  (0 < fuel)%nat → (length (g_buffer g) < i + fuel)%nat →
  ∃ m' cs i', copy_buffers fuel m g sz i = Some (m', group_run g cs, i').
Proof.
  revert m g i. induction fuel as [| fuel IH]; intros m g i Hf Hl; [lia |]. cbn [copy_buffers].
  destruct (get_cases g i) as (sb & st & -> & Hs). set (g1 := group_step g (CallGet i)).
  destruct (get_cases g1 (i + 1)) as (db & st' & -> & Hd).
  assert (length (g_buffer g1) = length (g_buffer g)) as L1 by apply (group_run_length g [CallGet i]). rewrite L1 in Hd.
  set (g2 := group_step g1 (CallGet (i + 1))).
  destruct sb as [s |]; [| by exists m, [CallGet i; CallGet (i + 1)], i].
  destruct db as [d |]; [| by exists m, [CallGet i; CallGet (i + 1)], i].
  destruct (Hs ltac:(by eexists)) as [[= ->] H1], (Hd ltac:(by eexists)) as [[= ->] H2].
  unfold map_at. set (g3 := group_step g2 _). set (g4 := group_step g3 _).
  set (pre := [CallGet i; CallGet (i + 1); CallMap i 0 sz XRP_READ; CallMap (i + 1) 0 sz XRP_WRITE]).
  assert (g4 = group_run g pre) as E4 by done. clearbody g4. rewrite E4.
  destruct (g_buffer g2 !! i ≫= _) as [src |]; [| exists m, (pre ++ [CallRelease i; CallRelease (i + 1)]), i; by rewrite group_run_app].
  destruct (g_buffer g3 !! (i + 1)%nat ≫= _) as [dst |]; [| exists m, (pre ++ [CallRelease i; CallRelease (i + 1)]), i; by rewrite group_run_app].
  rewrite <- group_run_app. set (cs := pre ++ _).
  destruct (IH (store_bytes m dst (load_bytes m src (Z.to_nat sz))) (group_run g cs) (i + 2)%nat) as (m' & cs' & i' & E); [lia | rewrite group_run_length; lia |].
  exists m', (cs ++ cs'), i'. by rewrite group_run_app.
Qed.

Lemma copy_all_total m g sz : ∃ m' cs i', copy_all m g sz = Some (m', group_run g cs, i').
Proof.
  unfold copy_all. destruct (sz =? 0); [by exists m, [], 0%nat |]. apply copy_buffers_total; lia.
Qed.

Lemma v1_group ctx a m g : ∃ cs, hr_group (example_v1_handler ctx a m g) = group_run g cs.
Proof.
  unfold example_v1_handler. destruct (copy_all_total (echo a m) g (copy_size a (echo a m))) as (m' & cs & i' & ->). by exists cs.
Qed.
Lemma v2_group ctx a m g : ∃ cs, hr_group (example_v2_handler ctx a m g) = group_run g cs.
Proof. by exists []. Qed.
Lemma run_command_group a m g : ∃ cs, hr_group (xrp_run_command_handler xrp_run_command a m g) = group_run g cs.
Proof. by exists []. Qed.

(** ** What the handlers compute *)

(** [n] bytes at [a] and [n'] at [a'] do not overlap. *)
Definition ranges_apart (a n a' n' : Z) : Prop := a + n ≤ a' ∨ a' + n' ≤ a.

(** Destinations overlap neither sources nor one another. *)
Fixpoint copies_apart (sz : Z) (pairs : list (xrp_buffer * xrp_buffer)) : Prop :=
  match pairs with
  | [] => True
  | p :: pairs =>
      ranges_apart (b_ptr p.1) sz (b_ptr p.2) sz ∧
      Forall (λ q, ranges_apart (b_ptr p.2) sz (b_ptr q.1) sz ∧ ranges_apart (b_ptr p.2) sz (b_ptr q.2) sz ∧
                   ranges_apart (b_ptr p.1) sz (b_ptr q.2) sz) pairs ∧
      copies_apart sz pairs
  end.

Lemma copy_pair_out sz m p x :
  0 ≤ sz → x < b_ptr p.2 ∨ b_ptr p.2 + sz ≤ x → copy_pair sz m p x = m x.
Proof. intros Hz Hx. apply store_bytes_out. rewrite length_load_bytes. lia. Qed.

Lemma copies_out sz pairs m x :
  0 ≤ sz → Forall (λ p, x < b_ptr p.2 ∨ b_ptr p.2 + sz ≤ x) pairs → foldl (copy_pair sz) m pairs x = m x.
Proof.
  intros Hz Hx. revert m. induction Hx as [| p pairs Hp Hps IH]; intros m; [done |]. cbn. rewrite IH. by apply copy_pair_out.
Qed.

Lemma copies_done sz pairs m p :
  0 ≤ sz → copies_apart sz pairs → p ∈ pairs →
  load_bytes (foldl (copy_pair sz) m pairs) (b_ptr p.2) (Z.to_nat sz) = load_bytes m (b_ptr p.1) (Z.to_nat sz).
Proof.
  intros Hz. revert m. induction pairs as [| q pairs IH]; intros m Hap Hin; [by apply not_elem_of_nil in Hin |].
  destruct Hap as (Hq & Hqs & Hap). rewrite list.Forall_forall in Hqs. cbn [foldl]. apply elem_of_cons in Hin as [-> | Hin].
  - transitivity (load_bytes (copy_pair sz m q) (b_ptr q.2) (Z.to_nat sz)).
    + apply load_bytes_ext. intros x Hx. apply copies_out; [done |]. apply list.Forall_forall. intros r Hr.
      destruct (Hqs r Hr) as (_ & H & _). unfold ranges_apart in H. lia.
    + unfold copy_pair. rewrite <- (length_load_bytes m (b_ptr q.1) (Z.to_nat sz)) at 2. apply load_store_same.
  - rewrite IH by done. apply load_bytes_ext. intros x Hx. apply copy_pair_out; [done |].
    destruct (Hqs p Hin) as (H & _ & _). unfold ranges_apart in H. lia.
Qed.

Lemma group_size g :
  Z.of_nat (length (g_buffer g)) < 2 ^ 32 →
  match (xrp_buffer_group_get_info g XRP_BUFFER_GROUP_SIZE_SIZE_T 0 4).1 with Some l => le_val l | None => 0 end =
  Z.of_nat (length (g_buffer g)).
Proof. intros Hl. cbn -[le_bytes le_val]. unfold g_n_buffers. apply le_val_bytes. lia. Qed.

(** Without buffers the handler just echoes. *)
Lemma v1_echoes ctx a m n : example_v1_handler ctx a m (mk_group n []) = mk_hres XRP_STATUS_SUCCESS (echo a m) (mk_group n []).
Proof. unfold example_v1_handler, copy_all. by destruct (_ =? 0). Qed.

(** With no size given it does not touch the buffers, and fails if there are any. *)
Lemma v1_no_size ctx a m g :
  Z.of_nat (length (g_buffer g)) < 2 ^ 32 → copy_size a (echo a m) = 0 →
  example_v1_handler ctx a m g =
  mk_hres (if bool_decide (g_buffer g = []) then XRP_STATUS_SUCCESS else XRP_STATUS_FAILURE) (echo a m) g.
Proof.
  intros Hl E. unfold example_v1_handler, copy_all. rewrite E. cbn [Z.eqb]. rewrite group_size by done.
  destruct (g_buffer g); done.
Qed.

Lemma v1_copies ctx a m n pairs sz :
  copy_size a (echo a m) = sz → 0 < sz → Forall (pair_ok sz) pairs → Z.of_nat (2 * length pairs) < 2 ^ 32 →
  example_v1_handler ctx a m (mk_group n (flat pairs)) =
  mk_hres XRP_STATUS_SUCCESS (foldl (copy_pair sz) (echo a m) pairs) (mk_group n (flat (after_copy <$> pairs))).
Proof.
  intros E Hz Hp Hl. unfold example_v1_handler, copy_all. rewrite E, (proj2 (Z.eqb_neq sz 0)) by lia.
  cbn [g_buffer]. rewrite length_flat.
  pose proof (copy_pairs_run sz n pairs (S (2 * length pairs)) (echo a m) [] ltac:(lia) Hp ltac:(lia)) as Hrun.
  cbn [app length] in Hrun. rewrite Hrun, group_size; cbn [g_buffer]; rewrite length_flat, length_fmap; [| done].
  by rewrite Z.eqb_refl.
Qed.

(** Bytes no destination and no output area covers. *)
Definition untouched (a : cmd_args) (sz : Z) (pairs : list (xrp_buffer * xrp_buffer)) (x : Z) : Prop :=
  (x < out_data a ∨ out_data a + out_data_size a ≤ x) ∧ Forall (λ p, x < b_ptr p.2 ∨ b_ptr p.2 + sz ≤ x) pairs.
(** Sources and destinations that do not overlap the output area. *)
Definition pairs_off_output (a : cmd_args) (sz : Z) (pairs : list (xrp_buffer * xrp_buffer)) : Prop :=
  Forall (λ p, ranges_apart (b_ptr p.1) sz (out_data a) (out_data_size a) ∧
               ranges_apart (b_ptr p.2) sz (out_data a) (out_data_size a)) pairs.

(** C28: the example's handler does what it is for.  Called with a size at
    the front of its input and pairs of buffers that allow it, it always
    ends with success, the output area has the input bytes with their
    positions added, the second buffer of every pair holds what the first
    held, every buffer is unmapped again with its read or write access
    recorded, and no other byte of memory changes. *)
Theorem v1_handler_correct ctx a m n pairs :
  let sz := load32 m (in_data a) in
  let hr := example_v1_handler ctx a m (mk_group n (flat pairs)) in
  4 ≤ in_data_size a → 0 ≤ out_data_size a → data_apart a → 0 < sz → Forall (pair_ok sz) pairs →
  copies_apart sz pairs → pairs_off_output a sz pairs → Z.of_nat (2 * length pairs) < 2 ^ 32 →
  hr_status hr = XRP_STATUS_SUCCESS ∧ hr_group hr = mk_group n (flat (after_copy <$> pairs)) ∧
  load_bytes (hr_mem hr) (out_data a) (echo_count a) = echo_of (load_bytes m (in_data a) (echo_count a)) ∧
  (∀ p, p ∈ pairs → load_bytes (hr_mem hr) (b_ptr p.2) (Z.to_nat sz) = load_bytes m (b_ptr p.1) (Z.to_nat sz)) ∧
  ∀ x, untouched a sz pairs x → hr_mem hr x = m x.
Proof.
  intros sz hr Hi Ho Hda Hz Hp Hap Hoff Hl.
  assert (∀ x, x < out_data a ∨ out_data a + out_data_size a ≤ x → echo a m x = m x) as Hecho by (intros; apply echo_out; lia || done).
  assert (copy_size a (echo a m) = sz) as Ecs.
  { unfold copy_size. rewrite (proj2 (Z.leb_le _ _)) by done. unfold sz, load32. f_equal. apply load_bytes_ext. intros x Hx.
    apply Hecho. unfold data_apart in Hda. lia. }
  pose proof (v1_copies ctx a m n pairs sz Ecs Hz Hp Hl) as Hr. change (hr = mk_hres XRP_STATUS_SUCCESS
    (foldl (copy_pair sz) (echo a m) pairs) (mk_group n (flat (after_copy <$> pairs)))) in Hr. rewrite Hr. cbn [hr_status hr_group hr_mem].
  unfold pairs_off_output in Hoff. rewrite list.Forall_forall in Hoff. split; [done |]. split; [done |]. split; [| split].
  - rewrite <- echo_bytes by (done || lia). apply load_bytes_ext. intros x Hx. apply copies_out; [lia |].
    apply list.Forall_forall. intros p Hin. destruct (Hoff p Hin) as [_ H2]. unfold ranges_apart, echo_count in *. lia.
  - intros p Hin. rewrite copies_done by (done || lia). apply load_bytes_ext. intros x Hx. apply Hecho.
    destruct (Hoff p Hin) as [H1 _]. unfold ranges_apart in *. lia.
  - intros x [Hx1 Hx2]. rewrite copies_out by (done || lia). by apply Hecho.
Qed.

Module HandlerExample.
(** Input of four bytes, output of two, and a pair of 16-byte buffers. *)
Definition args : cmd_args := mk_args 0x100 4 0x200 2.
Definition memory : mem := store32 (store_bytes (λ _, 0) 0x1000 (seqZ 1 16)) 0x100 16.
Definition pair : xrp_buffer * xrp_buffer := (mk_buffer 0 0x1000 16 0 XRP_READ 0, mk_buffer 0 0x2000 16 0 XRP_READ_WRITE 0).

Lemma v1_handler_correct_witness :
  load_bytes (hr_mem (example_v1_handler 0 args memory (mk_group 0 (flat [pair])))) 0x2000 16 = seqZ 1 16.
Proof.
  assert (load32 memory (in_data args) = 16) as Esz by (vm_compute; reflexivity).
  destruct (v1_handler_correct 0 args memory 0 [pair]) as (_ & _ & _ & Hc & _).
  - cbn. lia.
  - cbn. lia.
  - left. cbn. lia.
  - rewrite Esz. lia.
  - rewrite Esz. constructor; [| constructor]. split; repeat split; try reflexivity; cbn; lia.
  - rewrite Esz. cbn. split; [left; cbn; lia |]. split; constructor.
  - rewrite Esz. constructor; [| constructor]. split; right; cbn; lia.
  - cbn. lia.
  - rewrite Esz in Hc. etrans; [exact (Hc pair ltac:(by left)) |]. vm_compute. reflexivity.
Defined.
End HandlerExample.

(** ** Registration *)

Section registered.
Context (fresh : nat → option (list (xrp_cmd_ns example_handler))).
(** [realloc] does not fail. *)
Context (Hfresh : fresh_ok fresh) (Hmem : ∀ k, is_Some (fresh k)).
Abbreviation device := (xrp_device example_handler).

Lemma register_ok (dev : device) id h ctx :
  ns_inv dev → id_ok id → ns_map dev !! id = None →
  ∃ dev', xrp_device_register_namespace fresh dev id h ctx = (dev', XRP_STATUS_SUCCESS) ∧
    ns_inv dev' ∧ ns_map dev' = <[id := (h, ctx)]> (ns_map dev) ∧ d_dsp_cmd dev' = d_dsp_cmd dev.
Proof.
  intros Hi Hid Hn. pose proof (register_refines fresh dev id h ctx Hi Hid Hfresh) as Hr.
  assert (d_dsp_cmd (xrp_device_register_namespace fresh dev id h ctx).1 = d_dsp_cmd dev) as Hc.
  { unfold xrp_device_register_namespace, insert_cmd_ns. destruct (ns_registered _ _ _); [done |].
    destruct (if (_ =? _)%nat then _ else _); done. }
  destruct (xrp_device_register_namespace fresh dev id h ctx) as [dev' st]. rewrite Hn in Hr. cbn in Hc.
  destruct Hr as [(-> & ? & ?) | (_ & _ & _ & Hf)]; [by exists dev' |]. destruct (Hmem (size_cmd_ns dev + 2)); congruence.
Qed.

Lemma unregister_ok (dev : device) id :
  ns_inv dev → id_ok id → is_Some (ns_map dev !! id) →
  ∃ dev', xrp_device_unregister_namespace dev id = (dev', XRP_STATUS_SUCCESS) ∧
    ns_inv dev' ∧ ns_map dev' = delete id (ns_map dev) ∧ d_dsp_cmd dev' = d_dsp_cmd dev.
Proof.
  intros Hi Hid Hs. pose proof (unregister_namespace_refines dev id Hi Hid) as Hr.
  assert (d_dsp_cmd (xrp_device_unregister_namespace dev id).1 = d_dsp_cmd dev) as Hc.
  { unfold xrp_device_unregister_namespace. by destruct (ns_registered _ _ _). }
  destruct (xrp_device_unregister_namespace dev id) as [dev' st]. cbn in Hc. destruct Hr as (? & ? & [_ Hst] & _).
  rewrite (Hst Hs). by exists dev'.
Qed.

Lemma register_all_ok ids : ∀ dev,
  ns_inv dev → Forall id_ok ids → NoDup ids → (∀ id, id ∈ ids → ns_map dev !! id = None) →
  ∃ dev', register_all fresh dev ids = (dev', XRP_STATUS_SUCCESS) ∧ ns_inv dev' ∧ d_dsp_cmd dev' = d_dsp_cmd dev ∧
    ∀ id, ns_map dev' !! id = if decide (id ∈ ids) then Some (NullHandler, 0) else ns_map dev !! id.
Proof.
  induction ids as [| id ids IH]; intros dev Hi Hid Hnd Hn.
  { exists dev. split_and!; try done. }
  apply list.Forall_cons in Hid as [Hid Hids]. apply list.NoDup_cons in Hnd as [Hni Hnd].
  destruct (register_ok dev id NullHandler 0 Hi Hid) as (dev1 & E1 & Hi1 & M1 & C1); [apply Hn; by left |].
  destruct (IH dev1 Hi1 Hids Hnd) as (dev2 & E2 & Hi2 & C2 & M2).
  { intros id' Hin. rewrite M1, lookup_insert_ne by (intros ->; done). apply Hn. by right. }
  exists dev2. cbn [register_all]. rewrite E1, decide_True by done. split_and!; [done | done | congruence |].
  intros id'. rewrite M2, M1. destruct (decide (id' ∈ ids)) as [Hin | Hin]; [by rewrite decide_True by (by right) |].
  destruct (decide (id' = id)) as [-> | Hne].
  - rewrite lookup_insert_eq, decide_True by (by left). done.
  - rewrite lookup_insert_ne by done. rewrite decide_False; [done |]. rewrite elem_of_cons. tauto.
Qed.

Lemma unregister_all_ok ids : ∀ dev,
  ns_inv dev → Forall id_ok ids → NoDup ids → (∀ id, id ∈ ids → is_Some (ns_map dev !! id)) →
  ∃ dev', unregister_all dev ids = (dev', XRP_STATUS_SUCCESS) ∧ ns_inv dev' ∧ d_dsp_cmd dev' = d_dsp_cmd dev ∧
    ∀ id, ns_map dev' !! id = if decide (id ∈ ids) then None else ns_map dev !! id.
Proof.
  induction ids as [| id ids IH]; intros dev Hi Hid Hnd Hn.
  { exists dev. split_and!; try done. }
  apply list.Forall_cons in Hid as [Hid Hids]. apply list.NoDup_cons in Hnd as [Hni Hnd].
  destruct (unregister_ok dev id Hi Hid) as (dev1 & E1 & Hi1 & M1 & C1); [apply Hn; by left |].
  destruct (IH dev1 Hi1 Hids Hnd) as (dev2 & E2 & Hi2 & C2 & M2).
  { intros id' Hin. rewrite M1, lookup_delete_ne by (intros ->; done). apply Hn. by right. }
  exists dev2. cbn [unregister_all]. rewrite E1, decide_True by done. split_and!; [done | done | congruence |].
  intros id'. rewrite M2, M1. destruct (decide (id' ∈ ids)) as [Hin | Hin]; [by rewrite decide_True by (by right) |].
  destruct (decide (id' = id)) as [-> | Hne].
  - rewrite lookup_delete_eq, decide_True by (by left). done.
  - rewrite lookup_delete_ne by done. rewrite decide_False; [done |]. rewrite elem_of_cons. tauto.
Qed.

(** The self-test leaves the registrations as they were. *)
Lemma test_ns_ok dev ids :
  ns_inv dev → Forall id_ok ids → NoDup ids → (∀ id, id ∈ ids → ns_map dev !! id = None) →
  ∃ dev', test_ns fresh dev ids = (dev', XRP_STATUS_SUCCESS) ∧ ns_inv dev' ∧ ns_map dev' = ns_map dev ∧
    d_dsp_cmd dev' = d_dsp_cmd dev.
Proof.
  intros Hi Hid Hnd Hn. destruct (register_all_ok ids dev Hi Hid Hnd Hn) as (dev1 & E1 & Hi1 & C1 & M1).
  destruct (unregister_all_ok ids dev1 Hi1 Hid Hnd) as (dev2 & E2 & Hi2 & C2 & M2).
  { intros id Hin. rewrite M1, decide_True by done. by eexists. }
  exists dev2. unfold test_ns. rewrite E1, decide_True by done. split_and!; [done | done | | congruence].
  apply map_eq. intros id. rewrite M2, M1. destruct (decide (id ∈ ids)) as [Hin | Hin]; [by rewrite Hn | done].
Qed.

(** The device of the DSP before [main]. *)
Definition boot_device : device := mk_device 0 0 0 [].

Lemma dsp_main_ok comm_base ids :
  Forall id_ok ids → NoDup ids →
  ∃ dev, dsp_main fresh comm_base boot_device ids = Some dev ∧ d_dsp_cmd dev = comm_base ∧
    lookup_handler dev XRP_EXAMPLE_V1_NSID = Some (Some (ExampleV1, 0)) ∧
    lookup_handler dev XRP_EXAMPLE_V2_NSID = Some (Some (ExampleV2, 0)).
Proof.
  intros Hid Hnd. unfold dsp_main. cbn [xrp_open_device boot_device Z.eqb]. rewrite decide_True by done.
  set (dev0 := mk_device _ _ _ _).
  assert (ns_inv dev0) as Hi0 by (split; [done | constructor..]).
  destruct (test_ns_ok dev0 ids Hi0 Hid Hnd) as (dev1 & -> & Hi1 & M1 & C1); [done |]. rewrite decide_True by done.
  destruct (register_ok dev1 XRP_EXAMPLE_V1_NSID ExampleV1 0 Hi1 eq_refl) as (dev2 & -> & Hi2 & M2 & C2); [by rewrite M1 |].
  rewrite decide_True by done.
  destruct (register_ok dev2 XRP_EXAMPLE_V2_NSID ExampleV2 0 Hi2 eq_refl) as (dev3 & -> & Hi3 & M3 & C3); [by rewrite M2, M1 |].
  rewrite decide_True by done. exists dev3. split_and!; [done | by rewrite C3, C2, C1 | |].
  - apply lookup_handler_registered; [done | done |]. rewrite M3, lookup_insert_ne by done. by rewrite M2, lookup_insert_eq.
  - apply lookup_handler_registered; [done | done |]. by rewrite M3, lookup_insert_eq.
Qed.
End registered.
