(* ===== verification/ExampleHost.v ===== *)
(** * The host side of the example (xrp-example/linux_main.c)

    The seven tests of the example program as programs over the simulator
    library: a computation changes the library's state, stops at an
    assertion that does not hold, or faults.  Local variables whose address
    the program takes are addresses of its stack. *)

From stdpp Require Import base tactics list gmap fin_maps numbers.
From S2P Require Import Prelude Mem DspNs Interface SimMem SimLib ExampleDsp.
Open Scope Z_scope.

(** ** Programs *)

Inductive outcome (X : Type) :=
| Done (s : sim) (x : X)
| AssertionFailed
| Fault.
Arguments Done {X} _ _.
Arguments AssertionFailed {X}.
Arguments Fault {X}.

Definition prog (X : Type) : Type := sim → outcome X.

#[export] Instance prog_ret : MRet prog := λ X x s, Done s x.
#[export] Instance prog_bind : MBind prog := λ X Y f p s,
  match p s with
  | Done s x => f x s
  | AssertionFailed => AssertionFailed
  | Fault => Fault
  end.

Definition check (b : bool) : prog () := λ s, if b then Done s () else AssertionFailed.

Definition stop {X} : prog X := λ _, AssertionFailed.

(** A call of the library, and one without a result. *)
Definition call {X} (f : sim → option (sim * X)) : prog X := λ s,
  match f s with Some (s, x) => Done s x | None => Fault end.
Definition call_ (f : sim → option sim) : prog () := call (λ s, s ← f s; Some (s, ())).
(** A call that returns an object, and [assert(status == XRP_STATUS_SUCCESS)]. *)
Definition call_obj {X} (f : sim → option (sim * option X)) : prog X :=
  x ← call f; match x with Some x => mret x | None => stop end.
Definition call_ok (f : sim → option (sim * xrp_status)) : prog () :=
  st ← call f; check (bool_decide (st = XRP_STATUS_SUCCESS)).
Definition query {X} (f : sim → option X) : prog X := call (λ s, x ← f s; Some (s, x)).

Definition memset (a v n : Z) : prog () := λ s,
  Done (set_mem s (store_bytes (s_mem s) a (replicate (Z.to_nat n) (wrap 8 v)))) ().
Definition read (a n : Z) : prog (list Z) := λ s, Done s (load_bytes (s_mem s) a (Z.to_nat n)).
Definition write (a : Z) (l : list Z) : prog () := λ s, Done (set_mem s (store_bytes (s_mem s) a l)) ().

Fixpoint for_each {X} (l : list X) (body : X → prog ()) : prog () :=
  match l with [] => mret () | x :: l => _ ← body x; for_each l body end.

(** [char] is signed. *)
Definition char (b : Z) : Z := if b <? 128 then b else b - 256.

Section host.
Context `{Arch} (e : sim_env) (fuel : nat) (kz : callocs) (junk : mem).
(** What the DSP does with a command, and how often the worker polls before. *)
Context (turn : mem → mem) (polls : nat).
Abbreviation dsp := (replicate polls id ++ [turn]).
Abbreviation XRP_READ := 1.
Abbreviation XRP_WRITE := 2.
Abbreviation XRP_READ_WRITE := 3.

(** ** Calls *)

Definition open_device (devid : Z) : prog nat := call_obj (λ s, xrp_open_device fuel e true s devid).
Definition create_ns_queue (device : nat) (nsid : option (list Z)) : prog nat :=
  call_obj (λ s, xrp_create_ns_queue true s (Some device) nsid).
Definition create_buffer (device : nat) (size : Z) (host_ptr : option Z) : prog nat :=
  call_obj (λ s, xrp_create_buffer kz true s (Some device) size host_ptr).
Definition map_buffer (b : nat) (offset size flags : Z) : prog Z := call_obj (λ s, xrp_map_buffer s b offset size flags).
Definition unmap_buffer (b : nat) (p : Z) : prog () := call_ok (λ s, xrp_unmap_buffer s b p).
Definition create_group : prog nat := call_obj (λ s, Some (xrp_create_buffer_group true s)).
Definition add_buffer (g b : nat) (flags : Z) : prog nat := call_obj (λ s, xrp_add_buffer_to_group true s g b flags).
Definition enqueue (q : nat) (in_data : list Z) (out_data out_size : Z) (group : option nat) : prog nat :=
  x ← call (λ s, '(s, ev, st) ← xrp_enqueue_command kz true true junk s q in_data out_data out_size group true;
                 Some (s, (ev, st)));
  match x with (Some ev, XRP_STATUS_SUCCESS) => mret ev | _ => stop end.
Definition run_command_sync (q : nat) (in_data : list Z) (out_data out_size : Z) (group : option nat) : prog xrp_status :=
  call (λ s, xrp_run_command_sync [dsp] kz true true junk s q in_data out_data out_size group).
Definition succeeds (p : prog xrp_status) : prog () := st ← p; check (bool_decide (st = XRP_STATUS_SUCCESS)).

(** The worker of the device runs [n] rounds, idle ones included. *)
Definition worker (device : nat) (n : nat) : prog () :=
  for_each (seq 0 n) (λ _, call_ (λ s, x ← xrp_queue_process dsp s device; Some (default s x))).

(** ** The tests *)

(** [in_buf], [out_buf]: arrays of 32 bytes. *)
Definition f1 (devid in_buf out_buf : Z) : prog () :=
  device ← open_device devid;
  queue ← create_ns_queue device (Some XRP_EXAMPLE_V1_NSID);
  _ ← for_each (seqZ 0 33) (λ i,
    _ ← memset in_buf i 32;
    _ ← memset out_buf 0 32;
    data ← read in_buf i;
    _ ← succeeds (run_command_sync queue data out_buf i None);
    for_each (seqZ 0 32) (λ j,
      b ← read (out_buf + j) 1;
      check (char (le_val b) =? (if j <? i then i + j else 0))));
  _ ← call_ (λ s, xrp_release_queue s queue);
  call_ (λ s, xrp_release_device false s device).

(** [sched]: the rounds the worker of the device runs before each of the
    calls after the first command; waiting runs it as long as needed. *)
Definition f2 (devid : Z) (sched : nat → nat) : prog () :=
  device ← open_device devid;
  queue ← create_ns_queue device (Some XRP_EXAMPLE_V1_NSID);
  group ← create_group;
  buf ← create_buffer device 1024 None;
  data ← map_buffer buf 0 1024 XRP_READ_WRITE;
  _ ← memset data 122 1024;
  _ ← unmap_buffer buf data;
  _ ← add_buffer group buf XRP_READ_WRITE;
  event0 ← enqueue queue [] 0 0 (Some group);
  _ ← worker device (sched 0%nat);
  event1 ← enqueue queue [] 0 0 (Some group);
  _ ← worker device (sched 1%nat);
  _ ← call_ (λ s, xrp_release_buffer_group s group);
  _ ← worker device (sched 2%nat);
  _ ← call_ (λ s, xrp_release_buffer s buf);
  _ ← worker device (sched 3%nat);
  _ ← call_ (λ s, xrp_release_queue s queue);
  _ ← worker device (sched 4%nat);
  _ ← call_ (λ s, xrp_wait [dsp; dsp] s device event1);
  st ← query (λ s, xrp_event_status s event0);
  _ ← check (negb (bool_decide (st = XRP_STATUS_PENDING)));
  _ ← call_ (λ s, xrp_wait [] s device event0);
  _ ← call_ (λ s, xrp_release_event false s event0);
  _ ← call_ (λ s, xrp_release_event false s event1);
  call_ (λ s, xrp_release_device false s device).

(** A buffer's host pointer: what [malloc] returned, if it was called. *)
Definition host_ptr (b : bool) (p : Z) : option Z := if b && negb (p =? 0) then Some p else None.

(** The body of the loop of [f3] for one size and one choice of buffers;
    [p1], [p2]: what [malloc] returns, [psz]: the address of [sz]. *)
Definition f3_body (device queue : nat) (psz p1 p2 sz i : Z) : prog () :=
  group ← create_group;
  buf1 ← create_buffer device sz (host_ptr (Z.testbit i 0) p1);
  buf2 ← create_buffer device sz (host_ptr (Z.testbit i 1) p2);
  data1 ← map_buffer buf1 0 sz XRP_READ_WRITE;
  _ ← memset data1 (i + 3 + sz / 512) sz;
  _ ← unmap_buffer buf1 data1;
  _ ← add_buffer group buf1 XRP_READ;
  _ ← add_buffer group buf2 XRP_WRITE;
  _ ← write psz (le_bytes 4 sz);
  data ← read psz 4;
  _ ← succeeds (run_command_sync queue data 0 0 (Some group));
  _ ← call_ (λ s, xrp_release_buffer_group s group);
  data1 ← map_buffer buf1 0 sz XRP_READ_WRITE;
  data2 ← map_buffer buf2 0 sz XRP_READ_WRITE;
  _ ← check (negb (data1 =? 0));
  _ ← check (negb (data2 =? 0));
  l1 ← read data1 sz;
  l2 ← read data2 sz;
  _ ← check (bool_decide (l1 = l2));
  _ ← unmap_buffer buf1 data1;
  _ ← unmap_buffer buf2 data2;
  _ ← call_ (λ s, xrp_release_buffer s buf1);
  call_ (λ s, xrp_release_buffer s buf2).

Definition f3 (devid psz p1 p2 : Z) : prog () :=
  device ← open_device devid;
  queue ← create_ns_queue device (Some XRP_EXAMPLE_V1_NSID);
  _ ← for_each [2048; 4096; 8192] (λ sz, for_each (seqZ 0 4) (λ i, f3_body device queue psz p1 p2 sz i));
  _ ← call_ (λ s, xrp_release_queue s queue);
  call_ (λ s, xrp_release_device false s device).

Definition f4 (devid : Z) : prog () :=
  device ← open_device devid;
  queue ← create_ns_queue device (Some XRP_EXAMPLE_V1_NSID);
  group ← create_group;
  buf1 ← create_buffer device 1 None;
  buf2 ← create_buffer device 1 None;
  i ← add_buffer group buf1 XRP_READ;
  _ ← call_ok (λ s, xrp_set_buffer_in_group s group i buf2 XRP_READ);
  st ← call (λ s, xrp_set_buffer_in_group s group (i + 1) buf2 XRP_READ);
  _ ← check (bool_decide (st = XRP_STATUS_FAILURE));
  buf3 ← call_obj (λ s, xrp_get_buffer_from_group s group i);
  _ ← check (buf3 =? buf2)%nat;
  _ ← call_ (λ s, xrp_release_buffer s buf1);
  _ ← call_ (λ s, xrp_release_buffer s buf2);
  _ ← call_ (λ s, xrp_release_buffer s buf3);
  _ ← call_ (λ s, xrp_release_buffer_group s group);
  _ ← call_ (λ s, xrp_release_queue s queue);
  call_ (λ s, xrp_release_device false s device).

(** [pi]: the address of [i]. *)
Definition f5 (devid pi : Z) : prog () :=
  device ← open_device devid;
  queue ← create_ns_queue device (Some XRP_EXAMPLE_V1_NSID);
  group ← create_group;
  buf1 ← create_buffer device 1 None;
  buf2 ← create_buffer device 8 (Some pi);
  i ← add_buffer group buf1 XRP_READ;
  sz ← query (λ s, xrp_buffer_get_info s buf1 (Some XRP_BUFFER_SIZE_SIZE_T) 8);
  _ ← check (bool_decide (sz = Some 1));
  ptr ← query (λ s, xrp_buffer_get_info s buf1 (Some XRP_BUFFER_HOST_POINTER_PTR) 8);
  _ ← check (bool_decide (ptr = Some 0));
  ptr ← query (λ s, xrp_buffer_get_info s buf2 (Some XRP_BUFFER_HOST_POINTER_PTR) 8);
  _ ← check (bool_decide (ptr = Some pi));
  flags ← query (λ s, xrp_buffer_group_get_info s group (Some XRP_BUFFER_GROUP_BUFFER_FLAGS_ENUM) i 4);
  _ ← check (bool_decide (flags = Some XRP_READ));
  sz ← query (λ s, xrp_buffer_group_get_info s group (Some XRP_BUFFER_GROUP_SIZE_SIZE_T) 0 8);
  _ ← check (bool_decide (sz = Some 1));
  _ ← call_ (λ s, xrp_release_buffer s buf1);
  _ ← call_ (λ s, xrp_release_buffer s buf2);
  _ ← call_ (λ s, xrp_release_buffer_group s group);
  _ ← call_ (λ s, xrp_release_queue s queue);
  call_ (λ s, xrp_release_device false s device).

Definition f6 (devid : Z) : prog () :=
  device ← open_device devid;
  queue ← call_obj (λ s, xrp_create_queue true s (Some device));
  _ ← succeeds (run_command_sync queue [] 0 0 None);
  _ ← call_ (λ s, xrp_release_queue s queue);
  call_ (λ s, xrp_release_device false s device).

(** [pcmd]: the address of [cmd]. *)
Definition f7 (devid pcmd : Z) : prog () :=
  _ ← write pcmd (le_bytes 4 EXAMPLE_V2_CMD_OK);
  device ← open_device devid;
  queue ← create_ns_queue device (Some XRP_EXAMPLE_V2_NSID);
  cmd ← read pcmd sizeof_example_v2_cmd;
  _ ← succeeds (run_command_sync queue cmd 0 0 None);
  _ ← write pcmd (le_bytes 4 EXAMPLE_V2_CMD_FAIL);
  cmd ← read pcmd sizeof_example_v2_cmd;
  st ← run_command_sync queue cmd 0 0 None;
  _ ← check (bool_decide (st = XRP_STATUS_FAILURE));
  _ ← call_ (λ s, xrp_release_queue s queue);
  call_ (λ s, xrp_release_device false s device).

(** The stack: where the arrays and variables of the tests are. *)
Definition linux_main (devid stack p1 p2 : Z) (sched : nat → nat) : prog () :=
  _ ← f1 devid stack (stack + 32);
  _ ← f2 devid sched;
  _ ← f3 devid stack p1 p2;
  _ ← f4 devid;
  _ ← f5 devid stack;
  _ ← f6 devid;
  f7 devid stack.
End host.
