(* ===== verification/SimCalls.v ===== *)
(** * The calls of the simulator library, exactly

    Where [SimRefs] and [SimClient] show what every call keeps, this file says
    what the calls of xrp-linux-sim/xrp_linux_sim.c do when nothing goes
    wrong: which objects there are afterwards, which references the client
    holds, and what became of the memory. *)

From stdpp Require Import base tactics list gmap fin_maps numbers.
From S2P Require Import Prelude DspNs RefHeap Alloc PrivateAlloc PoolRoom Mem Interface DspBuffer DspCmd.
From S2P Require Import SimMem SimLib SimRefs SimClient SimSteps SimTheorems SimBlocks SimEnqueue SimRun SimCommand.

Section calls.
Context `{A : Arch} (P : platform) (Hok : platform_ok P) (kz : callocs) (Hkz : kz_ok kz).
Abbreviation rp := (pf_pool P).
Abbreviation i := (pf_dev P).
Abbreviation blocks := (SimBlocks.blocks P).
Abbreviation on_platform := (SimBlocks.on_platform (kz := kz) P).
Abbreviation avail := (SimBlocks.avail P).

(** The client holds the references [roots], the objects are [objs], and
    nothing has been lost. *)
Record world (s : sim) (roots : list ref) (objs : gmap nat obj) : Prop := {
  w_platform : on_platform s;
  w_holds : sim_holds [] s roots [];
  w_objs : ∀ p, object s p = objs !! p;
  w_books : books s = ([], []);
}.

(** References besides the one at hand. *)
Definition referenced (r : ref) (roots : list ref) (objs : gmap nat obj) : Prop :=
  r ∈ roots ∨ map_Exists (λ _ o, r ∈ sim_refs o) objs.

#[export] Instance referenced_dec r roots objs : Decision (referenced r roots objs).
Proof. unfold referenced. apply _. Defined.

Lemma same_memory_trans s1 s2 s3 : same_memory s1 s2 → same_memory s2 s3 → same_memory s1 s3.
Proof. intros [? ?] [? ?]. split; congruence. Qed.

Lemma world_perm s roots roots' objs : roots ≡ₚ roots' → world s roots objs → world s roots' objs.
Proof. intros E [? Hh ? ?]. split; try done. by eapply sim_holds_perm. Qed.

Lemma world_mem s m roots objs : world s roots objs → world (set_mem s m) roots objs.
Proof. intros [[st Hs] Hh Ho Hb]. split; try done; [by exists st | by apply sim_holds_mem]. Qed.

Lemma world_cell s roots objs p o :
  world s roots objs → objs !! p = Some o → ∃ cl, heap s !! p = Some cl ∧ c_obj cl = o.
Proof. intros Hw Eo. apply object_cell. by rewrite (w_objs _ _ _ Hw). Qed.

Lemma world_refs s roots objs r :
  world s roots objs → r ∈ heap_refs (heap s) ↔ map_Exists (λ _ o, r ∈ sim_refs o) objs.
Proof.
  intros Hw. rewrite heap_refs_elem. split.
  - intros (q & cl & Hq & Hr). exists q, (c_obj cl). split; [| done]. rewrite <- (w_objs _ _ _ Hw). unfold object. by rewrite Hq.
  - intros (q & o & Hq & Hr). destruct (world_cell s roots objs q o Hw Hq) as (cl & Hcl & <-). by exists q, cl.
Qed.

Lemma world_lost s roots objs : world s roots objs → lost (s_st s) = [].
Proof. intros [_ _ _ E]. by injection E. Qed.
Lemma world_leaked s roots objs : world s roots objs → leaked s = [].
Proof. intros [_ _ _ E]. by injection E. Qed.

(** The last reference, and one of several. *)
Lemma world_sole s roots objs k p o :
  world s ((k, p) :: roots) objs → objs !! p = Some o → kind_of o = k → ¬ referenced (k, p) roots objs →
  ∃ cl, heap s !! p = Some cl ∧ c_obj cl = o ∧ c_count cl = 1.
Proof.
  intros Hw Ho Hk Hn. destruct (world_cell s _ objs p o Hw Ho) as (cl & Hcl & Ec). exists cl. split_and!; try done.
  apply (sole_reference s roots k p cl (sh_refs _ _ _ _ (w_holds _ _ _ Hw)) Hcl); [by rewrite Ec |].
  rewrite (world_lost _ _ _ Hw), app_nil_r, elem_of_app, (world_refs _ _ _ _ Hw). done.
Qed.

Lemma counted_twice (D : list nat) s roots k p cl :
  holds D (s_st s) ((k, p) :: roots) → heap s !! p = Some cl →
  (k, p) ∈ roots ++ heap_refs (minus (heap s) D) → c_count cl ≠ 1.
Proof.
  intros Hh Hcl Hin. destruct (holds_lookup D _ _ k p Hh) as (cl' & Hp & Hk & HD & _); [by left |].
  unfold heap in *. assert (minus (hp (s_st s)) D !! p = Some cl) as Hm by (by rewrite minus_out).
  assert (cl' = cl) as -> by congruence. destruct (i_count _ _ Hh p cl Hm) as [E _]. rewrite Hk in E. cbn [app] in E.
  rewrite cnt_cons, decide_True in E by done.
  assert (0 < cnt (k, p) ((roots ++ lost (s_st s)) ++ heap_refs (minus (hp (s_st s)) D)))%nat by (apply cnt_elem; rewrite !elem_of_app in *; tauto).
  clear -E H. lia.
Qed.

Lemma world_shared s roots objs k p o :
  world s ((k, p) :: roots) objs → objs !! p = Some o → referenced (k, p) roots objs →
  ∃ cl, heap s !! p = Some cl ∧ c_obj cl = o ∧ c_count cl ≠ 1.
Proof.
  intros Hw Ho Hr. destruct (world_cell s _ objs p o Hw Ho) as (cl & Hcl & Ec). exists cl. split_and!; try done.
  apply (counted_twice [] s roots k p cl (sh_refs _ _ _ _ (w_holds _ _ _ Hw)) Hcl). apply elem_of_app.
  destruct Hr as [? | Hr]; [by left | right]. by apply (world_refs _ _ _ _ Hw).
Qed.

(** Without owners the pool is empty. *)
Lemma world_no_blocks s roots objs :
  world s roots objs → map_Forall (λ _ o, obj_allocs o = []) objs → blocks s = ∅.
Proof.
  intros Hw Ha. pose proof (w_platform _ _ _ Hw) as [st Hst]. rewrite (blocks_ok P s st Hst). apply fmap_empty_iff, map_eq.
  intros p. rewrite lookup_empty. apply eq_None_not_Some. intros [a Ep].
  assert ((i, p) ∈ owners [] s []) as Hin.
  { apply (sh_live _ _ _ _ (w_holds _ _ _ Hw)). rewrite (start_of_some s i p st) by (by eapply pool_ok_pool). by rewrite Ep. }
  unfold owners in Hin. rewrite (world_leaked _ _ _ Hw), app_nil_r in Hin. unfold heap_allocs in Hin.
  apply list_elem_of_bind in Hin as ([q cl] & Hin & Hq%elem_of_map_to_list). cbn [snd] in Hin.
  rewrite (Ha q (c_obj cl)) in Hin; [by apply not_elem_of_nil in Hin |].
  rewrite <- (w_objs _ _ _ Hw). unfold object. cbn in Hq. by rewrite Hq.
Qed.

Lemma world_room s roots objs :
  kz_full kz → world s roots objs → map_Forall (λ _ o, obj_allocs o = []) objs → avail s = shared_size (pf_desc P).
Proof. intros Hf Hw Ha. apply (avail_empty P s (w_platform _ _ _ Hw) Hf). by eapply world_no_blocks. Qed.

(** ** Creating objects *)

Lemma alloc_object_at s (objs : gmap nat obj) o :
  (∀ p, object s p = objs !! p) →
  ∃ s' p, alloc_object true s o = (s', Some p) ∧ objs !! p = None ∧ (∀ q, object s' q = <[p := o]> objs !! q) ∧
    same_memory s s' ∧ books s' = books s.
Proof.
  intros Ho. unfold alloc_object, alloc_refcounted. do 2 eexists. split; [done |].
  set (p := fresh (dom (hp (s_st s)))). assert (heap s !! p = None) as Hp by apply not_elem_of_dom, is_fresh. split_and!; try done.
  - rewrite <- Ho. unfold object. by rewrite Hp.
  - intros q. unfold object, heap. cbn. destruct (decide (q = p)) as [-> |]; [by rewrite !lookup_insert_eq |].
    rewrite !lookup_insert_ne by done. apply Ho.
Qed.

(** A call that makes an object. *)
Definition creates (s : sim) (roots : list ref) (objs : gmap nat obj) (k : kind) (o : obj) (r : option (sim * option nat)) : Prop :=
  ∃ s' p, r = Some (s', Some p) ∧ objs !! p = None ∧ world s' ((k, p) :: roots) (<[p := o]> objs) ∧ same_memory s s'.

Lemma open_device_ok fuel e s roots objs :
  world s roots objs → creates s roots objs KDevice (Device i []) (xrp_open_device fuel e true s (Z.of_nat i)).
Proof.
  intros [Hs Hh Ho Hb]. pose proof Hs as [st (_ & _ & _ & _ & _ & Hc & Hi)].
  destruct (alloc_object_at s objs (Device i []) Ho) as (s' & p & Ea & Hn & Ho' & Hm & Hb'). exists s', p.
  unfold xrp_open_device. rewrite (proj2 (Nat.eqb_neq _ _)) by lia. cbn [mbind option_bind].
  rewrite (proj2 (Z.ltb_ge _ _)), (proj2 (Z.ltb_ge _ _)) by lia. cbn [orb]. rewrite Nat2Z.id, Ea. split_and!; try done.
  split; [by eapply same_memory_platform | | done | congruence].
  by apply (alloc_object_holds s roots [] (Device i []) KDevice) in Ea; [.. | apply list.Forall_nil].
Qed.

Lemma create_group_ok s roots objs :
  world s roots objs → creates s roots objs KGroup (Group false 0 []) (Some (xrp_create_buffer_group true s)).
Proof.
  intros [Hs Hh Ho Hb]. destruct (alloc_object_at s objs (Group false 0 []) Ho) as (s' & p & Ea & Hn & Ho' & Hm & Hb'). exists s', p.
  unfold xrp_create_buffer_group. rewrite Ea. split_and!; try done.
  split; [by eapply same_memory_platform | | done | congruence].
  by apply (alloc_object_holds s roots [] (Group false 0 []) KGroup) in Ea.
Qed.

Lemma create_queue_ok s roots objs d ns :
  world s roots objs → (KDevice, d) ∈ roots →
  creates s roots objs KQueue (Queue d ns) (xrp_create_ns_queue true s (Some d) ns).
Proof.
  intros [Hs Hh Ho Hb] Hd. destruct (held s roots [] KDevice d Hh Hd) as (cl & Hcl & _).
  assert (object s d = Some (c_obj cl)) as Od by (unfold object; by rewrite Hcl).
  destruct (retain_some s d _ Od) as (s1 & E1 & Hm1 & Hb1). 
  destruct (alloc_object_at s1 objs (Queue d ns)) as (s' & p & Ea & Hn & Ho' & [Hg Hm] & Hb').
  { intros p. by rewrite (object_retain _ _ _ _ E1). }
  assert (xrp_create_ns_queue true s (Some d) ns = Some (s', Some p)) as E by (unfold xrp_create_ns_queue; by rewrite E1; cbn [mbind option_bind]; rewrite Ea).
  exists s', p. split; [done |]. assert (same_memory s s') as Hms by (destruct Hm1; split; congruence). split_and!; try done.
  split; [by eapply same_memory_platform | | done | congruence]. apply (create_queue_holds s roots true (Some d) ns s' (Some p)); [done | by intros ? [= ->] | done].
Qed.

Lemma create_host_buffer_ok s roots objs d ptr size :
  world s roots objs → size_ok size →
  creates s roots objs KBuffer (Buffer None ptr size 0 0) (xrp_create_buffer kz true s (Some d) size (Some ptr)).
Proof.
  intros [Hs Hh Ho Hb] Hz. destruct (alloc_object_at s objs (Buffer None ptr size 0 0) Ho) as (s' & p & Ea & Hn & Ho' & Hm & Hb'). exists s', p.
  change (xrp_create_buffer kz true s (Some d) size (Some ptr)) with (Some (alloc_object true s (Buffer None ptr size 0 0))).
  rewrite Ea. split_and!; try done. split; [by eapply same_memory_platform | | done | congruence].
  by apply (alloc_object_holds s roots [] (Buffer None ptr size 0 0) KBuffer) in Ea.
Qed.

(** A buffer in the pool, when there is room. *)
Lemma create_device_buffer_ok s roots objs d rqs size :
  kz_full kz → world s roots objs → objs !! d = Some (Device i rqs) → 0 < size < 2 ^ 32 → size_ok size →
  page_align size ≤ avail s →
  ∃ s' p start bs b, xrp_create_buffer kz true s (Some d) size None = Some (s', Some b) ∧ objs !! b = None ∧
    world s' ((KBuffer, b) :: roots) (<[b := Buffer (Some (i, p)) (virt rp start) size 0 0]> objs) ∧
    s_mem s' = s_mem s ∧ blocks s !! p = None ∧ blocks s' = <[p := (start, bs)]> (blocks s) ∧ size ≤ Z.of_nat (length bs) ∧
    avail s - page_align size ≤ avail s'.
Proof.
  intros Hf [Hs Hh Ho Hb] Hd Hz Hz' Hroom.
  destruct (allocate_block P s size Hkz Hs Hz') as (s1 & x & E1 & Hs1 & Hsp & Hm1 & Hx). rewrite u32_small in Hx by lia.
  destruct x as [[p start] |]; [| destruct Hx as [_ [? | Hx]]; [lia | specialize (Hx Hf); lia]].
  destruct Hx as (Hn & (bs & Eb & Hl) & Hsd). specialize (Hsd Hf).
  assert (blocks s1 !! p = Some (start, bs)) as Hbs by (by rewrite Eb, lookup_insert_eq).
  destruct (alloc_object_at s1 objs (Buffer (Some (i, p)) (virt rp start) size 0 0)) as (s' & b & Ea & Hnb & Ho' & Hm & Hb').
  { intros q. rewrite (object_st s s1) by apply Hsp. apply Ho. }
  assert (xrp_create_buffer kz true s (Some d) size None = Some (s', Some b)) as E.
  { unfold xrp_create_buffer, description_of. cbn [negb]. rewrite Ho, Hd. cbn [mbind option_bind]. rewrite E1. cbn [mbind option_bind].
    destruct (block_bytes P s1 p start bs Hs1 Hbs) as (_ & ? & ? & ?). destruct Hs1 as [st (-> & _)].
    rewrite (p2v_pool P Hok) by (unfold in_pool; lia). cbn [mbind option_bind]. by rewrite Ea. }
  exists s', p, start, bs, b. split; [done |]. split; [done |]. split; [| split; [destruct Hm as [_ ->]; done |]].
  - split; [by eapply same_memory_platform | | done | by rewrite Hb', (same_but_pool_books P s s1 Hsp)].
    eapply (create_buffer_holds kz Hkz s roots true (Some d) size None s' (Some b)); done.
  - rewrite (same_memory_blocks P s1 s' Hm), (same_memory_avail P s1 s' Hm). done.
Qed.

(** ** Buffers and groups *)

Lemma retain_ok s roots objs k p :
  world s roots objs → (k, p) ∈ roots → ∃ s', retain s p = Some s' ∧ world s' ((k, p) :: roots) objs ∧ same_memory s s'.
Proof.
  intros [Hs Hh Ho Hb] Hin. destruct (held s roots [] k p Hh Hin) as (cl & Hcl & _).
  assert (object s p = Some (c_obj cl)) as Op by (unfold object; by rewrite Hcl).
  destruct (retain_some s p _ Op) as (s' & E & Hm & Hb'). exists s'. split_and!; try done.
  split; [by eapply same_memory_platform | by eapply retain_call_holds | | congruence].
  intros q. by rewrite (object_retain _ _ _ _ E).
Qed.

Lemma set_object_at s (objs : gmap nat obj) p o o' :
  (∀ q, object s q = objs !! q) → objs !! p = Some o → ∀ q, object (set_object s p o') q = <[p := o']> objs !! q.
Proof.
  intros Ho Hp q. destruct (decide (q = p)) as [-> |].
  - rewrite lookup_insert_eq. eapply object_set_eq. by rewrite Ho.
  - rewrite lookup_insert_ne, object_set_ne by done. apply Ho.
Qed.

Lemma map_buffer_ok s roots objs b a ptr bsize mc mf offset size flags :
  world s roots objs → (KBuffer, b) ∈ roots → objs !! b = Some (Buffer a ptr bsize mc mf) →
  offset ≤ bsize → size ≤ bsize - offset →
  ∃ s', xrp_map_buffer s b offset size flags = Some (s', Some (ptr + offset)) ∧
    world s' ((KBuffer, b) :: roots) (<[b := Buffer a ptr bsize (mc + 1) (Z.lor mf flags)]> objs) ∧ same_memory s s'.
Proof.
  intros Hw Hin Hb H1 H2. destruct (retain_ok s roots objs KBuffer b Hw Hin) as (s1 & E1 & [Hs1 Hh1 Ho1 Hb1] & Hm1).
  assert (xrp_map_buffer s b offset size flags =
    Some (set_object s1 b (Buffer a ptr bsize (mc + 1) (Z.lor mf flags)), Some (ptr + offset))) as E.
  { unfold xrp_map_buffer. rewrite (w_objs _ _ _ Hw), Hb. cbn [mbind option_bind].
    rewrite (proj2 (Z.leb_le _ _)), (proj2 (Z.leb_le _ _)) by lia. cbn [andb]. by rewrite E1. }
  eexists. split; [exact E |]. split; [| done].
  split; [by eapply (same_memory_platform P kz s1) | | by eapply set_object_at | done].
  apply (map_buffer_holds s roots b offset size flags _ (Some (ptr + offset)) (w_holds _ _ _ Hw) Hin E).
Qed.

Lemma release_shared_ok s roots objs k p o :
  world s ((k, p) :: roots) objs → objs !! p = Some o → referenced (k, p) roots objs →
  ∃ s', release s p = Some s' ∧ last s p = Some false ∧ world s' roots objs ∧ same_memory s s'.
Proof.
  intros Hw Ho Hr. destruct (world_shared s roots objs k p o Hw Ho Hr) as (cl & Hcl & Ec & Hne).
  destruct (release_cell s p cl Hcl) as (s' & E & El & Hm & Hb & Hq & Hp). rewrite (proj2 (Z.eqb_neq _ _)) in El, Hp by done.
  exists s'. split_and!; try done. destruct Hw as [Hs Hh Ho' Hb'].
  split; [by eapply same_memory_platform | by eapply release_shared_holds | | congruence].
  intros q. rewrite <- Ho'. unfold object. destruct (decide (q = p)) as [-> |]; [by rewrite Hp, Hcl | by rewrite Hq].
Qed.

Lemma release_buffer_shared_ok s roots objs b a ptr bsize mc mf :
  world s ((KBuffer, b) :: roots) objs → objs !! b = Some (Buffer a ptr bsize mc mf) → referenced (KBuffer, b) roots objs →
  ∃ s', xrp_release_buffer s b = Some s' ∧ world s' roots objs ∧ same_memory s s'.
Proof.
  intros Hw Hb Hr. destruct (release_shared_ok s roots objs KBuffer b _ Hw Hb Hr) as (s' & E & El & Hw' & Hm).
  exists s'. split; [| done]. unfold xrp_release_buffer, release_buffer_tested. rewrite object_tested. rewrite (w_objs _ _ _ Hw), Hb. cbn [mbind option_bind].
  rewrite El. by destruct a.
Qed.

Lemma unmap_buffer_ok s roots objs b a ptr bsize mc mf p :
  world s ((KBuffer, b) :: roots) objs → (KBuffer, b) ∈ roots → objs !! b = Some (Buffer a ptr bsize mc mf) →
  ptr ≤ p → p - ptr ≤ bsize →
  ∃ s', xrp_unmap_buffer s b p = Some (s', XRP_STATUS_SUCCESS) ∧
    world s' roots (<[b := Buffer a ptr bsize (mc - 1) mf]> objs) ∧ same_memory s s'.
Proof.
  intros [Hs Hh Ho Hb] Hin Eb H1 H2.
  set (s1 := set_object s b (Buffer a ptr bsize (mc - 1) mf)).
  assert (world s1 ((KBuffer, b) :: roots) (<[b := Buffer a ptr bsize (mc - 1) mf]> objs)) as Hw1.
  { split; [by eapply (same_memory_platform P kz s) | | by eapply set_object_at | done].
    eapply set_buffer_holds; [done |]. by rewrite Ho. }
  destruct (release_buffer_shared_ok s1 roots _ b a ptr bsize (mc - 1) mf Hw1) as (s' & E & Hw' & Hm);
    [by rewrite lookup_insert_eq | by left |].
  exists s'. split; [| by split]. unfold xrp_unmap_buffer. rewrite Ho, Eb. cbn [mbind option_bind].
  rewrite (proj2 (Z.leb_le _ _)), (proj2 (Z.leb_le _ _)) by lia. cbn [andb]. fold s1. by rewrite E.
Qed.

Lemma add_buffer_ok s roots objs g cap l b fl :
  world s roots objs → (KBuffer, b) ∈ roots → objs !! g = Some (Group false cap l) →
  ∃ s' cap', xrp_add_buffer_to_group true s g b fl = Some (s', Some (length l)) ∧
    world s' roots (<[g := Group false cap' (l ++ [(b, fl)])]> objs) ∧ same_memory s s'.
Proof.
  intros Hw Hin Hg. destruct (retain_ok s roots objs KBuffer b Hw Hin) as (s1 & E1 & [Hs1 Hh1 Ho1 Hb1] & Hm1).
  set (cap' := if (length l =? cap)%nat then ((cap + 2) * 2)%nat else cap).
  assert (xrp_add_buffer_to_group true s g b fl = Some (set_object s1 g (Group false cap' (l ++ [(b, fl)])), Some (length l))) as E.
  { unfold xrp_add_buffer_to_group. rewrite (w_objs _ _ _ Hw), Hg. cbn [mbind option_bind]. rewrite andb_false_r.
    by rewrite E1. }
  eexists _, cap'. split; [exact E |]. split; [| done].
  split; [by eapply (same_memory_platform P kz s1) | | by eapply set_object_at | done].
  by eapply (add_buffer_holds s roots true g b fl); [apply Hw | |].
Qed.

Lemma get_buffer_ok s roots objs g cap l idx b fl :
  world s roots objs → objs !! g = Some (Group false cap l) → l !! idx = Some (b, fl) → (KBuffer, b) ∈ roots →
  ∃ s', xrp_get_buffer_from_group s g idx = Some (s', Some b) ∧ world s' ((KBuffer, b) :: roots) objs ∧ same_memory s s'.
Proof.
  intros Hw Hg Hi Hin. destruct (retain_ok s roots objs KBuffer b Hw Hin) as (s1 & E1 & Hw1 & Hm1). exists s1. split; [| done].
  unfold xrp_get_buffer_from_group. rewrite (w_objs _ _ _ Hw), Hg. cbn [mbind option_bind]. rewrite Hi. by rewrite E1.
Qed.

(** Replacing a buffer the client holds, and one that is not there. *)
Lemma set_buffer_ok s roots objs g cap l index b fl old fl' oo :
  world s roots objs → (KBuffer, b) ∈ roots → objs !! g = Some (Group false cap l) → l !! index = Some (old, fl') →
  (KBuffer, old) ∈ roots → objs !! old = Some oo →
  ∃ s', xrp_set_buffer_in_group s g index b fl = Some (s', XRP_STATUS_SUCCESS) ∧
    world s' roots (<[g := Group false cap (<[index := (b, fl)]> l)]> objs) ∧ same_memory s s'.
Proof.
  intros Hw Hin Hg Hi Hold Hoo. destruct (retain_ok s roots objs KBuffer b Hw Hin) as (s1 & E1 & [Hs1 Hh1 Ho1 Hb1] & Hm1).
  set (s2 := set_object s1 g (Group false cap (<[index := (b, fl)]> l))).
  set (objs2 := <[g := Group false cap (<[index := (b, fl)]> l)]> objs).
  assert (world s2 ((KBuffer, old) :: roots) objs2) as Hw2.
  { split; [by eapply (same_memory_platform P kz s1) | | by eapply set_object_at | done].
    apply (set_group_holds s1 [(KBuffer, b)] roots [(KBuffer, old)] g false cap l); [done | by rewrite Ho1 |].
    apply (fmap_insert_perm l index (old, fl') (b, fl) Hi). }
  destruct (held s roots [] KBuffer old (w_holds _ _ _ Hw) Hold) as (co & Hco & Hko).
  assert (c_obj co = oo) as Eco.
  { pose proof (w_objs _ _ _ Hw old) as E. unfold object in E. rewrite Hco, Hoo in E. by injection E. }
  destruct oo as [| a ptr sz mc mf | | |]; rewrite Eco in Hko; try done.
  destruct (release_buffer_shared_ok s2 roots objs2 old a ptr sz mc mf Hw2) as (s3 & E3 & Hw3 & Hm3); [| by left |].
  { unfold objs2. rewrite lookup_insert_ne; [done |]. intros <-. congruence. }
  exists s3. split; [| split; [done | by apply (same_memory_trans s s2)]].
  unfold xrp_set_buffer_in_group. rewrite E1. cbn [mbind option_bind]. rewrite Ho1, Hg. cbn [mbind option_bind]. rewrite Hi.
  fold s2. by rewrite E3.
Qed.

Lemma set_buffer_none_ok s roots objs g cap l index b fl o :
  world s roots objs → (KBuffer, b) ∈ roots → objs !! g = Some (Group false cap l) → l !! index = None → objs !! b = Some o →
  ∃ s', xrp_set_buffer_in_group s g index b fl = Some (s', XRP_STATUS_FAILURE) ∧ world s' roots objs ∧ same_memory s s'.
Proof.
  intros Hw Hin Hg Hi Hb. destruct (retain_ok s roots objs KBuffer b Hw Hin) as (s1 & E1 & Hw1 & Hm1).
  destruct (held s roots [] KBuffer b (w_holds _ _ _ Hw) Hin) as (co & Hco & Hko).
  assert (c_obj co = o) as Eco.
  { pose proof (w_objs _ _ _ Hw b) as E. unfold object in E. rewrite Hco, Hb in E. by injection E. }
  destruct o as [| a ptr sz mc mf | | |]; rewrite Eco in Hko; try done.
  destruct (release_buffer_shared_ok s1 roots objs b a ptr sz mc mf Hw1 Hb) as (s3 & E3 & Hw3 & Hm3); [by left |].
  exists s3. split; [| split; [done | by eapply same_memory_trans]].
  unfold xrp_set_buffer_in_group. rewrite E1. cbn [mbind option_bind]. rewrite (w_objs _ _ _ Hw1), Hg. cbn [mbind option_bind].
  rewrite Hi. by rewrite E3.
Qed.

(** ** Last references *)

Lemma release_last_ok s roots objs k p o :
  world s ((k, p) :: roots) objs → objs !! p = Some o → kind_of o = k → ¬ referenced (k, p) roots objs →
  last s p = Some true ∧
  ∀ s1, heap s1 !! p = heap s !! p → (∀ q, q ≠ p → object s1 q = object s q) →
  ∃ s', release s1 p = Some s' ∧ (∀ q, object s' q = delete p objs !! q) ∧ same_memory s1 s' ∧ books s' = books s1.
Proof.
  intros Hw Ho Hk Hn. destruct (world_sole s roots objs k p o Hw Ho Hk Hn) as (cl & Hcl & Ec & E1).
  split. { destruct (release_cell s p cl Hcl) as (_ & _ & El & _). by rewrite E1 in El. }
  intros s1 Hs1 Hq1. rewrite Hcl in Hs1. destruct (release_cell s1 p cl Hs1) as (s' & E & _ & Hm & Hb & Hq & Hp).
  exists s'. split_and!; try done. intros q. destruct (decide (q = p)) as [-> |].
  - rewrite lookup_delete_eq. unfold object. by rewrite Hp, E1.
  - rewrite lookup_delete_ne by done. rewrite <- (w_objs _ _ _ Hw), <- Hq1 by done. apply object_heap. by apply Hq.
Qed.

(** A call that gives up the last reference to [p]. *)
Definition destroys (s : sim) (roots : list ref) (objs : gmap nat obj) (p : nat) (r : option sim) : Prop :=
  ∃ s', r = Some s' ∧ world s' roots (delete p objs) ∧ s_mem s' = s_mem s.

Lemma destroy_device_ok s roots objs d :
  world s ((KDevice, d) :: roots) objs → objs !! d = Some (Device i []) → ¬ referenced (KDevice, d) roots objs →
  destroys s roots objs d (xrp_release_device false s d).
Proof.
  intros Hw Hd Hn. destruct (release_last_ok s roots objs KDevice d _ Hw Hd eq_refl Hn) as [El Hl].
  destruct (Hl s eq_refl ltac:(done)) as (s' & E & Ho & Hm & Hb). destruct Hw as [Hs Hh Ho' Hb'].
  assert (xrp_release_device false s d = Some s') as E'.
  { unfold xrp_release_device, release_device_tested. rewrite object_tested. rewrite Ho', Hd. cbn [mbind option_bind]. by rewrite El. }
  exists s'. split; [done |]. split; [| apply Hm]. split; [by eapply same_memory_platform | | done | congruence].
  by eapply release_device_holds.
Qed.

Lemma destroy_queue_ok s roots objs q d ns :
  world s ((KQueue, q) :: roots) objs → objs !! q = Some (Queue d ns) → objs !! d = Some (Device i []) →
  (KDevice, d) ∈ roots → ¬ referenced (KQueue, q) roots objs → destroys s roots objs q (xrp_release_queue s q).
Proof.
  intros Hw Hq Hd Hin Hn. destruct (release_last_ok s roots objs KQueue q _ Hw Hq eq_refl Hn) as [El Hl].
  destruct (world_cell s _ objs d _ Hw Hd) as (cl & Hcl & Ecl).
  assert (c_count cl ≠ 1) as Hc.
  { apply list_elem_of_split in Hin as (r1 & r2 & ->).
    assert (world s ((KDevice, d) :: (KQueue, q) :: r1 ++ r2) objs) as Hw'.
    { eapply world_perm; [| exact Hw]. rewrite <- Permutation_middle. by rewrite perm_swap. }
    destruct (world_shared s _ objs KDevice d _ Hw' Hd) as (cl' & Hcl' & _ & ?); [| congruence].
    right. exists q, (Queue d ns). split; [done | by left]. }
  destruct (release_cell s d cl Hcl) as (s1 & E1 & El1 & Hm1 & Hb1 & Hq1 & Hp1).
  rewrite (proj2 (Z.eqb_neq _ _)) in El1, Hp1 by done.
  assert (d ≠ q) as Hne by (intros ->; congruence).
  destruct (Hl s1) as (s' & E & Ho & Hm & Hb).
  { by rewrite Hq1. }
  { intros p _. destruct (decide (p = d)) as [-> |]; [| by apply object_heap, Hq1]. unfold object. by rewrite Hp1, Hcl. }
  destruct Hw as [Hs Hh Ho' Hb'].
  assert (xrp_release_queue s q = Some s') as E'.
  { unfold xrp_release_queue, release_queue_tested. rewrite object_tested. rewrite Ho', Hq. cbn [mbind option_bind]. rewrite El. cbn [mbind option_bind].
    unfold xrp_release_device, release_device_tested. rewrite object_tested. rewrite Ho', Hd. cbn [mbind option_bind]. rewrite El1. cbn [mbind option_bind]. by rewrite E1. }
  pose proof (same_memory_trans _ _ _ Hm1 Hm) as Hm2. exists s'. split; [done |]. split; [| apply Hm2].
  split; [by eapply same_memory_platform | | done | congruence]. by eapply release_queue_holds.
Qed.

Lemma world_block s roots objs b p ptr size mc mf :
  world s roots objs → objs !! b = Some (Buffer (Some (i, p)) ptr size mc mf) → is_Some (blocks s !! p).
Proof.
  intros Hw Hb. destruct (world_cell s roots objs b _ Hw Hb) as (cl & Hcl & Ecl).
  destruct (proj1 (sh_live _ _ _ _ (w_holds _ _ _ Hw) (i, p))) as [x Hx].
  { unfold owners. cbn [app minus foldr]. apply elem_of_app. left. unfold heap_allocs. apply list_elem_of_bind.
    exists (b, cl). rewrite elem_of_map_to_list. split; [| done]. cbn [snd]. rewrite Ecl. by left. }
  pose proof (w_platform _ _ _ Hw) as [st Hst]. rewrite (blocks_ok P s st Hst), lookup_fmap.
  rewrite (start_of_some s i p st) in Hx by (by eapply pool_ok_pool). destruct (st_objs st !! p); [by eexists | done].
Qed.

Lemma free_own_block s roots objs b a ptr size mc mf :
  world s roots objs → objs !! b = Some (Buffer ((λ p, (i, p)) <$> a) ptr size mc mf) →
  ∃ s', match a with Some p => free s (i, p) | None => Some s end = Some s' ∧ on_platform s' ∧ s_st s' = s_st s ∧
    leaked s' = leaked s ∧ s_mem s' = s_mem s.
Proof.
  intros Hw Hb. pose proof (w_platform _ _ _ Hw) as Hs. destruct a as [p |]; [| by exists s].
  destruct (world_block s _ objs b p ptr size mc mf Hw Hb) as [bl Hbl].
  destruct (free_block P s p bl Hs Hbl) as (s1 & E & Hs1 & (? & ? & _) & Em & _). by exists s1.
Qed.

Lemma destroy_buffer_ok s roots objs b a ptr size mc mf :
  world s ((KBuffer, b) :: roots) objs → objs !! b = Some (Buffer ((λ p, (i, p)) <$> a) ptr size mc mf) →
  ¬ referenced (KBuffer, b) roots objs → destroys s roots objs b (xrp_release_buffer s b).
Proof.
  intros Hw Hb Hn. destruct (release_last_ok s roots objs KBuffer b _ Hw Hb eq_refl Hn) as [El Hl].
  destruct (free_own_block s _ objs b a ptr size mc mf Hw Hb) as (s1 & E1 & Hs1 & Est & Elk & Em).
  destruct (Hl s1) as (s' & E & Ho & Hm & Hbk).
  { unfold heap. by rewrite Est. }
  { intros q _. by apply object_st. }
  destruct Hw as [Hs Hh Ho' Hb'].
  assert (xrp_release_buffer s b = Some s') as E'.
  { unfold xrp_release_buffer, release_buffer_tested. rewrite object_tested. rewrite Ho', Hb. cbn [mbind option_bind]. rewrite El.
    destruct a as [p |]; cbn [fmap option_fmap option_map mbind option_bind]; [by rewrite E1 | by injection E1 as <-]. }
  exists s'. split; [done |]. split; [| destruct Hm; congruence].
  split; [by eapply same_memory_platform | by eapply release_buffer_holds | done |].
  rewrite Hbk. unfold books in *. by rewrite Est, Elk.
Qed.

(** The references of a group to buffers the client holds as well. *)
Lemma release_group_records_ok D roots l : ∀ s,
  sim_holds D s (((λ r : nat * Z, (KBuffer, r.1)) <$> l) ++ roots) [] →
  (∀ b fl, (b, fl) ∈ l → (KBuffer, b) ∈ roots) →
  ∃ s', release_records s l = Some s' ∧ same_memory s s' ∧ books s' = books s ∧ (∀ q, object s' q = object s q).
Proof.
  induction l as [| [b fl] l IH]; intros s Hh Hin; [by exists s |]. cbn [fmap list_fmap app fst] in Hh.
  destruct (holds_lookup D _ _ KBuffer b (sh_refs _ _ _ _ Hh)) as (cl & Hcl & Hk & HD & _); [by left |].
  change (heap s !! b = Some cl) in Hcl. assert (c_count cl ≠ 1) as Hc.
  { eapply (counted_twice D s _ KBuffer b cl (sh_refs _ _ _ _ Hh) Hcl). apply elem_of_app. left. apply elem_of_app. right.
    apply (Hin b fl). by left. }
  destruct (release_cell s b cl Hcl) as (s1 & E1 & El & Hm1 & Hb1 & Hq1 & Hp1). rewrite (proj2 (Z.eqb_neq _ _)) in El, Hp1 by done.
  destruct (release_shared_holds D s _ [] KBuffer b cl s1 Hh Hcl Hc E1) as [Hh1 _].
  destruct (IH s1 Hh1) as (s2 & E2 & Hm2 & Hb2 & Hq2); [intros b' fl' H'; apply (Hin b' fl'); by right |].
  exists s2. split_and!; [| by eapply same_memory_trans | congruence |].
  - cbn [release_records]. unfold xrp_release_buffer, release_buffer_tested. rewrite object_tested. unfold object. rewrite Hcl. cbn [mbind option_bind]. rewrite El.
    cbn [mbind option_bind]. destruct (c_obj cl) as [| [a |] ptr sz mc mf | | |]; try done; rewrite E1; done.
  - intros q. rewrite Hq2. destruct (decide (q = b)) as [-> |]; [| by apply object_heap, Hq1]. unfold object. by rewrite Hp1, Hcl.
Qed.

Lemma destroy_group_ok s roots objs g cap l :
  world s ((KGroup, g) :: roots) objs → objs !! g = Some (Group false cap l) → ¬ referenced (KGroup, g) roots objs →
  (∀ b fl, (b, fl) ∈ l → (KBuffer, b) ∈ roots) → destroys s roots objs g (xrp_release_buffer_group s g).
Proof.
  intros Hw Hg Hn Hin. destruct (release_last_ok s roots objs KGroup g _ Hw Hg eq_refl Hn) as [El Hl].
  destruct (world_sole s roots objs KGroup g _ Hw Hg eq_refl Hn) as (cl & Hcl & Ec & E1).
  destruct (release_begin_holds [] s roots [] KGroup g cl (w_holds _ _ _ Hw) Hcl E1) as [Hh HD]. rewrite Ec in Hh. cbn in Hh.
  destruct (release_group_records_ok [g] roots l s Hh Hin) as (s1 & E & Hm1 & Hb1 & Ho1).
  destruct (release_records_holds [g] s roots [] l s1 Hh E) as [_ Hkp].
  destruct (Hl s1) as (s' & Er & Ho & Hm & Hb).
  { unfold heap. apply Hkp. by left. }
  { intros q _. apply Ho1. }
  destruct Hw as [Hs Hh0 Ho' Hb'].
  assert (xrp_release_buffer_group s g = Some s') as E'.
  { unfold xrp_release_buffer_group, release_group_tested. rewrite object_tested. rewrite Ho', Hg. cbn [mbind option_bind]. rewrite El. cbn [mbind option_bind].
    by rewrite E. }
  pose proof (same_memory_trans _ _ _ Hm1 Hm) as Hm2. exists s'. split; [done |]. split; [| apply Hm2].
  split; [by eapply same_memory_platform | by eapply release_group_holds | done | congruence].
Qed.

(** A group that holds the last reference to its only buffer. *)
Lemma release_group_with_buffer_ok s roots objs g cap b fl a ptr size mc mf :
  world s ((KGroup, g) :: roots) objs → objs !! g = Some (Group false cap [(b, fl)]) →
  objs !! b = Some (Buffer ((λ p, (i, p)) <$> a) ptr size mc mf) →
  ¬ referenced (KGroup, g) roots objs → ¬ referenced (KBuffer, b) roots (delete g objs) →
  ∃ s', xrp_release_buffer_group s g = Some s' ∧ world s' roots (delete b (delete g objs)) ∧ s_mem s' = s_mem s.
Proof.
  intros Hw Hg Hb Hng Hnb. destruct (release_last_ok s roots objs KGroup g _ Hw Hg eq_refl Hng) as [El Hl].
  destruct (world_sole s roots objs KGroup g _ Hw Hg eq_refl Hng) as (cg & Hcg & Ecg & E1).
  destruct (release_begin_holds [] s roots [] KGroup g cg (w_holds _ _ _ Hw) Hcg E1) as [Hh _]. rewrite Ecg in Hh. cbn in Hh.
  assert (g ≠ b) as Hgb by (intros ->; congruence).
  destruct (world_cell s _ objs b _ Hw Hb) as (cb & Hcb & Ecb).
  assert (c_count cb = 1) as Ec.
  { assert (minus (heap s) [g] !! b = Some cb) as Hm by (rewrite minus_out; [done | by rewrite list_elem_of_singleton; congruence]).
    destruct (i_count _ _ (sh_refs _ _ _ _ Hh) b cb Hm) as [E _]. rewrite Ecb, (world_lost _ _ _ Hw), app_nil_r in E. cbn [app] in E.
    rewrite cnt_cons, decide_True in E by done. rewrite E. f_equal.
    assert (¬ (0 < cnt (KBuffer, b) (roots ++ heap_refs (minus (heap s) [g])))%nat) as Hz; [| unfold heap in *; cbn in *; lia].
    rewrite <- cnt_elem, elem_of_app. intros [Hin | Hin]; apply Hnb; [by left | right].
    apply heap_refs_elem in Hin as (x & cx & [Hxg Hx]%minus_some & Hr). exists x, (c_obj cx). split; [| done].
    rewrite lookup_delete_ne by (rewrite list_elem_of_singleton in Hxg; congruence).
    rewrite <- (w_objs _ _ _ Hw). unfold object. by rewrite Hx. }
  destruct (release_cell s b cb Hcb) as (_ & _ & Elb & _). rewrite Ec in Elb.
  destruct (free_own_block s _ objs b a ptr size mc mf Hw Hb) as (s1 & Ef & Hs1 & Est & Elk & Em).
  assert (heap s1 = heap s) as Eh by (unfold heap; by rewrite Est).
  destruct (release_cell s1 b cb) as (s2 & E2 & _ & Hm2 & Hb2 & Hq2 & Hp2); [by rewrite Eh |]. rewrite Ec in Hp2.
  destruct (release_cell s2 g cg) as (s3 & E3 & _ & Hm3 & Hb3 & Hq3 & Hp3); [by rewrite Hq2, Eh |]. rewrite E1 in Hp3.
  assert (xrp_release_buffer_group s g = Some s3) as E'.
  { unfold xrp_release_buffer_group, release_group_tested. rewrite object_tested. rewrite (w_objs _ _ _ Hw), Hg. cbn [mbind option_bind]. rewrite El. cbn [mbind option_bind release_records].
    unfold xrp_release_buffer, release_buffer_tested. rewrite object_tested. rewrite (w_objs _ _ _ Hw), Hb. cbn [mbind option_bind]. rewrite Elb.
    destruct a as [p |]; cbn [fmap option_fmap option_map mbind option_bind]; [| injection Ef as <-]; rewrite ?Ef; cbn [mbind option_bind]; by rewrite E2. }
  exists s3. split; [done |]. split; [| destruct Hm2, Hm3; congruence]. destruct Hw as [Hs Hh0 Ho Hbk]. split.
  - by apply (same_memory_platform P kz s2), (same_memory_platform P kz s1).
  - by eapply release_group_holds.
  - intros q. unfold object. destruct (decide (q = b)) as [-> |]; [by rewrite lookup_delete_eq, Hq3, Hp2 |].
    rewrite lookup_delete_ne by done. destruct (decide (q = g)) as [-> |]; [by rewrite lookup_delete_eq, Hp3 |].
    rewrite lookup_delete_ne by done. rewrite <- Ho. unfold object. by rewrite Hq3, Hq2, Eh.
  - rewrite Hb3, Hb2. unfold books in *. by rewrite Est, Elk.
Qed.

(** ** Commands *)

Section commands.
Context {Hd : Type} (run : Hd → Z → cmd_args → mem → DspBuffer.xrp_buffer_group → handler_result).
Context (run_command : cmd_args → mem → DspBuffer.xrp_buffer_group → option xrp_status * mem * DspBuffer.xrp_buffer_group).
Context (dm : mem) (hs : mem → mem * nat) (malloc : bool) (device : xrp_device Hd).
Context (Hdev : d_dsp_cmd device = comm_base (pf_desc P)).

(** Buffers that can be used and a large enough pool. *)
Lemma command_world_ok s roots objs q d0 ns h in_data out_data out_size group items junk k :
  kz_full kz → world s roots objs →
  command_ok P run run_command malloc device s roots q d0 ns h in_data out_data out_size group items →
  Forall (λ it, ¬ unusable it) items → demand in_data out_size items ≤ avail s →
  ∃ s' addrs args w hr,
    xrp_run_command_sync [replicate k id ++ [dsp_turn P dm run run_command hs malloc device]] kz true true junk
      s q in_data out_data out_size group = Some (s', status_of (hr_status hr)) ∧
    world s' roots objs ∧ delivered P run run_command (s_mem s) (s_mem s') h in_data out_data out_size items addrs args w hr.
Proof.
  intros Hf [Hs Hh Ho Hb] Hc Hu Hav.
  destruct (run_command_spec P Hok kz Hkz run run_command dm hs malloc device Hdev s roots q d0 ns h in_data out_data out_size
    group items junk k Hs Hh Hc) as (s' & st & E & Hs' & Hh' & [(_ & [Hr | Hr] & _) | (addrs & args & w & hr & -> & Hdl & Hob & Hbk)]).
  - exfalso. apply list.Exists_exists in Hr as (it & Hin & Hun). by apply (proj1 (list.Forall_forall _ _) Hu it Hin).
  - specialize (Hr Hf). lia.
  - exists s', addrs, args, w, hr. split; [done |]. split; [| done].
    split; [done | done | intros p; by rewrite Hob | congruence].
Qed.
End commands.
End calls.
