(* ===== verification/ExampleTests.v ===== *)
(** * The example's tests pass

    The tests of xrp-example/linux_main.c ([ExampleHost]) run over the
    simulator library against the firmware of xrp-example/dsp_main.c
    ([ExampleDsp]), on any platform with a large enough pool: no assertion
    fails, and at the end there is no object left. *)

From stdpp Require Import base tactics list gmap fin_maps numbers.
From S2P Require Import Prelude DspNs RefHeap Alloc PrivateAlloc PoolRoom Mem Interface DspBuffer DspCmd.
From S2P Require Import SimMem SimLib SimRefs SimClient SimSteps SimTheorems SimBlocks SimEnqueue SimRun SimCommand SimCalls.
From S2P Require Import ExampleDsp ExampleHost.
Open Scope Z_scope.

(** ** Reasoning about programs *)

(** The program ends without a failed assertion, in a state with [Q]. *)
Definition ends {X} (p : prog X) (s : sim) (Q : X → sim → Prop) : Prop := ∃ s' x, p s = Done s' x ∧ Q x s'.

Lemma ends_ret {X} (x : X) s (Q : X → sim → Prop) : Q x s → ends (mret x) s Q.
Proof. intros H. by exists s, x. Qed.

Lemma ends_bind {X Y} (p : prog X) (f : X → prog Y) s (Q : Y → sim → Prop) :
  ends p s (λ x s', ends (f x) s' Q) → ends (p ≫= f) s Q.
Proof. intros (s1 & x & E & s2 & y & E2 & HQ). exists s2, y. split; [| done]. unfold mbind, prog_bind. by rewrite E. Qed.

Lemma ends_check b s (Q : () → sim → Prop) : b = true → Q () s → ends (check b) s Q.
Proof. intros -> H. by exists s, (). Qed.

Lemma ends_call {X} (f : sim → option (sim * X)) s s' x (Q : X → sim → Prop) : f s = Some (s', x) → Q x s' → ends (call f) s Q.
Proof. intros E H. exists s', x. split; [| done]. unfold call. by rewrite E. Qed.

Lemma ends_call_ (f : sim → option sim) s s' (Q : () → sim → Prop) : f s = Some s' → Q () s' → ends (call_ f) s Q.
Proof. intros E. apply (ends_call _ s s' ()). by rewrite E. Qed.

Lemma ends_call_obj {X} (f : sim → option (sim * option X)) s s' x (Q : X → sim → Prop) :
  f s = Some (s', Some x) → Q x s' → ends (call_obj f) s Q.
Proof. intros E H. apply ends_bind, (ends_call _ _ _ _ _ E). by apply ends_ret. Qed.

Lemma ends_call_ok (f : sim → option (sim * xrp_status)) s s' (Q : () → sim → Prop) :
  f s = Some (s', XRP_STATUS_SUCCESS) → Q () s' → ends (call_ok f) s Q.
Proof. intros E H. apply ends_bind, (ends_call _ _ _ _ _ E). by apply ends_check. Qed.

Lemma ends_query {X} (f : sim → option X) s x (Q : X → sim → Prop) : f s = Some x → Q x s → ends (query f) s Q.
Proof. intros E. apply (ends_call _ s s x). by rewrite E. Qed.

(** A loop with the invariant [Inv]. *)
Lemma ends_for_each {X} (l : list X) (body : X → prog ()) (Inv : sim → Prop) s (Q : () → sim → Prop) :
  Inv s → (∀ x s, x ∈ l → Inv s → ends (body x) s (λ _, Inv)) → (∀ s', Inv s' → Q () s') → ends (for_each l body) s Q.
Proof.
  revert s. induction l as [| x l IH]; intros s Hs Hb HQ; [by apply ends_ret, HQ |]. cbn [for_each]. apply ends_bind.
  destruct (Hb x s) as (s1 & [] & E & H1); [by left | done |]. exists s1, (). split; [done |].
  apply IH; [done | | done]. intros y s2 Hy. apply Hb. by right.
Qed.

Section tests.
Context `{A : Arch} (P : platform) (Hok : platform_ok P) (kz : callocs) (Hkz : kz_ok kz) (Hfull : kz_full kz).
Context (e : sim_env) (fuel : nat) (junk dm : mem) (hs : mem → mem * nat) (polls : nat).
Context (null : Z → cmd_args → mem → DspBuffer.xrp_buffer_group → handler_result).
(** The device of the firmware. *)
Context (dev : xrp_device example_handler) (Hdev : d_dsp_cmd dev = comm_base (pf_desc P)).
Context (Hv1 : lookup_handler dev XRP_EXAMPLE_V1_NSID = Some (Some (ExampleV1, 0))).
Context (Hv2 : lookup_handler dev XRP_EXAMPLE_V2_NSID = Some (Some (ExampleV2, 0))).
Abbreviation i := (pf_dev P).
Abbreviation devid := (Z.of_nat (pf_dev P)).
Abbreviation world := (SimCalls.world P kz).
Abbreviation avail := (SimBlocks.avail P).
Abbreviation turn := (dsp_turn P dm (run_example null) xrp_run_command hs true dev).

(** An idle library: no objects, and the whole pool is free. *)
Abbreviation idle s := (world s [] ∅).
(** A client with a device and a queue. *)
Definition client (s : sim) (d q : nat) (ns : option (list Z)) : Prop :=
  d ≠ q ∧ world s [(KQueue, q); (KDevice, d)] {[ q := Queue d ns; d := Device i [] ]}.

(** ** Opening and closing *)

Lemma open_spec s ns (k : nat → nat → prog ()) (Q : () → sim → Prop) :
  idle s → (∀ d q s', client s' d q ns → s_mem s' = s_mem s → ends (k d q) s' Q) →
  ends (device ← open_device e fuel devid; queue ← create_ns_queue device ns; k device queue) s Q.
Proof.
  intros Hs Hk. apply ends_bind. destruct (open_device_ok P kz fuel e s [] ∅ Hs) as (s1 & d & E1 & _ & Hw1 & Hm1).
  apply (ends_call_obj _ _ _ _ _ E1). apply ends_bind.
  destruct (create_queue_ok P kz s1 _ _ d ns Hw1) as (s2 & q & E2 & Hn & Hw2 & Hm2); [by left |].
  apply (ends_call_obj _ _ _ _ _ E2). apply Hk; [| destruct Hm1, Hm2; congruence]. split; [| done].
  intros ->. by rewrite lookup_insert_eq in Hn.
Qed.

Lemma close_spec s d q ns (Q : () → sim → Prop) :
  client s d q ns → (∀ s', idle s' → Q () s') →
  ends (_ ← call_ (λ s, xrp_release_queue s q); call_ (λ s, xrp_release_device false s d)) s Q.
Proof.
  intros [Hne Hw] HQ. apply ends_bind.
  destruct (destroy_queue_ok P kz s [(KDevice, d)] _ q d ns Hw) as (s1 & E1 & Hw1 & _).
  { by rewrite lookup_insert_eq. }
  { by rewrite lookup_insert_ne, lookup_singleton_eq. }
  { by left. }
  { intros [[=]%list_elem_of_singleton | (p & o & Hp & Hr)].
    apply lookup_insert_Some in Hp as [[_ <-] | [_ [_ <-]%lookup_singleton_Some]]; cbn in Hr; set_solver. }
  apply (ends_call_ _ _ _ _ E1).
  assert (delete q {[q := Queue d ns; d := Device i []]} = ({[d := Device i []]} : gmap nat obj)) as Ed.
  { rewrite delete_insert_id; [done |]. by rewrite lookup_singleton_ne. }
  rewrite Ed in Hw1.
  destruct (destroy_device_ok P kz s1 [] _ d Hw1) as (s2 & E2 & Hw2 & _).
  { by rewrite lookup_singleton_eq. }
  { intros [[]%not_elem_of_nil | (p & o & [_ <-]%lookup_singleton_Some & []%not_elem_of_nil)]. }
  apply (ends_call_ _ _ _ _ E2), HQ. by rewrite delete_singleton_eq in Hw2.
Qed.

(** ** Commands without buffers *)

Lemma small_fits n : 0 ≤ n ≤ 0x10000 → SimEnqueue.fits n.
Proof.
  intros Hn. split; [lia |]. unfold size_ok. rewrite u32_small by lia. unfold valid_request.
  pose proof phys_bits_ge. destruct (page_align_bounds n) as [? _]; [unfold PAGE_SIZE; lia |].
  change (page_align (if 0x10 =? 0 then 1 else 0x10)) with 4096. unfold PAGE_SIZE in *. lia.
Qed.

Lemma page_cost big n : 0 ≤ n ≤ PAGE_SIZE → cost_if big n ≤ PAGE_SIZE.
Proof.
  intros Hn. unfold cost_if. destruct big; [| done]. unfold PAGE_SIZE in *.
  destruct (page_align_divide n) as [k Hk]. destruct (page_align_bounds n) as [? _]; unfold PAGE_SIZE in *; lia.
Qed.

Lemma handlers_group h : (∀ ctx, h ≠ Some (NullHandler, ctx)) → well_behaved (run_example null) xrp_run_command h.
Proof.
  intros Hn args w bufs. destruct h as [[[] ctx] |]; cbn [run_handler run_example].
  - by destruct (Hn ctx).
  - exact (v1_group ctx args w _).
  - exact (v2_group ctx args w _).
  - exact (run_command_group args w _).
Qed.

Lemma client_allocs d q ns : map_Forall (λ _ o, obj_allocs o = []) ({[ q := Queue d ns; d := Device i [] ]} : gmap nat obj).
Proof. apply map_Forall_insert_2; [done |]. by apply map_Forall_singleton. Qed.

Lemma command_spec s d q ns h data out_data out_size (Q : xrp_status → sim → Prop) :
  2 * PAGE_SIZE ≤ shared_size (pf_desc P) → client s d q ns → named dev ns h → (∀ ctx, h ≠ Some (NullHandler, ctx)) →
  (∀ id, ns = Some id → length id = 16%nat) → Z.of_nat (length data) ≤ PAGE_SIZE → 0 ≤ out_size ≤ PAGE_SIZE →
  private P out_data out_size →
  (∀ s' args w hr, client s' d q ns →
     delivered P (run_example null) xrp_run_command (s_mem s) (s_mem s') h data out_data out_size [] [] args w hr →
     Q (status_of (hr_status hr)) s') →
  ends (run_command_sync kz junk turn polls q data out_data out_size None) s Q.
Proof.
  intros Hsize [Hne Hw] Hnm Hnn Hns Hin Hout Hpo HQ.
  assert (object s q = Some (Queue d ns)) as Oq by (rewrite (w_objs _ _ _ _ _ Hw); by rewrite lookup_insert_eq).
  assert (object s d = Some (Device i [])) as Od.
  { rewrite (w_objs _ _ _ _ _ Hw). by rewrite lookup_insert_ne, lookup_singleton_eq. }
  unfold PAGE_SIZE in *.
  destruct (command_world_ok P Hok kz Hkz (run_example null) xrp_run_command dm hs true dev Hdev s _ _ q d ns h data out_data
    out_size None [] junk polls Hfull Hw) as (s' & addrs & args & w & hr & E & Hw' & Hdl).
  - split; try done.
    + split; [by left | done].
    + split; [done | by apply handlers_group].
    + apply small_fits. lia.
    + split; [apply small_fits; lia | done].
    + exists []. by split.
    + split; [by apply small_fits | by right].
    + split; [constructor | by intros it ?%not_elem_of_nil].
  - done.
  - rewrite (world_room P kz s _ _ Hfull Hw (client_allocs d q ns)). unfold demand. cbn [length items_cost foldr].
    pose proof (page_cost (XRP_DSP_CMD_INLINE_DATA_SIZE <? Z.of_nat (length data)) (Z.of_nat (length data)) ltac:(unfold PAGE_SIZE; lia)).
    pose proof (page_cost (XRP_DSP_CMD_INLINE_DATA_SIZE <? out_size) out_size ltac:(unfold PAGE_SIZE; lia)).
    change (cost_if (XRP_DSP_CMD_INLINE_BUFFER_COUNT <? Z.of_nat 0) (Z.of_nat 0 * sizeof_dsp_buffer)) with 0.
    unfold PAGE_SIZE in *. lia.
  - pose proof (de_addrs _ _ _ _ _ _ _ _ _ _ _ _ _ _ Hdl) as Ea. destruct addrs; [| done].
    apply (ends_call _ _ _ _ _ E). by eapply HQ.
Qed.

(** ** Echo *)

Lemma client_mem s m d q ns : client s d q ns → client (set_mem s m) d q ns.
Proof. intros [? ?]. split; [done |]. by apply world_mem. Qed.

(** A command of the first namespace without buffers answers with the input,
    its positions added. *)
Lemma echo_delivered m0 m1 data out_data out_size args w hr :
  Z.of_nat (length data) = out_size →
  delivered P (run_example null) xrp_run_command m0 m1 (Some (ExampleV1, 0)) data out_data out_size [] [] args w hr →
  hr_status hr = XRP_STATUS_SUCCESS ∧ load_bytes m1 out_data (length data) = echo_of data.
Proof.
  intros <- Hd. pose proof (de_call _ _ _ _ _ _ _ _ _ _ _ _ _ _ Hd) as Hr. cbn in Hr. rewrite v1_echoes in Hr. subst hr.
  split; [done |]. pose proof (de_out _ _ _ _ _ _ _ _ _ _ _ _ _ _ Hd) as Ho. rewrite Nat2Z.id in Ho. rewrite Ho. cbn [hr_mem].
  pose proof (de_in_size _ _ _ _ _ _ _ _ _ _ _ _ _ _ Hd) as Ei. pose proof (de_out_size _ _ _ _ _ _ _ _ _ _ _ _ _ _ Hd) as Eo.
  pose proof (echo_bytes args w ltac:(lia) ltac:(lia)) as Hb. unfold echo_count, data_apart in Hb.
  rewrite Ei, Eo, Z.min_id, Nat2Z.id in Hb. rewrite Hb by apply (de_data_apart _ _ _ _ _ _ _ _ _ _ _ _ _ _ Hd).
  by rewrite (de_in _ _ _ _ _ _ _ _ _ _ _ _ _ _ Hd).
Qed.

Lemma private_le a n n' : 0 ≤ n' ≤ n → private P a n → private P a n'.
Proof. intros Hn (? & ? & Hr). split; [done |]. split; [lia |]. intros r Hin. specialize (Hr r Hin). lia. Qed.

Lemma memset_at m a v n x : a ≤ x < a + n → store_bytes m a (replicate (Z.to_nat n) v) x = v.
Proof.
  intros Hx. rewrite store_bytes_in by (rewrite length_replicate; lia). apply (nth_lookup_Some _ _ _ v).
  apply lookup_replicate_2. lia.
Qed.

Lemma memset_bytes m a v n k :
  0 ≤ k ≤ n → load_bytes (store_bytes m a (replicate (Z.to_nat n) v)) a (Z.to_nat k) = replicate (Z.to_nat k) v.
Proof.
  intros Hk. apply list_eq. intros j. destruct (decide (j < Z.to_nat k)%nat) as [Hj | Hj].
  - rewrite load_bytes_lookup, lookup_replicate_2 by done. f_equal. apply memset_at. lia.
  - rewrite !lookup_ge_None_2; [done | rewrite length_replicate; lia | rewrite length_load_bytes; lia].
Qed.

Lemma echo_test s d q in_buf out_buf j :
  2 * PAGE_SIZE ≤ shared_size (pf_desc P) → client s d q (Some XRP_EXAMPLE_V1_NSID) →
  private P in_buf 32 → private P out_buf 32 → ranges_apart in_buf 32 out_buf 32 → 0 ≤ j ≤ 32 →
  ends (_ ← memset in_buf j 32;
        _ ← memset out_buf 0 32;
        data ← ExampleHost.read in_buf j;
        _ ← succeeds (run_command_sync kz junk turn polls q data out_buf j None);
        for_each (seqZ 0 32) (λ k,
          b ← ExampleHost.read (out_buf + k) 1;
          check (char (le_val b) =? (if k <? j then j + k else 0)))) s (λ _ s', client s' d q (Some XRP_EXAMPLE_V1_NSID)).
Proof.
  intros Hsize Hc Hpi Hpo Hap Hj. apply ends_bind. eexists _, (). split; [done |]. apply ends_bind. eexists _, (). split; [done |].
  apply ends_bind. eexists _, _. split; [done |]. cbn [s_mem set_mem].
  set (m0 := store_bytes _ out_buf _).
  assert (load_bytes m0 in_buf (Z.to_nat j) = replicate (Z.to_nat j) j) as Ed.
  { unfold m0. rewrite load_store_disjoint by (rewrite length_replicate; unfold ranges_apart in Hap; lia).
    rewrite wrap_small by lia. apply memset_bytes. lia. }
  rewrite Ed. apply ends_bind. unfold succeeds. apply ends_bind.
  apply (command_spec _ d q (Some XRP_EXAMPLE_V1_NSID) (Some (ExampleV1, 0))); try done.
  { do 2 apply client_mem. exact Hc. }
  { by exists (ExampleV1, 0). }
  { by intros id [= <-]. }
  { rewrite length_replicate. unfold PAGE_SIZE. lia. }
  { unfold PAGE_SIZE. lia. }
  { eapply private_le; [| exact Hpo]. lia. }
  intros s' args w hr Hc' Hd. set (data := replicate (Z.to_nat j) j) in *.
  assert (Z.of_nat (length data) = j) as El by (unfold data; rewrite length_replicate; lia).
  pose proof (de_rest _ _ _ _ _ _ _ _ _ _ _ _ _ _ Hd) as Hrest.
  destruct (echo_delivered _ _ _ _ _ _ _ _ El Hd) as [Est Eout]. rewrite Est. apply ends_check; [done |].
  apply (ends_for_each _ _ (λ s2, s2 = s')); [done | | by intros s2 ->].
  intros k s2 [Hk1 Hk2]%elem_of_seqZ ->. apply ends_bind. eexists _, _. split; [done |]. apply ends_check; [| done].
  assert (s_mem s' (out_buf + k) = if k <? j then j + k else 0) as Em.
  { destruct (Z.ltb_spec k j) as [Hkj | Hkj].
    - assert (load_bytes (s_mem s') out_buf (length data) !! Z.to_nat k = Some (s_mem s' (out_buf + k))) as E1.
      { rewrite load_bytes_lookup by lia. by rewrite Z2Nat.id by lia. }
      rewrite Eout in E1. unfold echo_of, data in E1. rewrite list_lookup_imap, lookup_replicate_2 in E1 by lia. cbn in E1.
      injection E1 as <-. rewrite wrap_small; lia.
    - rewrite Hrest; [| | | by intros it ?%not_elem_of_nil | lia].
      + apply memset_at. lia.
      + destruct Hpo as (? & ? & _). lia.
      + intros r Hr. destruct Hpo as (_ & _ & Hp). specialize (Hp r Hr). unfold in_virt. lia. }
  assert (load_bytes (s_mem s') (out_buf + k) (Z.to_nat 1) = [s_mem s' (out_buf + k)]) as ->
    by (change (Z.to_nat 1) with 1%nat; unfold load_bytes; cbn -[Z.add]; by rewrite Z.add_0_r).
  rewrite Em. cbn [le_val].
  destruct (Z.ltb_spec k j); unfold char; rewrite (proj2 (Z.ltb_lt _ 128)) by lia; lia.
Qed.

Lemma f1_ends s in_buf out_buf :
  2 * PAGE_SIZE ≤ shared_size (pf_desc P) → idle s →
  private P in_buf 32 → private P out_buf 32 → ranges_apart in_buf 32 out_buf 32 →
  ends (f1 e fuel kz junk turn polls devid in_buf out_buf) s (λ _ s', idle s').
Proof.
  intros Hsize Hs Hpi Hpo Hap. apply open_spec; [done |]. intros d q s1 Hc _. apply ends_bind.
  apply (ends_for_each _ _ (λ s', client s' d q (Some XRP_EXAMPLE_V1_NSID))); [done | |].
  - intros j s2 [? ?]%elem_of_seqZ Hc2. apply echo_test; try done. lia.
  - intros s2 Hc2. by eapply close_spec.
Qed.

(** ** The default namespace and command errors *)

Lemma private_null : private P 0 0.
Proof.
  split; [done |]. split; [destruct long_bits_cases as [-> | ->]; lia |]. intros r Hr.
  destruct (regions_elem _ _ (po_regions P Hok) Hr) as [_ ? ?]. lia.
Qed.

Lemma f6_ends s :
  2 * PAGE_SIZE ≤ shared_size (pf_desc P) → idle s →
  ends (f6 e fuel kz junk turn polls devid) s (λ _ s', idle s').
Proof.
  intros Hsize Hs. apply (open_spec s None); [done |]. intros d q s1 Hc _. apply ends_bind. unfold succeeds. apply ends_bind.
  apply (command_spec _ d q None None); try done; [apply private_null |].
  intros s' args w hr Hc' Hd. rewrite (de_call _ _ _ _ _ _ _ _ _ _ _ _ _ _ Hd). apply ends_check; [done |].
  by eapply close_spec.
Qed.

(** A command of the second namespace. *)
Lemma v2_command s d q v (Q : xrp_status → sim → Prop) :
  2 * PAGE_SIZE ≤ shared_size (pf_desc P) → client s d q (Some XRP_EXAMPLE_V2_NSID) → 0 ≤ v < 2 ^ 32 →
  (∀ s', client s' d q (Some XRP_EXAMPLE_V2_NSID) →
     Q (if v =? EXAMPLE_V2_CMD_OK then XRP_STATUS_SUCCESS else XRP_STATUS_FAILURE) s') →
  ends (run_command_sync kz junk turn polls q (le_bytes 4 v) 0 0 None) s Q.
Proof.
  intros Hsize Hc Hv HQ. apply (command_spec _ d q (Some XRP_EXAMPLE_V2_NSID) (Some (ExampleV2, 0))); try done.
  { by exists (ExampleV2, 0). }
  { by intros id [= <-]. }
  { apply private_null. }
  intros s' args w hr Hc' Hd. specialize (HQ s' Hc').
  assert (hr_status hr = if v =? EXAMPLE_V2_CMD_OK then XRP_STATUS_SUCCESS else XRP_STATUS_FAILURE) as ->; [| by destruct (v =? _)].
  rewrite (de_call _ _ _ _ _ _ _ _ _ _ _ _ _ _ Hd). cbn [run_handler run_example example_v2_handler hr_status].
  rewrite (de_in_size _ _ _ _ _ _ _ _ _ _ _ _ _ _ Hd). change (Z.of_nat (length (le_bytes 4 v)) <? sizeof_example_v2_cmd) with false.
  pose proof (de_in _ _ _ _ _ _ _ _ _ _ _ _ _ _ Hd) as Hin. change (length (le_bytes 4 v)) with 4%nat in Hin.
  unfold load32. rewrite Hin, le_val_bytes by (cbn; lia). done.
Qed.

Lemma f7_ends s pcmd :
  2 * PAGE_SIZE ≤ shared_size (pf_desc P) → idle s →
  ends (f7 e fuel kz junk turn polls devid pcmd) s (λ _ s', idle s').
Proof.
  intros Hsize Hs. apply ends_bind. eexists _, (). split; [done |]. cbn beta.
  apply (open_spec _ (Some XRP_EXAMPLE_V2_NSID)); [by apply world_mem |]. intros d q s1 Hc Hm1.
  assert (∀ m v, load_bytes (store_bytes m pcmd (le_bytes 4 v)) pcmd (Z.to_nat sizeof_example_v2_cmd) = le_bytes 4 v) as Hrd
    by (intros; apply load_store_same).
  apply ends_bind. eexists _, _. split; [done |]. rewrite Hm1. cbn [s_mem set_mem]. rewrite Hrd.
  apply ends_bind. unfold succeeds. apply ends_bind. apply (v2_command _ d); [done | done | done |]. intros s2 Hc2. apply ends_check; [done |].
  apply ends_bind. eexists _, (). split; [done |]. apply ends_bind. eexists _, _. split; [done |]. cbn [s_mem set_mem]. rewrite Hrd.
  apply ends_bind. apply (v2_command _ d); [done | by apply client_mem | done |]. intros s3 Hc3. apply ends_bind, ends_check; [done |].
  by eapply close_spec.
Qed.

(** ** Copying between buffers *)

Lemma pool_address addr n : in_pool P addr n → 0 < shared_base (pf_desc P) → 0 ≤ n → 0 < addr ∧ addr + n ≤ 2 ^ 32.
Proof.
  intros [? ?] ? ?. destruct Hok as [Hl _ (Hin & ? & ?) _ _]. destruct (regions_elem _ _ Hl Hin) as [? ? ?]. lia.
Qed.

(** A command of the first namespace with a size and two buffers copies the
    first to the second. *)
Lemma copy_delivered m0 m1 sz it1 it2 addrs args w hr :
  it_size it1 = sz → it_size it2 = sz → 0 < sz < 2 ^ 32 → it_flags it1 = 1 → it_flags it2 = 2 →
  (∀ p, it_alloc it1 = Some p → it_alloc it2 ≠ Some p) → 0 < shared_base (pf_desc P) →
  delivered P (run_example null) xrp_run_command m0 m1 (Some (ExampleV1, 0)) (le_bytes 4 sz) 0 0 [it1; it2] addrs args w hr →
  hr_status hr = XRP_STATUS_SUCCESS ∧ contents m1 it1 = contents m0 it1 ∧ contents m1 it2 = contents m0 it1.
Proof.
  intros Z1 Z2 Hz F1 F2 Hne Hsb Hd. pose proof (de_addrs _ _ _ _ _ _ _ _ _ _ _ _ _ _ Hd) as El.
  destruct addrs as [| a1 [| a2 [| ? ?]]]; try done.
  pose proof (de_in_pool _ _ _ _ _ _ _ _ _ _ _ _ _ _ Hd 0%nat it1 a1 eq_refl eq_refl) as P1.
  pose proof (de_in_pool _ _ _ _ _ _ _ _ _ _ _ _ _ _ Hd 1%nat it2 a2 eq_refl eq_refl) as P2.
  destruct (pool_address a1 (it_size it1) P1 Hsb) as [? ?]; [lia |].
  destruct (pool_address a2 (it_size it2) P2 Hsb) as [? ?]; [lia |].
  set (b1 := mk_buffer 0 a1 sz 0 XRP_READ 0). set (b2 := mk_buffer 0 a2 sz 0 XRP_READ_WRITE 0).
  assert (init_buffer <$> zip_with descriptor_of [it1; it2] [a1; a2] = flat [(b1, b2)]) as Eb.
  { cbn -[wrap]. unfold init_buffer, descriptor_of. cbn -[wrap]. rewrite F1, F2, Z1, Z2, !(u32_small sz), (u32_small a1), (u32_small a2) by lia.
    reflexivity. }
  assert (copy_size args (echo args w) = sz) as Ecs.
  { assert (echo args w = w) as ->.
    { apply (echo_nothing args w). apply (de_out_size _ _ _ _ _ _ _ _ _ _ _ _ _ _ Hd). }
    unfold copy_size. rewrite (de_in_size _ _ _ _ _ _ _ _ _ _ _ _ _ _ Hd).
    change (4 <=? Z.of_nat (length (le_bytes 4 sz))) with true.
    pose proof (de_in _ _ _ _ _ _ _ _ _ _ _ _ _ _ Hd) as Hin. change (length (le_bytes 4 sz)) with 4%nat in Hin.
    unfold load32. rewrite Hin. apply le_val_bytes. cbn. lia. }
  pose proof (de_call _ _ _ _ _ _ _ _ _ _ _ _ _ _ Hd) as Hr. rewrite Eb in Hr. cbn [run_handler run_example] in Hr.
  rewrite (v1_copies 0 args w 0 [(b1, b2)] sz Ecs) in Hr; [| lia | | done].
  2:{ constructor; [| constructor]. split; repeat split; try done; cbn; lia. }
  rewrite (echo_nothing args w) in Hr by apply (de_out_size _ _ _ _ _ _ _ _ _ _ _ _ _ _ Hd).
  split; [by rewrite Hr |].
  pose proof (de_items _ _ _ _ _ _ _ _ _ _ _ _ _ _ Hd 0%nat it1 a1 eq_refl eq_refl) as C1. rewrite Z1 in C1.
  assert (hr_mem hr = copy_pair sz w (b1, b2)) as Em by (by rewrite Hr).
  assert (ranges_apart a1 sz a2 sz) as Hap.
  { pose proof (de_items_apart _ _ _ _ _ _ _ _ _ _ _ _ _ _ Hd 0%nat 1%nat it1 it2 a1 a2 ltac:(done) eq_refl eq_refl eq_refl eq_refl Hne) as Hia.
    by rewrite Z1, Z2 in Hia. }
  assert (g_buffer (hr_group hr) = [accessed XRP_READ b1; accessed XRP_WRITE b2]) as Eg by (by rewrite Hr).
  split.
  - rewrite (de_items_out _ _ _ _ _ _ _ _ _ _ _ _ _ _ Hd 0%nat it1 a1 (accessed XRP_READ b1) eq_refl eq_refl) by (by rewrite Eg).
    destruct (bool_decide (is_Some (it_alloc it1))) eqn:Ea; cbn [orb].
    + rewrite <- C1, Z1, Em. apply load_bytes_ext. intros x Hx. apply copy_pair_out; cbn; unfold ranges_apart in *; lia.
    + unfold comes_back. by destruct (it_alloc it1).
  - rewrite (de_items_out _ _ _ _ _ _ _ _ _ _ _ _ _ _ Hd 1%nat it2 a2 (accessed XRP_WRITE b2) eq_refl eq_refl) by (by rewrite Eg).
    assert (bool_decide (is_Some (it_alloc it2)) || comes_back it2 (accessed XRP_WRITE b2) = true) as ->
      by (unfold comes_back; by destruct (it_alloc it2)).
    rewrite <- C1, Z2, Em. unfold copy_pair. cbn [fst snd b_ptr b1 b2].
    rewrite <- (length_load_bytes w a1 (Z.to_nat sz)) at 2. apply load_store_same.
Qed.

(** A buffer of the device or of the host. *)
Definition cost_of (hp : option Z) (sz : Z) : Z := match hp with Some _ => 0 | None => page_align sz end.
Definition buffer_ok (s : sim) (a : option Z) (ptr sz : Z) : Prop := ∀ fl mc, item_ok P s (mk_item a ptr sz fl mc).

Lemma make_buffer s roots objs d rqs sz hp (Q : nat → sim → Prop) :
  world s roots objs → objs !! d = Some (Device i rqs) → 0 < sz ≤ 0x10000 →
  (∀ p, hp = Some p → private P p sz ∧ p ≠ 0) → cost_of hp sz ≤ avail s →
  (∀ s' b a ptr, objs !! b = None →
     world s' ((KBuffer, b) :: roots) (<[b := Buffer ((λ p, (i, p)) <$> a) ptr sz 0 0]> objs) →
     s_mem s' = s_mem s → buffer_ok s' a ptr sz → 0 < ptr →
     (∀ a' ptr' sz', buffer_ok s a' ptr' sz' → buffer_ok s' a' ptr' sz' ∧ ∀ p, a' = Some p → a ≠ Some p) →
     match hp with Some p => a = None ∧ ptr = p | None => is_Some a end →
     avail s - cost_of hp sz ≤ avail s' → Q b s') →
  ends (create_buffer kz d sz hp) s Q.
Proof.
  intros Hw Hd Hz Hh Hav HQ. pose proof (small_fits sz ltac:(lia)) as [? Hzo]. destruct hp as [p |]; cbn [cost_of] in *.
  - destruct (Hh p eq_refl) as [Hp Hp0].
    destruct (create_host_buffer_ok P kz s roots objs d p sz Hw Hzo) as (s' & b & E & Hn & Hw' & Hm).
    apply (ends_call_obj _ _ _ _ _ E). apply (HQ s' b None p); try done.
    + apply Hm.
    + destruct Hp as [? _]. lia.
    + intros a' ptr' sz' Hb. split; [| done]. intros fl mc. specialize (Hb fl mc). eapply (item_ok_keeps P None); [| done | exact Hb].
      intros x _ _. by rewrite (same_memory_blocks P s s' Hm).
    + rewrite (same_memory_avail P s s' Hm). lia.
  - destruct (create_device_buffer_ok P Hok kz Hkz s roots objs d rqs sz Hfull Hw Hd ltac:(lia) Hzo Hav)
      as (s' & p & start & bs & b & E & Hn & Hw' & Hm & Hnb & Eb & Hl & Hav').
    assert (SimBlocks.blocks P s' !! p = Some (start, bs)) as Hbs by (by rewrite Eb, lookup_insert_eq).
    apply (ends_call_obj _ _ _ _ _ E). apply (HQ s' b (Some p) (virt (pf_pool P) start)); try done.
    + intros fl mc. split; [done |]. split; [done |]. cbn. by exists start, bs.
    + destruct (block_bytes P s' p start bs (w_platform _ _ _ _ _ Hw') Hbs) as (_ & _ & ? & _).
      destruct Hok as [Hlr _ (Hin & ? & ?) _ _]. destruct (regions_elem _ _ Hlr Hin) as [_ _ [? _]]. unfold virt. lia.
    + intros a' ptr' sz' Hb. split.
      * intros fl mc. specialize (Hb fl mc). eapply (item_ok_keeps P None); [| done | exact Hb]. by eapply keeps_insert.
      * intros p' -> [= ->]. destruct (Hb 0 0) as (_ & _ & start' & bs' & Hb' & _). congruence.
Qed.

Lemma buffer_ok_mem s m a ptr sz : on_platform (kz := kz) P s → buffer_ok s a ptr sz → buffer_ok (set_mem s m) a ptr sz.
Proof.
  intros Hs Hb fl mc. destruct (Hb fl mc) as (Hz & Hzo & Hi). split; [done |]. split; [done |]. cbn in *. destruct a as [p |]; [| done].
  destruct Hi as (start & bs & Hbs & Hl & Ep). exists start, (load_bytes m (virt (pf_pool P) start) (length bs)).
  split; [apply (blocks_mem P s m p start bs Hs Hbs) |]. by rewrite length_load_bytes.
Qed.

Lemma buffer_ok_same s s' a ptr sz : same_memory s s' → buffer_ok s a ptr sz → buffer_ok s' a ptr sz.
Proof.
  intros Hm Hb fl mc. eapply (item_ok_keeps P None); [| done | apply (Hb fl mc)]. intros x _ _. by rewrite (same_memory_blocks P s s' Hm).
Qed.

Lemma not_referenced r roots (objs : gmap nat obj) :
  r ∉ roots → map_Forall (λ _ o, r ∉ sim_refs o) objs → ¬ referenced r roots objs.
Proof. intros H1 H2 [H | (p & o & Hp & Hr)]; [done |]. by apply (H2 p o Hp). Qed.

(** A client with two buffers. *)
Definition base (d q : nat) : gmap nat obj := {[ q := Queue d (Some XRP_EXAMPLE_V1_NSID); d := Device i [] ]}.
Definition with_two (d q b1 b2 : nat) (o1 o2 : obj) : gmap nat obj := <[b2 := o2]> (<[b1 := o1]> (base d q)).
Definition buffer_obj (a : option Z) (ptr sz mc mf : Z) : obj := Buffer ((λ p, (i, p)) <$> a) ptr sz mc mf.
Definition two_buffers (s : sim) (d q b1 b2 : nat) (a1 a2 : option Z) (ptr1 ptr2 sz mf1 mf2 : Z) : Prop :=
  NoDup [d; q; b1; b2] ∧
  world s [(KBuffer, b2); (KBuffer, b1); (KQueue, q); (KDevice, d)]
    (with_two d q b1 b2 (buffer_obj a1 ptr1 sz 0 mf1) (buffer_obj a2 ptr2 sz 0 mf2)).

Lemma base_refs d q r : r.1 ≠ KDevice → map_Forall (λ _ o, r ∉ sim_refs o) (base d q).
Proof.
  intros Hr. unfold base. apply map_Forall_insert_2.
  - cbn. rewrite list_elem_of_singleton. by intros ->.
  - apply map_Forall_singleton. cbn. by intros ?%not_elem_of_nil.
Qed.

Lemma two_refs d q b1 b2 a1 a2 ptr1 ptr2 sz mc1 mc2 mf1 mf2 r :
  r.1 ≠ KDevice →
  map_Forall (λ _ o, r ∉ sim_refs o) (with_two d q b1 b2 (buffer_obj a1 ptr1 sz mc1 mf1) (buffer_obj a2 ptr2 sz mc2 mf2)).
Proof.
  intros Hr. unfold with_two. do 2 (apply map_Forall_insert_2; [by intros ?%not_elem_of_nil |]). by apply base_refs.
Qed.

Section two.
Context (d q b1 b2 : nat) (Hnd : NoDup [d; q; b1; b2]).

Lemma two_ne : d ≠ q ∧ d ≠ b1 ∧ d ≠ b2 ∧ q ≠ b1 ∧ q ≠ b2 ∧ b1 ≠ b2.
Proof. rewrite !list.NoDup_cons, !elem_of_cons, elem_of_nil in Hnd. tauto. Qed.

Lemma two_distinct : d ≠ q ∧ b1 ≠ b2 ∧ base d q !! b1 = None ∧ base d q !! b2 = None.
Proof.
  destruct two_ne as (? & ? & ? & ? & ? & ?). unfold base.
  split_and!; [done | done | |]; by rewrite lookup_insert_ne, lookup_singleton_ne.
Qed.

Lemma two_lookup1 o1 o2 : with_two d q b1 b2 o1 o2 !! b1 = Some o1.
Proof. destruct two_distinct as (_ & ? & _). unfold with_two. by rewrite lookup_insert_ne, lookup_insert_eq. Qed.
Lemma two_lookup2 o1 o2 : with_two d q b1 b2 o1 o2 !! b2 = Some o2.
Proof. unfold with_two. by rewrite lookup_insert_eq. Qed.
Lemma two_set1 o1 o2 o : <[b1 := o]> (with_two d q b1 b2 o1 o2) = with_two d q b1 b2 o o2.
Proof. destruct two_distinct as (_ & ? & _). unfold with_two. by rewrite insert_insert_ne, insert_insert_eq. Qed.
Lemma two_set2 o1 o2 o : <[b2 := o]> (with_two d q b1 b2 o1 o2) = with_two d q b1 b2 o1 o.
Proof. unfold with_two. by rewrite insert_insert_eq. Qed.
Lemma two_delete1 o1 o2 : delete b1 (with_two d q b1 b2 o1 o2) = <[b2 := o2]> (base d q).
Proof.
  destruct two_distinct as (_ & ? & ? & ?). unfold with_two. rewrite delete_insert_ne by done. by rewrite delete_insert_id.
Qed.

(** The second half of the copy test. *)
Lemma compare_and_release s a1 a2 ptr1 ptr2 sz mf1 mf2 :
  two_buffers s d q b1 b2 a1 a2 ptr1 ptr2 sz mf1 mf2 → 0 ≤ sz → ptr1 ≠ 0 → ptr2 ≠ 0 →
  load_bytes (s_mem s) ptr1 (Z.to_nat sz) = load_bytes (s_mem s) ptr2 (Z.to_nat sz) →
  ends (data1 ← map_buffer b1 0 sz 3;
        data2 ← map_buffer b2 0 sz 3;
        _ ← check (negb (data1 =? 0));
        _ ← check (negb (data2 =? 0));
        l1 ← ExampleHost.read data1 sz;
        l2 ← ExampleHost.read data2 sz;
        _ ← check (bool_decide (l1 = l2));
        _ ← unmap_buffer b1 data1;
        _ ← unmap_buffer b2 data2;
        _ ← call_ (λ s, xrp_release_buffer s b1);
        call_ (λ s, xrp_release_buffer s b2)) s (λ _ s', client s' d q (Some XRP_EXAMPLE_V1_NSID)).
Proof.
  intros [_ Hw] Hz Hp1 Hp2 Heq. destruct two_distinct as (Hdq & Hb12 & Hbase1 & Hbase2).
  set (roots := [(KBuffer, b2); (KBuffer, b1); (KQueue, q); (KDevice, d)]) in *.
  assert ((KBuffer, b1) ∈ roots) as I1 by set_solver. assert ((KBuffer, b2) ∈ roots) as I2 by set_solver.
  destruct (map_buffer_ok P kz s roots _ b1 _ ptr1 sz 0 mf1 0 sz 3 Hw I1 (two_lookup1 _ _)) as (s1 & E1 & Hw1 & Hm1); [done | lia |].
  rewrite two_set1, Z.add_0_r in *. apply ends_bind, (ends_call_obj _ _ _ _ _ E1).
  destruct (map_buffer_ok P kz s1 _ _ b2 _ ptr2 sz 0 mf2 0 sz 3 Hw1 ltac:(set_solver) (two_lookup2 _ _)) as (s2 & E2 & Hw2 & Hm2); [done | lia |].
  rewrite two_set2, Z.add_0_r in *. apply ends_bind, (ends_call_obj _ _ _ _ _ E2).
  apply ends_bind, ends_check; [lia |]. apply ends_bind, ends_check; [lia |].
  apply ends_bind. eexists _, _. split; [done |]. apply ends_bind. eexists _, _. split; [done |].
  apply ends_bind, ends_check; [apply bool_decide_eq_true_2; destruct Hm1, Hm2; congruence |].
  assert (world s2 ((KBuffer, b1) :: (KBuffer, b2) :: roots)
    (with_two d q b1 b2 (buffer_obj a1 ptr1 sz 1 (Z.lor mf1 3)) (buffer_obj a2 ptr2 sz 1 (Z.lor mf2 3)))) as Hw2'
    by (eapply world_perm; [apply perm_swap | exact Hw2]).
  destruct (unmap_buffer_ok P kz s2 _ _ b1 _ ptr1 sz 1 (Z.lor mf1 3) ptr1 Hw2' ltac:(set_solver) (two_lookup1 _ _)) as (s3 & E3 & Hw3 & _); [lia | lia |].
  rewrite two_set1 in Hw3. apply ends_bind, (ends_call_ok _ _ _ _ E3).
  destruct (unmap_buffer_ok P kz s3 _ _ b2 _ ptr2 sz 1 (Z.lor mf2 3) ptr2 Hw3 I2 (two_lookup2 _ _)) as (s4 & E4 & Hw4 & _); [lia | lia |].
  rewrite two_set2 in Hw4. apply ends_bind, (ends_call_ok _ _ _ _ E4).
  assert (world s4 [(KBuffer, b1); (KBuffer, b2); (KQueue, q); (KDevice, d)]
    (with_two d q b1 b2 (buffer_obj a1 ptr1 sz 0 (Z.lor mf1 3)) (buffer_obj a2 ptr2 sz 0 (Z.lor mf2 3)))) as Hw4'
    by (eapply world_perm; [apply perm_swap | exact Hw4]).
  destruct (destroy_buffer_ok P kz s4 _ _ b1 a1 ptr1 sz 0 (Z.lor mf1 3) Hw4' (two_lookup1 _ _)) as (s5 & E5 & Hw5 & _).
  { apply not_referenced; [| by apply two_refs]. rewrite !elem_of_cons, elem_of_nil. naive_solver. }
  rewrite two_delete1 in Hw5. apply ends_bind, (ends_call_ _ _ _ _ E5).
  destruct (destroy_buffer_ok P kz s5 _ _ b2 a2 ptr2 sz 0 (Z.lor mf2 3) Hw5) as (s6 & E6 & Hw6 & _).
  { by rewrite lookup_insert_eq. }
  { apply not_referenced; [rewrite !elem_of_cons, elem_of_nil; naive_solver |].
    apply map_Forall_insert_2; [by intros ?%not_elem_of_nil | by apply base_refs]. }
  rewrite delete_insert_id in Hw6 by done. apply (ends_call_ _ _ _ _ E6). by split.
Qed.
End two.

(** ... and a group. *)
Definition with_group (d q b1 b2 g : nat) (og o1 o2 : obj) : gmap nat obj := <[g := og]> (with_two d q b1 b2 o1 o2).

Section three.
Context (d q b1 b2 g : nat) (Hnd : NoDup [d; q; b1; b2; g]).

Lemma three_two : NoDup [d; q; b1; b2].
Proof. rewrite !list.NoDup_cons, !elem_of_cons, elem_of_nil in *. tauto. Qed.

Lemma three_distinct : g ≠ b1 ∧ g ≠ b2 ∧ g ≠ d ∧ g ≠ q.
Proof. rewrite !list.NoDup_cons, !elem_of_cons, elem_of_nil in Hnd. split_and!; intros E; symmetry in E; tauto. Qed.

Lemma two_none o1 o2 : with_two d q b1 b2 o1 o2 !! g = None.
Proof.
  destruct three_distinct as (? & ? & ? & ?). unfold with_two, base.
  by rewrite !lookup_insert_ne, lookup_singleton_ne by done.
Qed.

Lemma three_lookup og o1 o2 :
  with_group d q b1 b2 g og o1 o2 !! g = Some og ∧ with_group d q b1 b2 g og o1 o2 !! b1 = Some o1 ∧
  with_group d q b1 b2 g og o1 o2 !! b2 = Some o2 ∧
  with_group d q b1 b2 g og o1 o2 !! q = Some (Queue d (Some XRP_EXAMPLE_V1_NSID)) ∧
  with_group d q b1 b2 g og o1 o2 !! d = Some (Device i []).
Proof.
  destruct three_distinct as (? & ? & ? & ?). pose proof three_two as Htwo.
  destruct (two_ne d q b1 b2 Htwo) as (? & ? & ? & ? & ? & ?).
  unfold with_group. rewrite lookup_insert_eq. rewrite !(lookup_insert_ne _ g) by done.
  rewrite (two_lookup1 d q b1 b2 Htwo), two_lookup2. unfold with_two, base.
  rewrite !(lookup_insert_ne _ b2), !(lookup_insert_ne _ b1), lookup_insert_eq, lookup_insert_ne, lookup_singleton_eq by done. done.
Qed.

Lemma three_set og o1 o2 o :
  <[b1 := o]> (with_group d q b1 b2 g og o1 o2) = with_group d q b1 b2 g og o o2 ∧
  <[b2 := o]> (with_group d q b1 b2 g og o1 o2) = with_group d q b1 b2 g og o1 o ∧
  <[g := o]> (with_group d q b1 b2 g og o1 o2) = with_group d q b1 b2 g o o1 o2.
Proof.
  destruct three_distinct as (? & ? & ? & ?). unfold with_group. split_and!.
  - by rewrite insert_insert_ne, (two_set1 d q b1 b2 three_two) by done.
  - by rewrite insert_insert_ne, two_set2 by done.
  - by rewrite insert_insert_eq.
Qed.

(** A copy command of the client. *)
Lemma copy_command s a1 a2 ptr1 ptr2 sz mf1 mf2 cap (Q : xrp_status → sim → Prop) :
  let o1 := buffer_obj a1 ptr1 sz 0 mf1 in
  let o2 := buffer_obj a2 ptr2 sz 0 mf2 in
  let roots := [(KBuffer, b2); (KBuffer, b1); (KGroup, g); (KQueue, q); (KDevice, d)] in
  let objs := with_group d q b1 b2 g (Group false cap [(b1, 1); (b2, 2)]) o1 o2 in
  world s roots objs → 0 < sz ≤ 0x10000 → 0 < shared_base (pf_desc P) →
  buffer_ok s a1 ptr1 sz → buffer_ok s a2 ptr2 sz → (∀ p, a1 = Some p → a2 ≠ Some p) →
  (a1 = None → a2 = None → ranges_apart ptr1 sz ptr2 sz) → 0 ≤ ptr1 → 0 ≤ ptr2 →
  PAGE_SIZE + (if a1 then 0 else page_align sz) + (if a2 then 0 else page_align sz) ≤ avail s →
  (∀ s', world s' roots objs → load_bytes (s_mem s') ptr1 (Z.to_nat sz) = load_bytes (s_mem s') ptr2 (Z.to_nat sz) →
     Q XRP_STATUS_SUCCESS s') →
  ends (run_command_sync kz junk turn polls q (le_bytes 4 sz) 0 0 (Some g)) s Q.
Proof.
  intros o1 o2 roots objs Hw Hz Hsb Hb1 Hb2 Hne Hap Hp1 Hp2 Hav HQ.
  set (it1 := mk_item a1 ptr1 sz 1 0). set (it2 := mk_item a2 ptr2 sz 2 0).
  pose proof (three_lookup (Group false cap [(b1, 1); (b2, 2)]) o1 o2) as (Lg & L1 & L2 & Lq & Ld). fold objs in Lg, L1, L2, Lq, Ld.
  pose proof (w_objs _ _ _ _ _ Hw) as Ho.
  destruct (command_world_ok P Hok kz Hkz (run_example null) xrp_run_command dm hs true dev Hdev s roots objs q d
    (Some XRP_EXAMPLE_V1_NSID) (Some (ExampleV1, 0)) (le_bytes 4 sz) 0 0 (Some g) [it1; it2] junk polls Hfull Hw)
    as (s' & addrs & args & w & hr & E & Hw' & Hdl).
  - split.
    + split; [set_solver | by rewrite Ho].
    + by rewrite Ho.
    + by intros id [= <-].
    + split; [by exists (ExampleV1, 0) | by apply handlers_group].
    + by apply small_fits.
    + split; [by apply small_fits | apply private_null].
    + intros g' [= <-]. set_solver.
    + exists [(b1, 1); (b2, 2)]. split; [unfold group_buffers; by rewrite Ho, Lg |].
      repeat constructor; [exists mf1 | exists mf2]; cbn; by rewrite Ho, ?L1, ?L2.
    + constructor; [apply Hb1 | constructor; [apply Hb2 | constructor]].
    + split; [by apply small_fits | by right].
    + split.
      * constructor; [constructor; [exact Hap | constructor] | constructor; constructor].
      * intros it. rewrite !elem_of_cons, elem_of_nil. intros [-> | [-> | []]] _; cbn; lia.
  - constructor; [| constructor; [| constructor]]; unfold unusable; cbn; lia.
  - unfold demand, items_cost, item_cost. cbn [foldr it_alloc it_size it1 it2 length].
    change (Z.of_nat (length (le_bytes 4 sz))) with 4.
    change (cost_if (XRP_DSP_CMD_INLINE_DATA_SIZE <? 4) 4) with 0. change (cost_if (XRP_DSP_CMD_INLINE_DATA_SIZE <? 0) 0) with 0.
    change (cost_if (XRP_DSP_CMD_INLINE_BUFFER_COUNT <? Z.of_nat 2) (Z.of_nat 2 * sizeof_dsp_buffer)) with 4096.
    unfold PAGE_SIZE in Hav. destruct a1, a2; lia.
  - destruct (copy_delivered _ _ sz it1 it2 addrs args w hr eq_refl eq_refl ltac:(lia) eq_refl eq_refl Hne Hsb Hdl) as (Est & E1 & E2).
    apply (ends_call _ _ _ _ _ E). rewrite Est. apply HQ; [done |]. unfold contents in *. cbn in *. congruence.
Qed.

(** The copy test once the buffers are there. *)
Lemma copy_round s a1 a2 ptr1 ptr2 sz v psz :
  let roots := [(KBuffer, b2); (KBuffer, b1); (KGroup, g); (KQueue, q); (KDevice, d)] in
  world s roots (with_group d q b1 b2 g (Group false 0 []) (buffer_obj a1 ptr1 sz 0 0) (buffer_obj a2 ptr2 sz 0 0)) →
  0 < sz ≤ 0x10000 → 0 < shared_base (pf_desc P) →
  buffer_ok s a1 ptr1 sz → buffer_ok s a2 ptr2 sz → (∀ p, a1 = Some p → a2 ≠ Some p) →
  (a1 = None → a2 = None → ranges_apart ptr1 sz ptr2 sz) → 0 < ptr1 → 0 < ptr2 →
  PAGE_SIZE + (if a1 then 0 else page_align sz) + (if a2 then 0 else page_align sz) ≤ avail s →
  ends (data1 ← map_buffer b1 0 sz 3;
        _ ← memset data1 v sz;
        _ ← unmap_buffer b1 data1;
        _ ← add_buffer g b1 1;
        _ ← add_buffer g b2 2;
        _ ← write psz (le_bytes 4 sz);
        data ← ExampleHost.read psz 4;
        _ ← succeeds (run_command_sync kz junk turn polls q data 0 0 (Some g));
        _ ← call_ (λ s, xrp_release_buffer_group s g);
        data1 ← map_buffer b1 0 sz 3;
        data2 ← map_buffer b2 0 sz 3;
        _ ← check (negb (data1 =? 0));
        _ ← check (negb (data2 =? 0));
        l1 ← ExampleHost.read data1 sz;
        l2 ← ExampleHost.read data2 sz;
        _ ← check (bool_decide (l1 = l2));
        _ ← unmap_buffer b1 data1;
        _ ← unmap_buffer b2 data2;
        _ ← call_ (λ s, xrp_release_buffer s b1);
        call_ (λ s, xrp_release_buffer s b2)) s (λ _ s', client s' d q (Some XRP_EXAMPLE_V1_NSID)).
Proof.
  intros roots Hw Hz Hsb Hb1 Hb2 Hne Hap Hp1 Hp2 Hav.
  assert ((KBuffer, b1) ∈ roots) as I1 by set_solver. assert ((KBuffer, b2) ∈ roots) as I2 by set_solver.
  (* filling the first *)
  destruct (map_buffer_ok P kz s roots _ b1 ((λ p, (i, p)) <$> a1) ptr1 sz 0 0 0 sz 3 Hw I1) as (s1 & E1 & Hw1 & Hm1); [apply three_lookup | lia | lia |].
  rewrite (proj1 (three_set _ _ _ _)) in Hw1. rewrite Z.add_0_r in E1. apply ends_bind, (ends_call_obj _ _ _ _ _ E1).
  apply ends_bind. eexists _, (). split; [done |]. set (s2 := set_mem s1 _).
  pose proof (world_mem P kz s1 _ _ _ Hw1 : world s2 _ _) as Hw2.
  destruct (unmap_buffer_ok P kz s2 roots _ b1 ((λ p, (i, p)) <$> a1) ptr1 sz 1 3 ptr1 Hw2 I1) as (s3 & E3 & Hw3 & Hm3); [apply three_lookup | lia | lia |].
  rewrite (proj1 (three_set _ _ _ _)) in Hw3. apply ends_bind, (ends_call_ok _ _ _ _ E3).
  (* the group *)
  destruct (add_buffer_ok P kz s3 roots _ g 0 [] b1 1 Hw3 I1) as (s4 & c4 & E4 & Hw4 & Hm4); [apply three_lookup |].
  rewrite (proj2 (proj2 (three_set _ _ _ _))) in Hw4. apply ends_bind, (ends_call_obj _ _ _ _ _ E4).
  destruct (add_buffer_ok P kz s4 roots _ g c4 [(b1, 1)] b2 2 Hw4 I2) as (s5 & c5 & E5 & Hw5 & Hm5); [apply three_lookup |].
  rewrite (proj2 (proj2 (three_set _ _ _ _))) in Hw5. apply ends_bind, (ends_call_obj _ _ _ _ _ E5).
  apply ends_bind. eexists _, (). split; [done |]. set (s6 := set_mem s5 _).
  pose proof (world_mem P kz s5 _ _ _ Hw5 : world s6 _ _) as Hw6.
  apply ends_bind. eexists _, _. split; [done |].
  assert (load_bytes (s_mem s6) psz (Z.to_nat 4) = le_bytes 4 sz) as -> by apply (load_store_same _ psz (le_bytes 4 sz)).
  (* the command *)
  pose proof (same_memory_trans _ _ _ Hm3 (same_memory_trans _ _ _ Hm4 Hm5)) as Hm25.
  assert (∀ a ptr, buffer_ok s a ptr sz → buffer_ok s6 a ptr sz) as Hbo.
  { intros a ptr Hb. apply buffer_ok_mem; [apply Hw5 |]. eapply buffer_ok_same; [exact Hm25 |]. apply buffer_ok_mem; [apply Hw1 |].
    by eapply buffer_ok_same. }
  assert (avail s6 = avail s) as Hav6.
  { change (avail s6) with (avail s5). rewrite (same_memory_avail P _ _ Hm25). change (avail s2) with (avail s1).
    by rewrite (same_memory_avail P _ _ Hm1). }
  apply ends_bind. unfold succeeds. apply ends_bind.
  apply (copy_command s6 a1 a2 ptr1 ptr2 sz _ _ c5 _ Hw6); try done; [by apply Hbo | by apply Hbo | lia | lia | by rewrite Hav6 |].
  intros s7 Hw7 Heq. apply ends_check; [done |].
  (* release and comparison *)
  destruct (destroy_group_ok P kz s7 [(KBuffer, b2); (KBuffer, b1); (KQueue, q); (KDevice, d)]
    (with_group d q b1 b2 g (Group false c5 [(b1, 1); (b2, 2)]) (buffer_obj a1 ptr1 sz 0 3) (buffer_obj a2 ptr2 sz 0 0)) g c5 [(b1, 1); (b2, 2)])
    as (s8 & E8 & Hw8 & Hm8).
  { eapply world_perm; [| exact Hw7]. symmetry.
    apply (Permutation_middle [(KBuffer, b2); (KBuffer, b1)] [(KQueue, q); (KDevice, d)]). }
  { apply three_lookup. }
  { destruct three_distinct as (? & ? & ? & ?). apply not_referenced; [rewrite !elem_of_cons, elem_of_nil; naive_solver |].
    apply map_Forall_insert_2; [set_solver | by apply two_refs]. }
  { intros b fl. rewrite !elem_of_cons, elem_of_nil. naive_solver. }
  apply ends_bind, (ends_call_ _ _ _ _ E8). unfold with_group in Hw8. rewrite delete_insert_id in Hw8 by apply two_none.
  eapply (compare_and_release d q b1 b2 three_two s8); [split; [apply three_two | exact Hw8] | lia | lia | lia |]. by rewrite Hm8.
Qed.
End three.

Lemma created_distinct d q g b1 b2 (og o1 : obj) :
  d ≠ q → base d q !! g = None → <[g := og]> (base d q) !! b1 = None → <[b1 := o1]> (<[g := og]> (base d q)) !! b2 = None →
  NoDup [d; q; b1; b2; g].
Proof.
  assert (∀ x, base d q !! x = None → x ≠ d ∧ x ≠ q) as Hb.
  { intros x Hx. unfold base in Hx. apply lookup_insert_None in Hx as [Hx ?]. apply lookup_singleton_None in Hx. done. }
  intros Hdq [Hgd Hgq]%Hb [[H1d H1q]%Hb H1g]%lookup_insert_None [[[H2d H2q]%Hb H2g]%lookup_insert_None H21]%lookup_insert_None.
  rewrite !list.NoDup_cons, !elem_of_cons, !elem_of_nil. split_and!; try apply NoDup_nil_2; lia.
Qed.

Lemma host_ptr_some b p x : host_ptr b p = Some x → x = p ∧ p ≠ 0.
Proof. unfold host_ptr. destruct b; cbn [andb]; [| done]. destruct (Z.eqb_spec p 0); cbn; [done |]. by intros [= ->]. Qed.

Lemma two_pages sz : 0 < sz ≤ 2 * PAGE_SIZE → page_align sz ≤ 2 * PAGE_SIZE.
Proof.
  unfold PAGE_SIZE. intros Hz. destruct (page_align_divide sz) as [k Hk]. unfold PAGE_SIZE in Hk.
  destruct (page_align_bounds sz) as [? _]; unfold PAGE_SIZE in *; lia.
Qed.

(** One round of the copy test. *)
Lemma f3_body_ends s d q psz p1 p2 sz j :
  5 * PAGE_SIZE ≤ shared_size (pf_desc P) → 0 < shared_base (pf_desc P) → client s d q (Some XRP_EXAMPLE_V1_NSID) →
  0 < sz ≤ 2 * PAGE_SIZE → private P p1 sz → private P p2 sz → ranges_apart p1 sz p2 sz →
  ends (f3_body kz junk turn polls d q psz p1 p2 sz j) s (λ _ s', client s' d q (Some XRP_EXAMPLE_V1_NSID)).
Proof.
  intros Hsize Hsb [Hdq Hw] Hz Hp1 Hp2 Hap. pose proof (two_pages sz Hz) as Hpg. assert (0 < sz ≤ 0x10000) as Hz' by (unfold PAGE_SIZE in Hz; lia).
  fold (base d q) in Hw.
  (* group and buffers *)
  destruct (create_group_ok P kz s _ _ Hw) as (s1 & g & E1 & Ng & Hw1 & Hm1). apply ends_bind, (ends_call_obj _ _ _ _ _ E1).
  assert (avail s1 = shared_size (pf_desc P)) as Hav1.
  { apply (world_room P kz s1 _ _ Hfull Hw1). apply map_Forall_insert_2; [done |]. apply client_allocs. }
  assert (g ≠ d ∧ g ≠ q) as [Hgd Hgq].
  { split; intros ->; unfold base in Ng; [rewrite lookup_insert_ne, lookup_singleton_eq in Ng by done | rewrite lookup_insert_eq in Ng]; done. }
  set (hp1 := host_ptr (Z.testbit j 0) p1). set (hp2 := host_ptr (Z.testbit j 1) p2).
  assert (∀ hp, 0 ≤ cost_of hp sz ≤ 2 * PAGE_SIZE) as Hco.
  { intros []; cbn [cost_of]; [unfold PAGE_SIZE; lia |]. pose proof (page_cost_nonneg sz). lia. }
  pose proof (Hco hp1). pose proof (Hco hp2). unfold PAGE_SIZE in *.
  apply ends_bind. eapply (make_buffer s1 _ _ d [] sz hp1 _ Hw1); [| done | | lia |].
  { unfold base. by rewrite !lookup_insert_ne, lookup_singleton_eq. }
  { intros x [-> ?]%host_ptr_some. done. }
  intros s2 b1 a1 ptr1 N1 Hw2 Hm2 Hb1 Hpos1 _ Hk1 Hav2.
  apply ends_bind. eapply (make_buffer s2 _ _ d [] sz hp2 _ Hw2); [| done | | lia |].
  { rewrite lookup_insert_ne; [unfold base; by rewrite !lookup_insert_ne, lookup_singleton_eq |].
    intros ->. unfold base in N1. by rewrite !lookup_insert_ne, lookup_singleton_eq in N1. }
  { intros x [-> ?]%host_ptr_some. done. }
  intros s3 b2 a2 ptr2 N2 Hw3 Hm3 Hb2 Hpos2 Hold Hk2 Hav3. destruct (Hold a1 ptr1 sz Hb1) as [Hb1' Hne].
  pose proof (created_distinct d q g b1 b2 _ _ Hdq Ng N1 N2) as Hnd. pose proof (three_two _ _ _ _ _ Hnd) as Htwo.
  destruct (three_distinct _ _ _ _ _ Hnd) as (Hg1 & Hg2 & _).
  apply (copy_round d q b1 b2 g Hnd s3 a1 a2 ptr1 ptr2 sz); try done.
  - unfold with_group, with_two. by rewrite (insert_insert_ne _ g b2), (insert_insert_ne _ g b1) by done.
  - intros -> ->. destruct hp1 as [x |] eqn:Eh1; [| by destruct Hk1]. destruct hp2 as [y |] eqn:Eh2; [| by destruct Hk2].
    apply host_ptr_some in Eh1 as [-> _], Eh2 as [-> _]. destruct Hk1 as [_ ->], Hk2 as [_ ->]. done.
  - unfold PAGE_SIZE. destruct hp1 as [x |], hp2 as [y |]; cbn [cost_of] in *;
      repeat match goal with H : _ = None ∧ _ |- _ => destruct H as [-> _] | H : is_Some _ |- _ => destruct H as [? ->] end; lia.
Qed.

Lemma f3_ends s psz p1 p2 :
  5 * PAGE_SIZE ≤ shared_size (pf_desc P) → 0 < shared_base (pf_desc P) → idle s →
  private P p1 0x2000 → private P p2 0x2000 → ranges_apart p1 0x2000 p2 0x2000 →
  ends (f3 e fuel kz junk turn polls devid psz p1 p2) s (λ _ s', idle s').
Proof.
  intros Hsize Hsb Hs Hp1 Hp2 Hap. apply open_spec; [done |]. intros d q s1 Hc _. apply ends_bind.
  apply (ends_for_each _ _ (λ s', client s' d q (Some XRP_EXAMPLE_V1_NSID))); [done | |].
  - intros sz s2 Hsz Hc2. apply (ends_for_each _ _ (λ s', client s' d q (Some XRP_EXAMPLE_V1_NSID))); [done | | done].
    assert (0 < sz ≤ 0x2000) as Hz by (rewrite !elem_of_cons, elem_of_nil in Hsz; lia).
    intros j s3 _ Hc3. apply f3_body_ends; try done; [eapply private_le; [| exact Hp1]; lia | eapply private_le; [| exact Hp2]; lia |].
    unfold ranges_apart in *. lia.
  - intros s2 Hc2. by eapply close_spec.
Qed.

(** ** Groups and queries *)

Lemma two_rooms s (objs : gmap nat obj) roots :
  5 * PAGE_SIZE ≤ shared_size (pf_desc P) → world s roots objs → map_Forall (λ _ o, obj_allocs o = []) objs →
  cost_of None 1 = PAGE_SIZE ∧ 5 * PAGE_SIZE ≤ avail s.
Proof. intros Hsize Hw Ha. split; [done |]. by rewrite (world_room P kz s _ _ Hfull Hw Ha). Qed.

(** The last calls of the tests: the group has the last reference to its
    buffer. *)
Definition held_group (d q b g c : nat) (fl : Z) (o : obj) : gmap nat obj :=
  <[g := Group false c [(b, fl)]]> (<[b := o]> (base d q)).

Lemma final_release s d q b g c fl a ptr sz :
  d ≠ q → g ≠ b → base d q !! g = None → base d q !! b = None →
  world s [(KGroup, g); (KQueue, q); (KDevice, d)] (held_group d q b g c fl (buffer_obj a ptr sz 0 0)) →
  ends (_ ← call_ (λ s, xrp_release_buffer_group s g);
        _ ← call_ (λ s, xrp_release_queue s q);
        call_ (λ s, xrp_release_device false s d)) s (λ _ s', idle s').
Proof.
  intros Hdq Hgb Hg Hb Hw. assert (g ≠ q ∧ g ≠ d) as [Hgq Hgd].
  { unfold base in Hg. apply lookup_insert_None in Hg as [Hg ?]. by apply lookup_singleton_None in Hg. }
  assert (delete g (held_group d q b g c fl (buffer_obj a ptr sz 0 0)) = <[b := buffer_obj a ptr sz 0 0]> (base d q)) as Ed.
  { unfold held_group. rewrite delete_insert_id; [done |]. by rewrite lookup_insert_ne. }
  destruct (release_group_with_buffer_ok P kz s [(KQueue, q); (KDevice, d)] _ g c b fl a ptr sz 0 0 Hw) as (s1 & E1 & Hw1 & _).
  { apply lookup_insert_eq. }
  { unfold held_group. rewrite lookup_insert_ne by done. apply lookup_insert_eq. }
  { apply not_referenced; [rewrite !elem_of_cons, elem_of_nil; naive_solver |]. unfold held_group.
    apply map_Forall_insert_2; [cbn; rewrite list_elem_of_singleton; done |].
    apply map_Forall_insert_2; [by intros ?%not_elem_of_nil | by apply base_refs]. }
  { rewrite Ed. apply not_referenced; [rewrite !elem_of_cons, elem_of_nil; naive_solver |].
    apply map_Forall_insert_2; [by intros ?%not_elem_of_nil | by apply base_refs]. }
  apply ends_bind, (ends_call_ _ _ _ _ E1). rewrite Ed, delete_insert_id in Hw1 by done.
  eapply (close_spec s1 d q (Some XRP_EXAMPLE_V1_NSID)); [by split | done].
Qed.

Section released.
Context (d q b1 b2 g : nat) (Hnd : NoDup [d; q; b1; b2; g]).

Lemma delete_first og o1 o2 : delete b1 (with_group d q b1 b2 g og o1 o2) = <[g := og]> (<[b2 := o2]> (base d q)).
Proof.
  destruct (three_distinct _ _ _ _ _ Hnd) as (? & ? & _). unfold with_group. rewrite delete_insert_ne by done.
  by rewrite (two_delete1 _ _ _ _ (three_two _ _ _ _ _ Hnd)).
Qed.

Lemma delete_second og o1 o2 : delete b2 (with_group d q b1 b2 g og o1 o2) = <[g := og]> (<[b1 := o1]> (base d q)).
Proof.
  destruct (three_distinct _ _ _ _ _ Hnd) as (? & ? & _). destruct (two_distinct _ _ _ _ (three_two _ _ _ _ _ Hnd)) as (_ & ? & _ & ?).
  unfold with_group, with_two. rewrite delete_insert_ne by done. rewrite delete_insert_id; [done |]. by rewrite lookup_insert_ne.
Qed.

Lemma base_none : d ≠ q ∧ base d q !! g = None ∧ base d q !! b1 = None ∧ base d q !! b2 = None.
Proof.
  destruct (three_distinct _ _ _ _ _ Hnd) as (? & ? & ? & ?). destruct (two_distinct _ _ _ _ (three_two _ _ _ _ _ Hnd)) as (? & ? & ? & ?).
  split_and!; try done. unfold base. by rewrite lookup_insert_ne, lookup_singleton_ne.
Qed.

Lemma release_replaced s a1 a2 ptr1 ptr2 c fl :
  world s [(KBuffer, b2); (KBuffer, b2); (KBuffer, b1); (KGroup, g); (KQueue, q); (KDevice, d)]
    (with_group d q b1 b2 g (Group false c [(b2, fl)]) (buffer_obj a1 ptr1 1 0 0) (buffer_obj a2 ptr2 1 0 0)) →
  ends (_ ← call_ (λ s, xrp_release_buffer s b1);
        _ ← call_ (λ s, xrp_release_buffer s b2);
        _ ← call_ (λ s, xrp_release_buffer s b2);
        _ ← call_ (λ s, xrp_release_buffer_group s g);
        _ ← call_ (λ s, xrp_release_queue s q);
        call_ (λ s, xrp_release_device false s d)) s (λ _ s', idle s').
Proof.
  intros Hw. destruct (three_distinct _ _ _ _ _ Hnd) as (Hg1 & Hg2 & _). destruct base_none as (Hdq & Hg & _ & Hb2).
  destruct (two_distinct _ _ _ _ (three_two _ _ _ _ _ Hnd)) as (_ & H12 & _).
  destruct (destroy_buffer_ok P kz s [(KBuffer, b2); (KBuffer, b2); (KGroup, g); (KQueue, q); (KDevice, d)]
    (with_group d q b1 b2 g (Group false c [(b2, fl)]) (buffer_obj a1 ptr1 1 0 0) (buffer_obj a2 ptr2 1 0 0)) b1 a1 ptr1 1 0 0)
    as (s1 & E1 & Hw1 & _).
  { eapply world_perm; [| exact Hw]. symmetry. apply (Permutation_middle [(KBuffer, b2); (KBuffer, b2)]). }
  { by apply three_lookup. }
  { apply not_referenced; [rewrite !elem_of_cons, elem_of_nil; naive_solver |].
    apply map_Forall_insert_2; [cbn; rewrite list_elem_of_singleton; congruence | by apply two_refs]. }
  rewrite delete_first in Hw1. apply ends_bind, (ends_call_ _ _ _ _ E1).
  assert (<[g := Group false c [(b2, fl)]]> (<[b2 := buffer_obj a2 ptr2 1 0 0]> (base d q)) !! b2 = Some (buffer_obj a2 ptr2 1 0 0)) as L2
    by (rewrite lookup_insert_ne by done; apply lookup_insert_eq).
  destruct (release_buffer_shared_ok P kz s1 _ _ b2 _ ptr2 1 0 0 Hw1 L2) as (s2 & E2 & Hw2 & _); [left; by left |].
  apply ends_bind, (ends_call_ _ _ _ _ E2).
  destruct (release_buffer_shared_ok P kz s2 _ _ b2 _ ptr2 1 0 0 Hw2 L2) as (s3 & E3 & Hw3 & _).
  { right. exists g, (Group false c [(b2, fl)]). split; [apply lookup_insert_eq | by left]. }
  apply ends_bind, (ends_call_ _ _ _ _ E3). by eapply final_release.
Qed.

Lemma release_queried s a1 a2 ptr1 ptr2 sz1 sz2 c fl :
  world s [(KBuffer, b2); (KBuffer, b1); (KGroup, g); (KQueue, q); (KDevice, d)]
    (with_group d q b1 b2 g (Group false c [(b1, fl)]) (buffer_obj a1 ptr1 sz1 0 0) (buffer_obj a2 ptr2 sz2 0 0)) →
  ends (_ ← call_ (λ s, xrp_release_buffer s b1);
        _ ← call_ (λ s, xrp_release_buffer s b2);
        _ ← call_ (λ s, xrp_release_buffer_group s g);
        _ ← call_ (λ s, xrp_release_queue s q);
        call_ (λ s, xrp_release_device false s d)) s (λ _ s', idle s').
Proof.
  intros Hw. destruct (three_distinct _ _ _ _ _ Hnd) as (Hg1 & Hg2 & _). destruct base_none as (Hdq & Hg & Hb1 & _).
  destruct (two_distinct _ _ _ _ (three_two _ _ _ _ _ Hnd)) as (_ & H12 & _).
  set (objs := with_group d q b1 b2 g _ _ _) in *.
  assert (world s [(KBuffer, b1); (KBuffer, b2); (KGroup, g); (KQueue, q); (KDevice, d)] objs) as Hw'
    by (eapply world_perm; [apply perm_swap | exact Hw]).
  pose proof (three_lookup _ _ _ _ _ Hnd (Group false c [(b1, fl)]) (buffer_obj a1 ptr1 sz1 0 0) (buffer_obj a2 ptr2 sz2 0 0)) as (Lg & L1 & L2 & _).
  destruct (release_buffer_shared_ok P kz s _ objs b1 _ ptr1 sz1 0 0 Hw' L1) as (s1 & E1 & Hw1 & _).
  { right. exists g, (Group false c [(b1, fl)]). split; [exact Lg | by left]. }
  apply ends_bind, (ends_call_ _ _ _ _ E1).
  destruct (destroy_buffer_ok P kz s1 _ objs b2 a2 ptr2 sz2 0 0 Hw1 L2) as (s2 & E2 & Hw2 & _).
  { apply not_referenced; [rewrite !elem_of_cons, elem_of_nil; naive_solver |].
    apply map_Forall_insert_2; [cbn; rewrite list_elem_of_singleton; congruence |].
    do 2 (apply map_Forall_insert_2; [by intros ?%not_elem_of_nil |]). by apply base_refs. }
  apply ends_bind, (ends_call_ _ _ _ _ E2). unfold objs in Hw2. rewrite delete_second in Hw2. by apply (final_release s2 d q b1 g c fl a1 ptr1 sz1).
Qed.
End released.

Lemma f4_ends s :
  5 * PAGE_SIZE ≤ shared_size (pf_desc P) → idle s →
  ends (f4 e fuel kz devid) s (λ _ s', idle s').
Proof.
  intros Hsize Hs. apply open_spec; [done |]. intros d q s0 [Hdq Hw] _. fold (base d q) in Hw.
  destruct (create_group_ok P kz s0 _ _ Hw) as (s1 & g & E1 & Ng & Hw1 & Hm1). apply ends_bind, (ends_call_obj _ _ _ _ _ E1).
  destruct (two_rooms s1 _ _ Hsize Hw1) as [Hc1 Hav1]; [apply map_Forall_insert_2; [done | apply client_allocs] |]. unfold PAGE_SIZE in *.
  assert (base d q !! d = Some (Device i [])) as Hbd by (unfold base; by rewrite lookup_insert_ne, lookup_singleton_eq).
  apply ends_bind. eapply (make_buffer s1 _ _ d [] 1 None _ Hw1); [| done | done | lia |].
  { rewrite lookup_insert_ne; [done |]. intros ->. congruence. }
  intros s2 b1 a1 ptr1 N1 Hw2 Hm2 Hb1 _ _ Hk1 Hav2.
  apply ends_bind. eapply (make_buffer s2 _ _ d [] 1 None _ Hw2); [| done | done | lia |].
  { apply lookup_insert_None in N1 as [N1 ?]. rewrite !lookup_insert_ne; [done | |]; intros ->; congruence. }
  intros s3 b2 a2 ptr2 N2 Hw3 Hm3 Hb2 _ _ Hk2 _.
  pose proof (created_distinct d q g b1 b2 _ _ Hdq Ng N1 N2) as Hnd. pose proof (three_two _ _ _ _ _ Hnd) as Htwo.
  destruct (three_distinct _ _ _ _ _ Hnd) as (Hg1 & Hg2 & _).
  set (roots := [(KBuffer, b2); (KBuffer, b1); (KGroup, g); (KQueue, q); (KDevice, d)]).
  set (o1 := buffer_obj a1 ptr1 1 0 0). set (o2 := buffer_obj a2 ptr2 1 0 0).
  assert (world s3 roots (with_group d q b1 b2 g (Group false 0 []) o1 o2)) as Hw3'.
  { unfold with_group, with_two. by rewrite (insert_insert_ne _ g b2), (insert_insert_ne _ g b1) by done. }
  assert ((KBuffer, b1) ∈ roots) as I1 by set_solver. assert ((KBuffer, b2) ∈ roots) as I2 by set_solver.
  destruct (add_buffer_ok P kz s3 roots _ g 0 [] b1 1 Hw3' I1) as (s4 & c4 & E4 & Hw4 & _); [by apply three_lookup |].
  rewrite (proj2 (proj2 (three_set _ _ _ _ _ Hnd _ _ _ _))) in Hw4. apply ends_bind, (ends_call_obj _ _ _ _ _ E4).
  destruct (set_buffer_ok P kz s4 roots _ g c4 [(b1, 1)] 0 b2 1 b1 1 o1 Hw4 I2) as (s5 & E5 & Hw5 & _);
    [by apply three_lookup | done | done | by apply three_lookup |].
  rewrite (proj2 (proj2 (three_set _ _ _ _ _ Hnd _ _ _ _))) in Hw5. apply ends_bind, (ends_call_ok _ _ _ _ E5).
  destruct (set_buffer_none_ok P kz s5 roots _ g c4 [(b2, 1)] 1 b2 1 o2 Hw5 I2) as (s6 & E6 & Hw6 & _);
    [by apply three_lookup | done | by apply three_lookup |].
  apply ends_bind, (ends_call _ _ _ _ _ E6). apply ends_bind, ends_check; [done |].
  destruct (get_buffer_ok P kz s6 roots _ g c4 [(b2, 1)] 0 b2 1 Hw6) as (s7 & E7 & Hw7 & _); [by apply three_lookup | done | done |].
  apply ends_bind, (ends_call_obj _ _ _ _ _ E7). apply ends_bind, ends_check; [by apply Nat.eqb_eq |].
  exact (release_replaced d q b1 b2 g Hnd s7 a1 a2 ptr1 ptr2 c4 1 Hw7).
Qed.

Lemma f5_ends s pi :
  5 * PAGE_SIZE ≤ shared_size (pf_desc P) → idle s → private P pi 8 → pi ≠ 0 →
  ends (f5 e fuel kz devid pi) s (λ _ s', idle s').
Proof.
  intros Hsize Hs Hpi Hpi0. apply open_spec; [done |]. intros d q s0 [Hdq Hw] _. fold (base d q) in Hw.
  destruct (create_group_ok P kz s0 _ _ Hw) as (s1 & g & E1 & Ng & Hw1 & Hm1). apply ends_bind, (ends_call_obj _ _ _ _ _ E1).
  destruct (two_rooms s1 _ _ Hsize Hw1) as [Hc1 Hav1]; [apply map_Forall_insert_2; [done | apply client_allocs] |]. unfold PAGE_SIZE in *.
  assert (base d q !! d = Some (Device i [])) as Hbd by (unfold base; by rewrite lookup_insert_ne, lookup_singleton_eq).
  apply ends_bind. eapply (make_buffer s1 _ _ d [] 1 None _ Hw1); [| done | done | lia |].
  { rewrite lookup_insert_ne; [done |]. intros ->. congruence. }
  intros s2 b1 a1 ptr1 N1 Hw2 Hm2 Hb1 _ _ [p1 ->] Hav2.
  apply ends_bind. eapply (make_buffer s2 _ _ d [] 8 (Some pi) _ Hw2); [| done | by intros ? [= <-] | cbn [cost_of]; lia |].
  { apply lookup_insert_None in N1 as [N1 ?]. rewrite !lookup_insert_ne; [done | |]; intros ->; congruence. }
  intros s3 b2 a2 ptr2 N2 Hw3 Hm3 Hb2 _ _ [-> ->] _.
  pose proof (created_distinct d q g b1 b2 _ _ Hdq Ng N1 N2) as Hnd.
  set (roots := [(KBuffer, b2); (KBuffer, b1); (KGroup, g); (KQueue, q); (KDevice, d)]).
  set (o1 := buffer_obj (Some p1) ptr1 1 0 0). set (o2 := buffer_obj None pi 8 0 0).
  destruct (three_distinct _ _ _ _ _ Hnd) as (Hg1 & Hg2 & _).
  assert (world s3 roots (with_group d q b1 b2 g (Group false 0 []) o1 o2)) as Hw3'.
  { unfold with_group, with_two. by rewrite (insert_insert_ne _ g b2), (insert_insert_ne _ g b1) by done. }
  assert ((KBuffer, b1) ∈ roots) as I1 by set_solver.
  destruct (add_buffer_ok P kz s3 roots _ g 0 [] b1 1 Hw3' I1) as (s4 & c4 & E4 & Hw4 & _); [by apply three_lookup |].
  rewrite (proj2 (proj2 (three_set _ _ _ _ _ Hnd _ _ _ _))) in Hw4. apply ends_bind, (ends_call_obj _ _ _ _ _ E4).
  pose proof (w_objs _ _ _ _ _ Hw4) as Ho. cbn [app] in Hw4, Ho.
  pose proof (three_lookup _ _ _ _ _ Hnd (Group false c4 [(b1, 1)]) o1 o2) as (Lg & L1 & L2 & _).
  apply ends_bind. eapply ends_query; [unfold xrp_buffer_get_info; rewrite Ho, L1; done |]. apply ends_bind, ends_check; [done |].
  apply ends_bind. eapply ends_query; [unfold xrp_buffer_get_info; rewrite Ho, L1; done |]. apply ends_bind, ends_check; [done |].
  apply ends_bind. eapply ends_query; [unfold xrp_buffer_get_info; rewrite Ho, L2; done |].
  apply ends_bind, ends_check; [by apply bool_decide_eq_true_2 |].
  apply ends_bind. eapply ends_query; [unfold xrp_buffer_group_get_info; rewrite Ho, Lg; done |]. apply ends_bind, ends_check; [done |].
  apply ends_bind. eapply ends_query; [unfold xrp_buffer_group_get_info; rewrite Ho, Lg; done |]. apply ends_bind, ends_check; [done |].
  exact (release_queried d q b1 b2 g Hnd s4 (Some p1) None ptr1 pi 1 8 c4 1 Hw4).
Qed.
End tests.

(** ** All of them *)

Lemma private_part `{A : Arch} (P : platform) a n b k : 0 ≤ b → 0 ≤ k → b + k ≤ n → private P a n → private P (a + b) k.
Proof. intros Hb Hk Hn (? & ? & Hr). split; [lia |]. split; [lia |]. intros r Hin. specialize (Hr r Hin). lia. Qed.

(** C4: the example works.  On every platform of the simulator whose pool
    has at least five pages, does not start at address zero, and whose
    allocators get memory, the firmware's [main] registers its two handlers
    whatever distinct identifiers it tests with, and each of the tests of the
    example program other than the asynchronous one - echo of up to 32
    bytes, copies between device and host buffers of 2 to 8 KiB, buffer
    groups, queries, the default namespace and failing commands - run from
    any state of the library without objects, however often the worker polls
    before the DSP answers, returns with no failed assertion and leaves no
    object, no reference and no pool memory behind. *)
Theorem example_tests_pass `{A : Arch} (P : platform) (kz : callocs) e fuel junk dm hs polls null fresh ids stack p1 p2 :
  platform_ok P → kz_ok kz → kz_full kz → fresh_ok fresh → (∀ k, is_Some (fresh k)) → Forall id_ok ids → NoDup ids →
  5 * PAGE_SIZE ≤ shared_size (pf_desc P) → 0 < shared_base (pf_desc P) →
  private P stack 64 → stack ≠ 0 → private P p1 0x2000 → private P p2 0x2000 → ranges_apart p1 0x2000 p2 0x2000 →
  ∃ dev, dsp_main fresh (comm_base (pf_desc P)) boot_device ids = Some dev ∧
    let turn := dsp_turn P dm (run_example null) xrp_run_command hs true dev in
    let devid := Z.of_nat (pf_dev P) in
    ∀ s t, SimCalls.world P kz s [] ∅ →
      t ∈ [f1 e fuel kz junk turn polls devid stack (stack + 32); f3 e fuel kz junk turn polls devid stack p1 p2;
           f4 e fuel kz devid; f5 e fuel kz devid stack; f6 e fuel kz junk turn polls devid;
           f7 e fuel kz junk turn polls devid stack] →
      ends t s (λ _ s', SimCalls.world P kz s' [] ∅).
Proof.
  intros Hok Hkz Hfull Hfr Hmem Hid Hnd Hsize Hsb Hst Hst0 Hp1 Hp2 Hap.
  destruct (dsp_main_ok fresh Hfr Hmem (comm_base (pf_desc P)) ids Hid Hnd) as (dev & E & Hdev & Hv1 & Hv2).
  exists dev. split; [done |]. intros turn devid s t Hs. unfold PAGE_SIZE in *. rewrite !elem_of_cons, elem_of_nil.
  intros [-> | [-> | [-> | [-> | [-> | [-> | []]]]]]].
  - apply f1_ends; try done; [unfold PAGE_SIZE; lia | by apply (private_le P stack 64); [lia |] | by apply (private_part P stack 64); [lia.. |] |].
    unfold ranges_apart. lia.
  - by apply f3_ends.
  - by apply (f4_ends P Hok kz Hkz Hfull e fuel junk dm hs null dev Hdev Hv1 Hv2).
  - apply (f5_ends P Hok kz Hkz Hfull e fuel junk dm hs null dev Hdev Hv1 Hv2); try done. by apply (private_le P stack 64); [lia |].
  - apply f6_ends; try done. unfold PAGE_SIZE. lia.
  - apply f7_ends; try done. unfold PAGE_SIZE. lia.
Qed.
