(* ===== verification/ExampleRuns.v ===== *)
(** * The example on a concrete platform

    [ExampleTests.example_tests_pass] applied to the device of
    [SimExamples], and the asynchronous test of xrp-example/linux_main.c
    evaluated for every order in which the worker can take its two commands. *)

From stdpp Require Import base tactics list gmap fin_maps numbers.
From S2P Require Import Prelude DspNs RefHeap Alloc PrivateAlloc PoolRoom Mem Interface HwSimple DspBuffer DspCmd.
From S2P Require Import SimMem SimLib SimRefs SimClient SimSteps SimTheorems SimBlocks SimEnqueue SimRun SimCommand SimCalls.
From S2P Require Import SimExamples SimCommandExamples ExampleDsp ExampleHost ExampleTests.
Open Scope Z_scope.

Module ExampleWorld.
Import SimWorld SimCommandWorld.
#[local] Existing Instance arch_sim.

Definition fresh (k : nat) : option (list (xrp_cmd_ns example_handler)) := Some (replicate k (mk_cmd_ns [] NullHandler 0)).
(** 16 identifiers for the self-test. *)
Definition ids : list (list Z) := (λ k, (k * 7) `mod` 256 :: replicate 15 k) <$> seqZ 1 16.
Definition null (ctx : Z) (a : cmd_args) (m : mem) (g : DspBuffer.xrp_buffer_group) : handler_result :=
  mk_hres XRP_STATUS_FAILURE m g.
Definition firmware : xrp_device example_handler := default boot_device (dsp_main fresh 0x10000000 boot_device ids).
Definition turn : mem → mem := dsp_turn board (λ _, 0) (run_example null) ExampleDsp.xrp_run_command hs true firmware.

Lemma fresh_is_ok : fresh_ok fresh.
Proof. intros k l [= <-]. apply length_replicate. Qed.

Lemma kz_is_full : kz_full kz.
Proof. intros h. split; by eexists. Qed.

Definition pool0 : alloc_state xrp_private_pool :=
  mk_alloc_state (mk_pool 0x10001000 0x8000 [mk_allocation 1 0x10001000 0x8000 0] {[1]}) ∅.

Lemma start_idle : SimCalls.world board kz start [] ∅.
Proof.
  pose proof (initial_holds start start_initial) as Hh.
  assert (gl_description (s_gl start) !! 0%nat = Some (with_pool dev pool0)) as Ed by (vm_compute; reflexivity).
  split; [exists pool0 | exact Hh | reflexivity | reflexivity].
  split; [vm_compute; reflexivity |]. split; [exact Ed |]. split; [reflexivity |].
  split; [apply (sh_pools _ _ _ _ Hh 0%nat); unfold pool_of; rewrite Ed; reflexivity |].
  split; [| vm_compute; lia]. intros _. split; [by constructor |]. split; [by constructor |]. intros x.
  change (live pool0) with (@nil xrp_allocation). cbn. unfold in_block, a_end. cbn. repeat case_match; lia.
Qed.

Lemma board_private a n : 0 ≤ a → 0 ≤ n → a + n ≤ 0x7f0000000000 - 0x10000 → private board a n.
Proof.
  intros Ha Hn H. split; [lia |]. split; [cbn; lia |]. intros r. cbn. unfold regions. rewrite !elem_of_cons, elem_of_nil.
  intros [-> | [-> | []]]; cbn; lia.
Qed.

(** The copy test, from the first state. *)
Lemma example_tests_pass_witness :
  ends (f3 world1 0 kz (λ _, 0) turn 3 0 0x1000 0x10000 0x20000) start (λ _ s', heap s' = ∅).
Proof.
  destruct (example_tests_pass board kz world1 0 (λ _, 0) (λ _, 0) hs 3 null fresh ids 0x1000 0x10000 0x20000
    board_ok kz_is_ok kz_is_full fresh_is_ok) as (fw & E & Hpass).
  - intros k. by eexists.
  - apply (bool_decide_unpack _). vm_compute. reflexivity.
  - apply (bool_decide_unpack _). vm_compute. reflexivity.
  - unfold PAGE_SIZE. cbn. lia.
  - cbn. lia.
  - apply board_private; lia.
  - done.
  - apply board_private; lia.
  - apply board_private; lia.
  - left. lia.
  - assert (firmware = fw) as Ef by (unfold firmware; change 0x10000000 with (comm_base (pf_desc board)); by rewrite E).
    cbn zeta in Hpass. unfold turn. rewrite Ef.
    destruct (Hpass start (f3 world1 0 kz (λ _, 0) (dsp_turn board (λ _, 0) (run_example null) ExampleDsp.xrp_run_command hs true fw)
      3 0 0x1000 0x10000 0x20000) start_idle) as (s' & x & Er & Hw); [right; by left |].
    exists s', x. split; [exact Er |]. apply map_eq. intros p. pose proof (w_objs _ _ _ _ _ Hw p) as Ho.
    unfold object in Ho. rewrite lookup_empty in *. by destruct (heap s' !! p).
Defined.

(** ** The asynchronous test *)

(** The worker takes the first command before the [a]-th and the second
    before the [b]-th of the calls that follow, or else when the program
    waits. *)
Definition order (a b k : nat) : nat := (if decide (a = k) then 1 else 0) + (if decide (b = k) then 1 else 0).
Definition f2_run (a b polls : nat) : ExampleHost.outcome () := f2 world1 0 kz (λ _, 0) turn polls 0 (order a b) start.
Definition clean (o : ExampleHost.outcome ()) : bool :=
  match o with
  | Done s _ =>
      bool_decide (dom (heap s) = ∅) && bool_decide (books s = ([], [])) &&
      match pool_of s 0 with Some st => bool_decide (dom (st_objs st) = ∅) | None => false end
  | _ => false
  end.
Definition orders : list (nat * nat) := a ← seq 0 6; b ← seq 1 5; if decide (a ≤ b)%nat then [(a, b)] else [].

Lemma orders_all : length orders = 20%nat.
Proof. reflexivity. Qed.

Lemma f2_all : forallb (λ ab, clean (f2_run ab.1 ab.2 2)) orders = true.
Proof. vm_compute. reflexivity. Qed.

Lemma clean_spec o :
  clean o = true → ∃ s, o = Done s () ∧ heap s = ∅ ∧ books s = ([], []) ∧ ∃ st, pool_of s 0 = Some st ∧ st_objs st = ∅.
Proof.
  destruct o as [s [] | |]; [| done | done]. intros Hc. exists s. split; [done |]. unfold clean in Hc.
  destruct (pool_of s 0) as [st |]; [| by rewrite andb_false_r in Hc].
  apply andb_prop in Hc as [[H1 H2]%andb_prop H3].
  apply bool_decide_eq_true in H1, H2, H3. apply dom_empty_inv_L in H1, H3. split_and!; [done | done |]. by exists st.
Qed.

(** In whichever order the worker thread takes the two commands of the
    asynchronous test between the calls of the program - at once, after the
    group, the buffer or the queue have been released, or only when the
    program waits - no assertion of the test fails, and at the end no object,
    no lost reference and no pool memory is left. *)
Theorem f2_every_order :
  Forall (λ ab, ∃ s, f2_run ab.1 ab.2 2 = Done s () ∧ heap s = ∅ ∧ books s = ([], []) ∧
    ∃ st, pool_of s 0 = Some st ∧ st_objs st = ∅) orders.
Proof.
  apply list.Forall_forall. intros ab Hab. pose proof (proj1 (forallb_forall _ _) f2_all ab (proj1 (list_elem_of_In _ _) Hab)) as Hc.
  cbn beta in Hc |- *. revert Hc. generalize (f2_run ab.1 ab.2 2). apply clean_spec.
Qed.

(** ** The framework's main loop *)

(** A command for a namespace nobody registered, then one for the default
    handler, with no data. *)
Definition two_commands : list (mem → mem) :=
  [λ m, store32 m 0x10000000 (Z.lor XRP_DSP_CMD_FLAG_REQUEST_VALID XRP_DSP_CMD_FLAG_REQUEST_NSID);
   λ m, store32 m 0x10000000 XRP_DSP_CMD_FLAG_REQUEST_VALID].
Definition final_flags {X} (r : option (mem * X)) : option (Z * X) := (λ x, (load32 x.1 0x10000000, x.2)) <$> r.

Example framework_stops :
  final_flags (framework_main (run_example null) framework_run_command hs true xrp_user_initialize 0x10000000 boot_device
    two_commands (λ _, 0)) =
  Some (Z.lor (Z.lor XRP_DSP_CMD_FLAG_REQUEST_VALID XRP_DSP_CMD_FLAG_REQUEST_NSID)
    (Z.lor XRP_DSP_CMD_FLAG_RESPONSE_VALID XRP_DSP_CMD_FLAG_RESPONSE_DELIVERY_FAIL), Some XRP_STATUS_FAILURE).
Proof. vm_compute. reflexivity. Qed.

Example dispatch_loop_goes_on :
  (λ m, load32 m 0x10000000) <$> dispatch_loop (run_example null) ExampleDsp.xrp_run_command hs true firmware two_commands (λ _, 0) =
  Some (Z.lor XRP_DSP_CMD_FLAG_REQUEST_VALID XRP_DSP_CMD_FLAG_RESPONSE_VALID).
Proof. vm_compute. reflexivity. Qed.
End ExampleWorld.
